(* ===== verification/_CoqProject ===== *)
-Q . S2P
Prelude.v
WpaDefs.v
Cli.v
Base64.v
EapolSm.v
EapolRx.v
Eloop.v
Aes.v
AesModes.v
AesAead.v
RsnIe.v
PmksaCache.v
WpaKey.v
Kde.v
WpaAuth.v
WpaAuthLogic.v
WpaAuthSafety.v
WpaAuthWeight.v
WpaAuthLoop.v
WpaAuthFaults.v
Wpabuf.v
Radius.v
RadiusMsg.v
RadiusSign.v
RadiusWire.v
RadiusKeys.v
Codec.v
Common.v
EapCommon.v
EapServer.v
EapMethods.v
EapServerFrame.v
EapServerLogic.v
EapServerSafety.v
EapAuth.v
Station.v
