(* ===== verification/Prelude.v ===== *)
(** * Verification of the DarkFlows router's C code

    DarkFlows turns a Linux machine into a router.  Its C code is the command
    line dispatcher [C/darkflows.c] and the access point daemon it ships with,
    hostapd 2.11 (src/hostapd-2.11); everything else in the repository is
    scripts, a web interface and configuration.  Paths below are relative to
    src/ for the dispatcher and to src/src/hostapd-2.11/src/ for hostapd.

    ** The program and its model

    hostapd is one process around an event loop.  Frames from stations arrive
    on sockets, reach the 802.1X code, set inputs of the per-station state
    machines, which talk to the EAP server; a finished authentication yields a
    master key, which is cached and protects the following handshakes with
    AES.  The files follow that path; each holds one component as a Module,
    with its data, its operations and then its theorems:

    - [Prelude]: machine integers and bytes, buffers, reads with bounds
      ([cres], whose [Fault] is undefined behaviour of the C program), record
      updates, the shared automation and hint databases.
    - [Cli]: C/darkflows.c.  The command table and its loading, the lookup, the
      argument vector; a run is the list of its visible actions.
    - [Eloop]: utils/eloop.c.  Timeouts, sockets, signals and the loop; the
      handlers and the operating system are the class [Host].
    - [EapolSm]: eapol_auth/eapol_auth_sm.c.  The IEEE 802.1X state machines of
      a station (port access entity, backend, reauthentication timer,
      controlled directions), their run loop and timers, and the calls of
      ap/ieee802_1x.c that feed them.  The EAP server and hostapd's callbacks
      are the class [Environment].
    - [EapolRx]: the reception of EAPOL frames, ap/ieee802_1x.c, from the bytes
      of a frame to the inputs of [EapolSm].
    - [WpaDefs]: the suite and key management constants and predicates of
      common/defs.h and common/wpa_common.h, and the byte order accessors of
      utils/common.h.
    - [RsnIe]: the writers (ap/wpa_auth_ie.c) and parsers (common/wpa_common.c)
      of the RSN and WPA elements.
    - [WpaKey], [Kde]: of common/wpa_common.c, the derivation of pairwise keys,
      the integrity codes of EAPOL-Key frames and the parsing of their key data.
    - [WpaAuth]: ap/wpa_auth.c.  The 4-way and group key handshakes: the
      machines of a station and of a group, their step loop, sending, reception,
      timers and the calls from the rest of hostapd.  The world one station sees
      is a record; what leaves it is a list of events; the callbacks, the random
      generator, the allocator and the other stations are the class [Hostapd].
      [WpaAuthLogic] is the weakest precondition its theorems are proved with;
      [WpaAuthSafety], [WpaAuthWeight] with [WpaAuthLoop], and [WpaAuthFaults]
      hold the theorems.
    - [Wpabuf]: utils/wpabuf.c, the growing buffers, in a monad of allocation
      outcomes.  [Radius]: radius/radius.c, building, signing, parsing and
      checking RADIUS messages; [RadiusMsg] relates a message to its list of
      attributes, [RadiusSign] the signed messages to what they promise;
      [RadiusWire] and [RadiusKeys] hold the theorems.
    - [EapServer]: eap_server/eap_server.c.  The EAP authenticator of RFC 4137
      with its pass-through half and EAP re-authentication (ERP), on a state
      that keeps the packets, the host's answers, the outcomes of allocations
      and the messages sent; the user database and the random generator are
      the class [EapHost], a method is the record [eap_method].  [EapCommon]:
      eap_common/eap_common.c; [EapMethods]: the Identity and MD5 methods.
      [EapServerLogic] is the logic of weakest preconditions, with what each
      state's entry does; [EapServerSafety] the invariant and the weight of the
      loop, for any methods that keep the laws [MethodsLaws]; [EapAuth] shows
      that the two methods keep them and holds the theorems; [EapServerFrame]
      what the server leaves alone.
    - [Station]: [EapolRx], [EapolSm] and [EapServer] together, as
      ap/ieee802_1x.c puts them together: the server is the [Environment] of the
      802.1X machines, and frames, timers, the AAA client and the rest of hostapd
      drive them.
    - [PmksaCache]: ap/pmksa_cache_auth.c on a heap of entries with their two
      chains of pointers; it uses [Eloop] for its timeout.
    - [Aes], [AesModes], [AesAead]: crypto/aes-internal*.c, the modes
      (aes-wrap, aes-unwrap, aes-ctr, aes-cbc, aes-omac1) and the authenticated
      modes (aes-eax, aes-siv, aes-ccm).  The modes are proved against the
      interface [BlockCipher] and its laws, which [Aes] implements.
    - [Base64]: utils/base64.c.  [Codec], [Common]: utils/common.c, the text
      codecs (hexadecimal, MAC addresses, escapes, configuration values, SSIDs)
      and the rest: counters, frequency lists, integer arrays, tokens.

    A C function keeps its name.  Its state is passed and returned; a result
    by pointer is part of the result; calls out of the program (allocation,
    clock, callbacks) are arguments or class members, so that the definitions
    have every outcome of theirs; what a theorem asks of them is a premise of it.
    One outcome the model does not have is an allocator that fails for ever: the
    monad of [Wpabuf] has a finite list of outcomes and succeeds behind it.
    Integers are [Z] with the width's wrap-around written
    where the code can reach it ([u8] to [u64], [s32]).  The configuration is
    that of hostapd's defconfig: code under an option that is off is left out.

    ** What the theorems show

    - Access control.  [EapolSm]: a port is authorized only after an EAP
      success or from a cached key; the driver is always told the port's
      state; a failed station is held for the quiet period.  [EapolRx]:
      whatever the bytes, reception reads inside the frame and leaves the
      machines in a reachable state; under management frame protection, clear
      text frames change nothing; a well-formed response is delivered.
    - A station as a whole.  [Station]: whatever frames arrive, the port opens only
      for a cached key, or when a step that this station's own EAP server has taken
      before turned no success into one with a proof; its steps never
      fault where it does not start ERP; and a run from EAPOL-Start over Identity
      and MD5 to the open port.
    - Keys.  [PmksaCache]: by induction on the operations, the chains, the
      count and the order are right in every reachable state, no freed pointer is
      followed and nothing leaks, and the timeout is registered as long as no
      registration with the event loop has failed, which the code does not look
      at; the hash search agrees with a search of everything; what adding, expiry
      and disconnection remove.
    - Handshakes.  [WpaKey]: both ends derive the same keys, of the right
      lengths, and the check of an integrity code is exact.  [Kde]: key data
      parses back to what was written, and parsing stays inside any bytes.
      [WpaAuthSafety]: by induction on the calls, a port opens and a key is used
      for sending only in the reception of a frame that proves the key, and the
      keys kept between calls are derived from the station's PMKs, where the
      RADIUS server is not asked for PSKs during handshakes ([radius_psk]) and
      neither SAE nor FILS is negotiated.  These are theorems on calls that
      return; undefined behaviour, a [Fault], is not one.
      [WpaAuthLoop]: the loop of steps ends while there are random bytes, a
      group message may be sent and the other stations' machines do to the group
      what passes do ([others_lawful]); without random bytes it need not.
      [WpaAuthFaults]: with [radius_psk], a late answer of the server opens the
      port without message 4/4; and a run into undefined behaviour.
    - EAP.  [EapAuth]: a success is reported only for a method that succeeded,
      for the AAA server's word or for a re-authentication with a stored key; a
      step returns from every reachable machine, unless the machine is told to
      start ERP, and then a NULL pointer is followed, and as long as failing
      allocations end: while they last the search for a method goes on
      ([failing_allocations_spin]); a method's private data is
      its own; what MD5 accepts; what a Nak leaves; requests are parsed back.
    - RADIUS.  [RadiusWire], [RadiusKeys]: what one end builds and signs, the
      other parses, accepts and reads: responses, EAP packets of any length, keys
      hidden with the secret (of 1 to 239 bytes); a response whose
      Message-Authenticators have their 16 bytes is accepted exactly when
      its digests are right; and two malformed messages: one whose
      Message-Authenticator is empty and that is read past its end, one that is
      built so.
    - Elements.  [RsnIe]: what is written is parsed back, parsing stays inside
      any element, and the access point's own elements fit their buffer.
    - Scheduling.  [Eloop]: timeouts run in the order of their deadlines,
      never early, whatever handlers do through the interface; registering,
      cancelling, depleting and replenishing do what they promise; a loop of
      timeouts ends.
    - Cryptography.  [Aes] is FIPS 197 and decryption inverts encryption; key
      unwrap (of a length the code's int can hold), CBC, EAX, SIV and CCM recover what was sealed; EAX opens only what
      carries the right tag; OMAC1 and CTR equal their reference definitions.
    - Tools.  [Base64], the codecs of [Codec] and the command table round trip,
      on C strings where the code reads strings;
      decoding stays within its buffers and ends; an address is read exactly
      from its text; sorting, tokens and counters do what they say; the
      dispatcher runs exactly the script selected.

    ** Bounds and fuel

    A loop that is not structural has fuel.  [EapolSm.step_loop] has the
    code's own limit of 100 passes; [PmksaCache.passes] is one more than the
    entries allocated, and running out is a [Fault] the theorems exclude;
    [Eloop.carry] has the number of whole seconds, [Eloop.run_loop] the number
    of passes asked for, and [eloop_run_drains] says how many are enough;
    [RsnIe.low_bytes] has the four bytes of its integer; the loops of [Codec]
    and [Common] the length of their text or array; [WpaAuth.step_loop]
    and [rekey_loop] have [step_fuel] passes; [step_loop_ends] says that these
    are enough for the first by a weight of the machines, of at most 160, that
    every pass but the last lowers; the second gives up when they are not;
    [EapServer.step_loop] has 60 passes, where a weight of the state bounds them
    by 30; [propose_loop] has one turn more than there are allocations left and
    methods to propose, so it counts on the list of outcomes to be finite, [nak_loop] the eight entries of its array.

    ** Not modelled

    The drivers, the EAP methods besides Identity and MD5, TLS, the RADIUS server, client and
    dynamic authorization, WPS, P2P, DPP, SAE, the supplicant and the station
    table, which talk to the kernel or to libraries or belong to other
    configurations; of ap/wpa_auth.c multiple BSSIDs (the BIGTK of the
    transmitting BSS), multi-link devices, the reference counts of VLAN groups,
    the calls that set a configuration anew and the MIB text; in [EapolSm] the WEP key
    machines, which the configuration leaves out, and the dump to text; in
    [Eloop] [eloop_destroy], [eloop_wait_for_read_sock] and the variants for
    poll, epoll and kqueue; in [PmksaCache] and [Radius] the listing to text; in
    [Common] the clearing of memory. HMAC and MD5 are functions nothing is known
    of, since the TLS library computes them. *)

From Stdlib Require Export ZArith Lia Bool.
From Stdlib Require Import Btauto.
From stdpp Require Export base tactics list numbers option relations.

#[global] Open Scope Z_scope.

(** ** Machine integers *)

(** C's unsigned integers of 8, 16, 32 and 64 bits are [Z]s kept in range by
    an explicit wrap-around. [size_t] and [unsigned long] are 64 bits wide,
    [int] is 32 bits. *)
Definition u8 (x : Z) : Z := x mod 2 ^ 8.
Definition u16 (x : Z) : Z := x mod 2 ^ 16.
Definition u32 (x : Z) : Z := x mod 2 ^ 32.
Definition u64 (x : Z) : Z := x mod 2 ^ 64.

(** Conversion to C's 32-bit [int], two's complement. *)
Definition s32 (x : Z) : Z := let y := u32 x in if y <? 2 ^ 31 then y else y - 2 ^ 32.

(** [BIT(x)] of utils/common.h. *)
Definition BIT (x : Z) : Z := Z.shiftl 1 x.

(** [flags & BIT(x)] as a C condition. *)
Definition has_bit (v x : Z) : bool := negb (Z.land v (BIT x) =? 0).

(** [flags & f] as a C condition, and [a | b | ...]. *)
Definition flag_set (flags f : Z) : bool := negb (Z.land flags f =? 0).
Definition any_of (l : list Z) : Z := foldr Z.lor 0 l.

(** A byte, a byte string, an unsigned 32-bit value. *)
Abbreviation is_byte b := (0 <= b < 256).
Abbreviation bytes l := (Forall (fun b => is_byte b) l).
Abbreviation is_u32 x := (0 <= x < 2 ^ 32).

(** Length of a list as a [Z], the way C counts buffers. *)
Abbreviation zlen l := (Z.of_nat (length l)).

Lemma u8_range x : is_byte (u8 x).
Proof. unfold u8. apply Z.mod_pos_bound. lia. Qed.

Lemma u16_range x : 0 <= u16 x < 2 ^ 16.
Proof. unfold u16. apply Z.mod_pos_bound. lia. Qed.

Lemma u32_range x : is_u32 (u32 x).
Proof. unfold u32. apply Z.mod_pos_bound. lia. Qed.

Lemma u64_range x : 0 <= u64 x < 2 ^ 64.
Proof. unfold u64. apply Z.mod_pos_bound. lia. Qed.

Lemma u8_small x : is_byte x -> u8 x = x.
Proof. intros. unfold u8. apply Z.mod_small. lia. Qed.

Lemma u16_small x : 0 <= x < 2 ^ 16 -> u16 x = x.
Proof. intros. unfold u16. apply Z.mod_small. lia. Qed.

Lemma u32_small x : is_u32 x -> u32 x = x.
Proof. intros. unfold u32. apply Z.mod_small. lia. Qed.

Lemma u64_small x : 0 <= x < 2 ^ 64 -> u64 x = x.
Proof. intros. unfold u64. apply Z.mod_small. lia. Qed.

Lemma s32_small x : - 2 ^ 31 <= x < 2 ^ 31 -> s32 x = x.
Proof.
  intros H. unfold s32, u32. destruct (Z.ltb_spec (x mod 2 ^ 32) (2 ^ 31)) as [L|L];
    Z.to_euclidean_division_equations; lia.
Qed.

Lemma s32_u32 x : s32 (u32 x) = s32 x.
Proof. unfold s32, u32. by rewrite Zmod_mod. Qed.

Create HintDb cint.
Create Rewrite HintDb cint.
#[export] Hint Resolve u8_range u16_range u32_range u64_range : cint.
#[export] Hint Rewrite u8_small u16_small u32_small u64_small s32_small using lia : cint.

(** ** Arithmetic automation *)

(** [lia] with quotients and remainders by constants. *)
Ltac dlia := Z.to_euclidean_division_equations; lia.

(** ** Bit operations as arithmetic *)

Lemma shiftl_mul x k : 0 <= k -> Z.shiftl x k = x * 2 ^ k.
Proof. apply Z.shiftl_mul_pow2. Qed.

Lemma shiftr_div x k : 0 <= k -> Z.shiftr x k = x / 2 ^ k.
Proof. apply Z.shiftr_div_pow2. Qed.

Lemma land_mask x k : 0 <= k -> Z.land x (Z.ones k) = x mod 2 ^ k.
Proof. apply Z.land_ones. Qed.

(** Disjoint operands: [|] is [+]. *)
Lemma lor_disjoint x y k :
  0 <= k -> 0 <= y < 2 ^ k -> Z.lor (x * 2 ^ k) y = x * 2 ^ k + y.
Proof.
  intros Hk Hy.
  assert (Hl : Z.land (x * 2 ^ k) y = 0).
  { apply Z.bits_inj'. intros n Hn.
    rewrite Z.land_spec, Z.bits_0.
    destruct (Z.lt_ge_cases n k).
    - rewrite Z.mul_pow2_bits_low by lia. done.
    - replace y with (y mod 2 ^ k) by (apply Z.mod_small; lia).
      rewrite Z.mod_pow2_bits_high by lia. apply andb_false_r. }
  pose proof (Z.add_lor_land (x * 2 ^ k) y) as HH. lia.
Qed.

Lemma lxor_disjoint x y k :
  0 <= k -> 0 <= y < 2 ^ k -> Z.lxor (x * 2 ^ k) y = x * 2 ^ k + y.
Proof.
  intros Hk Hy. rewrite <- (lor_disjoint x y k) by done. apply Z.lxor_lor.
  pose proof (Z.add_lor_land (x * 2 ^ k) y) as HH. rewrite lor_disjoint in HH by done. lia.
Qed.

Lemma lor_shiftl x y k :
  0 <= k -> 0 <= y < 2 ^ k -> Z.lor (Z.shiftl x k) y = x * 2 ^ k + y.
Proof. intros. rewrite shiftl_mul by done. by apply lor_disjoint. Qed.

Lemma bits_bound z k :
  0 <= k -> (forall n, k <= n -> Z.testbit z n = false) -> 0 <= z < 2 ^ k.
Proof.
  intros Hk Hz. replace z with (z mod 2 ^ k); [apply Z.mod_pos_bound; lia|].
  apply Z.bits_inj'. intros n Hn. destruct (Z.lt_ge_cases n k).
  - by rewrite Z.mod_pow2_bits_low.
  - rewrite Z.mod_pow2_bits_high by lia. symmetry. auto.
Qed.

Lemma bits_high z k n : 0 <= z < 2 ^ k -> 0 <= k <= n -> Z.testbit z n = false.
Proof.
  intros Hz Hn. rewrite <- (Z.mod_small z (2 ^ k)) by lia.
  by apply Z.mod_pow2_bits_high.
Qed.

Lemma lxor_range x y k :
  0 <= k -> 0 <= x < 2 ^ k -> 0 <= y < 2 ^ k -> 0 <= Z.lxor x y < 2 ^ k.
Proof.
  intros Hk Hx Hy. apply bits_bound; [done|]. intros n Hn.
  by rewrite Z.lxor_spec, (bits_high x k), (bits_high y k) by lia.
Qed.

Lemma lor_range x y k :
  0 <= k -> 0 <= x < 2 ^ k -> 0 <= y < 2 ^ k -> 0 <= Z.lor x y < 2 ^ k.
Proof.
  intros Hk Hx Hy. apply bits_bound; [done|]. intros n Hn.
  by rewrite Z.lor_spec, (bits_high x k), (bits_high y k) by lia.
Qed.

Lemma lxor_byte x y : is_byte x -> is_byte y -> is_byte (Z.lxor x y).
Proof. apply (lxor_range x y 8); lia. Qed.

Lemma land_lxor_r x y m : Z.land (Z.lxor x y) m = Z.lxor (Z.land x m) (Z.land y m).
Proof.
  apply Z.bits_inj'. intros n Hn. rewrite !Z.lxor_spec, !Z.land_spec, Z.lxor_spec.
  by destruct (Z.testbit x n), (Z.testbit y n), (Z.testbit m n).
Qed.

Lemma u8_land x : u8 x = Z.land x 0xff.
Proof. change 0xff with (Z.ones 8). by rewrite land_mask by lia. Qed.

Lemma lxor_cancel x y : Z.lxor (Z.lxor x y) y = x.
Proof. by rewrite Z.lxor_assoc, Z.lxor_nilpotent, Z.lxor_0_r. Qed.

#[export] Hint Resolve lxor_byte : cint.

(** Equations between exclusive ors. *)
Ltac xor_solve :=
  apply Z.bits_inj';
  let n := fresh "n" in let Hn := fresh "Hn" in
  intros n Hn; rewrite ?Z.lxor_spec, ?Z.bits_0; btauto.

(** A decidable property of bytes holds when it holds of the 256 values. *)
Lemma byte_forall (P : Z -> bool) b :
  forallb P (seqZ 0 256) = true -> is_byte b -> P b = true.
Proof.
  intros H Hb. rewrite forallb_forall in H. apply H.
  apply list_elem_of_In, elem_of_seqZ. lia.
Qed.

(** ** Record update *)

(** [r <| f := v |>] is [r] with the field [f] set to [v], like an assignment
    to a member of a C struct.  A record is [Settable] through its
    eta-expansion; the setter of a field is found by typeclass search. *)
Class Settable (R : Type) := eta_expand : R -> R.
Class Setter {R T : Type} (f : R -> T) := set_field : T -> R -> R.
Arguments set_field {R T} f {_} _ _.

Ltac find_setter :=
  match goal with
  | |- @Setter ?R ?T ?f =>
      let eta := constr:(_ : Settable R) in
      let v := fresh "v" in let r := fresh "r" in
      intros v r;
      let e := eval hnf in (eta r) in
      match eval pattern (f r) in e with
      | ?g _ => let e' := eval cbv beta in (g v) in exact e'
      end
  end.
#[export] Hint Extern 1 (Setter _) => find_setter : typeclass_instances.

Declare Scope record_scope.
Delimit Scope record_scope with record.
Notation "r <| f := v |>" := (set_field f v r)
  (at level 1, left associativity, format "r  <| f  :=  v |>") : record_scope.
#[global] Open Scope record_scope.

(** ** Lists as buffers *)

(** The byte of a buffer at a C index; reads are guarded by the callers. *)
Definition at_ (l : list Z) (i : Z) : Z := nth (Z.to_nat i) l 0.

Arguments at_ : simpl never.

Lemma at_lookup l i : at_ l i = default 0 (l !! Z.to_nat i).
Proof. apply nth_lookup. Qed.

(** The first bytes of a buffer written out. *)
Ltac at_simpl :=
  unfold at_; change (Z.to_nat 0) with 0%nat; change (Z.to_nat 1) with 1%nat;
  change (Z.to_nat 2) with 2%nat; change (Z.to_nat 3) with 3%nat; cbn [nth].

(** [buf + off, len] *)
Definition slice {A} (off len : Z) (l : list A) : list A :=
  take (Z.to_nat len) (drop (Z.to_nat off) l).

(** A decidable statement about closed terms. *)
Ltac by_deciding := refine (bool_decide_unpack _ _); vm_compute; exact I.

Lemma bytes_app (l k : list Z) : bytes (l ++ k) <-> bytes l /\ bytes k.
Proof. apply Forall_app. Qed.

Lemma bytes_cons b (l : list Z) : bytes (b :: l) <-> is_byte b /\ bytes l.
Proof. split; [inversion 1; by subst|]. intros []. by constructor. Qed.

Lemma bytes_take n (l : list Z) : bytes l -> bytes (take n l).
Proof. apply Forall_take. Qed.

Lemma bytes_drop n (l : list Z) : bytes l -> bytes (drop n l).
Proof. apply Forall_drop. Qed.

Lemma bytes_slice off len (l : list Z) : bytes l -> bytes (slice off len l).
Proof. intros. by apply bytes_take, bytes_drop. Qed.

Lemma bytes_replicate n x : is_byte x -> bytes (replicate n x).
Proof. intros. by apply Forall_replicate. Qed.

#[export] Hint Resolve bytes_take bytes_drop bytes_slice : cint.

(** [memcpy(l + off, bs, ...)] inside a buffer. *)
Definition put (off : Z) (bs l : list Z) : list Z :=
  take (Z.to_nat off) l ++ bs ++ drop (Z.to_nat off + length bs) l.

Lemma length_put off bs l :
  0 <= off -> off + zlen bs <= zlen l -> length (put off bs l) = length l.
Proof. intros. unfold put. rewrite !length_app, length_take, length_drop. lia. Qed.

Lemma bytes_put off bs l : bytes bs -> bytes l -> bytes (put off bs l).
Proof. intros. unfold put. rewrite !Forall_app. auto using bytes_take, bytes_drop. Qed.

Lemma length_slice {A} off len (l : list A) :
  0 <= off -> 0 <= len -> off + len <= zlen l -> length (slice off len l) = Z.to_nat len.
Proof. intros. unfold slice. rewrite length_take, length_drop. lia. Qed.

Lemma slice_app_l {A} n (a r : list A) : zlen a = n -> slice 0 n (a ++ r) = a.
Proof. intros. unfold slice. rewrite drop_0. by rewrite take_app_length' by lia. Qed.

Lemma slice_app_r {A} o n (a r : list A) : zlen a = o -> zlen r = n -> slice o n (a ++ r) = r.
Proof. intros. unfold slice. rewrite drop_app_length' by lia. by rewrite take_ge by lia. Qed.

Lemma slice_all {A} n (l : list A) : zlen l = n -> slice 0 n l = l.
Proof. intros. unfold slice. rewrite drop_0. by rewrite take_ge by lia. Qed.

Lemma slice_put off bs l :
  0 <= off -> off + zlen bs <= zlen l -> slice off (zlen bs) (put off bs l) = bs.
Proof.
  intros. unfold slice, put.
  rewrite drop_app_length' by (rewrite length_take; lia).
  by rewrite take_app_length' by lia.
Qed.

Lemma put_put off bs cs l :
  length bs = length cs -> 0 <= off -> off + zlen bs <= zlen l -> put off cs (put off bs l) = put off cs l.
Proof.
  intros Hl Ho Hb. unfold put at 1 3. f_equal; [|f_equal].
  - unfold put. by rewrite take_app_length' by (rewrite length_take; lia).
  - unfold put. rewrite <- drop_drop. rewrite drop_app_length' by (rewrite length_take; lia).
    by rewrite drop_app_length' by lia; rewrite Hl.
Qed.

Lemma put_slice off len l :
  0 <= off -> 0 <= len -> off + len <= zlen l -> put off (slice off len l) l = l.
Proof.
  intros. unfold put. rewrite length_slice by done. unfold slice.
  rewrite <- drop_drop, take_drop, take_drop. done.
Qed.

Lemma at_byte l i : bytes l -> is_byte (at_ l i).
Proof.
  intros H. unfold at_. destruct (nth_in_or_default (Z.to_nat i) l 0) as [E| ->]; [|lia].
  rewrite List.Forall_forall in H. exact (H _ E).
Qed.
#[export] Hint Resolve at_byte bytes_put : cint.

(** ** Big-endian integers *)

Definition be_val (l : list Z) : Z := foldl (fun v b => 256 * v + b) 0 l.

Fixpoint be_bytes (n : nat) (v : Z) : list Z :=
  match n with O => [] | S n => be_bytes n (v / 256) ++ [v mod 256] end.

Lemma be_val_snoc l b : be_val (l ++ [b]) = 256 * be_val l + b.
Proof. unfold be_val. by rewrite foldl_snoc. Qed.

Lemma be_val_cons b l : be_val (b :: l) = b * 256 ^ zlen l + be_val l.
Proof.
  induction l as [|c l IH] using rev_ind; [cbn; lia|].
  rewrite app_comm_cons, !be_val_snoc, IH, length_app, Nat2Z.inj_add, Z.pow_add_r by lia. cbn. lia.
Qed.

Lemma length_be_bytes n v : length (be_bytes n v) = n.
Proof. revert v. induction n as [|n IH]; intros v; cbn; [done|]. rewrite length_app, IH. cbn. lia. Qed.

Lemma bytes_be_bytes n v : bytes (be_bytes n v).
Proof.
  revert v. induction n as [|n IH]; intros v; cbn; [constructor|].
  apply bytes_app. split; [apply IH|]. constructor; [dlia|constructor].
Qed.

Lemma be_val_range l : bytes l -> 0 <= be_val l < 256 ^ zlen l.
Proof.
  induction l as [|b l IH] using rev_ind; intros Hl; [cbn; lia|].
  apply bytes_app in Hl as [Hl Hb]. apply bytes_cons in Hb as [Hb _].
  rewrite be_val_snoc, length_app, Nat2Z.inj_add, Z.pow_add_r by lia. specialize (IH Hl). cbn. lia.
Qed.

Lemma be_bytes_val l : bytes l -> be_bytes (length l) (be_val l) = l.
Proof.
  induction l as [|b l IH] using rev_ind; intros Hl; [done|].
  apply bytes_app in Hl as [Hl Hb]. apply bytes_cons in Hb as [Hb _].
  rewrite length_app, Nat.add_comm, be_val_snoc. cbn.
  replace ((256 * be_val l + b) / 256) with (be_val l) by dlia. rewrite IH by done. do 2 f_equal. dlia.
Qed.

Lemma be_val_bytes n v : 0 <= v < 256 ^ Z.of_nat n -> be_val (be_bytes n v) = v.
Proof.
  revert v. induction n as [|n IH]; intros v Hv; [cbn in *; lia|].
  rewrite Nat2Z.inj_succ, Z.pow_succ_r in Hv by lia.
  cbn [be_bytes]. rewrite be_val_snoc, IH; dlia.
Qed.

#[export] Hint Resolve bytes_be_bytes : cint.

(** ** Counting loops *)

(** [for (i = lo; i < hi; i++)] and [for (i = hi; i >= lo; i--)]. *)
Definition for_up {A} (lo hi : Z) (body : Z -> A -> A) (s : A) : A :=
  foldl (fun s i => body i s) s (seqZ lo (hi - lo)).
Definition for_down {A} (hi lo : Z) (body : Z -> A -> A) (s : A) : A :=
  foldl (fun s i => body i s) s (reverse (seqZ lo (hi - lo + 1))).

Lemma for_up_inv {A} (P : A -> Prop) lo hi body s :
  (forall i s, lo <= i < hi -> P s -> P (body i s)) -> P s -> P (for_up lo hi body s).
Proof.
  unfold for_up. intros Hb Hs.
  assert (Hin : Forall (fun i => lo <= i < hi) (seqZ lo (hi - lo)))
    by (apply Forall_forall; intros i; rewrite elem_of_seqZ; lia).
  revert s Hs. induction Hin; intros s Hs; cbn; auto.
Qed.

(** A loop down undoes the loop up when each pass undoes a pass. *)
Lemma for_down_up {A} (P : A -> Prop) lo hi (f g : Z -> A -> A) s :
  (forall i s, lo <= i < hi -> P s -> P (f i s) /\ g i (f i s) = s) -> P s ->
  for_down (hi - 1) lo g (for_up lo hi f s) = s.
Proof.
  unfold for_up, for_down. replace (hi - 1 - lo + 1) with (hi - lo) by lia. intros Hb Hs.
  assert (Hin : Forall (fun i => lo <= i < hi) (seqZ lo (hi - lo)))
    by (apply Forall_forall; intros i; rewrite elem_of_seqZ; lia).
  revert s Hs. induction Hin as [|i l Hi Hl IH]; intros s Hs; [done|].
  destruct (Hb i s Hi Hs) as [HP Hg].
  rewrite reverse_cons, foldl_snoc. cbn [foldl]. by rewrite IH.
Qed.

(** Induction on a list three elements at a time, for codes on 3-byte groups. *)
Lemma list_triple_ind {A} (P : list A -> Prop) :
  P [] -> (forall a, P [a]) -> (forall a b, P [a; b]) ->
  (forall a b c l, P l -> P (a :: b :: c :: l)) -> forall l, P l.
Proof.
  intros H0 H1 H2 H3. fix IH 1. intros [|a [|b [|c l]]];
    [exact H0|apply H1|apply H2|apply H3, IH].
Qed.

(** ** Results of code that can read or write out of range *)

(** [Fault] is an access outside an object: the theorems show that the
    modelled code never yields it. *)
Inductive cres (A : Type) : Type :=
| Ok (a : A)
| Fault.
Arguments Ok {A} _.
Arguments Fault {A}.

Definition cbind {A B} (m : cres A) (k : A -> cres B) : cres B :=
  match m with Ok a => k a | Fault => Fault end.

Declare Scope c_scope.
Delimit Scope c_scope with c.
Notation "x <-- m ;; k" := (cbind m (fun x => k))
  (at level 100, m at next level, right associativity) : c_scope.

(** [buf[i]], checked. *)
Definition rd (l : list Z) (i : Z) : cres Z :=
  if (0 <=? i) && (i <? zlen l) then Ok (at_ l i) else Fault.

(** [memcpy(dst, buf + i, n)], checked. *)
Definition rdn (l : list Z) (i n : Z) : cres (list Z) :=
  if (0 <=? i) && (0 <=? n) && (i + n <=? zlen l) then Ok (slice i n l) else Fault.

Lemma rd_ok l i : 0 <= i < zlen l -> rd l i = Ok (at_ l i).
Proof.
  intros. unfold rd. destruct (Z.leb_spec 0 i); [|lia].
  by destruct (Z.ltb_spec i (zlen l)); [|lia].
Qed.

Lemma rdn_ok l i n : 0 <= i -> 0 <= n -> i + n <= zlen l -> rdn l i n = Ok (slice i n l).
Proof.
  intros. unfold rdn. destruct (Z.leb_spec 0 i); [|lia].
  destruct (Z.leb_spec 0 n); [|lia].
  by destruct (Z.leb_spec (i + n) (zlen l)); [|lia].
Qed.

#[export] Hint Rewrite @rd_ok @rdn_ok using lia : cint.

(** ** Running a computation: it does not fault, and its result is right *)

Definition yields {A} (m : cres A) (Q : A -> Prop) : Prop := exists a, m = Ok a /\ Q a.

Lemma yields_ok {A} (a : A) (Q : A -> Prop) : Q a -> yields (Ok a) Q.
Proof. by exists a. Qed.

Lemma yields_bind {A B} (m : cres A) (k : A -> cres B) (P : A -> Prop) Q :
  yields m P -> (forall a, P a -> yields (k a) Q) -> yields (cbind m k) Q.
Proof. intros (a & -> & Ha) Hk. by apply Hk. Qed.

Lemma yields_rd {B} l i (k : Z -> cres B) Q :
  0 <= i < zlen l -> yields (k (at_ l i)) Q -> yields (cbind (rd l i) k) Q.
Proof. intros H. by rewrite rd_ok. Qed.

Lemma yields_rdn {B} l i n (k : list Z -> cres B) Q :
  0 <= i -> 0 <= n -> i + n <= zlen l -> yields (k (slice i n l)) Q -> yields (cbind (rdn l i n) k) Q.
Proof. intros. by rewrite rdn_ok. Qed.

Lemma yields_mono {A} (m : cres A) (P Q : A -> Prop) : yields m P -> (forall a, P a -> Q a) -> yields m Q.
Proof. intros (a & -> & Ha) H. exists a. auto. Qed.

(** [x] lies in the buffer [l]. *)
Definition part_of (l x : list Z) : Prop := exists a b, l = a ++ x ++ b.

Lemma part_of_slice off n (l : list Z) : part_of l (slice off n l).
Proof.
  exists (take (Z.to_nat off) l), (drop (Z.to_nat n) (drop (Z.to_nat off) l)).
  unfold slice. by rewrite !take_drop.
Qed.

Lemma part_of_trans l x y : part_of l x -> part_of x y -> part_of l y.
Proof. intros (a & b & ->) (c & d & ->). exists (a ++ c), (d ++ b). by rewrite <- !app_assoc. Qed.

Lemma part_of_drop n (l : list Z) : part_of l (drop n l).
Proof. exists (take n l), []. by rewrite app_nil_r, take_drop. Qed.

Lemma part_of_refl (l : list Z) : part_of l l.
Proof. exists [], []. by rewrite app_nil_r. Qed.
