(* ===== verification/WpaDefs.v ===== *)
(** * Shared definitions of the WPA code

    The cipher and key management bits of common/defs.h with their predicates,
    the suite selectors and key information bits of common/wpa_common.h, and
    the integer accessors of utils/common.h. *)

From S2P Require Import Prelude.

Module WpaDefs.

#[local] Open Scope list_scope.

(** *** Cipher suites and key management (common/defs.h) *)

Definition WPA_CIPHER_NONE : Z := BIT 0.
Definition WPA_CIPHER_WEP40 : Z := BIT 1.
Definition WPA_CIPHER_WEP104 : Z := BIT 2.
Definition WPA_CIPHER_TKIP : Z := BIT 3.
Definition WPA_CIPHER_CCMP : Z := BIT 4.
Definition WPA_CIPHER_AES_128_CMAC : Z := BIT 5.
Definition WPA_CIPHER_GCMP : Z := BIT 6.
Definition WPA_CIPHER_SMS4 : Z := BIT 7.
Definition WPA_CIPHER_GCMP_256 : Z := BIT 8.
Definition WPA_CIPHER_CCMP_256 : Z := BIT 9.
Definition WPA_CIPHER_BIP_GMAC_128 : Z := BIT 11.
Definition WPA_CIPHER_BIP_GMAC_256 : Z := BIT 12.
Definition WPA_CIPHER_BIP_CMAC_256 : Z := BIT 13.
Definition WPA_CIPHER_GTK_NOT_USED : Z := BIT 14.

Definition WPA_KEY_MGMT_IEEE8021X : Z := BIT 0.
Definition WPA_KEY_MGMT_PSK : Z := BIT 1.
Definition WPA_KEY_MGMT_NONE : Z := BIT 2.
Definition WPA_KEY_MGMT_IEEE8021X_NO_WPA : Z := BIT 3.
Definition WPA_KEY_MGMT_WPA_NONE : Z := BIT 4.
Definition WPA_KEY_MGMT_FT_IEEE8021X : Z := BIT 5.
Definition WPA_KEY_MGMT_FT_PSK : Z := BIT 6.
Definition WPA_KEY_MGMT_IEEE8021X_SHA256 : Z := BIT 7.
Definition WPA_KEY_MGMT_PSK_SHA256 : Z := BIT 8.
Definition WPA_KEY_MGMT_WPS : Z := BIT 9.
Definition WPA_KEY_MGMT_SAE : Z := BIT 10.
Definition WPA_KEY_MGMT_FT_SAE : Z := BIT 11.
Definition WPA_KEY_MGMT_WAPI_PSK : Z := BIT 12.
Definition WPA_KEY_MGMT_WAPI_CERT : Z := BIT 13.
Definition WPA_KEY_MGMT_CCKM : Z := BIT 14.
Definition WPA_KEY_MGMT_OSEN : Z := BIT 15.
Definition WPA_KEY_MGMT_IEEE8021X_SUITE_B : Z := BIT 16.
Definition WPA_KEY_MGMT_IEEE8021X_SUITE_B_192 : Z := BIT 17.
Definition WPA_KEY_MGMT_FILS_SHA256 : Z := BIT 18.
Definition WPA_KEY_MGMT_FILS_SHA384 : Z := BIT 19.
Definition WPA_KEY_MGMT_FT_FILS_SHA256 : Z := BIT 20.
Definition WPA_KEY_MGMT_FT_FILS_SHA384 : Z := BIT 21.
Definition WPA_KEY_MGMT_OWE : Z := BIT 22.
Definition WPA_KEY_MGMT_DPP : Z := BIT 23.
Definition WPA_KEY_MGMT_FT_IEEE8021X_SHA384 : Z := BIT 24.
Definition WPA_KEY_MGMT_PASN : Z := BIT 25.
Definition WPA_KEY_MGMT_SAE_EXT_KEY : Z := BIT 26.
Definition WPA_KEY_MGMT_FT_SAE_EXT_KEY : Z := BIT 27.
Definition WPA_KEY_MGMT_IEEE8021X_SHA384 : Z := BIT 28.

Definition WPA_PROTO_WPA : Z := BIT 0.
Definition WPA_PROTO_RSN : Z := BIT 1.
Definition WPA_PROTO_WAPI : Z := BIT 2.
Definition WPA_PROTO_OSEN : Z := BIT 3.

Definition WPA_KEY_MGMT_FT : Z :=
  any_of [WPA_KEY_MGMT_FT_PSK; WPA_KEY_MGMT_FT_IEEE8021X; WPA_KEY_MGMT_FT_IEEE8021X_SHA384;
   WPA_KEY_MGMT_FT_SAE; WPA_KEY_MGMT_FT_SAE_EXT_KEY; WPA_KEY_MGMT_FT_FILS_SHA256;
   WPA_KEY_MGMT_FT_FILS_SHA384].

Definition wpa_key_mgmt_wpa_ieee8021x (akm : Z) : bool :=
  flag_set akm (any_of
    [WPA_KEY_MGMT_IEEE8021X; WPA_KEY_MGMT_FT_IEEE8021X; WPA_KEY_MGMT_FT_IEEE8021X_SHA384; WPA_KEY_MGMT_CCKM;
     WPA_KEY_MGMT_OSEN; WPA_KEY_MGMT_IEEE8021X_SHA256; WPA_KEY_MGMT_IEEE8021X_SUITE_B;
     WPA_KEY_MGMT_IEEE8021X_SUITE_B_192; WPA_KEY_MGMT_FILS_SHA256; WPA_KEY_MGMT_FILS_SHA384;
     WPA_KEY_MGMT_FT_FILS_SHA256; WPA_KEY_MGMT_FT_FILS_SHA384; WPA_KEY_MGMT_IEEE8021X_SHA384]).
Definition wpa_key_mgmt_wpa_psk_no_sae (akm : Z) : bool :=
  flag_set akm (any_of
    [WPA_KEY_MGMT_PSK; WPA_KEY_MGMT_FT_PSK; WPA_KEY_MGMT_PSK_SHA256]).
Definition wpa_key_mgmt_wpa_psk (akm : Z) : bool :=
  flag_set akm (any_of
    [WPA_KEY_MGMT_PSK; WPA_KEY_MGMT_FT_PSK; WPA_KEY_MGMT_PSK_SHA256; WPA_KEY_MGMT_SAE;
     WPA_KEY_MGMT_SAE_EXT_KEY; WPA_KEY_MGMT_FT_SAE; WPA_KEY_MGMT_FT_SAE_EXT_KEY]).
Definition wpa_key_mgmt_ft (akm : Z) : bool :=
  flag_set akm WPA_KEY_MGMT_FT.
Definition wpa_key_mgmt_ft_psk (akm : Z) : bool :=
  flag_set akm WPA_KEY_MGMT_FT_PSK.
Definition wpa_key_mgmt_sae (akm : Z) : bool :=
  flag_set akm (any_of
    [WPA_KEY_MGMT_SAE; WPA_KEY_MGMT_SAE_EXT_KEY; WPA_KEY_MGMT_FT_SAE; WPA_KEY_MGMT_FT_SAE_EXT_KEY]).
Definition wpa_key_mgmt_sae_ext_key (akm : Z) : bool :=
  flag_set akm (any_of
    [WPA_KEY_MGMT_SAE_EXT_KEY; WPA_KEY_MGMT_FT_SAE_EXT_KEY]).
Definition wpa_key_mgmt_fils (akm : Z) : bool :=
  flag_set akm (any_of
    [WPA_KEY_MGMT_FILS_SHA256; WPA_KEY_MGMT_FILS_SHA384; WPA_KEY_MGMT_FT_FILS_SHA256;
     WPA_KEY_MGMT_FT_FILS_SHA384]).
Definition wpa_key_mgmt_sha256 (akm : Z) : bool :=
  flag_set akm (any_of
    [WPA_KEY_MGMT_FT_IEEE8021X; WPA_KEY_MGMT_PSK_SHA256; WPA_KEY_MGMT_IEEE8021X_SHA256; WPA_KEY_MGMT_SAE;
     WPA_KEY_MGMT_FT_SAE; WPA_KEY_MGMT_OSEN; WPA_KEY_MGMT_IEEE8021X_SUITE_B; WPA_KEY_MGMT_FILS_SHA256;
     WPA_KEY_MGMT_FT_FILS_SHA256]).
Definition wpa_key_mgmt_sha384 (akm : Z) : bool :=
  flag_set akm (any_of
    [WPA_KEY_MGMT_IEEE8021X_SUITE_B_192; WPA_KEY_MGMT_FT_IEEE8021X_SHA384; WPA_KEY_MGMT_FILS_SHA384;
     WPA_KEY_MGMT_FT_FILS_SHA384; WPA_KEY_MGMT_IEEE8021X_SHA384]).
Definition wpa_key_mgmt_suite_b (akm : Z) : bool :=
  flag_set akm (any_of
    [WPA_KEY_MGMT_IEEE8021X_SUITE_B; WPA_KEY_MGMT_IEEE8021X_SUITE_B_192]).
Definition wpa_key_mgmt_cross_akm (akm : Z) : bool :=
  flag_set akm (any_of
    [WPA_KEY_MGMT_PSK; WPA_KEY_MGMT_PSK_SHA256; WPA_KEY_MGMT_SAE; WPA_KEY_MGMT_SAE_EXT_KEY]).
Definition wpa_key_mgmt_only_ft (akm : Z) : bool :=
  let ft := wpa_key_mgmt_ft akm in
  let akm := Z.land akm (Z.lnot WPA_KEY_MGMT_FT) in
  ft && (akm =? 0).
Definition wpa_key_mgmt_wpa (akm : Z) : bool :=
  wpa_key_mgmt_wpa_ieee8021x akm || wpa_key_mgmt_wpa_psk akm || wpa_key_mgmt_fils akm ||
  wpa_key_mgmt_sae akm || (akm =? WPA_KEY_MGMT_OWE) || (akm =? WPA_KEY_MGMT_DPP).
Definition wpa_key_mgmt_wpa_any (akm : Z) : bool :=
  wpa_key_mgmt_wpa akm || flag_set akm WPA_KEY_MGMT_WPA_NONE.
Definition wpa_key_mgmt_cckm (akm : Z) : bool := akm =? WPA_KEY_MGMT_CCKM.

(** *** Suite selectors and key information (common/wpa_common.h) *)

Definition RSN_SELECTOR (a b c d : Z) : Z :=
  Z.lor (Z.lor (Z.lor (u32 (Z.shiftl a 24)) (u32 (Z.shiftl b 16))) (u32 (Z.shiftl c 8))) d.

Definition WPA_AUTH_KEY_MGMT_NONE : Z := RSN_SELECTOR 0x00 0x50 0xf2 0.
Definition WPA_AUTH_KEY_MGMT_UNSPEC_802_1X : Z := RSN_SELECTOR 0x00 0x50 0xf2 1.
Definition WPA_AUTH_KEY_MGMT_PSK_OVER_802_1X : Z := RSN_SELECTOR 0x00 0x50 0xf2 2.
Definition WPA_AUTH_KEY_MGMT_CCKM : Z := RSN_SELECTOR 0x00 0x40 0x96 0.
Definition WPA_CIPHER_SUITE_NONE : Z := RSN_SELECTOR 0x00 0x50 0xf2 0.
Definition WPA_CIPHER_SUITE_TKIP : Z := RSN_SELECTOR 0x00 0x50 0xf2 2.
Definition WPA_CIPHER_SUITE_CCMP : Z := RSN_SELECTOR 0x00 0x50 0xf2 4.
Definition RSN_AUTH_KEY_MGMT_UNSPEC_802_1X : Z := RSN_SELECTOR 0x00 0x0f 0xac 1.
Definition RSN_AUTH_KEY_MGMT_PSK_OVER_802_1X : Z := RSN_SELECTOR 0x00 0x0f 0xac 2.
Definition RSN_AUTH_KEY_MGMT_FT_802_1X : Z := RSN_SELECTOR 0x00 0x0f 0xac 3.
Definition RSN_AUTH_KEY_MGMT_FT_PSK : Z := RSN_SELECTOR 0x00 0x0f 0xac 4.
Definition RSN_AUTH_KEY_MGMT_802_1X_SHA256 : Z := RSN_SELECTOR 0x00 0x0f 0xac 5.
Definition RSN_AUTH_KEY_MGMT_PSK_SHA256 : Z := RSN_SELECTOR 0x00 0x0f 0xac 6.
Definition RSN_AUTH_KEY_MGMT_TPK_HANDSHAKE : Z := RSN_SELECTOR 0x00 0x0f 0xac 7.
Definition RSN_AUTH_KEY_MGMT_SAE : Z := RSN_SELECTOR 0x00 0x0f 0xac 8.
Definition RSN_AUTH_KEY_MGMT_FT_SAE : Z := RSN_SELECTOR 0x00 0x0f 0xac 9.
Definition RSN_AUTH_KEY_MGMT_802_1X_SUITE_B : Z := RSN_SELECTOR 0x00 0x0f 0xac 11.
Definition RSN_AUTH_KEY_MGMT_802_1X_SUITE_B_192 : Z := RSN_SELECTOR 0x00 0x0f 0xac 12.
Definition RSN_AUTH_KEY_MGMT_FT_802_1X_SHA384 : Z := RSN_SELECTOR 0x00 0x0f 0xac 13.
Definition RSN_AUTH_KEY_MGMT_FILS_SHA256 : Z := RSN_SELECTOR 0x00 0x0f 0xac 14.
Definition RSN_AUTH_KEY_MGMT_FILS_SHA384 : Z := RSN_SELECTOR 0x00 0x0f 0xac 15.
Definition RSN_AUTH_KEY_MGMT_FT_FILS_SHA256 : Z := RSN_SELECTOR 0x00 0x0f 0xac 16.
Definition RSN_AUTH_KEY_MGMT_FT_FILS_SHA384 : Z := RSN_SELECTOR 0x00 0x0f 0xac 17.
Definition RSN_AUTH_KEY_MGMT_OWE : Z := RSN_SELECTOR 0x00 0x0f 0xac 18.
Definition RSN_AUTH_KEY_MGMT_FT_PSK_SHA384 : Z := RSN_SELECTOR 0x00 0x0f 0xac 19.
Definition RSN_AUTH_KEY_MGMT_PSK_SHA384 : Z := RSN_SELECTOR 0x00 0x0f 0xac 20.
Definition RSN_AUTH_KEY_MGMT_PASN : Z := RSN_SELECTOR 0x00 0x0f 0xac 21.
Definition RSN_AUTH_KEY_MGMT_FT_802_1X_SHA384_UNRESTRICTED : Z := RSN_SELECTOR 0x00 0x0f 0xac 22.
Definition RSN_AUTH_KEY_MGMT_802_1X_SHA384 : Z := RSN_SELECTOR 0x00 0x0f 0xac 23.
Definition RSN_AUTH_KEY_MGMT_SAE_EXT_KEY : Z := RSN_SELECTOR 0x00 0x0f 0xac 24.
Definition RSN_AUTH_KEY_MGMT_FT_SAE_EXT_KEY : Z := RSN_SELECTOR 0x00 0x0f 0xac 25.
Definition RSN_AUTH_KEY_MGMT_CCKM : Z := RSN_SELECTOR 0x00 0x40 0x96 0x00.
Definition RSN_AUTH_KEY_MGMT_OSEN : Z := RSN_SELECTOR 0x50 0x6f 0x9a 0x01.
Definition RSN_AUTH_KEY_MGMT_DPP : Z := RSN_SELECTOR 0x50 0x6f 0x9a 0x02.
Definition RSN_CIPHER_SUITE_NONE : Z := RSN_SELECTOR 0x00 0x0f 0xac 0.
Definition RSN_CIPHER_SUITE_WEP40 : Z := RSN_SELECTOR 0x00 0x0f 0xac 1.
Definition RSN_CIPHER_SUITE_TKIP : Z := RSN_SELECTOR 0x00 0x0f 0xac 2.
Definition RSN_CIPHER_SUITE_CCMP : Z := RSN_SELECTOR 0x00 0x0f 0xac 4.
Definition RSN_CIPHER_SUITE_WEP104 : Z := RSN_SELECTOR 0x00 0x0f 0xac 5.
Definition RSN_CIPHER_SUITE_AES_128_CMAC : Z := RSN_SELECTOR 0x00 0x0f 0xac 6.
Definition RSN_CIPHER_SUITE_NO_GROUP_ADDRESSED : Z := RSN_SELECTOR 0x00 0x0f 0xac 7.
Definition RSN_CIPHER_SUITE_GCMP : Z := RSN_SELECTOR 0x00 0x0f 0xac 8.
Definition RSN_CIPHER_SUITE_GCMP_256 : Z := RSN_SELECTOR 0x00 0x0f 0xac 9.
Definition RSN_CIPHER_SUITE_CCMP_256 : Z := RSN_SELECTOR 0x00 0x0f 0xac 10.
Definition RSN_CIPHER_SUITE_BIP_GMAC_128 : Z := RSN_SELECTOR 0x00 0x0f 0xac 11.
Definition RSN_CIPHER_SUITE_BIP_GMAC_256 : Z := RSN_SELECTOR 0x00 0x0f 0xac 12.
Definition RSN_CIPHER_SUITE_BIP_CMAC_256 : Z := RSN_SELECTOR 0x00 0x0f 0xac 13.
Definition RSN_CIPHER_SUITE_SMS4 : Z := RSN_SELECTOR 0x00 0x14 0x72 1.
Definition RSN_CIPHER_SUITE_CKIP : Z := RSN_SELECTOR 0x00 0x40 0x96 0.
Definition RSN_CIPHER_SUITE_CKIP_CMIC : Z := RSN_SELECTOR 0x00 0x40 0x96 1.
Definition RSN_CIPHER_SUITE_CMIC : Z := RSN_SELECTOR 0x00 0x40 0x96 2.
Definition RSN_CIPHER_SUITE_KRK : Z := RSN_SELECTOR 0x00 0x40 0x96 255.
Definition RSN_KEY_DATA_GROUPKEY : Z := RSN_SELECTOR 0x00 0x0f 0xac 1.
Definition RSN_KEY_DATA_MAC_ADDR : Z := RSN_SELECTOR 0x00 0x0f 0xac 3.
Definition RSN_KEY_DATA_PMKID : Z := RSN_SELECTOR 0x00 0x0f 0xac 4.
Definition RSN_KEY_DATA_IGTK : Z := RSN_SELECTOR 0x00 0x0f 0xac 9.
Definition RSN_KEY_DATA_KEYID : Z := RSN_SELECTOR 0x00 0x0f 0xac 10.
Definition RSN_KEY_DATA_MULTIBAND_GTK : Z := RSN_SELECTOR 0x00 0x0f 0xac 11.
Definition RSN_KEY_DATA_MULTIBAND_KEYID : Z := RSN_SELECTOR 0x00 0x0f 0xac 12.
Definition RSN_KEY_DATA_OCI : Z := RSN_SELECTOR 0x00 0x0f 0xac 13.
Definition RSN_KEY_DATA_BIGTK : Z := RSN_SELECTOR 0x00 0x0f 0xac 14.
Definition RSN_KEY_DATA_MLO_GTK : Z := RSN_SELECTOR 0x00 0x0f 0xac 16.
Definition RSN_KEY_DATA_MLO_IGTK : Z := RSN_SELECTOR 0x00 0x0f 0xac 17.
Definition RSN_KEY_DATA_MLO_BIGTK : Z := RSN_SELECTOR 0x00 0x0f 0xac 18.
Definition RSN_KEY_DATA_MLO_LINK : Z := RSN_SELECTOR 0x00 0x0f 0xac 19.
Definition WFA_KEY_DATA_IP_ADDR_REQ : Z := RSN_SELECTOR 0x50 0x6f 0x9a 4.
Definition WFA_KEY_DATA_IP_ADDR_ALLOC : Z := RSN_SELECTOR 0x50 0x6f 0x9a 5.
Definition WFA_KEY_DATA_TRANSITION_DISABLE : Z := RSN_SELECTOR 0x50 0x6f 0x9a 0x20.
Definition WFA_KEY_DATA_DPP : Z := RSN_SELECTOR 0x50 0x6f 0x9a 0x21.
Definition WPA_OUI_TYPE : Z := RSN_SELECTOR 0x00 0x50 0xf2 1.

Definition PMKID_LEN : Z := 16.
Definition PMK_LEN : Z := 32.
Definition PMK_LEN_MAX : Z := 64.
Definition WPA_REPLAY_COUNTER_LEN : Z := 8.
Definition WPA_NONCE_LEN : Z := 32.
Definition WPA_KEY_RSC_LEN : Z := 8.
Definition WPA_GMK_LEN : Z := 32.
Definition WPA_SELECTOR_LEN : Z := 4.
Definition WPA_VERSION : Z := 1.
Definition RSN_SELECTOR_LEN : Z := 4.
Definition RSN_VERSION : Z := 1.
Definition RSN_NUM_REPLAY_COUNTERS_16 : Z := 3.
Definition WPA_KEY_INFO_TYPE_AKM_DEFINED : Z := 0.
Definition WPA_KEY_INFO_TYPE_AES_128_CMAC : Z := 3.
Definition WPA_KCK_MAX_LEN : Z := 32.

Definition WPA_CAPABILITY_PREAUTH : Z := BIT 0.
Definition WPA_CAPABILITY_NO_PAIRWISE : Z := BIT 1.
Definition WPA_CAPABILITY_MFPR : Z := BIT 6.
Definition WPA_CAPABILITY_MFPC : Z := BIT 7.
Definition WPA_CAPABILITY_PEERKEY_ENABLED : Z := BIT 9.
Definition WPA_CAPABILITY_SPP_A_MSDU_CAPABLE : Z := BIT 10.
Definition WPA_CAPABILITY_SPP_A_MSDU_REQUIRED : Z := BIT 11.
Definition WPA_CAPABILITY_PBAC : Z := BIT 12.
Definition WPA_CAPABILITY_EXT_KEY_ID_FOR_UNICAST : Z := BIT 13.
Definition WPA_CAPABILITY_OCVC : Z := BIT 14.
Definition WPA_KEY_INFO_TYPE_HMAC_MD5_RC4 : Z := BIT 0.
Definition WPA_KEY_INFO_TYPE_HMAC_SHA1_AES : Z := BIT 1.
Definition WPA_KEY_INFO_KEY_TYPE : Z := BIT 3.
Definition WPA_KEY_INFO_INSTALL : Z := BIT 6.
Definition WPA_KEY_INFO_TXRX : Z := BIT 6.
Definition WPA_KEY_INFO_ACK : Z := BIT 7.
Definition WPA_KEY_INFO_MIC : Z := BIT 8.
Definition WPA_KEY_INFO_SECURE : Z := BIT 9.
Definition WPA_KEY_INFO_ERROR : Z := BIT 10.
Definition WPA_KEY_INFO_REQUEST : Z := BIT 11.
Definition WPA_KEY_INFO_ENCR_KEY_DATA : Z := BIT 12.
Definition WPA_KEY_INFO_SMK_MESSAGE : Z := BIT 13.

(** *** Elements (common/ieee802_11_defs.h) *)

Definition WLAN_EID_RSN : Z := 48.
Definition WLAN_EID_VENDOR_SPECIFIC : Z := 221.
Definition WLAN_EID_RSNX : Z := 244.
Definition OSEN_IE_VENDOR_TYPE : Z := 0x506f9a12.
Definition OUI_WFA : Z := 0x506f9a.
Definition HS20_OSEN_OUI_TYPE : Z := 18.

(** *** Integers in buffers (utils/common.h) *)

Definition WPA_GET_BE16 (a : list Z) : cres Z :=
  (x <-- rd a 0 ;; y <-- rd a 1 ;; Ok (Z.lor (Z.shiftl x 8) y))%c.
Definition WPA_GET_LE16 (a : list Z) : cres Z :=
  (y <-- rd a 1 ;; x <-- rd a 0 ;; Ok (Z.lor (Z.shiftl y 8) x))%c.
Definition WPA_GET_BE32 (a : list Z) : cres Z :=
  (x <-- rd a 0 ;; y <-- rd a 1 ;; z <-- rd a 2 ;; w <-- rd a 3 ;;
   Ok (Z.lor (Z.lor (Z.lor (u32 (Z.shiftl x 24)) (Z.shiftl y 16)) (Z.shiftl z 8)) w))%c.
Definition RSN_SELECTOR_GET (a : list Z) : cres Z := WPA_GET_BE32 a.

Definition WPA_PUT_BE16 (val : Z) : list Z := [u8 (Z.shiftr val 8); Z.land val 0xff].
Definition WPA_PUT_LE16 (val : Z) : list Z := [Z.land val 0xff; u8 (Z.shiftr val 8)].
Definition WPA_PUT_BE24 (val : Z) : list Z :=
  [Z.land (Z.shiftr val 16) 0xff; Z.land (Z.shiftr val 8) 0xff; Z.land val 0xff].
Definition WPA_PUT_BE32 (val : Z) : list Z :=
  [Z.land (Z.shiftr val 24) 0xff; Z.land (Z.shiftr val 16) 0xff; Z.land (Z.shiftr val 8) 0xff; Z.land val 0xff].
Definition RSN_SELECTOR_PUT (val : Z) : list Z := WPA_PUT_BE32 val.

(** ** Lemmas *)

Lemma get_put_le16 v r : 0 <= v < 2 ^ 16 -> WPA_GET_LE16 (WPA_PUT_LE16 v ++ r) = Ok v.
Proof.
  intros H. unfold WPA_GET_LE16, WPA_PUT_LE16. cbn [app].
  rewrite !rd_ok by (cbn [length]; lia). cbn [cbind]. at_simpl. f_equal.
  rewrite shiftr_div, u8_small by dlia. change 0xff with (Z.ones 8). rewrite land_mask by lia.
  rewrite lor_shiftl by dlia. dlia.
Qed.

Lemma get_put_be32 v r : is_u32 v -> WPA_GET_BE32 (WPA_PUT_BE32 v ++ r) = Ok v.
Proof.
  intros H. unfold WPA_GET_BE32, WPA_PUT_BE32. cbn [app].
  rewrite !rd_ok by (cbn [length]; lia). cbn [cbind]. at_simpl.
  f_equal. rewrite !shiftr_div by lia. change 0xff with (Z.ones 8). rewrite !land_mask by lia.
  rewrite (u32_small (Z.shiftl _ _)) by (rewrite shiftl_mul; dlia). rewrite !shiftl_mul by lia.
  set (a := (v / 2 ^ 24) mod 2 ^ 8). set (b := (v / 2 ^ 16) mod 2 ^ 8). set (c := (v / 2 ^ 8) mod 2 ^ 8).
  assert (Hb : 0 <= b < 2 ^ 8) by (apply Z.mod_pos_bound; lia).
  assert (Hc : 0 <= c < 2 ^ 8) by (apply Z.mod_pos_bound; lia).
  rewrite (lor_disjoint a (b * 2 ^ 16) 24) by lia.
  replace (a * 2 ^ 24 + b * 2 ^ 16) with ((a * 2 ^ 8 + b) * 2 ^ 16) by lia.
  rewrite (lor_disjoint _ (c * 2 ^ 8) 16) by lia.
  replace ((a * 2 ^ 8 + b) * 2 ^ 16 + c * 2 ^ 8) with ((a * 2 ^ 16 + b * 2 ^ 8 + c) * 2 ^ 8) by lia.
  rewrite (lor_disjoint _ (v mod 2 ^ 8) 8) by dlia. unfold a, b, c. dlia.
Qed.

Lemma get_put_selector v r : is_u32 v -> RSN_SELECTOR_GET (RSN_SELECTOR_PUT v ++ r) = Ok v.
Proof. apply get_put_be32. Qed.

End WpaDefs.
