(* ===== verification/Cli.v ===== *)
(** * The [darkflows] command line dispatcher (C/darkflows.c)

    [Command] tables (embedded, or loaded from [commands.csv]), the lookup of a
    command and its sub-command, the help flags and the argument vector handed
    to [execvp].  The outcome of a run is the list of its visible actions. *)

From Stdlib Require Import String Ascii.
From stdpp Require Import strings.
From S2P Require Import Prelude.

#[local] Open Scope string_scope.
#[local] Arguments String.append !_ _ /.

Module Cli.

Definition MAX_ARGS : nat := 10.
Definition USE_EMBEDDED_COMMANDS : bool := true.

Record Command := mkCommand {
  primary : string;
  secondary : string;
  command : string;
  help : string
}.

Definition embedded_commands : list Command :=
  [ mkCommand "route" "" "" "this is to route stuff";
    mkCommand "route" "add" "route_add.sh" "this is to add a route";
    mkCommand "route" "del" "route_delete.sh -d" "this is to delete a route";
    mkCommand "status" "" "status.sh" "this is to get server status";
    mkCommand "" "" "" "" ].

(** What a run does, in order. *)
Inductive action :=
| Print (s : string)
| Perror (s : string)
| Execvp (file : string) (argv : list (option string)).

(** ** Reading [commands.csv] *)

Definition newline : ascii := ascii_of_nat 10.
Definition nul : ascii := ascii_of_nat 0.
Definition comma : ascii := ",".

(** [fgets(line, n + 1, file)] on the unread part of the file: the line with
    its newline, at most [n] characters, and what is left. *)
Fixpoint fgets_chars (n : nat) (s : string) : string * string :=
  match n, s with
  | S n', String c s' =>
      if Ascii.eqb c newline then (String c "", s')
      else let '(l, r) := fgets_chars n' s' in (String c l, r)
  | _, _ => ("", s)
  end.

Definition fgets (n : nat) (s : string) : option (string * string) :=
  match s with "" => None | _ => Some (fgets_chars n s) end.

(** The C string a buffer holds: what precedes its first NUL. *)
Fixpoint c_string (s : string) : string :=
  match s with
  | "" => ""
  | String c s' => if Ascii.eqb c nul then "" else String c (c_string s')
  end.

Fixpoint skip_delim (d : ascii) (s : string) : string :=
  match s with
  | "" => ""
  | String c s' => if Ascii.eqb c d then skip_delim d s' else s
  end.

Fixpoint token (d : ascii) (s : string) : string * string :=
  match s with
  | "" => ("", "")
  | String c s' =>
      if Ascii.eqb c d then ("", s')
      else let '(t, r) := token d s' in (String c t, r)
  end.

(** One [strtok] call with the one-character delimiter set [d], on the string
    its saved pointer designates: the token, or NULL, and the new saved string. *)
Definition strtok (d : ascii) (s : string) : option string * string :=
  match skip_delim d s with
  | "" => (None, "")
  | s' => let '(t, r) := token d s' in (Some t, r)
  end.

(** [strncpy(field, src, sizeof(field) - 1)] and the string the field then
    holds.  [residue] is the byte the field had in its last position, which the
    call never writes; without a NUL there, a source that fills the field leaves
    it unterminated and the string runs past the object. *)
Definition strncpy_field (size : nat) (residue : ascii) (src : string) : cres string :=
  if (String.length src <? size - 1)%nat then Ok src
  else if Ascii.eqb residue nul then Ok (String.substring 0 (size - 1) src)
  else Fault.

(** One line of the table, cut at its commas; [residue i f] is the last byte of
    field [f] of [commands[i]] before the call. *)
Definition parse_line (residue : nat -> ascii) (line : string) : cres (option Command) :=
  let '(p, r1) := strtok comma (c_string line) in
  let '(s, r2) := strtok comma r1 in
  let '(c, r3) := strtok comma r2 in
  let '(h, _) := strtok newline r3 in
  match p with
  | None => Ok None
  | Some p =>
      (p' <-- strncpy_field 50 (residue 0%nat) p ;;
       s' <-- strncpy_field 50 (residue 1%nat) (default "" s) ;;
       c' <-- strncpy_field 100 (residue 2%nat) (default "" c) ;;
       h' <-- strncpy_field 200 (residue 3%nat) (default "No description" h) ;;
       Ok (Some (mkCommand p' s' c' h')))%c
  end.

(** The [while (fgets(...) && count < max_commands)] loop, [acc] being the
    entries stored so far.  Every [fgets] takes at least a character of the
    file, so the length of the file is enough fuel ([load_loop_fuel]). *)
Fixpoint load_loop (fuel : nat) (residue : nat -> nat -> ascii) (max_commands : nat)
    (acc : list Command) (file : string) : cres (list Command) :=
  match fuel with
  | O => Ok acc
  | S fuel' =>
      match fgets 255 file with
      | None => Ok acc
      | Some (line, rest) =>
          if (length acc <? max_commands)%nat then
            (e <-- parse_line (residue (length acc)) line ;;
             match e with
             | Some c => load_loop fuel' residue max_commands (acc ++ [c])%list rest
             | None => load_loop fuel' residue max_commands acc rest
             end)%c
          else Ok acc
      end
  end.

(** [file] is [None] when the file does not open: the caller then exits. *)
Definition load_commands (residue : nat -> nat -> ascii) (file : option string)
    (max_commands : nat) : cres (option (list Command)) :=
  match file with
  | None => Ok None
  | Some content =>
      (l <-- load_loop (String.length content) residue max_commands [] content ;;
       Ok (Some l))%c
  end.

(** ** Help *)

Definition is_help_flag (arg : string) : bool :=
  (arg =? "-h") || (arg =? "--h") || (arg =? "-help") || (arg =? "--help").

(** The entry whose help [show_command_help] prints: the first one with the
    given primary whose secondary is the sub-command, or is empty when no
    sub-command was given. *)
Definition help_entry (cmd : string) (subcmd : option string) (c : Command) : bool :=
  (primary c =? cmd) &&
  match subcmd with
  | Some sub => secondary c =? sub
  | None => secondary c =? ""
  end.

Definition show_command_help (commands : list Command) (cmd : string)
    (subcmd : option string) : list action :=
  match List.find (help_entry cmd subcmd) commands with
  | Some c =>
      match subcmd with
      | Some _ => [Print ("Usage: darkflows " ++ primary c ++ " " ++ secondary c ++ " - " ++ help c)]
      | None => [Print ("Usage: darkflows " ++ primary c ++ " - " ++ help c)]
      end
  | None =>
      [Print ("No help available for '" ++ cmd ++ " " ++ default "" subcmd ++ "'")]
  end.

Definition show_all_commands (commands : list Command) : list action :=
  Print "Available commands:" ::
  flat_map (fun c =>
    if (0 <? String.length (primary c))%nat then
      if (0 <? String.length (secondary c))%nat
      then [Print ("  " ++ primary c ++ " " ++ secondary c ++ " - " ++ help c)]
      else [Print ("  " ++ primary c ++ " - " ++ help c)]
    else []) commands.

(** ** Dispatch *)

(** The loop that copies [argv[start_index ..]] into [exec_args], leaving the
    help flags out and stopping when the array has only room for the NULL. *)
Fixpoint fill_exec_args (arg_index : nat) (argv : list string) : list string :=
  match argv with
  | [] => []
  | a :: argv' =>
      if (arg_index <? MAX_ARGS - 1)%nat then
        if is_help_flag a then fill_exec_args arg_index argv'
        else a :: fill_exec_args (S arg_index) argv'
      else []
  end.

(** The table lookup of [execute_command]: the script of the first entry with
    this primary and this secondary. *)
Definition find_script (commands : list Command) (cmd : string) (subcmd : option string)
    : option string :=
  command <$> List.find (fun c => (primary c =? cmd) && (secondary c =? default "" subcmd)) commands.

(** Sub-command and help flag, from the arguments after the command. *)
Definition scan_args (rest : list string) : option string * bool :=
  match rest with
  | [] => (None, false)
  | a :: rest' =>
      if is_help_flag a then (None, true)
      else (Some a, existsb is_help_flag rest')
  end.

(** [access_ok] and [exec_ok] are the answers of [access(2)] and [execvp(3)];
    a successful [execvp] does not return. *)
Definition execute_command (access_ok : string -> bool) (exec_ok : string -> list (option string) -> bool)
    (commands : list Command) (argv : list string) : list action :=
  match argv with
  | [] | [_] => show_all_commands commands
  | _ :: cmd :: rest =>
      let '(subcmd, help_flag) := scan_args rest in
      match find_script commands cmd subcmd with
      | None => show_command_help commands cmd subcmd
      | Some script =>
          if (String.length script =? 0)%nat then show_command_help commands cmd subcmd
          else if help_flag then show_command_help commands cmd subcmd
          else if negb (access_ok script) then
            [Perror "Error: Command script not found or not executable"]
          else
            let start_index := match subcmd with Some _ => 3%nat | None => 2%nat end in
            let exec_args :=
              (map Some (script :: fill_exec_args 1 (drop start_index argv)) ++ [None])%list in
            ([Print ("Executing: " ++ script); Execvp script exec_args] ++
             (if exec_ok script exec_args then [] else [Perror "execvp failed"]))%list
      end
  end.

(** [main]: [None] for [return 1]. *)
Definition main (access_ok : string -> bool) (exec_ok : string -> list (option string) -> bool)
    (residue : nat -> nat -> ascii) (file : option string) (argv : list string)
    : cres (option (list action)) :=
  if USE_EMBEDDED_COMMANDS then
    let commands := take (length embedded_commands - 1) embedded_commands in
    Ok (Some (execute_command access_ok exec_ok commands argv))
  else
    (cs <-- load_commands residue file 50 ;;
     match cs with
     | None => Ok None
     | Some commands => Ok (Some (execute_command access_ok exec_ok commands argv))
     end)%c.

(** ** What a command line runs *)

(** The first entry of the table for a command and a sub-command. *)
Definition first_match (commands : list Command) (cmd sub : string) (e : Command) : Prop :=
  exists i, commands !! i = Some e /\ primary e = cmd /\ secondary e = sub /\
    forall j c, (j < i)%nat -> commands !! j = Some c -> ~ (primary c = cmd /\ secondary c = sub).

(** The script a command line runs and the arguments it passes on: a bare
    command, or a command, a sub-command and at most eight more arguments,
    none of them a help flag. *)
Inductive runs (commands : list Command) : list string -> string -> list string -> Prop :=
| runs_plain prog cmd e :
    first_match commands cmd "" e -> command e <> "" ->
    runs commands [prog; cmd] (command e) []
| runs_sub prog cmd sub rest e :
    is_help_flag sub = false -> Forall (fun a => is_help_flag a = false) rest ->
    first_match commands cmd sub e -> command e <> "" ->
    runs commands (prog :: cmd :: sub :: rest) (command e) (take 8 rest).

(** A table entry as the line of [commands.csv] that describes it. *)
Definition csv_line (c : Command) : string :=
  primary c ++ "," ++ secondary c ++ "," ++ command c ++ "," ++ help c ++ String newline "".

(** ** Lemmas *)

Fixpoint free_of (d : ascii) (s : string) : bool :=
  match s with "" => true | String c s' => negb (Ascii.eqb c d) && free_of d s' end.

Lemma find_first_match commands cmd sub e :
  List.find (fun c => (primary c =? cmd) && (secondary c =? sub)) commands = Some e <->
  first_match commands cmd sub e.
Proof.
  unfold first_match. induction commands as [|c l IH]; simpl.
  - split; [done|]. intros (i & H & _). by rewrite lookup_nil in H.
  - destruct ((primary c =? cmd) && (secondary c =? sub)) eqn:E.
    + apply andb_prop in E as [E1%String.eqb_eq E2%String.eqb_eq]. split.
      * intros [= <-]. exists 0%nat. repeat split; [done..|]. intros; lia.
      * intros ([|i] & H1 & _ & _ & H4); [simpl in H1; congruence|].
        exfalso. apply (H4 0%nat c); [lia|done|done].
    + assert (N : ~ (primary c = cmd /\ secondary c = sub)).
      { intros [H1 H2]. rewrite H1, H2, !String.eqb_refl in E. done. }
      rewrite IH. split.
      * intros (i & H1 & H2 & H3 & H4). exists (S i). repeat split; [done..|].
        intros [|j] c' Hj; simpl; [by intros [= <-]|]. apply H4. lia.
      * intros ([|i] & H1 & H2 & H3 & H4).
        { injection H1 as ->. exfalso. by apply N. }
        exists i. repeat split; [done..|]. intros j c' Hj. apply (H4 (S j)). lia.
Qed.

Lemma fill_no_help k argv :
  Forall (fun a => is_help_flag a = false) argv -> fill_exec_args k argv = take (9 - k) argv.
Proof.
  intros H. revert k. induction H as [|a l Ha _ IH]; intros k; simpl; [by rewrite take_nil|].
  destruct (Nat.ltb_spec k 9).
  - rewrite Ha, IH. replace (9 - k)%nat with (S (9 - S k)) by lia. done.
  - by replace (9 - k)%nat with 0%nat by lia.
Qed.

Lemma scan_args_none rest : scan_args rest = (None, false) -> rest = [].
Proof. destruct rest as [|a l]; simpl; [done|]. by destruct (is_help_flag a). Qed.

Lemma scan_args_some rest sub :
  scan_args rest = (Some sub, false) ->
  exists l, rest = sub :: l /\ is_help_flag sub = false /\
    Forall (fun a => is_help_flag a = false) l.
Proof.
  destruct rest as [|a l]; simpl; [done|]. destruct (is_help_flag a) eqn:E; [done|].
  intros [= -> H]. exists l. repeat split; [done|]. clear E.
  induction l as [|b l IH]; [constructor|]. simpl in H.
  destruct (is_help_flag b) eqn:Eb; [done|]. constructor; auto.
Qed.

Lemma length_zero_eqb s : (String.length s =? 0)%nat = false <-> s <> "".
Proof. destruct s; simpl; split; congruence. Qed.

Lemma execute_no_help_exec commands cmd sub f a :
  ~ In (Execvp f a) (show_command_help commands cmd sub).
Proof.
  unfold show_command_help.
  destruct (List.find _ _); [destruct sub|]; simpl; intuition congruence.
Qed.

Lemma show_all_no_exec commands f a : ~ In (Execvp f a) (show_all_commands commands).
Proof.
  unfold show_all_commands. simpl. intros [H|H]; [done|].
  apply in_flat_map in H as (c & _ & H).
  destruct (0 <? _)%nat; [|done]. destruct (0 <? _)%nat; simpl in H; intuition congruence.
Qed.

(** The part of [execute_command] after the arguments are scanned. *)
Lemma execute_command_hit access_ok exec_ok commands prog cmd rest sub script f a :
  scan_args rest = (sub, false) -> find_script commands cmd sub = Some script ->
  script <> "" ->
  In (Execvp f a) (execute_command access_ok exec_ok commands (prog :: cmd :: rest)) <->
  access_ok script = true /\ f = script /\
  a = (map Some (script :: fill_exec_args 1
         (drop (match sub with Some _ => 1 | None => 0 end) rest)) ++ [None])%list.
Proof.
  intros Hs Hf Hn. unfold execute_command. rewrite Hs, Hf.
  rewrite (proj2 (length_zero_eqb script)) by done.
  destruct (access_ok script) eqn:Ha; simpl.
  - destruct sub; simpl; rewrite in_app_iff || idtac;
      destruct (exec_ok _ _); simpl; intuition (simplify_eq; done || congruence).
  - intuition congruence.
Qed.

Lemma execute_command_exec_inv access_ok exec_ok commands argv f a :
  In (Execvp f a) (execute_command access_ok exec_ok commands argv) ->
  exists prog cmd rest sub script, argv = prog :: cmd :: rest /\
    scan_args rest = (sub, false) /\ find_script commands cmd sub = Some script /\ script <> "".
Proof.
  unfold execute_command.
  destruct argv as [|prog [|cmd rest]]; [by intros ?%show_all_no_exec..|].
  destruct (scan_args rest) as [sub [|]] eqn:Hs;
    (destruct (find_script commands cmd sub) as [script|] eqn:Hf;
      [|by intros ?%execute_no_help_exec]);
    (destruct (String.length script =? 0)%nat eqn:El;
      [by intros ?%execute_no_help_exec|]);
    [by intros ?%execute_no_help_exec|].
  intros _. exists prog, cmd, rest, sub, script. rewrite length_zero_eqb in El. done.
Qed.

Lemma find_script_first commands cmd sub script :
  find_script commands cmd sub = Some script ->
  exists e, first_match commands cmd (default "" sub) e /\ command e = script.
Proof.
  unfold find_script. destruct (List.find _ _) as [e|] eqn:E; [|done].
  intros [= <-]. exists e. by rewrite <- find_first_match.
Qed.

Lemma find_script_some commands cmd sub e :
  first_match commands cmd (default "" sub) e -> find_script commands cmd sub = Some (command e).
Proof. intros H%find_first_match. unfold find_script. by rewrite H. Qed.

(** *** Strings, [fgets] and [strtok] *)

Lemma app_assoc_s (a b c : string) : (a ++ b) ++ c = a ++ (b ++ c).
Proof. induction a; simpl; congruence. Qed.

Lemma app_nil_r_s (a : string) : a ++ "" = a.
Proof. induction a; simpl; congruence. Qed.

Lemma length_app_s (a b : string) :
  String.length (a ++ b) = (String.length a + String.length b)%nat.
Proof. induction a; simpl; congruence. Qed.

Lemma free_of_app d a b : free_of d (a ++ b) = free_of d a && free_of d b.
Proof. induction a; simpl; [done|]. by rewrite IHa, andb_assoc. Qed.

Lemma fgets_chars_line n l rest :
  free_of newline l = true -> (String.length l < n)%nat ->
  fgets_chars n (l ++ String newline rest) = (l ++ String newline "", rest).
Proof.
  revert n. induction l as [|c l IH]; intros [|n] Hf Hn; simpl in Hf, Hn |- *; try lia.
  - done.
  - apply andb_prop in Hf as [Hc Hf]. apply negb_true_iff in Hc. rewrite Hc.
    by rewrite IH by (done || lia).
Qed.

Lemma fgets_shrinks n file line rest :
  (0 < n)%nat -> fgets n file = Some (line, rest) -> (String.length rest < String.length file)%nat.
Proof.
  assert (H : forall n s l r, fgets_chars n s = (l, r) -> (String.length r <= String.length s)%nat).
  { clear. induction n as [|n IH]; intros s l r; simpl; [intros [= _ <-]; lia|].
    destruct s as [|c s]; [intros [= _ <-]; simpl; lia|].
    destruct (Ascii.eqb c newline); [intros [= _ <-]; simpl; lia|].
    destruct (fgets_chars n s) as [l' r'] eqn:E. intros [= _ <-]. apply IH in E. simpl. lia. }
  intros Hn. destruct n as [|n]; [lia|]. destruct file as [|c file]; [done|].
  simpl. destruct (Ascii.eqb c newline); [intros [= _ <-]; lia|].
  destruct (fgets_chars n file) as [l' r'] eqn:E. intros [= _ <-]. apply H in E. lia.
Qed.

Lemma c_string_free s : free_of nul s = true -> c_string s = s.
Proof.
  induction s as [|c s IH]; simpl; [done|]. intros [Hc Hs]%andb_prop.
  apply negb_true_iff in Hc. rewrite Hc. by rewrite IH.
Qed.

Lemma token_app d t r : free_of d t = true -> token d (t ++ String d r) = (t, r).
Proof.
  induction t as [|c t IH]; simpl; [by rewrite Ascii.eqb_refl|].
  intros [Hc Ht]%andb_prop. apply negb_true_iff in Hc. by rewrite Hc, IH.
Qed.

Lemma token_end d t : free_of d t = true -> token d t = (t, "").
Proof.
  induction t as [|c t IH]; simpl; [done|].
  intros [Hc Ht]%andb_prop. apply negb_true_iff in Hc. by rewrite Hc, IH.
Qed.

Lemma skip_delim_free d c s : Ascii.eqb c d = false -> skip_delim d (String c s) = String c s.
Proof. intros H. simpl. by rewrite H. Qed.

Lemma strtok_app d t r :
  t <> "" -> free_of d t = true -> strtok d (t ++ String d r) = (Some t, r).
Proof.
  intros Ht Hf. destruct t as [|c t]; [done|]. pose proof Hf as Hf'.
  simpl in Hf. apply andb_prop in Hf as [Hc%negb_true_iff _].
  unfold strtok. change (String c t ++ String d r) with (String c (t ++ String d r)).
  rewrite skip_delim_free by done.
  change (String c (t ++ String d r)) with (String c t ++ String d r).
  by rewrite token_app.
Qed.

Lemma strtok_end d t :
  t <> "" -> free_of d t = true -> strtok d t = (Some t, "").
Proof.
  intros Ht Hf. destruct t as [|c t]; [done|]. pose proof Hf as Hf'.
  simpl in Hf. apply andb_prop in Hf as [Hc%negb_true_iff _].
  unfold strtok. rewrite skip_delim_free by done. by rewrite token_end.
Qed.

Lemma strtok_skip d r : strtok d (String d r) = strtok d r.
Proof. unfold strtok. simpl. by rewrite Ascii.eqb_refl. Qed.

(** *** Loading a table *)

(** Fields [strncpy] stores whole and [strtok] does not cut. *)
Definition csv_field_ok (size : nat) (s : string) : bool :=
  negb (s =? "") && free_of comma s && free_of newline s && free_of nul s &&
  (String.length s <? size - 1)%nat.

Definition csv_command_ok (c : Command) : bool :=
  csv_field_ok 50 (primary c) && csv_field_ok 50 (secondary c) &&
  csv_field_ok 100 (command c) && csv_field_ok 200 (help c) &&
  (String.length (csv_line c) <=? 255)%nat.

Lemma csv_field_ok_inv size s :
  csv_field_ok size s = true ->
  s <> "" /\ free_of comma s = true /\ free_of newline s = true /\ free_of nul s = true /\
  (String.length s <? size - 1)%nat = true.
Proof.
  unfold csv_field_ok. intros H. repeat (apply andb_prop in H as [H ?]).
  apply negb_true_iff in H. repeat split; [|done..].
  by intros ->.
Qed.

Lemma csv_command_ok_inv c :
  csv_command_ok c = true ->
  csv_field_ok 50 (primary c) = true /\ csv_field_ok 50 (secondary c) = true /\
  csv_field_ok 100 (command c) = true /\ csv_field_ok 200 (help c) = true /\
  (String.length (csv_line c) <= 255)%nat.
Proof. unfold csv_command_ok. rewrite !andb_true_iff, Nat.leb_le. tauto. Qed.

#[local] Ltac fields :=
  repeat match goal with
  | H : csv_command_ok _ = true |- _ => apply csv_command_ok_inv in H as (? & ? & ? & ? & ?)
  | H : csv_field_ok _ _ = true |- _ => apply csv_field_ok_inv in H as (? & ? & ? & ? & ?)
  end.

#[local] Ltac all_free_of :=
  rewrite ?free_of_app; simpl;
  repeat match goal with H : free_of _ _ = true |- _ => rewrite H; clear H end; done.

Lemma parse_csv_line residue c :
  csv_command_ok c = true -> parse_line residue (csv_line c) = Ok (Some c).
Proof.
  intros. fields.
  unfold parse_line, csv_line.
  rewrite c_string_free.
  2: all_free_of.
  change ("," ++ ?x) with (String comma x).
  rewrite strtok_app by done. change ("," ++ ?x) with (String comma x).
  rewrite strtok_app by done. change ("," ++ ?x) with (String comma x).
  rewrite strtok_app by done.
  rewrite strtok_app by done.
  unfold strncpy_field. simpl default.
  repeat match goal with H : (_ <? _)%nat = true |- _ => rewrite H; clear H end.
  simpl. by destruct c.
Qed.

Lemma fgets_csv_line c rest :
  csv_command_ok c = true -> fgets 255 (csv_line c ++ rest) = Some (csv_line c, rest).
Proof.
  intros. fields.
  set (body := primary c ++ "," ++ secondary c ++ "," ++ command c ++ "," ++ help c).
  assert (Hb : csv_line c = body ++ String newline "").
  { unfold csv_line, body. by rewrite !app_assoc_s. }
  assert (Hf : free_of newline body = true).
  { unfold body. all_free_of. }
  match goal with H : (String.length (csv_line c) <= 255)%nat |- _ =>
    rewrite Hb, length_app_s in H; simpl in H end.
  rewrite Hb, app_assoc_s. simpl.
  unfold fgets.
  assert (E : fgets_chars 255 (body ++ String newline rest) = (body ++ String newline "", rest))
    by (apply fgets_chars_line; [done|lia]).
  rewrite <- E. destruct body; reflexivity.
Qed.

(** ** Theorems *)

(** C37: the dispatcher hands [f] and [a] to [execvp] exactly when the command
    line selects the script [f] with the arguments [rest] (the first table
    entry for the command and sub-command, with a script, and no help flag
    anywhere), the script is executable, and [a] is the script, those
    arguments and the terminating NULL. *)
Theorem execute_command_exec access_ok exec_ok commands argv f a :
  In (Execvp f a) (execute_command access_ok exec_ok commands argv) <->
  exists rest, runs commands argv f rest /\ access_ok f = true /\
    a = (map Some (f :: rest) ++ [None])%list.
Proof.
  split.
  - intros H. destruct (execute_command_exec_inv _ _ _ _ _ _ H)
      as (prog & cmd & rest & sub & script & -> & Hs & Hf & Hn).
    pose proof (proj1 (execute_command_hit _ _ _ _ _ _ _ _ _ _ Hs Hf Hn) H) as (Hok & -> & ->).
    destruct (find_script_first _ _ _ _ Hf) as (e & He & <-).
    destruct sub as [sub|].
    + destruct (scan_args_some _ _ Hs) as (l & -> & Hh & Hl).
      exists (take 8 l). split; [by constructor|]. simpl. by rewrite drop_0, fill_no_help.
    + rewrite (scan_args_none _ Hs). exists []. by split; [constructor|].
  - intros (rest & Hr & Hok & ->). destruct Hr as [prog cmd e He Hn|prog cmd sub rest e Hh Hl He Hn].
    + refine (proj2 (execute_command_hit _ _ _ _ _ [] None _ _ _ eq_refl _ Hn) _); [|done].
      by apply find_script_some.
    + assert (Hs : scan_args (sub :: rest) = (Some sub, false)).
      { simpl. rewrite Hh. f_equal. clear -Hl. induction Hl as [|b l Hb _ IH]; simpl; [done|].
        by rewrite Hb. }
      refine (proj2 (execute_command_hit _ _ _ _ _ _ (Some sub) _ _ _ Hs _ Hn) _);
        [by apply find_script_some|]. simpl. by rewrite drop_0, fill_no_help.
Qed.

(** The array [exec_args] of [MAX_ARGS] pointers is never overrun: what
    [execvp] gets has at most [MAX_ARGS] entries, ends with NULL, has no other
    NULL and starts with the script itself. *)
Theorem execute_command_args_bounded access_ok exec_ok commands argv f a :
  In (Execvp f a) (execute_command access_ok exec_ok commands argv) ->
  (length a <= MAX_ARGS)%nat /\ a !! (length a - 1)%nat = Some None /\
  (forall i, (i < length a - 1)%nat -> exists s, a !! i = Some (Some s)) /\ a !! 0%nat = Some (Some f).
Proof.
  rewrite execute_command_exec. intros (rest & Hr & _ & ->).
  assert (Hl : (length rest <= 8)%nat).
  { inversion Hr; subst; simpl; [lia|]. rewrite length_take. lia. }
  rewrite length_app, length_map. simpl length. unfold MAX_ARGS. repeat split.
  - lia.
  - replace (S (length rest) + 1 - 1)%nat with (length (map Some (f :: rest)) + 0)%nat
      by (rewrite length_map; simpl; lia).
    by rewrite lookup_app_r, Nat.add_0_r, Nat.sub_diag by lia.
  - intros i Hi. rewrite lookup_app_l by (rewrite length_map; simpl; lia).
    destruct (lookup_lt_is_Some_2 (f :: rest) i) as [x Hx]; [simpl; lia|].
    exists x. change (map Some (f :: rest)) with (Some <$> (f :: rest)).
    by rewrite list_lookup_fmap, Hx.
Qed.

(** A table written one line per entry as [csv_line] does, with non-empty
    fields that fit, is read back entry for entry, up to [max_commands]. *)
Theorem load_commands_roundtrip residue max_commands cs :
  Forall (fun c => csv_command_ok c = true) cs ->
  load_commands residue (Some (foldr (fun c s => csv_line c ++ s) "" cs)) max_commands =
  Ok (Some (take max_commands cs)).
Proof.
  intros H. simpl.
  set (file := foldr _ _ cs).
  enough (L : forall fuel acc, (String.length file <= fuel)%nat -> (length acc <= max_commands)%nat ->
    load_loop fuel residue max_commands acc file =
    Ok (acc ++ take (max_commands - length acc) cs)%list).
  { rewrite (L _ [] (le_n _)) by (simpl; lia). simpl. by rewrite Nat.sub_0_r. }
  unfold file. clear file. induction H as [|c cs Hc _ IH]; intros fuel acc Hfuel Hacc; simpl.
  - rewrite take_nil, app_nil_r. by destruct fuel.
  - simpl in Hfuel. rewrite length_app_s in Hfuel.
    assert (Hpos : (0 < String.length (csv_line c))%nat).
    { unfold csv_line. rewrite !length_app_s. simpl. lia. }
    destruct fuel as [|fuel]; [lia|]. simpl. rewrite fgets_csv_line by done.
    destruct (Nat.ltb_spec (length acc) max_commands).
    + rewrite parse_csv_line by done. simpl. rewrite IH.
      * replace (max_commands - length acc)%nat
          with (S (max_commands - length (acc ++ [c])%list))%nat by (rewrite length_app; simpl; lia).
        simpl. by rewrite <- app_assoc.
      * lia.
      * rewrite length_app. simpl. lia.
    + replace (max_commands - length acc)%nat with 0%nat by lia. by rewrite app_nil_r.
Qed.

(** Every file is read to its end or to [max_commands] entries: fuel beyond
    the length of the file changes nothing, and at most [max_commands] entries
    are stored. *)
Theorem load_loop_terminates residue max_commands file fuel l :
  (String.length file <= fuel)%nat ->
  load_loop fuel residue max_commands [] file =
    load_loop (String.length file) residue max_commands [] file /\
  (load_loop fuel residue max_commands [] file = Ok l -> (length l <= max_commands)%nat).
Proof.
  intros Hf.
  assert (A : forall f1 f2 acc s, (String.length s <= f1)%nat -> (String.length s <= f2)%nat ->
    load_loop f1 residue max_commands acc s = load_loop f2 residue max_commands acc s).
  { induction f1 as [|f1 IH]; intros [|f2] acc s H1 H2;
      try (destruct s; [done|simpl in *; lia]).
    simpl. destruct (fgets 255 s) as [[line rest]|] eqn:E; [|done].
    apply fgets_shrinks in E; [|lia]. destruct (_ <? _)%nat; [|done].
    destruct (parse_line _ _) as [[c|]|]; simpl; [apply IH; lia..|done]. }
  split; [apply A; lia|].
  enough (B : forall f acc s r, (length acc <= max_commands)%nat ->
    load_loop f residue max_commands acc s = Ok r -> (length r <= max_commands)%nat)
    by (apply B; simpl; lia).
  clear. induction f as [|f IH]; intros acc s r Ha; simpl; [by intros [= <-]|].
  destruct (fgets 255 s) as [[line rest]|]; [|by intros [= <-]].
  destruct (Nat.ltb_spec (length acc) max_commands); [|by intros [= <-]].
  destruct (parse_line _ _) as [[c|]|]; simpl; [| |done]; apply IH; [|done].
  rewrite length_app. simpl. lia.
Qed.

(** [strtok] merges adjacent commas, so the empty fields of a line like the
    embedded table's first entry are lost when it is read from a file: the help
    text becomes the sub-command, with its newline. *)
Theorem parse_line_empty_fields residue p h :
  csv_field_ok 50 p = true -> csv_field_ok 49 h = true ->
  parse_line residue (csv_line (mkCommand p "" "" h)) =
  Ok (Some (mkCommand p (h ++ String newline "") "" "No description")).
Proof.
  intros Hp Hh. apply csv_field_ok_inv in Hp as (?&?&?&?&Lp), Hh as (?&?&?&?&Lh).
  unfold parse_line, csv_line. simpl primary. simpl secondary. simpl command. simpl help.
  rewrite c_string_free.
  2: all_free_of.
  simpl ("" ++ _). change ("," ++ ?x) with (String comma x). rewrite strtok_app by done.
  rewrite !strtok_skip, strtok_end.
  2:{ destruct h; done. }
  2:{ change (free_of comma (h ++ String newline "") = true). all_free_of. }
  simpl strtok. unfold strncpy_field. simpl default. rewrite length_app_s, Lp. simpl String.length.
  rewrite Nat.ltb_lt in Lh.
  rewrite (proj2 (Nat.ltb_lt _ _)) by lia. done.
Qed.

(** [darkflows route del] runs a file whose name is the whole text
    "route_delete.sh -d" of the embedded table: the "-d" is never passed as an
    argument. *)
Theorem route_del_runs access_ok exec_ok residue file prog :
  main access_ok exec_ok residue file [prog; "route"; "del"] =
  let script := "route_delete.sh -d" in
  let args := [Some script; None] in
  Ok (Some (if access_ok script
            then [Print ("Executing: " ++ script); Execvp script args] ++
                 (if exec_ok script args then [] else [Perror "execvp failed"])
            else [Perror "Error: Command script not found or not executable"]))%list.
Proof.
  unfold main, execute_command. simpl.
  by destruct (access_ok "route_delete.sh -d").
Qed.

(** ** Witnesses *)

Definition no_residue : nat -> nat -> ascii := fun _ _ => nul.

Lemma execute_command_args_bounded_witness :
  (length [Some "route_add.sh"; Some "10.0.0.1"; None] <= MAX_ARGS)%nat.
Proof.
  apply (execute_command_args_bounded (fun _ => true) (fun _ _ => true) embedded_commands
    ["darkflows"; "route"; "add"; "10.0.0.1"] "route_add.sh").
  vm_compute. tauto.
Defined.

Definition sample_table : list Command :=
  [mkCommand "route" "add" "route_add.sh" "add a route";
   mkCommand "route" "del" "route_delete.sh" "delete a route"].

Lemma load_commands_roundtrip_witness :
  load_commands no_residue (Some (foldr (fun c s => csv_line c ++ s) "" sample_table)) 50 =
  Ok (Some sample_table).
Proof.
  apply (load_commands_roundtrip no_residue 50 sample_table).
  repeat constructor.
Defined.

Lemma load_loop_terminates_witness :
  load_loop 100 no_residue 1 [] (csv_line (mkCommand "a" "b" "c" "d")) =
    Ok [mkCommand "a" "b" "c" "d"] /\
  load_loop 100 no_residue 1 [] (csv_line (mkCommand "a" "b" "c" "d")) =
  load_loop 8 no_residue 1 [] (csv_line (mkCommand "a" "b" "c" "d")).
Proof.
  split; [vm_compute; reflexivity|].
  apply (load_loop_terminates no_residue 1 (csv_line (mkCommand "a" "b" "c" "d")) 100
    [mkCommand "a" "b" "c" "d"]).
  vm_compute. lia.
Defined.

Lemma parse_line_empty_fields_witness :
  parse_line (fun _ => nul) (csv_line (mkCommand "route" "" "" "routes")) =
  Ok (Some (mkCommand "route" ("routes" ++ String newline "") "" "No description")).
Proof. apply (parse_line_empty_fields (fun _ => nul) "route" "routes"); reflexivity. Defined.

End Cli.
