(* ===== verification/Base64.v ===== *)
(** * Base64 (utils/base64.c)

    The generic encoder and decoder over an alphabet, and the five public
    functions.  Buffers are byte lists, a NULL result is [None]. *)

From S2P Require Import Prelude.

Module Base64.

(** "A..Za..z0..9" and the last two characters of each alphabet. *)
Definition alnum : list Z :=
  seqZ 65 26 ++ seqZ 97 26 ++ seqZ 48 10.
Definition base64_table : list Z := alnum ++ [43; 47].
Definition base64_url_table : list Z := alnum ++ [45; 95].

Definition BASE64_PAD : Z := BIT 0.
Definition BASE64_LF : Z := BIT 1.
Definition flag (add_pad f : Z) : bool := negb (Z.land add_pad f =? 0).

Definition SIZE_MAX : Z := 2 ^ 64 - 1.
Definition pad_char : Z := 61.
Definition lf_char : Z := 10.

Section with_malloc.
(** Whether [os_malloc(n)] succeeds. *)
Context (os_malloc : Z -> bool).

(** ** Encoding *)

Definition idx (table : list Z) (v : Z) : Z := at_ table (Z.land v 0x3f).

(** The [while (end - in >= 3)] loop and the code after it, from the input
    left and the current [line_len]. *)
Fixpoint encode_loop (table : list Z) (add_pad line_len : Z) (inp : list Z) : list Z :=
  match inp with
  | in0 :: in1 :: in2 :: rest =>
      [idx table (Z.shiftr in0 2);
       idx table (Z.lor (Z.shiftl (Z.land in0 0x03) 4) (Z.shiftr in1 4));
       idx table (Z.lor (Z.shiftl (Z.land in1 0x0f) 2) (Z.shiftr in2 6));
       idx table in2] ++
      (if flag add_pad BASE64_LF && (72 <=? line_len + 4)
       then lf_char :: encode_loop table add_pad 0 rest
       else encode_loop table add_pad (line_len + 4) rest)
  | [in0] =>
      [idx table (Z.shiftr in0 2); idx table (Z.shiftl (Z.land in0 0x03) 4)] ++
      (if flag add_pad BASE64_PAD then [pad_char; pad_char] else []) ++
      (if flag add_pad BASE64_LF then [lf_char] else [])
  | [in0; in1] =>
      [idx table (Z.shiftr in0 2);
       idx table (Z.lor (Z.shiftl (Z.land in0 0x03) 4) (Z.shiftr in1 4));
       idx table (Z.shiftl (Z.land in1 0x0f) 2)] ++
      (if flag add_pad BASE64_PAD then [pad_char] else []) ++
      (if flag add_pad BASE64_LF then [lf_char] else [])
  | [] => if flag add_pad BASE64_LF && negb (line_len =? 0) then [lf_char] else []
  end.

(** The size of the buffer the encoder allocates. *)
Definition encode_olen (len add_pad : Z) : Z :=
  let olen := u64 (u64 (len * 4) / 3 + 4) in
  let olen := if flag add_pad BASE64_LF then u64 (olen + olen / 72) else olen in
  u64 (olen + 1).

(** The encoded characters, without the final NUL; [*out_len] is their number. *)
Definition base64_gen_encode (src : list Z) (table : list Z) (add_pad : Z) : option (list Z) :=
  let len := zlen src in
  if SIZE_MAX / 4 <=? len then None
  else
    let olen := encode_olen len add_pad in
    if olen <? len then None
    else if negb (os_malloc olen) then None
    else Some (encode_loop table add_pad 0 src).

(** ** Decoding *)

(** [dtable]: 0x80 everywhere but at the alphabet and at '='. *)
Definition dtable (table : list Z) : list Z :=
  <[Z.to_nat pad_char := 0]>
    (foldl (fun d i => <[Z.to_nat (at_ table i) := i]> d) (replicate 256 0x80) (seqZ 0 64)).

Record dstate := mkD { block : list Z; pad : Z; outp : list Z }.

(** What one turn of the decoding loop does: go on, leave the loop with a
    result, or store past the end of the buffer. *)
Inductive dnext :=
| Go (st : dstate)
| Stop (r : option (list Z))
| Overrun.

(** One turn of the decoding loop on [val], with [olen] bytes allocated. *)
Definition decode_step (dt : list Z) (olen : Z) (st : dstate) (val : Z) : dnext :=
  let tmp := at_ dt val in
  if tmp =? 0x80 then Go st
  else
    let pad := if val =? pad_char then st.(pad) + 1 else st.(pad) in
    let block := st.(block) ++ [tmp] in
    if negb (zlen block =? 4) then Go (mkD block pad st.(outp))
    else if olen <? zlen st.(outp) + 3 then Overrun
    else
      let b i := at_ block i in
      let outp := st.(outp) ++
        [u8 (Z.lor (Z.shiftl (b 0) 2) (Z.shiftr (b 1) 4));
         u8 (Z.lor (Z.shiftl (b 1) 4) (Z.shiftr (b 2) 2));
         u8 (Z.lor (Z.shiftl (b 2) 6) (b 3))] in
      if negb (pad =? 0) then
        if pad =? 1 then Stop (Some (take (length outp - 1) outp))
        else if pad =? 2 then Stop (Some (take (length outp - 2) outp))
        else Stop None
      else Go (mkD [] pad outp).

Fixpoint decode_loop (dt : list Z) (olen : Z) (st : dstate) (src : list Z)
    : cres (option (list Z)) :=
  match src with
  | [] => Ok (Some st.(outp))
  | c :: src' =>
      match decode_step dt olen st c with
      | Go st' => decode_loop dt olen st' src'
      | Stop r => Ok r
      | Overrun => Fault
      end
  end.

Definition count_valid (dt src : list Z) : Z :=
  zlen (List.filter (fun c => negb (at_ dt c =? 0x80)) src).

Definition extra_pad (count : Z) : Z := (4 - count mod 4) mod 4.

(** The size of the buffer the decoder allocates. *)
Definition decode_olen (count : Z) : Z := (count + extra_pad count) / 4 * 3.

Definition base64_gen_decode (src table : list Z) : cres (option (list Z)) :=
  let dt := dtable table in
  let count := count_valid dt src in
  if count =? 0 then Ok None
  else
    let olen := decode_olen count in
    if negb (os_malloc olen) then Ok None
    else decode_loop dt olen (mkD [] 0 [])
           (src ++ replicate (Z.to_nat (extra_pad count)) pad_char).

(** ** The public functions *)

Definition base64_encode (src : list Z) : option (list Z) :=
  base64_gen_encode src base64_table (Z.lor BASE64_PAD BASE64_LF).
Definition base64_encode_no_lf (src : list Z) : option (list Z) :=
  base64_gen_encode src base64_table BASE64_PAD.
Definition base64_url_encode (src : list Z) : option (list Z) :=
  base64_gen_encode src base64_url_table 0.
Definition base64_decode (src : list Z) : cres (option (list Z)) :=
  base64_gen_decode src base64_table.
Definition base64_url_decode (src : list Z) : cres (option (list Z)) :=
  base64_gen_decode src base64_url_table.

End with_malloc.

(* [dtable] is only evaluated by the virtual machine. *)
#[local] Opaque dtable.

(** "Zm9vYmE=" *)
Example decode_fooba :
  base64_decode (fun _ => true) [90; 109; 57; 118; 89; 109; 69; 61] = Ok (Some [102; 111; 111; 98; 97]).
Proof. vm_compute. reflexivity. Qed.

Example encode_fooba :
  base64_encode (fun _ => true) [102; 111; 111; 98; 97] = Some [90; 109; 57; 118; 89; 109; 69; 61; 10].
Proof. vm_compute. reflexivity. Qed.

(** ** The alphabets *)

(** What the proofs use of an alphabet: 64 characters, each decoded to its
    position, none of them '=', and neither is the line feed valid. *)
Definition table_ok (table : list Z) : bool :=
  (zlen table =? 64) &&
  forallb (fun v => (at_ (dtable table) (at_ table v) =? v) && negb (at_ table v =? pad_char))
    (seqZ 0 64) &&
  (at_ (dtable table) pad_char =? 0) && (at_ (dtable table) lf_char =? 0x80).

Lemma base64_table_ok : table_ok base64_table = true.
Proof. vm_compute. reflexivity. Qed.

Lemma base64_url_table_ok : table_ok base64_url_table = true.
Proof. vm_compute. reflexivity. Qed.

Section alphabet.
Context (table : list Z) (Htab : table_ok table = true).
Abbreviation dt := (dtable table).

Lemma table_code v : 0 <= v < 64 -> at_ dt (at_ table v) = v /\ at_ table v <> pad_char.
Proof.
  intros Hv. pose proof Htab as H. unfold table_ok in H. rewrite !andb_true_iff in H.
  destruct H as [[[_ H] _] _]. rewrite forallb_forall in H.
  specialize (H v). rewrite andb_true_iff, negb_true_iff, Z.eqb_eq, Z.eqb_neq in H.
  apply H, list_elem_of_In, elem_of_seqZ. lia.
Qed.

Lemma dt_pad : at_ dt pad_char = 0.
Proof.
  pose proof Htab as H. unfold table_ok in H. rewrite !andb_true_iff, !Z.eqb_eq in H. tauto.
Qed.

Lemma dt_lf : at_ dt lf_char = 0x80.
Proof.
  pose proof Htab as H. unfold table_ok in H. rewrite !andb_true_iff, !Z.eqb_eq in H. tauto.
Qed.

Lemma idx_eq x : idx table x = at_ table (x mod 64).
Proof. unfold idx. change 0x3f with (Z.ones 6). by rewrite land_mask by lia. Qed.

(** *** The six-bit groups of a 3-byte group *)

Lemma sextet0 a : is_byte a -> Z.shiftr a 2 mod 64 = a / 4.
Proof. intros. rewrite shiftr_div by lia. apply Z.mod_small. dlia. Qed.

Lemma sextet1 a b :
  is_byte a -> is_byte b ->
  Z.lor (Z.shiftl (Z.land a 0x03) 4) (Z.shiftr b 4) mod 64 = (a mod 4) * 16 + b / 16.
Proof.
  intros. change 0x03 with (Z.ones 2). rewrite land_mask, shiftr_div by lia.
  rewrite lor_shiftl by dlia. apply Z.mod_small. dlia.
Qed.

Lemma sextet2 b c :
  is_byte b -> is_byte c ->
  Z.lor (Z.shiftl (Z.land b 0x0f) 2) (Z.shiftr c 6) mod 64 = (b mod 16) * 4 + c / 64.
Proof.
  intros. change 0x0f with (Z.ones 4). rewrite land_mask, shiftr_div by lia.
  rewrite lor_shiftl by dlia. apply Z.mod_small. dlia.
Qed.

Lemma sextet1_last a : is_byte a -> Z.shiftl (Z.land a 0x03) 4 mod 64 = (a mod 4) * 16.
Proof.
  intros. change 0x03 with (Z.ones 2). rewrite land_mask, shiftl_mul by lia.
  apply Z.mod_small. dlia.
Qed.

Lemma sextet2_last b : is_byte b -> Z.shiftl (Z.land b 0x0f) 2 mod 64 = (b mod 16) * 4.
Proof.
  intros. change 0x0f with (Z.ones 4). rewrite land_mask, shiftl_mul by lia.
  apply Z.mod_small. dlia.
Qed.

(** The three bytes of a group of four six-bit values. *)
Lemma octets v0 v1 v2 v3 :
  0 <= v0 < 64 -> 0 <= v1 < 64 -> 0 <= v2 < 64 -> 0 <= v3 < 64 ->
  [u8 (Z.lor (Z.shiftl v0 2) (Z.shiftr v1 4));
   u8 (Z.lor (Z.shiftl v1 4) (Z.shiftr v2 2));
   u8 (Z.lor (Z.shiftl v2 6) v3)] =
  [v0 * 4 + v1 / 16; (v1 mod 16) * 16 + v2 / 4; (v2 mod 4) * 64 + v3].
Proof.
  intros. unfold u8. rewrite !shiftr_div by lia. rewrite !lor_shiftl by dlia.
  repeat f_equal; dlia.
Qed.

(** *** Running the decoder on encoded characters *)

Lemma step_code olen st v :
  0 <= v < 64 -> (length st.(block) < 3)%nat ->
  decode_step dt olen st (at_ table v) = Go (mkD (st.(block) ++ [v]) st.(pad) st.(outp)).
Proof.
  intros Hv Hb. destruct (table_code v Hv) as [E1 E2]. unfold decode_step. rewrite E1.
  rewrite (proj2 (Z.eqb_neq v 0x80)) by lia. rewrite (proj2 (Z.eqb_neq _ _) E2).
  rewrite length_app. simpl length. by rewrite (proj2 (Z.eqb_neq _ 4)) by lia.
Qed.

Lemma step_pad olen st :
  (length st.(block) < 3)%nat ->
  decode_step dt olen st pad_char = Go (mkD (st.(block) ++ [0]) (st.(pad) + 1) st.(outp)).
Proof.
  intros Hb. unfold decode_step. rewrite dt_pad, Z.eqb_refl. simpl (0 =? 128).
  rewrite length_app. simpl length. by rewrite (proj2 (Z.eqb_neq _ 4)) by lia.
Qed.

Lemma step_lf olen st : decode_step dt olen st lf_char = Go st.
Proof. unfold decode_step. by rewrite dt_lf. Qed.

(** The last character of a group, a code or a pad. *)
Lemma step_fourth_code olen o v0 v1 v2 v3 :
  0 <= v3 < 64 -> zlen o + 3 <= olen ->
  decode_step dt olen (mkD [v0; v1; v2] 0 o) (at_ table v3) =
  Go (mkD [] 0 (o ++ [u8 (Z.lor (Z.shiftl v0 2) (Z.shiftr v1 4));
         u8 (Z.lor (Z.shiftl v1 4) (Z.shiftr v2 2)); u8 (Z.lor (Z.shiftl v2 6) v3)])).
Proof.
  intros Hv Ho. destruct (table_code v3 Hv) as [E1 E2]. unfold decode_step. rewrite E1.
  rewrite (proj2 (Z.eqb_neq v3 0x80)) by lia. rewrite (proj2 (Z.eqb_neq _ _) E2).
  simpl. by rewrite (proj2 (Z.ltb_ge _ _)) by lia.
Qed.

Lemma step_fourth_pad olen o v0 v1 v2 p :
  0 <= p <= 1 -> zlen o + 3 <= olen ->
  decode_step dt olen (mkD [v0; v1; v2] p o) pad_char =
  Stop (Some (o ++ take (Z.to_nat (2 - p)) [u8 (Z.lor (Z.shiftl v0 2) (Z.shiftr v1 4));
         u8 (Z.lor (Z.shiftl v1 4) (Z.shiftr v2 2)); u8 (Z.lor (Z.shiftl v2 6) 0)])).
Proof.
  intros Hp Ho. unfold decode_step. rewrite dt_pad. simpl.
  rewrite (proj2 (Z.ltb_ge _ _)) by lia. rewrite length_app. simpl length.
  assert (p = 0 \/ p = 1) as [-> | ->] by lia; simpl; do 2 f_equal;
    rewrite take_app_ge by lia; f_equal.
  - by replace (length o + 3 - 1 - length o)%nat with 2%nat by lia.
  - by replace (length o + 3 - 2 - length o)%nat with 1%nat by lia.
Qed.

(** *** Counting valid characters *)

Lemma count_code v l : 0 <= v < 64 -> count_valid dt (at_ table v :: l) = 1 + count_valid dt l.
Proof.
  intros Hv. unfold count_valid. simpl. destruct (table_code v Hv) as [-> _].
  rewrite (proj2 (Z.eqb_neq v 0x80)) by lia. simpl. lia.
Qed.

Lemma count_pad l : count_valid dt (pad_char :: l) = 1 + count_valid dt l.
Proof. unfold count_valid. simpl. rewrite dt_pad. simpl. lia. Qed.

Lemma count_lf l : count_valid dt (lf_char :: l) = count_valid dt l.
Proof. unfold count_valid. simpl. by rewrite dt_lf. Qed.

Lemma count_nil : count_valid dt [] = 0.
Proof. done. Qed.

Lemma extra_pad_4 n : extra_pad (1 + (1 + (1 + (1 + n)))) = extra_pad n.
Proof. unfold extra_pad. dlia. Qed.

Lemma decode_olen_4 n : 0 <= n -> decode_olen (1 + (1 + (1 + (1 + n)))) = 3 + decode_olen n.
Proof. unfold decode_olen. rewrite extra_pad_4. unfold extra_pad. dlia. Qed.

Lemma count_nonneg l : 0 <= count_valid dt l.
Proof. unfold count_valid. lia. Qed.

(** Decoding a group that encodes three bytes. *)
Lemma decode_group olen o a b c rest :
  is_byte a -> is_byte b -> is_byte c -> zlen o + 3 <= olen ->
  decode_loop dt olen (mkD [] 0 o)
    (idx table (Z.shiftr a 2) ::
     idx table (Z.lor (Z.shiftl (Z.land a 0x03) 4) (Z.shiftr b 4)) ::
     idx table (Z.lor (Z.shiftl (Z.land b 0x0f) 2) (Z.shiftr c 6)) ::
     idx table c :: rest) =
  decode_loop dt olen (mkD [] 0 (o ++ [a; b; c])) rest.
Proof.
  intros. rewrite !idx_eq, sextet0, sextet1, sextet2 by done. simpl app.
  cbn [decode_loop].
  rewrite step_code by (simpl; lia || dlia). rewrite step_code by (simpl; lia || dlia).
  rewrite step_code by (simpl; lia || dlia). simpl app.
  rewrite step_fourth_code by (done || dlia). rewrite octets by dlia.
  repeat f_equal; dlia.
Qed.

Lemma count_group a b c rest :
  is_byte a -> is_byte b -> is_byte c ->
  count_valid dt
    (idx table (Z.shiftr a 2) ::
     idx table (Z.lor (Z.shiftl (Z.land a 0x03) 4) (Z.shiftr b 4)) ::
     idx table (Z.lor (Z.shiftl (Z.land b 0x0f) 2) (Z.shiftr c 6)) ::
     idx table c :: rest) = 1 + (1 + (1 + (1 + count_valid dt rest))).
Proof.
  intros. rewrite !idx_eq, sextet0, sextet1, sextet2 by done. simpl app.
  rewrite !count_code by dlia. done.
Qed.

(** The last group of one or two bytes: its codes, then its padding. *)
Lemma decode_tail1 olen o a rest :
  is_byte a ->
  decode_loop dt olen (mkD [] 0 o)
    (idx table (Z.shiftr a 2) :: idx table (Z.shiftl (Z.land a 0x03) 4) :: rest) =
  decode_loop dt olen (mkD [a / 4; (a mod 4) * 16] 0 o) rest.
Proof.
  intros. rewrite !idx_eq, sextet0, sextet1_last by done. cbn [decode_loop].
  rewrite step_code by (simpl; lia || dlia). rewrite step_code by (simpl; lia || dlia). done.
Qed.

Lemma decode_pad2 olen o a rest :
  is_byte a -> zlen o + 3 <= olen ->
  decode_loop dt olen (mkD [a / 4; (a mod 4) * 16] 0 o) (pad_char :: pad_char :: rest) =
  Ok (Some (o ++ [a])).
Proof.
  intros. cbn [decode_loop]. rewrite step_pad by (simpl; lia). simpl app. simpl pad.
  rewrite step_fourth_pad by (done || lia). rewrite octets by dlia.
  simpl. repeat f_equal; dlia.
Qed.

Lemma decode_tail2 olen o a b rest :
  is_byte a -> is_byte b ->
  decode_loop dt olen (mkD [] 0 o)
    (idx table (Z.shiftr a 2) ::
     idx table (Z.lor (Z.shiftl (Z.land a 0x03) 4) (Z.shiftr b 4)) ::
     idx table (Z.shiftl (Z.land b 0x0f) 2) :: rest) =
  decode_loop dt olen (mkD [a / 4; (a mod 4) * 16 + b / 16; (b mod 16) * 4] 0 o) rest.
Proof.
  intros. rewrite !idx_eq, sextet0, sextet1, sextet2_last by done. cbn [decode_loop].
  rewrite step_code by (simpl; lia || dlia). rewrite step_code by (simpl; lia || dlia).
  rewrite step_code by (simpl; lia || dlia). done.
Qed.

Lemma decode_pad1 olen o a b rest :
  is_byte a -> is_byte b -> zlen o + 3 <= olen ->
  decode_loop dt olen (mkD [a / 4; (a mod 4) * 16 + b / 16; (b mod 16) * 4] 0 o)
    (pad_char :: rest) = Ok (Some (o ++ [a; b])).
Proof.
  intros. cbn [decode_loop].
  rewrite step_fourth_pad by (done || lia). rewrite octets by dlia.
  simpl. repeat f_equal; dlia.
Qed.

Lemma count_tail1 a rest :
  is_byte a -> count_valid dt
    (idx table (Z.shiftr a 2) :: idx table (Z.shiftl (Z.land a 0x03) 4) :: rest) =
  1 + (1 + count_valid dt rest).
Proof. intros. rewrite !idx_eq, sextet0, sextet1_last, !count_code by (done || dlia). done. Qed.

Lemma count_tail2 a b rest :
  is_byte a -> is_byte b -> count_valid dt
    (idx table (Z.shiftr a 2) ::
     idx table (Z.lor (Z.shiftl (Z.land a 0x03) 4) (Z.shiftr b 4)) ::
     idx table (Z.shiftl (Z.land b 0x0f) 2) :: rest) =
  1 + (1 + (1 + count_valid dt rest)).
Proof.
  intros. rewrite !idx_eq, sextet0, sextet1, sextet2_last, !count_code by (done || dlia). done.
Qed.

Lemma decode_skip_lf olen st rest :
  decode_loop dt olen st (lf_char :: rest) = decode_loop dt olen st rest.
Proof. cbn [decode_loop]. by rewrite step_lf. Qed.

Lemma tail_bound (o : list Z) olen n :
  zlen o + decode_olen n <= olen -> 2 <= n <= 4 -> zlen o + 3 <= olen.
Proof.
  intros H Hn. assert (n = 2 \/ n = 3 \/ n = 4) as [-> | [-> | ->]] by lia;
    vm_compute (decode_olen _) in H; lia.
Qed.

Lemma decode_encode_loop add_pad olen src :
  bytes src -> forall line_len o,
  let enc := encode_loop table add_pad line_len src in
  zlen o + decode_olen (count_valid dt enc) <= olen ->
  decode_loop dt olen (mkD [] 0 o)
    (enc ++ replicate (Z.to_nat (extra_pad (count_valid dt enc))) pad_char) = Ok (Some (o ++ src)).
Proof.
  induction src as [|a|a b|a b c l IH] using list_triple_ind; intros Hb line_len o enc Ho;
    subst enc; simpl encode_loop in *.
  - rewrite app_nil_r. destruct (_ && _); [rewrite count_lf|]; rewrite count_nil; simpl;
      [by rewrite step_lf|done].
  - rewrite !bytes_cons in Hb. destruct Hb as [Ha _]. revert Ho.
    destruct (flag add_pad BASE64_PAD), (flag add_pad BASE64_LF); simpl app;
      rewrite count_tail1, ?count_pad, ?count_lf, count_nil by done;
      intros Ho; (apply tail_bound in Ho; [|lia]); vm_compute (Z.to_nat _); simpl app;
      rewrite decode_tail1, ?decode_skip_lf by done; by apply decode_pad2.
  - rewrite !bytes_cons in Hb. destruct Hb as [Ha [Hb _]]. revert Ho.
    destruct (flag add_pad BASE64_PAD), (flag add_pad BASE64_LF); simpl app;
      rewrite count_tail2, ?count_pad, ?count_lf, count_nil by done;
      intros Ho; (apply tail_bound in Ho; [|lia]); vm_compute (Z.to_nat _); simpl app;
      rewrite decode_tail2, ?decode_skip_lf by done; by apply decode_pad1.
  - rewrite !bytes_cons in Hb. destruct Hb as (Ha & Hb & Hc & Hl).
    set (w := if _ && _ then _ else _) in *. revert Ho.
    rewrite count_group by done. rewrite extra_pad_4, decode_olen_4 by apply count_nonneg.
    intros Ho. assert (zlen o + 3 <= olen).
    { revert Ho. unfold decode_olen, extra_pad. pose proof (count_nonneg w). dlia. }
    simpl app. rewrite decode_group by done.
    replace (o ++ a :: b :: c :: l) with ((o ++ [a; b; c]) ++ l) by (by rewrite <- app_assoc).
    revert Ho. subst w. destruct (_ && _); rewrite ?count_lf; intros Ho; simpl app;
      rewrite ?decode_skip_lf;
      (apply IH; [done|rewrite length_app; simpl length; lia]).
Qed.

Lemma count_pos_encode add_pad line_len src :
  bytes src -> src <> [] -> 0 < count_valid dt (encode_loop table add_pad line_len src).
Proof.
  intros Hb Hn. destruct src as [|a [|b [|c l]]]; [done|..]; rewrite !bytes_cons in Hb;
    destruct_and?; simpl encode_loop; simpl app;
    [rewrite count_tail1 by done|rewrite count_tail2 by done|rewrite count_group by done];
    match goal with |- context [count_valid dt ?l] => pose proof (count_nonneg l) end; lia.
Qed.

Lemma decode_encode malloc add_pad src e :
  bytes src -> src <> [] -> (forall n, malloc n = true) ->
  base64_gen_encode malloc src table add_pad = Some e ->
  base64_gen_decode malloc e table = Ok (Some src).
Proof.
  intros Hb Hn Hm. unfold base64_gen_encode.
  destruct (SIZE_MAX / 4 <=? zlen src); [done|].
  destruct (encode_olen _ _ <? _); [done|]. rewrite Hm. simpl. intros [= <-].
  unfold base64_gen_decode. pose proof (count_pos_encode add_pad 0 src Hb Hn).
  rewrite (proj2 (Z.eqb_neq _ 0)) by lia. rewrite Hm. simpl negb. cbv iota.
  rewrite decode_encode_loop; simpl; [done|done|lia].
Qed.

(** *** The decoder stays within its buffer *)

Lemma count_cons c l :
  count_valid dt (c :: l) = (if at_ dt c =? 0x80 then 0 else 1) + count_valid dt l.
Proof. unfold count_valid. simpl List.filter. destruct (at_ dt c =? 0x80); simpl; lia. Qed.

Lemma decode_loop_no_fault olen src st :
  (length st.(block) < 4)%nat ->
  zlen st.(outp) + (zlen st.(block) + count_valid dt src) / 4 * 3 <= olen ->
  exists r, decode_loop dt olen st src = Ok r.
Proof.
  revert st. induction src as [|c src IH]; intros [blk p o]; simpl; [eauto|].
  rewrite count_cons. intros Hb Ho. unfold decode_step. simpl block. simpl Base64.pad. simpl outp.
  destruct (at_ dt c =? 0x80); [by apply IH|].
  rewrite length_app. simpl length.
  destruct (Z.eqb_spec (Z.of_nat (length blk + 1)) 4) as [E|E]; simpl negb; cbv iota.
  - assert (Hc : 0 <= count_valid dt src) by apply count_nonneg.
    rewrite (proj2 (Z.ltb_ge _ _)) by dlia.
    destruct (negb _);
      [destruct (_ =? 1); [eauto|]; destruct (_ =? 2); eauto|]. apply IH; simpl; [lia|].
    rewrite length_app. simpl length. dlia.
  - apply IH; simpl; rewrite length_app; simpl length; [lia|].
    replace (Z.of_nat (length blk + 1) + count_valid dt src)
      with (zlen blk + (1 + count_valid dt src)) by lia. done.
Qed.

Lemma decode_no_fault malloc src : exists r, base64_gen_decode malloc src table = Ok r.
Proof.
  unfold base64_gen_decode. destruct (_ =? 0); [eauto|]. destruct (negb _); [eauto|].
  apply decode_loop_no_fault; simpl; [lia|].
  assert (E : forall n k, count_valid dt (k ++ replicate n pad_char) = count_valid dt k + Z.of_nat n).
  { intros n k. induction k as [|x k IHk]; simpl app; [|rewrite !count_cons, IHk; lia].
    induction n as [|n IHn]; [done|]. simpl replicate. rewrite count_pad, IHn, count_nil. lia. }
  rewrite E. unfold decode_olen, extra_pad. rewrite Z2Nat.id by dlia. dlia.
Qed.

End alphabet.

(** *** The encoder stays within its buffer *)

Lemma length_encode_loop table add_pad line_len src :
  (flag add_pad BASE64_LF = true -> 0 <= line_len < 72 /\ line_len mod 4 = 0) ->
  zlen (encode_loop table add_pad line_len src) <=
  (zlen src + 2) / 3 * 4 +
  (if flag add_pad BASE64_LF then (line_len + (zlen src + 2) / 3 * 4 + 71) / 72 else 0).
Proof.
  revert line_len. induction src as [|a|a b|a b c l IH] using list_triple_ind; intros line_len Hl.
  - simpl. destruct (flag add_pad BASE64_LF); simpl; [|done].
    destruct Hl; [done|]. destruct (Z.eqb_spec line_len 0); simpl; dlia.
  - simpl. destruct (flag add_pad BASE64_PAD), (flag add_pad BASE64_LF); simpl;
      try (destruct Hl; [done|]); dlia.
  - simpl. destruct (flag add_pad BASE64_PAD), (flag add_pad BASE64_LF); simpl;
      try (destruct Hl; [done|]); dlia.
  - simpl encode_loop. simpl app. simpl length.
    destruct (flag add_pad BASE64_LF) eqn:F; simpl andb.
    + destruct Hl as [Hl Hm]; [done|].
      destruct (Z.leb_spec 72 (line_len + 4)); cbv iota.
      * simpl length. specialize (IH 0 ltac:(done)). dlia.
      * specialize (IH (line_len + 4) ltac:(intros; dlia)). dlia.
    + cbv iota. specialize (IH (line_len + 4) ltac:(done)). dlia.
Qed.

Lemma encode_olen_eq len add_pad :
  0 <= len < SIZE_MAX / 4 ->
  encode_olen len add_pad =
  let olen := len * 4 / 3 + 4 in
  (if flag add_pad BASE64_LF then olen + olen / 72 else olen) + 1.
Proof.
  change (SIZE_MAX / 4) with (2 ^ 62 - 1). intros H. unfold encode_olen. cbv zeta.
  rewrite (u64_small (len * 4)) by lia.
  assert (Hq : 0 <= len * 4 / 3 + 4 < 2 ^ 62 * 2) by dlia.
  set (q := len * 4 / 3 + 4) in *. clearbody q.
  assert (0 <= q / 72 <= q) by dlia.
  rewrite (u64_small q), (u64_small (q + q / 72)) by lia.
  destruct (flag add_pad BASE64_LF); apply u64_small; lia.
Qed.

Lemma encode_fits table add_pad src :
  zlen src < SIZE_MAX / 4 ->
  zlen (encode_loop table add_pad 0 src) + 1 <= encode_olen (zlen src) add_pad.
Proof.
  intros H. rewrite encode_olen_eq by lia. cbv zeta.
  pose proof (length_encode_loop table add_pad 0 src ltac:(intros; split; [lia|done])) as L.
  destruct (flag add_pad BASE64_LF); dlia.
Qed.

(** ** Theorems *)

(** Whatever is encoded by [base64_encode] (padded, with line feeds),
    [base64_encode_no_lf] or [base64_url_encode] (no padding) is decoded back
    by the decoder of the same alphabet. *)
Theorem base64_roundtrip malloc src e :
  bytes src -> src <> [] -> (forall n, malloc n = true) ->
  (base64_encode malloc src = Some e -> base64_decode malloc e = Ok (Some src)) /\
  (base64_encode_no_lf malloc src = Some e -> base64_decode malloc e = Ok (Some src)) /\
  (base64_url_encode malloc src = Some e -> base64_url_decode malloc e = Ok (Some src)).
Proof.
  intros Hb Hn Hm. unfold base64_decode, base64_url_decode. repeat split; intros He.
  - exact (decode_encode _ base64_table_ok _ _ _ _ Hb Hn Hm He).
  - exact (decode_encode _ base64_table_ok _ _ _ _ Hb Hn Hm He).
  - exact (decode_encode _ base64_url_table_ok _ _ _ _ Hb Hn Hm He).
Qed.

(** The encoder succeeds on every input shorter than a quarter of the
    address space when [malloc] does, and the characters it stores with their
    final NUL fit in the buffer it allocated: the length computation does not
    overflow. *)
Theorem base64_encode_fits malloc src table add_pad :
  zlen src < SIZE_MAX / 4 -> malloc (encode_olen (zlen src) add_pad) = true ->
  exists e, base64_gen_encode malloc src table add_pad = Some e /\
    zlen e + 1 <= encode_olen (zlen src) add_pad.
Proof.
  intros Hl Hm. exists (encode_loop table add_pad 0 src).
  pose proof (encode_fits table add_pad src Hl) as Hf. split; [|done].
  unfold base64_gen_encode. rewrite (proj2 (Z.leb_gt _ _)) by lia.
  rewrite (proj2 (Z.ltb_ge _ _)); [by rewrite Hm|].
  rewrite encode_olen_eq by lia. cbv zeta. destruct (flag _ _); dlia.
Qed.

(** On any input, of any characters, neither decoder stores past the end of
    the buffer it allocated. *)
Theorem base64_decode_in_bounds malloc src :
  (exists r, base64_decode malloc src = Ok r) /\ (exists r, base64_url_decode malloc src = Ok r).
Proof.
  split; apply decode_no_fault; [apply base64_table_ok|apply base64_url_table_ok].
Qed.

(** ** Witnesses *)

Lemma base64_roundtrip_witness :
  base64_decode (fun _ => true) [90; 109; 56; 61; 10] = Ok (Some [102; 111]).
Proof.
  refine (proj1 (base64_roundtrip (fun _ => true) [102; 111] [90; 109; 56; 61; 10] _ _ _) _).
  - repeat constructor; lia.
  - discriminate.
  - reflexivity.
  - vm_compute. reflexivity.
Defined.

Lemma base64_encode_fits_witness :
  exists e, base64_gen_encode (fun n => n <=? 100) [1; 2; 3; 4] base64_table 3 = Some e /\
    zlen e + 1 <= encode_olen 4 3.
Proof.
  apply (base64_encode_fits (fun n => n <=? 100) [1; 2; 3; 4] base64_table 3);
    vm_compute; reflexivity.
Defined.

End Base64.
