(* ===== verification/EapolSm.v ===== *)
(** * IEEE 802.1X authenticator state machines (eapol_auth/eapol_auth_sm.c)

    The port access entity, backend authentication, reauthentication timer and
    controlled directions machines of one station, the port timers, the run
    loop, the initialisation and the configuration interface.  The callbacks
    into hostapd are events; [Environment] is what the machines expect of
    hostapd (answers of the callbacks) and of the EAP server. *)

From Stdlib Require Import String.
From stdpp Require Import strings.
From S2P Require Import Prelude.

#[local] Open Scope string_scope.
#[local] Open Scope Z_scope.
#[local] Open Scope list_scope.

Module EapolSm.

(** ** Data (eapol_auth_sm_i.h, eap_server/eap.h) *)

Inductive PortTypes := ForceUnauthorized | Auto | ForceAuthorized.
#[export] Instance PortTypes_eq_dec : EqDecision PortTypes.
Proof. solve_decision. Defined.

(** [PortState] keeps its C value: the machine is allocated zeroed, and zero is
    neither constant. *)
Definition Authorized : Z := 1.
Definition Unauthorized : Z := 2.

Inductive ControlledDirection := Both | In.
#[export] Instance ControlledDirection_eq_dec : EqDecision ControlledDirection.
Proof. solve_decision. Defined.

Inductive auth_pae_st :=
| AUTH_PAE_INITIALIZE | AUTH_PAE_DISCONNECTED | AUTH_PAE_CONNECTING
| AUTH_PAE_AUTHENTICATING | AUTH_PAE_AUTHENTICATED | AUTH_PAE_ABORTING
| AUTH_PAE_HELD | AUTH_PAE_FORCE_AUTH | AUTH_PAE_FORCE_UNAUTH | AUTH_PAE_RESTART.
#[export] Instance auth_pae_st_eq_dec : EqDecision auth_pae_st.
Proof. solve_decision. Defined.

Inductive be_auth_st :=
| BE_AUTH_REQUEST | BE_AUTH_RESPONSE | BE_AUTH_SUCCESS | BE_AUTH_FAIL
| BE_AUTH_TIMEOUT | BE_AUTH_IDLE | BE_AUTH_INITIALIZE | BE_AUTH_IGNORE.
#[export] Instance be_auth_st_eq_dec : EqDecision be_auth_st.
Proof. solve_decision. Defined.

Inductive reauth_timer_st := REAUTH_TIMER_INITIALIZE | REAUTH_TIMER_REAUTHENTICATE.
#[export] Instance reauth_timer_st_eq_dec : EqDecision reauth_timer_st.
Proof. solve_decision. Defined.

Inductive ctrl_dir_st := CTRL_DIR_FORCE_BOTH | CTRL_DIR_IN_OR_BOTH.
#[export] Instance ctrl_dir_st_eq_dec : EqDecision ctrl_dir_st.
Proof. solve_decision. Defined.

(** [struct eap_eapol_interface]: the part shared with the machines. *)
Record eap_eapol_interface := mkIf {
  eapResp : bool;
  eapRespData : option (list Z);
  portEnabled : bool;
  retransWhile : Z;
  eapRestart : bool;
  eapReq : bool;
  eapNoReq : bool;
  eapSuccess : bool;
  eapFail : bool;
  eapTimeout : bool;
  eapReqData : option (list Z);
  eapKeyAvailable : bool;
  aaaEapResp : bool;
  aaaEapRespData : option (list Z)
}.
#[export] Instance eap_if_eta : Settable eap_eapol_interface := fun i =>
  mkIf i.(eapResp) i.(eapRespData) i.(portEnabled) i.(retransWhile) i.(eapRestart) i.(eapReq)
    i.(eapNoReq) i.(eapSuccess) i.(eapFail) i.(eapTimeout) i.(eapReqData)
    i.(eapKeyAvailable) i.(aaaEapResp) i.(aaaEapRespData).

(** The [Counter] members: statistics nothing reads back. *)
Record Counters := mkCounters {
  authEntersConnecting : Z;
  authEapLogoffsWhileConnecting : Z;
  authAuthSuccessesWhileAuthenticating : Z;
  authAuthTimeoutsWhileAuthenticating : Z;
  authAuthFailWhileAuthenticating : Z;
  authAuthEapStartsWhileAuthenticating : Z;
  authAuthEapLogoffWhileAuthenticating : Z;
  authAuthReauthsWhileAuthenticated : Z;
  authAuthEapStartsWhileAuthenticated : Z;
  authAuthEapLogoffWhileAuthenticated : Z;
  backendResponses : Z;
  backendAccessChallenges : Z;
  backendOtherRequestsToSupplicant : Z;
  backendAuthSuccesses : Z;
  backendAuthFails : Z;
  dot1xAuthEapolFramesTx : Z;
  dot1xAuthEapolReqIdFramesTx : Z;
  dot1xAuthEapolReqFramesTx : Z
}.
#[export] Instance Counters_eta : Settable Counters := fun c =>
  mkCounters c.(authEntersConnecting) c.(authEapLogoffsWhileConnecting)
    c.(authAuthSuccessesWhileAuthenticating) c.(authAuthTimeoutsWhileAuthenticating)
    c.(authAuthFailWhileAuthenticating) c.(authAuthEapStartsWhileAuthenticating)
    c.(authAuthEapLogoffWhileAuthenticating) c.(authAuthReauthsWhileAuthenticated)
    c.(authAuthEapStartsWhileAuthenticated) c.(authAuthEapLogoffWhileAuthenticated)
    c.(backendResponses) c.(backendAccessChallenges) c.(backendOtherRequestsToSupplicant)
    c.(backendAuthSuccesses) c.(backendAuthFails) c.(dot1xAuthEapolFramesTx)
    c.(dot1xAuthEapolReqIdFramesTx) c.(dot1xAuthEapolReqFramesTx).

(** [struct eapol_state_machine]. *)
Record eapol_sm := mkSm {
  aWhile : Z; quietWhile : Z; reAuthWhen : Z;
  authAbort : bool; authFail : bool; authPortStatus : Z; authStart : bool;
  authTimeout : bool; authSuccess : bool; eapolEap : bool; initialize : bool;
  keyDone : bool; keyRun : bool; keyTxEnabled : bool; portControl : PortTypes;
  portValid : bool; reAuthenticate : bool;
  auth_pae_state : auth_pae_st; eapolLogoff : bool; eapolStart : bool;
  portMode : PortTypes; reAuthCount : Z; quietPeriod : Z; reAuthMax : Z;
  be_auth_state : be_auth_st; serverTimeout : Z;
  reauth_timer_state : reauth_timer_st; reAuthPeriod : Z; reAuthEnabled : bool;
  ctrl_dir_state : ctrl_dir_st;
  adminControlledDirections : ControlledDirection;
  operControlledDirections : ControlledDirection; operEdge : bool;
  counters : Counters;
  sm_flags : Z; eap_if : eap_eapol_interface; last_eap_id : Z;
  initializing : bool; changed : bool; remediation : bool; authenticated : Z; stopped : bool
}.
#[export] Instance sm_eta : Settable eapol_sm := fun s =>
  mkSm s.(aWhile) s.(quietWhile) s.(reAuthWhen) s.(authAbort) s.(authFail) s.(authPortStatus)
    s.(authStart) s.(authTimeout) s.(authSuccess) s.(eapolEap) s.(initialize) s.(keyDone)
    s.(keyRun) s.(keyTxEnabled) s.(portControl) s.(portValid) s.(reAuthenticate)
    s.(auth_pae_state) s.(eapolLogoff) s.(eapolStart) s.(portMode) s.(reAuthCount)
    s.(quietPeriod) s.(reAuthMax) s.(be_auth_state) s.(serverTimeout) s.(reauth_timer_state)
    s.(reAuthPeriod) s.(reAuthEnabled) s.(ctrl_dir_state) s.(adminControlledDirections)
    s.(operControlledDirections) s.(operEdge) s.(counters) s.(sm_flags) s.(eap_if)
    s.(last_eap_id) s.(initializing) s.(changed) s.(remediation) s.(authenticated) s.(stopped).

Definition EAPOL_SM_PREAUTH : Z := BIT 0.
Definition EAPOL_SM_WAIT_START : Z := BIT 1.
Definition EAPOL_SM_USES_WPA : Z := BIT 2.
Definition EAPOL_SM_FROM_PMKSA_CACHE : Z := BIT 3.

Inductive eapol_event := EAPOL_AUTH_SM_CHANGE | EAPOL_AUTH_REAUTHENTICATE.

(** What the machines do to the outside: the callbacks of
    [struct eapol_auth_cb], the event loop registrations, and the calls of the
    EAP server with the interface it leaves. *)
Inductive event :=
| EvEapolSend (type : Z) (data : list Z)
| EvSetPort (authorized : bool)
| EvAbortAuth (disconnect : bool)
| EvFinished (success preauth remediation logoff : bool)
| EvEapolEvent (kind : eapol_event)
| EvAaaSend (data : list Z)
| EvEapStep (result : eap_eapol_interface)
| EvEapNotifyCached
| EvRegisterStep
| EvRegisterTick.

(** The surroundings of the machines.  [env] is the rest of hostapd: it sees
    every event, answers the two callbacks with a result and runs the EAP
    server, which works on the shared interface and on its own state. *)
Class Environment (env : Type) := {
  env_event : event -> env -> env;
  env_finished : bool -> bool -> bool -> bool -> env -> bool;
  sta_entry_alive : env -> bool;
  eap_server_sm_step : eap_eapol_interface -> env -> bool * eap_eapol_interface * env
}.

(** The machine, its surroundings, and the events so far, latest last. *)
Record world (env : Type) := mkWorld { sm : eapol_sm; surr : env; log : list event }.
Arguments mkWorld {env} _ _ _.
Arguments sm {env} _.
Arguments surr {env} _.
Arguments log {env} _.

(** ** Counters and headers *)

Definition inc (c : Counters -> Z) `{!Setter c} (s : eapol_sm) : eapol_sm :=
  s <| counters := (s.(counters)) <| c := u32 (c s.(counters) + 1) |> |>.

Definition EAP_CODE_RESPONSE : Z := 2.
Definition EAP_CODE_SUCCESS : Z := 3.
Definition EAP_CODE_FAILURE : Z := 4.
Definition EAP_TYPE_NONE : Z := 0.
Definition EAP_TYPE_IDENTITY : Z := 1.
Definition IEEE802_1X_TYPE_EAP_PACKET : Z := 0.
Definition sizeof_eap_hdr : Z := 4.

(** eap_common.c *)
Definition eap_get_id (msg : list Z) : Z :=
  if zlen msg <? sizeof_eap_hdr then 0 else at_ msg 1.

Definition eap_get_type (msg : list Z) : Z :=
  if zlen msg <? sizeof_eap_hdr + 1 then EAP_TYPE_NONE else at_ msg sizeof_eap_hdr.

Section machines.
Context {env : Type} `{!Environment env}.

Implicit Types w : world env.

Definition emit (e : event) w : world env := mkWorld w.(sm) (env_event e w.(surr)) (w.(log) ++ [e]).
Definition on_sm (f : eapol_sm -> eapol_sm) w : world env := mkWorld (f w.(sm)) w.(surr) w.(log).
Definition on_if (f : eap_eapol_interface -> eap_eapol_interface) w : world env :=
  on_sm (fun s => s <| eap_if := f s.(eap_if) |>) w.

(** [setPortAuthorized()] and [setPortUnauthorized()]. *)
Definition setPortAuthorized w : world env := emit (EvSetPort true) w.
Definition setPortUnauthorized w : world env := emit (EvSetPort false) w.

Definition eapol_auth_tx_canned_eap (success : bool) w : world env :=
  let w := on_sm (fun s => s <| last_eap_id := u8 (s.(last_eap_id) + 1) |>) w in
  let code := if success then EAP_CODE_SUCCESS else EAP_CODE_FAILURE in
  let w := emit (EvEapolSend IEEE802_1X_TYPE_EAP_PACKET
                   [code; w.(sm).(last_eap_id); 0; sizeof_eap_hdr]) w in
  on_sm (inc dot1xAuthEapolFramesTx) w.

Definition eapol_auth_tx_req w : world env :=
  match w.(sm).(eap_if).(eapReqData) with
  | None => w
  | Some req =>
      if zlen req <? sizeof_eap_hdr then w
      else if flag_set w.(sm).(sm_flags) EAPOL_SM_WAIT_START then w
      else
        let w := on_sm (fun s => s <| last_eap_id := eap_get_id req |>) w in
        let w := emit (EvEapolSend IEEE802_1X_TYPE_EAP_PACKET req) w in
        let w := on_sm (inc dot1xAuthEapolFramesTx) w in
        if eap_get_type req =? EAP_TYPE_IDENTITY
        then on_sm (inc dot1xAuthEapolReqIdFramesTx) w
        else on_sm (inc dot1xAuthEapolReqFramesTx) w
  end.

(** [abortAuth()]: hostapd's callback, [ieee802_1x_abort_auth], takes the port
    down and disconnects the station when the EAP peer timed out. *)
Definition ieee802_1x_abort_auth w : world env :=
  if w.(sm).(eap_if).(eapTimeout)
  then emit (EvAbortAuth true) (on_if (fun i => i <| portEnabled := false |>) w)
  else emit (EvAbortAuth false) w.

(** The [finished] callback, with its result. *)
Definition cb_finished (success preauth remediation logoff : bool) w : bool * world env :=
  (env_finished success preauth remediation logoff w.(surr),
   emit (EvFinished success preauth remediation logoff) w).

(** [SM_ENTRY_MA]: [changed] is set unless a global transition stays put. *)
Definition sm_entry {S} `{!EqDecision S} (field : eapol_sm -> S) `{!Setter field}
    (global : bool) (st : S) (s : eapol_sm) : eapol_sm :=
  let s := if negb global || negb (bool_decide (field s = st)) then s <| changed := true |> else s in
  s <| field := st |>.

(** ** Authenticator PAE state machine *)

Definition sm_AUTH_PAE_INITIALIZE_Enter (global : bool) w : world env :=
  on_sm (fun s => (sm_entry auth_pae_state global AUTH_PAE_INITIALIZE s)
                    <| portMode := Auto |> <| keyRun := false |>) w.

Definition sm_AUTH_PAE_DISCONNECTED_Enter (global : bool) w : world env :=
  let s := w.(sm) in
  let from_initialize := bool_decide (s.(auth_pae_state) = AUTH_PAE_INITIALIZE) in
  let pre_auth_logoff := bool_decide (s.(auth_pae_state) = AUTH_PAE_ABORTING) &&
                         s.(eapolLogoff) && (s.(authenticated) =? 0) in
  let logoff := s.(eapolLogoff) in
  let w :=
    if s.(eapolLogoff) then
      if bool_decide (s.(auth_pae_state) = AUTH_PAE_CONNECTING)
      then on_sm (inc authEapLogoffsWhileConnecting) w
      else if bool_decide (s.(auth_pae_state) = AUTH_PAE_AUTHENTICATED)
      then on_sm (inc authAuthEapLogoffWhileAuthenticated) w
      else w
    else w in
  let w := on_sm (sm_entry auth_pae_state global AUTH_PAE_DISCONNECTED) w in
  let w := on_sm (fun s => s <| authPortStatus := Unauthorized |>) w in
  let w := setPortUnauthorized w in
  let w := on_sm (fun s => s <| reAuthCount := 0 |> <| eapolLogoff := false |>) w in
  if negb from_initialize && negb pre_auth_logoff then
    let '(r, w) := cb_finished false (flag_set w.(sm).(sm_flags) EAPOL_SM_PREAUTH)
                     w.(sm).(remediation) logoff w in
    if r then on_sm (fun s => s <| stopped := true |>) w else w
  else w.

Definition sm_AUTH_PAE_RESTART_Enter (global : bool) w : world env :=
  let w :=
    if bool_decide (w.(sm).(auth_pae_state) = AUTH_PAE_AUTHENTICATED) then
      let w := if w.(sm).(reAuthenticate) then on_sm (inc authAuthReauthsWhileAuthenticated) w else w in
      let w := if w.(sm).(eapolStart) then on_sm (inc authAuthEapStartsWhileAuthenticated) w else w in
      if w.(sm).(eapolLogoff) then on_sm (inc authAuthEapLogoffWhileAuthenticated) w else w
    else w in
  let w := on_sm (sm_entry auth_pae_state global AUTH_PAE_RESTART) w in
  on_if (fun i => i <| eapRestart := true |>) w.

Definition sm_AUTH_PAE_CONNECTING_Enter (global : bool) w : world env :=
  let w := if bool_decide (w.(sm).(auth_pae_state) = AUTH_PAE_CONNECTING) then w
           else on_sm (inc authEntersConnecting) w in
  let w := on_sm (sm_entry auth_pae_state global AUTH_PAE_CONNECTING) w in
  on_sm (fun s => s <| reAuthenticate := false |> <| reAuthCount := u32 (s.(reAuthCount) + 1) |>) w.

Definition sm_AUTH_PAE_HELD_Enter (global : bool) w : world env :=
  let w := if bool_decide (w.(sm).(auth_pae_state) = AUTH_PAE_AUTHENTICATING) && w.(sm).(authFail)
           then on_sm (inc authAuthFailWhileAuthenticating) w else w in
  let w := on_sm (sm_entry auth_pae_state global AUTH_PAE_HELD) w in
  let w := on_sm (fun s => s <| authPortStatus := Unauthorized |>) w in
  let w := setPortUnauthorized w in
  let w := on_sm (fun s => s <| quietWhile := s32 s.(quietPeriod) |> <| eapolLogoff := false |>) w in
  snd (cb_finished false (flag_set w.(sm).(sm_flags) EAPOL_SM_PREAUTH) w.(sm).(remediation) false w).

Definition sm_AUTH_PAE_AUTHENTICATED_Enter (global : bool) w : world env :=
  let w := if bool_decide (w.(sm).(auth_pae_state) = AUTH_PAE_AUTHENTICATING) && w.(sm).(authSuccess)
           then on_sm (inc authAuthSuccessesWhileAuthenticating) w else w in
  let w := on_sm (sm_entry auth_pae_state global AUTH_PAE_AUTHENTICATED) w in
  let w := on_sm (fun s => s <| authPortStatus := Authorized |>) w in
  let w := setPortAuthorized w in
  let w := on_sm (fun s => s <| reAuthCount := 0 |>) w in
  let w := if w.(sm).(authSuccess)
           then on_sm (fun s => s <| authenticated := u32 (s.(authenticated) + 1) |>) w else w in
  snd (cb_finished true (flag_set w.(sm).(sm_flags) EAPOL_SM_PREAUTH) w.(sm).(remediation) false w).

Definition sm_AUTH_PAE_AUTHENTICATING_Enter (global : bool) w : world env :=
  on_sm (fun s => (sm_entry auth_pae_state global AUTH_PAE_AUTHENTICATING s)
                    <| eapolStart := false |> <| authSuccess := false |> <| authFail := false |>
                    <| authTimeout := false |> <| authStart := true |> <| keyRun := false |>
                    <| keyDone := false |>) w.

Definition sm_AUTH_PAE_ABORTING_Enter (global : bool) w : world env :=
  let w :=
    if bool_decide (w.(sm).(auth_pae_state) = AUTH_PAE_AUTHENTICATING) then
      let w := if w.(sm).(authTimeout) then on_sm (inc authAuthTimeoutsWhileAuthenticating) w else w in
      let w := if w.(sm).(eapolStart) then on_sm (inc authAuthEapStartsWhileAuthenticating) w else w in
      if w.(sm).(eapolLogoff) then on_sm (inc authAuthEapLogoffWhileAuthenticating) w else w
    else w in
  on_sm (fun s => (sm_entry auth_pae_state global AUTH_PAE_ABORTING s)
                    <| authAbort := true |> <| keyRun := false |> <| keyDone := false |>) w.

Definition sm_AUTH_PAE_FORCE_AUTH_Enter (global : bool) w : world env :=
  let w := on_sm (sm_entry auth_pae_state global AUTH_PAE_FORCE_AUTH) w in
  let w := on_sm (fun s => s <| authPortStatus := Authorized |>) w in
  let w := setPortAuthorized w in
  let w := on_sm (fun s => s <| portMode := ForceAuthorized |> <| eapolStart := false |>) w in
  eapol_auth_tx_canned_eap true w.

Definition sm_AUTH_PAE_FORCE_UNAUTH_Enter (global : bool) w : world env :=
  let w := on_sm (sm_entry auth_pae_state global AUTH_PAE_FORCE_UNAUTH) w in
  let w := on_sm (fun s => s <| authPortStatus := Unauthorized |>) w in
  let w := setPortUnauthorized w in
  let w := on_sm (fun s => s <| portMode := ForceUnauthorized |> <| eapolStart := false |>) w in
  eapol_auth_tx_canned_eap false w.

Definition sm_AUTH_PAE_Step w : world env :=
  let s := w.(sm) in
  let i := s.(eap_if) in
  let down := s.(initialize) || negb i.(portEnabled) in
  if (bool_decide (s.(portControl) = Auto) && negb (bool_decide (s.(portMode) = s.(portControl)))) ||
     down
  then sm_AUTH_PAE_INITIALIZE_Enter true w
  else if bool_decide (s.(portControl) = ForceAuthorized) &&
          negb (bool_decide (s.(portMode) = s.(portControl))) && negb down
  then sm_AUTH_PAE_FORCE_AUTH_Enter true w
  else if bool_decide (s.(portControl) = ForceUnauthorized) &&
          negb (bool_decide (s.(portMode) = s.(portControl))) && negb down
  then sm_AUTH_PAE_FORCE_UNAUTH_Enter true w
  else
    match s.(auth_pae_state) with
    | AUTH_PAE_INITIALIZE => sm_AUTH_PAE_DISCONNECTED_Enter false w
    | AUTH_PAE_DISCONNECTED =>
        if negb s.(stopped) then sm_AUTH_PAE_RESTART_Enter false w else w
    | AUTH_PAE_RESTART =>
        if negb i.(eapRestart) then sm_AUTH_PAE_CONNECTING_Enter false w else w
    | AUTH_PAE_HELD =>
        if s.(quietWhile) =? 0 then sm_AUTH_PAE_RESTART_Enter false w else w
    | AUTH_PAE_CONNECTING =>
        if s.(eapolLogoff) || (s.(reAuthMax) <? s.(reAuthCount))
        then sm_AUTH_PAE_DISCONNECTED_Enter false w
        else if (i.(eapReq) && (s.(reAuthCount) <=? s.(reAuthMax))) || i.(eapSuccess) || i.(eapFail)
        then sm_AUTH_PAE_AUTHENTICATING_Enter false w
        else w
    | AUTH_PAE_AUTHENTICATED =>
        if s.(eapolStart) || s.(reAuthenticate) then sm_AUTH_PAE_RESTART_Enter false w
        else if s.(eapolLogoff) || negb s.(portValid) then sm_AUTH_PAE_DISCONNECTED_Enter false w
        else w
    | AUTH_PAE_AUTHENTICATING =>
        if s.(authSuccess) && s.(portValid) then sm_AUTH_PAE_AUTHENTICATED_Enter false w
        else if s.(authFail) || (s.(keyDone) && negb s.(portValid))
        then sm_AUTH_PAE_HELD_Enter false w
        else if s.(eapolStart) || s.(eapolLogoff) || s.(authTimeout)
        then sm_AUTH_PAE_ABORTING_Enter false w
        else w
    | AUTH_PAE_ABORTING =>
        if s.(eapolLogoff) && negb s.(authAbort) then sm_AUTH_PAE_DISCONNECTED_Enter false w
        else if negb s.(eapolLogoff) && negb s.(authAbort) then sm_AUTH_PAE_RESTART_Enter false w
        else w
    | AUTH_PAE_FORCE_AUTH =>
        if s.(eapolStart) then sm_AUTH_PAE_FORCE_AUTH_Enter false w else w
    | AUTH_PAE_FORCE_UNAUTH =>
        if s.(eapolStart) then sm_AUTH_PAE_FORCE_UNAUTH_Enter false w else w
    end.

(** ** Backend authentication state machine *)

Definition sm_BE_AUTH_INITIALIZE_Enter (global : bool) w : world env :=
  let w := on_sm (sm_entry be_auth_state global BE_AUTH_INITIALIZE) w in
  let w := ieee802_1x_abort_auth w in
  let w := on_if (fun i => i <| eapNoReq := false |>) w in
  on_sm (fun s => s <| authAbort := false |>) w.

Definition sm_BE_AUTH_REQUEST_Enter (global : bool) w : world env :=
  let w := on_sm (sm_entry be_auth_state global BE_AUTH_REQUEST) w in
  let w := eapol_auth_tx_req w in
  let w := on_if (fun i => i <| eapReq := false |>) w in
  let w := on_sm (inc backendOtherRequestsToSupplicant) w in
  on_sm (fun s => s <| eapolEap := false |>) w.

Definition sm_BE_AUTH_RESPONSE_Enter (global : bool) w : world env :=
  let w := on_sm (fun s => (sm_entry be_auth_state global BE_AUTH_RESPONSE s)
                             <| authTimeout := false |> <| eapolEap := false |>) w in
  let w := on_if (fun i => i <| eapNoReq := false |>) w in
  let w := on_sm (fun s => s <| aWhile := s32 s.(serverTimeout) |>) w in
  let w := on_if (fun i => i <| eapResp := true |>) w in
  on_sm (inc backendResponses) w.

Definition sm_BE_AUTH_SUCCESS_Enter (global : bool) w : world env :=
  let w := on_sm (sm_entry be_auth_state global BE_AUTH_SUCCESS) w in
  let w := eapol_auth_tx_req w in
  on_sm (fun s => s <| authSuccess := true |> <| keyRun := true |>) w.

Definition sm_BE_AUTH_FAIL_Enter (global : bool) w : world env :=
  let w := on_sm (sm_entry be_auth_state global BE_AUTH_FAIL) w in
  let w := eapol_auth_tx_req w in
  on_sm (fun s => s <| authFail := true |>) w.

Definition sm_BE_AUTH_TIMEOUT_Enter (global : bool) w : world env :=
  on_sm (fun s => (sm_entry be_auth_state global BE_AUTH_TIMEOUT s) <| authTimeout := true |>) w.

Definition sm_BE_AUTH_IDLE_Enter (global : bool) w : world env :=
  on_sm (fun s => (sm_entry be_auth_state global BE_AUTH_IDLE s) <| authStart := false |>) w.

Definition sm_BE_AUTH_IGNORE_Enter (global : bool) w : world env :=
  let w := on_sm (sm_entry be_auth_state global BE_AUTH_IGNORE) w in
  on_if (fun i => i <| eapNoReq := false |>) w.

(** In [RESPONSE], the transition to [IGNORE] does not end the case: the tests
    that follow it are made again, on the interface it left. *)
Definition sm_BE_AUTH_Step w : world env :=
  let s := w.(sm) in
  let i := s.(eap_if) in
  if negb (bool_decide (s.(portControl) = Auto)) || s.(initialize) || s.(authAbort)
  then sm_BE_AUTH_INITIALIZE_Enter true w
  else
    match s.(be_auth_state) with
    | BE_AUTH_INITIALIZE => sm_BE_AUTH_IDLE_Enter false w
    | BE_AUTH_REQUEST =>
        if s.(eapolEap) then sm_BE_AUTH_RESPONSE_Enter false w
        else if i.(eapReq) then sm_BE_AUTH_REQUEST_Enter false w
        else if i.(eapTimeout) then sm_BE_AUTH_TIMEOUT_Enter false w
        else w
    | BE_AUTH_RESPONSE =>
        let w := if i.(eapNoReq) then sm_BE_AUTH_IGNORE_Enter false w else w in
        let s := w.(sm) in
        let i := s.(eap_if) in
        if i.(eapReq) then
          sm_BE_AUTH_REQUEST_Enter false (on_sm (inc backendAccessChallenges) w)
        else if s.(aWhile) =? 0 then sm_BE_AUTH_TIMEOUT_Enter false w
        else if i.(eapFail) then
          sm_BE_AUTH_FAIL_Enter false (on_sm (inc backendAuthFails) w)
        else if i.(eapSuccess) then
          sm_BE_AUTH_SUCCESS_Enter false (on_sm (inc backendAuthSuccesses) w)
        else w
    | BE_AUTH_SUCCESS => sm_BE_AUTH_IDLE_Enter false w
    | BE_AUTH_FAIL => sm_BE_AUTH_IDLE_Enter false w
    | BE_AUTH_TIMEOUT => sm_BE_AUTH_IDLE_Enter false w
    | BE_AUTH_IDLE =>
        if i.(eapFail) && s.(authStart) then sm_BE_AUTH_FAIL_Enter false w
        else if i.(eapReq) && s.(authStart) then sm_BE_AUTH_REQUEST_Enter false w
        else if i.(eapSuccess) && s.(authStart) then sm_BE_AUTH_SUCCESS_Enter false w
        else w
    | BE_AUTH_IGNORE =>
        if s.(eapolEap) then sm_BE_AUTH_RESPONSE_Enter false w
        else if i.(eapReq) then sm_BE_AUTH_REQUEST_Enter false w
        else if i.(eapTimeout) then sm_BE_AUTH_TIMEOUT_Enter false w
        else w
    end.

(** ** Reauthentication timer state machine *)

Definition sm_REAUTH_TIMER_INITIALIZE_Enter (global : bool) w : world env :=
  on_sm (fun s => let s := sm_entry reauth_timer_state global REAUTH_TIMER_INITIALIZE s in
                  s <| reAuthWhen := s32 s.(reAuthPeriod) |>) w.

Definition sm_REAUTH_TIMER_REAUTHENTICATE_Enter (global : bool) w : world env :=
  let w := on_sm (fun s => (sm_entry reauth_timer_state global REAUTH_TIMER_REAUTHENTICATE s)
                             <| reAuthenticate := true |>) w in
  emit (EvEapolEvent EAPOL_AUTH_REAUTHENTICATE) w.

Definition sm_REAUTH_TIMER_Step w : world env :=
  let s := w.(sm) in
  if negb (bool_decide (s.(portControl) = Auto)) || s.(initialize) ||
     (s.(authPortStatus) =? Unauthorized) || negb s.(reAuthEnabled)
  then sm_REAUTH_TIMER_INITIALIZE_Enter true w
  else
    match s.(reauth_timer_state) with
    | REAUTH_TIMER_INITIALIZE =>
        if s.(reAuthWhen) =? 0 then sm_REAUTH_TIMER_REAUTHENTICATE_Enter false w else w
    | REAUTH_TIMER_REAUTHENTICATE => sm_REAUTH_TIMER_INITIALIZE_Enter false w
    end.

(** ** Controlled directions state machine *)

Definition sm_CTRL_DIR_FORCE_BOTH_Enter (global : bool) w : world env :=
  on_sm (fun s => (sm_entry ctrl_dir_state global CTRL_DIR_FORCE_BOTH s)
                    <| operControlledDirections := Both |>) w.

Definition sm_CTRL_DIR_IN_OR_BOTH_Enter (global : bool) w : world env :=
  on_sm (fun s => let s := sm_entry ctrl_dir_state global CTRL_DIR_IN_OR_BOTH s in
                  s <| operControlledDirections := s.(adminControlledDirections) |>) w.

Definition sm_CTRL_DIR_Step w : world env :=
  let s := w.(sm) in
  if s.(initialize) then sm_CTRL_DIR_IN_OR_BOTH_Enter true w
  else
    match s.(ctrl_dir_state) with
    | CTRL_DIR_FORCE_BOTH =>
        if s.(eap_if).(portEnabled) && s.(operEdge) then sm_CTRL_DIR_IN_OR_BOTH_Enter false w else w
    | CTRL_DIR_IN_OR_BOTH =>
        let w := if bool_decide (s.(operControlledDirections) = s.(adminControlledDirections))
                 then w else sm_CTRL_DIR_IN_OR_BOTH_Enter false w in
        let s := w.(sm) in
        if negb s.(eap_if).(portEnabled) || negb s.(operEdge)
        then sm_CTRL_DIR_FORCE_BOTH_Enter false w else w
    end.

(** ** Running the machines *)

Definition alive w : bool := sta_entry_alive w.(surr).

(** [eapol_auth_step]: the machines run from the event loop. *)
Definition eapol_auth_step w : world env := emit EvRegisterStep w.

(** A machine after the first runs only while the station entry exists, or
    during the initialisation. *)
Definition guarded (f : world env -> world env) w : world env :=
  if w.(sm).(initializing) || alive w then f w else w.

(** The four machines, once each. *)
Definition sm_pass w : world env :=
  let w := sm_AUTH_PAE_Step w in
  let w := guarded sm_BE_AUTH_Step w in
  let w := guarded sm_REAUTH_TIMER_Step w in
  guarded sm_CTRL_DIR_Step w.

(** Whether a pass changed the state of a machine. *)
Definition states_changed (s s' : eapol_sm) : bool :=
  negb (bool_decide (s.(auth_pae_state) = s'.(auth_pae_state))) ||
  negb (bool_decide (s.(be_auth_state) = s'.(be_auth_state))) ||
  negb (bool_decide (s.(reauth_timer_state) = s'.(reauth_timer_state))) ||
  negb (bool_decide (s.(ctrl_dir_state) = s'.(ctrl_dir_state))).

(** One call of the EAP server: whether it asks for another pass. *)
Definition eap_step w : bool * world env :=
  let '(again, i, e) := eap_server_sm_step w.(sm).(eap_if) w.(surr) in
  (again, emit (EvEapStep i) (mkWorld (w.(sm) <| eap_if := i |>) e w.(log))).

(** The end of a run: an EAP response to forward to the AAA server.  [true]
    when the function returns from there. *)
Definition forward_aaa w : bool * world env :=
  let i := w.(sm).(eap_if) in
  if i.(aaaEapResp) then
    let w := on_if (fun i => i <| aaaEapResp := false |>) w in
    match i.(aaaEapRespData) with
    | None => (true, w)
    | Some d => (false, emit (EvAaaSend d) w)
    end
  else (false, w).

Definition notify_change w : world env :=
  if alive w then emit (EvEapolEvent EAPOL_AUTH_SM_CHANGE) w else w.

(** [eapol_sm_step_run] from its label [restart:], with [max_steps] left: the
    machines run while their states change, then the EAP server; after
    [max_steps] passes the rest is left to the event loop. *)
Fixpoint step_loop (max_steps : nat) w : world env :=
  match max_steps with
  | O => eapol_auth_step w
  | S passes =>
      let prev := w.(sm) in
      let w := sm_pass w in
      let restart w := match passes with O => eapol_auth_step w | S _ => step_loop passes w end in
      if states_changed prev w.(sm) then restart w
      else if alive w then
        let '(again, w) := eap_step w in
        if again then restart w
        else
          let '(returned, w) := forward_aaa w in
          if returned then w else notify_change w
      else notify_change w
  end.

Definition eapol_sm_step_run w : world env := step_loop 100 w.

(** [eapol_sm_step_cb] *)
Definition eapol_sm_step_cb w : world env := eapol_sm_step_run w.

(** ** Port timers *)

Definition tick (t : Z) : Z := if 0 <? t then t - 1 else t.

Definition eapol_port_timers_tick w : world env :=
  let w := on_sm (fun s => s <| aWhile := tick s.(aWhile) |>) w in
  let w := on_sm (fun s => s <| quietWhile := tick s.(quietWhile) |>) w in
  let w := on_sm (fun s => s <| reAuthWhen := tick s.(reAuthWhen) |>) w in
  let w := on_if (fun i => i <| retransWhile := tick i.(retransWhile) |>) w in
  emit EvRegisterTick (eapol_sm_step_run w).

(** ** Allocation and initialisation *)

Definition AUTH_PAE_DEFAULT_quietPeriod : Z := 60.
Definition AUTH_PAE_DEFAULT_reAuthMax : Z := 2.
Definition BE_AUTH_DEFAULT_serverTimeout : Z := 30.

Definition zero_counters : Counters :=
  mkCounters 0 0 0 0 0 0 0 0 0 0 0 0 0 0 0 0 0 0.

(** [eapol_auth_initialize] *)
Definition eapol_auth_initialize w : world env :=
  let w := on_sm (fun s => s <| initializing := true |> <| initialize := true |>) w in
  let w := eapol_sm_step_run w in
  let w := on_sm (fun s => s <| initialize := false |>) w in
  let w := eapol_sm_step_run w in
  let w := on_sm (fun s => s <| initializing := false |>) w in
  emit EvRegisterTick w.

(** The zeroed and then filled structure of [eapol_auth_alloc]. [PortTypes] has
    no zero constant: [portMode] is set by the first pass before any test that
    matters reads it, and starts as [Auto] here. *)
Definition fresh_sm (flags eap_reauth_period : Z) (wpa : bool) (i : eap_eapol_interface) : eapol_sm :=
  mkSm 0 0 0
    false false 0 false
    false false false false
    false false false Auto
    (negb wpa) false
    AUTH_PAE_INITIALIZE false false
    Auto 0 AUTH_PAE_DEFAULT_quietPeriod AUTH_PAE_DEFAULT_reAuthMax
    BE_AUTH_INITIALIZE BE_AUTH_DEFAULT_serverTimeout
    REAUTH_TIMER_INITIALIZE (u32 eap_reauth_period) (0 <? eap_reauth_period)
    CTRL_DIR_IN_OR_BOTH Both Both false
    zero_counters flags i 0 false false false 0 false.

(** [eapol_auth_alloc]; [eap_init] is the interface [eap_server_sm_init] sets
    up, or [None] when it fails; [session_id_ok] is [radius_gen_session_id]'s
    success. *)
Definition eapol_auth_alloc (e : env) (flags eap_reauth_period : Z) (wpa : bool)
    (eap_init : option eap_eapol_interface) (session_id_ok : bool) : option (world env) :=
  match eap_init with
  | None => None
  | Some i =>
      let w := eapol_auth_initialize (mkWorld (fresh_sm flags eap_reauth_period wpa i) e []) in
      if session_id_ok then Some w else None
  end.

(** ** Configuration and triggers *)

Definition eapol_auth_reauthenticate w : world env :=
  eapol_auth_step (on_sm (fun s => s <| reAuthenticate := true |>) w).

Definition ieee802_1x_notify_port_enabled (enabled : bool) w : world env :=
  eapol_auth_step (on_if (fun i => i <| portEnabled := enabled |>) w).

Definition ieee802_1x_notify_port_valid (valid : bool) w : world env :=
  eapol_auth_step (on_sm (fun s => s <| portValid := valid |>) w).

Definition ieee802_1x_notify_pre_auth (pre_auth : bool) w : world env :=
  on_sm (fun s => s <| sm_flags :=
    if pre_auth then Z.lor s.(sm_flags) EAPOL_SM_PREAUTH
    else Z.land s.(sm_flags) (Z.lnot EAPOL_SM_PREAUTH) |>) w.

(** [os_strcasecmp] with a parameter name, and [atoi], on C strings. *)
Definition lower (c : Ascii.ascii) : Ascii.ascii :=
  let n := Ascii.nat_of_ascii c in
  if ((65 <=? n) && (n <=? 90))%nat then Ascii.ascii_of_nat (n + 32) else c.
Fixpoint os_strcasecmp_eq (a b : string) : bool :=
  match a, b with
  | EmptyString, EmptyString => true
  | String c a', String d b' => Ascii.eqb (lower c) (lower d) && os_strcasecmp_eq a' b'
  | _, _ => false
  end.

(** [eapol_auth_set_conf]: the result and the machine; [atoi] is the C
    library's. *)
Definition eapol_auth_set_conf (atoi : string -> Z) (param value : string) w : Z * world env :=
  let stepped f := (0, eapol_auth_step (on_sm f w)) in
  let set f := (0, on_sm f w) in
  let fail := (-1, w) in
  if os_strcasecmp_eq param "AdminControlledDirections" then
    if String.eqb value "Both" then stepped (fun s => s <| adminControlledDirections := Both |>)
    else if String.eqb value "In" then stepped (fun s => s <| adminControlledDirections := In |>)
    else fail
  else if os_strcasecmp_eq param "AdminControlledPortControl" then
    if String.eqb value "ForceAuthorized" then stepped (fun s => s <| portControl := ForceAuthorized |>)
    else if String.eqb value "ForceUnauthorized" then
      stepped (fun s => s <| portControl := ForceUnauthorized |>)
    else if String.eqb value "Auto" then stepped (fun s => s <| portControl := Auto |>)
    else fail
  else if os_strcasecmp_eq param "quietPeriod" then
    set (fun s => s <| quietPeriod := u32 (atoi value) |>)
  else if os_strcasecmp_eq param "serverTimeout" then
    set (fun s => s <| serverTimeout := u32 (atoi value) |>)
  else if os_strcasecmp_eq param "reAuthPeriod" then
    set (fun s => s <| reAuthPeriod := u32 (atoi value) |>)
  else if os_strcasecmp_eq param "reAuthEnabled" then
    if String.eqb value "TRUE" then stepped (fun s => s <| reAuthEnabled := true |>)
    else if String.eqb value "FALSE" then stepped (fun s => s <| reAuthEnabled := false |>)
    else fail
  else if os_strcasecmp_eq param "KeyTransmissionEnabled" then
    if String.eqb value "TRUE" then stepped (fun s => s <| keyTxEnabled := true |>)
    else if String.eqb value "FALSE" then stepped (fun s => s <| keyTxEnabled := false |>)
    else fail
  else fail.

(** [ieee802_1x_new_station]'s use of a cached PMKSA (ap/ieee802_1x.c): the
    machines are put where a finished EAP exchange leaves them. *)
Definition new_station_pmksa w : world env :=
  let w := on_if (fun i => i <| portEnabled := true |>) w in
  let w := on_sm (fun s => s <| keyRun := true |>) w in
  let w := on_if (fun i => i <| eapKeyAvailable := true |>) w in
  let w := on_sm (fun s => s <| auth_pae_state := AUTH_PAE_AUTHENTICATING |>
                             <| be_auth_state := BE_AUTH_SUCCESS |>
                             <| authSuccess := true |> <| authFail := false |>) w in
  emit EvEapNotifyCached w.

(** ** Executions *)

(** Events that neither set the port nor tell of the outcome of EAP. *)
Definition inert (e : event) : bool :=
  match e with EvSetPort _ | EvEapStep _ | EvEapNotifyCached => false | _ => true end.

(** What the rest of hostapd may do between two runs: anything to the machine
    but to the fields the machines own; with [admin], also to the
    administrative port control. *)
Definition external (admin : bool) w w' : Prop :=
  auth_pae_state w'.(sm) = auth_pae_state w.(sm) /\
  authPortStatus w'.(sm) = authPortStatus w.(sm) /\
  authSuccess w'.(sm) = authSuccess w.(sm) /\
  eapSuccess (eap_if w'.(sm)) = eapSuccess (eap_if w.(sm)) /\
  (admin = false -> portControl w'.(sm) = portControl w.(sm)) /\
  exists l, Forall (fun e => inert e = true) l /\ w'.(log) = w.(log) ++ l.

(** The worlds hostapd goes through from the allocation of the machine. *)
Inductive reachable (admin : bool) : world env -> Prop :=
| reach_alloc e flags period wpa i session_id_ok w :
    eapSuccess i = false ->
    eapol_auth_alloc e flags period wpa (Some i) session_id_ok = Some w -> reachable admin w
| reach_run w : reachable admin w -> reachable admin (eapol_sm_step_run w)
| reach_tick w : reachable admin w -> reachable admin (eapol_port_timers_tick w)
| reach_external w w' : reachable admin w -> external admin w w' -> reachable admin w'
| reach_cached w : reachable admin w -> reachable admin (new_station_pmksa w).

(** ** What a step does to the port *)

(** The port status the driver was last told, as [authPortStatus] has it. *)
Definition told (l : list event) : Z :=
  foldl (fun st e => match e with
                     | EvSetPort true => Authorized
                     | EvSetPort false => Unauthorized
                     | _ => st
                     end) 0 l.

Definition port_events (port : option bool) : list event :=
  match port with Some b => [EvSetPort b] | None => [] end.

Definition port_status (port : option bool) (st : Z) : Z :=
  match port with Some true => Authorized | Some false => Unauthorized | None => st end.

(** What is left of the surroundings by the events they are told. *)
Definition notified (l : list event) (e : env) : env := foldl (fun e v => env_event v e) e l.

(** [w'] is [w] moved to [pae], with the port set to [port] if at all, and
    [authSuccess] as [succ]; the surroundings see the events only. *)
Definition becomes w w' (pae : auth_pae_st) (port : option bool) (succ : bool) : Prop :=
  auth_pae_state w'.(sm) = pae /\
  authSuccess w'.(sm) = succ /\
  eapSuccess (eap_if w'.(sm)) = eapSuccess (eap_if w.(sm)) /\
  portControl w'.(sm) = portControl w.(sm) /\
  authPortStatus w'.(sm) = port_status port (authPortStatus w.(sm)) /\
  eapRespData (eap_if w'.(sm)) = eapRespData (eap_if w.(sm)) /\
  exists l, Forall (fun e => inert e = true) l /\
    w'.(log) = w.(log) ++ port_events port ++ l /\ w'.(surr) = notified (port_events port ++ l) w.(surr).

(** ** The held state *)

(** What decides whether a held port stays held. *)
Definition hold_view (s : eapol_sm) :=
  (s.(auth_pae_state), s.(quietWhile), s.(initialize), s.(eap_if).(portEnabled),
   s.(portMode), s.(portControl), s.(authAbort)).

(** A port in [HELD] with [q] seconds of quiet time to go. *)
Definition held (q : Z) w : Prop :=
  hold_view w.(sm) = (AUTH_PAE_HELD, q, false, true, Auto, Auto, false).

(** [during w k v]: from [w], [k] seconds passed, with any number of runs and
    any inputs of the supplicant in between, up to [v]. *)
Inductive during w : nat -> world env -> Prop :=
| during_start : during w 0 w
| during_tick k v : during w k v -> during w (S k) (eapol_port_timers_tick v)
| during_run k v : during w k v -> during w k (eapol_sm_step_run v)
| during_input k v v' :
    during w k v -> hold_view v'.(sm) = hold_view v.(sm) -> during w k v'.

End machines.

(** What the authenticator relies on the EAP server for: it never enables or
    disables the port. *)
Class EapServerLaws (env : Type) `{!Environment env} :=
  eap_step_port i e : portEnabled (eap_server_sm_step i e).1.2 = portEnabled i.

Create HintDb eapol.
#[export] Hint Unfold
  sm_AUTH_PAE_INITIALIZE_Enter sm_AUTH_PAE_DISCONNECTED_Enter sm_AUTH_PAE_RESTART_Enter
  sm_AUTH_PAE_CONNECTING_Enter sm_AUTH_PAE_HELD_Enter sm_AUTH_PAE_AUTHENTICATED_Enter
  sm_AUTH_PAE_AUTHENTICATING_Enter sm_AUTH_PAE_ABORTING_Enter sm_AUTH_PAE_FORCE_AUTH_Enter
  sm_AUTH_PAE_FORCE_UNAUTH_Enter sm_BE_AUTH_INITIALIZE_Enter sm_BE_AUTH_REQUEST_Enter
  sm_BE_AUTH_RESPONSE_Enter sm_BE_AUTH_SUCCESS_Enter sm_BE_AUTH_FAIL_Enter
  sm_BE_AUTH_TIMEOUT_Enter sm_BE_AUTH_IDLE_Enter sm_BE_AUTH_IGNORE_Enter
  sm_REAUTH_TIMER_INITIALIZE_Enter sm_REAUTH_TIMER_REAUTHENTICATE_Enter sm_CTRL_DIR_FORCE_BOTH_Enter
  sm_CTRL_DIR_IN_OR_BOTH_Enter
  eapol_auth_tx_req eapol_auth_tx_canned_eap ieee802_1x_abort_auth cb_finished : eapol.

(** Proves a [becomes] by running the definitions on an explicit machine. *)
Ltac run_machine :=
  intros; unfold becomes; autounfold with eapol; cbn; repeat (case_match; cbn); subst;
  repeat split; try done;
  (exists []; split; [constructor|]; cbn; rewrite ?app_nil_r; split; reflexivity) ||
  (eexists; split; [|rewrite <- ?app_assoc; split; reflexivity]; repeat constructor).

Section proofs.
Context {env : Type} `{!Environment env}.
Implicit Types w : world env.

(** *** Each state entry, as a move *)

Lemma becomes_DISCONNECTED g w :
  becomes w (sm_AUTH_PAE_DISCONNECTED_Enter g w) AUTH_PAE_DISCONNECTED (Some false) w.(sm).(authSuccess).
Proof. run_machine. Qed.

Lemma becomes_RESTART g w :
  becomes w (sm_AUTH_PAE_RESTART_Enter g w) AUTH_PAE_RESTART None w.(sm).(authSuccess).
Proof. run_machine. Qed.

Lemma becomes_CONNECTING g w :
  becomes w (sm_AUTH_PAE_CONNECTING_Enter g w) AUTH_PAE_CONNECTING None w.(sm).(authSuccess).
Proof. run_machine. Qed.

Lemma becomes_HELD g w :
  becomes w (sm_AUTH_PAE_HELD_Enter g w) AUTH_PAE_HELD (Some false) w.(sm).(authSuccess).
Proof. run_machine. Qed.

Lemma becomes_AUTHENTICATED g w :
  becomes w (sm_AUTH_PAE_AUTHENTICATED_Enter g w) AUTH_PAE_AUTHENTICATED (Some true) w.(sm).(authSuccess).
Proof. run_machine. Qed.

Lemma becomes_ABORTING g w :
  becomes w (sm_AUTH_PAE_ABORTING_Enter g w) AUTH_PAE_ABORTING None w.(sm).(authSuccess).
Proof. run_machine. Qed.

Lemma becomes_FORCE_AUTH g w :
  becomes w (sm_AUTH_PAE_FORCE_AUTH_Enter g w) AUTH_PAE_FORCE_AUTH (Some true) w.(sm).(authSuccess).
Proof. run_machine. Qed.

Lemma becomes_FORCE_UNAUTH g w :
  becomes w (sm_AUTH_PAE_FORCE_UNAUTH_Enter g w) AUTH_PAE_FORCE_UNAUTH (Some false) w.(sm).(authSuccess).
Proof. run_machine. Qed.

Lemma becomes_INITIALIZE g w :
  becomes w (sm_AUTH_PAE_INITIALIZE_Enter g w) AUTH_PAE_INITIALIZE None w.(sm).(authSuccess).
Proof. run_machine. Qed.

Lemma becomes_AUTHENTICATING g w :
  becomes w (sm_AUTH_PAE_AUTHENTICATING_Enter g w) AUTH_PAE_AUTHENTICATING None false.
Proof. run_machine. Qed.

Lemma becomes_same w : becomes w w w.(sm).(auth_pae_state) None w.(sm).(authSuccess).
Proof. run_machine. Qed.

Lemma becomes_BE_INITIALIZE g w :
  becomes w (sm_BE_AUTH_INITIALIZE_Enter g w) w.(sm).(auth_pae_state) None w.(sm).(authSuccess).
Proof. run_machine. Qed.

Lemma becomes_BE_REQUEST g w :
  becomes w (sm_BE_AUTH_REQUEST_Enter g w) w.(sm).(auth_pae_state) None w.(sm).(authSuccess).
Proof. run_machine. Qed.

Lemma becomes_BE_RESPONSE g w :
  becomes w (sm_BE_AUTH_RESPONSE_Enter g w) w.(sm).(auth_pae_state) None w.(sm).(authSuccess).
Proof. run_machine. Qed.

Lemma becomes_BE_FAIL g w :
  becomes w (sm_BE_AUTH_FAIL_Enter g w) w.(sm).(auth_pae_state) None w.(sm).(authSuccess).
Proof. run_machine. Qed.

Lemma becomes_BE_TIMEOUT g w :
  becomes w (sm_BE_AUTH_TIMEOUT_Enter g w) w.(sm).(auth_pae_state) None w.(sm).(authSuccess).
Proof. run_machine. Qed.

Lemma becomes_BE_IDLE g w :
  becomes w (sm_BE_AUTH_IDLE_Enter g w) w.(sm).(auth_pae_state) None w.(sm).(authSuccess).
Proof. run_machine. Qed.

Lemma becomes_BE_IGNORE g w :
  becomes w (sm_BE_AUTH_IGNORE_Enter g w) w.(sm).(auth_pae_state) None w.(sm).(authSuccess).
Proof. run_machine. Qed.

Lemma becomes_BE_SUCCESS g w :
  becomes w (sm_BE_AUTH_SUCCESS_Enter g w) w.(sm).(auth_pae_state) None true.
Proof. run_machine. Qed.

Lemma becomes_REAUTH_TIMER w :
  becomes w (sm_REAUTH_TIMER_Step w) w.(sm).(auth_pae_state) None w.(sm).(authSuccess).
Proof. unfold sm_REAUTH_TIMER_Step. run_machine. Qed.

Lemma becomes_CTRL_DIR w :
  becomes w (sm_CTRL_DIR_Step w) w.(sm).(auth_pae_state) None w.(sm).(authSuccess).
Proof. unfold sm_CTRL_DIR_Step. run_machine. Qed.

(** *** The other machines do not end the held state *)

Lemma hold_BE_AUTH w :
  portControl w.(sm) = Auto -> initialize w.(sm) = false -> authAbort w.(sm) = false ->
  hold_view (sm_BE_AUTH_Step w).(sm) = hold_view w.(sm).
Proof.
  intros H1 H2 H3. unfold sm_BE_AUTH_Step. cbv zeta. rewrite H1, H2, H3. cbn [negb orb].
  rewrite bool_decide_eq_true_2 by done. cbn [negb orb].
  assert (E : forall v : world env, hold_view (sm (sm_BE_AUTH_IGNORE_Enter false v)) = hold_view (sm v)).
  { intros v. autounfold with eapol. unfold hold_view. cbn. repeat case_match; done. }
  destruct (be_auth_state (sm w)).
  2:{ set (v := if eapNoReq (eap_if (sm w)) then _ else w). transitivity (hold_view (sm v)).
      2:{ subst v. destruct (eapNoReq _); [apply E|done]. }
      clearbody v. unfold hold_view. autounfold with eapol. cbn. repeat (case_match; cbn; try done). }
  all: unfold hold_view; autounfold with eapol; cbn; repeat (case_match; cbn; try done); done.
Qed.

Lemma hold_HELD g w :
  hold_view (sm_AUTH_PAE_HELD_Enter g w).(sm) =
  (AUTH_PAE_HELD, s32 w.(sm).(quietPeriod), initialize w.(sm), portEnabled (eap_if w.(sm)),
   portMode w.(sm), portControl w.(sm), authAbort w.(sm)).
Proof. unfold hold_view. autounfold with eapol. cbn. repeat (case_match; cbn; try done). Qed.

Lemma hold_REAUTH_TIMER w : hold_view (sm_REAUTH_TIMER_Step w).(sm) = hold_view w.(sm).
Proof.
  unfold sm_REAUTH_TIMER_Step, hold_view. autounfold with eapol. cbv zeta. cbn.
  repeat (case_match; cbn); congruence.
Qed.

Lemma hold_CTRL_DIR w : hold_view (sm_CTRL_DIR_Step w).(sm) = hold_view w.(sm).
Proof.
  unfold sm_CTRL_DIR_Step, hold_view. autounfold with eapol. cbv zeta. cbn.
  repeat (case_match; cbn); congruence.
Qed.

(* From here on the entries are known by their moves only. *)
#[local] Opaque
  sm_AUTH_PAE_INITIALIZE_Enter sm_AUTH_PAE_DISCONNECTED_Enter sm_AUTH_PAE_RESTART_Enter
  sm_AUTH_PAE_CONNECTING_Enter sm_AUTH_PAE_HELD_Enter sm_AUTH_PAE_AUTHENTICATED_Enter
  sm_AUTH_PAE_AUTHENTICATING_Enter sm_AUTH_PAE_ABORTING_Enter sm_AUTH_PAE_FORCE_AUTH_Enter
  sm_AUTH_PAE_FORCE_UNAUTH_Enter sm_BE_AUTH_INITIALIZE_Enter sm_BE_AUTH_REQUEST_Enter
  sm_BE_AUTH_RESPONSE_Enter sm_BE_AUTH_SUCCESS_Enter sm_BE_AUTH_FAIL_Enter
  sm_BE_AUTH_TIMEOUT_Enter sm_BE_AUTH_IDLE_Enter sm_BE_AUTH_IGNORE_Enter
  sm_REAUTH_TIMER_INITIALIZE_Enter sm_REAUTH_TIMER_REAUTHENTICATE_Enter sm_CTRL_DIR_FORCE_BOTH_Enter
  sm_CTRL_DIR_IN_OR_BOTH_Enter.

(** *** Steps allowed to the port *)

(** The port status a state sets when it is entered. *)
Definition port_of (pae : auth_pae_st) : option bool :=
  match pae with
  | AUTH_PAE_DISCONNECTED | AUTH_PAE_HELD | AUTH_PAE_FORCE_UNAUTH => Some false
  | AUTH_PAE_AUTHENTICATED | AUTH_PAE_FORCE_AUTH => Some true
  | _ => None
  end.

Inductive lawful w w' : Prop :=
| lawful_stay succ :
    becomes w w' w.(sm).(auth_pae_state) None succ ->
    (succ = true -> authSuccess w.(sm) = true \/ eapSuccess (eap_if w.(sm)) = true) ->
    lawful w w'
| lawful_move pae succ :
    becomes w w' pae (port_of pae) succ ->
    (succ = true -> authSuccess w.(sm) = true) ->
    (pae = AUTH_PAE_AUTHENTICATED -> authSuccess w.(sm) = true) ->
    (pae = AUTH_PAE_FORCE_AUTH ->
       portControl w.(sm) = ForceAuthorized \/ auth_pae_state w.(sm) = AUTH_PAE_FORCE_AUTH) ->
    lawful w w'.

#[local] Ltac bools :=
  repeat match goal with
  | H : _ && _ = true |- _ => apply andb_prop in H as [? ?]
  | H : bool_decide _ = true |- _ => apply bool_decide_eq_true in H
  end.

Lemma AUTH_PAE_lawful w : lawful w (sm_AUTH_PAE_Step w).
Proof.
  unfold sm_AUTH_PAE_Step. cbv zeta.
  repeat case_match; bools;
    lazymatch goal with
    | |- lawful ?w ?w => eapply lawful_stay; [apply becomes_same|auto]
    | |- lawful _ (sm_AUTH_PAE_AUTHENTICATING_Enter _ _) =>
        eapply (lawful_move _ _ AUTH_PAE_AUTHENTICATING); [apply becomes_AUTHENTICATING|done..]
    | |- lawful _ (sm_AUTH_PAE_AUTHENTICATED_Enter _ _) =>
        eapply (lawful_move _ _ AUTH_PAE_AUTHENTICATED); [apply becomes_AUTHENTICATED|done..]
    | |- lawful _ (sm_AUTH_PAE_FORCE_AUTH_Enter _ _) =>
        eapply (lawful_move _ _ AUTH_PAE_FORCE_AUTH); [apply becomes_FORCE_AUTH|done|done|auto]
    | |- lawful _ (sm_AUTH_PAE_INITIALIZE_Enter _ _) =>
        eapply (lawful_move _ _ AUTH_PAE_INITIALIZE); [apply becomes_INITIALIZE|done..]
    | |- lawful _ (sm_AUTH_PAE_DISCONNECTED_Enter _ _) =>
        eapply (lawful_move _ _ AUTH_PAE_DISCONNECTED); [apply becomes_DISCONNECTED|done..]
    | |- lawful _ (sm_AUTH_PAE_RESTART_Enter _ _) =>
        eapply (lawful_move _ _ AUTH_PAE_RESTART); [apply becomes_RESTART|done..]
    | |- lawful _ (sm_AUTH_PAE_CONNECTING_Enter _ _) =>
        eapply (lawful_move _ _ AUTH_PAE_CONNECTING); [apply becomes_CONNECTING|done..]
    | |- lawful _ (sm_AUTH_PAE_HELD_Enter _ _) =>
        eapply (lawful_move _ _ AUTH_PAE_HELD); [apply becomes_HELD|done..]
    | |- lawful _ (sm_AUTH_PAE_ABORTING_Enter _ _) =>
        eapply (lawful_move _ _ AUTH_PAE_ABORTING); [apply becomes_ABORTING|done..]
    | |- lawful _ (sm_AUTH_PAE_FORCE_UNAUTH_Enter _ _) =>
        eapply (lawful_move _ _ AUTH_PAE_FORCE_UNAUTH); [apply becomes_FORCE_UNAUTH|done..]
    end.
Qed.

Lemma stay_lawful w w' :
  becomes w w' w.(sm).(auth_pae_state) None w.(sm).(authSuccess) -> lawful w w'.
Proof. intros H. eapply lawful_stay; [exact H|auto]. Qed.

(** The entries of the backend that leave [authSuccess] alone. *)
#[local] Ltac be_stay :=
  apply stay_lawful;
  lazymatch goal with
  | |- becomes _ (sm_BE_AUTH_INITIALIZE_Enter _ _) _ _ _ => apply becomes_BE_INITIALIZE
  | |- becomes _ (sm_BE_AUTH_RESPONSE_Enter _ _) _ _ _ => apply becomes_BE_RESPONSE
  | |- becomes _ (sm_BE_AUTH_REQUEST_Enter _ _) _ _ _ => apply becomes_BE_REQUEST
  | |- becomes _ (sm_BE_AUTH_TIMEOUT_Enter _ _) _ _ _ => apply becomes_BE_TIMEOUT
  | |- becomes _ (sm_BE_AUTH_IDLE_Enter _ _) _ _ _ => apply becomes_BE_IDLE
  | |- becomes _ (sm_BE_AUTH_FAIL_Enter _ _) _ _ _ => apply becomes_BE_FAIL
  | |- becomes _ (sm_BE_AUTH_IGNORE_Enter _ _) _ _ _ => apply becomes_BE_IGNORE
  end.

Lemma BE_AUTH_lawful w : rtc lawful w (sm_BE_AUTH_Step w).
Proof.
  assert (S : forall w g, eapSuccess (eap_if w.(sm)) = true -> lawful w (sm_BE_AUTH_SUCCESS_Enter g w)).
  { intros v g E. eapply lawful_stay; [apply becomes_BE_SUCCESS|auto]. }
  assert (I : forall w (c : Counters -> Z) (Hc : Setter c), lawful w (on_sm (inc c) w)).
  { intros v c Hc. apply stay_lawful. run_machine. }
  unfold sm_BE_AUTH_Step. cbv zeta.
  destruct (_ || _ || _); [apply rtc_once; be_stay|].
  destruct (be_auth_state (sm w)) eqn:Est;
    try (repeat case_match; bools;
      lazymatch goal with
      | |- rtc _ ?w ?w => apply rtc_refl
      | |- rtc _ _ (sm_BE_AUTH_SUCCESS_Enter _ _) => apply rtc_once, S; done
      | |- _ => apply rtc_once; be_stay
      end).
  set (v := if eapNoReq _ then _ else w).
  transitivity v.
  { subst v. destruct (eapNoReq _); [apply rtc_once; be_stay|apply rtc_refl]. }
  clearbody v.
  repeat case_match;
    lazymatch goal with
    | |- rtc _ ?w ?w => apply rtc_refl
    | |- rtc _ _ (_ _ (on_sm (inc ?c) _)) =>
        apply (rtc_l _ _ (on_sm (inc c) v)); [apply I|apply rtc_once; first [be_stay|apply S; done]]
    | |- _ => apply rtc_once; be_stay
    end.
Qed.

Lemma guarded_lawful f w : (forall v, rtc lawful v (f v)) -> rtc lawful w (guarded f w).
Proof. intros H. unfold guarded. destruct (_ || _); [apply H|apply rtc_refl]. Qed.

Lemma pass_lawful w : rtc lawful w (sm_pass w).
Proof.
  unfold sm_pass. cbv zeta.
  transitivity (sm_AUTH_PAE_Step w); [apply rtc_once, AUTH_PAE_lawful|].
  etrans; [apply (guarded_lawful sm_BE_AUTH_Step), BE_AUTH_lawful|].
  etrans; apply guarded_lawful; intros v; apply rtc_once, stay_lawful;
    [apply becomes_REAUTH_TIMER|apply becomes_CTRL_DIR].
Qed.

(** *** Invariants of a run *)

Section run_invariant.
Context (P : world env -> Prop).
Context (P_lawful : forall w w', P w -> lawful w w' -> P w').
Context (P_eap : forall w, P w -> P (snd (eap_step w))).

Lemma inv_rtc w w' : P w -> rtc lawful w w' -> P w'.
Proof. intros H R. induction R; eauto. Qed.

Lemma inv_stay w w' :
  P w -> becomes w w' w.(sm).(auth_pae_state) None w.(sm).(authSuccess) -> P w'.
Proof. intros H B. eapply P_lawful; [exact H|by apply stay_lawful]. Qed.

(** Changes of a machine the port does not depend on. *)
Definition neutral (f : eapol_sm -> eapol_sm) : Prop :=
  forall s, auth_pae_state (f s) = auth_pae_state s /\ authSuccess (f s) = authSuccess s /\
    eapSuccess (eap_if (f s)) = eapSuccess (eap_if s) /\ portControl (f s) = portControl s /\
    authPortStatus (f s) = authPortStatus s /\ eapRespData (eap_if (f s)) = eapRespData (eap_if s).

Lemma inv_on_sm f w : neutral f -> P w -> P (on_sm f w).
Proof.
  intros N H. apply (inv_stay w); [done|]. destruct (N w.(sm)) as (? & ? & ? & ? & ? & ?).
  repeat split; try done. exists []. by rewrite app_nil_r.
Qed.

Lemma inv_emit e w : inert e = true -> P w -> P (emit e w).
Proof.
  intros E H. apply (inv_stay w); [done|]. repeat split. exists [e]. split; [by constructor|done].
Qed.

Lemma inv_register w : P w -> P (eapol_auth_step w).
Proof. by apply inv_emit. Qed.

Lemma inv_notify w : P w -> P (notify_change w).
Proof. intros H. unfold notify_change. destruct (alive w); [by apply inv_emit|done]. Qed.

Lemma inv_forward w : P w -> P (snd (forward_aaa w)).
Proof.
  intros H. unfold forward_aaa. destruct (aaaEapResp _); [|done].
  destruct (aaaEapRespData _); simpl; [apply inv_emit; [done|]|]; by apply inv_on_sm.
Qed.

Lemma inv_loop n w : P w -> P (step_loop n w).
Proof.
  revert w. induction n as [|n IH]; intros w H; cbn [step_loop]; [by apply inv_register|].
  assert (Hp : P (sm_pass w)) by (eapply inv_rtc; [exact H|apply pass_lawful]).
  assert (R : forall v, P v ->
    P (match n with O => eapol_auth_step v | S _ => step_loop n v end)).
  { intros v Hv. destruct n; [by apply inv_register|by apply IH]. }
  destruct (states_changed _ _); [by apply R|].
  destruct (alive _); [|by apply inv_notify].
  pose proof (P_eap _ Hp) as He. destruct (eap_step _) as [again v]. cbn in He.
  destruct again; [by apply R|].
  pose proof (inv_forward _ He) as Hf. destruct (forward_aaa v) as [r u]. cbn in Hf.
  destruct r; [done|by apply inv_notify].
Qed.

Lemma inv_tick w : P w -> P (eapol_port_timers_tick w).
Proof.
  intros H. unfold eapol_port_timers_tick. cbv zeta.
  apply inv_emit; [done|]. apply inv_loop. unfold on_if.
  repeat (apply inv_on_sm; [done|]). exact H.
Qed.

Lemma inv_initialize w : P w -> P (eapol_auth_initialize w).
Proof.
  intros H. unfold eapol_auth_initialize. cbv zeta.
  apply inv_emit; [done|]. apply inv_on_sm; [done|]. apply inv_loop.
  apply inv_on_sm; [done|]. apply inv_loop. by apply inv_on_sm.
Qed.

Lemma inv_reachable admin w :
  (forall e flags period wpa i, eapSuccess i = false ->
     P (mkWorld (fresh_sm flags period wpa i) e [])) ->
  (forall w w', P w -> external admin w w' -> P w') ->
  (forall w, P w -> P (new_station_pmksa w)) ->
  reachable admin w -> P w.
Proof.
  intros H0 He Hc R. induction R as [e flags period wpa i sid w Hi Ha|w _ IH|w _ IH|w w' _ IH E|w _ IH].
  - unfold eapol_auth_alloc in Ha. destruct sid; [|done]. injection Ha as <-.
    apply inv_initialize. by apply H0.
  - by apply inv_loop.
  - by apply inv_tick.
  - eauto.
  - eauto.
Qed.

End run_invariant.

(** The calls of hostapd are among the external changes. *)
Lemma external_port_enabled admin b w : external admin w (ieee802_1x_notify_port_enabled b w).
Proof. repeat split. exists [EvRegisterStep]. split; [by constructor|done]. Qed.

Lemma external_port_valid admin b w : external admin w (ieee802_1x_notify_port_valid b w).
Proof. repeat split. exists [EvRegisterStep]. split; [by constructor|done]. Qed.

Lemma external_pre_auth admin b w : external admin w (ieee802_1x_notify_pre_auth b w).
Proof. repeat split. exists []. by rewrite app_nil_r. Qed.

Lemma external_reauthenticate admin w : external admin w (eapol_auth_reauthenticate w).
Proof. repeat split. exists [EvRegisterStep]. split; [by constructor|done]. Qed.

(** *** The log *)

Lemma told_app l k : told (l ++ k) =
  foldl (fun st e => match e with EvSetPort true => Authorized | EvSetPort false => Unauthorized
                     | _ => st end) (told l) k.
Proof. unfold told. by rewrite foldl_app. Qed.

Lemma told_inert l k : Forall (fun e => inert e = true) k -> told (l ++ k) = told l.
Proof.
  intros H. rewrite told_app. generalize (told l). induction H as [|e k He _ IH]; intros st; [done|].
  simpl. rewrite IH. by destruct e.
Qed.

Lemma told_port l port k :
  Forall (fun e => inert e = true) k ->
  told (l ++ port_events port ++ k) = port_status port (told l).
Proof.
  intros H. destruct port as [b|]; simpl; [|by apply told_inert].
  change (EvSetPort b :: k) with ([EvSetPort b] ++ k). rewrite app_assoc, told_inert by done.
  rewrite told_app. by destruct b.
Qed.

(** *** The port is as the driver was told *)

Definition consistent w : Prop :=
  told w.(log) = authPortStatus w.(sm) /\
  authPortStatus w.(sm) = port_status (port_of w.(sm).(auth_pae_state)) (authPortStatus w.(sm)).

Lemma consistent_lawful w w' : consistent w -> lawful w w' -> consistent w'.
Proof.
  intros [Ht Hs] [succ B _|pae succ B _ _ _];
    destruct B as (Hp & _ & _ & _ & Hst & _ & l & Hl & Hlog & _); unfold consistent;
    rewrite Hlog, told_port, Hp, Hst, Ht by done; simpl; [done|].
  by destruct pae.
Qed.

Lemma consistent_eap w : consistent w -> consistent (snd (eap_step w)).
Proof.
  unfold consistent, eap_step. destruct (eap_server_sm_step _ _) as [[b i] e]. cbn.
  rewrite told_app. done.
Qed.

(** *** No authorization without EAP success *)

(** What justifies an authorized port: the EAP server reported success, or a
    cached PMKSA stood for it. *)
Definition justifies (e : event) : bool :=
  match e with EvEapStep i => eapSuccess i | EvEapNotifyCached => true | _ => false end.

Definition justified (l : list event) : Prop := exists e, List.In e l /\ justifies e = true.

Lemma justified_app l k : justified l -> justified (l ++ k).
Proof. intros (e & He & Hj). exists e. rewrite in_app_iff. auto. Qed.

Definition authorization_sound w : Prop :=
  portControl w.(sm) = Auto /\ w.(sm).(auth_pae_state) <> AUTH_PAE_FORCE_AUTH /\
  (authSuccess w.(sm) = true \/ eapSuccess (eap_if w.(sm)) = true \/
   List.In (EvSetPort true) w.(log) -> justified w.(log)).

Lemma inert_no_port l b : Forall (fun e => inert e = true) l -> ~ List.In (EvSetPort b) l.
Proof. intros H Hin. rewrite List.Forall_forall in H. by apply H in Hin. Qed.

Lemma sound_lawful w w' : authorization_sound w -> lawful w w' -> authorization_sound w'.
Proof.
  intros (Hc & Hf & Hj) HL.
  assert (exists pae port succ, becomes w w' pae port succ /\
    (succ = true -> authSuccess w.(sm) = true \/ eapSuccess (eap_if w.(sm)) = true) /\
    (port = Some true -> authSuccess w.(sm) = true) /\ pae <> AUTH_PAE_FORCE_AUTH)
    as (pae & port & succ & B & H1 & H2 & H3).
  { destruct HL as [succ B H1|pae succ B H1 H2 H3].
    - exists w.(sm).(auth_pae_state), None, succ. split; [exact B|]. done.
    - assert (pae <> AUTH_PAE_FORCE_AUTH) by (intros ->; destruct H3; congruence).
      exists pae, (port_of pae), succ. split; [exact B|]. split; [auto|]. split; [|done].
      intros Hp. destruct pae; try done. auto. }
  destruct B as (Hp & Hs & He & Hpc & _ & _ & l & Hl & Hlog & _).
  unfold authorization_sound. rewrite Hp, Hs, He, Hpc, Hlog. repeat split; [done|done|].
  rewrite !in_app_iff. intros [E|[E|[E|[E|E]]]]; apply justified_app, Hj; auto.
  - destruct (H1 E); auto.
  - destruct port as [[]|]; simpl in E; [left; auto|intuition congruence|done].
  - by apply inert_no_port in E.
Qed.

Lemma sound_eap w : authorization_sound w -> authorization_sound (snd (eap_step w)).
Proof.
  unfold authorization_sound, eap_step. destruct (eap_server_sm_step _ _) as [[b i] e]. cbn -[List.In].
  intros (Hc & Hf & Hj). split; [done|]. split; [done|]. rewrite in_app_iff. cbn [List.In].
  intros [E|[E|[E|[E|E]]]]; try done; try (apply justified_app; by auto).
  exists (EvEapStep i). rewrite in_app_iff. cbn [List.In]. auto.
Qed.

Lemma reachable_sound w : reachable false w -> authorization_sound w.
Proof.
  apply inv_reachable.
  - apply sound_lawful.
  - apply sound_eap.
  - intros e flags period wpa i Hi. split; [done|]. split; [discriminate|]. cbn.
    rewrite Hi. intuition discriminate.
  - intros v v' (Hc & Hf & Hj) (Hp & Hst & Hs & He & Hpc & l & Hl & Hlog).
    unfold authorization_sound. rewrite Hp, Hs, He, Hlog, Hpc, in_app_iff by done.
    split; [done|]. split; [done|]. intros H. apply justified_app, Hj.
    destruct H as [H|[H|[H|H]]]; auto. by apply inert_no_port in H.
  - intros v (Hc & Hf & Hj). unfold authorization_sound. cbn -[List.In].
    split; [done|]. split; [discriminate|]. intros _. exists EvEapNotifyCached.
    rewrite in_app_iff. cbn [List.In]. auto.
Qed.

(** *** The held state *)

Lemma held_AUTH_PAE q w : held q w -> q <> 0 -> sm_AUTH_PAE_Step w = w.
Proof.
  unfold held, hold_view. intros [= Ha Hq Hi He Hm Hc Hb] Hn.
  unfold sm_AUTH_PAE_Step. cbv zeta. rewrite Ha, Hq, Hi, He, Hm, Hc. cbn.
  by rewrite (proj2 (Z.eqb_neq q 0)).
Qed.

Lemma held_same q w w' : held q w -> hold_view w'.(sm) = hold_view w.(sm) -> held q w'.
Proof. unfold held. congruence. Qed.

Lemma held_guarded q f w :
  held q w -> (forall v, held q v -> hold_view (f v).(sm) = hold_view v.(sm)) -> held q (guarded f w).
Proof.
  intros H Hf. unfold guarded. destruct (_ || _); [|done]. eapply held_same; [exact H|auto].
Qed.

Lemma held_pass q w : held q w -> q <> 0 -> held q (sm_pass w).
Proof.
  intros H Hq. unfold sm_pass. cbv zeta. rewrite (held_AUTH_PAE q) by done.
  repeat apply held_guarded; [exact H|intros v Hv..].
  - unfold held, hold_view in Hv. simplify_eq. by apply hold_BE_AUTH.
  - apply hold_REAUTH_TIMER.
  - apply hold_CTRL_DIR.
Qed.

Lemma held_eap `{!EapServerLaws env} q w : held q w -> held q (snd (eap_step w)).
Proof.
  unfold held, hold_view, eap_step. pose proof (eap_step_port w.(sm).(eap_if) w.(surr)) as E.
  destruct (eap_server_sm_step _ _) as [[b i] e]. cbn in E |- *. congruence.
Qed.

Lemma held_forward q w : held q w -> held q (snd (forward_aaa w)).
Proof.
  intros H. unfold forward_aaa. destruct (aaaEapResp _); [|done].
  destruct (aaaEapRespData _); exact H.
Qed.

Lemma held_notify q w : held q w -> held q (notify_change w).
Proof. intros H. unfold notify_change. by destruct (alive w). Qed.

Lemma held_loop `{!EapServerLaws env} q n w : held q w -> q <> 0 -> held q (step_loop n w).
Proof.
  intros H Hq. revert w H. induction n as [|n IH]; intros w H; cbn [step_loop]; [exact H|].
  assert (R : forall v, held q v ->
    held q (match n with O => eapol_auth_step v | S _ => step_loop n v end)).
  { intros v Hv. destruct n; [exact Hv|by apply IH]. }
  pose proof (held_pass q w H Hq) as Hp.
  destruct (states_changed _ _); [by apply R|].
  destruct (alive _); [|by apply held_notify].
  pose proof (held_eap _ _ Hp) as He. destruct (eap_step _) as [again v]. cbn in He.
  destruct again; [by apply R|].
  pose proof (held_forward _ _ He) as Hf. destruct (forward_aaa v) as [r u]. cbn in Hf.
  destruct r; [done|by apply held_notify].
Qed.

Lemma held_emit q e w : held q w -> held q (emit e w).
Proof. done. Qed.

Lemma held_tick `{!EapServerLaws env} q w :
  held q w -> tick q <> 0 -> held (tick q) (eapol_port_timers_tick w).
Proof.
  intros H Hq. unfold eapol_port_timers_tick, eapol_sm_step_run. cbv zeta.
  apply held_emit, held_loop; [|done].
  unfold held, hold_view in *. cbn. congruence.
Qed.

Lemma held_during `{!EapServerLaws env} q w k v :
  held q w -> during w k v -> q < 0 \/ Z.of_nat k < q ->
  held (if q <? 0 then q else q - Z.of_nat k) v.
Proof.
  intros H D. induction D as [|k v D IH|k v D IH|k v v' D IH E]; intros Hk.
  - destruct (Z.ltb_spec q 0); [done|]. by rewrite Z.sub_0_r.
  - replace (if q <? 0 then q else q - Z.of_nat (S k))
      with (tick (if q <? 0 then q else q - Z.of_nat k))
      by (unfold tick; repeat case_match; lia).
    apply held_tick; [apply IH; lia|]. unfold tick; repeat case_match; lia.
  - unfold eapol_sm_step_run. apply held_loop; [by apply IH|]. destruct (Z.ltb_spec q 0); lia.
  - eapply held_same; [by apply IH|done].
Qed.

(** ** Theorems *)

(** C9: On every execution, port control forced by the administrator or not,
    the driver's port is as [authPortStatus] says, and the port is down in
    DISCONNECTED, HELD and FORCE_UNAUTH and up in AUTHENTICATED and FORCE_AUTH. *)
Theorem port_status_consistent admin w :
  reachable admin w ->
  told w.(log) = authPortStatus w.(sm) /\
  (List.In w.(sm).(auth_pae_state) [AUTH_PAE_DISCONNECTED; AUTH_PAE_HELD; AUTH_PAE_FORCE_UNAUTH] ->
     authPortStatus w.(sm) = Unauthorized) /\
  (List.In w.(sm).(auth_pae_state) [AUTH_PAE_AUTHENTICATED; AUTH_PAE_FORCE_AUTH] ->
     authPortStatus w.(sm) = Authorized).
Proof.
  intros R. assert (C : consistent w).
  { revert R. apply inv_reachable.
    - apply consistent_lawful.
    - apply consistent_eap.
    - done.
    - intros v v' [Ht Hs] (Hp & Hst & _ & _ & _ & l & Hl & Hlog). unfold consistent.
      by rewrite Hlog, told_inert, Hp, Hst.
    - intros v [Ht Hs]. unfold consistent. cbn. by rewrite told_app. }
  destruct C as [Ht Hs]. split; [done|].
  split; intros Hin; rewrite Hs; simpl in Hin;
    repeat (destruct Hin as [<-|Hin]; [done|]); done.
Qed.

(** C3: While the administrator leaves port control on Auto, the port is only
    ever opened after the EAP server reported success, or after a cached PMKSA
    was accepted in its place. *)
Theorem authorized_only_after_success w :
  reachable false w -> List.In (EvSetPort true) w.(log) -> justified w.(log).
Proof.
  intros R Hin. destruct (reachable_sound w R) as (_ & _ & H). auto.
Qed.

(** C38: A port held with [q] seconds of quiet time stays held, whatever the
    supplicant sends and however often the machines run, until [q] seconds have
    passed; with a negative [q] it stays held forever. *)
Theorem held_for_quiet_period `{!EapServerLaws env} q w k v :
  held q w -> during w k v -> q < 0 \/ Z.of_nat k < q ->
  v.(sm).(auth_pae_state) = AUTH_PAE_HELD /\
  v.(sm).(quietWhile) = (if q <? 0 then q else q - Z.of_nat k).
Proof.
  intros H D Hk. pose proof (held_during q w k v H D Hk) as Hh.
  unfold held, hold_view in Hh. split; congruence.
Qed.

(** [eapol_auth_set_conf] accepts a quiet period without a range check: a
    value [atoi] makes negative is stored, the next failed authentication sets
    the timer to it, and the port stays held however long one waits. *)
Theorem negative_quiet_period_holds_forever `{!EapServerLaws env} (atoi : string -> Z) value w k v :
  - 2 ^ 31 <= atoi value < 0 ->
  initialize w.(sm) = false -> portEnabled (eap_if w.(sm)) = true -> portMode w.(sm) = Auto ->
  portControl w.(sm) = Auto -> authAbort w.(sm) = false ->
  let '(r, w1) := eapol_auth_set_conf atoi "quietPeriod" value w in
  r = 0 /\
  (during (sm_AUTH_PAE_HELD_Enter false w1) k v -> v.(sm).(auth_pae_state) = AUTH_PAE_HELD).
Proof.
  intros Hv H1 H2 H3 H4 H5. cbn. split; [done|]. intros D.
  match type of D with during (sm_AUTH_PAE_HELD_Enter _ ?u) _ _ =>
    assert (H : held (atoi value) (sm_AUTH_PAE_HELD_Enter false u)) end.
  { unfold held. rewrite hold_HELD. cbn. rewrite s32_u32, s32_small by lia. congruence. }
  pose proof (held_during _ _ k v H D ltac:(lia)) as Hh. unfold held, hold_view in Hh. congruence.
Qed.

End proofs.
(** ** Witnesses *)

(** Surroundings with a live station and an EAP server that reports success as
    soon as it is restarted. *)
#[export] Instance demo_environment : Environment unit := {
  env_event _ e := e;
  env_finished _ _ _ _ _ := false;
  sta_entry_alive _ := true;
  eap_server_sm_step i _ :=
    if i.(eapRestart) then (true, i <| eapRestart := false |> <| eapSuccess := true |>, tt)
    else (false, i, tt)
}.

#[export] Instance demo_laws : EapServerLaws unit.
Proof. intros i e. cbn. by destruct (eapRestart i). Qed.

Definition demo_if : eap_eapol_interface :=
  mkIf false None false 0 false false false false false false None false false None.

Definition demo_alloc : world unit :=
  eapol_auth_initialize (mkWorld (fresh_sm 0 3600 false demo_if) tt []).

(** The port enabled, and the machines run until authentication. *)
Definition demo_run : world unit :=
  eapol_sm_step_run (ieee802_1x_notify_port_enabled true demo_alloc).

Lemma demo_reachable admin : reachable admin demo_run.
Proof.
  apply reach_run. eapply reach_external.
  - by apply (reach_alloc admin tt 0 3600 false demo_if true).
  - apply external_port_enabled.
Qed.

Lemma port_status_consistent_witness :
  demo_run.(sm).(auth_pae_state) = AUTH_PAE_AUTHENTICATED /\ told demo_run.(log) = Authorized.
Proof.
  split; [vm_compute; reflexivity|].
  rewrite (proj1 (port_status_consistent true demo_run (demo_reachable true))).
  vm_compute. reflexivity.
Defined.

Lemma authorized_only_after_success_witness : justified demo_run.(log).
Proof.
  apply (authorized_only_after_success demo_run (demo_reachable false)).
  vm_compute. tauto.
Defined.

Definition demo_held (q : Z) : world unit :=
  mkWorld ((fresh_sm 0 3600 false (demo_if <| portEnabled := true |>))
    <| auth_pae_state := AUTH_PAE_HELD |> <| quietWhile := q |>) tt [].

Lemma held_for_quiet_period_witness :
  quietWhile (eapol_port_timers_tick (demo_held 60)).(sm) = 59.
Proof.
  refine (proj2 (held_for_quiet_period 60 (demo_held 60) 1 _ _ _ _)).
  - reflexivity.
  - apply during_tick, during_start.
  - lia.
Defined.

Definition demo_authenticating : world unit :=
  mkWorld ((fresh_sm 0 3600 false (demo_if <| portEnabled := true |>))
    <| auth_pae_state := AUTH_PAE_AUTHENTICATING |> <| authFail := true |>) tt [].

Lemma negative_quiet_period_holds_forever_witness :
  let w1 := snd (eapol_auth_set_conf (fun _ => -1) "quietPeriod" "-1" demo_authenticating) in
  auth_pae_state (eapol_port_timers_tick (sm_AUTH_PAE_HELD_Enter false w1)).(sm) = AUTH_PAE_HELD.
Proof.
  refine (proj2 (negative_quiet_period_holds_forever (fun _ => -1) "-1" demo_authenticating 1 _
    _ _ _ _ _ _) _); try reflexivity; [lia|].
  apply during_tick, during_start.
Defined.

End EapolSm.
