(* ===== verification/EapolRx.v ===== *)
(** * Reception of EAPOL frames (ap/ieee802_1x.c)

    [ieee802_1x_receive] and what it calls, from the bytes of the frame to the
    inputs of the state machines of [EapolSm].  The station entry is a record
    of what the code reads and writes of it; calls into other components are
    actions. *)

From S2P Require Import Prelude WpaDefs EapolSm.

Module EapolRx.
Import WpaDefs EapolSm.

#[local] Open Scope list_scope.

(** ** Frames (common/eapol_common.h, eap_common/eap_defs.h) *)

Definition IEEE802_1X_TYPE_EAPOL_START : Z := 1.
Definition IEEE802_1X_TYPE_EAPOL_LOGOFF : Z := 2.
Definition IEEE802_1X_TYPE_EAPOL_KEY : Z := 3.
Definition IEEE802_1X_TYPE_EAPOL_ENCAPSULATED_ASF_ALERT : Z := 4.

Definition EAPOL_KEY_TYPE_RSN : Z := 2.
Definition EAPOL_KEY_TYPE_WPA : Z := 254.

Definition EAP_CODE_INITIATE : Z := 5.

(** [sizeof(struct ieee802_1x_hdr)], [sizeof(struct ieee802_1x_eapol_key)]. *)
Definition sizeof_hdr : Z := 4.
Definition sizeof_eapol_key : Z := 44.

Inductive frame_encryption := FRAME_ENCRYPTION_UNKNOWN | FRAME_NOT_ENCRYPTED | FRAME_ENCRYPTED.

(** [be_to_host16] of the two bytes at [off]. *)
Definition rd_be16 (buf : list Z) (off : Z) : cres Z :=
  (a <-- rd buf off ;; b <-- rd buf (off + 1) ;; Ok (256 * a + b))%c.

(** ** The station (ap/sta_info.h, ap/wpa_auth.c, ap/ap_config.h) *)

Definition WLAN_STA_AUTH : Z := BIT 0.
Definition WLAN_STA_ASSOC : Z := BIT 1.
Definition WLAN_STA_AUTHORIZED : Z := BIT 5.
Definition WLAN_STA_PREAUTH : Z := BIT 8.
Definition WLAN_STA_MFP : Z := BIT 10.
Definition WLAN_STA_WPS : Z := BIT 12.
Definition WLAN_STA_MAYBE_WPS : Z := BIT 13.

(** The members of [struct wpa_state_machine] used here; the cached PMKSA by
    its identity. *)
Record wpa_state := mkWpa { wpa_key_mgmt : Z; pairwise_set : bool; pmksa : option Z }.
#[export] Instance wpa_state_eta : Settable wpa_state := fun s =>
  mkWpa s.(wpa_key_mgmt) s.(pairwise_set) s.(pmksa).

(** [-1] without a state machine. *)
Definition wpa_auth_sta_key_mgmt (s : option wpa_state) : Z :=
  match s with None => -1 | Some s => s.(wpa_key_mgmt) end.
Definition wpa_auth_pairwise_set (s : option wpa_state) : bool :=
  match s with None => false | Some s => s.(pairwise_set) end.
Definition wpa_auth_sta_get_pmksa (s : option wpa_state) : option Z :=
  match s with None => None | Some s => s.(pmksa) end.
Definition wpa_auth_sta_clear_pmksa (entry : Z) (s : option wpa_state) : option wpa_state :=
  match s with
  | None => None
  | Some s => Some (if bool_decide (s.(pmksa) = Some entry) then s <| pmksa := None |> else s)
  end.

(** The reception counters of [struct eapol_state_machine]. *)
Record rx_stats := mkRx {
  dot1xAuthEapolFramesRx : Z;
  dot1xAuthEapolStartFramesRx : Z;
  dot1xAuthEapolLogoffFramesRx : Z;
  dot1xAuthEapolRespFramesRx : Z;
  dot1xAuthInvalidEapolFramesRx : Z;
  dot1xAuthEapLengthErrorFramesRx : Z;
  dot1xAuthLastEapolFrameVersion : Z;
  eap_type_supp : Z
}.
#[export] Instance rx_eta : Settable rx_stats := fun s =>
  mkRx s.(dot1xAuthEapolFramesRx) s.(dot1xAuthEapolStartFramesRx) s.(dot1xAuthEapolLogoffFramesRx)
    s.(dot1xAuthEapolRespFramesRx) s.(dot1xAuthInvalidEapolFramesRx)
    s.(dot1xAuthEapLengthErrorFramesRx) s.(dot1xAuthLastEapolFrameVersion) s.(eap_type_supp).

Definition zero_rx : rx_stats := mkRx 0 0 0 0 0 0 0 0.

(** The settings of the BSS that matter here; [wired] is the driver's
    [WPA_DRIVER_FLAGS_WIRED]. *)
Record bss_conf := mkConf {
  ieee802_1x : bool; wpa : bool; osen : bool; wps_state : bool; wired : bool; eap_reauth_period : Z
}.

(** What other components are told; [ActAccountingStop] with the terminate
    cause user request. *)
Inductive action :=
| ActWpaReceive (frame : list Z)
| ActReauthEapol
| ActClearIdentity
| ActAccountingStop.

(** [struct sta_info]: the machines with their surroundings, or the
    surroundings a new machine would have; a frame saved for later without the
    time of its reception; [eap_init] is the interface
    [eap_server_sm_init] would set up. *)
Record sta_info (env : Type) := mkSta {
  sta_flags : Z;
  eapol : option (world env);
  rx : rx_stats;
  wpa_sm : option wpa_state;
  pending_eapol_rx : option (list Z * frame_encryption);
  sta_env : env;
  eap_init : option eap_eapol_interface;
  actions : list action
}.
Arguments mkSta {env} _ _ _ _ _ _ _ _.
Arguments sta_flags {env} _.
Arguments eapol {env} _.
Arguments rx {env} _.
Arguments wpa_sm {env} _.
Arguments pending_eapol_rx {env} _.
Arguments sta_env {env} _.
Arguments eap_init {env} _.
Arguments actions {env} _.
#[export] Instance sta_eta {env} : Settable (sta_info env) := fun s =>
  mkSta s.(sta_flags) s.(eapol) s.(rx) s.(wpa_sm) s.(pending_eapol_rx) s.(sta_env) s.(eap_init)
    s.(actions).

Section receive.
Context {env : Type} `{!Environment env}.
Implicit Types s : sta_info env.

(** Statements on [sta->eapol_sm], which the code has checked. *)
Definition on_eapol (f : world env -> world env) s : sta_info env :=
  s <| eapol := f <$> s.(eapol) |>.
Definition count (c : rx_stats -> Z) `{!Setter c} s : sta_info env :=
  s <| rx := s.(rx) <| c := u32 (c s.(rx) + 1) |> |>.
Definition act (a : action) s : sta_info env := s <| actions := s.(actions) ++ [a] |>.

(** [sm->eap_if->eapRespData = wpabuf_alloc_copy(eap, len); sm->eapolEap = true;] *)
Definition set_response (malloc_ok : bool) (data : list Z) (w : world env) : world env :=
  on_sm (fun m => m <| eapolEap := true |>)
    (on_if (fun i => i <| eapRespData := if malloc_ok then Some data else None |>) w).

(** The EAP packet is the [len] bytes at [off] of the frame. *)
Definition handle_eap_response (malloc_ok : bool) (buf : list Z) (off len : Z) s : cres (sta_info env) :=
  match s.(eapol) with
  | None => Ok s
  | Some _ =>
      if len <? sizeof_eap_hdr + 1 then Ok s
      else
        (type <-- rd buf (off + sizeof_eap_hdr) ;;
         data <-- rdn buf off len ;;
         let s := s <| rx := s.(rx) <| eap_type_supp := type |> |> in
         let s := count dot1xAuthEapolRespFramesRx s in
         Ok (on_eapol (set_response malloc_ok data) s))%c
  end.

Definition handle_eap_initiate (malloc_ok : bool) (buf : list Z) (off len : Z) s : cres (sta_info env) :=
  match s.(eapol) with
  | None => Ok s
  | Some _ =>
      if len <? sizeof_eap_hdr + 1 then Ok s
      else
        (type <-- rd buf (off + sizeof_eap_hdr) ;;
         data <-- rdn buf off len ;;
         Ok (on_eapol (set_response malloc_ok data) s))%c
  end.

Definition handle_eap (malloc_ok : bool) (buf : list Z) (off len : Z) s : cres (sta_info env) :=
  if len <? sizeof_eap_hdr then Ok s
  else
    (eap_len <-- rd_be16 buf (off + 2) ;;
     code <-- rd buf off ;;
     if eap_len <? sizeof_eap_hdr then Ok s
     else if len <? eap_len then Ok s
     else if code =? EAP_CODE_RESPONSE then handle_eap_response malloc_ok buf off eap_len s
     else if code =? EAP_CODE_INITIATE then handle_eap_initiate malloc_ok buf off eap_len s
     else Ok s)%c.

Definition ieee802_1x_alloc_eapol_sm (conf : bss_conf) (session_id_ok : bool) s : option (world env) :=
  let flags := if flag_set s.(sta_flags) WLAN_STA_PREAUTH then EAPOL_SM_PREAUTH else 0 in
  let flags :=
    match s.(wpa_sm) with
    | None => flags
    | Some _ =>
        let flags := Z.lor flags EAPOL_SM_USES_WPA in
        match wpa_auth_sta_get_pmksa s.(wpa_sm) with
        | Some _ => Z.lor flags EAPOL_SM_FROM_PMKSA_CACHE
        | None => flags
        end
    end in
  eapol_auth_alloc s.(sta_env) flags conf.(eap_reauth_period) conf.(wpa) s.(eap_init) session_id_ok.

(** [malloc_ok] stands for both allocations: without memory nothing is saved,
    and what was saved is gone. *)
Definition ieee802_1x_save_eapol (malloc_ok : bool) (buf : list Z) (encrypted : frame_encryption) s
    : sta_info env :=
  s <| pending_eapol_rx := if malloc_ok then Some (buf, encrypted) else None |>.

Definition ieee802_1x_check_encryption s (encrypted : frame_encryption) (type : Z) : bool :=
  match encrypted with
  | FRAME_ENCRYPTION_UNKNOWN | FRAME_ENCRYPTED => true
  | FRAME_NOT_ENCRYPTED =>
      if negb (type =? IEEE802_1X_TYPE_EAP_PACKET) && negb (type =? IEEE802_1X_TYPE_EAPOL_START) &&
         negb (type =? IEEE802_1X_TYPE_EAPOL_LOGOFF)
      then true
      else if negb (flag_set s.(sta_flags) WLAN_STA_MFP) then true
      else negb (wpa_auth_pairwise_set s.(wpa_sm))
  end.

(** The [switch] on the packet type. *)
Definition receive_type (malloc_ok : bool) (buf : list Z) (type datalen : Z) s : cres (sta_info env) :=
  if type =? IEEE802_1X_TYPE_EAP_PACKET then handle_eap malloc_ok buf sizeof_hdr datalen s
  else if type =? IEEE802_1X_TYPE_EAPOL_START then
    let s := on_eapol (on_sm (fun m => m <| sm_flags :=
               Z.land m.(sm_flags) (Z.lnot EAPOL_SM_WAIT_START) |>)) s in
    let s := match wpa_auth_sta_get_pmksa s.(wpa_sm) with
             | Some p => s <| wpa_sm := wpa_auth_sta_clear_pmksa p s.(wpa_sm) |>
             | None => s
             end in
    let s := on_eapol (on_sm (fun m => m <| eapolStart := true |>)) s in
    let s := count dot1xAuthEapolStartFramesRx s in
    Ok (act ActReauthEapol (act ActClearIdentity s))
  else if type =? IEEE802_1X_TYPE_EAPOL_LOGOFF then
    let s := act ActAccountingStop s in
    let s := on_eapol (on_sm (fun m => m <| eapolLogoff := true |>)) s in
    let s := count dot1xAuthEapolLogoffFramesRx s in
    Ok (act ActClearIdentity s)
  else if type =? IEEE802_1X_TYPE_EAPOL_KEY then Ok s
  else if type =? IEEE802_1X_TYPE_EAPOL_ENCAPSULATED_ASF_ALERT then Ok s
  else Ok (count dot1xAuthInvalidEapolFramesRx s).

(** The frame once its header is known to be whole. *)
Definition receive_frame (conf : bss_conf) (malloc_ok session_id_ok : bool) (buf : list Z)
    (encrypted : frame_encryption) (type datalen : Z) s : cres (sta_info env) :=
  if negb conf.(ieee802_1x) && negb conf.(osen) &&
     negb (flag_set s.(sta_flags) (Z.lor WLAN_STA_WPS WLAN_STA_MAYBE_WPS))
  then Ok s
  else
    let key_mgmt := wpa_auth_sta_key_mgmt s.(wpa_sm) in
    if negb (key_mgmt =? -1) &&
       (wpa_key_mgmt_wpa_psk key_mgmt || (key_mgmt =? WPA_KEY_MGMT_OWE) || (key_mgmt =? WPA_KEY_MGMT_DPP))
    then Ok s
    else if negb (ieee802_1x_check_encryption s encrypted type) then Ok s
    else
      let allocated :=
        match s.(eapol) with
        | Some _ => Some s
        | None =>
            match ieee802_1x_alloc_eapol_sm conf session_id_ok s with
            | None => None
            | Some w => Some (s <| eapol := Some (on_if (fun i => i <| portEnabled := true |>) w) |>
                                <| rx := zero_rx |>)
            end
        end in
      match allocated with
      | None => Ok s
      | Some s =>
          (s <-- receive_type malloc_ok buf type datalen s ;;
           Ok (on_eapol eapol_auth_step s))%c
      end.

(** [ieee802_1x_receive]; [sta] is what [ap_get_sta] finds. *)
Definition ieee802_1x_receive (conf : bss_conf) (malloc_ok session_id_ok : bool) (buf : list Z)
    (encrypted : frame_encryption) (sta : option (sta_info env)) : cres (option (sta_info env)) :=
  if negb conf.(ieee802_1x) && negb conf.(wpa) && negb conf.(osen) && negb conf.(wps_state)
  then Ok sta
  else
    match sta with
    | None => Ok None
    | Some s =>
        if negb (flag_set s.(sta_flags) (Z.lor WLAN_STA_ASSOC WLAN_STA_PREAUTH)) && negb conf.(wired)
        then
          Ok (Some (if flag_set s.(sta_flags) WLAN_STA_AUTH
                    then ieee802_1x_save_eapol malloc_ok buf encrypted s else s))
        else if zlen buf <? sizeof_hdr then Ok sta
        else
          (datalen <-- rd_be16 buf 2 ;;
           version <-- rd buf 0 ;;
           type <-- rd buf 1 ;;
           let has_sm := bool_decide (is_Some s.(eapol)) in
           if zlen buf - sizeof_hdr <? datalen then
             Ok (Some (if has_sm then count dot1xAuthEapLengthErrorFramesRx s else s))
           else
             let s :=
               if has_sm then
                 count dot1xAuthEapolFramesRx
                   (s <| rx := s.(rx) <| dot1xAuthLastEapolFrameVersion := version |> |>)
               else s in
             is_key <-- (if (sizeof_eapol_key <=? datalen) && (type =? IEEE802_1X_TYPE_EAPOL_KEY) then
                           key_type <-- rd buf sizeof_hdr ;;
                           Ok ((key_type =? EAPOL_KEY_TYPE_WPA) || (key_type =? EAPOL_KEY_TYPE_RSN))
                         else Ok false) ;;
             if is_key : bool then
               frame <-- rdn buf 0 (sizeof_hdr + datalen) ;;
               Ok (Some (act (ActWpaReceive frame) s))
             else
               s <-- receive_frame conf malloc_ok session_id_ok buf encrypted type datalen s ;;
               Ok (Some s))%c
    end.

End receive.

(** ** Theorems *)

Section proofs.
Context {env : Type} `{!Environment env}.
Implicit Types s : sta_info env.

Lemma rd_be16_ok buf off :
  bytes buf -> 0 <= off -> off + 2 <= zlen buf ->
  rd_be16 buf off = Ok (256 * at_ buf off + at_ buf (off + 1)) /\
  0 <= 256 * at_ buf off + at_ buf (off + 1) < 2 ^ 16.
Proof.
  intros Hb Ho Hl. unfold rd_be16. rewrite !rd_ok by lia. split; [done|].
  pose proof (at_byte buf off Hb). pose proof (at_byte buf (off + 1) Hb). lia.
Qed.

Lemma handle_eap_ok mok buf off len s :
  bytes buf -> 0 <= off -> 0 <= len -> off + len <= zlen buf ->
  exists s', handle_eap mok buf off len s = Ok s'.
Proof.
  intros Hb Ho Hl Hz. unfold handle_eap, handle_eap_response, handle_eap_initiate, sizeof_eap_hdr.
  destruct (Z.ltb_spec len 4); [by eexists|].
  destruct (rd_be16_ok buf (off + 2) Hb) as [-> Hr]; [lia..|]. cbn [cbind].
  set (el := 256 * _ + _) in *. rewrite rd_ok by lia. cbn [cbind].
  destruct (Z.ltb_spec el 4); [by eexists|]. destruct (Z.ltb_spec len el); [by eexists|].
  repeat case_match; try (by eexists); rewrite rd_ok, rdn_ok by lia; by eexists.
Qed.

Lemma receive_type_ok mok buf type len s :
  bytes buf -> 0 <= len -> 4 + len <= zlen buf -> exists s', receive_type mok buf type len s = Ok s'.
Proof.
  intros. unfold receive_type.
  repeat (case_match; [first [by apply handle_eap_ok | by eexists]|]). by eexists.
Qed.

Lemma receive_frame_ok conf mok sid buf enc type len s :
  bytes buf -> 0 <= len -> 4 + len <= zlen buf ->
  exists s', receive_frame conf mok sid buf enc type len s = Ok s'.
Proof.
  intros Hb Hl Hz. unfold receive_frame. do 3 (case_match; [by eexists|]).
  case_match; [|by eexists]. destruct (receive_type_ok mok buf type len s0 Hb Hl Hz) as [s' ->].
  by eexists.
Qed.

(** C33: whatever the bytes of the frame and the state of the station,
    [ieee802_1x_receive] reads no byte outside the frame. *)
Theorem receive_in_bounds conf mok sid buf enc (sta : option (sta_info env)) :
  bytes buf -> exists sta', ieee802_1x_receive conf mok sid buf enc sta = Ok sta'.
Proof.
  intros Hb. unfold ieee802_1x_receive, sizeof_hdr, sizeof_eapol_key.
  case_match; [by eexists|]. destruct sta as [s|]; [|by eexists]. case_match; [by eexists|].
  destruct (Z.ltb_spec (zlen buf) 4) as [|H4]; [by eexists|].
  destruct (rd_be16_ok buf 2 Hb) as [-> Hr]; [lia..|]. cbn [cbind].
  set (len := 256 * _ + _) in *. rewrite !rd_ok by lia. cbn [cbind].
  destruct (Z.ltb_spec (zlen buf - 4) len); [by eexists|].
  set (s1 := if bool_decide _ then _ else s).
  destruct (receive_frame_ok conf mok sid buf enc (at_ buf 1) len s1 Hb) as [s' E]; [lia..|].
  destruct (Z.leb_spec 44 len); cbn [andb].
  - destruct (at_ buf 1 =? _); [rewrite rd_ok by lia|]; cbn [cbind].
    + case_match; [rewrite rdn_ok by lia; by eexists|]. rewrite E. by eexists.
    + rewrite E. by eexists.
  - rewrite E. by eexists.
Qed.

(** *** Frames are inputs of the machines, not transitions *)

Lemma external_refl admin (w : world env) : external admin w w.
Proof. repeat split. exists []. by rewrite app_nil_r. Qed.

Lemma external_trans admin (u v w : world env) : external admin u v -> external admin v w -> external admin u w.
Proof.
  intros (A1 & A2 & A3 & A4 & A5 & l & Hl & A6) (B1 & B2 & B3 & B4 & B5 & k & Hk & B6).
  split; [congruence|]. split; [congruence|]. split; [congruence|]. split; [congruence|].
  split; [intros H; rewrite B5, A5; done|].
  exists (l ++ k). split; [by apply Forall_app|]. by rewrite B6, A6, app_assoc.
Qed.

(** What a frame [buf] can do to a machine. *)
Inductive frame_input (buf : list Z) : (world env -> world env) -> Prop :=
| frame_step : frame_input buf eapol_auth_step
| frame_response mok off len data : rdn buf off len = Ok data -> frame_input buf (set_response mok data)
| frame_flags f :
    (forall m, auth_pae_state (f m) = auth_pae_state m /\ authPortStatus (f m) = authPortStatus m /\
      authSuccess (f m) = authSuccess m /\ eap_if (f m) = eap_if m /\ portControl (f m) = portControl m) ->
    frame_input buf (on_sm f)
| frame_port b : frame_input buf (on_if (fun i => i <| portEnabled := b |>)).

(** All of it is input: it leaves alone what the machines own. *)
Lemma frame_external buf f w : frame_input buf f -> external false w (f w).
Proof.
  intros [|mok off len data _|g Hg|b].
  - repeat split. exists [EvRegisterStep]. split; [by constructor|done].
  - repeat split. exists []. by rewrite app_nil_r.
  - destruct (Hg w.(sm)) as (H1 & H2 & H3 & H4 & H5). unfold external, on_sm.
    cbn [EapolSm.sm EapolSm.log]. rewrite H1, H2, H3, H4, H5. repeat split. exists []. by rewrite app_nil_r.
  - repeat split. exists []. by rewrite app_nil_r.
Qed.

(** What holds of a station's machine, and of what a new one is made from. *)
Section holds.
Context (R : world env -> Prop) (A : env -> option eap_eapol_interface -> Prop) (buf : list Z).
Context (R_input : forall f w, frame_input buf f -> R w -> R (f w)).
Context (R_alloc : forall e i flags period wpa sid w, A e i -> eapol_auth_alloc e flags period wpa i sid = Some w -> R w).

Definition holds s : Prop := (forall w, s.(eapol) = Some w -> R w) /\ A s.(sta_env) s.(eap_init).

Lemma holds_on_eapol f s : frame_input buf f -> holds s -> holds (on_eapol f s).
Proof.
  intros Hf [Hw Hi]. split; [|done]. intros w Hs. cbn in Hs.
  destruct (eapol s) as [v|] eqn:E; [|done]. injection Hs as <-. by apply R_input, Hw.
Qed.

Lemma holds_same s s' : eapol s' = eapol s -> sta_env s' = sta_env s -> eap_init s' = eap_init s -> holds s -> holds s'.
Proof. intros He Hn Hi [H1 H2]. split; [by rewrite He|by rewrite Hn, Hi]. Qed.

Lemma holds_handle_eap mok off len s s' : handle_eap mok buf off len s = Ok s' -> holds s -> holds s'.
Proof.
  unfold handle_eap, handle_eap_response, handle_eap_initiate. intros H Hs.
  repeat (case_match; simplify_eq/=; try done);
  repeat match goal with
  | H : (cbind ?m _) = Ok _ |- _ => destruct m eqn:?; [cbn [cbind] in H|done]
  | H : (if ?b then _ else _) = Ok _ |- _ => destruct b
  | H : match ?b with Some _ => _ | None => _ end = Ok _ |- _ => destruct b
  end; simplify_eq; try done;
  (apply holds_on_eapol; [by eapply frame_response|]); revert Hs; by apply holds_same.
Qed.

Lemma holds_receive_type mok type len s s' : receive_type mok buf type len s = Ok s' -> holds s -> holds s'.
Proof.
  unfold receive_type. intros H Hs.
  destruct (type =? _); [by apply holds_handle_eap in H|].
  destruct (type =? _).
  { injection H as <-. eapply holds_same; [reflexivity..|].
    apply holds_on_eapol; [by apply frame_flags|].
    assert (Hs1 : holds (on_eapol (on_sm (fun m => m <| sm_flags :=
      Z.land m.(sm_flags) (Z.lnot EAPOL_SM_WAIT_START) |>)) s)) by (apply holds_on_eapol; [by apply frame_flags|done]).
    case_match; [|done]. revert Hs1. by apply holds_same. }
  destruct (type =? _).
  { injection H as <-. eapply holds_same; [reflexivity..|].
    apply holds_on_eapol; [by apply frame_flags|]. revert Hs. by apply holds_same. }
  repeat (case_match; [by simplify_eq|]). injection H as <-. revert Hs. by apply holds_same.
Qed.

Lemma holds_receive_frame conf mok sid enc type len s s' :
  receive_frame conf mok sid buf enc type len s = Ok s' -> holds s -> holds s'.
Proof.
  unfold receive_frame. intros H Hs. do 3 (case_match; [by simplify_eq|]).
  set (allocated := match eapol s with Some _ => _ | None => _ end) in H.
  destruct allocated as [s1|] eqn:E; [|by simplify_eq].
  destruct (receive_type mok buf type len s1) as [s2|] eqn:E2; [|done]. injection H as <-.
  apply holds_on_eapol; [apply frame_step|]. apply (holds_receive_type _ _ _ _ _ E2).
  unfold allocated in E. destruct (eapol s) as [w|] eqn:Ew; [by simplify_eq|].
  destruct (ieee802_1x_alloc_eapol_sm conf sid s) as [w|] eqn:Ea; [|done]. injection E as <-.
  split; [|apply Hs]. intros v [= <-]. apply R_input; [apply frame_port|]. eapply R_alloc; [apply Hs|exact Ea].
Qed.

Lemma receive_holds conf mok sid enc s s' :
  ieee802_1x_receive conf mok sid buf enc (Some s) = Ok (Some s') -> holds s -> holds s'.
Proof.
  unfold ieee802_1x_receive. intros H Hs.
  destruct (negb conf.(ieee802_1x) && _ && _ && _); [by simplify_eq|].
  destruct (negb _ && _).
  { injection H as <-. case_match; [|done]. revert Hs. by apply holds_same. }
  destruct (zlen buf <? sizeof_hdr); [by simplify_eq|].
  destruct (rd_be16 buf 2) as [len|]; [|done]. cbn [cbind] in H.
  destruct (rd buf 0) as [version|]; [|done]. destruct (rd buf 1) as [type|]; [|done]. cbn [cbind] in H.
  destruct (_ <? len).
  { injection H as <-. destruct (bool_decide _); [|done]. revert Hs. by apply holds_same. }
  set (s1 := if bool_decide _ then _ else s) in H.
  assert (Hs1 : holds s1) by (unfold s1; destruct (bool_decide _); [|done]; revert Hs; by apply holds_same).
  destruct (if _ && _ then _ else _) as [is_key|]; [|done]. cbn [cbind] in H.
  destruct is_key.
  - destruct (rdn buf 0 _); [|done]. injection H as <-. revert Hs1. by apply holds_same.
  - destruct (receive_frame _ _ _ _ _ _ _ _) as [s2|] eqn:E; [|done]. injection H as <-.
    by apply (holds_receive_frame _ _ _ _ _ _ _ _ E).
Qed.
End holds.

(** The station's machine is in a reachable state, and a new one starts
    without success. *)
Definition sound s : Prop :=
  (forall w, s.(eapol) = Some w -> reachable false w) /\
  (forall i, s.(eap_init) = Some i -> eapSuccess i = false).

(** C29: a received frame, whatever its content, only sets inputs of the state
    machines: the machine of the station stays in the states [reachable]
    covers, so that no sequence of frames authorizes a port without EAP
    success. *)
Theorem receive_keeps_reachable conf mok sid buf enc s s' :
  ieee802_1x_receive conf mok sid buf enc (Some s) = Ok (Some s') -> sound s -> sound s'.
Proof.
  refine (receive_holds (reachable false) (fun _ o => forall i, o = Some i -> eapSuccess i = false) buf _ _ conf mok sid enc s s').
  - intros f w Hf Hw. eapply reach_external; [exact Hw|by eapply frame_external].
  - intros e o flags period wpa sid' w Ha Hw. destruct o as [i|]; [|done]. by apply (reach_alloc false _ _ _ _ i sid' w (Ha i eq_refl) Hw).
Qed.

(** *** Management frame protection *)

Lemma flag_set_lor_l f a b : flag_set f a = true -> flag_set f (Z.lor a b) = true.
Proof.
  unfold flag_set. rewrite !negb_true_iff, !Z.eqb_neq, Z.land_lor_distr_r. intros H E.
  apply Z.lor_eq_0_iff in E as [E _]. done.
Qed.

(** C39: once a station with management frame protection has its pairwise key,
    an EAP packet, Start or Logoff that arrives in the clear changes nothing
    but the reception counters: no machine input, no cleared PMKSA, nothing
    told to other components. *)
Theorem clear_frame_ignored_with_mfp conf mok sid buf s s' :
  flag_set s.(sta_flags) WLAN_STA_ASSOC = true -> flag_set s.(sta_flags) WLAN_STA_MFP = true ->
  wpa_auth_pairwise_set s.(wpa_sm) = true -> 0 <= at_ buf 1 < IEEE802_1X_TYPE_EAPOL_KEY ->
  ieee802_1x_receive conf mok sid buf FRAME_NOT_ENCRYPTED (Some s) = Ok (Some s') ->
  s' = s <| rx := s'.(rx) |>.
Proof.
  intros Ha Hm Hp Ht H. unfold ieee802_1x_receive in H.
  assert (Hself : s = s <| rx := rx s |>) by by destruct s.
  destruct (negb conf.(ieee802_1x) && _ && _ && _); [injection H as <-; exact Hself|].
  rewrite (flag_set_lor_l _ _ _ Ha) in H. cbn [negb andb] in H.
  unfold sizeof_hdr in H. destruct (Z.ltb_spec (zlen buf) 4); [injection H as <-; exact Hself|].
  destruct (rd_be16 buf 2) as [len|]; [|done]. cbn [cbind] in H.
  rewrite !rd_ok in H by lia. cbn [cbind] in H.
  destruct (_ <? len); [destruct (bool_decide _); injection H as <-; [done|exact Hself]|].
  set (s1 := if bool_decide _ then _ else s) in H.
  assert (E1 : s1 = s <| rx := rx s1 |>) by (unfold s1; destruct (bool_decide _); [done|exact Hself]).
  assert (Hk : (at_ buf 1 =? IEEE802_1X_TYPE_EAPOL_KEY) = false) by (apply Z.eqb_neq; lia).
  rewrite Hk, andb_false_r in H. cbn [cbind] in H. unfold receive_frame in H.
  assert (Hc : ieee802_1x_check_encryption s1 FRAME_NOT_ENCRYPTED (at_ buf 1) = false).
  { rewrite E1. unfold ieee802_1x_check_encryption. cbn [sta_flags wpa_sm set_field].
    change (sta_flags (s <| rx := rx s1 |>)) with (sta_flags s).
    change (wpa_sm (s <| rx := rx s1 |>)) with (wpa_sm s). rewrite Hm, Hp.
    unfold IEEE802_1X_TYPE_EAPOL_KEY in Ht.
    assert (at_ buf 1 = 0 \/ at_ buf 1 = 1 \/ at_ buf 1 = 2) as [->|[->| ->]] by lia; done. }
  rewrite Hc in H. cbn [negb] in H.
  destruct (negb conf.(ieee802_1x) && _ && _); [injection H as <-; exact E1|].
  destruct (negb _ && _); injection H as <-; exact E1.
Qed.

(** *** Delivery *)

(** A frame of [type] around [body], padded as Ethernet pads. *)
Definition eapol_frame (version type : Z) (body padding : list Z) : list Z :=
  [version; type] ++ be_bytes 2 (zlen body) ++ body ++ padding.

(** An EAP packet with its type octet. *)
Definition eap_packet (code id type : Z) (data : list Z) : list Z :=
  [code; id] ++ be_bytes 2 (5 + zlen data) ++ [type] ++ data.

(** What a station must be for its EAP packets to reach its machine. *)
Definition takes_eap conf s : Prop :=
  conf.(ieee802_1x) = true /\ flag_set s.(sta_flags) WLAN_STA_ASSOC = true /\
  (wpa_auth_sta_key_mgmt s.(wpa_sm) = -1 \/
   (wpa_key_mgmt_wpa_psk (wpa_auth_sta_key_mgmt s.(wpa_sm)) ||
    (wpa_auth_sta_key_mgmt s.(wpa_sm) =? WPA_KEY_MGMT_OWE) ||
    (wpa_auth_sta_key_mgmt s.(wpa_sm) =? WPA_KEY_MGMT_DPP)) = false).

Lemma rd_be16_frame pre n post :
  0 <= n < 2 ^ 16 -> rd_be16 (pre ++ be_bytes 2 n ++ post) (zlen pre) = Ok n.
Proof.
  intros Hn. unfold rd_be16. cbn [be_bytes app].
  rewrite !rd_ok by (rewrite length_app; cbn [length]; lia). cbn [cbind]. unfold at_. f_equal.
  rewrite !app_nth2 by lia.
  replace (Z.to_nat (zlen pre) - length pre)%nat with 0%nat by lia.
  replace (Z.to_nat (zlen pre + 1) - length pre)%nat with 1%nat by lia. cbn [nth]. dlia.
Qed.

Lemma handle_eap_packet pre id type data padding s w :
  s.(eapol) = Some w -> 5 + zlen data < 2 ^ 16 ->
  let packet := eap_packet EAP_CODE_RESPONSE id type data in
  handle_eap true (pre ++ packet ++ padding) (zlen pre) (zlen packet) s =
  Ok (on_eapol (set_response true packet)
       (count dot1xAuthEapolRespFramesRx (s <| rx := s.(rx) <| eap_type_supp := type |> |>))).
Proof.
  intros Hw Hl packet.
  assert (Hp : zlen packet = 5 + zlen data).
  { unfold packet, eap_packet. rewrite !length_app, length_be_bytes. cbn [length]. lia. }
  assert (Hb : pre ++ packet ++ padding =
    (pre ++ [EAP_CODE_RESPONSE; id]) ++ be_bytes 2 (zlen packet) ++ type :: data ++ padding).
  { rewrite Hp. unfold packet, eap_packet. by rewrite <- !app_assoc. }
  unfold handle_eap, sizeof_eap_hdr. destruct (Z.ltb_spec (zlen packet) 4); [lia|].
  assert (Hr : rd_be16 (pre ++ packet ++ padding) (zlen pre + 2) = Ok (zlen packet)).
  { rewrite Hb. replace (zlen pre + 2) with (zlen (pre ++ [EAP_CODE_RESPONSE; id]))
      by (rewrite length_app; cbn; lia). apply rd_be16_frame. lia. }
  assert (Hz : zlen (pre ++ packet ++ padding) = zlen pre + zlen packet + zlen padding)
    by (rewrite !length_app; lia).
  rewrite Hr. cbn [cbind]. rewrite rd_ok by lia. cbn [cbind].
  assert (Hat : forall i : nat, at_ (pre ++ packet ++ padding) (zlen pre + Z.of_nat i) = nth i (packet ++ padding) 0).
  { intros i. unfold at_. rewrite app_nth2 by lia. f_equal. lia. }
  pose proof (Hat 0%nat) as H0. rewrite Z.add_0_r in H0. rewrite H0.
  change (nth 0 (packet ++ padding) 0) with EAP_CODE_RESPONSE.
  destruct (Z.ltb_spec (zlen packet) 4); [lia|]. rewrite Z.ltb_irrefl.
  change (EAP_CODE_RESPONSE =? EAP_CODE_RESPONSE) with true.
  unfold handle_eap_response, sizeof_eap_hdr. rewrite Hw. cbn iota.
  destruct (Z.ltb_spec (zlen packet) (4 + 1)); [lia|].
  rewrite rd_ok by lia. change 4 with (Z.of_nat 4). rewrite Hat. cbn [cbind].
  rewrite rdn_ok by lia. cbn [cbind].
  replace (slice (zlen pre) (zlen packet) _) with packet; [done|].
  unfold slice. rewrite drop_app_length' by lia. by rewrite take_app_length' by lia.
Qed.

Lemma receive_frame_takes conf mok sid buf enc type len s w :
  takes_eap conf s -> s.(eapol) = Some w -> enc <> FRAME_NOT_ENCRYPTED ->
  receive_frame conf mok sid buf enc type len s =
  cbind (receive_type mok buf type len s) (fun s => Ok (on_eapol eapol_auth_step s)).
Proof.
  intros (Hc & _ & Hk) Hw He. unfold receive_frame. rewrite Hc. cbn [negb andb].
  replace (_ && _) with false by (symmetry; destruct Hk as [->| ->]; [done|apply andb_false_r]).
  rewrite Hw. by destruct enc.
Qed.

(** A well-formed EAP-Response for an associated station reaches its
    machine unchanged, whatever its type, its data and the padding of the
    frame: the packet becomes [eapRespData], [eapolEap] is set, the counters
    count it, and the machines are scheduled. *)
Theorem eap_response_delivered conf sid version id type data padding enc s w :
  takes_eap conf s -> s.(eapol) = Some w -> enc <> FRAME_NOT_ENCRYPTED ->
  5 + zlen data < 2 ^ 16 ->
  let packet := eap_packet EAP_CODE_RESPONSE id type data in
  exists s',
    ieee802_1x_receive conf true sid (eapol_frame version IEEE802_1X_TYPE_EAP_PACKET packet padding)
      enc (Some s) = Ok (Some s') /\
    s'.(eapol) = Some (eapol_auth_step (set_response true packet w)) /\
    s'.(rx).(dot1xAuthEapolRespFramesRx) = u32 (s.(rx).(dot1xAuthEapolRespFramesRx) + 1) /\
    s'.(rx).(eap_type_supp) = type /\ s'.(actions) = s.(actions).
Proof.
  intros Ht Hw He Hl packet.
  assert (Hp : zlen packet = 5 + zlen data).
  { unfold packet, eap_packet. rewrite !length_app, length_be_bytes. cbn [length]. lia. }
  destruct (Ht) as (Hc & Ha & _).
  unfold ieee802_1x_receive, eapol_frame. rewrite Hc. cbn [negb andb].
  rewrite (flag_set_lor_l _ _ _ Ha). cbn [negb andb].
  set (buf := _ ++ be_bytes 2 (zlen packet) ++ _).
  assert (Hz : zlen buf = 4 + zlen packet + zlen padding).
  { unfold buf. rewrite !length_app, length_be_bytes. cbn [length]. lia. }
  unfold sizeof_hdr. destruct (Z.ltb_spec (zlen buf) 4); [lia|].
  assert (Hr : rd_be16 buf 2 = Ok (zlen packet))
    by (apply (rd_be16_frame [version; IEEE802_1X_TYPE_EAP_PACKET]); lia).
  rewrite Hr. cbn [cbind].
  rewrite !rd_ok by lia. cbn [cbind]. change (at_ buf 1) with IEEE802_1X_TYPE_EAP_PACKET.
  destruct (Z.ltb_spec (zlen buf - 4) (zlen packet)); [lia|]. rewrite Hw.
  change (bool_decide (is_Some (Some w))) with true. rewrite andb_false_r. cbn [cbind].
  set (s1 := count dot1xAuthEapolFramesRx _).
  rewrite (receive_frame_takes _ _ _ _ _ _ _ s1 w Ht Hw He). unfold receive_type.
  change (IEEE802_1X_TYPE_EAP_PACKET =? IEEE802_1X_TYPE_EAP_PACKET) with true.
  assert (Hb : buf = (([version; IEEE802_1X_TYPE_EAP_PACKET] ++ be_bytes 2 (zlen packet)) ++ packet ++ padding))
    by (unfold buf; by rewrite <- app_assoc).
  pose proof (handle_eap_packet ([version; IEEE802_1X_TYPE_EAP_PACKET] ++ be_bytes 2 (zlen packet))
    id type data padding s1 w Hw Hl) as Hh.
  cbv zeta in Hh. fold packet in Hh. rewrite <- Hb in Hh.
  rewrite length_app, length_be_bytes in Hh. cbn [length Nat.add Z.of_nat Pos.of_succ_nat] in Hh.
  change (Z.of_nat 4) with 4 in Hh. unfold sizeof_hdr. rewrite Hh. cbn [cbind]. eexists. split; [reflexivity|].
  split; [|done]. assert (H1 : s1.(eapol) = Some w) by done.
  cbn. unfold s1 in H1. by rewrite Hw.
Qed.

End proofs.

(** ** Witnesses *)

Definition demo_conf : bss_conf := mkConf true true false false false 3600.

(** An associated station of an 802.1X network, its machine as [demo_run]
    left it. *)
Definition demo_sta (flags : Z) : sta_info unit :=
  mkSta flags (Some demo_run) zero_rx (Some (mkWpa (BIT 0) true None)) None tt None [].

Definition demo_response : list Z :=
  eapol_frame 2 IEEE802_1X_TYPE_EAP_PACKET (eap_packet EAP_CODE_RESPONSE 7 1 [97; 98]) [0; 0].

Definition received_by (s : sta_info unit) (enc : frame_encryption) (buf : list Z) : sta_info unit :=
  match ieee802_1x_receive demo_conf true true buf enc (Some s) with Ok (Some s) => s | _ => s end.

Lemma receive_in_bounds_witness :
  exists sta', ieee802_1x_receive demo_conf true true [2; 0; 0; 200; 2; 7; 0; 9] FRAME_ENCRYPTED
    (Some (demo_sta WLAN_STA_ASSOC)) = Ok sta'.
Proof. apply (receive_in_bounds demo_conf true true [2; 0; 0; 200; 2; 7; 0; 9]). by_deciding. Defined.

Lemma receive_keeps_reachable_witness :
  sound (received_by (demo_sta WLAN_STA_ASSOC) FRAME_ENCRYPTED demo_response).
Proof.
  apply (receive_keeps_reachable demo_conf true true demo_response FRAME_ENCRYPTED (demo_sta WLAN_STA_ASSOC)).
  - vm_compute. reflexivity.
  - split; [|done]. intros w Hw. change (Some demo_run = Some w) in Hw.
    apply (inj Some demo_run w) in Hw as <-. exact (demo_reachable false).
Defined.

Lemma clear_frame_ignored_with_mfp_witness :
  eapol (received_by (demo_sta (Z.lor WLAN_STA_ASSOC WLAN_STA_MFP)) FRAME_NOT_ENCRYPTED demo_response) =
  Some demo_run.
Proof.
  set (s := demo_sta (Z.lor WLAN_STA_ASSOC WLAN_STA_MFP)).
  rewrite (clear_frame_ignored_with_mfp demo_conf true true demo_response s
    (received_by s FRAME_NOT_ENCRYPTED demo_response)); try reflexivity; vm_compute; intuition discriminate.
Defined.

Lemma eap_response_delivered_witness :
  eapol (received_by (demo_sta WLAN_STA_ASSOC) FRAME_ENCRYPTED demo_response) =
  Some (eapol_auth_step (set_response true [2; 7; 0; 7; 1; 97; 98] demo_run)).
Proof.
  destruct (eap_response_delivered demo_conf true 2 7 1 [97; 98] [0; 0] FRAME_ENCRYPTED
    (demo_sta WLAN_STA_ASSOC) demo_run) as (s' & E & H & _); [|done..|].
  { split; [reflexivity|split; [reflexivity|right; reflexivity]]. }
  unfold received_by, demo_response. by rewrite E.
Defined.

End EapolRx.
