(* ===== verification/Eloop.v ===== *)
(** * The event loop (utils/eloop.c)

    Timeouts, sockets and signals of [struct eloop_data], in the configuration
    hostapd is built with (select).  Operations are functions on the record,
    given the results of the calls they make ([os_zalloc], [os_get_reltime]);
    handlers, select(2) and the clock belong to the class [Host]. *)

From S2P Require Import Prelude.
From stdpp Require Import sorting.

Module Eloop.

#[local] Open Scope list_scope.
#[local] Open Scope Z_scope.

(** ** Time (utils/os.h) *)

(** [long] is 64 bits wide. *)
Definition s64 (x : Z) : Z := let y := u64 x in if y <? 2 ^ 63 then y else y - 2 ^ 64.

Record os_reltime := mkTime { sec : Z; usec : Z }.
#[export] Instance os_reltime_eq_dec : EqDecision os_reltime.
Proof. solve_decision. Defined.

Definition os_reltime_before (a b : os_reltime) : bool :=
  (a.(sec) <? b.(sec)) || ((a.(sec) =? b.(sec)) && (a.(usec) <? b.(usec))).

Definition os_reltime_sub (a b : os_reltime) : os_reltime :=
  let s := s64 (a.(sec) - b.(sec)) in
  let u := s64 (a.(usec) - b.(usec)) in
  if u <? 0 then mkTime (s64 (s - 1)) (u + 1000000) else mkTime s u.

(** ** State *)

(** Pointers, to contexts and to handlers, are numbers. *)
Definition ELOOP_ALL_CTX : Z := 2 ^ 64 - 1.

Record eloop_timeout := mkTimeout {
  time : os_reltime; t_handler : Z; t_eloop_data : Z; t_user_data : Z
}.
#[export] Instance eloop_timeout_eq_dec : EqDecision eloop_timeout.
Proof. solve_decision. Defined.

Record eloop_sock := mkSock {
  sock : Z; s_handler : Z; s_eloop_data : Z; s_user_data : Z
}.
#[export] Instance eloop_sock_eq_dec : EqDecision eloop_sock.
Proof. solve_decision. Defined.

Record eloop_signal := mkSignal {
  sig : Z; g_handler : Z; g_user_data : Z; g_signaled : Z
}.
#[export] Instance signal_eta : Settable eloop_signal := fun s =>
  mkSignal s.(sig) s.(g_handler) s.(g_user_data) s.(g_signaled).

(** [count] is the length of [table]; a table never allocated is empty. *)
Record eloop_sock_table := mkTable { table : list eloop_sock; changed : bool }.
#[export] Instance table_eta : Settable eloop_sock_table := fun t => mkTable t.(table) t.(changed).

Inductive eloop_event_type := EVENT_TYPE_READ | EVENT_TYPE_WRITE | EVENT_TYPE_EXCEPTION.

Record eloop_data := mkEloop {
  max_sock : Z;
  count : Z;
  readers : eloop_sock_table;
  writers : eloop_sock_table;
  exceptions : eloop_sock_table;
  timeout : list eloop_timeout;
  signals : list eloop_signal;
  signaled : Z;
  pending_terminate : bool;
  terminate : bool
}.
#[export] Instance eloop_eta : Settable eloop_data := fun e =>
  mkEloop e.(max_sock) e.(count) e.(readers) e.(writers) e.(exceptions) e.(timeout) e.(signals)
    e.(signaled) e.(pending_terminate) e.(terminate).

Implicit Types e : eloop_data.
Implicit Types t : eloop_timeout.

Definition empty_table : eloop_sock_table := mkTable [] false.

Definition eloop_init : eloop_data :=
  mkEloop 0 0 empty_table empty_table empty_table [] [] 0 false false.

(** ** Timeouts *)

(** [while (usec >= 1000000) { sec++; usec -= 1000000; }]; the fuel is the
    number of whole seconds in [usec]. *)
Fixpoint carry (fuel : nat) (t : os_reltime) : os_reltime :=
  match fuel with
  | O => t
  | S fuel =>
      if 1000000 <=? t.(usec) then carry fuel (mkTime (s64 (t.(sec) + 1)) (t.(usec) - 1000000)) else t
  end.

(** When a timeout asked for at [now] is due; [None] on overflow. *)
Definition deadline (now : os_reltime) (secs usecs : Z) : option os_reltime :=
  let s := s64 (now.(sec) + secs) in
  if s <? now.(sec) then None
  else
    let u := s64 (now.(usec) + usecs) in
    let t := carry (Z.to_nat (u / 1000000)) (mkTime s u) in
    if t.(sec) <? now.(sec) then None else Some t.

(** Before the first timeout that is later, or at the end. *)
Fixpoint insert_timeout (t : eloop_timeout) (l : list eloop_timeout) : list eloop_timeout :=
  match l with
  | [] => [t]
  | tmp :: r => if os_reltime_before t.(time) tmp.(time) then t :: l else tmp :: insert_timeout t r
  end.

(** A reading of the clock: what [os_get_reltime] returns and stores. *)
Definition reading : Type := Z * os_reltime.

Definition eloop_register_timeout (malloc_ok : bool) (clk : reading) (secs usecs handler ed ud : Z) e
    : eloop_data * Z :=
  if negb malloc_ok then (e, -1)
  else
    let '(r, now) := clk in
    if r <? 0 then (e, -1)
    else
      match deadline now secs usecs with
      | None => (e, 0)
      | Some tm => (e <| timeout := insert_timeout (mkTimeout tm handler ed ud) e.(timeout) |>, 0)
      end.

(** The guard of [eloop_cancel_timeout], and that of the functions that look
    for one timeout. *)
Definition cancels (handler ed ud : Z) t : bool :=
  (t.(t_handler) =? handler) && ((t.(t_eloop_data) =? ed) || (ed =? ELOOP_ALL_CTX)) &&
  ((t.(t_user_data) =? ud) || (ud =? ELOOP_ALL_CTX)).
Definition is_timeout (handler ed ud : Z) t : bool :=
  (t.(t_handler) =? handler) && (t.(t_eloop_data) =? ed) && (t.(t_user_data) =? ud).

Fixpoint cancel_loop (handler ed ud : Z) (l : list eloop_timeout) (removed : Z) : list eloop_timeout * Z :=
  match l with
  | [] => ([], removed)
  | t :: r =>
      if cancels handler ed ud t then cancel_loop handler ed ud r (removed + 1)
      else let '(r, removed) := cancel_loop handler ed ud r removed in (t :: r, removed)
  end.

Definition eloop_cancel_timeout (handler ed ud : Z) e : eloop_data * Z :=
  let '(l, removed) := cancel_loop handler ed ud e.(timeout) 0 in (e <| timeout := l |>, removed).

(** The first timeout found, if any, and the list without it. *)
Fixpoint remove_first (f : eloop_timeout -> bool) (l : list eloop_timeout)
    : option (eloop_timeout * list eloop_timeout) :=
  match l with
  | [] => None
  | t :: r =>
      if f t then Some (t, r)
      else match remove_first f r with None => None | Some (x, r) => Some (x, t :: r) end
  end.

Definition eloop_cancel_timeout_one (clk : reading) (handler ed ud : Z) e : eloop_data * Z * os_reltime :=
  let now := snd clk in
  match remove_first (is_timeout handler ed ud) e.(timeout) with
  | None => (e, 0, mkTime 0 0)
  | Some (t, l) =>
      (e <| timeout := l |>, 1,
       if os_reltime_before now t.(time) then os_reltime_sub t.(time) now else mkTime 0 0)
  end.

Definition eloop_is_timeout_registered (handler ed ud : Z) e : Z :=
  if existsb (is_timeout handler ed ud) e.(timeout) then 1 else 0.

(** [clk] is read to compare, [clk2] by the registration. *)
Definition eloop_deplete_timeout (malloc_ok : bool) (clk clk2 : reading) (req_secs req_usecs handler ed ud : Z)
    e : eloop_data * Z :=
  match List.find (is_timeout handler ed ud) e.(timeout) with
  | None => (e, -1)
  | Some tmp =>
      let requested := mkTime req_secs req_usecs in
      let remaining := os_reltime_sub tmp.(time) (snd clk) in
      if os_reltime_before requested remaining then
        let '(e, _) := eloop_cancel_timeout handler ed ud e in
        let '(e, _) := eloop_register_timeout malloc_ok clk2 (u32 req_secs) (u32 req_usecs) handler ed ud e in
        (e, 1)
      else (e, 0)
  end.

Definition eloop_replenish_timeout (malloc_ok : bool) (clk clk2 : reading) (req_secs req_usecs handler ed ud : Z)
    e : eloop_data * Z :=
  match List.find (is_timeout handler ed ud) e.(timeout) with
  | None => (e, -1)
  | Some tmp =>
      let requested := mkTime req_secs req_usecs in
      let remaining := os_reltime_sub tmp.(time) (snd clk) in
      if os_reltime_before remaining requested then
        let '(e, _) := eloop_cancel_timeout handler ed ud e in
        let '(e, _) := eloop_register_timeout malloc_ok clk2 (u32 req_secs) (u32 req_usecs) handler ed ud e in
        (e, 1)
      else (e, 0)
  end.

(** ** Sockets *)

Definition eloop_get_sock_table (ty : eloop_event_type) e : eloop_sock_table :=
  match ty with
  | EVENT_TYPE_READ => e.(readers)
  | EVENT_TYPE_WRITE => e.(writers)
  | EVENT_TYPE_EXCEPTION => e.(exceptions)
  end.
Definition set_table (ty : eloop_event_type) (t : eloop_sock_table) e : eloop_data :=
  match ty with
  | EVENT_TYPE_READ => e <| readers := t |>
  | EVENT_TYPE_WRITE => e <| writers := t |>
  | EVENT_TYPE_EXCEPTION => e <| exceptions := t |>
  end.

Definition eloop_sock_table_add_sock (realloc_ok : bool) (ty : eloop_event_type) (s handler ed ud : Z) e
    : eloop_data * Z :=
  let new_max_sock := if e.(max_sock) <? s then s else e.(max_sock) in
  if negb realloc_ok then (e, -1)
  else
    let t := eloop_get_sock_table ty e in
    let t := mkTable (t.(table) ++ [mkSock s handler ed ud]) true in
    ((set_table ty t e) <| max_sock := new_max_sock |> <| count := e.(count) + 1 |>, 0).

(** The table without its first entry for the socket. *)
Fixpoint drop_sock (s : Z) (l : list eloop_sock) : option (list eloop_sock) :=
  match l with
  | [] => None
  | x :: r => if x.(sock) =? s then Some r
              else match drop_sock s r with None => None | Some r => Some (x :: r) end
  end.

Definition eloop_sock_table_remove_sock (ty : eloop_event_type) (s : Z) e : eloop_data :=
  match drop_sock s (eloop_get_sock_table ty e).(table) with
  | None => e
  | Some l => (set_table ty (mkTable l true) e) <| count := e.(count) - 1 |>
  end.

(** The caller must pass a descriptor: [assert(sock >= 0)]. *)
Definition eloop_register_sock (realloc_ok : bool) (s : Z) (ty : eloop_event_type) (handler ed ud : Z) e
    : option (eloop_data * Z) :=
  if s <? 0 then None else Some (eloop_sock_table_add_sock realloc_ok ty s handler ed ud e).
Definition eloop_unregister_sock (s : Z) (ty : eloop_event_type) e : eloop_data :=
  eloop_sock_table_remove_sock ty s e.
Definition eloop_register_read_sock (realloc_ok : bool) (s handler ed ud : Z) e : option (eloop_data * Z) :=
  eloop_register_sock realloc_ok s EVENT_TYPE_READ handler ed ud e.
Definition eloop_unregister_read_sock (s : Z) e : eloop_data := eloop_unregister_sock s EVENT_TYPE_READ e.

(** [eloop_sock_table_set_fds]: the set select(2) is given. *)
Definition eloop_sock_table_set_fds (t : eloop_sock_table) : list Z := sock <$> t.(table).

(** ** Signals *)

Definition SIGHUP : Z := 1.
Definition SIGINT : Z := 2.
Definition SIGTERM : Z := 15.

Definition eloop_register_signal (realloc_ok : bool) (s handler ud : Z) e : eloop_data * Z :=
  if negb realloc_ok then (e, -1)
  else (e <| signals := e.(signals) ++ [mkSignal s handler ud 0] |>, 0).

Definition eloop_register_signal_terminate (ok1 ok2 : bool) (handler ud : Z) e : eloop_data * Z :=
  let '(e, ret) := eloop_register_signal ok1 SIGINT handler ud e in
  if ret =? 0 then eloop_register_signal ok2 SIGTERM handler ud e else (e, ret).

Definition eloop_register_signal_reconfig (ok : bool) (handler ud : Z) e : eloop_data * Z :=
  eloop_register_signal ok SIGHUP handler ud e.

(** The first entry for the signal counts it. *)
Fixpoint mark_signal (s : Z) (l : list eloop_signal) : list eloop_signal :=
  match l with
  | [] => []
  | g :: r => if g.(sig) =? s then g <| g_signaled := s32 (g.(g_signaled) + 1) |> :: r
              else g :: mark_signal s r
  end.

(** The asynchronous handler; the alarm that kills a program busy for two
    seconds is not modelled. *)
Definition eloop_handle_signal (s : Z) e : eloop_data :=
  let e := if ((s =? SIGINT) || (s =? SIGTERM)) && negb e.(pending_terminate)
           then e <| pending_terminate := true |> else e in
  e <| signaled := s32 (e.(signaled) + 1) |> <| signals := mark_signal s e.(signals) |>.

Definition eloop_terminate e : eloop_data := e <| terminate := true |>.
Definition eloop_terminated e : bool := e.(terminate) || e.(pending_terminate).

(** ** The loop *)

(** What select(2) reports: its result, [errno], the descriptors ready for
    each set, and the signals that arrived while it waited. *)
Record select_result := mkSelect {
  sel_res : Z; sel_errno : Z; rfds : list Z; wfds : list Z; efds : list Z; sel_signals : list Z
}.

Definition EINTR : Z := 4.

(** The calls the loop makes, for the theorems. *)
Inductive call :=
| CallTimeout (now : os_reltime) (t : eloop_timeout)
| CallSock (ty : eloop_event_type) (s : eloop_sock)
| CallSignal (s handler ud : Z).

(** The world outside the loop.  A handler is given the record it may call the
    interface on, and the rest of the program's state. *)
Class Host (env : Type) := {
  os_get_reltime : env -> reading * env;
  os_select : Z -> list Z -> list Z -> list Z -> option os_reltime -> env -> select_result * env;
  timeout_handler : Z -> Z -> Z -> eloop_data * env -> eloop_data * env;
  sock_handler : Z -> Z -> Z -> Z -> eloop_data * env -> eloop_data * env;
  signal_handler : Z -> Z -> Z -> eloop_data * env -> eloop_data * env
}.

Section run.
Context {env : Type} `{!Host env}.

Record world := mkWorld { el : eloop_data; host : env; calls : list call }.
#[export] Instance world_eta : Settable world := fun w => mkWorld w.(el) w.(host) w.(calls).
Implicit Types w : world.

Definition on_el (f : eloop_data -> eloop_data) w : world := w <| el := f w.(el) |>.

(** A handler is called. *)
Definition calling (c : call) (h : eloop_data * env -> eloop_data * env) w : world :=
  let '(e, v) := h (w.(el), w.(host)) in mkWorld e v (w.(calls) ++ [c]).

Definition gettime w : os_reltime * world :=
  let '((_, now), v) := os_get_reltime w.(host) in (now, w <| host := v |>).

(** [for (i = 0; i < eloop.signal_count; i++)]; handlers do not register
    signals, so that the fuel is the number of signals. *)
Fixpoint signal_loop (fuel i : nat) w : world :=
  match fuel with
  | O => w
  | S fuel =>
      match w.(el).(signals) !! i with
      | None => w
      | Some g =>
          if g.(g_signaled) =? 0 then signal_loop fuel (S i) w
          else
            let w := on_el (fun e => e <| signals := <[i := g <| g_signaled := 0 |>]> e.(signals) |>) w in
            let w := calling (CallSignal g.(sig) g.(g_handler) g.(g_user_data))
                       (signal_handler g.(g_handler) g.(sig) g.(g_user_data)) w in
            signal_loop fuel (S i) w
      end
  end.

Definition eloop_process_pending_signals w : world :=
  if w.(el).(signaled) =? 0 then w
  else
    let w := on_el (fun e => e <| signaled := 0 |> <| pending_terminate := false |>) w in
    signal_loop (length w.(el).(signals)) 0 w.

(** [for (i = 0; i < table->count; i++)]: the loop is left when a handler
    changed the table, which therefore keeps its length while it runs. *)
Fixpoint dispatch_loop (ty : eloop_event_type) (fds : list Z) (fuel i : nat) w : world :=
  match fuel with
  | O => w
  | S fuel =>
      match (eloop_get_sock_table ty w.(el)).(table) !! i with
      | None => w
      | Some s =>
          if bool_decide (s.(sock) ∈ fds) then
            let w := calling (CallSock ty s)
                       (sock_handler s.(s_handler) s.(sock) s.(s_eloop_data) s.(s_user_data)) w in
            if (eloop_get_sock_table ty w.(el)).(changed) then w
            else dispatch_loop ty fds fuel (S i) w
          else dispatch_loop ty fds fuel (S i) w
      end
  end.

Definition clear_changed (ty : eloop_event_type) e : eloop_data :=
  set_table ty ((eloop_get_sock_table ty e) <| changed := false |>) e.

Definition eloop_sock_table_dispatch (ty : eloop_event_type) (fds : list Z) w : world :=
  let w := on_el (clear_changed ty) w in
  dispatch_loop ty fds (length (eloop_get_sock_table ty w.(el)).(table)) 0 w.

Definition clear_all_changed e : eloop_data :=
  clear_changed EVENT_TYPE_EXCEPTION (clear_changed EVENT_TYPE_WRITE (clear_changed EVENT_TYPE_READ e)).

Definition any_changed e : bool :=
  e.(readers).(changed) || e.(writers).(changed) || e.(exceptions).(changed).

(** [eloop_run]'s wait: the timeout of the first in the list, then select(2). *)
Definition wait_time w : option os_reltime * world :=
  match w.(el).(timeout) with
  | [] => (None, w)
  | t :: _ =>
      let '(now, w) := gettime w in
      (Some (if os_reltime_before now t.(time) then os_reltime_sub t.(time) now else mkTime 0 0), w)
  end.

Definition wait_select (tv : option os_reltime) w : select_result * world :=
  let e := w.(el) in
  let '(r, v) := os_select (e.(max_sock) + 1) (eloop_sock_table_set_fds e.(readers))
                   (eloop_sock_table_set_fds e.(writers)) (eloop_sock_table_set_fds e.(exceptions)) tv w.(host) in
  (r, on_el (fun e => foldl (fun e s => eloop_handle_signal s e) e r.(sel_signals)) (w <| host := v |>)).

(** The first timeout, when it is due. *)
Definition fire_timeout w : world :=
  match w.(el).(timeout) with
  | [] => w
  | t :: rest =>
      let '(now, w) := gettime w in
      if negb (os_reltime_before now t.(time)) then
        calling (CallTimeout now t) (timeout_handler t.(t_handler) t.(t_eloop_data) t.(t_user_data))
          (on_el (fun e => e <| timeout := rest |>) w)
      else w
  end.

Definition dispatch_all (r : select_result) w : world :=
  eloop_sock_table_dispatch EVENT_TYPE_EXCEPTION r.(efds)
    (eloop_sock_table_dispatch EVENT_TYPE_WRITE r.(wfds)
      (eloop_sock_table_dispatch EVENT_TYPE_READ r.(rfds) w)).

(** How a pass ends: the loop goes on, is left, or is left by [goto out]. *)
Inductive pass_end := Continue | Break | Out.

(** The body of the [while]. *)
Definition run_pass w : world * pass_end :=
  let pending := w.(el).(pending_terminate) in
  let w := if pending then eloop_process_pending_signals w else w in
  if pending && w.(el).(terminate) then (w, Break)
  else
    let '(tv, w) := wait_time w in
    let '(r, w) := wait_select tv w in
    if (r.(sel_res) <? 0) && negb (r.(sel_errno) =? EINTR) && negb (r.(sel_errno) =? 0) then (w, Out)
    else
      let w := on_el clear_all_changed w in
      let w := eloop_process_pending_signals w in
      let w := fire_timeout w in
      if r.(sel_res) <=? 0 then (w, Continue)
      else if any_changed w.(el) then (w, Continue)
      else (dispatch_all r w, Continue).

(** The condition of the [while]. *)
Definition run_again e : bool :=
  negb e.(terminate) &&
  (negb (bool_decide (e.(timeout) = [])) || negb (bool_decide (e.(readers).(table) = [])) ||
   negb (bool_decide (e.(writers).(table) = [])) || negb (bool_decide (e.(exceptions).(table) = []))).

(** [eloop_run], for at most [fuel] passes; [None] when it still runs. *)
Fixpoint run_loop (fuel : nat) w : option world :=
  if run_again w.(el) then
    match fuel with
    | O => None
    | S fuel =>
        match run_pass w with
        | (w, Continue) => run_loop fuel w
        | (w, Break) => Some (on_el (fun e => e <| terminate := false |>) w)
        | (w, Out) => Some w
        end
    end
  else Some (on_el (fun e => e <| terminate := false |>) w).

(** The three sets must be allocated first. *)
Definition eloop_run (malloc_ok : bool) (fuel : nat) w : option world :=
  if malloc_ok then run_loop fuel w else Some w.

End run.
Arguments world env : clear implicits.

(** ** Times as microseconds *)

Definition us (t : os_reltime) : Z := t.(sec) * 1000000 + t.(usec).

(** What a monotonic clock shows. *)
Definition sane (t : os_reltime) : Prop := 0 <= t.(sec) < 2 ^ 63 /\ 0 <= t.(usec) < 1000000.

Lemma s64_small x : - 2 ^ 63 <= x < 2 ^ 63 -> s64 x = x.
Proof.
  intros H. unfold s64, u64. destruct (Z.ltb_spec (x mod 2 ^ 64) (2 ^ 63)) as [L|L]; dlia.
Qed.

Lemma s64_wrap x : 2 ^ 63 <= x < 2 ^ 64 -> s64 x = x - 2 ^ 64.
Proof.
  intros H. unfold s64, u64. destruct (Z.ltb_spec (x mod 2 ^ 64) (2 ^ 63)) as [L|L]; dlia.
Qed.

Lemma before_us a b : sane a -> sane b -> os_reltime_before a b = (us a <? us b).
Proof.
  unfold sane, us, os_reltime_before. intros Ha Hb.
  destruct (Z.ltb_spec a.(sec) b.(sec)), (Z.eqb_spec a.(sec) b.(sec)), (Z.ltb_spec a.(usec) b.(usec)),
    (Z.ltb_spec (a.(sec) * 1000000 + a.(usec)) (b.(sec) * 1000000 + b.(usec)));
    cbn [orb andb]; lia.
Qed.

Lemma sub_us a b : sane a -> sane b -> us (os_reltime_sub a b) = us a - us b /\ 0 <= (os_reltime_sub a b).(usec) < 1000000.
Proof.
  unfold sane, us, os_reltime_sub. intros Ha Hb.
  rewrite (s64_small (a.(sec) - _)), (s64_small (a.(usec) - _)) by lia.
  destruct (Z.ltb_spec (a.(usec) - b.(usec)) 0); cbn [sec usec]; [rewrite s64_small by lia|]; lia.
Qed.

Lemma s64_add a b : s64 (s64 a + b) = s64 (a + b).
Proof.
  unfold s64, u64.
  destruct (Z.ltb_spec (a mod 2 ^ 64) (2 ^ 63)); rewrite ?Z.add_mod_idemp_l by lia; [done|].
  replace (a mod 2 ^ 64 - 2 ^ 64 + b) with (a mod 2 ^ 64 + b + (-1) * 2 ^ 64) by lia.
  by rewrite Z_mod_plus_full, Z.add_mod_idemp_l by lia.
Qed.

(** The carry divides. *)
Lemma carry_div fuel s u :
  0 <= u -> - 2 ^ 63 <= s < 2 ^ 63 -> fuel = Z.to_nat (u / 1000000) ->
  carry fuel (mkTime s u) = mkTime (s64 (s + u / 1000000)) (u mod 1000000).
Proof.
  revert s u. induction fuel as [|fuel IH]; intros s u Hu Hs Hf; cbn [carry sec usec].
  - assert (u / 1000000 = 0) as E by dlia. rewrite E, s64_small by lia. f_equal; dlia.
  - assert (1000000 <= u) by dlia. destruct (Z.leb_spec 1000000 u); [|lia].
    rewrite IH; [|dlia| |dlia].
    + rewrite s64_add. f_equal; [f_equal|]; dlia.
    + unfold s64. pose proof (u64_range (s + 1)). destruct (Z.ltb_spec (u64 (s + 1)) (2 ^ 63)); lia.
Qed.

(** A timeout is due the time asked for after [now]; past the end of the
    clock's range it is dropped. *)
Lemma deadline_exact now secs usecs :
  sane now -> is_u32 secs -> is_u32 usecs ->
  let s := now.(sec) + secs + (now.(usec) + usecs) / 1000000 in
  deadline now secs usecs = if s <? 2 ^ 63 then Some (mkTime s ((now.(usec) + usecs) mod 1000000)) else None.
Proof.
  unfold sane. intros [Hn Hu] Hs Hus. cbn zeta. unfold deadline. rewrite (s64_small (_ + usecs)) by lia.
  destruct (Z.lt_ge_cases (now.(sec) + secs) (2 ^ 63)).
  - rewrite (s64_small (_ + secs)) by lia. destruct (Z.ltb_spec (now.(sec) + secs) now.(sec)); [lia|].
    rewrite carry_div by lia. cbn [sec].
    destruct (Z.ltb_spec (now.(sec) + secs + (now.(usec) + usecs) / 1000000) (2 ^ 63)).
    + rewrite s64_small by dlia. by destruct (Z.ltb_spec (now.(sec) + secs + (now.(usec) + usecs) / 1000000) now.(sec)); [dlia|].
    + rewrite s64_wrap by dlia.
      by destruct (Z.ltb_spec (now.(sec) + secs + (now.(usec) + usecs) / 1000000 - 2 ^ 64) now.(sec)); [|dlia].
  - rewrite s64_wrap by lia. destruct (Z.ltb_spec (now.(sec) + secs - 2 ^ 64) now.(sec)); [|lia].
    destruct (Z.ltb_spec (now.(sec) + secs + (now.(usec) + usecs) / 1000000) (2 ^ 63)); [dlia|done].
Qed.

Lemma deadline_us now secs usecs d :
  sane now -> is_u32 secs -> is_u32 usecs -> deadline now secs usecs = Some d ->
  us d = us now + secs * 1000000 + usecs /\ sane d.
Proof.
  intros Hn Hs Hu. rewrite deadline_exact by done. case_match eqn:E; [|done]. intros [= <-].
  apply Z.ltb_lt in E. unfold us, sane in *. cbn [sec usec]. dlia.
Qed.

(** ** Order *)

(** The list is in order of increasing time. *)
Definition earlier t t' : Prop := us t.(time) <= us t'.(time).
Definition timely (l : list eloop_timeout) : Prop :=
  Forall (fun t => sane t.(time)) l /\ StronglySorted earlier l.

(** The new timeout goes behind those due no later. *)
Lemma insert_split t l :
  timely l -> sane t.(time) ->
  exists l1 l2, l = l1 ++ l2 /\ insert_timeout t l = l1 ++ t :: l2 /\
    Forall (fun x => us x.(time) <= us t.(time)) l1 /\ Forall (fun x => us t.(time) < us x.(time)) l2.
Proof.
  intros [Hf Hs] Ht. induction Hs as [|x l Hl IH Hx]; cbn [insert_timeout].
  - exists [], []. auto.
  - apply Forall_cons in Hf as [Hsx Hf]. rewrite before_us by done.
    destruct (Z.ltb_spec (us t.(time)) (us x.(time))).
    + exists [], (x :: l). split; [done|]. split; [done|]. split; [constructor|].
      constructor; [done|]. eapply Forall_impl; [exact Hx|]. unfold earlier. intros y Hy. cbn. lia.
    + destruct (IH Hf) as (l1 & l2 & -> & -> & H1 & H2).
      exists (x :: l1), l2. auto.
Qed.

Lemma Forall_sublist {A} (P : A -> Prop) l k : k `sublist_of` l -> Forall P l -> Forall P k.
Proof. rewrite !Forall_forall. eauto using elem_of_sublist. Qed.

Lemma timely_sublist l k : k `sublist_of` l -> timely l -> timely k.
Proof.
  intros Hk [H1 H2]. split; [by eapply Forall_sublist|].
  revert H2. clear H1. induction Hk as [|x l k Hk IH|x l k Hk IH]; intros H2; [done| |].
  - inversion_clear H2. constructor; [by apply IH|]. by eapply Forall_sublist.
  - inversion_clear H2. by apply IH.
Qed.

Lemma timely_insert t l : timely l -> sane t.(time) -> timely (insert_timeout t l).
Proof.
  intros Hl Ht. destruct (insert_split t l Hl Ht) as (l1 & l2 & E & -> & H1 & H2). subst l.
  assert (T1 : timely l1) by (eapply timely_sublist; [|exact Hl]; by apply sublist_inserts_r).
  assert (T2 : timely l2) by (eapply timely_sublist; [|exact Hl]; by apply sublist_inserts_l).
  rewrite Forall_forall in H1. rewrite Forall_forall in H2. split.
  - apply Forall_app. split; [apply T1|]. constructor; [done|apply T2].
  - apply StronglySorted_app_2; [|apply T1|].
    + intros x y Hx Hy. apply H1 in Hx. unfold earlier. apply elem_of_cons in Hy as [->|Hy]; [done|].
      apply H2 in Hy. lia.
    + apply StronglySorted_cons. split; [|apply T2].
      apply Forall_forall. intros x Hx. apply H2 in Hx. unfold earlier. lia.
Qed.

(** ** Operations on timeouts *)

(** A registered timeout is due the requested time after the clock's
    reading, and goes behind every timeout due no later and before every other;
    nothing else changes.  A time past the range of the clock is dropped, and
    the caller is told so neither way. *)
Theorem eloop_register_timeout_inserts now secs usecs handler ed ud e :
  sane now -> is_u32 secs -> is_u32 usecs -> timely e.(timeout) ->
  let '(e', r) := eloop_register_timeout true (0, now) secs usecs handler ed ud e in
  r = 0 /\
  if now.(sec) + secs + (now.(usec) + usecs) / 1000000 <? 2 ^ 63 then
    exists tm l1 l2,
      us tm = us now + secs * 1000000 + usecs /\ e.(timeout) = l1 ++ l2 /\
      e' = e <| timeout := l1 ++ mkTimeout tm handler ed ud :: l2 |> /\
      Forall (fun x => us x.(time) <= us tm) l1 /\ Forall (fun x => us tm < us x.(time)) l2
  else e' = e.
Proof.
  intros Hn Hs Hu Ht. unfold eloop_register_timeout. cbn [negb].
  change (0 <? 0) with false. cbn iota.
  destruct (deadline now secs usecs) as [tm|] eqn:E; pose proof (deadline_exact now secs usecs Hn Hs Hu) as Ex;
    cbn zeta in Ex; rewrite E in Ex;
    destruct (now.(sec) + secs + (now.(usec) + usecs) / 1000000 <? 2 ^ 63); try done.
  split; [done|]. apply deadline_us in E as [E Hsane]; [|done..].
  destruct (insert_split (mkTimeout tm handler ed ud) e.(timeout)) as (l1 & l2 & Hl & Hi & H1 & H2); [done..|].
  exists tm, l1, l2. rewrite Hi. auto.
Qed.

Lemma register_timeout_frame ok clk secs usecs handler ed ud e :
  exists l, fst (eloop_register_timeout ok clk secs usecs handler ed ud e) = e <| timeout := l |> /\
    (sane (snd clk) -> is_u32 secs -> is_u32 usecs -> timely e.(timeout) ->
     timely l /\ forall x, x ∈ l -> x ∈ e.(timeout) \/ us (snd clk) <= us x.(time)).
Proof.
  unfold eloop_register_timeout. destruct clk as [r now]. cbn [snd].
  assert (Hid : exists l, e = e <| timeout := l |> /\
    (sane now -> is_u32 secs -> is_u32 usecs -> timely e.(timeout) ->
     timely l /\ forall x, x ∈ l -> x ∈ e.(timeout) \/ us now <= us x.(time))).
  { exists e.(timeout). split; [by destruct e|]. auto. }
  destruct ok; cbn [negb]; [|exact Hid]. destruct (r <? 0); [exact Hid|].
  destruct (deadline now secs usecs) as [tm|] eqn:E; [|exact Hid]. clear Hid.
  eexists. split; [reflexivity|]. intros Hn Hs Hu Ht. apply deadline_us in E as [E Hsane]; [|done..].
  split; [by apply timely_insert|]. intros x.
  destruct (insert_split (mkTimeout tm handler ed ud) e.(timeout)) as (l1 & l2 & Hl & Hi & H1 & H2); [done..|].
  rewrite Hi, Hl, !elem_of_app, elem_of_cons. intros [H|[->|H]]; [by auto| |by auto].
  right. cbn. rewrite E. lia.
Qed.

Lemma cancel_loop_filter handler ed ud l r :
  cancel_loop handler ed ud l r =
  (filter (fun t => cancels handler ed ud t = false) l,
   r + zlen (filter (fun t => cancels handler ed ud t = true) l)).
Proof.
  revert r. induction l as [|t l IH]; intros r; cbn [cancel_loop]; [cbn; f_equal; lia|].
  rewrite !filter_cons. destruct (cancels handler ed ud t) eqn:E; rewrite IH.
  - rewrite decide_False by congruence. rewrite decide_True by done. cbn [length]. f_equal. lia.
  - rewrite decide_True by done. rewrite decide_False by congruence. done.
Qed.

(** The guard of the cancellation, as a proposition. *)
Definition matches (handler ed ud : Z) t : Prop :=
  t.(t_handler) = handler /\ (t.(t_eloop_data) = ed \/ ed = ELOOP_ALL_CTX) /\
  (t.(t_user_data) = ud \/ ud = ELOOP_ALL_CTX).

Lemma cancels_spec handler ed ud t : cancels handler ed ud t = true <-> matches handler ed ud t.
Proof. unfold cancels, matches. rewrite !andb_true_iff, !orb_true_iff, !Z.eqb_eq. tauto. Qed.

Lemma cancels_false handler ed ud t : cancels handler ed ud t = false <-> ~ matches handler ed ud t.
Proof. by rewrite <- cancels_spec, not_true_iff_false. Qed.

(** Cancelling removes the timeouts of the handler with the given
    contexts, where [ELOOP_ALL_CTX] matches all, returns how many there were,
    and leaves the others in their order. *)
Theorem eloop_cancel_timeout_removes handler ed ud e :
  let '(e', removed) := eloop_cancel_timeout handler ed ud e in
  e' = e <| timeout := e'.(timeout) |> /\ e'.(timeout) `sublist_of` e.(timeout) /\
  (forall t, t ∈ e'.(timeout) <-> t ∈ e.(timeout) /\ ~ matches handler ed ud t) /\
  removed = zlen e.(timeout) - zlen e'.(timeout).
Proof.
  unfold eloop_cancel_timeout. rewrite cancel_loop_filter. cbn zeta.
  assert (El : forall l, timeout (e <| timeout := l |>) = l) by done. rewrite !El. clear El.
  split; [done|]. split; [apply sublist_filter|]. split.
  - intros t. rewrite list_elem_of_filter, cancels_false. tauto.
  - generalize e.(timeout). intros l.
    induction l as [|t l IH]; [done|]. rewrite !filter_cons.
    destruct (cancels handler ed ud t); repeat case_decide; try done; cbn [length]; lia.
Qed.

(** What depleting and replenishing do to the timeouts that match. *)
Definition reset_timeout (ok : bool) (clk : reading) (secs usecs handler ed ud : Z) e : eloop_data :=
  fst (eloop_register_timeout ok clk secs usecs handler ed ud (fst (eloop_cancel_timeout handler ed ud e))).

Lemma deplete_reset ok clk clk2 secs usecs handler ed ud e :
  eloop_deplete_timeout ok clk clk2 secs usecs handler ed ud e =
  match List.find (is_timeout handler ed ud) e.(timeout) with
  | None => (e, -1)
  | Some tmp =>
      if os_reltime_before (mkTime secs usecs) (os_reltime_sub tmp.(time) (snd clk))
      then (reset_timeout ok clk2 (u32 secs) (u32 usecs) handler ed ud e, 1) else (e, 0)
  end.
Proof.
  unfold eloop_deplete_timeout, reset_timeout. case_match; [|done]. case_match; [|done].
  destruct (eloop_cancel_timeout handler ed ud e) as [e1 r1]. cbn [fst].
  by destruct (eloop_register_timeout _ _ _ _ _ _ _ e1).
Qed.

Lemma replenish_reset ok clk clk2 secs usecs handler ed ud e :
  eloop_replenish_timeout ok clk clk2 secs usecs handler ed ud e =
  match List.find (is_timeout handler ed ud) e.(timeout) with
  | None => (e, -1)
  | Some tmp =>
      if os_reltime_before (os_reltime_sub tmp.(time) (snd clk)) (mkTime secs usecs)
      then (reset_timeout ok clk2 (u32 secs) (u32 usecs) handler ed ud e, 1) else (e, 0)
  end.
Proof.
  unfold eloop_replenish_timeout, reset_timeout. case_match; [|done]. case_match; [|done].
  destruct (eloop_cancel_timeout handler ed ud e) as [e1 r1]. cbn [fst].
  by destruct (eloop_register_timeout _ _ _ _ _ _ _ e1).
Qed.

Lemma timely_filter (P : eloop_timeout -> Prop) `{!forall t, Decision (P t)} l : timely l -> timely (filter P l).
Proof. apply timely_sublist, sublist_filter. Qed.

Lemma reset_timeout_elem now secs usecs handler ed ud e :
  sane now -> is_u32 secs -> is_u32 usecs -> timely e.(timeout) ->
  now.(sec) + secs + (now.(usec) + usecs) / 1000000 < 2 ^ 63 ->
  exists tm, us tm = us now + secs * 1000000 + usecs /\
    forall t, t ∈ (reset_timeout true (0, now) secs usecs handler ed ud e).(timeout) <->
      (t ∈ e.(timeout) /\ ~ matches handler ed ud t) \/ t = mkTimeout tm handler ed ud.
Proof.
  intros Hn Hs Hu Ht Ho. unfold reset_timeout, eloop_register_timeout, eloop_cancel_timeout.
  rewrite cancel_loop_filter. cbn [negb fst]. change (0 <? 0) with false. cbn iota.
  destruct (deadline now secs usecs) as [tm|] eqn:E; pose proof (deadline_exact now secs usecs Hn Hs Hu) as Ex;
    cbn zeta in Ex; rewrite E in Ex; apply Z.ltb_lt in Ho; rewrite Ho in Ex; [|done].
  apply deadline_us in E as [E Hsane]; [|done..]. exists tm. split; [done|]. intros t. cbn.
  destruct (insert_split (mkTimeout tm handler ed ud) (filter (fun t => cancels handler ed ud t = false) e.(timeout)))
    as (l1 & l2 & Hl & -> & _); [by apply timely_filter|done|].
  rewrite <- cancels_false.
  assert (Hf : t ∈ l1 ++ l2 <-> t ∈ e.(timeout) /\ cancels handler ed ud t = false)
    by (rewrite <- Hl, list_elem_of_filter; tauto).
  rewrite <- Hf, !elem_of_app, elem_of_cons. tauto.
Qed.

(** A time of less than a second of microseconds, as the requests are. *)
Lemma requested_before secs usecs a b :
  is_u32 secs -> 0 <= usecs < 1000000 -> sane a -> sane b ->
  os_reltime_before (mkTime secs usecs) (os_reltime_sub a b) =
    (us b + secs * 1000000 + usecs <? us a) /\
  os_reltime_before (os_reltime_sub a b) (mkTime secs usecs) =
    (us a <? us b + secs * 1000000 + usecs).
Proof.
  intros Hs Hu Ha Hb. destruct (sub_us a b Ha Hb) as [E Hr]. unfold os_reltime_before. cbn [sec usec].
  set (d := os_reltime_sub a b) in *. unfold us in E at 1. split.
  - destruct (Z.ltb_spec secs d.(sec)), (Z.eqb_spec secs d.(sec)), (Z.ltb_spec usecs d.(usec)),
      (Z.ltb_spec (us b + secs * 1000000 + usecs) (us a)); cbn [orb andb]; lia.
  - destruct (Z.ltb_spec d.(sec) secs), (Z.eqb_spec d.(sec) secs), (Z.ltb_spec d.(usec) usecs),
      (Z.ltb_spec (us a) (us b + secs * 1000000 + usecs)); cbn [orb andb]; lia.
Qed.

(** Depleting changes nothing unless a timeout of the handler has more
    than the requested time left (less, for replenishing), and then replaces
    the timeouts of the handler by one that is due the requested time from
    now. *)
Theorem eloop_deplete_replenish now now2 secs usecs handler ed ud e :
  sane now -> sane now2 -> is_u32 secs -> 0 <= usecs < 1000000 -> timely e.(timeout) ->
  now2.(sec) + secs + 2 < 2 ^ 63 ->
  let wanted := secs * 1000000 + usecs in
  let reset e' := exists tm, us tm = us now2 + wanted /\
    forall t, t ∈ e'.(timeout) <->
      (t ∈ e.(timeout) /\ ~ matches handler ed ud t) \/ t = mkTimeout tm handler ed ud in
  match List.find (is_timeout handler ed ud) e.(timeout) with
  | None =>
      eloop_deplete_timeout true (0, now) (0, now2) secs usecs handler ed ud e = (e, -1) /\
      eloop_replenish_timeout true (0, now) (0, now2) secs usecs handler ed ud e = (e, -1)
  | Some tmp =>
      (let '(e', r) := eloop_deplete_timeout true (0, now) (0, now2) secs usecs handler ed ud e in
       if us now + wanted <? us tmp.(time) then r = 1 /\ reset e' else r = 0 /\ e' = e) /\
      (let '(e', r) := eloop_replenish_timeout true (0, now) (0, now2) secs usecs handler ed ud e in
       if us tmp.(time) <? us now + wanted then r = 1 /\ reset e' else r = 0 /\ e' = e)
  end.
Proof.
  intros Hn Hn2 Hs Hu Ht Ho wanted reset. rewrite deplete_reset, replenish_reset.
  destruct (List.find _ _) as [tmp|] eqn:E; [|done].
  assert (Hr : reset (reset_timeout true (0, now2) secs usecs handler ed ud e)).
  { unfold reset, wanted. rewrite Z.add_assoc. apply reset_timeout_elem; try done; [lia|unfold sane in Hn2; dlia]. }
  apply find_some in E as [Hin _]. destruct Ht as [Hf _]. rewrite List.Forall_forall in Hf. apply Hf in Hin.
  destruct (requested_before secs usecs tmp.(time) now) as [E1 E2]; [done..|].
  cbn [snd]. rewrite E1, E2.
  rewrite !u32_small by lia. unfold wanted. rewrite Z.add_assoc.
  split.
  - destruct (us now + secs * 1000000 + usecs <? us tmp.(time)); [by split|done].
  - destruct (us tmp.(time) <? us now + secs * 1000000 + usecs); [by split|done].
Qed.

(** ** The registry of sockets *)

(** What the records of the sockets must agree on: the total, and the largest
    descriptor, which is what bounds the sets of select(2). *)
Definition watched e : Prop :=
  e.(count) = zlen e.(readers).(table) + zlen e.(writers).(table) + zlen e.(exceptions).(table) /\
  forall ty s, s ∈ (eloop_get_sock_table ty e).(table) -> 0 <= s.(sock) <= e.(max_sock).

Lemma drop_sock_spec s l k :
  drop_sock s l = Some k -> exists x l1 l2, l = l1 ++ x :: l2 /\ k = l1 ++ l2 /\ x.(sock) = s /\
    Forall (fun y => y.(sock) <> s) l1.
Proof.
  revert k. induction l as [|x l IH]; intros k; cbn; [done|].
  destruct (Z.eqb_spec x.(sock) s).
  - intros [= <-]. exists x, [], l. auto.
  - destruct (drop_sock s l) as [r|]; [|done]. intros [= <-].
    destruct (IH r eq_refl) as (y & l1 & l2 & -> & -> & Hy & Hl). exists y, (x :: l1), l2. auto.
Qed.

Lemma watched_add ok ty s handler ed ud e :
  0 <= s -> watched e -> watched (fst (eloop_sock_table_add_sock ok ty s handler ed ud e)).
Proof.
  intros Hs [Hc Hm]. unfold eloop_sock_table_add_sock. destruct ok; cbn [negb fst]; [|done].
  set (m := if e.(max_sock) <? s then s else e.(max_sock)).
  assert (Hmax : e.(max_sock) <= m /\ s <= m) by (unfold m; destruct (Z.ltb_spec e.(max_sock) s); lia).
  split.
  - destruct ty; cbn; rewrite length_app; cbn [length]; lia.
  - intros ty' x Hx. change (max_sock _) with m.
    assert (Hx' : x ∈ (eloop_get_sock_table ty' e).(table) \/ x = mkSock s handler ed ud).
    { destruct ty, ty'; cbn in Hx |- *; rewrite ?elem_of_app, ?list_elem_of_singleton in Hx; tauto. }
    destruct Hx' as [Hx'| ->]; [apply Hm in Hx'; lia|cbn; lia].
Qed.

Lemma watched_remove ty s e : watched e -> watched (eloop_sock_table_remove_sock ty s e).
Proof.
  intros [Hc Hm]. unfold eloop_sock_table_remove_sock.
  destruct (drop_sock _ _) as [k|] eqn:E; [|done].
  apply drop_sock_spec in E as (x & l1 & l2 & E & -> & _). split.
  - destruct ty; cbn in E |- *; rewrite E, ?length_app in Hc; rewrite length_app; cbn [length] in Hc; lia.
  - intros ty' y Hy. replace (max_sock _) with e.(max_sock) by (by destruct ty). apply (Hm ty').
    destruct ty, ty'; cbn in Hy, E |- *; try done; rewrite E; revert Hy; rewrite !elem_of_app, elem_of_cons; tauto.
Qed.

Lemma watched_same e e' :
  e'.(count) = e.(count) -> e'.(max_sock) = e.(max_sock) ->
  (forall ty, (eloop_get_sock_table ty e').(table) = (eloop_get_sock_table ty e).(table)) ->
  watched e -> watched e'.
Proof.
  intros H1 H2 H3 [Hc Hm]. split.
  - rewrite H1, Hc. pose proof (H3 EVENT_TYPE_READ). pose proof (H3 EVENT_TYPE_WRITE).
    pose proof (H3 EVENT_TYPE_EXCEPTION). cbn in *. congruence.
  - intros ty s. rewrite H3, H2. apply Hm.
Qed.

(** ** What handlers may do *)

(** One call of the interface, with the clock at or after [lo], or a signal. *)
Inductive api (lo : Z) e : eloop_data -> Prop :=
| api_register ok r now secs usecs handler ed ud :
    sane now -> lo <= us now -> is_u32 secs -> is_u32 usecs ->
    api lo e (fst (eloop_register_timeout ok (r, now) secs usecs handler ed ud e))
| api_cancel handler ed ud : api lo e (fst (eloop_cancel_timeout handler ed ud e))
| api_cancel_one clk handler ed ud : api lo e (fst (fst (eloop_cancel_timeout_one clk handler ed ud e)))
| api_deplete ok clk r now secs usecs handler ed ud :
    sane now -> lo <= us now ->
    api lo e (fst (eloop_deplete_timeout ok clk (r, now) secs usecs handler ed ud e))
| api_replenish ok clk r now secs usecs handler ed ud :
    sane now -> lo <= us now ->
    api lo e (fst (eloop_replenish_timeout ok clk (r, now) secs usecs handler ed ud e))
| api_register_sock ok s ty handler ed ud :
    0 <= s -> api lo e (fst (eloop_sock_table_add_sock ok ty s handler ed ud e))
| api_unregister_sock s ty : api lo e (eloop_unregister_sock s ty e)
| api_signal s : api lo e (eloop_handle_signal s e)
| api_terminate : api lo e (eloop_terminate e).

(** The timeouts are in order, and those a call adds are due at [lo] or later. *)
Definition well_kept e : Prop := timely e.(timeout) /\ watched e.

(** Due at [lo] or later, or there before. *)
Definition later (lo : Z) (l l' : list eloop_timeout) : Prop :=
  forall t, t ∈ l' -> t ∈ l \/ lo <= us t.(time).

Lemma later_refl lo l : later lo l l.
Proof. intros t Ht. by left. Qed.

Lemma later_trans lo l1 l2 l3 : later lo l1 l2 -> later lo l2 l3 -> later lo l1 l3.
Proof. intros H12 H23 t Ht. destruct (H23 t Ht) as [H|]; [by apply H12|by right]. Qed.

(** An operation that only rearranges the timeouts. *)
Lemma well_kept_timeouts lo e l :
  well_kept e -> timely l -> later lo e.(timeout) l ->
  well_kept (e <| timeout := l |>) /\ later lo e.(timeout) (e <| timeout := l |>).(timeout).
Proof. intros [_ Hw] Hl Hla. done. Qed.

Lemma register_keeps lo ok r now secs usecs handler ed ud e :
  sane now -> lo <= us now -> is_u32 secs -> is_u32 usecs -> well_kept e ->
  let e' := fst (eloop_register_timeout ok (r, now) secs usecs handler ed ud e) in
  well_kept e' /\ later lo e.(timeout) e'.(timeout).
Proof.
  intros Hn Hlo Hs Hu Hk.
  destruct (register_timeout_frame ok (r, now) secs usecs handler ed ud e) as (l & -> & Hl).
  destruct (Hl Hn Hs Hu (proj1 Hk)) as [Ht Hin]. apply well_kept_timeouts; [done..|].
  intros t H. destruct (Hin t H) as [|H']; [by left|right; cbn in H'; lia].
Qed.

Lemma cancel_keeps lo handler ed ud e :
  well_kept e ->
  let e' := fst (eloop_cancel_timeout handler ed ud e) in well_kept e' /\ later lo e.(timeout) e'.(timeout).
Proof.
  intros Hk. unfold eloop_cancel_timeout. rewrite cancel_loop_filter. cbn [fst].
  apply well_kept_timeouts; [done|apply timely_filter, Hk|].
  intros t Ht. left. by apply list_elem_of_filter in Ht as [_ Ht].
Qed.

Lemma reset_keeps lo ok r now secs usecs handler ed ud e :
  sane now -> lo <= us now -> is_u32 secs -> is_u32 usecs -> well_kept e ->
  let e' := reset_timeout ok (r, now) secs usecs handler ed ud e in
  well_kept e' /\ later lo e.(timeout) e'.(timeout).
Proof.
  intros Hn Hlo Hs Hu Hk. destruct (cancel_keeps lo handler ed ud e Hk) as [Hk1 H1].
  destruct (register_keeps lo ok r now secs usecs handler ed ud _ Hn Hlo Hs Hu Hk1) as [Hk2 H2].
  split; [done|]. by eapply later_trans.
Qed.

Lemma remove_first_sublist f l x k : remove_first f l = Some (x, k) -> k `sublist_of` l.
Proof.
  revert k. induction l as [|t l IH]; intros k; cbn; [done|].
  destruct (f t); [intros [= -> ->]; by constructor|].
  destruct (remove_first f l) as [[y r]|] eqn:E; [|done]. intros [= -> <-]. constructor. by apply IH.
Qed.

Lemma api_keeps lo e e' : api lo e e' -> well_kept e -> well_kept e' /\ later lo e.(timeout) e'.(timeout).
Proof.
  intros [] Hk.
  - by apply register_keeps.
  - by apply cancel_keeps.
  - unfold eloop_cancel_timeout_one. destruct (remove_first _ _) as [[t l]|] eqn:E; cbn [fst];
      [|split; [done|apply later_refl]].
    apply remove_first_sublist in E. apply well_kept_timeouts; [done|by eapply timely_sublist, Hk|].
    intros x Hx. left. by eapply elem_of_sublist.
  - rewrite deplete_reset. repeat case_match; cbn [fst]; try (split; [done|apply later_refl]).
    apply reset_keeps; auto using u32_range.
  - rewrite replenish_reset. repeat case_match; cbn [fst]; try (split; [done|apply later_refl]).
    apply reset_keeps; auto using u32_range.
  - assert (Ht : (fst (eloop_sock_table_add_sock ok ty s handler ed ud e)).(timeout) = e.(timeout))
      by (destruct ok, ty; done).
    rewrite Ht. split; [|apply later_refl]. split; [rewrite Ht; apply Hk|by apply watched_add; [|apply Hk]].
  - assert (Ht : (eloop_unregister_sock s ty e).(timeout) = e.(timeout)).
    { unfold eloop_unregister_sock, eloop_sock_table_remove_sock. destruct (drop_sock _ _), ty; done. }
    rewrite Ht. split; [|apply later_refl]. split; [rewrite Ht; apply Hk|by apply watched_remove, Hk].
  - assert (Ht : (eloop_handle_signal s e).(timeout) = e.(timeout)) by (unfold eloop_handle_signal; by case_match).
    rewrite Ht. split; [|apply later_refl]. split; [rewrite Ht; apply Hk|].
    revert Hk. intros [_ Hk]. revert Hk. apply watched_same; unfold eloop_handle_signal; by case_match.
  - split; [|apply later_refl]. split; [apply Hk|]. revert Hk. intros [_ Hk]. revert Hk. by apply watched_same; [..|intros []].
Qed.

(** ** Runs of the loop *)

(** What is relied on: the clock does not go back, and handlers touch the
    record only through its interface. *)
Class HostLaws (env : Type) `{!Host env} := {
  clock : env -> Z;
  reading_law v : let '((_, now), v') := os_get_reltime v in sane now /\ clock v <= us now <= clock v';
  select_law n r w x tv v : clock v <= clock (snd (os_select n r w x tv v));
  timeout_law h ed ud e v :
    let '(e', v') := timeout_handler h ed ud (e, v) in clock v <= clock v' /\ rtc (api (clock v)) e e';
  sock_law h s ed ud e v :
    let '(e', v') := sock_handler h s ed ud (e, v) in clock v <= clock v' /\ rtc (api (clock v)) e e';
  signal_law h s ud e v :
    let '(e', v') := signal_handler h s ud (e, v) in clock v <= clock v' /\ rtc (api (clock v)) e e'
}.

(** The deadlines of the timeouts called, in the order of the calls. *)
Definition fired (l : list call) : list Z :=
  omap (fun c => match c with CallTimeout _ t => Some (us t.(time)) | _ => None end) l.

Definition on_time (c : call) : Prop :=
  match c with CallTimeout now t => us t.(time) <= us now | _ => True end.

Definition is_timeout_call (c : call) : bool :=
  match c with CallTimeout _ _ => true | _ => false end.

Section laws.
Context {env : Type} `{!Host env} `{!HostLaws env}.
Implicit Types w : world env.

(** What a run keeps: the record in order, the timeouts fired so far in the
    order of their deadlines, none early, none later than what is pending. *)
Definition orderly w : Prop :=
  well_kept w.(el) /\ StronglySorted Z.le (fired w.(calls)) /\ Forall on_time w.(calls) /\
  forall d, d ∈ fired w.(calls) -> d <= clock w.(host) /\ forall t, t ∈ w.(el).(timeout) -> d <= us t.(time).

Lemma rtc_api_keeps lo e e' :
  rtc (api lo) e e' -> well_kept e -> well_kept e' /\ later lo e.(timeout) e'.(timeout).
Proof.
  induction 1 as [e|e e1 e2 H _ IH]; intros Hk; [split; [done|apply later_refl]|].
  destruct (api_keeps _ _ _ H Hk) as [Hk1 H1]. destruct (IH Hk1) as [Hk2 H2].
  split; [done|]. by eapply later_trans.
Qed.

(** Time passes, the record changes as handlers change it, and something other
    than a timeout is called. *)
Lemma orderly_moves w e' v' cs :
  orderly w -> well_kept e' -> later (clock w.(host)) w.(el).(timeout) e'.(timeout) ->
  clock w.(host) <= clock v' -> forallb (fun c => negb (is_timeout_call c)) cs = true ->
  orderly (mkWorld e' v' (w.(calls) ++ cs)).
Proof.
  intros (_ & Hs & Ht & Hd) Hk Hl Hc Hn.
  assert (Hf : fired cs = [] /\ Forall on_time cs).
  { clear -Hn. induction cs as [|c cs IH]; [done|]. cbn in Hn. apply andb_true_iff in Hn as [Hc Hn].
    destruct (IH Hn) as [IH1 IH2]. destruct c; try done; (split; [done|]); by constructor. }
  destruct Hf as [Hf Ho]. unfold orderly. cbn [el host calls].
  assert (E : fired (w.(calls) ++ cs) = fired w.(calls))
    by (unfold fired in *; by rewrite omap_app, Hf, app_nil_r).
  rewrite E. split; [done|]. split; [done|]. split; [by apply Forall_app|].
  intros d Hin. destruct (Hd d Hin) as [H1 H2]. split; [lia|].
  intros t Hin'. destruct (Hl t Hin') as [H|H]; [by apply H2|lia].
Qed.

Lemma orderly_calling c h w :
  is_timeout_call c = false ->
  (let '(e', v') := h (w.(el), w.(host)) in
   clock w.(host) <= clock v' /\ rtc (api (clock w.(host))) w.(el) e') ->
  orderly w -> orderly (calling c h w).
Proof.
  intros Hc Hh Ho. unfold calling. destruct (h (el w, host w)) as [e' v']. destruct Hh as [H1 H2].
  destruct (rtc_api_keeps _ _ _ H2 (proj1 Ho)) as [Hk Hl].
  apply orderly_moves; try done. cbn. by rewrite Hc.
Qed.

(** The record changes but for its timeouts. *)
Lemma orderly_on_el f w :
  well_kept (f w.(el)) -> (f w.(el)).(timeout) = w.(el).(timeout) -> orderly w -> orderly (on_el f w).
Proof.
  intros Hk Ht (_ & Hs & Hd). unfold orderly, on_el. cbn [el host calls set_field]. by rewrite Ht.
Qed.

Lemma orderly_gettime w :
  orderly w -> let '(now, w') := gettime w in
  orderly w' /\ w'.(el) = w.(el) /\ w'.(calls) = w.(calls) /\ sane now /\
  clock w.(host) <= us now <= clock w'.(host).
Proof.
  intros Ho. unfold gettime. pose proof (reading_law w.(host)) as Hr.
  destruct (os_get_reltime (host w)) as [[r now] v']. destruct Hr as [Hn Hc].
  split; [|by auto].
  pose proof (orderly_moves w w.(el) v' [] Ho (proj1 Ho) (later_refl _ _) ltac:(lia) eq_refl) as H.
  by rewrite app_nil_r in H.
Qed.

Lemma well_kept_same e e' :
  e'.(timeout) = e.(timeout) -> e'.(count) = e.(count) -> e'.(max_sock) = e.(max_sock) ->
  (forall ty, (eloop_get_sock_table ty e').(table) = (eloop_get_sock_table ty e).(table)) ->
  well_kept e -> well_kept e'.
Proof.
  intros H1 H2 H3 H4 [Ht Hw]. split; [by rewrite H1|]. by apply (watched_same e).
Qed.

Lemma orderly_signal_loop fuel i w : orderly w -> orderly (signal_loop fuel i w).
Proof.
  revert i w. induction fuel as [|fuel IH]; intros i w Ho; cbn [signal_loop]; [done|].
  destruct (_ !! i) as [g|]; [|done]. destruct (g_signaled g =? 0); [by apply IH|].
  apply IH. apply orderly_calling; [done|apply signal_law|].
  apply orderly_on_el; [|done|done]. eapply well_kept_same, Ho; try done; by intros [].
Qed.

Lemma orderly_process w : orderly w -> orderly (eloop_process_pending_signals w).
Proof.
  intros Ho. unfold eloop_process_pending_signals. destruct (_ =? 0); [done|].
  apply orderly_signal_loop, orderly_on_el; [|done|done].
  eapply well_kept_same, Ho; try done; by intros [].
Qed.

Lemma orderly_dispatch_loop ty fds fuel i w : orderly w -> orderly (dispatch_loop ty fds fuel i w).
Proof.
  revert i w. induction fuel as [|fuel IH]; intros i w Ho; cbn [dispatch_loop]; [done|].
  destruct (_ !! i) as [s|]; [|done]. destruct (bool_decide _); [|by apply IH].
  assert (Hc : orderly (calling (CallSock ty s) (sock_handler (s_handler s) (sock s) (s_eloop_data s) (s_user_data s)) w))
    by (apply orderly_calling; [done|apply sock_law|done]).
  destruct (changed _); [done|by apply IH].
Qed.

Lemma orderly_clear ty w : orderly w -> orderly (on_el (clear_changed ty) w).
Proof.
  intros Ho. apply orderly_on_el; [|by destruct ty|done].
  eapply well_kept_same, Ho; unfold clear_changed; destruct ty; try done; by intros [].
Qed.

Lemma orderly_dispatch ty fds w : orderly w -> orderly (eloop_sock_table_dispatch ty fds w).
Proof. intros Ho. by apply orderly_dispatch_loop, orderly_clear. Qed.

Lemma orderly_wait_select tv w : orderly w -> orderly (snd (wait_select tv w)).
Proof.
  intros Ho. unfold wait_select. set (n := _ + 1).
  pose proof (select_law n (eloop_sock_table_set_fds w.(el).(readers)) (eloop_sock_table_set_fds w.(el).(writers))
    (eloop_sock_table_set_fds w.(el).(exceptions)) tv w.(host)) as Hc.
  destruct (os_select _ _ _ _ _ _) as [r v']. cbn [snd] in *.
  pose proof (orderly_moves w w.(el) v' [] Ho (proj1 Ho) (later_refl _ _) Hc eq_refl) as H.
  rewrite app_nil_r in H. set (w1 := w <| host := v' |>). change (orderly w1) in H.
  assert (Hf : forall l e, well_kept e -> well_kept (foldl (fun e s => eloop_handle_signal s e) e l) /\
     (foldl (fun e s => eloop_handle_signal s e) e l).(timeout) = e.(timeout)).
  { induction l as [|s l IH]; intros e He; [done|]. cbn [foldl].
    destruct (api_keeps 0 _ _ (api_signal 0 e s) He) as [Hk _]. destruct (IH _ Hk) as [H1 H2].
    split; [done|]. rewrite H2. unfold eloop_handle_signal. by case_match. }
  destruct (Hf r.(sel_signals) w1.(el) (proj1 H)). by apply orderly_on_el.
Qed.

Lemma fired_snoc l now t : fired (l ++ [CallTimeout now t]) = fired l ++ [us t.(time)].
Proof. unfold fired. by rewrite omap_app. Qed.

(** Firing takes the first timeout off the list before its handler runs. *)
Lemma orderly_fire w : orderly w -> orderly (fire_timeout w).
Proof.
  intros Ho. unfold fire_timeout. destruct (timeout (el w)) as [|t rest] eqn:El; [done|].
  pose proof (orderly_gettime w Ho) as Hg. destruct (gettime w) as [now w1].
  destruct Hg as (Ho1 & He & Hcs & Hn & Hc). rewrite <- He in El. clear He Hcs Ho.
  destruct Ho1 as (Hk & Hs & Ht & Hd). destruct (Hk) as [[Hsane Hsort] Hw]. rewrite El in Hsane, Hsort, Hd.
  apply Forall_cons in Hsane as [Hst Hsane]. apply StronglySorted_cons in Hsort as [Hearl Hsort].
  rewrite before_us by done. destruct (Z.ltb_spec (us now) (us t.(time))) as [|Hdue]; cbn [negb].
  { split; [done|]. split; [done|]. split; [done|]. by rewrite El. }
  unfold calling. cbn [el host calls on_el set_field]. set (e1 := _ <| timeout := rest |>).
  pose proof (timeout_law t.(t_handler) t.(t_eloop_data) t.(t_user_data) e1 w1.(host)) as Hl.
  change (timeout_handler _ _ _ _) with (timeout_handler t.(t_handler) t.(t_eloop_data) t.(t_user_data) (e1, w1.(host))).
  destruct (timeout_handler _ _ _ _) as [e' v']. destruct Hl as [Hv Hr].
  assert (Hk1 : well_kept e1) by (split; [split; [exact Hsane|exact Hsort]|]; revert Hw; by apply watched_same; [..|intros []]).
  destruct (rtc_api_keeps _ _ _ Hr Hk1) as [Hk' Hlater].
  unfold orderly. cbn [el host calls]. change (calls (on_el _ w1)) with (calls w1). rewrite fired_snoc.
  split; [done|]. split; [|split].
  - apply StronglySorted_app_2; [|done|by repeat constructor].
    intros x y Hx Hy. apply list_elem_of_singleton in Hy as ->. apply (Hd x Hx). by left.
  - apply Forall_app. split; [done|]. by repeat constructor.
  - intros d Hin. apply elem_of_app in Hin.
    assert (Hdc : d <= clock w1.(host) /\ forall x, x ∈ rest -> d <= us x.(time)).
    { destruct Hin as [Hin|Hin].
      - destruct (Hd d Hin) as [H1 H2]. split; [done|]. intros x Hx. apply H2. by right.
      - apply list_elem_of_singleton in Hin as ->. split; [lia|].
        rewrite Forall_forall in Hearl. intros x Hx. by apply Hearl. }
    destruct Hdc as [H1 H2]. split; [lia|]. intros x Hx.
    destruct (Hlater x Hx) as [Hx'|]; [by apply H2|lia].
Qed.

Lemma orderly_wait_time w : orderly w -> orderly (snd (wait_time w)).
Proof.
  intros Ho. unfold wait_time. destruct (timeout (el w)); [done|].
  pose proof (orderly_gettime w Ho) as Hg. destruct (gettime w) as [now w1]. apply Hg.
Qed.

Lemma orderly_clear_all w : orderly w -> orderly (on_el clear_all_changed w).
Proof.
  intros Ho. apply (orderly_clear EVENT_TYPE_READ), (orderly_clear EVENT_TYPE_WRITE),
    (orderly_clear EVENT_TYPE_EXCEPTION) in Ho. exact Ho.
Qed.

Lemma orderly_pass w : orderly w -> orderly (fst (run_pass w)).
Proof.
  intros Ho. unfold run_pass. set (w1 := if pending_terminate (el w) then _ else w).
  assert (H1 : orderly w1) by (unfold w1; case_match; [by apply orderly_process|done]).
  destruct (pending_terminate (el w) && terminate (el w1)); [done|].
  apply orderly_wait_time in H1. destruct (wait_time w1) as [tv w2]. cbn [snd] in H1.
  apply (orderly_wait_select tv) in H1. destruct (wait_select tv w2) as [r w3]. cbn [snd] in H1.
  destruct (_ && _ && _); [done|].
  apply orderly_clear_all, orderly_process, orderly_fire in H1.
  destruct (_ <=? 0); [done|]. destruct (any_changed _); [done|].
  by apply orderly_dispatch, orderly_dispatch, orderly_dispatch.
Qed.

(** C5: at every moment of a run of the event loop, however long and whatever
    handlers register, cancel, deplete, replenish or unregister, the timeouts
    that were called were called in the order of their deadlines and none
    before its deadline; the pending ones are in order, and the registered
    sockets are those select(2) is told to watch. *)
Theorem eloop_run_in_order w w' :
  well_kept w.(el) -> w.(calls) = [] -> rtc (fun u v => fst (run_pass u) = v) w w' ->
  StronglySorted Z.le (fired w'.(calls)) /\ Forall on_time w'.(calls) /\ timely w'.(el).(timeout) /\
  (forall ty s, s ∈ (eloop_get_sock_table ty w'.(el)).(table) -> 0 <= s.(sock) < w'.(el).(max_sock) + 1).
Proof.
  intros Hk Hc Hr. assert (Ho : orderly w).
  { unfold orderly. rewrite Hc. split; [done|]. split; [constructor|]. split; [constructor|].
    intros d Hd. by apply elem_of_nil in Hd. }
  assert (Ho' : orderly w').
  { clear Hk Hc. induction Hr as [|u v x Hp _ IH]; [done|]. apply IH. rewrite <- Hp. by apply orderly_pass. }
  destruct Ho' as ((Ht & _ & Hm) & Hs & Ho' & _). split; [done|]. split; [done|]. split; [done|].
  intros ty s Hin. apply Hm in Hin. lia.
Qed.

(** ** A loop without sockets runs dry *)

(** The last microsecond of the clock. *)
Definition clock_end : Z := 2 ^ 63 * 1000000 - 1.

(** Handlers that leave the loop alone, and a select(2) that sleeps. *)
Definition quiet : Prop :=
  (forall h ed ud e v, fst (timeout_handler h ed ud (e, v)) = e) /\
  (forall n tv v, let '(r, v') := os_select n [] [] [] (Some tv) v in
     r.(sel_res) = 0 /\ r.(sel_signals) = [] /\ Z.min (clock v + us tv) clock_end <= clock v').

(** A loop with only timeouts, no pending signal and no request to end. *)
Definition only_timeouts e (l : list eloop_timeout) : Prop :=
  e.(readers).(table) = [] /\ e.(writers).(table) = [] /\ e.(exceptions).(table) = [] /\
  e.(signaled) = 0 /\ e.(pending_terminate) = false /\ e.(terminate) = false /\ e.(timeout) = l.

Lemma quiet_pass t l w :
  quiet -> timely (t :: l) -> only_timeouts w.(el) (t :: l) ->
  exists w' now, run_pass w = (w', Continue) /\ only_timeouts w'.(el) l /\
    w'.(calls) = w.(calls) ++ [CallTimeout now t].
Proof.
  intros [Hq1 Hq2] [Hs _] (H1 & H2 & H3 & H4 & H5 & H6 & H7).
  apply Forall_cons in Hs as [Hs _]. unfold run_pass. rewrite H5. cbn [andb].
  unfold wait_time. rewrite H7. unfold gettime at 1.
  pose proof (reading_law w.(host)) as Hr. destruct (os_get_reltime (host w)) as [[r now] v1].
  destruct Hr as [Hn Hc1]. set (tv := if os_reltime_before now t.(time) then _ else _).
  assert (Htv : us t.(time) <= us now + us tv).
  { unfold tv. rewrite before_us by done. destruct (Z.ltb_spec (us now) (us t.(time))).
    - destruct (sub_us t.(time) now Hs Hn) as [-> _]. lia.
    - change (us (mkTime 0 0)) with 0. lia. }
  unfold wait_select. cbn [el host set_field]. unfold eloop_sock_table_set_fds.
  change (el (w <| host := v1 |>)) with w.(el). rewrite H1, H2, H3. cbn [fmap list_fmap].
  specialize (Hq2 (w.(el).(max_sock) + 1) tv v1). change (host (w <| host := v1 |>)) with v1.
  destruct (os_select _ [] [] [] _ v1) as [sr v2]. destruct Hq2 as (R1 & R2 & R3). rewrite R1, R2.
  cbn [Z.ltb Z.compare andb Z.leb foldl].
  set (w3 := on_el clear_all_changed _).
  assert (H : only_timeouts w3.(el) (t :: l)) by (unfold only_timeouts; done).
  unfold eloop_process_pending_signals. rewrite (proj1 (proj2 (proj2 (proj2 H)))). cbn [Z.eqb].
  unfold fire_timeout. destruct H as (G1 & G2 & G3 & G4 & G5 & G6 & G7). rewrite G7. unfold gettime.
  pose proof (reading_law v2) as Hr. change (host w3) with v2.
  destruct (os_get_reltime v2) as [[r2 now2] v3]. destruct Hr as [Hn2 Hc2].
  rewrite before_us by done. assert (Hend : us t.(time) <= clock_end) by (unfold us, clock_end, sane in *; lia).
  destruct (Z.ltb_spec (us now2) (us t.(time))); [lia|]. cbn [negb].
  unfold calling. cbn [el host calls on_el set_field].
  match goal with |- context [timeout_handler _ _ _ ?p] => pose proof (Hq1 t.(t_handler) t.(t_eloop_data)
    t.(t_user_data) (fst p) (snd p)) as Hq; destruct (timeout_handler _ _ _ p) as [e' v'] eqn:Et end.
  cbn [fst snd] in Hq. rewrite Et in Hq. cbn [fst] in Hq. subst e'.
  eexists _, now2. split; [reflexivity|]. split; [|done]. unfold only_timeouts. done.
Qed.

(** When handlers leave the loop alone and there are no sockets, the loop
    calls every timeout once, in order, and then ends: it needs one pass for
    each. *)
Theorem eloop_run_drains w l :
  quiet -> timely l -> only_timeouts w.(el) l ->
  exists w', eloop_run true (length l) w = Some w' /\ w'.(el).(timeout) = [] /\
    exists nows, length nows = length l /\ w'.(calls) = w.(calls) ++ zip_with CallTimeout nows l.
Proof.
  intros Hq Hl Ho. cbn [eloop_run]. revert w Ho. induction l as [|t l IH]; intros w Ho.
  - destruct (Ho) as (H1 & H2 & H3 & H4 & H5 & H6 & H7).
    assert (Ha : run_again w.(el) = false) by (unfold run_again; by rewrite H1, H2, H3, H6, H7).
    cbn [length run_loop]. rewrite Ha. eexists. split; [reflexivity|]. split; [exact H7|].
    exists []. split; [done|]. cbn. by rewrite app_nil_r.
  - assert (Ha : run_again w.(el) = true).
    { destruct Ho as (H1 & H2 & H3 & H4 & H5 & H6 & H7). unfold run_again. by rewrite H6, H7. }
    cbn [length run_loop]. rewrite Ha.
    destruct (quiet_pass t l w Hq Hl Ho) as (w1 & now & -> & Ho1 & Hc).
    assert (Hl' : timely l) by (eapply timely_sublist; [by apply sublist_cons|done]).
    destruct (IH Hl' w1 Ho1) as (w' & -> & He & nows & Hlen & Hc').
    eexists. split; [reflexivity|]. split; [done|]. exists (now :: nows). cbn [length zip_with].
    split; [lia|]. by rewrite Hc', Hc, <- app_assoc.
Qed.

End laws.

(** ** Dispatch *)

Section dispatch.
Context {env : Type} `{!Host env}.
Implicit Types w : world env.

Definition ready (fds : list Z) (s : eloop_sock) : Prop := s.(sock) ∈ fds.
#[local] Instance ready_dec fds s : Decision (ready fds s).
Proof. unfold ready. apply _. Defined.

(** [h] leaves the table of [ty] as it is. *)
Definition keeps_table (ty : eloop_event_type) : Prop :=
  forall h s ed ud e v,
    eloop_get_sock_table ty (fst (sock_handler h s ed ud (e, v))) = eloop_get_sock_table ty e.

Lemma dispatch_loop_calls ty fds n i w :
  keeps_table ty -> (eloop_get_sock_table ty w.(el)).(changed) = false ->
  (length (eloop_get_sock_table ty w.(el)).(table) <= n + i)%nat ->
  let l := drop i (eloop_get_sock_table ty w.(el)).(table) in
  (dispatch_loop ty fds n i w).(calls) = w.(calls) ++ (CallSock ty <$> filter (ready fds) l).
Proof.
  intros Hk. revert i w. induction n as [|n IH]; intros i w Hc Hl l; cbn [dispatch_loop].
  - unfold l. rewrite drop_ge by lia. by rewrite app_nil_r.
  - destruct (_ !! i) as [s|] eqn:Es.
    + unfold l. erewrite drop_S by exact Es. rewrite filter_cons. unfold ready at 1.
      case_bool_decide as Hin; [rewrite decide_True by done|rewrite decide_False by done].
      * unfold calling. pose proof (Hk s.(s_handler) s.(sock) s.(s_eloop_data) s.(s_user_data) w.(el) w.(host)) as Ht.
        destruct (sock_handler _ _ _ _ _) as [e' v']. cbn [fst] in Ht. cbn [el]. rewrite Ht, Hc.
        rewrite IH; cbn [el]; rewrite ?Ht; [|done|lia]. cbn [calls]. by rewrite <- app_assoc.
      * by rewrite IH by (done || lia).
    + unfold l. rewrite drop_ge by (by apply lookup_ge_None). by rewrite app_nil_r.
Qed.

(** While no handler changes the table, every ready socket has its handler
    called exactly once, in the order of registration, and no other does. *)
Theorem dispatch_each_ready_once ty fds w :
  keeps_table ty ->
  (eloop_sock_table_dispatch ty fds w).(calls) =
  w.(calls) ++ (CallSock ty <$> filter (ready fds) (eloop_get_sock_table ty w.(el)).(table)).
Proof.
  intros Hk. unfold eloop_sock_table_dispatch.
  rewrite dispatch_loop_calls; [by destruct ty|done|by destruct ty|lia].
Qed.

Lemma calling_log c h w : exists e v, calling c h w = mkWorld e v (w.(calls) ++ [c]).
Proof. unfold calling. destruct (h _) as [e v]. by exists e, v. Qed.

Lemma dispatch_single ty s w :
  (eloop_get_sock_table ty w.(el)).(table) = [s] ->
  eloop_sock_table_dispatch ty [s.(sock)] w =
  calling (CallSock ty s) (sock_handler s.(s_handler) s.(sock) s.(s_eloop_data) s.(s_user_data))
    (on_el (clear_changed ty) w).
Proof.
  intros Ht. unfold eloop_sock_table_dispatch. set (w1 := on_el (clear_changed ty) w).
  assert (H1 : (eloop_get_sock_table ty w1.(el)).(table) = [s]) by (rewrite <- Ht; by destruct ty).
  rewrite H1. cbn [length dispatch_loop]. rewrite H1. cbn [lookup list_lookup].
  rewrite bool_decide_eq_true_2 by set_solver. by case_match.
Qed.

Lemma dispatch_none ty w : (eloop_sock_table_dispatch ty [] w).(calls) = w.(calls).
Proof.
  unfold eloop_sock_table_dispatch. generalize (length (eloop_get_sock_table ty (on_el (clear_changed ty) w).(el)).(table)), 0%nat.
  intros n i. change (calls w) with (calls (on_el (clear_changed ty) w)). generalize (on_el (clear_changed ty) w).
  clear w. revert i. induction n as [|n IH]; intros i w; cbn [dispatch_loop]; [done|].
  destruct (_ !! i); [|done]. rewrite bool_decide_eq_false_2 by set_solver. apply IH.
Qed.

(** The results of select(2) outlive the registration they are about: when
    the handler of a readable socket [a] replaces the writer of [b], as it does
    when it closes [b] and opens another file that gets the same descriptor,
    the new handler is called for the old one's readiness.  The poll variant
    stops in that case, and the comment in [eloop_run] asks for it. *)
Theorem dispatch_uses_stale_results a b h0 h1 h2 r w :
  w.(el).(readers).(table) = [mkSock a h0 0 0] -> w.(el).(writers).(table) = [mkSock b h1 0 0] ->
  (forall e v, sock_handler h0 a 0 0 (e, v) =
     (fst (eloop_sock_table_add_sock true EVENT_TYPE_WRITE b h2 0 0
             (eloop_unregister_sock b EVENT_TYPE_WRITE e)), v)) ->
  r.(rfds) = [a] -> r.(wfds) = [b] -> r.(efds) = [] ->
  (dispatch_all r w).(calls) =
  w.(calls) ++ [CallSock EVENT_TYPE_READ (mkSock a h0 0 0); CallSock EVENT_TYPE_WRITE (mkSock b h2 0 0)].
Proof.
  intros Hr Hw Hh R1 R2 R3. unfold dispatch_all. rewrite R1, R2, R3.
  rewrite (dispatch_single EVENT_TYPE_READ (mkSock a h0 0 0)) by done.
  unfold calling at 1. cbn [s_handler s_eloop_data s_user_data sock]. rewrite Hh.
  set (e := fst (eloop_sock_table_add_sock _ _ _ _ _ _ _)). set (w1 := mkWorld e _ _).
  assert (He : e.(writers).(table) = [mkSock b h2 0 0]).
  { unfold e, eloop_unregister_sock, eloop_sock_table_remove_sock. cbn. rewrite Hw. cbn. by rewrite Z.eqb_refl. }
  rewrite (dispatch_single EVENT_TYPE_WRITE (mkSock b h2 0 0)) by done.
  destruct (calling_log (CallSock EVENT_TYPE_WRITE (mkSock b h2 0 0))
    (sock_handler h2 b 0 0) (on_el (clear_changed EVENT_TYPE_WRITE) w1)) as (e2 & v2 & E).
  cbn [s_handler s_eloop_data s_user_data sock]. rewrite E.
  rewrite dispatch_none. unfold w1. cbn [calls on_el set_field].
  by rewrite <- app_assoc.
Qed.

End dispatch.

(** ** Witnesses *)

(** A clock that select(2) moves on, and one handler, 100, that replaces the
    writer of descriptor 7. *)
Definition demo_now (v : Z) : Z := Z.min (Z.max 0 v) clock_end.
Definition demo_time (v : Z) : os_reltime := mkTime (demo_now v / 1000000) (demo_now v mod 1000000).

#[export] Instance demo_host : Host Z := {
  os_get_reltime v := ((0, demo_time v), v);
  os_select _ _ _ _ tv v :=
    (mkSelect 0 0 [] [] [] [], match tv with Some t => demo_now v + Z.max 0 (us t) | None => v end);
  timeout_handler _ _ _ p := p;
  sock_handler h _ _ _ p :=
    if h =? 100 then
      (fst (eloop_sock_table_add_sock true EVENT_TYPE_WRITE 7 102 0 0
              (eloop_unregister_sock 7 EVENT_TYPE_WRITE (fst p))), snd p)
    else p;
  signal_handler _ _ _ p := p
}.

Lemma demo_time_sane v : sane (demo_time v) /\ us (demo_time v) = demo_now v.
Proof.
  unfold sane, us, demo_time. cbn [sec usec].
  assert (0 <= demo_now v <= clock_end) by (unfold demo_now, clock_end; lia).
  unfold clock_end in *. dlia.
Qed.

#[export] Instance demo_host_laws : HostLaws Z.
Proof.
  refine {| clock := demo_now |}.
  - intros v. cbn. destruct (demo_time_sane v) as [H ->]. split; [done|lia].
  - intros n r w x [t|] v; cbn [os_select demo_host snd]; [|lia]. unfold demo_now. lia.
  - intros h ed ud e v. cbn. split; [lia|constructor].
  - intros h s ed ud e v. cbn [sock_handler demo_host fst snd].
    destruct (h =? 100); [|split; [lia|constructor]]. split; [lia|].
    apply rtc_l with (eloop_unregister_sock 7 EVENT_TYPE_WRITE e); [apply api_unregister_sock|].
    apply rtc_once, api_register_sock. lia.
  - intros h s ud e v. cbn. split; [lia|constructor].
Defined.

Lemma demo_quiet : quiet (env := Z).
Proof.
  split; [done|]. intros n tv v. cbn -[us Z.min Z.max demo_now]. split; [done|]. split; [done|].
  change (clock ?x) with (demo_now x). unfold demo_now. lia.
Qed.

Definition demo_timeouts : list eloop_timeout :=
  [mkTimeout (mkTime 3 500000) 1 10 20; mkTimeout (mkTime 3 500000) 2 10 20; mkTimeout (mkTime 9 0) 1 11 20].
Definition demo_loop : eloop_data := eloop_init <| timeout := demo_timeouts |>.
Definition demo_world : world Z := mkWorld demo_loop 2000000 [].

Lemma demo_timely : timely demo_timeouts.
Proof.
  split; [repeat constructor; cbn; lia|].
  unfold demo_timeouts, earlier. rewrite !StronglySorted_cons, !Forall_cons. cbn.
  split_and!; unfold us; cbn [sec usec]; first [lia|constructor].
Qed.

Lemma eloop_register_timeout_inserts_witness :
  (fst (eloop_register_timeout true (0, mkTime 2 999999) 0 500001 5 0 0 demo_loop)).(timeout) <> [].
Proof.
  pose proof (eloop_register_timeout_inserts (mkTime 2 999999) 0 500001 5 0 0 demo_loop
    ltac:(unfold sane; cbn; lia) ltac:(lia) ltac:(lia) demo_timely) as H.
  destruct (eloop_register_timeout _ _ _ _ _ _ _ _) as [e' r]. destruct H as [_ H].
  change (2 + 0 + (999999 + 500001) / 1000000 <? 2 ^ 63) with true in H.
  destruct H as (tm & l1 & l2 & _ & _ & -> & _). by destruct l1.
Defined.

Lemma eloop_deplete_replenish_witness :
  (eloop_deplete_timeout true (0, mkTime 2 0) (0, mkTime 2 0) 1 0 1 10 20 demo_loop).2 = 1.
Proof.
  pose proof (eloop_deplete_replenish (mkTime 2 0) (mkTime 2 0) 1 0 1 10 20 demo_loop
    ltac:(unfold sane; cbn; lia) ltac:(unfold sane; cbn; lia) ltac:(lia) ltac:(lia) demo_timely ltac:(cbn; lia)) as H.
  cbn zeta in H. change (List.find _ _) with (Some (mkTimeout (mkTime 3 500000) 1 10 20)) in H. cbn iota in H.
  destruct H as [H _]. destruct (eloop_deplete_timeout _ _ _ _ _ _ _ _ _) as [e' r].
  change (us (mkTime 2 0) + (1 * 1000000 + 0) <? us (time (mkTimeout (mkTime 3 500000) 1 10 20))) with true in H.
  by destruct H.
Defined.

Lemma demo_well_kept : well_kept demo_loop.
Proof. split; [apply demo_timely|]. split; [done|]. intros []; cbn; intros s Hs; by apply elem_of_nil in Hs. Qed.

Definition demo_two_passes : world Z := fst (run_pass (fst (run_pass demo_world))).

Lemma eloop_run_in_order_witness :
  fired demo_two_passes.(calls) = [3500000; 3500000] /\ StronglySorted Z.le (fired demo_two_passes.(calls)).
Proof.
  split; [vm_compute; reflexivity|].
  apply (eloop_run_in_order demo_world demo_two_passes demo_well_kept eq_refl).
  eapply rtc_l; [reflexivity|]. by apply rtc_once.
Defined.

Lemma eloop_run_drains_witness :
  exists w', eloop_run true (length demo_timeouts) demo_world = Some w' /\ w'.(el).(timeout) = [].
Proof.
  destruct (eloop_run_drains demo_world demo_timeouts demo_quiet demo_timely) as (w' & H & He & _).
  - unfold only_timeouts. split_and!; reflexivity.
  - exists w'. exact (conj H He).
Defined.

Definition demo_socks : world Z :=
  mkWorld (eloop_init <| readers := mkTable [mkSock 5 100 0 0; mkSock 6 101 0 0] false |>
                      <| writers := mkTable [mkSock 7 103 0 0] false |>) 0 [].

Lemma dispatch_each_ready_once_witness :
  (eloop_sock_table_dispatch EVENT_TYPE_READ [6; 9] demo_socks).(calls) =
  [CallSock EVENT_TYPE_READ (mkSock 6 101 0 0)].
Proof.
  rewrite (dispatch_each_ready_once EVENT_TYPE_READ [6; 9] demo_socks).
  - vm_compute. reflexivity.
  - intros h s ed ud e v. cbn. destruct (h =? 100); [|done]. cbn.
    unfold eloop_unregister_sock, eloop_sock_table_remove_sock. by case_match.
Defined.

Lemma dispatch_uses_stale_results_witness :
  (dispatch_all (mkSelect 2 0 [5] [7] [] [])
     (mkWorld (demo_socks.(el) <| readers := mkTable [mkSock 5 100 0 0] false |>) 0 [])).(calls) =
  [CallSock EVENT_TYPE_READ (mkSock 5 100 0 0); CallSock EVENT_TYPE_WRITE (mkSock 7 102 0 0)].
Proof. by apply (dispatch_uses_stale_results 5 7 100 103 102). Defined.

End Eloop.
