(* ===== verification/Aes.v ===== *)
(** * AES (crypto/aes-internal.c, aes-internal-enc.c, aes-internal-dec.c)

    The table-driven block cipher, with [AES_SMALL_TABLES] as aes_i.h defines
    it, and the theorems that it is the cipher of FIPS 197 and that decryption
    inverts encryption.  [Block] is what the modes of operation rely on. *)

From S2P Require Import Prelude.

Module Aes.

(** ** Tables (aes-internal.c) *)

(** [Te0[x] = S[x].[02, 01, 01, 03]] *)
Definition Te0 : list Z := [
  0xc66363a5; 0xf87c7c84; 0xee777799; 0xf67b7b8d; 0xfff2f20d; 0xd66b6bbd;
  0xde6f6fb1; 0x91c5c554; 0x60303050; 0x02010103; 0xce6767a9; 0x562b2b7d;
  0xe7fefe19; 0xb5d7d762; 0x4dababe6; 0xec76769a; 0x8fcaca45; 0x1f82829d;
  0x89c9c940; 0xfa7d7d87; 0xeffafa15; 0xb25959eb; 0x8e4747c9; 0xfbf0f00b;
  0x41adadec; 0xb3d4d467; 0x5fa2a2fd; 0x45afafea; 0x239c9cbf; 0x53a4a4f7;
  0xe4727296; 0x9bc0c05b; 0x75b7b7c2; 0xe1fdfd1c; 0x3d9393ae; 0x4c26266a;
  0x6c36365a; 0x7e3f3f41; 0xf5f7f702; 0x83cccc4f; 0x6834345c; 0x51a5a5f4;
  0xd1e5e534; 0xf9f1f108; 0xe2717193; 0xabd8d873; 0x62313153; 0x2a15153f;
  0x0804040c; 0x95c7c752; 0x46232365; 0x9dc3c35e; 0x30181828; 0x379696a1;
  0x0a05050f; 0x2f9a9ab5; 0x0e070709; 0x24121236; 0x1b80809b; 0xdfe2e23d;
  0xcdebeb26; 0x4e272769; 0x7fb2b2cd; 0xea75759f; 0x1209091b; 0x1d83839e;
  0x582c2c74; 0x341a1a2e; 0x361b1b2d; 0xdc6e6eb2; 0xb45a5aee; 0x5ba0a0fb;
  0xa45252f6; 0x763b3b4d; 0xb7d6d661; 0x7db3b3ce; 0x5229297b; 0xdde3e33e;
  0x5e2f2f71; 0x13848497; 0xa65353f5; 0xb9d1d168; 0x00000000; 0xc1eded2c;
  0x40202060; 0xe3fcfc1f; 0x79b1b1c8; 0xb65b5bed; 0xd46a6abe; 0x8dcbcb46;
  0x67bebed9; 0x7239394b; 0x944a4ade; 0x984c4cd4; 0xb05858e8; 0x85cfcf4a;
  0xbbd0d06b; 0xc5efef2a; 0x4faaaae5; 0xedfbfb16; 0x864343c5; 0x9a4d4dd7;
  0x66333355; 0x11858594; 0x8a4545cf; 0xe9f9f910; 0x04020206; 0xfe7f7f81;
  0xa05050f0; 0x783c3c44; 0x259f9fba; 0x4ba8a8e3; 0xa25151f3; 0x5da3a3fe;
  0x804040c0; 0x058f8f8a; 0x3f9292ad; 0x219d9dbc; 0x70383848; 0xf1f5f504;
  0x63bcbcdf; 0x77b6b6c1; 0xafdada75; 0x42212163; 0x20101030; 0xe5ffff1a;
  0xfdf3f30e; 0xbfd2d26d; 0x81cdcd4c; 0x180c0c14; 0x26131335; 0xc3ecec2f;
  0xbe5f5fe1; 0x359797a2; 0x884444cc; 0x2e171739; 0x93c4c457; 0x55a7a7f2;
  0xfc7e7e82; 0x7a3d3d47; 0xc86464ac; 0xba5d5de7; 0x3219192b; 0xe6737395;
  0xc06060a0; 0x19818198; 0x9e4f4fd1; 0xa3dcdc7f; 0x44222266; 0x542a2a7e;
  0x3b9090ab; 0x0b888883; 0x8c4646ca; 0xc7eeee29; 0x6bb8b8d3; 0x2814143c;
  0xa7dede79; 0xbc5e5ee2; 0x160b0b1d; 0xaddbdb76; 0xdbe0e03b; 0x64323256;
  0x743a3a4e; 0x140a0a1e; 0x924949db; 0x0c06060a; 0x4824246c; 0xb85c5ce4;
  0x9fc2c25d; 0xbdd3d36e; 0x43acacef; 0xc46262a6; 0x399191a8; 0x319595a4;
  0xd3e4e437; 0xf279798b; 0xd5e7e732; 0x8bc8c843; 0x6e373759; 0xda6d6db7;
  0x018d8d8c; 0xb1d5d564; 0x9c4e4ed2; 0x49a9a9e0; 0xd86c6cb4; 0xac5656fa;
  0xf3f4f407; 0xcfeaea25; 0xca6565af; 0xf47a7a8e; 0x47aeaee9; 0x10080818;
  0x6fbabad5; 0xf0787888; 0x4a25256f; 0x5c2e2e72; 0x381c1c24; 0x57a6a6f1;
  0x73b4b4c7; 0x97c6c651; 0xcbe8e823; 0xa1dddd7c; 0xe874749c; 0x3e1f1f21;
  0x964b4bdd; 0x61bdbddc; 0x0d8b8b86; 0x0f8a8a85; 0xe0707090; 0x7c3e3e42;
  0x71b5b5c4; 0xcc6666aa; 0x904848d8; 0x06030305; 0xf7f6f601; 0x1c0e0e12;
  0xc26161a3; 0x6a35355f; 0xae5757f9; 0x69b9b9d0; 0x17868691; 0x99c1c158;
  0x3a1d1d27; 0x279e9eb9; 0xd9e1e138; 0xebf8f813; 0x2b9898b3; 0x22111133;
  0xd26969bb; 0xa9d9d970; 0x078e8e89; 0x339494a7; 0x2d9b9bb6; 0x3c1e1e22;
  0x15878792; 0xc9e9e920; 0x87cece49; 0xaa5555ff; 0x50282878; 0xa5dfdf7a;
  0x038c8c8f; 0x59a1a1f8; 0x09898980; 0x1a0d0d17; 0x65bfbfda; 0xd7e6e631;
  0x844242c6; 0xd06868b8; 0x824141c3; 0x299999b0; 0x5a2d2d77; 0x1e0f0f11;
  0x7bb0b0cb; 0xa85454fc; 0x6dbbbbd6; 0x2c16163a].

(** [Td0[x] = Si[x].[0e, 09, 0d, 0b]] *)
Definition Td0 : list Z := [
  0x51f4a750; 0x7e416553; 0x1a17a4c3; 0x3a275e96; 0x3bab6bcb; 0x1f9d45f1;
  0xacfa58ab; 0x4be30393; 0x2030fa55; 0xad766df6; 0x88cc7691; 0xf5024c25;
  0x4fe5d7fc; 0xc52acbd7; 0x26354480; 0xb562a38f; 0xdeb15a49; 0x25ba1b67;
  0x45ea0e98; 0x5dfec0e1; 0xc32f7502; 0x814cf012; 0x8d4697a3; 0x6bd3f9c6;
  0x038f5fe7; 0x15929c95; 0xbf6d7aeb; 0x955259da; 0xd4be832d; 0x587421d3;
  0x49e06929; 0x8ec9c844; 0x75c2896a; 0xf48e7978; 0x99583e6b; 0x27b971dd;
  0xbee14fb6; 0xf088ad17; 0xc920ac66; 0x7dce3ab4; 0x63df4a18; 0xe51a3182;
  0x97513360; 0x62537f45; 0xb16477e0; 0xbb6bae84; 0xfe81a01c; 0xf9082b94;
  0x70486858; 0x8f45fd19; 0x94de6c87; 0x527bf8b7; 0xab73d323; 0x724b02e2;
  0xe31f8f57; 0x6655ab2a; 0xb2eb2807; 0x2fb5c203; 0x86c57b9a; 0xd33708a5;
  0x302887f2; 0x23bfa5b2; 0x02036aba; 0xed16825c; 0x8acf1c2b; 0xa779b492;
  0xf307f2f0; 0x4e69e2a1; 0x65daf4cd; 0x0605bed5; 0xd134621f; 0xc4a6fe8a;
  0x342e539d; 0xa2f355a0; 0x058ae132; 0xa4f6eb75; 0x0b83ec39; 0x4060efaa;
  0x5e719f06; 0xbd6e1051; 0x3e218af9; 0x96dd063d; 0xdd3e05ae; 0x4de6bd46;
  0x91548db5; 0x71c45d05; 0x0406d46f; 0x605015ff; 0x1998fb24; 0xd6bde997;
  0x894043cc; 0x67d99e77; 0xb0e842bd; 0x07898b88; 0xe7195b38; 0x79c8eedb;
  0xa17c0a47; 0x7c420fe9; 0xf8841ec9; 0x00000000; 0x09808683; 0x322bed48;
  0x1e1170ac; 0x6c5a724e; 0xfd0efffb; 0x0f853856; 0x3daed51e; 0x362d3927;
  0x0a0fd964; 0x685ca621; 0x9b5b54d1; 0x24362e3a; 0x0c0a67b1; 0x9357e70f;
  0xb4ee96d2; 0x1b9b919e; 0x80c0c54f; 0x61dc20a2; 0x5a774b69; 0x1c121a16;
  0xe293ba0a; 0xc0a02ae5; 0x3c22e043; 0x121b171d; 0x0e090d0b; 0xf28bc7ad;
  0x2db6a8b9; 0x141ea9c8; 0x57f11985; 0xaf75074c; 0xee99ddbb; 0xa37f60fd;
  0xf701269f; 0x5c72f5bc; 0x44663bc5; 0x5bfb7e34; 0x8b432976; 0xcb23c6dc;
  0xb6edfc68; 0xb8e4f163; 0xd731dcca; 0x42638510; 0x13972240; 0x84c61120;
  0x854a247d; 0xd2bb3df8; 0xaef93211; 0xc729a16d; 0x1d9e2f4b; 0xdcb230f3;
  0x0d8652ec; 0x77c1e3d0; 0x2bb3166c; 0xa970b999; 0x119448fa; 0x47e96422;
  0xa8fc8cc4; 0xa0f03f1a; 0x567d2cd8; 0x223390ef; 0x87494ec7; 0xd938d1c1;
  0x8ccaa2fe; 0x98d40b36; 0xa6f581cf; 0xa57ade28; 0xdab78e26; 0x3fadbfa4;
  0x2c3a9de4; 0x5078920d; 0x6a5fcc9b; 0x547e4662; 0xf68d13c2; 0x90d8b8e8;
  0x2e39f75e; 0x82c3aff5; 0x9f5d80be; 0x69d0937c; 0x6fd52da9; 0xcf2512b3;
  0xc8ac993b; 0x10187da7; 0xe89c636e; 0xdb3bbb7b; 0xcd267809; 0x6e5918f4;
  0xec9ab701; 0x834f9aa8; 0xe6956e65; 0xaaffe67e; 0x21bccf08; 0xef15e8e6;
  0xbae79bd9; 0x4a6f36ce; 0xea9f09d4; 0x29b07cd6; 0x31a4b2af; 0x2a3f2331;
  0xc6a59430; 0x35a266c0; 0x744ebc37; 0xfc82caa6; 0xe090d0b0; 0x33a7d815;
  0xf104984a; 0x41ecdaf7; 0x7fcd500e; 0x1791f62f; 0x764dd68d; 0x43efb04d;
  0xccaa4d54; 0xe49604df; 0x9ed1b5e3; 0x4c6a881b; 0xc12c1fb8; 0x4665517f;
  0x9d5eea04; 0x018c355d; 0xfa877473; 0xfb0b412e; 0xb3671d5a; 0x92dbd252;
  0xe9105633; 0x6dd64713; 0x9ad7618c; 0x37a10c7a; 0x59f8148e; 0xeb133c89;
  0xcea927ee; 0xb761c935; 0xe11ce5ed; 0x7a47b13c; 0x9cd2df59; 0x55f2733f;
  0x1814ce79; 0x73c737bf; 0x53f7cdea; 0x5ffdaa5b; 0xdf3d6f14; 0x7844db86;
  0xcaaff381; 0xb968c43e; 0x3824342c; 0xc2a3405f; 0x161dc372; 0xbce2250c;
  0x283c498b; 0xff0d9541; 0x39a80171; 0x080cb3de; 0xd8b4e49c; 0x6456c190;
  0x7bcb8461; 0xd532b670; 0x486c5c74; 0xd0b85742].

(** The inverse S-box. *)
Definition Td4s : list Z := [
  0x52; 0x09; 0x6a; 0xd5; 0x30; 0x36; 0xa5; 0x38; 0xbf; 0x40; 0xa3; 0x9e;
  0x81; 0xf3; 0xd7; 0xfb; 0x7c; 0xe3; 0x39; 0x82; 0x9b; 0x2f; 0xff; 0x87;
  0x34; 0x8e; 0x43; 0x44; 0xc4; 0xde; 0xe9; 0xcb; 0x54; 0x7b; 0x94; 0x32;
  0xa6; 0xc2; 0x23; 0x3d; 0xee; 0x4c; 0x95; 0x0b; 0x42; 0xfa; 0xc3; 0x4e;
  0x08; 0x2e; 0xa1; 0x66; 0x28; 0xd9; 0x24; 0xb2; 0x76; 0x5b; 0xa2; 0x49;
  0x6d; 0x8b; 0xd1; 0x25; 0x72; 0xf8; 0xf6; 0x64; 0x86; 0x68; 0x98; 0x16;
  0xd4; 0xa4; 0x5c; 0xcc; 0x5d; 0x65; 0xb6; 0x92; 0x6c; 0x70; 0x48; 0x50;
  0xfd; 0xed; 0xb9; 0xda; 0x5e; 0x15; 0x46; 0x57; 0xa7; 0x8d; 0x9d; 0x84;
  0x90; 0xd8; 0xab; 0x00; 0x8c; 0xbc; 0xd3; 0x0a; 0xf7; 0xe4; 0x58; 0x05;
  0xb8; 0xb3; 0x45; 0x06; 0xd0; 0x2c; 0x1e; 0x8f; 0xca; 0x3f; 0x0f; 0x02;
  0xc1; 0xaf; 0xbd; 0x03; 0x01; 0x13; 0x8a; 0x6b; 0x3a; 0x91; 0x11; 0x41;
  0x4f; 0x67; 0xdc; 0xea; 0x97; 0xf2; 0xcf; 0xce; 0xf0; 0xb4; 0xe6; 0x73;
  0x96; 0xac; 0x74; 0x22; 0xe7; 0xad; 0x35; 0x85; 0xe2; 0xf9; 0x37; 0xe8;
  0x1c; 0x75; 0xdf; 0x6e; 0x47; 0xf1; 0x1a; 0x71; 0x1d; 0x29; 0xc5; 0x89;
  0x6f; 0xb7; 0x62; 0x0e; 0xaa; 0x18; 0xbe; 0x1b; 0xfc; 0x56; 0x3e; 0x4b;
  0xc6; 0xd2; 0x79; 0x20; 0x9a; 0xdb; 0xc0; 0xfe; 0x78; 0xcd; 0x5a; 0xf4;
  0x1f; 0xdd; 0xa8; 0x33; 0x88; 0x07; 0xc7; 0x31; 0xb1; 0x12; 0x10; 0x59;
  0x27; 0x80; 0xec; 0x5f; 0x60; 0x51; 0x7f; 0xa9; 0x19; 0xb5; 0x4a; 0x0d;
  0x2d; 0xe5; 0x7a; 0x9f; 0x93; 0xc9; 0x9c; 0xef; 0xa0; 0xe0; 0x3b; 0x4d;
  0xae; 0x2a; 0xf5; 0xb0; 0xc8; 0xeb; 0xbb; 0x3c; 0x83; 0x53; 0x99; 0x61;
  0x17; 0x2b; 0x04; 0x7e; 0xba; 0x77; 0xd6; 0x26; 0xe1; 0x69; 0x14; 0x63;
  0x55; 0x21; 0x0c; 0x7d].

(** The round constants. *)
Definition rcons : list Z := [
  0x01; 0x02; 0x04; 0x08; 0x10; 0x20; 0x40; 0x80; 0x1B; 0x36].

(** ** Table access (aes_i.h) *)

Definition rotr (val bits : Z) : Z :=
  Z.lor (Z.shiftr val bits) (u32 (Z.shiftl val (32 - bits))).

(** The bytes of a word, [B3] the most significant. *)
Definition B3 (i : Z) : Z := Z.land (Z.shiftr i 24) 0xff.
Definition B2 (i : Z) : Z := Z.land (Z.shiftr i 16) 0xff.
Definition B1 (i : Z) : Z := Z.land (Z.shiftr i 8) 0xff.
Definition B0 (i : Z) : Z := Z.land i 0xff.

Definition RCON (i : Z) : Z := u32 (Z.shiftl (at_ rcons i) 24).

Definition TE0 (i : Z) : Z := at_ Te0 (B3 i).
Definition TE1 (i : Z) : Z := rotr (at_ Te0 (B2 i)) 8.
Definition TE2 (i : Z) : Z := rotr (at_ Te0 (B1 i)) 16.
Definition TE3 (i : Z) : Z := rotr (at_ Te0 (B0 i)) 24.
Definition TE41 (i : Z) : Z := Z.land (u32 (Z.shiftl (at_ Te0 (B3 i)) 8)) 0xff000000.
Definition TE42 (i : Z) : Z := Z.land (at_ Te0 (B2 i)) 0x00ff0000.
Definition TE43 (i : Z) : Z := Z.land (at_ Te0 (B1 i)) 0x0000ff00.
Definition TE44 (i : Z) : Z := Z.land (Z.shiftr (at_ Te0 (B0 i)) 8) 0x000000ff.
Definition TE421 (i : Z) : Z := Z.land (u32 (Z.shiftl (at_ Te0 (B2 i)) 8)) 0xff000000.
Definition TE432 (i : Z) : Z := Z.land (at_ Te0 (B1 i)) 0x00ff0000.
Definition TE443 (i : Z) : Z := Z.land (at_ Te0 (B0 i)) 0x0000ff00.
Definition TE414 (i : Z) : Z := Z.land (Z.shiftr (at_ Te0 (B3 i)) 8) 0x000000ff.
Definition TE411 (i : Z) : Z := TE41 i.
Definition TE422 (i : Z) : Z := TE42 i.
Definition TE433 (i : Z) : Z := TE43 i.
Definition TE444 (i : Z) : Z := TE44 i.
Definition TE4 (i : Z) : Z := Z.land (Z.shiftr (at_ Te0 i) 8) 0x000000ff.

Definition TD0 (i : Z) : Z := at_ Td0 (B3 i).
Definition TD1 (i : Z) : Z := rotr (at_ Td0 (B2 i)) 8.
Definition TD2 (i : Z) : Z := rotr (at_ Td0 (B1 i)) 16.
Definition TD3 (i : Z) : Z := rotr (at_ Td0 (B0 i)) 24.
Definition TD41 (i : Z) : Z := u32 (Z.shiftl (at_ Td4s (B3 i)) 24).
Definition TD42 (i : Z) : Z := u32 (Z.shiftl (at_ Td4s (B2 i)) 16).
Definition TD43 (i : Z) : Z := u32 (Z.shiftl (at_ Td4s (B1 i)) 8).
Definition TD44 (i : Z) : Z := at_ Td4s (B0 i).
Definition TD0_ (i : Z) : Z := at_ Td0 (B0 i).
Definition TD1_ (i : Z) : Z := rotr (at_ Td0 (B0 i)) 8.
Definition TD2_ (i : Z) : Z := rotr (at_ Td0 (B0 i)) 16.
Definition TD3_ (i : Z) : Z := rotr (at_ Td0 (B0 i)) 24.

Infix "^^" := Z.lxor (at level 50, left associativity).

Definition GETU32 (pt : list Z) (off : Z) : Z :=
  u32 (Z.shiftl (at_ pt off) 24) ^^ u32 (Z.shiftl (at_ pt (off + 1)) 16) ^^
  u32 (Z.shiftl (at_ pt (off + 2)) 8) ^^ at_ pt (off + 3).

Definition PUTU32 (st : Z) : list Z :=
  [u8 (Z.shiftr st 24); u8 (Z.shiftr st 16); u8 (Z.shiftr st 8); u8 st].

(** ** Key schedule for encryption *)

(** The schedule is written at increasing indices: each assignment appends a
    word; [rk] is at [base] in it. *)
Definition push (rk : list Z) (v : Z) : list Z := rk ++ [v].

Definition schedule_core (temp : Z) : Z := TE421 temp ^^ TE432 temp ^^ TE443 temp ^^ TE414 temp.

(** [rk[k + d] = rk[k] ^ rk[k + d - 1]] *)
Definition chain (base k d : Z) (rk : list Z) : list Z :=
  push rk (at_ rk (base + k) ^^ at_ rk (base + k + d - 1)).

Definition expand128 (i base : Z) (rk : list Z) : list Z :=
  let temp := at_ rk (base + 3) in
  let rk := push rk (at_ rk base ^^ schedule_core temp ^^ RCON i) in
  chain base 3 4 (chain base 2 4 (chain base 1 4 rk)).

Fixpoint loop128 (n : nat) (i base : Z) (rk : list Z) : list Z :=
  match n with
  | O => rk
  | S n => loop128 n (i + 1) (base + 4) (expand128 i base rk)
  end.

Fixpoint loop192 (n : nat) (i base : Z) (rk : list Z) : list Z :=
  match n with
  | O => rk
  | S n =>
      let temp := at_ rk (base + 5) in
      let rk := push rk (at_ rk base ^^ schedule_core temp ^^ RCON i) in
      let rk := chain base 3 6 (chain base 2 6 (chain base 1 6 rk)) in
      if i =? 7 then rk
      else loop192 n (i + 1) (base + 6) (chain base 5 6 (chain base 4 6 rk))
  end.

Fixpoint loop256 (n : nat) (i base : Z) (rk : list Z) : list Z :=
  match n with
  | O => rk
  | S n =>
      let temp := at_ rk (base + 7) in
      let rk := push rk (at_ rk base ^^ schedule_core temp ^^ RCON i) in
      let rk := chain base 3 8 (chain base 2 8 (chain base 1 8 rk)) in
      if i =? 6 then rk
      else
        let temp := at_ rk (base + 11) in
        let rk := push rk (at_ rk (base + 4) ^^ (TE411 temp ^^ TE422 temp ^^ TE433 temp ^^ TE444 temp)) in
        loop256 n (i + 1) (base + 8) (chain base 7 8 (chain base 6 8 (chain base 5 8 rk)))
  end.

Definition key_words (cipherKey : list Z) (n : nat) : list Z :=
  map (fun k => GETU32 cipherKey (4 * Z.of_nat k)) (seq 0 n).

(** The round keys and the number of rounds, [None] for -1; [Fault] when the
    key is read past its end. *)
Definition rijndaelKeySetupEnc (cipherKey : list Z) (keyBits : Z) : cres (option (list Z * Z)) :=
  if zlen cipherKey <? 16 then Fault
  else if keyBits =? 128 then Ok (Some (loop128 10 0 0 (key_words cipherKey 4), 10))
  else if zlen cipherKey <? 24 then Fault
  else if keyBits =? 192 then Ok (Some (loop192 8 0 0 (key_words cipherKey 6), 12))
  else if zlen cipherKey <? 32 then Fault
  else if keyBits =? 256 then Ok (Some (loop256 7 0 0 (key_words cipherKey 8), 14))
  else Ok None.

(** ** Encryption *)

Definition state : Type := Z * Z * Z * Z.

Definition load (rk block : list Z) : state :=
  (GETU32 block 0 ^^ at_ rk 0, GETU32 block 4 ^^ at_ rk 1,
   GETU32 block 8 ^^ at_ rk 2, GETU32 block 12 ^^ at_ rk 3).

(** [ROUND] with the round key at [k]. *)
Definition enc_ROUND (rk : list Z) (k : Z) (s : state) : state :=
  let '(s0, s1, s2, s3) := s in
  (TE0 s0 ^^ TE1 s1 ^^ TE2 s2 ^^ TE3 s3 ^^ at_ rk k,
   TE0 s1 ^^ TE1 s2 ^^ TE2 s3 ^^ TE3 s0 ^^ at_ rk (k + 1),
   TE0 s2 ^^ TE1 s3 ^^ TE2 s0 ^^ TE3 s1 ^^ at_ rk (k + 2),
   TE0 s3 ^^ TE1 s0 ^^ TE2 s1 ^^ TE3 s2 ^^ at_ rk (k + 3)).

(** The loop of [rijndaelEncrypt] and [rijndaelDecrypt], [r] passes left: the
    state and where [rk] points at the end.  [r] is [Nr >> 1], at least 5. *)
Fixpoint rounds_loop (ROUND : list Z -> Z -> state -> state) (r : nat) (rk : list Z)
    (p : Z) (s : state) : state * Z :=
  let t := ROUND rk (p + 4) s in
  let p := p + 8 in
  match r with
  | S ((S _) as r') => rounds_loop ROUND r' rk p (ROUND rk p t)
  | _ => (t, p)
  end.

Definition enc_last (rk : list Z) (p : Z) (t : state) : list Z :=
  let '(t0, t1, t2, t3) := t in
  PUTU32 (TE41 t0 ^^ TE42 t1 ^^ TE43 t2 ^^ TE44 t3 ^^ at_ rk p) ++
  PUTU32 (TE41 t1 ^^ TE42 t2 ^^ TE43 t3 ^^ TE44 t0 ^^ at_ rk (p + 1)) ++
  PUTU32 (TE41 t2 ^^ TE42 t3 ^^ TE43 t0 ^^ TE44 t1 ^^ at_ rk (p + 2)) ++
  PUTU32 (TE41 t3 ^^ TE42 t0 ^^ TE43 t1 ^^ TE44 t2 ^^ at_ rk (p + 3)).

Definition rijndaelEncrypt (rk : list Z) (Nr : Z) (pt : list Z) : list Z :=
  let '(t, p) := rounds_loop enc_ROUND (Z.to_nat (Z.shiftr Nr 1)) rk 0 (load rk pt) in
  enc_last rk p t.

(** ** Key schedule for decryption *)

Definition swap_word (i j : Z) (rk : list Z) : list Z :=
  let temp := at_ rk i in
  let rk := <[Z.to_nat i := at_ rk j]> rk in
  <[Z.to_nat j := temp]> rk.

Fixpoint invert_order (fuel : nat) (i j : Z) (rk : list Z) : list Z :=
  match fuel with
  | O => rk
  | S fuel =>
      if i <? j then
        let rk := swap_word i j rk in
        let rk := swap_word (i + 1) (j + 1) rk in
        let rk := swap_word (i + 2) (j + 2) rk in
        let rk := swap_word (i + 3) (j + 3) rk in
        invert_order fuel (i + 4) (j - 4) rk
      else rk
  end.

(** The inverse MixColumn transform of a word. *)
Definition inv_mix (w : Z) : Z :=
  TD0_ (TE4 (Z.shiftr w 24)) ^^ TD1_ (TE4 (B2 w)) ^^ TD2_ (TE4 (B1 w)) ^^ TD3_ (TE4 (B0 w)).

Definition alter_word (f : Z -> Z) (p : Z) (rk : list Z) : list Z :=
  <[Z.to_nat p := f (at_ rk p)]> rk.

(** [for (i = 1; i < Nr; i++)], [n] passes left, [rk] at [p]. *)
Fixpoint inv_mix_rounds (f : Z -> Z) (n : nat) (p : Z) (rk : list Z) : list Z :=
  match n with
  | O => rk
  | S n =>
      let p := p + 4 in
      let rk := alter_word f p rk in
      let rk := alter_word f (p + 1) rk in
      let rk := alter_word f (p + 2) rk in
      let rk := alter_word f (p + 3) rk in
      inv_mix_rounds f n p rk
  end.

Definition invert_schedule (f : Z -> Z) (rk : list Z) (Nr : Z) : list Z :=
  inv_mix_rounds f (Z.to_nat (Nr - 1)) 0 (invert_order (Z.to_nat Nr) 0 (4 * Nr) rk).

Definition rijndaelKeySetupDec (cipherKey : list Z) (keyBits : Z) : cres (option (list Z * Z)) :=
  (r <-- rijndaelKeySetupEnc cipherKey keyBits ;;
   match r with
   | None => Ok None
   | Some (rk, Nr) => Ok (Some (invert_schedule inv_mix rk Nr, Nr))
   end)%c.

(** ** Decryption *)

Definition dec_ROUND (rk : list Z) (k : Z) (s : state) : state :=
  let '(s0, s1, s2, s3) := s in
  (TD0 s0 ^^ TD1 s3 ^^ TD2 s2 ^^ TD3 s1 ^^ at_ rk k,
   TD0 s1 ^^ TD1 s0 ^^ TD2 s3 ^^ TD3 s2 ^^ at_ rk (k + 1),
   TD0 s2 ^^ TD1 s1 ^^ TD2 s0 ^^ TD3 s3 ^^ at_ rk (k + 2),
   TD0 s3 ^^ TD1 s2 ^^ TD2 s1 ^^ TD3 s0 ^^ at_ rk (k + 3)).

Definition dec_last (rk : list Z) (p : Z) (t : state) : list Z :=
  let '(t0, t1, t2, t3) := t in
  PUTU32 (TD41 t0 ^^ TD42 t3 ^^ TD43 t2 ^^ TD44 t1 ^^ at_ rk p) ++
  PUTU32 (TD41 t1 ^^ TD42 t0 ^^ TD43 t3 ^^ TD44 t2 ^^ at_ rk (p + 1)) ++
  PUTU32 (TD41 t2 ^^ TD42 t1 ^^ TD43 t0 ^^ TD44 t3 ^^ at_ rk (p + 2)) ++
  PUTU32 (TD41 t3 ^^ TD42 t2 ^^ TD43 t1 ^^ TD44 t0 ^^ at_ rk (p + 3)).

Definition rijndaelDecrypt (rk : list Z) (Nr : Z) (ct : list Z) : list Z :=
  let '(t, p) := rounds_loop dec_ROUND (Z.to_nat (Z.shiftr Nr 1)) rk 0 (load rk ct) in
  dec_last rk p t.

(** ** Contexts *)

(** What [aes_encrypt_init] and [aes_decrypt_init] return: the schedule with
    [rk[AES_PRIV_NR_POS]], [None] for [NULL]; [malloc_ok] is the allocation. *)
Definition aes_encrypt_init (malloc_ok : bool) (key : list Z) (len : Z) : cres (option (list Z * Z)) :=
  if malloc_ok then rijndaelKeySetupEnc key (s32 (len * 8)) else Ok None.

Definition aes_encrypt (ctx : list Z * Z) (plain : list Z) : list Z :=
  rijndaelEncrypt ctx.1 ctx.2 plain.

Definition aes_decrypt_init (malloc_ok : bool) (key : list Z) (len : Z) : cres (option (list Z * Z)) :=
  if malloc_ok then rijndaelKeySetupDec key (s32 (len * 8)) else Ok None.

Definition aes_decrypt (ctx : list Z * Z) (crypt : list Z) : list Z :=
  rijndaelDecrypt ctx.1 ctx.2 crypt.

(** FIPS 197, appendix B. *)
Example fips197_appendix_B :
  (r <-- aes_encrypt_init true
          [0x2b; 0x7e; 0x15; 0x16; 0x28; 0xae; 0xd2; 0xa6; 0xab; 0xf7; 0x15; 0x88; 0x09; 0xcf; 0x4f; 0x3c] 16 ;;
   match r with
   | Some ctx => Ok (aes_encrypt ctx
       [0x32; 0x43; 0xf6; 0xa8; 0x88; 0x5a; 0x30; 0x8d; 0x31; 0x31; 0x98; 0xa2; 0xe0; 0x37; 0x07; 0x34])
   | None => Fault
   end)%c
  = Ok [0x39; 0x25; 0x84; 0x1d; 0x02; 0xdc; 0x09; 0xfb; 0xdc; 0x11; 0x85; 0x97; 0x19; 0x6a; 0x0b; 0x32].
Proof. vm_compute. reflexivity. Qed.

(** ** Bytes of words *)

Lemma B3_lxor x y : B3 (x ^^ y) = B3 x ^^ B3 y.
Proof. unfold B3. by rewrite Z.shiftr_lxor, land_lxor_r. Qed.
Lemma B2_lxor x y : B2 (x ^^ y) = B2 x ^^ B2 y.
Proof. unfold B2. by rewrite Z.shiftr_lxor, land_lxor_r. Qed.
Lemma B1_lxor x y : B1 (x ^^ y) = B1 x ^^ B1 y.
Proof. unfold B1. by rewrite Z.shiftr_lxor, land_lxor_r. Qed.
Lemma B0_lxor x y : B0 (x ^^ y) = B0 x ^^ B0 y.
Proof. apply land_lxor_r. Qed.

Lemma land_ff_range x : is_byte (Z.land x 0xff).
Proof. change 0xff with (Z.ones 8). rewrite land_mask by lia. apply Z.mod_pos_bound. lia. Qed.

Lemma B3_range x : is_byte (B3 x). Proof. apply land_ff_range. Qed.
Lemma B2_range x : is_byte (B2 x). Proof. apply land_ff_range. Qed.
Lemma B1_range x : is_byte (B1 x). Proof. apply land_ff_range. Qed.
Lemma B0_range x : is_byte (B0 x). Proof. apply land_ff_range. Qed.

Lemma PUTU32_bytes st : PUTU32 st = [B3 st; B2 st; B1 st; B0 st].
Proof.
  unfold PUTU32, B3, B2, B1, B0, u8. change 0xff with (Z.ones 8).
  by rewrite !land_mask by lia.
Qed.

(** A word is made of its bytes. *)
Definition word (a b c d : Z) : Z :=
  u32 (Z.shiftl a 24) ^^ u32 (Z.shiftl b 16) ^^ u32 (Z.shiftl c 8) ^^ d.

Lemma u32_land x : u32 x = Z.land x (Z.ones 32).
Proof. unfold u32. by rewrite land_mask by lia. Qed.

Lemma B_arith x :
  B3 x = x / 2 ^ 24 mod 2 ^ 8 /\ B2 x = x / 2 ^ 16 mod 2 ^ 8 /\
  B1 x = x / 2 ^ 8 mod 2 ^ 8 /\ B0 x = x mod 2 ^ 8.
Proof.
  unfold B3, B2, B1, B0. change 0xff with (Z.ones 8).
  by rewrite !land_mask, !shiftr_div by lia.
Qed.

Lemma word_arith a b c d :
  is_byte a -> is_byte b -> is_byte c -> is_byte d ->
  word a b c d = a * 2 ^ 24 + b * 2 ^ 16 + c * 2 ^ 8 + d.
Proof.
  intros. unfold word, u32. rewrite !shiftl_mul, !Z.mod_small by lia.
  rewrite (lxor_disjoint a _ 24) by lia.
  replace (a * 2 ^ 24 + b * 2 ^ 16) with ((a * 2 ^ 8 + b) * 2 ^ 16) by lia.
  rewrite (lxor_disjoint (a * 2 ^ 8 + b)) by lia.
  replace ((a * 2 ^ 8 + b) * 2 ^ 16 + c * 2 ^ 8) with (((a * 2 ^ 8 + b) * 2 ^ 8 + c) * 2 ^ 8) by lia.
  rewrite lxor_disjoint by lia. lia.
Qed.

Lemma word_range a b c d :
  is_byte a -> is_byte b -> is_byte c -> is_byte d -> is_u32 (word a b c d).
Proof. intros. rewrite word_arith by done. lia. Qed.

Lemma word_bytes a b c d :
  is_byte a -> is_byte b -> is_byte c -> is_byte d ->
  B3 (word a b c d) = a /\ B2 (word a b c d) = b /\ B1 (word a b c d) = c /\ B0 (word a b c d) = d.
Proof.
  intros. destruct (B_arith (word a b c d)) as (-> & -> & -> & ->).
  rewrite word_arith by done. repeat split; dlia.
Qed.

Lemma word_eta x : is_u32 x -> word (B3 x) (B2 x) (B1 x) (B0 x) = x.
Proof.
  intros. rewrite word_arith by apply land_ff_range.
  destruct (B_arith x) as (-> & -> & -> & ->). dlia.
Qed.

(** ** Exclusive or on words *)

Lemma rotr_lxor x y k :
  is_u32 x -> is_u32 y -> 0 <= k <= 32 -> rotr (x ^^ y) k = rotr x k ^^ rotr y k.
Proof.
  intros Hx Hy Hk. unfold rotr. rewrite !u32_land.
  apply Z.bits_inj'. intros n Hn.
  rewrite !Z.lor_spec, !Z.land_spec, !Z.lxor_spec, !Z.lor_spec, !Z.land_spec.
  rewrite !Z.shiftr_spec, !Z.shiftl_spec, !Z.lxor_spec by lia.
  destruct (Z.lt_ge_cases (n + k) 32).
  - rewrite !(Z.testbit_neg_r _ (n - (32 - k))) by lia. cbn.
    by rewrite !orb_false_r.
  - rewrite (bits_high x 32 (n + k)), (bits_high y 32 (n + k)) by lia. cbn.
    destruct (Z.testbit x (n - (32 - k))), (Z.testbit y (n - (32 - k))), (Z.testbit (Z.ones 32) n); done.
Qed.

(** Functions of a byte that are linear over exclusive or, from their values
    at the powers of two. *)
Fixpoint linear (basis : list Z) (i : Z) (x : Z) : Z :=
  match basis with
  | [] => 0
  | c :: basis => (if Z.testbit x i then c else 0) ^^ linear basis (i + 1) x
  end.

Lemma linear_lxor basis i x y : linear basis i (x ^^ y) = linear basis i x ^^ linear basis i y.
Proof.
  revert i. induction basis as [|c basis IH]; intros i; cbn [linear]; [done|].
  rewrite IH, Z.lxor_spec.
  destruct (Z.testbit x i), (Z.testbit y i); cbn [xorb]; xor_solve.
Qed.

Definition basis_of (f : Z -> Z) : list Z := map (fun k => f (BIT k)) (seqZ 0 8).

Lemma byte_linear (f : Z -> Z) x y :
  forallb (fun x => f x =? linear (basis_of f) 0 x) (seqZ 0 256) = true ->
  is_byte x -> is_byte y -> f (x ^^ y) = f x ^^ f y.
Proof.
  intros H Hx Hy.
  assert (E : forall z, is_byte z -> f z = linear (basis_of f) 0 z).
  { intros z Hz. apply Z.eqb_eq. exact (byte_forall _ z H Hz). }
  rewrite !E by auto using lxor_byte. apply linear_lxor.
Qed.

(** ** The tables *)

(** An equation in a byte, by its 256 cases. *)
Ltac by_bytes x :=
  apply Z.eqb_eq;
  match goal with |- ?e = true =>
    match eval pattern x in e with
    | ?f _ =>
        let H := fresh in
        assert (H : forallb f (seqZ 0 256) = true) by (vm_compute; reflexivity);
        refine (byte_forall f x H _); clear H
    end
  end; first [assumption | apply land_ff_range].

Definition u32_ok (x : Z) : bool := (0 <=? x) && (x <? 2 ^ 32).
Lemma u32_ok_spec x : u32_ok x = true -> is_u32 x.
Proof. unfold u32_ok. rewrite andb_true_iff. lia. Qed.

Lemma byte_u32 (f : Z -> Z) x :
  forallb (fun b => u32_ok (f b)) (seqZ 0 256) = true -> is_byte x -> is_u32 (f x).
Proof. intros H Hx. apply u32_ok_spec. exact (byte_forall (fun b => u32_ok (f b)) x H Hx). Qed.

Lemma lxor_u32 x y : is_u32 x -> is_u32 y -> is_u32 (x ^^ y).
Proof. apply (lxor_range x y 32). lia. Qed.

Lemma TE0_u32 x : is_u32 (TE0 x).
Proof. apply (byte_u32 (at_ Te0)); [by vm_compute|apply land_ff_range]. Qed.
Lemma TE1_u32 x : is_u32 (TE1 x).
Proof. apply (byte_u32 (fun b => rotr (at_ Te0 b) 8)); [by vm_compute|apply land_ff_range]. Qed.
Lemma TE2_u32 x : is_u32 (TE2 x).
Proof. apply (byte_u32 (fun b => rotr (at_ Te0 b) 16)); [by vm_compute|apply land_ff_range]. Qed.
Lemma TE3_u32 x : is_u32 (TE3 x).
Proof. apply (byte_u32 (fun b => rotr (at_ Te0 b) 24)); [by vm_compute|apply land_ff_range]. Qed.

(** The S-box: a byte of [Te0]. *)
Lemma TE4_byte x : is_byte (TE4 x).
Proof. apply (land_ff_range (Z.shiftr (at_ Te0 x) 8)). Qed.

Lemma at_u32 l i : Forall (fun x => is_u32 x) l -> is_u32 (at_ l i).
Proof.
  intros H. unfold at_. destruct (nth_in_or_default (Z.to_nat i) l 0) as [E| ->]; [|lia].
  rewrite List.Forall_forall in H. exact (H _ E).
Qed.

Create HintDb aes.
#[export] Hint Resolve lxor_u32 TE0_u32 TE1_u32 TE2_u32 TE3_u32 TE4_byte at_u32 word_range
  B3_range B2_range B1_range B0_range : aes.

(** A column of SubBytes and ShiftRows. *)
Definition sr (a b c d : Z) : Z := word (TE4 (B3 a)) (TE4 (B2 b)) (TE4 (B1 c)) (TE4 (B0 d)).

Lemma TE4x_sr a b c d : TE41 a ^^ TE42 b ^^ TE43 c ^^ TE44 d = sr a b c d.
Proof.
  unfold sr, word, TE41, TE42, TE43, TE44, TE4. f_equal. f_equal; [f_equal|].
  - generalize (B3_range a). generalize (B3 a). intros x Hx. by_bytes x.
  - generalize (B2_range b). generalize (B2 b). intros x Hx. by_bytes x.
  - generalize (B1_range c). generalize (B1 c). intros x Hx. by_bytes x.
Qed.

(** Inverse MixColumns is linear, and inverts MixColumns. *)
Lemma shiftr_24 x : is_u32 x -> Z.shiftr x 24 = B3 x.
Proof. intros. destruct (B_arith x) as (-> & _). rewrite shiftr_div by lia. dlia. Qed.

Lemma inv_mix_lxor x y : is_u32 x -> is_u32 y -> inv_mix (x ^^ y) = inv_mix x ^^ inv_mix y.
Proof.
  intros. unfold inv_mix. rewrite !shiftr_24 by auto with aes.
  rewrite B3_lxor, B2_lxor, B1_lxor, B0_lxor.
  rewrite (byte_linear (fun b => TD0_ (TE4 b)) (B3 x)) by (solve [vm_compute; done | auto with aes]).
  rewrite (byte_linear (fun b => TD1_ (TE4 b)) (B2 x)) by (solve [vm_compute; done | auto with aes]).
  rewrite (byte_linear (fun b => TD2_ (TE4 b)) (B1 x)) by (solve [vm_compute; done | auto with aes]).
  rewrite (byte_linear (fun b => TD3_ (TE4 b)) (B0 x)) by (solve [vm_compute; done | auto with aes]).
  xor_solve.
Qed.
Create Rewrite HintDb aes.
#[export] Hint Rewrite inv_mix_lxor using auto 8 with aes : aes.

Lemma inv_mix_columns a b c d : inv_mix (TE0 a ^^ TE1 b ^^ TE2 c ^^ TE3 d) = sr a b c d.
Proof.
  rewrite !inv_mix_lxor by auto with aes. unfold sr, word, TE0, TE1, TE2, TE3.
  f_equal; [f_equal; [f_equal|]|].
  - generalize (B3_range a). generalize (B3 a). intros x Hx. by_bytes x.
  - generalize (B2_range b). generalize (B2 b). intros x Hx. by_bytes x.
  - generalize (B1_range c). generalize (B1 c). intros x Hx. by_bytes x.
  - generalize (B0_range d). generalize (B0 d). intros x Hx. by_bytes x.
Qed.

Lemma sr_bytes a b c d :
  B3 (sr a b c d) = TE4 (B3 a) /\ B2 (sr a b c d) = TE4 (B2 b) /\
  B1 (sr a b c d) = TE4 (B1 c) /\ B0 (sr a b c d) = TE4 (B0 d).
Proof. apply word_bytes; apply TE4_byte. Qed.

(** The inverse S-box inverts the S-box. *)
Lemma Td4s_TE4 x : is_byte x -> at_ Td4s (TE4 x) = x.
Proof. intros. by_bytes x. Qed.

Lemma B0_TE4 x : B0 (TE4 x) = TE4 x.
Proof.
  pose proof (TE4_byte x). destruct (B_arith (TE4 x)) as (_ & _ & _ & ->). dlia.
Qed.

(** *** The columns of a decryption round *)

Lemma TD_sr x a1 a2 a3 b1 b2 b3 c1 c2 c3 d1 d2 d3 :
  is_u32 x ->
  TD0 (sr x a1 a2 a3) ^^ TD1 (sr b1 x b2 b3) ^^ TD2 (sr c1 c2 x c3) ^^ TD3 (sr d1 d2 d3 x) = inv_mix x.
Proof.
  intros. unfold inv_mix, TD0, TD1, TD2, TD3, TD0_, TD1_, TD2_, TD3_. rewrite shiftr_24 by done.
  destruct (sr_bytes x a1 a2 a3) as (-> & _), (sr_bytes b1 x b2 b3) as (_ & -> & _),
    (sr_bytes c1 c2 x c3) as (_ & _ & -> & _), (sr_bytes d1 d2 d3 x) as (_ & _ & _ & ->).
  by rewrite !B0_TE4.
Qed.

Lemma TD4_sr x a1 a2 a3 b1 b2 b3 c1 c2 c3 d1 d2 d3 :
  is_u32 x ->
  TD41 (sr x a1 a2 a3) ^^ TD42 (sr b1 x b2 b3) ^^ TD43 (sr c1 c2 x c3) ^^ TD44 (sr d1 d2 d3 x) = x.
Proof.
  intros. unfold TD41, TD42, TD43, TD44.
  destruct (sr_bytes x a1 a2 a3) as (-> & _), (sr_bytes b1 x b2 b3) as (_ & -> & _),
    (sr_bytes c1 c2 x c3) as (_ & _ & -> & _), (sr_bytes d1 d2 d3 x) as (_ & _ & _ & ->).
  rewrite !Td4s_TE4 by apply land_ff_range. by apply (word_eta x).
Qed.

(** ** Rounds *)

(** The state after [n] rounds, with the round keys that follow [p]. *)
Fixpoint rounds (ROUND : list Z -> Z -> state -> state) (rk : list Z) (p : Z) (n : nat) (s : state) : state :=
  match n with
  | O => s
  | S n => ROUND rk (p + 4 * (Z.of_nat n + 1)) (rounds ROUND rk p n s)
  end.

Lemma rounds_add ROUND rk p a b s :
  rounds ROUND rk p (a + b) s = rounds ROUND rk (p + 4 * Z.of_nat a) b (rounds ROUND rk p a s).
Proof.
  induction b as [|b IH]; [by rewrite Nat.add_0_r|].
  rewrite Nat.add_succ_r. cbn [rounds]. rewrite IH. f_equal. lia.
Qed.

Lemma rounds_loop_spec ROUND r rk p s :
  rounds_loop ROUND (S r) rk p s = (rounds ROUND rk p (2 * r + 1) s, p + 8 * (Z.of_nat r + 1)).
Proof.
  revert p s. induction r as [|r IH]; intros p s.
  { reflexivity. }
  change (rounds_loop ROUND (S (S r)) rk p s)
    with (rounds_loop ROUND (S r) rk (p + 8) (ROUND rk (p + 8) (ROUND rk (p + 4) s))).
  rewrite IH. f_equal; [|lia].
  replace (2 * S r + 1)%nat with (2 + (2 * r + 1))%nat by lia. rewrite (rounds_add _ _ _ 2).
  replace (p + 4 * Z.of_nat 2) with (p + 8) by lia.
  change (rounds ROUND rk p 2 s) with
    (ROUND rk (p + 4 * (Z.of_nat 1 + 1)) (ROUND rk (p + 4 * (Z.of_nat 0 + 1)) s)).
  replace (p + 4 * (Z.of_nat 0 + 1)) with (p + 4) by lia.
  by replace (p + 4 * (Z.of_nat 1 + 1)) with (p + 8) by lia.
Qed.

(** ** Decryption inverts encryption *)

Definition state_u32 (s : state) : Prop :=
  let '(s0, s1, s2, s3) := s in is_u32 s0 /\ is_u32 s1 /\ is_u32 s2 /\ is_u32 s3.

(** SubBytes and ShiftRows of a state. *)
Definition srsb (s : state) : state :=
  let '(s0, s1, s2, s3) := s in (sr s0 s1 s2 s3, sr s1 s2 s3 s0, sr s2 s3 s0 s1, sr s3 s0 s1 s2).

(** [dk] is the schedule for decryption that goes with [rk]. *)
Record inverse_schedule (rk dk : list Z) (Nr : Z) : Prop := {
  inv_first c : 0 <= c < 4 -> at_ dk c = at_ rk (4 * Nr + c);
  inv_last c : 0 <= c < 4 -> at_ dk (4 * Nr + c) = at_ rk c;
  inv_middle r c : 0 < r < Nr -> 0 <= c < 4 -> at_ dk (4 * r + c) = inv_mix (at_ rk (4 * (Nr - r) + c))
}.

Lemma GETU32_word l o : GETU32 l o = word (at_ l o) (at_ l (o + 1)) (at_ l (o + 2)) (at_ l (o + 3)).
Proof. done. Qed.

Lemma GETU32_u32 l o : bytes l -> is_u32 (GETU32 l o).
Proof. intros. rewrite GETU32_word. apply word_range; by apply at_byte. Qed.
#[local] Hint Resolve GETU32_u32 at_byte : aes.

Lemma load_u32 rk pt : Forall (fun x => is_u32 x) rk -> bytes pt -> state_u32 (load rk pt).
Proof. intros. unfold load, state_u32. auto 10 with aes. Qed.

Lemma enc_ROUND_u32 rk k s : Forall (fun x => is_u32 x) rk -> state_u32 (enc_ROUND rk k s).
Proof. intros. destruct s as [[[s0 s1] s2] s3]. unfold enc_ROUND, state_u32. auto 12 with aes. Qed.

Lemma rounds_u32 rk p n s :
  Forall (fun x => is_u32 x) rk -> state_u32 s -> state_u32 (rounds enc_ROUND rk p n s).
Proof. intros. destruct n; [done|]. by apply enc_ROUND_u32. Qed.

(** One round. *)
Lemma dec_enc_ROUND rk dk k k' s :
  Forall (fun x => is_u32 x) rk ->
  (forall c, 0 <= c < 4 -> at_ dk (k' + c) = inv_mix (at_ rk (k + c))) ->
  dec_ROUND dk k' (srsb (enc_ROUND rk k s)) = srsb s.
Proof.
  intros Hrk Hk. destruct s as [[[s0 s1] s2] s3].
  pose proof (enc_ROUND_u32 rk k (s0, s1, s2, s3) Hrk) as Hu.
  unfold enc_ROUND in *. destruct Hu as (H0 & H1 & H2 & H3).
  unfold srsb, dec_ROUND. rewrite !TD_sr by done.
  pose proof (Hk 0 ltac:(lia)) as Hk0. rewrite !Z.add_0_r in Hk0.
  rewrite Hk0, !Hk by lia.
  rewrite <- !inv_mix_lxor by auto with aes. rewrite !lxor_cancel.
  by rewrite !inv_mix_columns.
Qed.

Section inverse.
Context (rk dk : list Z) (Nr : Z) (x : state).
Hypotheses (Hrk : Forall (fun x => is_u32 x) rk) (Hinv : inverse_schedule rk dk Nr).

Lemma dec_rounds m n :
  Z.of_nat (m + n) = Nr - 1 ->
  rounds dec_ROUND dk 0 m (srsb (rounds enc_ROUND rk 0 (m + n) x)) = srsb (rounds enc_ROUND rk 0 n x).
Proof.
  revert n. induction m as [|m IH]; intros n Hn; [done|].
  replace (S m + n)%nat with (m + S n)%nat by lia. cbn [rounds]. rewrite IH by lia.
  cbn [rounds]. apply dec_enc_ROUND; [done|].
  intros c Hc. replace (0 + 4 * (Z.of_nat m + 1) + c) with (4 * (Z.of_nat m + 1) + c) by lia.
  rewrite (inv_middle _ _ _ Hinv) by lia. f_equal. f_equal. lia.
Qed.
End inverse.

Lemma load_PUTU32 rk a b c d :
  is_u32 a -> is_u32 b -> is_u32 c -> is_u32 d ->
  load rk (PUTU32 a ++ PUTU32 b ++ PUTU32 c ++ PUTU32 d) =
  (a ^^ at_ rk 0, b ^^ at_ rk 1, c ^^ at_ rk 2, d ^^ at_ rk 3).
Proof.
  intros. rewrite !PUTU32_bytes. unfold load, GETU32.
  repeat f_equal; by apply (word_eta _).
Qed.

Lemma PUTU32_GETU32 pt :
  bytes pt -> length pt = 16%nat ->
  PUTU32 (GETU32 pt 0) ++ PUTU32 (GETU32 pt 4) ++ PUTU32 (GETU32 pt 8) ++ PUTU32 (GETU32 pt 12) = pt.
Proof.
  intros Hb Hl. rewrite !PUTU32_bytes.
  do 16 (destruct pt as [|? pt]; [discriminate Hl|]). destruct pt; [|discriminate Hl].
  rewrite !bytes_cons in Hb. destruct_and! Hb.
  repeat match goal with |- context [GETU32 ?l ?o] =>
    change (GETU32 l o) with (word (at_ l o) (at_ l (o + 1)) (at_ l (o + 2)) (at_ l (o + 3))) end.
  cbv [at_ nth Z.to_nat Z.add Pos.to_nat Pos.iter_op Nat.add Pos.add Pos.succ].
  repeat match goal with |- context [word ?a ?b ?c ?d] =>
    destruct (word_bytes a b c d) as (-> & -> & -> & ->); try done end.
Qed.

Lemma decrypt_encrypt rk dk Nr h pt :
  Forall (fun x => is_u32 x) rk -> inverse_schedule rk dk Nr -> Nr = 2 * (Z.of_nat h + 1) ->
  bytes pt -> length pt = 16%nat ->
  rijndaelDecrypt dk Nr (rijndaelEncrypt rk Nr pt) = pt.
Proof.
  intros Hrk Hinv HNr Hpt Hl. unfold rijndaelDecrypt, rijndaelEncrypt.
  replace (Z.to_nat (Z.shiftr Nr 1)) with (S h) by (rewrite shiftr_div by lia; subst; dlia).
  rewrite !rounds_loop_spec.
  replace (0 + 8 * (Z.of_nat h + 1)) with (4 * Nr) by lia.
  set (x := load rk pt).
  pose proof (load_u32 rk pt Hrk Hpt) as Hx. fold x in Hx.
  pose proof (dec_rounds rk dk Nr x Hrk Hinv (2 * h + 1) 0 ltac:(lia)) as Hd.
  rewrite Nat.add_0_r in Hd. cbn [rounds] in Hd.
  pose proof (rounds_u32 rk 0 (2 * h + 1) x Hrk Hx) as Hy.
  destruct (rounds enc_ROUND rk 0 (2 * h + 1) x) as [[[y0 y1] y2] y3].
  unfold enc_last. rewrite !TE4x_sr, load_PUTU32 by (unfold sr; auto with aes).
  pose proof (inv_first _ _ _ Hinv 0 ltac:(lia)) as F0.
  pose proof (inv_last _ _ _ Hinv 0 ltac:(lia)) as L0. rewrite !Z.add_0_r in F0, L0.
  rewrite F0, !(inv_first _ _ _ Hinv), !lxor_cancel by lia.
  change (sr y0 y1 y2 y3, sr y1 y2 y3 y0, sr y2 y3 y0 y1, sr y3 y0 y1 y2) with (srsb (y0, y1, y2, y3)).
  rewrite Hd. unfold dec_last, srsb, x, load in *. cbn in Hx. destruct Hx as (? & ? & ? & ?).
  rewrite !TD4_sr by done.
  rewrite L0, !(inv_last _ _ _ Hinv) by lia. rewrite !lxor_cancel. by apply PUTU32_GETU32.
Qed.

(** ** FIPS 197 *)

(** The standard's definitions, on bytes: the field GF(2^8), the S-box, and the
    cipher on the state as 16 bytes, column after column. *)
Module Fips.

Definition xtime (b : Z) : Z := if b <? 128 then 2 * b else (2 * b) ^^ 0x11b.

Fixpoint gmul_bits (n : nat) (a b : Z) : Z :=
  match n with
  | O => 0
  | S n => (if Z.odd b then a else 0) ^^ gmul_bits n (xtime a) (b / 2)
  end.
Definition gmul (a b : Z) : Z := gmul_bits 8 a b.

Definition ginv (a : Z) : Z := Nat.iter 254 (gmul a) 1.

Definition rotl8 (b k : Z) : Z := (b * 2 ^ k) mod 256 + b / 2 ^ (8 - k).

Definition sbox (x : Z) : Z :=
  let b := ginv x in b ^^ rotl8 b 1 ^^ rotl8 b 2 ^^ rotl8 b 3 ^^ rotl8 b 4 ^^ 0x63.

Definition sub_word (w : Z) : Z := word (sbox (B3 w)) (sbox (B2 w)) (sbox (B1 w)) (sbox (B0 w)).
Definition rot_word (w : Z) : Z := word (B2 w) (B1 w) (B0 w) (B3 w).
Definition rcon (i : Z) : Z := word (Nat.iter (Z.to_nat (i - 1)) xtime 1) 0 0 0.

(** [w[i]] from the words before it. *)
Definition next_word (Nk : Z) (w : list Z) : Z :=
  let i := zlen w in
  let temp := at_ w (i - 1) in
  at_ w (i - Nk) ^^
  (if i mod Nk =? 0 then sub_word (rot_word temp) ^^ rcon (i / Nk)
   else if (6 <? Nk) && (i mod Nk =? 4) then sub_word temp
   else temp).

Fixpoint expand (Nk : Z) (n : nat) (w : list Z) : list Z :=
  match n with O => w | S n => expand Nk n (w ++ [next_word Nk w]) end.

Definition key_expansion (key : list Z) (Nk : Z) : list Z :=
  expand Nk (Z.to_nat (4 * (Nk + 7) - Nk)) (key_words key (Z.to_nat Nk)).

Definition sub_bytes (st : list Z) : list Z := map sbox st.

Definition shift_rows (st : list Z) : list Z :=
  map (at_ st) [0; 5; 10; 15; 4; 9; 14; 3; 8; 13; 2; 7; 12; 1; 6; 11].

Definition mix_column (st : list Z) (c : Z) : list Z :=
  let a0 := at_ st c in let a1 := at_ st (c + 1) in
  let a2 := at_ st (c + 2) in let a3 := at_ st (c + 3) in
  [gmul a0 2 ^^ gmul a1 3 ^^ a2 ^^ a3; a0 ^^ gmul a1 2 ^^ gmul a2 3 ^^ a3;
   a0 ^^ a1 ^^ gmul a2 2 ^^ gmul a3 3; gmul a0 3 ^^ a1 ^^ a2 ^^ gmul a3 2].

Definition mix_columns (st : list Z) : list Z :=
  mix_column st 0 ++ mix_column st 4 ++ mix_column st 8 ++ mix_column st 12.

Definition word_bytes (w : Z) : list Z := [B3 w; B2 w; B1 w; B0 w].

Definition add_round_key (w : list Z) (p : Z) (st : list Z) : list Z :=
  zip_with Z.lxor st
    (word_bytes (at_ w p) ++ word_bytes (at_ w (p + 1)) ++
     word_bytes (at_ w (p + 2)) ++ word_bytes (at_ w (p + 3))).

Fixpoint full_rounds (w : list Z) (n : nat) (st : list Z) : list Z :=
  match n with
  | O => st
  | S n => add_round_key w (4 * (Z.of_nat n + 1))
             (mix_columns (shift_rows (sub_bytes (full_rounds w n st))))
  end.

Definition cipher (w : list Z) (Nr : Z) (block : list Z) : list Z :=
  add_round_key w (4 * Nr)
    (shift_rows (sub_bytes (full_rounds w (Z.to_nat (Nr - 1)) (add_round_key w 0 block)))).

End Fips.

(** *** The tables have the standard's values *)

Lemma TE4_sbox x : is_byte x -> TE4 x = Fips.sbox x.
Proof. intros. by_bytes x. Qed.

Lemma PUTU32_TE0 a : let s := TE4 (B3 a) in
  PUTU32 (TE0 a) = [Fips.gmul s 2; s; s; Fips.gmul s 3].
Proof.
  rewrite PUTU32_bytes. unfold TE0. generalize (B3_range a). generalize (B3 a). intros x Hx.
  cbv zeta. repeat apply (f_equal2 cons); try reflexivity; by_bytes x.
Qed.
Lemma PUTU32_TE1 a : let s := TE4 (B2 a) in
  PUTU32 (TE1 a) = [Fips.gmul s 3; Fips.gmul s 2; s; s].
Proof.
  rewrite PUTU32_bytes. unfold TE1. generalize (B2_range a). generalize (B2 a). intros x Hx.
  cbv zeta. repeat apply (f_equal2 cons); try reflexivity; by_bytes x.
Qed.
Lemma PUTU32_TE2 a : let s := TE4 (B1 a) in
  PUTU32 (TE2 a) = [s; Fips.gmul s 3; Fips.gmul s 2; s].
Proof.
  rewrite PUTU32_bytes. unfold TE2. generalize (B1_range a). generalize (B1 a). intros x Hx.
  cbv zeta. repeat apply (f_equal2 cons); try reflexivity; by_bytes x.
Qed.
Lemma PUTU32_TE3 a : let s := TE4 (B0 a) in
  PUTU32 (TE3 a) = [s; s; Fips.gmul s 3; Fips.gmul s 2].
Proof.
  rewrite PUTU32_bytes. unfold TE3. generalize (B0_range a). generalize (B0 a). intros x Hx.
  cbv zeta. repeat apply (f_equal2 cons); try reflexivity; by_bytes x.
Qed.

Lemma RCON_rcon i : 0 <= i < 10 -> RCON i = Fips.rcon (i + 1).
Proof.
  intros Hi. assert (Hc : forallb (fun i => RCON i =? Fips.rcon (i + 1)) (seqZ 0 10) = true) by (by vm_compute).
  rewrite forallb_forall in Hc. apply Z.eqb_eq, Hc. apply list_elem_of_In, elem_of_seqZ. lia.
Qed.

Lemma PUTU32_lxor x y : PUTU32 (x ^^ y) = zip_with Z.lxor (PUTU32 x) (PUTU32 y).
Proof. rewrite !PUTU32_bytes, B3_lxor, B2_lxor, B1_lxor, B0_lxor. done. Qed.

Lemma PUTU32_word a b c d :
  is_byte a -> is_byte b -> is_byte c -> is_byte d -> PUTU32 (word a b c d) = [a; b; c; d].
Proof. intros. rewrite PUTU32_bytes. by destruct (word_bytes a b c d) as (-> & -> & -> & ->). Qed.

Lemma PUTU32_sr a b c d :
  PUTU32 (sr a b c d) =
  [Fips.sbox (B3 a); Fips.sbox (B2 b); Fips.sbox (B1 c); Fips.sbox (B0 d)].
Proof.
  unfold sr. rewrite PUTU32_word by apply TE4_byte.
  by rewrite !TE4_sbox by apply land_ff_range.
Qed.

(** *** The rounds are the standard's *)

(** The bytes of a state. *)
Definition bytes_of (s : state) : list Z :=
  let '(s0, s1, s2, s3) := s in PUTU32 s0 ++ PUTU32 s1 ++ PUTU32 s2 ++ PUTU32 s3.

Lemma bytes_of_load rk pt :
  bytes pt -> length pt = 16%nat -> bytes_of (load rk pt) = Fips.add_round_key rk 0 pt.
Proof.
  intros Hb Hl. unfold Fips.add_round_key.
  rewrite <- (PUTU32_GETU32 pt Hb Hl) at 2. unfold load, bytes_of.
  rewrite !PUTU32_lxor, !PUTU32_bytes. done.
Qed.

(** The 16 bytes of a state, by position. *)
Ltac state_bytes :=
  rewrite ?PUTU32_bytes; cbn [app map];
  cbv [Fips.mix_columns Fips.mix_column at_ nth Z.to_nat Z.add Pos.to_nat Pos.iter_op Nat.add
       Pos.add Pos.succ app map].

Lemma shift_sub_bytes s0 s1 s2 s3 :
  Fips.shift_rows (Fips.sub_bytes (bytes_of (s0, s1, s2, s3))) =
  PUTU32 (sr s0 s1 s2 s3) ++ PUTU32 (sr s1 s2 s3 s0) ++ PUTU32 (sr s2 s3 s0 s1) ++ PUTU32 (sr s3 s0 s1 s2).
Proof.
  rewrite !PUTU32_sr. unfold Fips.shift_rows, Fips.sub_bytes, bytes_of. state_bytes. done.
Qed.

Lemma mix_PUTU32 a b c d :
  PUTU32 (TE0 a ^^ TE1 b ^^ TE2 c ^^ TE3 d) =
  let st := PUTU32 (sr a b c d) in Fips.mix_column st 0.
Proof.
  cbv zeta. rewrite !PUTU32_lxor, PUTU32_TE0, PUTU32_TE1, PUTU32_TE2, PUTU32_TE3.
  unfold sr. rewrite PUTU32_word by apply TE4_byte.
  state_bytes. cbn [zip_with]. done.
Qed.

Lemma bytes_of_enc_ROUND rk k s :
  bytes_of (enc_ROUND rk k s) =
  Fips.add_round_key rk k (Fips.mix_columns (Fips.shift_rows (Fips.sub_bytes (bytes_of s)))).
Proof.
  destruct s as [[[s0 s1] s2] s3]. rewrite shift_sub_bytes.
  assert (E : forall a b c d, Fips.mix_columns (PUTU32 a ++ PUTU32 b ++ PUTU32 c ++ PUTU32 d) =
    Fips.mix_column (PUTU32 a) 0 ++ Fips.mix_column (PUTU32 b) 0 ++
    Fips.mix_column (PUTU32 c) 0 ++ Fips.mix_column (PUTU32 d) 0) by (intros; state_bytes; done).
  rewrite E. unfold enc_ROUND, bytes_of, Fips.add_round_key.
  rewrite !(PUTU32_lxor (_ ^^ TE3 _)), !mix_PUTU32. cbv zeta.
  unfold Fips.mix_column. rewrite !PUTU32_bytes. done.
Qed.

Lemma bytes_of_rounds rk n s :
  bytes_of (rounds enc_ROUND rk 0 n s) = Fips.full_rounds rk n (bytes_of s).
Proof. induction n as [|n IH]; [done|]. cbn [rounds Fips.full_rounds]. by rewrite bytes_of_enc_ROUND, IH. Qed.

Lemma encrypt_fips rk Nr h pt :
  Nr = 2 * (Z.of_nat h + 1) -> bytes pt -> length pt = 16%nat ->
  rijndaelEncrypt rk Nr pt = Fips.cipher rk Nr pt.
Proof.
  intros HNr Hb Hl. unfold rijndaelEncrypt, Fips.cipher.
  replace (Z.to_nat (Z.shiftr Nr 1)) with (S h) by (rewrite shiftr_div by lia; subst; dlia).
  rewrite rounds_loop_spec. replace (0 + 8 * (Z.of_nat h + 1)) with (4 * Nr) by lia.
  replace (Z.to_nat (Nr - 1)) with (2 * h + 1)%nat by lia.
  rewrite <- bytes_of_load, <- bytes_of_rounds by done.
  destruct (rounds enc_ROUND rk 0 (2 * h + 1) (load rk pt)) as [[[t0 t1] t2] t3].
  rewrite shift_sub_bytes. unfold enc_last, Fips.add_round_key.
  rewrite !(PUTU32_lxor (_ ^^ TE44 _)), !TE4x_sr, !PUTU32_sr, !PUTU32_bytes. done.
Qed.

(** ** The key schedule is the standard's key expansion *)

Lemma schedule_core_fips t : schedule_core t = Fips.sub_word (Fips.rot_word t).
Proof.
  unfold Fips.sub_word, Fips.rot_word.
  destruct (word_bytes (B2 t) (B1 t) (B0 t) (B3 t)) as (-> & -> & -> & ->); try apply land_ff_range.
  rewrite <- !TE4_sbox by apply land_ff_range.
  unfold word, schedule_core, TE421, TE432, TE443, TE414, TE4.
  f_equal. f_equal; [f_equal|].
  - generalize (B2_range t). generalize (B2 t). intros x Hx. by_bytes x.
  - generalize (B1_range t). generalize (B1 t). intros x Hx. by_bytes x.
  - generalize (B0_range t). generalize (B0 t). intros x Hx. by_bytes x.
Qed.

Lemma sub_word_TE t : TE411 t ^^ TE422 t ^^ TE433 t ^^ TE444 t = Fips.sub_word t.
Proof.
  unfold TE411, TE422, TE433, TE444. rewrite TE4x_sr. unfold sr, Fips.sub_word.
  by rewrite !TE4_sbox by apply land_ff_range.
Qed.

Lemma expand_add Nk a b w : Fips.expand Nk (a + b) w = Fips.expand Nk b (Fips.expand Nk a w).
Proof. revert w. induction a as [|a IH]; intros w; [done|]. apply IH. Qed.

Lemma length_expand Nk n w : length (Fips.expand Nk n w) = (n + length w)%nat.
Proof. revert w. induction n as [|n IH]; intros w; cbn; [done|]. rewrite IH, length_app. cbn. lia. Qed.

(** The words the code pushes are the next words of the expansion. *)
Lemma push_core Nk i base rk :
  zlen rk = base + Nk -> base = Nk * i -> 0 <= i < 10 -> 0 < Nk ->
  push rk (at_ rk base ^^ schedule_core (at_ rk (base + (Nk - 1))) ^^ RCON i) = Fips.expand Nk 1 rk.
Proof.
  intros Hl Hb Hi HN. cbn [Fips.expand]. unfold push, Fips.next_word. rewrite Hl, Hb.
  replace ((Nk * i + Nk) mod Nk) with 0 by (rewrite Z.add_comm, Z.mul_comm, Z.mod_add, Z.mod_same; lia).
  replace ((Nk * i + Nk) / Nk) with (i + 1)
    by (replace (Nk * i + Nk) with ((i + 1) * Nk) by lia; rewrite Z.div_mul; lia).
  rewrite Z.eqb_refl, schedule_core_fips, RCON_rcon by done.
  rewrite <- Z.lxor_assoc. replace (Nk * i + Nk - Nk) with (Nk * i) by lia.
  by replace (Nk * i + (Nk - 1)) with (Nk * i + Nk - 1) by lia.
Qed.

Lemma push_chain Nk i base k rk :
  zlen rk = base + Nk + k -> base = Nk * i -> 0 <= i -> 0 < k < Nk -> (6 < Nk -> k <> 4) ->
  chain base k Nk rk = Fips.expand Nk 1 rk.
Proof.
  intros Hl Hb Hi Hk H4. cbn [Fips.expand]. unfold chain, push, Fips.next_word. rewrite Hl, Hb.
  replace ((Nk * i + Nk + k) mod Nk) with k
    by (replace (Nk * i + Nk + k) with (k + (i + 1) * Nk) by lia; rewrite Z.mod_add, Z.mod_small; lia).
  destruct (Z.eqb_spec k 0); [lia|].
  replace ((6 <? Nk) && (k =? 4)) with false
    by (symmetry; apply andb_false_iff; destruct (Z.ltb_spec 6 Nk); [right; apply Z.eqb_neq; auto|by left]).
  replace (Nk * i + Nk + k - Nk) with (Nk * i + k) by lia.
  by replace (Nk * i + k + Nk - 1) with (Nk * i + Nk + k - 1) by lia.
Qed.

Lemma push_sub i base rk :
  zlen rk = base + 12 -> base = 8 * i -> 0 <= i ->
  push rk (at_ rk (base + 4) ^^ (TE411 (at_ rk (base + 11)) ^^ TE422 (at_ rk (base + 11)) ^^
                                 TE433 (at_ rk (base + 11)) ^^ TE444 (at_ rk (base + 11)))) =
  Fips.expand 8 1 rk.
Proof.
  intros Hl Hb Hi. cbn [Fips.expand]. unfold push, Fips.next_word. rewrite Hl, Hb, sub_word_TE.
  replace ((8 * i + 12) mod 8) with 4 by dlia.
  cbn [Z.eqb Z.ltb Z.compare Pos.compare Pos.compare_cont Pos.eqb andb].
  replace (8 * i + 12 - 8) with (8 * i + 4) by lia.
  by replace (8 * i + 12 - 1) with (8 * i + 11) by lia.
Qed.

Lemma length_chain base k d rk : zlen (chain base k d rk) = zlen rk + 1.
Proof. unfold chain, push. rewrite length_app. cbn. lia. Qed.
Lemma length_push rk v : zlen (push rk v) = zlen rk + 1.
Proof. unfold push. rewrite length_app. cbn. lia. Qed.

(** Rewrites the assignments of one iteration into steps of the expansion. *)
Ltac expansion i :=
  repeat first
    [ rewrite (push_core _ i) by (rewrite ?length_chain, ?length_expand; lia)
    | rewrite (push_chain _ i) by (rewrite ?length_chain, ?length_expand; lia)
    | rewrite (push_sub i) by (rewrite ?length_chain, ?length_expand; lia) ];
  rewrite <- ?expand_add.

Lemma loop128_expand n i rk :
  zlen rk = 4 * i + 4 -> 0 <= i -> i + Z.of_nat n <= 10 ->
  loop128 n i (4 * i) rk = Fips.expand 4 (4 * n) rk.
Proof.
  revert i rk. induction n as [|n IH]; intros i rk Hl Hi Hn; [done|].
  cbn [loop128]. unfold expand128. cbv zeta.
  change (4 * i + 3) with (4 * i + (4 - 1)). expansion i.
  replace (4 * i + 4) with (4 * (i + 1)) by lia.
  rewrite IH by (rewrite ?length_expand; lia). rewrite <- expand_add. f_equal. lia.
Qed.

Lemma loop192_expand n i rk :
  zlen rk = 6 * i + 6 -> 0 <= i -> i + Z.of_nat n = 8 -> (0 < n)%nat ->
  loop192 n i (6 * i) rk = Fips.expand 6 (6 * n - 2) rk.
Proof.
  revert i rk. induction n as [|n IH]; intros i rk Hl Hi Hn Hp; [lia|].
  cbn [loop192]. cbv zeta. change (6 * i + 5) with (6 * i + (6 - 1)). expansion i.
  destruct (Z.eqb_spec i 7).
  - f_equal. lia.
  - expansion i. replace (6 * i + 6) with (6 * (i + 1)) by lia.
    rewrite IH by (rewrite ?length_expand; lia). rewrite <- expand_add. f_equal. lia.
Qed.

Lemma loop256_expand n i rk :
  zlen rk = 8 * i + 8 -> 0 <= i -> i + Z.of_nat n = 7 -> (0 < n)%nat ->
  loop256 n i (8 * i) rk = Fips.expand 8 (8 * n - 4) rk.
Proof.
  revert i rk. induction n as [|n IH]; intros i rk Hl Hi Hn Hp; [lia|].
  cbn [loop256]. cbv zeta. change (8 * i + 7) with (8 * i + (8 - 1)). expansion i.
  destruct (Z.eqb_spec i 6).
  - f_equal. lia.
  - expansion i. replace (8 * i + 8) with (8 * (i + 1)) by lia.
    rewrite IH by (rewrite ?length_expand; lia). rewrite <- expand_add. f_equal. lia.
Qed.

Definition valid_Nk (Nk : Z) : Prop := Nk = 4 \/ Nk = 6 \/ Nk = 8.

Lemma key_setup_expansion key Nk :
  valid_Nk Nk -> zlen key = 4 * Nk ->
  rijndaelKeySetupEnc key (32 * Nk) = Ok (Some (Fips.key_expansion key Nk, Nk + 6)).
Proof.
  intros HN Hl. unfold rijndaelKeySetupEnc, Fips.key_expansion. rewrite Hl.
  destruct HN as [->|[->| ->]]; cbn [Z.mul Z.ltb Z.eqb Z.compare Pos.compare Pos.compare_cont Pos.mul Pos.eqb];
    do 3 f_equal.
  - by rewrite (loop128_expand 10 0) by (cbn; lia).
  - by rewrite (loop192_expand 8 0) by (cbn; lia).
  - by rewrite (loop256_expand 7 0) by (cbn; lia).
Qed.

(** ** The schedule for decryption *)

Lemma sbox_byte x : is_byte x -> is_byte (Fips.sbox x).
Proof. intros. rewrite <- TE4_sbox by done. apply TE4_byte. Qed.

Lemma xtime_byte b : is_byte b -> is_byte (Fips.xtime b).
Proof.
  intros Hb. cut ((0 <=? Fips.xtime b) && (Fips.xtime b <? 256) = true); [lia|].
  refine (byte_forall (fun b => (0 <=? Fips.xtime b) && (Fips.xtime b <? 256)) b _ Hb).
  by vm_compute.
Qed.

Lemma next_word_u32 Nk w : Forall (fun x => is_u32 x) w -> is_u32 (Fips.next_word Nk w).
Proof.
  intros Hw. unfold Fips.next_word. apply lxor_u32; [by apply at_u32|].
  assert (Hs : forall x, is_u32 (Fips.sub_word x))
    by (intros; unfold Fips.sub_word; apply word_range; apply sbox_byte, land_ff_range).
  case_match; [|case_match; [apply Hs|by apply at_u32]].
  apply lxor_u32; [apply Hs|]. unfold Fips.rcon. apply word_range; [|lia..].
  generalize (Z.to_nat (zlen w / Nk - 1)). intros n.
  induction n; [cbn; lia|]. by apply xtime_byte.
Qed.

Lemma expand_u32 Nk n w : Forall (fun x => is_u32 x) w -> Forall (fun x => is_u32 x) (Fips.expand Nk n w).
Proof.
  revert w. induction n as [|n IH]; intros w Hw; [done|]. apply IH.
  apply Forall_app. split; [done|]. constructor; [by apply next_word_u32|constructor].
Qed.

Lemma key_expansion_u32 key Nk : bytes key -> Forall (fun x => is_u32 x) (Fips.key_expansion key Nk).
Proof.
  intros. apply expand_u32. unfold key_words. apply Forall_forall. intros x Hx.
  apply list_elem_of_fmap in Hx as (k & -> & _). by apply GETU32_u32.
Qed.

Lemma length_key_expansion key Nk :
  valid_Nk Nk -> length (Fips.key_expansion key Nk) = Z.to_nat (4 * (Nk + 7)).
Proof.
  intros HN. unfold Fips.key_expansion. rewrite length_expand. unfold key_words.
  rewrite length_map, length_seq. destruct HN as [->|[->| ->]]; lia.
Qed.

(** The two loops of [rijndaelKeySetupDec], word by word. *)
Lemma invert_schedule_words (f : Z -> Z) rk Nk :
  valid_Nk Nk -> length rk = Z.to_nat (4 * (Nk + 7)) ->
  invert_schedule f rk (Nk + 6) =
  map (fun p => let v := at_ rk (4 * (Nk + 6 - p / 4) + p mod 4) in
                if (0 <? p / 4) && (p / 4 <? Nk + 6) then f v else v)
    (seqZ 0 (4 * (Nk + 7))).
Proof.
  intros HN Hl. destruct HN as [->|[->| ->]].
  - do 44 (destruct rk as [|? rk]; [discriminate Hl|]). destruct rk; [|discriminate Hl].
    vm_compute. reflexivity.
  - do 52 (destruct rk as [|? rk]; [discriminate Hl|]). destruct rk; [|discriminate Hl].
    vm_compute. reflexivity.
  - do 60 (destruct rk as [|? rk]; [discriminate Hl|]). destruct rk; [|discriminate Hl].
    vm_compute. reflexivity.
Qed.

Lemma at_map_seqZ (f : Z -> Z) n i : 0 <= i < n -> at_ (map f (seqZ 0 n)) i = f i.
Proof.
  intros. unfold at_. rewrite (nth_indep _ 0 (f 0)) by (rewrite length_map, length_seqZ; lia).
  rewrite map_nth. f_equal. apply nth_lookup_Some. rewrite lookup_seqZ. lia.
Qed.

Lemma inverse_schedule_ok key Nk :
  valid_Nk Nk ->
  inverse_schedule (Fips.key_expansion key Nk)
    (invert_schedule inv_mix (Fips.key_expansion key Nk) (Nk + 6)) (Nk + 6).
Proof.
  intros HN. pose proof (length_key_expansion key Nk HN) as Hl.
  rewrite (invert_schedule_words inv_mix _ Nk HN Hl).
  assert (0 < Nk) by (unfold valid_Nk in HN; lia).
  split; intros *; intros; rewrite at_map_seqZ by lia; cbv zeta.
  - replace (c / 4) with 0 by dlia. cbn [Z.ltb Z.compare andb]. f_equal. dlia.
  - replace ((4 * (Nk + 6) + c) / 4) with (Nk + 6) by dlia. rewrite Z.ltb_irrefl, andb_false_r.
    f_equal. dlia.
  - replace ((4 * r + c) / 4) with r by dlia.
    destruct (Z.ltb_spec 0 r), (Z.ltb_spec r (Nk + 6)); try lia. cbn [andb]. do 2 f_equal. dlia.
Qed.

(** The contexts for a key, and that they are inverse of each other. *)
Lemma aes_init_inverse key Nk :
  valid_Nk Nk -> bytes key -> zlen key = 4 * Nk ->
  exists e d, aes_encrypt_init true key (4 * Nk) = Ok (Some e) /\
    aes_decrypt_init true key (4 * Nk) = Ok (Some d) /\
    forall b, bytes b /\ length b = 16%nat -> aes_decrypt d (aes_encrypt e b) = b.
Proof.
  intros HN Hkb Hk.
  exists (Fips.key_expansion key Nk, Nk + 6),
    (invert_schedule inv_mix (Fips.key_expansion key Nk) (Nk + 6), Nk + 6).
  unfold aes_encrypt_init, aes_decrypt_init, rijndaelKeySetupDec.
  rewrite s32_small by (unfold valid_Nk in HN; lia). replace (4 * Nk * 8) with (32 * Nk) by lia. rewrite key_setup_expansion by done.
  split; [done|]. split; [done|]. intros b [Hb Hl].
  apply (decrypt_encrypt _ _ _ (Z.to_nat (Nk / 2 + 2))); try done.
  - by apply key_expansion_u32.
  - by apply inverse_schedule_ok.
  - by destruct HN as [->|[->| ->]].
Qed.

(** ** Theorems *)

(** C12: Encrypting with the context [aes_encrypt_init] makes of a key of 16,
    24 or 32 bytes is AES as FIPS 197 defines it on bytes: the key expansion,
    then the rounds of SubBytes, ShiftRows, MixColumns and AddRoundKey. *)
Theorem aes_encrypt_fips197 key Nk block :
  valid_Nk Nk -> zlen key = 4 * Nk -> bytes block -> length block = 16%nat ->
  exists ctx, aes_encrypt_init true key (4 * Nk) = Ok (Some ctx) /\
    aes_encrypt ctx block = Fips.cipher (Fips.key_expansion key Nk) (Nk + 6) block.
Proof.
  intros HN Hk Hb Hl. eexists. split.
  - unfold aes_encrypt_init. rewrite s32_small by (unfold valid_Nk in HN; lia). replace (4 * Nk * 8) with (32 * Nk) by lia.
    by apply key_setup_expansion.
  - apply (encrypt_fips _ _ (Z.to_nat (Nk / 2 + 2))); [|done..].
    by destruct HN as [->|[->| ->]].
Qed.

(** C36: For a key of 16, 24 or 32 bytes, [aes_decrypt] with the context of
    [aes_decrypt_init] inverts [aes_encrypt] with the context of
    [aes_encrypt_init], on every block. *)
Theorem aes_decrypt_encrypt key Nk block :
  valid_Nk Nk -> zlen key = 4 * Nk -> bytes key -> bytes block -> length block = 16%nat ->
  exists e d, aes_encrypt_init true key (4 * Nk) = Ok (Some e) /\
    aes_decrypt_init true key (4 * Nk) = Ok (Some d) /\
    aes_decrypt d (aes_encrypt e block) = block.
Proof.
  intros HN Hk Hkb Hb Hl. destruct (aes_init_inverse key Nk HN Hkb Hk) as (e & d & He & Hd & H).
  exists e, d. split; [done|]. split; [done|]. by apply H.
Qed.

(** *** Witnesses *)

(** The key and plaintext of FIPS 197, appendix C.1. *)
Definition demo_key : list Z := seqZ 0 16.
Definition demo_block : list Z := map (fun i => 17 * i) (seqZ 0 16).

Lemma aes_encrypt_fips197_witness :
  exists ctx, aes_encrypt_init true demo_key 16 = Ok (Some ctx) /\
    aes_encrypt ctx demo_block = Fips.cipher (Fips.key_expansion demo_key 4) 10 demo_block.
Proof.
  apply (aes_encrypt_fips197 demo_key 4 demo_block); [by left|done|by_deciding|done].
Defined.

Lemma aes_decrypt_encrypt_witness :
  exists e d, aes_encrypt_init true demo_key 16 = Ok (Some e) /\
    aes_decrypt_init true demo_key 16 = Ok (Some d) /\
    aes_decrypt d (aes_encrypt e demo_block) = demo_block.
Proof.
  apply (aes_decrypt_encrypt demo_key 4 demo_block); [by left|done|by_deciding|by_deciding|done].
Defined.

End Aes.
