(* ===== verification/AesModes.v ===== *)
(** * AES modes of operation (crypto/aes-wrap.c, aes-unwrap.c, aes-ctr.c,
    aes-cbc.c, aes-omac1.c)

    The modes call the block cipher through the interface of crypto/aes.h,
    here the class [BlockCipher] with its laws [CipherLaws]; hostapd's own AES
    is an instance.  Every mode is proved against the interface. *)

From S2P Require Import Prelude Aes.

Module AesModes.

Infix "^^" := Z.lxor (at level 50, left associativity).

Definition AES_BLOCK_SIZE : Z := 16.

(** ** The block cipher (crypto/aes.h) *)

(** [aes_encrypt_init(key, len)] and the rest; [None] is [NULL], [Fault] a read
    past the end of the key. *)
Class BlockCipher (ctx : Type) := {
  aes_encrypt_init : list Z -> Z -> cres (option ctx);
  aes_encrypt : ctx -> list Z -> list Z;
  aes_decrypt_init : list Z -> Z -> cres (option ctx);
  aes_decrypt : ctx -> list Z -> list Z
}.

Definition block (b : list Z) : Prop := bytes b /\ length b = 16%nat.

(** [key_len] bytes of key, of a length AES has. *)
Definition valid_key (key : list Z) (len : Z) : Prop :=
  bytes key /\ zlen key = len /\ (len = 16 \/ len = 24 \/ len = 32).

Class CipherLaws (ctx : Type) `{!BlockCipher ctx} := {
  encrypt_block c b : block b -> block (aes_encrypt c b);
  decrypt_block c b : block b -> block (aes_decrypt c b);
  cipher_init key len : valid_key key len ->
    exists e d, aes_encrypt_init key len = Ok (Some e) /\ aes_decrypt_init key len = Ok (Some d) /\
      forall b, block b -> aes_decrypt d (aes_encrypt e b) = b
}.

(** hostapd's AES is such a cipher. *)
#[export] Instance internal_aes : BlockCipher (list Z * Z) := {
  aes_encrypt_init := Aes.aes_encrypt_init true;
  aes_encrypt := Aes.aes_encrypt;
  aes_decrypt_init := Aes.aes_decrypt_init true;
  aes_decrypt := Aes.aes_decrypt
}.

(** ** Key wrap (RFC 3394) *)

(** [a[7] ^= t; a[6] ^= t >> 8; a[5] ^= t >> 16; a[4] ^= t >> 24] on the first
    eight bytes of a buffer. *)
Definition xor_byte (k x : Z) (b : list Z) : list Z :=
  <[Z.to_nat k := u8 (at_ b k ^^ x)]> b.
Definition xor_counter (t : Z) (a : list Z) : list Z :=
  xor_byte 4 (Z.shiftr t 24) (xor_byte 5 (Z.shiftr t 16) (xor_byte 6 (Z.shiftr t 8) (xor_byte 7 t a))).

Section modes.
Context {ctx : Type} `{!BlockCipher ctx}.

(** One pass of the inner loop of [aes_wrap]: [a] and the buffer [r]. *)
Definition wrap_pass (c : ctx) (n j i : Z) (s : list Z * list Z) : list Z * list Z :=
  let '(a, r) := s in
  let b := aes_encrypt c (a ++ slice (8 * (i - 1)) 8 r) in
  let t := u32 (n * j + i) in
  (xor_counter t (take 8 b), put (8 * (i - 1)) (drop 8 b) r).

(** [8 * n] and the counter are products of C's [int]: [n] is below [2 ^ 28], as
    every key of the callers is. *)
Definition aes_wrap (kek : list Z) (kek_len n : Z) (plain : list Z) : cres (Z * list Z) :=
  (r <-- rdn plain 0 (8 * n) ;;
   c <-- aes_encrypt_init kek kek_len ;;
   match c with
   | None => Ok (-1, replicate 8 0xa6 ++ r)
   | Some c =>
       let '(a, r) := for_up 0 6 (fun j => for_up 1 (n + 1) (wrap_pass c n j)) (replicate 8 0xa6, r) in
       Ok (0, a ++ r)
   end)%c.

Definition unwrap_pass (c : ctx) (n j i : Z) (s : list Z * list Z) : list Z * list Z :=
  let '(a, r) := s in
  let t := u32 (n * j + i) in
  let b := xor_counter t a ++ slice (8 * (i - 1)) 8 r in
  let b := aes_decrypt c b in
  (take 8 b, put (8 * (i - 1)) (drop 8 b) r).

(** The result and the plaintext buffer. *)
Definition aes_unwrap (kek : list Z) (kek_len n : Z) (cipher : list Z) : cres (Z * list Z) :=
  (a <-- rdn cipher 0 8 ;;
   r <-- rdn cipher 8 (8 * n) ;;
   c <-- aes_decrypt_init kek kek_len ;;
   match c with
   | None => Ok (-1, r)
   | Some c =>
       let '(a, r) := for_down 5 0 (fun j => for_down n 1 (unwrap_pass c n j)) (a, r) in
       if forallb (fun x => x =? 0xa6) a then Ok (0, r) else Ok (-1, r)
   end)%c.

(** ** Counter mode *)

(** [for (i = AES_BLOCK_SIZE - 1; i >= 0; i--) { counter[i]++; if (counter[i]) break; }] *)
Fixpoint increment (i : nat) (counter : list Z) : list Z :=
  match i with
  | O => counter
  | S i =>
      let v := u8 (at_ counter (Z.of_nat i) + 1) in
      let counter := <[i := v]> counter in
      if v =? 0 then increment i counter else counter
  end.

(** [for (j = 0; j < len; j++) pos[j] ^= buf[j];] *)
Definition xor_with (pos buf : list Z) : list Z := zip_with Z.lxor pos buf.

Fixpoint ctr_loop (fuel : nat) (c : ctx) (counter data : list Z) : list Z :=
  match fuel with
  | O => data
  | S fuel =>
      match data with
      | [] => []
      | _ =>
          let buf := aes_encrypt c counter in
          let len := if zlen data <? AES_BLOCK_SIZE then zlen data else AES_BLOCK_SIZE in
          xor_with (take (Z.to_nat len) data) buf ++
          ctr_loop fuel c (increment 16 counter) (drop (Z.to_nat len) data)
      end
  end.

(** The result and the data, encrypted in place. *)
Definition aes_ctr_encrypt (key : list Z) (key_len : Z) (nonce data : list Z) : cres (Z * list Z) :=
  (c <-- aes_encrypt_init key key_len ;;
   match c with
   | None => Ok (-1, data)
   | Some c =>
       counter <-- rdn nonce 0 AES_BLOCK_SIZE ;;
       Ok (0, ctr_loop (length data) c counter data)
   end)%c.

Definition aes_128_ctr_encrypt (key nonce data : list Z) : cres (Z * list Z) :=
  aes_ctr_encrypt key 16 nonce data.

(** ** Cipher block chaining *)

Fixpoint cbc_enc_loop (blocks : nat) (c : ctx) (cbc data : list Z) : list Z :=
  match blocks with
  | O => data
  | S blocks =>
      let cbc := aes_encrypt c (xor_with cbc data) in
      cbc ++ cbc_enc_loop blocks c cbc (drop 16 data)
  end.

Definition aes_128_cbc_encrypt (key iv data : list Z) : cres (Z * list Z) :=
  (c <-- aes_encrypt_init key 16 ;;
   match c with
   | None => Ok (-1, data)
   | Some c =>
       cbc <-- rdn iv 0 AES_BLOCK_SIZE ;;
       Ok (0, cbc_enc_loop (Z.to_nat (s32 (zlen data / AES_BLOCK_SIZE))) c cbc data)
   end)%c.

Fixpoint cbc_dec_loop (blocks : nat) (c : ctx) (cbc data : list Z) : list Z :=
  match blocks with
  | O => data
  | S blocks =>
      let tmp := take 16 data in
      xor_with (aes_decrypt c tmp) cbc ++ cbc_dec_loop blocks c tmp (drop 16 data)
  end.

Definition aes_128_cbc_decrypt (key iv data : list Z) : cres (Z * list Z) :=
  (c <-- aes_decrypt_init key 16 ;;
   match c with
   | None => Ok (-1, data)
   | Some c =>
       cbc <-- rdn iv 0 AES_BLOCK_SIZE ;;
       Ok (0, cbc_dec_loop (Z.to_nat (s32 (zlen data / AES_BLOCK_SIZE))) c cbc data)
   end)%c.

(** ** OMAC1 (CMAC) *)

(** [pad[i] = (pad[i] << 1) | (pad[i + 1] >> 7)] for the first 15 bytes, and the
    reduction; aes-siv.c has the same function as [dbl]. *)
Definition gf_mulx (pad : list Z) : list Z :=
  let carry := Z.land (at_ pad 0) 0x80 in
  let pad := for_up 0 15 (fun i pad =>
    <[Z.to_nat i := u8 (Z.lor (Z.shiftl (at_ pad i) 1) (Z.shiftr (at_ pad (i + 1)) 7))]> pad) pad in
  let pad := <[15%nat := u8 (Z.shiftl (at_ pad 15) 1)]> pad in
  if carry =? 0 then pad else <[15%nat := at_ pad 15 ^^ 0x87]> pad.

(** [for (i = ...; ...; i++) { cbc[i] ^= *pos++; if (pos >= end) ... }] with [k]
    bytes to go: [pos] is what is left of the element, [rest] the elements
    after it; [last] tells that nothing follows these bytes. *)
Fixpoint absorb (k i : nat) (last : bool) (cbc pos : list Z) (rest : list (list Z)) :
    cres (list Z * list Z * list (list Z)) :=
  match k with
  | O => Ok (cbc, pos, rest)
  | S k =>
      match pos with
      | [] => Fault
      | b :: pos =>
          let cbc := <[i := at_ cbc (Z.of_nat i) ^^ b]> cbc in
          match pos, k, last, rest with
          | [], O, true, _ => Ok (cbc, pos, rest)
          | [], _, _, [] => Fault
          | [], _, _, next :: rest => absorb k (S i) last cbc next rest
          | _, _, _, _ => absorb k (S i) last cbc pos rest
          end
      end
  end.

(** [while (left >= AES_BLOCK_SIZE)] *)
Fixpoint omac_blocks (fuel : nat) (c : ctx) (left : Z) (cbc pos : list Z) (rest : list (list Z)) :
    cres (Z * list Z * list Z * list (list Z)) :=
  match fuel with
  | O => Ok (left, cbc, pos, rest)
  | S fuel =>
      if left <? AES_BLOCK_SIZE then Ok (left, cbc, pos, rest)
      else
        (s <-- absorb 16 0 (left =? AES_BLOCK_SIZE) cbc pos rest ;;
         let '(cbc, pos, rest) := s in
         let cbc := if AES_BLOCK_SIZE <? left then aes_encrypt c cbc else cbc in
         omac_blocks fuel c (left - AES_BLOCK_SIZE) cbc pos rest)%c
  end.

Definition zero_block : list Z := replicate 16 0.

(** The result and the MAC; the MAC is not written on failure. *)
Definition omac1_aes_vector (key : list Z) (key_len : Z) (elems : list (list Z)) : cres (Z * list Z) :=
  (r <-- aes_encrypt_init key key_len ;;
   match r with
   | None => Ok (-1, [])
   | Some c =>
       let total_len := zlen (concat elems) in
       match elems with
       | [] => Fault
       | first :: rest =>
           s <-- omac_blocks (length (concat elems)) c total_len zero_block first rest ;;
           let '(rem, cbc, pos, rest) := s in
           let pad := gf_mulx (aes_encrypt c zero_block) in
           s <-- (if negb (rem =? 0) || (total_len =? 0) then
                    s <-- absorb (Z.to_nat rem) 0 true cbc pos rest ;;
                    let '(cbc, _, _) := s in
                    Ok (<[Z.to_nat rem := at_ cbc rem ^^ 0x80]> cbc, gf_mulx pad)
                  else Ok (cbc, pad)) ;;
           let '(cbc, pad) := s in
           Ok (0, aes_encrypt c (xor_with pad cbc))
       end
   end)%c.

Definition omac1_aes_128_vector (key : list Z) (elems : list (list Z)) : cres (Z * list Z) :=
  omac1_aes_vector key 16 elems.
Definition omac1_aes_128 (key data : list Z) : cres (Z * list Z) :=
  omac1_aes_128_vector key [data].
Definition omac1_aes_256 (key data : list Z) : cres (Z * list Z) :=
  omac1_aes_vector key 32 [data].

End modes.

(** ** The laws hold of hostapd's AES *)

Lemma length_PUTU32 x : length (Aes.PUTU32 x) = 4%nat. Proof. done. Qed.
Lemma bytes_PUTU32 x : bytes (Aes.PUTU32 x).
Proof. unfold Aes.PUTU32. repeat constructor; apply u8_range. Qed.

Lemma block_PUTU32 a b c d :
  block (Aes.PUTU32 a ++ Aes.PUTU32 b ++ Aes.PUTU32 c ++ Aes.PUTU32 d).
Proof. split; [|done]. rewrite !Forall_app. auto using bytes_PUTU32. Qed.

#[export] Instance internal_aes_laws : CipherLaws (list Z * Z).
Proof.
  split.
  - intros [rk Nr] b _. cbn. unfold Aes.aes_encrypt, Aes.rijndaelEncrypt.
    destruct (Aes.rounds_loop _ _ _ _ _) as [[[[t0 t1] t2] t3] p]. apply block_PUTU32.
  - intros [rk Nr] b _. cbn. unfold Aes.aes_decrypt, Aes.rijndaelDecrypt.
    destruct (Aes.rounds_loop _ _ _ _ _) as [[[[t0 t1] t2] t3] p]. apply block_PUTU32.
  - intros key len (Hk & Hl & Hlen).
    assert (HN : Aes.valid_Nk (len / 4)) by (unfold Aes.valid_Nk; dlia).
    replace len with (4 * (len / 4)) by dlia.
    apply Aes.aes_init_inverse; [done|done|dlia].
Qed.

(** ** Key wrap *)

Lemma u8_xor_cancel x t : is_byte x -> u8 (u8 (x ^^ t) ^^ t) = x.
Proof.
  intros Hx. assert (E : forall y, u8 (y ^^ t) = u8 y ^^ u8 t) by (intros; by rewrite !u8_land, land_lxor_r).
  rewrite !E, (u8_small (u8 x ^^ u8 t)) by (apply lxor_byte; apply u8_range).
  by rewrite lxor_cancel, u8_small.
Qed.

Lemma length_xor_counter t a : length (xor_counter t a) = length a.
Proof. unfold xor_counter, xor_byte. by rewrite !length_insert. Qed.

Lemma bytes_xor_counter t a : bytes a -> bytes (xor_counter t a).
Proof. intros. unfold xor_counter, xor_byte. repeat apply Forall_insert; auto using u8_range. Qed.

Lemma xor_counter_cancel t a : bytes a -> length a = 8%nat -> xor_counter t (xor_counter t a) = a.
Proof.
  intros Hb Hl. do 8 (destruct a as [|? a]; [discriminate Hl|]). destruct a; [|discriminate Hl].
  rewrite !bytes_cons in Hb. destruct_and! Hb.
  unfold xor_counter, xor_byte, at_.
  cbv [insert list_insert nth Z.to_nat Pos.to_nat Pos.iter_op Nat.add Init.Nat.add].
  by rewrite !u8_xor_cancel by lia.
Qed.

Section laws.
Context {ctx : Type} `{!BlockCipher ctx, !CipherLaws ctx}.

Lemma block_halves b : block b ->
  bytes (take 8 b) /\ length (take 8 b) = 8%nat /\ bytes (drop 8 b) /\ length (drop 8 b) = 8%nat.
Proof. intros [Hb Hl]. rewrite length_take, length_drop. split_and!; [auto with cint|lia|auto with cint|lia]. Qed.

Definition wrap_ok (n : Z) (s : list Z * list Z) : Prop :=
  bytes s.1 /\ length s.1 = 8%nat /\ bytes s.2 /\ zlen s.2 = 8 * n.

Lemma wrap_block n i a r :
  wrap_ok n (a, r) -> 1 <= i < n + 1 -> block (a ++ slice (8 * (i - 1)) 8 r).
Proof.
  intros (Ha & Hla & Hr & Hlr) Hi. cbn in *.
  split; [rewrite Forall_app; auto with cint|]. rewrite length_app, length_slice by lia. lia.
Qed.

Lemma wrap_unwrap_pass e d n j i s :
  (forall b, block b -> aes_decrypt d (aes_encrypt e b) = b) ->
  1 <= i < n + 1 -> wrap_ok n s ->
  wrap_ok n (wrap_pass e n j i s) /\ unwrap_pass d n j i (wrap_pass e n j i s) = s.
Proof.
  intros Hde Hi Hs. destruct s as [a r].
  pose proof (wrap_block n i a r Hs Hi) as Hblk.
  destruct (block_halves _ (encrypt_block e _ Hblk)) as (B1 & L1 & B2 & L2).
  destruct Hs as (Ha & Hla & Hr & Hlr). unfold wrap_pass. cbn in *. split.
  - repeat split; cbn; [by apply bytes_xor_counter|by rewrite length_xor_counter|by apply bytes_put|].
    rewrite length_put; lia.
  - rewrite xor_counter_cancel by done.
    set (D := drop 8 (aes_encrypt e (a ++ slice (8 * (i - 1)) 8 r))) in *.
    assert (Es : slice (8 * (i - 1)) 8 (put (8 * (i - 1)) D r) = D).
    { assert (E8 : zlen D = 8) by lia. rewrite <- E8 at 2. apply slice_put; lia. }
    rewrite Es. unfold D at 1 2. rewrite !take_drop, !Hde by done.
    rewrite take_app_length', drop_app_length' by lia. f_equal.
    rewrite put_put by (rewrite ?length_slice; lia). by rewrite put_slice by lia.
Qed.

(** C34: [aes_unwrap] with the same key returns 0 and the plaintext for what
    [aes_wrap] makes of any [n] blocks of eight bytes, where the length is an
    [int], and the wrapped key has one block more. *)
Theorem aes_unwrap_wrap kek kek_len n plain :
  valid_key kek kek_len -> 0 <= n < 2 ^ 28 -> bytes plain -> zlen plain = 8 * n ->
  exists cipher, aes_wrap kek kek_len n plain = Ok (0, cipher) /\
    zlen cipher = 8 * (n + 1) /\ bytes cipher /\
    aes_unwrap kek kek_len n cipher = Ok (0, plain).
Proof.
  intros Hkey [Hn _] Hp Hl. destruct (cipher_init kek kek_len Hkey) as (e & d & He & Hd & Hde).
  unfold aes_wrap, aes_unwrap. rewrite (rdn_ok plain 0 (8 * n)), He, Hd by lia. cbn [cbind].
  assert (H0 : wrap_ok n (replicate 8 0xa6, slice 0 (8 * n) plain)).
  { split_and!; cbn [fst snd]; [by apply bytes_replicate; lia|done|by apply bytes_slice|rewrite length_slice; lia]. }
  assert (Hpass : forall j s, 0 <= j < 6 -> wrap_ok n s ->
    wrap_ok n (for_up 1 (n + 1) (wrap_pass e n j) s) /\
    for_down n 1 (unwrap_pass d n j) (for_up 1 (n + 1) (wrap_pass e n j) s) = s).
  { intros j s _ Hs. split.
    - apply for_up_inv; [|done]. intros i t Hi Ht. by apply (wrap_unwrap_pass e d).
    - pose proof (for_down_up (wrap_ok n) 1 (n + 1) (wrap_pass e n j) (unwrap_pass d n j) s) as E.
      rewrite Z.add_simpl_r in E. apply E; [|done]. intros i t Hi Ht. by apply wrap_unwrap_pass. }
  pose proof (for_down_up (wrap_ok n) 0 6 (fun j => for_up 1 (n + 1) (wrap_pass e n j))
    (fun j => for_down n 1 (unwrap_pass d n j)) _ Hpass H0) as Hid.
  pose proof (for_up_inv (wrap_ok n) 0 6 (fun j => for_up 1 (n + 1) (wrap_pass e n j)) _ (fun j s Hj Hs => proj1 (Hpass j s Hj Hs)) H0) as Hw.
  destruct (for_up 0 6 _ _) as [a r]. destruct Hw as (Ha & Hla & Hr & Hlr). cbn in Ha, Hla, Hr, Hlr.
  exists (a ++ r). split; [done|]. split; [rewrite length_app; lia|].
  split; [by apply bytes_app|].
  rewrite !rdn_ok by (rewrite ?length_app; lia). cbn [cbind].
  rewrite slice_app_l, slice_app_r by lia. change (6 - 1) with 5 in Hid.
  by rewrite Hid, slice_all by lia.
Qed.

(** ** Counter mode *)

Lemma take_S_at i l : (i < length l)%nat -> take (S i) l = take i l ++ [at_ l (Z.of_nat i)].
Proof.
  intros. rewrite at_lookup, Nat2Z.id. apply take_S_r.
  by destruct (lookup_lt_is_Some_2 l i) as [x ->].
Qed.

Lemma length_increment i l : length (increment i l) = length l.
Proof.
  revert l. induction i as [|i IH]; intros l; cbn; [done|].
  case_match; rewrite ?IH, length_insert; done.
Qed.

Lemma drop_increment i l : drop i (increment i l) = drop i l.
Proof.
  revert l. induction i as [|i IH]; intros l; [done|]. cbn [increment].
  assert (E : forall v, drop (S i) (<[i := v]> l) = drop (S i) l) by (intros; by rewrite drop_insert_lt by lia).
  case_match; [|apply E]. rewrite <- Nat.add_1_r, <- !drop_drop, IH, !drop_drop, Nat.add_1_r. apply E.
Qed.

Lemma be_increment i l :
  bytes l -> (i <= length l)%nat ->
  bytes (increment i l) /\
  be_val (take i (increment i l)) = (be_val (take i l) + 1) mod 256 ^ Z.of_nat i.
Proof.
  revert l. induction i as [|i IH]; intros l Hb Hi; [by rewrite Z.mod_1_r|].
  cbn [increment]. set (v := u8 (at_ l (Z.of_nat i) + 1)). set (l' := <[i := v]> l).
  pose proof (at_byte l (Z.of_nat i) Hb) as Hat.
  assert (Hb' : bytes l') by (apply Forall_insert; [done|apply u8_range]).
  assert (Hv : at_ l' (Z.of_nat i) = v).
  { rewrite at_lookup, Nat2Z.id. unfold l'. by rewrite list_lookup_insert_eq by lia. }
  assert (Ht : take i l' = take i l) by (by unfold l'; rewrite take_insert_ge).
  assert (Hl' : length l' = length l) by apply length_insert.
  rewrite Nat2Z.inj_succ, Z.pow_succ_r by lia.
  pose proof (be_val_range _ (bytes_take i l Hb)) as Hr. rewrite length_take_le in Hr by lia.
  set (P := 256 ^ Z.of_nat i) in *. assert (0 < P) by (apply Z.pow_pos_nonneg; lia).
  rewrite (take_S_at i l), be_val_snoc by lia.
  destruct (Z.eqb_spec v 0) as [E|E].
  - destruct (IH l' Hb' ltac:(lia)) as [IH1 IH2]. split; [done|].
    rewrite take_S_at, be_val_snoc by (rewrite length_increment; lia).
    replace (at_ (increment i l') (Z.of_nat i)) with v.
    + rewrite IH2, Ht, E. assert (at_ l (Z.of_nat i) = 255) as -> by (unfold v, u8 in E; dlia).
      replace (256 * be_val (take i l) + 255 + 1) with (256 * (be_val (take i l) + 1)) by lia.
      rewrite Z.mul_mod_distr_l by lia. lia.
    + rewrite <- Hv. pose proof (f_equal (fun l => l !! 0%nat) (drop_increment i l')) as Hd.
      cbv beta in Hd. rewrite !lookup_drop, Nat.add_0_r in Hd. by rewrite !at_lookup, Nat2Z.id, Hd.
  - split; [done|]. rewrite take_S_at, be_val_snoc, Ht, Hv by lia.
    assert (at_ l (Z.of_nat i) <> 255) by (intros Ha; apply E; unfold v; by rewrite Ha).
    assert (v = at_ l (Z.of_nat i) + 1) as -> by (apply u8_small; lia).
    rewrite Z.mod_small; nia.
Qed.

(** The block of counter [k], and the key stream from it: SP 800-38A's counter
    mode with a 128-bit counter. *)
Definition counter_block (nonce : list Z) (k : Z) : list Z :=
  be_bytes 16 ((be_val nonce + k) mod 256 ^ 16).

Fixpoint keystream (c : ctx) (nonce : list Z) (k : Z) (blocks : nat) : list Z :=
  match blocks with
  | O => []
  | S blocks => aes_encrypt c (counter_block nonce k) ++ keystream c nonce (k + 1) blocks
  end.

Lemma counter_block_ok nonce k : block (counter_block nonce k).
Proof. split; [apply bytes_be_bytes|apply length_be_bytes]. Qed.

Lemma increment_counter_block nonce k :
  increment 16 (counter_block nonce k) = counter_block nonce (k + 1).
Proof.
  destruct (counter_block_ok nonce k) as [Hb Hl].
  destruct (be_increment 16 _ Hb ltac:(lia)) as [Hb' Hv].
  rewrite !take_ge in Hv by (rewrite ?length_increment; lia).
  rewrite <- (be_bytes_val (increment _ _)), length_increment, Hl, Hv by done.
  unfold counter_block. rewrite be_val_bytes by (apply Z.mod_pos_bound; lia).
  change (Z.of_nat 16) with 16. rewrite Zplus_mod_idemp_l. do 2 f_equal. lia.
Qed.

Lemma length_xor_with a b : length (xor_with a b) = (length a `min` length b)%nat.
Proof. apply length_zip_with. Qed.

Lemma bytes_xor_with a b : bytes a -> bytes b -> bytes (xor_with a b).
Proof.
  intros Ha. revert b. induction Ha as [|x a Hx Ha IH]; intros b Hb; [constructor|].
  destruct Hb as [|y b Hy Hb]; constructor; [by apply lxor_byte|by apply IH].
Qed.

Lemma xor_with_cancel a b : (length a <= length b)%nat -> xor_with (xor_with a b) b = a.
Proof.
  revert b. induction a as [|x a IH]; intros [|y b] Hl; cbn in *; try done; [lia|].
  rewrite lxor_cancel. f_equal. apply IH. lia.
Qed.

Lemma xor_with_cancel_l a b : length a = length b -> xor_with (xor_with a b) a = b.
Proof.
  revert b. induction a as [|x a IH]; intros [|y b] Hl; cbn in *; try done.
  rewrite (Z.lxor_comm x), lxor_cancel. f_equal. apply IH. lia.
Qed.

Lemma ctr_loop_keystream c nonce fuel k data :
  (length data <= fuel)%nat ->
  ctr_loop fuel c (counter_block nonce k) data =
  xor_with data (keystream c nonce k (Z.to_nat ((zlen data + 15) / 16))).
Proof.
  revert k data. induction fuel as [|fuel IH]; intros k data Hf; [destruct data; [done|cbn in Hf; lia]|].
  destruct data as [|x data]; [done|]. cbn [ctr_loop].
  set (d := x :: data) in *. assert (0 < zlen d) by (unfold d; cbn; lia).
  rewrite increment_counter_block.
  destruct (encrypt_block c _ (counter_block_ok nonce k)) as [_ HlE].
  unfold AES_BLOCK_SIZE. destruct (Z.ltb_spec (zlen d) 16) as [Hs|Hs].
  - rewrite take_ge, drop_ge by lia.
    replace ((zlen d + 15) / 16) with 1 by dlia. change (Z.to_nat 1) with 1%nat. cbn [keystream].
    rewrite app_nil_r. by destruct fuel; rewrite app_nil_r.
  - rewrite IH by (rewrite length_drop; lia).
    replace (Z.to_nat ((zlen d + 15) / 16)) with (S (Z.to_nat ((zlen (drop (Z.to_nat 16) d) + 15) / 16)))
      by (rewrite length_drop; dlia).
    cbn [keystream]. rewrite <- (take_drop (Z.to_nat 16) d) at 4.
    unfold xor_with at 3. rewrite zip_with_app by (rewrite length_take; lia). done.
Qed.

Lemma length_keystream c nonce k n : length (keystream c nonce k n) = (16 * n)%nat.
Proof.
  revert k. induction n as [|n IH]; intros k; [done|]. cbn [keystream].
  destruct (encrypt_block c _ (counter_block_ok nonce k)) as [_ HlE].
  rewrite length_app, IH. lia.
Qed.

Lemma bytes_keystream c nonce k n : bytes (keystream c nonce k n).
Proof.
  revert k. induction n as [|n IH]; intros k; cbn [keystream]; [constructor|].
  apply bytes_app. split; [|apply IH]. apply (encrypt_block c), counter_block_ok.
Qed.

Lemma counter_block_nonce nonce : block nonce -> counter_block nonce 0 = nonce.
Proof.
  intros [Hb Hl]. unfold counter_block. pose proof (be_val_range nonce Hb) as Hr. rewrite Hl in Hr.
  rewrite Z.add_0_r, Z.mod_small by exact Hr. rewrite <- Hl. by apply be_bytes_val.
Qed.

Lemma ctr_encrypt_spec key key_len nonce data e :
  aes_encrypt_init key key_len = Ok (Some e) -> block nonce ->
  aes_ctr_encrypt key key_len nonce data =
  Ok (0, xor_with data (keystream e nonce 0 (Z.to_nat ((zlen data + 15) / 16)))).
Proof.
  intros He Hn. destruct Hn as [Hb Hl] eqn:En. unfold aes_ctr_encrypt. rewrite He. cbn [cbind].
  rewrite rdn_ok by (unfold AES_BLOCK_SIZE; lia). cbn [cbind].
  rewrite slice_all by (unfold AES_BLOCK_SIZE; lia).
  rewrite <- (counter_block_nonce nonce (conj Hb Hl)) at 1. by rewrite ctr_loop_keystream.
Qed.

(** [aes_ctr_encrypt] is counter mode: the data exclusive or the
    encryptions of the nonce, the nonce plus one and so on, as 128-bit
    big-endian numbers that wrap around. *)
Theorem aes_ctr_encrypt_keystream key key_len nonce data :
  valid_key key key_len -> block nonce ->
  exists e, aes_encrypt_init key key_len = Ok (Some e) /\
    aes_ctr_encrypt key key_len nonce data =
    Ok (0, xor_with data (keystream e nonce 0 (Z.to_nat ((zlen data + 15) / 16)))).
Proof.
  intros Hk Hn. destruct (cipher_init key key_len Hk) as (e & _ & He & _).
  exists e. split; [done|]. by apply ctr_encrypt_spec.
Qed.

Lemma ctr_involutive key key_len nonce data :
  valid_key key key_len -> block nonce ->
  exists data', aes_ctr_encrypt key key_len nonce data = Ok (0, data') /\
    length data' = length data /\ (bytes data -> bytes data') /\
    aes_ctr_encrypt key key_len nonce data' = Ok (0, data).
Proof.
  intros Hk Hn. destruct (cipher_init key key_len Hk) as (e & _ & He & _).
  rewrite (ctr_encrypt_spec _ _ _ data e He Hn).
  set (ks := keystream e nonce 0 (Z.to_nat ((zlen data + 15) / 16))).
  assert (Hl : (length data <= length ks)%nat) by (unfold ks; rewrite length_keystream; dlia).
  exists (xor_with data ks). split; [done|].
  assert (El : length (xor_with data ks) = length data) by (rewrite length_xor_with; lia).
  split; [done|]. split.
  - intros Hb. apply bytes_xor_with; [done|]. apply bytes_keystream.
  - rewrite (ctr_encrypt_spec _ _ _ _ e He Hn), El. by rewrite xor_with_cancel.
Qed.

(** ** Cipher block chaining *)

Lemma cbc_loops e d n cbc data :
  (forall b, block b -> aes_decrypt d (aes_encrypt e b) = b) ->
  block cbc -> bytes data -> (16 * n <= length data)%nat ->
  cbc_dec_loop n d cbc (cbc_enc_loop n e cbc data) = data.
Proof.
  intros Hde. revert cbc data. induction n as [|n IH]; intros cbc data Hc Hb Hl; [done|].
  cbn [cbc_enc_loop cbc_dec_loop].
  assert (Ex : xor_with cbc data = xor_with cbc (take 16 data)).
  { destruct Hc as [_ Hc]. unfold xor_with. rewrite <- (take_drop 16 data) at 1.
    rewrite <- (app_nil_r cbc) at 1. rewrite zip_with_app by (rewrite length_take; lia).
    by rewrite zip_with_nil_l, app_nil_r. }
  assert (Hx : block (xor_with cbc data)).
  { destruct Hc as [Hcb Hcl]. split; [by apply bytes_xor_with|]. rewrite length_xor_with. lia. }
  pose proof (encrypt_block e _ Hx) as Hy. set (y := aes_encrypt e (xor_with cbc data)) in *.
  rewrite take_app_length', drop_app_length' by (destruct Hy; lia).
  rewrite IH by (auto with cint || rewrite length_drop; lia).
  unfold y. rewrite Hde, Ex, xor_with_cancel_l by (done || destruct Hc; rewrite length_take; lia).
  apply take_drop.
Qed.

Lemma length_cbc_enc n e cbc data :
  block cbc -> bytes data -> (16 * n <= length data)%nat ->
  length (cbc_enc_loop n e cbc data) = length data.
Proof.
  revert cbc data. induction n as [|n IH]; intros cbc data Hc Hb Hl; [done|]. cbn [cbc_enc_loop].
  assert (Hx : block (xor_with cbc data)).
  { destruct Hc as [Hcb Hcl]. split; [by apply bytes_xor_with|]. rewrite length_xor_with. lia. }
  pose proof (encrypt_block e _ Hx) as Hy.
  rewrite length_app, IH by (auto with cint || rewrite length_drop; lia).
  rewrite length_drop. destruct Hy. lia.
Qed.

(** [aes_128_cbc_decrypt] recovers what [aes_128_cbc_encrypt] encrypted in
    place, whatever the length of the data: a last partial block is left as it
    is by both. *)
Theorem aes_128_cbc_decrypt_encrypt key iv data :
  valid_key key 16 -> block iv -> bytes data ->
  exists data', aes_128_cbc_encrypt key iv data = Ok (0, data') /\
    length data' = length data /\
    aes_128_cbc_decrypt key iv data' = Ok (0, data).
Proof.
  intros Hk Hiv Hb. destruct (cipher_init key 16 Hk) as (e & d & He & Hd & Hde).
  unfold aes_128_cbc_encrypt, aes_128_cbc_decrypt, AES_BLOCK_SIZE. rewrite He, Hd. cbn [cbind].
  destruct Hiv as [Hib Hil]. rewrite rdn_ok, slice_all by lia. cbn [cbind].
  set (n := Z.to_nat (s32 (zlen data / 16))).
  assert (Hn : (16 * n <= length data)%nat).
  { unfold n, s32, u32. set (q := zlen data / 16). assert (16 * q <= zlen data) by (unfold q; dlia).
    assert (q mod 2 ^ 32 <= q) by (apply Z.mod_le; unfold q; dlia). case_match; lia. }
  eexists. split; [done|].
  assert (El : length (cbc_enc_loop n e iv data) = length data) by (by apply length_cbc_enc).
  split; [done|]. rewrite El. fold n. by rewrite cbc_loops.
Qed.

End laws.

(** ** OMAC1 *)

(** RFC 4493, section 4, example 2. *)
Example rfc4493_example_2 :
  omac1_aes_128
    [0x2b; 0x7e; 0x15; 0x16; 0x28; 0xae; 0xd2; 0xa6; 0xab; 0xf7; 0x15; 0x88; 0x09; 0xcf; 0x4f; 0x3c]
    [0x6b; 0xc1; 0xbe; 0xe2; 0x2e; 0x40; 0x9f; 0x96; 0xe9; 0x3d; 0x7e; 0x11; 0x73; 0x93; 0x17; 0x2a]
  = Ok (0, [0x07; 0x0a; 0x16; 0xb4; 0x6b; 0x4d; 0x41; 0x44; 0xf7; 0x9b; 0xdd; 0x9d; 0xd0; 0x4a; 0x28; 0x7c]).
Proof. vm_compute. reflexivity. Qed.

(** The shift of [gf_mulx], on the bytes of a block. *)
Definition shl1 (x y : Z) : Z := u8 (Z.lor (Z.shiftl x 1) (Z.shiftr y 7)).

Lemma shl1_arith x y : is_byte x -> is_byte y -> shl1 x y = (2 * x + y / 128) mod 256.
Proof.
  intros. unfold shl1, u8. rewrite shiftr_div, lor_shiftl by dlia.
  change (2 ^ 7) with 128. change (2 ^ 8) with 256. f_equal. lia.
Qed.

Lemma gf_mulx_list b0 b1 b2 b3 b4 b5 b6 b7 b8 b9 b10 b11 b12 b13 b14 b15 :
  gf_mulx [b0; b1; b2; b3; b4; b5; b6; b7; b8; b9; b10; b11; b12; b13; b14; b15] =
  [shl1 b0 b1; shl1 b1 b2; shl1 b2 b3; shl1 b3 b4; shl1 b4 b5; shl1 b5 b6; shl1 b6 b7; shl1 b7 b8; shl1 b8 b9; shl1 b9 b10; shl1 b10 b11; shl1 b11 b12; shl1 b12 b13; shl1 b13 b14; shl1 b14 b15;
   if Z.land b0 0x80 =? 0 then u8 (Z.shiftl b15 1) else u8 (Z.shiftl b15 1) ^^ 0x87].
Proof.
  unfold gf_mulx, shl1. cbv zeta.
  change (at_ [b0; b1; b2; b3; b4; b5; b6; b7; b8; b9; b10; b11; b12; b13; b14; b15] 0) with b0.
  destruct (Z.land b0 0x80 =? 0); reflexivity.
Qed.

(** A block as its sixteen bytes. *)
Ltac block_bytes Hb Hl pad :=
  do 16 (destruct pad as [|? pad]; [discriminate Hl|]); destruct pad; [|discriminate Hl];
  rewrite !bytes_cons in Hb; destruct_and! Hb.

Lemma land_80 x : is_byte x -> (Z.land x 0x80 =? 0) = (x <? 128).
Proof.
  intros Hx. apply Bool.eqb_prop.
  refine (byte_forall (fun x => Bool.eqb (Z.land x 0x80 =? 0) (x <? 128)) x _ Hx). by vm_compute.
Qed.

Lemma block_gf_mulx pad : block pad -> block (gf_mulx pad).
Proof.
  intros [Hb Hl]. block_bytes Hb Hl pad. rewrite gf_mulx_list. split; [|done].
  repeat constructor; try apply u8_range; case_match; try apply u8_range;
    apply lxor_byte; (apply u8_range || lia).
Qed.

(** The shift as a function of the list of bytes. *)
Fixpoint shifted (l : list Z) : list Z :=
  match l with
  | [] => []
  | x :: l => (2 * x + match l with [] => 0 | y :: _ => y / 128 end) mod 256 :: shifted l
  end.

Lemma be_shifted l :
  bytes l ->
  be_val (shifted l) = (2 * be_val l) mod 256 ^ zlen l /\
  match l with [] => 0 | y :: _ => y / 128 end = (2 * be_val l) / 256 ^ zlen l.
Proof.
  induction l as [|x l IH]; intros Hb; [done|].
  apply bytes_cons in Hb as [Hx Hb]. destruct (IH Hb) as [IH1 IH2].
  cbn [shifted length]. rewrite !be_val_cons, Nat2Z.inj_succ, Z.pow_succ_r by lia.
  assert (El : length (shifted l) = length l) by (clear; induction l; cbn; auto).
  rewrite El, IH1, IH2. pose proof (be_val_range l Hb) as Hr. set (P := 256 ^ zlen l) in *.
  set (B := be_val l) in *. assert (0 < P) by lia.
  pose proof (Z.div_mod (2 * B) P ltac:(lia)) as Hd.
  pose proof (Z.mod_pos_bound (2 * B) P ltac:(lia)) as Hm.
  set (c := 2 * B / P) in *. set (r := (2 * B) mod P) in *.
  assert (0 <= c < 2) by nia.
  replace (2 * (x * P + B)) with (r + (2 * x + c) * P) by lia.
  assert (E1 : (r + (2 * x + c) * P) mod P = r) by (rewrite Z.mod_add, Z.mod_small; lia).
  assert (E2 : (r + (2 * x + c) * P) / P = 2 * x + c) by (rewrite Z.div_add, Z.div_small; lia).
  rewrite (Z.mul_comm 256 P), Z.rem_mul_r, <- Z.div_div, E1, E2 by lia.
  split; [lia|dlia].
Qed.

Lemma gf_mulx_shifted pad :
  block pad ->
  gf_mulx pad =
  let s := shifted pad in
  if at_ pad 0 <? 128 then s else take 15 s ++ [at_ s 15 ^^ 0x87].
Proof.
  intros [Hb Hl]. cbv zeta. block_bytes Hb Hl pad.
  rewrite gf_mulx_list, land_80, !shl1_arith by lia.
  cbn [shifted take app]. change (u8 (Z.shiftl z14 1)) with ((2 * z14) mod 256).
  rewrite (Z.add_0_r (2 * z14)).
  change (at_ [z; z0; z1; z2; z3; z4; z5; z6; z7; z8; z9; z10; z11; z12; z13; z14] 0) with z.
  destruct (z <? 128); reflexivity.
Qed.

(** [gf_mulx], and [dbl] of aes-siv.c, double a block in GF(2^128) with the
    polynomial of SP 800-38B: shift left, and add 0x87 for the bit shifted out. *)
Theorem gf_mulx_doubles pad :
  block pad ->
  let v := be_val pad in
  be_val (gf_mulx pad) = if v <? 2 ^ 127 then 2 * v else ((2 * v) mod 2 ^ 128) ^^ 0x87.
Proof.
  intros Hp. cbv zeta. rewrite gf_mulx_shifted by done. cbv zeta. destruct Hp as [Hb Hl].
  destruct (be_shifted pad Hb) as [Hv Hc]. rewrite Hl in Hv, Hc.
  change (256 ^ Z.of_nat 16) with (2 ^ 128) in Hv, Hc.
  assert (Ec : match pad with [] => 0 | y :: _ => y / 128 end = at_ pad 0 / 128) by (by destruct pad).
  rewrite Ec in Hc. pose proof (be_val_range pad Hb) as Hr. rewrite Hl in Hr.
  change (256 ^ Z.of_nat 16) with (2 ^ 128) in Hr.
  pose proof (at_byte pad 0 Hb) as H0.
  destruct (Z.ltb_spec (at_ pad 0) 128) as [Hs|Hs].
  - destruct (Z.ltb_spec (be_val pad) (2 ^ 127)) as [Hm|Hm]; [|dlia]. rewrite Hv, Z.mod_small; lia.
  - destruct (Z.ltb_spec (be_val pad) (2 ^ 127)) as [Hm|Hm]; [dlia|]. rewrite <- Hv.
    assert (Hls : length (shifted pad) = 16%nat) by (rewrite <- Hl; clear; induction pad; cbn; auto).
    pose proof (take_S_at 15 (shifted pad) ltac:(lia)) as Et. rewrite take_ge in Et by lia.
    change (Z.of_nat 15) with 15 in Et. rewrite Et at 3. rewrite !be_val_snoc.
    assert (Hb15 : is_byte (at_ (shifted pad) 15)).
    { apply at_byte. clear. induction pad; cbn; constructor; [dlia|done]. }
    rewrite (Z.mul_comm 256). change 256 with (2 ^ 8).
    rewrite <- !lxor_disjoint by (lia || apply lxor_byte; lia). xor_solve.
Qed.

Section omac.
Context {ctx : Type} `{!BlockCipher ctx, !CipherLaws ctx}.

(** CMAC of SP 800-38B: the chain over the full blocks, and the last block,
    complete or padded, masked with a subkey. *)
Definition subkey1 (c : ctx) : list Z := gf_mulx (aes_encrypt c zero_block).
Definition subkey2 (c : ctx) : list Z := gf_mulx (subkey1 c).

Definition cmac_last (c : ctx) (m : list Z) : list Z :=
  if decide (length m = 16%nat) then xor_with (subkey1 c) m
  else xor_with (subkey2 c) (m ++ 0x80 :: replicate (15 - length m) 0).

Fixpoint cmac_chain (fuel : nat) (c : ctx) (x m : list Z) : list Z :=
  match fuel with
  | S fuel =>
      if decide (16 < length m)%nat
      then cmac_chain fuel c (aes_encrypt c (xor_with x (take 16 m))) (drop 16 m)
      else aes_encrypt c (xor_with x (cmac_last c m))
  | O => aes_encrypt c (xor_with x (cmac_last c m))
  end.

Definition cmac (c : ctx) (m : list Z) : list Z := cmac_chain (length m) c zero_block m.

(** [k] bytes of [m] exclusive or'ed into [cbc] from [i] on. *)
Definition xor_at (i : nat) (m cbc : list Z) : list Z :=
  take i cbc ++ xor_with (drop i cbc) m ++ drop (i + length m) cbc.

Lemma xor_at_cons i b m cbc :
  (i < length cbc)%nat -> xor_at (S i) m (<[i := at_ cbc (Z.of_nat i) ^^ b]> cbc) = xor_at i (b :: m) cbc.
Proof.
  intros Hi. unfold xor_at. rewrite (take_S_at i) by (rewrite length_insert; lia).
  rewrite take_insert_ge, !drop_insert_lt by lia.
  rewrite at_lookup, Nat2Z.id, list_lookup_insert_eq by lia. cbn [default from_option id length].
  assert (Ed : drop i cbc = at_ cbc (Z.of_nat i) :: drop (S i) cbc).
  { destruct (lookup_lt_is_Some_2 cbc i Hi) as [x Hx]. rewrite at_lookup, Nat2Z.id, Hx.
    by apply drop_S. }
  rewrite Ed. cbn [xor_with zip_with]. rewrite <- app_assoc. cbn [app].
  by replace (S i + length m)%nat with (i + S (length m))%nat by lia.
Qed.

Lemma xor_at_nil i cbc : xor_at i [] cbc = cbc.
Proof.
  unfold xor_at, xor_with. cbn [length]. rewrite zip_with_nil_r, Nat.add_0_r. apply take_drop.
Qed.

(** [absorb] reads the next [k] bytes of what is left of the elements. *)
Lemma absorb_spec k i cbc pos rest :
  pos <> [] -> Forall (fun e => e <> []) rest -> (0 < k)%nat ->
  (k <= length (pos ++ concat rest))%nat -> (i + k <= length cbc)%nat ->
  let m := pos ++ concat rest in
  exists pos' rest', absorb k i (k =? length m)%nat cbc pos rest = Ok (xor_at i (take k m) cbc, pos', rest') /\
    pos' ++ concat rest' = drop k m /\ (drop k m <> [] -> pos' <> []) /\ Forall (fun e => e <> []) rest'.
Proof.
  revert i cbc pos rest. induction k as [|k IH]; intros i cbc pos rest Hp Hr Hk Hl Hc m; [lia|].
  destruct pos as [|b pos]; [done|]. cbn [absorb].
  set (cbc' := <[i := at_ cbc (Z.of_nat i) ^^ b]> cbc).
  assert (Hlc : length cbc' = length cbc) by apply length_insert.
  unfold m. cbn [app take drop]. rewrite <- xor_at_cons by lia. fold cbc'.
  cbn [length app] in Hl |- *. cbn [Nat.eqb].
  destruct (decide (k = 0)%nat) as [->|Hk0].
  { cbn [absorb take]. rewrite xor_at_nil.
    destruct pos as [|b' pos]; [|by exists (b' :: pos), rest].
    cbn [app]. destruct rest as [|e rest]; cbn [concat length app Nat.eqb].
    - by exists [], [].
    - inversion Hr; subst. destruct e as [|x e]; [done|]. cbn.
      by exists (x :: e), rest. }
  destruct pos as [|b' pos].
  - destruct rest as [|e rest]; [cbn in Hl; lia|]. inversion Hr; subst.
    destruct (IH (S i) cbc' e rest) as (pos' & rest' & E & H); try done; [lia|cbn in *; lia|lia|].
    exists pos', rest'. cbn [app concat] in *. destruct k as [|k]; [lia|]. done.
  - destruct (IH (S i) cbc' (b' :: pos) rest) as (pos' & rest' & E & H); try done; [lia|cbn in *; lia|lia|].
    exists pos', rest'. destruct k as [|k]; [lia|]. done.
Qed.

Lemma cmac_chain_fuel f1 f2 c x m :
  (length m <= f1)%nat -> (length m <= f2)%nat -> cmac_chain f1 c x m = cmac_chain f2 c x m.
Proof.
  revert f2 x m. induction f1 as [|f1 IH]; intros [|f2] x m H1 H2; cbn [cmac_chain]; try done.
  - by rewrite decide_False by lia.
  - by rewrite decide_False by lia.
  - case_decide; [|done]. apply IH; rewrite length_drop; lia.
Qed.

(** A chain over more than a block. *)
Lemma cmac_chain_step c x m :
  (16 < length m)%nat ->
  cmac_chain (length m) c x m =
  cmac_chain (length (drop 16 m)) c (aes_encrypt c (xor_with x (take 16 m))) (drop 16 m).
Proof.
  intros H. destruct (length m) as [|f] eqn:E; [lia|]. cbn [cmac_chain]. rewrite E.
  rewrite decide_True by lia. apply cmac_chain_fuel; rewrite !length_drop; lia.
Qed.

Lemma cmac_chain_last c x m :
  (length m <= 16)%nat -> cmac_chain (length m) c x m = aes_encrypt c (xor_with x (cmac_last c m)).
Proof. intros H. destruct (length m) eqn:E; [done|]. cbn. rewrite E. by rewrite decide_False by lia. Qed.

Lemma xor_at_block m cbc : length cbc = 16%nat -> length m = 16%nat -> xor_at 0 m cbc = xor_with cbc m.
Proof. intros Hc Hm. unfold xor_at. rewrite take_0, drop_0. cbn [Nat.add app]. by rewrite drop_ge, app_nil_r by lia. Qed.

Lemma xor_with_swap a b c : xor_with a (xor_with b c) = xor_with b (xor_with a c).
Proof.
  revert b c. induction a as [|x a IH]; intros [|y b] [|z c]; try done. cbn. rewrite IH. f_equal. xor_solve.
Qed.

Definition all_nonempty (l : list (list Z)) : Prop := Forall (fun e => e <> []) l.

Lemma omac_blocks_spec fuel c cbc pos rest :
  let m := pos ++ concat rest in
  block cbc -> bytes m -> pos <> [] -> all_nonempty rest -> (length m <= fuel)%nat ->
  exists left' cbc' pos' rest',
    omac_blocks fuel c (zlen m) cbc pos rest = Ok (left', cbc', pos', rest') /\
    ((left' = 0 /\ aes_encrypt c (xor_with (subkey1 c) cbc') = cmac_chain (length m) c cbc m) \/
     (0 < left' < 16 /\ left' = zlen (pos' ++ concat rest') /\ pos' <> [] /\ all_nonempty rest' /\
      length cbc' = 16%nat /\
      cmac_chain (length m) c cbc m = aes_encrypt c (xor_with cbc' (cmac_last c (pos' ++ concat rest'))))).
Proof.
  revert cbc pos rest. induction fuel as [|fuel IH]; intros cbc pos rest m Hc Hb Hp Hr Hf.
  { destruct pos; [done|]. cbn in Hf. lia. }
  assert (Hm0 : (0 < length m)%nat) by (unfold m; destruct pos; [done|cbn; lia]).
  cbn [omac_blocks]. destruct (Z.ltb_spec (zlen m) AES_BLOCK_SIZE) as [Hs|Hs]; unfold AES_BLOCK_SIZE in Hs.
  { exists (zlen m), cbc, pos, rest. split; [done|]. right. destruct Hc.
    split_and!; try done; try lia. apply (cmac_chain_last c cbc m); lia. }
  destruct Hc as [Hcb Hcl].
  destruct (absorb_spec 16 0 cbc pos rest) as (pos' & rest' & E & Hd & Hne & Hr'); try done; try lia.
  { fold m. lia. }
  cbv zeta in E, Hd, Hne. fold m in E, Hd, Hne.
  replace (zlen m =? AES_BLOCK_SIZE) with (16 =? length m)%nat
    by (unfold AES_BLOCK_SIZE; destruct (Nat.eqb_spec 16 (length m)), (Z.eqb_spec (zlen m) 16); lia).
  rewrite E. cbn [cbind]. rewrite xor_at_block by (rewrite ?length_take; lia).
  destruct (Z.ltb_spec AES_BLOCK_SIZE (zlen m)) as [Hl|Hl]; unfold AES_BLOCK_SIZE in Hl.
  - assert (Hx : block (aes_encrypt c (xor_with cbc (take 16 m)))).
    { apply (encrypt_block c). split; [apply bytes_xor_with; auto with cint|].
      rewrite length_xor_with, length_take. lia. }
    destruct (IH _ pos' rest' Hx) as (l2 & c2 & p2 & r2 & E2 & H2).
    + rewrite Hd. auto with cint.
    + apply Hne. intros H0. apply (f_equal length) in H0. rewrite length_drop in H0. cbn in H0. lia.
    + done.
    + rewrite Hd, length_drop. lia.
    + exists l2, c2, p2, r2. rewrite Hd in E2, H2. unfold AES_BLOCK_SIZE.
      replace (zlen m - 16) with (zlen (drop 16 m)) by (rewrite length_drop; lia).
      split; [done|]. rewrite cmac_chain_step by lia. done.
  - exists 0, (xor_with cbc m), pos', rest'.
    rewrite take_ge by lia. unfold AES_BLOCK_SIZE. replace (zlen m - 16) with 0 by lia. split.
    { by destruct fuel. }
    left. split; [done|]. rewrite cmac_chain_last by lia. unfold cmac_last.
    rewrite decide_True by lia. by rewrite xor_with_swap.
Qed.

(** The padding of a partial block. *)
Lemma pad_last m cbc :
  (length m < 16)%nat -> length cbc = 16%nat ->
  <[length m := at_ (xor_at 0 m cbc) (zlen m) ^^ 0x80]> (xor_at 0 m cbc) =
  xor_with cbc (m ++ 0x80 :: replicate (15 - length m) 0).
Proof.
  intros Hm Hc. unfold xor_at. rewrite take_0, drop_0. cbn [Nat.add app].
  destruct (lookup_lt_is_Some_2 cbc (length m)) as [y Hy]; [lia|].
  rewrite <- (take_drop_middle cbc (length m) y Hy).
  set (c1 := take (length m) cbc). set (c2 := drop (S (length m)) cbc).
  assert (H1 : length c1 = length m) by (unfold c1; rewrite length_take; lia).
  assert (H2 : length c2 = (15 - length m)%nat) by (unfold c2; rewrite length_drop; lia).
  assert (E1 : xor_with (c1 ++ y :: c2) m = xor_with c1 m).
  { unfold xor_with. rewrite <- (app_nil_r m) at 1. rewrite zip_with_app by done.
    by rewrite zip_with_nil_r, app_nil_r. }
  rewrite E1, drop_app_length' by done.
  assert (E2 : length (xor_with c1 m) = length m) by (rewrite length_xor_with; lia).
  rewrite at_lookup, Nat2Z.id, lookup_app_r, E2, Nat.sub_diag by lia. cbn [lookup list_lookup].
  rewrite insert_app_r_alt, E2, Nat.sub_diag by lia. cbn [insert list_insert].
  set (zs := replicate (15 - length m) 0).
  assert (E3 : xor_with (c1 ++ y :: c2) (m ++ 0x80 :: zs) = xor_with c1 m ++ (y ^^ 0x80) :: xor_with c2 zs)
    by (unfold xor_with; by rewrite zip_with_app).
  rewrite E3. cbn [default from_option id]. do 2 f_equal. unfold zs. rewrite <- H2. clear.
  induction c2 as [|x c2 IH]; [done|]. cbn. rewrite Z.lxor_0_r. f_equal. exact IH.
Qed.

Lemma omac_spec key key_len c elems :
  aes_encrypt_init key key_len = Ok (Some c) -> elems <> [] -> bytes (concat elems) ->
  concat elems = [] \/ all_nonempty elems ->
  omac1_aes_vector key key_len elems = Ok (0, cmac c (concat elems)).
Proof.
  intros Hi He Hb Hn. unfold omac1_aes_vector. rewrite Hi. cbn [cbind].
  destruct elems as [|first rest]; [done|].
  assert (Hz : block zero_block) by (split; [by apply bytes_replicate; lia|done]).
  change (concat (first :: rest)) with (first ++ concat rest) in *.
  destruct (decide (first ++ concat rest = [])) as [E|E].
  { rewrite E. cbn [omac_blocks length cbind]. change (Z.of_nat 0) with 0.
    change (Z.to_nat 0) with 0%nat. cbn [Z.eqb negb orb absorb cbind].
    pose proof (pad_last [] zero_block ltac:(cbn; lia) ltac:(done)) as Hp.
    rewrite xor_at_nil in Hp. cbn [length] in Hp. change (Z.of_nat 0) with 0 in Hp. rewrite Hp.
    unfold cmac. rewrite (cmac_chain_last c zero_block []) by (cbn; lia).
    unfold cmac_last. rewrite decide_False by (cbn; lia).
    cbn [length]. by rewrite (xor_with_swap zero_block). }
  destruct Hn as [Hn|Hn]; [done|]. inversion Hn as [|? ? Hf Hr]; subst.
  set (m := first ++ concat rest) in *.
  assert (Hm0 : (0 < length m)%nat) by (destruct m; [done|cbn; lia]).
  destruct (omac_blocks_spec (length m) c zero_block first rest) as (l & cbc & pos & rest' & Eb & H); try done.
  fold m in Eb, H. rewrite Eb. cbn [cbind]. destruct H as [[-> H]|(Hl & Hll & Hp & Hr' & Hcl & H)].
  - destruct (Z.eqb_spec (zlen m) 0); [lia|]. cbn [negb orb Z.eqb cbind]. unfold cmac. rewrite <- H. done.
  - destruct (Z.eqb_spec l 0); [lia|]. cbn [negb orb].
    set (m' := pos ++ concat rest') in *. subst l. rewrite Nat2Z.id.
    destruct (absorb_spec (length m') 0 cbc pos rest') as (p2 & r2 & Ea & _); try done; try (fold m'; lia).
    cbv zeta in Ea. fold m' in Ea. rewrite Nat.eqb_refl in Ea. rewrite Ea. cbn [cbind].
    rewrite take_ge by lia. rewrite pad_last by lia.
    unfold cmac. rewrite H. unfold cmac_last. rewrite decide_False by lia. by rewrite xor_with_swap.
Qed.

(** [omac1_aes_vector] over one or more non-empty elements returns the CMAC
    of SP 800-38B of their concatenation: how the message is cut into elements
    makes no difference, and no element is read past its end. *)
Theorem omac1_aes_vector_cmac key key_len elems :
  valid_key key key_len -> elems <> [] -> bytes (concat elems) ->
  concat elems = [] \/ all_nonempty elems ->
  exists c, aes_encrypt_init key key_len = Ok (Some c) /\
    omac1_aes_vector key key_len elems = Ok (0, cmac c (concat elems)).
Proof.
  intros Hk He Hb Hn. destruct (cipher_init key key_len Hk) as (e & _ & Hi & _).
  exists e. split; [done|]. by apply omac_spec.
Qed.

Lemma block_xor_with a b : block a -> block b -> block (xor_with a b).
Proof. intros [Ha La] [Hb Lb]. split; [by apply bytes_xor_with|]. rewrite length_xor_with. lia. Qed.

Lemma block_zero : block zero_block.
Proof. split; [by apply bytes_replicate; lia|done]. Qed.

Lemma block_cmac_last c m : bytes m -> (length m <= 16)%nat -> block (cmac_last c m).
Proof.
  intros Hm Hl. unfold cmac_last, subkey2, subkey1.
  assert (block (gf_mulx (aes_encrypt c zero_block))) by apply block_gf_mulx, (encrypt_block c), block_zero.
  case_decide; apply block_xor_with; try done; try by apply block_gf_mulx.
  split; [|rewrite length_app; cbn; rewrite length_replicate; lia].
  apply bytes_app. split; [done|]. constructor; [lia|]. by apply bytes_replicate; lia.
Qed.

Lemma block_cmac_chain f c x m : block x -> bytes m -> (length m <= f)%nat -> block (cmac_chain f c x m).
Proof.
  revert x m. induction f as [|f IH]; intros x m Hx Hm Hl; cbn [cmac_chain].
  - by apply (encrypt_block c), block_xor_with, block_cmac_last; [..|lia].
  - case_decide; [|by apply (encrypt_block c), block_xor_with, block_cmac_last; [..|lia]].
    apply IH; [|auto with cint|rewrite length_drop; lia].
    apply (encrypt_block c), block_xor_with; [done|]. split; [auto with cint|]. rewrite length_take. lia.
Qed.

Lemma block_cmac c m : bytes m -> block (cmac c m).
Proof. intros. by apply block_cmac_chain; [apply block_zero|..]. Qed.

End omac.

(** *** Witnesses, with hostapd's AES *)

Definition demo_key : list Z := seqZ 0 16.
Definition demo_data (n : Z) : list Z := map (fun i => (7 * i + 3) mod 256) (seqZ 0 n).

Lemma demo_key_ok : valid_key demo_key 16.
Proof. split; [by_deciding|]. split; [done|by left]. Qed.

Lemma aes_unwrap_wrap_witness :
  exists cipher, aes_wrap demo_key 16 2 (demo_data 16) = Ok (0, cipher) /\
    zlen cipher = 8 * (2 + 1) /\ bytes cipher /\
    aes_unwrap demo_key 16 2 cipher = Ok (0, demo_data 16).
Proof. apply (aes_unwrap_wrap demo_key 16 2 (demo_data 16) demo_key_ok); [lia|by_deciding|done]. Defined.

Lemma aes_ctr_encrypt_keystream_witness :
  exists e, aes_encrypt_init demo_key 16 = Ok (Some e) /\
    aes_ctr_encrypt demo_key 16 (replicate 16 255) (demo_data 35) =
    Ok (0, xor_with (demo_data 35) (keystream e (replicate 16 255) 0 (Z.to_nat ((35 + 15) / 16)))).
Proof.
  apply (aes_ctr_encrypt_keystream demo_key 16 (replicate 16 255) (demo_data 35) demo_key_ok).
  split; [by_deciding|done].
Defined.

Lemma aes_128_cbc_decrypt_encrypt_witness :
  exists data', aes_128_cbc_encrypt demo_key (demo_data 16) (demo_data 35) = Ok (0, data') /\
    length data' = 35%nat /\
    aes_128_cbc_decrypt demo_key (demo_data 16) data' = Ok (0, demo_data 35).
Proof.
  apply (aes_128_cbc_decrypt_encrypt demo_key (demo_data 16) (demo_data 35) demo_key_ok);
    [split; [by_deciding|done]|by_deciding].
Defined.

Lemma gf_mulx_doubles_witness :
  be_val (gf_mulx (replicate 16 255)) = ((2 * be_val (replicate 16 255)) mod 2 ^ 128) ^^ 0x87.
Proof. apply (gf_mulx_doubles (replicate 16 255)). split; [by_deciding|done]. Defined.

Lemma omac1_aes_vector_cmac_witness :
  exists c, aes_encrypt_init demo_key 16 = Ok (Some c) /\
    omac1_aes_vector demo_key 16 [demo_data 5; demo_data 40] = Ok (0, cmac c (demo_data 5 ++ demo_data 40)).
Proof.
  apply (omac1_aes_vector_cmac demo_key 16 [demo_data 5; demo_data 40] demo_key_ok);
    [discriminate|by_deciding|right; repeat constructor; discriminate].
Defined.

End AesModes.
