(* ===== verification/AesAead.v ===== *)
(** * Authenticated encryption (crypto/aes-eax.c, aes-siv.c, aes-ccm.c)

    EAX, SIV and CCM on the block cipher interface of [AesModes], with the
    theorems that each opens what it sealed and nothing else. *)

From S2P Require Import Prelude AesModes.

Module AesAead.
Import AesModes.

Section modes.
Context {ctx : Type} `{!BlockCipher ctx}.

(** ** EAX *)

(** The start of both functions' use of [buf]: fifteen zeros, the number of the
    string, the string. *)
Definition eax_mac (key : list Z) (t : Z) (data : list Z) : cres (Z * list Z) :=
  omac1_aes_128 key (replicate 15 0 ++ [t] ++ data).

Definition eax_tag (nonce_mac data_mac hdr_mac : list Z) : list Z :=
  xor_with (xor_with nonce_mac data_mac) hdr_mac.

(** The result, the data encrypted in place, and the tag. *)
Definition aes_128_eax_encrypt (malloc_ok : bool) (key nonce hdr data tag : list Z) :
    cres (Z * list Z * list Z) :=
  if negb malloc_ok then Ok (-1, data, tag)
  else
    (n <-- eax_mac key 0 nonce ;;
     if negb (n.1 =? 0) then Ok (-1, data, tag)
     else
       h <-- eax_mac key 1 hdr ;;
       if negb (h.1 =? 0) then Ok (-1, data, tag)
       else
         e <-- aes_128_ctr_encrypt key n.2 data ;;
         if negb (e.1 =? 0) then Ok (-1, e.2, tag)
         else
           d <-- eax_mac key 2 e.2 ;;
           if negb (d.1 =? 0) then Ok (-1, e.2, tag)
           else Ok (0, e.2, eax_tag n.2 d.2 h.2))%c.

Definition aes_128_eax_decrypt (malloc_ok : bool) (key nonce hdr data tag : list Z) :
    cres (Z * list Z) :=
  if negb malloc_ok then Ok (-1, data)
  else
    (n <-- eax_mac key 0 nonce ;;
     if negb (n.1 =? 0) then Ok (-1, data)
     else
       h <-- eax_mac key 1 hdr ;;
       if negb (h.1 =? 0) then Ok (-1, data)
       else
         d <-- eax_mac key 2 data ;;
         if negb (d.1 =? 0) then Ok (-1, data)
         else
           t <-- rdn tag 0 AES_BLOCK_SIZE ;;
           if negb (bool_decide (t = eax_tag n.2 d.2 h.2)) then Ok (-2, data)
           else aes_128_ctr_encrypt key n.2 data)%c.

(** ** SIV (RFC 5297) *)

Definition dbl (pad : list Z) : list Z := gf_mulx pad.

Definition xorend (a b : list Z) : list Z :=
  if zlen a <? zlen b then a
  else take (length a - length b) a ++ xor_with (drop (length a - length b) a) b.

Definition pad_block (addr : list Z) : list Z :=
  let pad := put 0 addr zero_block in
  if zlen addr <? AES_BLOCK_SIZE then <[length addr := 0x80]> pad else pad.

(** The loop of [aes_s2v] over all the elements but the last. *)
Fixpoint s2v_loop (key : list Z) (key_len : Z) (elems : list (list Z)) (tmp : list Z) :
    cres (Z * list Z) :=
  match elems with
  | [] => Ok (0, tmp)
  | a :: elems =>
      (r <-- omac1_aes_vector key key_len [a] ;;
       if negb (r.1 =? 0) then Ok r
       else s2v_loop key key_len elems (xor_with (dbl tmp) r.2))%c
  end.

Definition aes_s2v (malloc_ok : bool) (key : list Z) (key_len : Z) (elems : list (list Z)) :
    cres (Z * list Z) :=
  match last elems with
  | None => omac1_aes_vector key key_len [<[15%nat := 1]> zero_block]
  | Some sn =>
      (r <-- omac1_aes_vector key key_len [zero_block] ;;
       if negb (r.1 =? 0) then Ok r
       else
         r <-- s2v_loop key key_len (removelast elems) r.2 ;;
         if negb (r.1 =? 0) then Ok r
         else
           if AES_BLOCK_SIZE <=? zlen sn then
             if negb malloc_ok then Ok (-12, [])
             else omac1_aes_vector key key_len [xorend sn r.2]
           else omac1_aes_vector key key_len [xor_with (dbl r.2) (pad_block sn)])%c
  end.

(** [v[8] &= 0x7f; v[12] &= 0x7f;] *)
Definition siv_counter (v : list Z) : list Z :=
  let v := <[8%nat := Z.land (at_ v 8) 0x7f]> v in
  <[12%nat := Z.land (at_ v 12) 0x7f]> v.

Definition siv_key_len (key_len : Z) : bool := (key_len =? 32) || (key_len =? 48) || (key_len =? 64).

(** The result and the output buffer, empty when it is not written. *)
Definition aes_siv_encrypt (malloc_ok : bool) (key : list Z) (key_len : Z) (pw : list Z)
    (elems : list (list Z)) : cres (Z * list Z) :=
  if (5 <? zlen elems) || negb (siv_key_len key_len) then Ok (-1, [])
  else
    let key_len := key_len / 2 in
    (k1 <-- rdn key 0 key_len ;;
     k2 <-- rdn key key_len key_len ;;
     v <-- aes_s2v malloc_ok k1 key_len (elems ++ [pw]) ;;
     if negb (v.1 =? 0) then Ok (-1, [])
     else
       r <-- aes_ctr_encrypt k2 key_len (siv_counter v.2) pw ;;
       Ok (r.1, v.2 ++ r.2))%c.

Definition aes_siv_decrypt (malloc_ok : bool) (key : list Z) (key_len : Z) (iv_crypt : list Z)
    (elems : list (list Z)) : cres (Z * list Z) :=
  if (zlen iv_crypt <? AES_BLOCK_SIZE) || (5 <? zlen elems) || negb (siv_key_len key_len)
  then Ok (-1, [])
  else
    let crypt_len := zlen iv_crypt - AES_BLOCK_SIZE in
    let key_len := key_len / 2 in
    (k1 <-- rdn key 0 key_len ;;
     k2 <-- rdn key key_len key_len ;;
     iv <-- rdn iv_crypt 0 AES_BLOCK_SIZE ;;
     out <-- rdn iv_crypt AES_BLOCK_SIZE crypt_len ;;
     r <-- aes_ctr_encrypt k2 key_len (siv_counter iv) out ;;
     if negb (r.1 =? 0) then Ok r
     else
       check <-- aes_s2v malloc_ok k1 key_len (elems ++ [r.2]) ;;
       if negb (check.1 =? 0) then Ok (check.1, r.2)
       else if bool_decide (check.2 = iv) then Ok (0, r.2)
       else Ok (-1, r.2))%c.

(** ** CCM (RFC 3610) *)

(** [xor_aes_block(dst, src)]: four 32-bit words, that is sixteen bytes. *)
Definition xor_aes_block (dst src : list Z) : list Z :=
  xor_with (take 16 dst) src ++ drop 16 dst.

Definition WPA_PUT_BE16 (val : Z) : list Z := [u8 (Z.shiftr (u16 val) 8); u8 val].

(** The block [B_0]; [M] and [L] are [size_t]s. *)
Definition ccm_b0 (M L : Z) (nonce : list Z) (aad_len plain_len : Z) : list Z :=
  let flags := if aad_len =? 0 then 0 else 0x40 in
  let flags := u8 (Z.lor flags (Z.shiftl (u64 (M - 2) / 2) 3)) in
  let flags := u8 (Z.lor flags (u64 (L - 1))) in
  put (16 - L) (WPA_PUT_BE16 plain_len)
    (flags :: take (Z.to_nat (15 - L)) nonce ++ replicate (Z.to_nat L) 0).

(** [aes_ccm_auth_start]: [x] after the header; at most 30 bytes of [aad]. *)
Definition aes_ccm_auth_start (c : ctx) (M L : Z) (nonce aad : list Z) (plain_len : Z) : list Z :=
  let aad_len := zlen aad in
  let x := aes_encrypt c (ccm_b0 M L nonce aad_len plain_len) in
  if aad_len =? 0 then x
  else
    let aad_buf := WPA_PUT_BE16 aad_len ++ aad ++ replicate (Z.to_nat (32 - 2 - aad_len)) 0 in
    let aad_buf := xor_aes_block aad_buf x in
    let x := aes_encrypt c (take 16 aad_buf) in
    if AES_BLOCK_SIZE - 2 <? aad_len
    then aes_encrypt c (xor_aes_block (drop 16 aad_buf) x)
    else x.

(** [aes_ccm_auth]: [blocks] full blocks, then the rest. *)
Fixpoint ccm_auth_blocks (blocks : nat) (c : ctx) (data x : list Z) : list Z * list Z :=
  match blocks with
  | O => (data, x)
  | S blocks => ccm_auth_blocks blocks c (drop 16 data) (aes_encrypt c (xor_aes_block x data))
  end.

Definition aes_ccm_auth (c : ctx) (data x : list Z) : list Z :=
  let last := zlen data mod AES_BLOCK_SIZE in
  let '(data, x) := ccm_auth_blocks (Z.to_nat (zlen data / AES_BLOCK_SIZE)) c data x in
  if last =? 0 then x
  else aes_encrypt c (xor_with (take (Z.to_nat last) x) data ++ drop (Z.to_nat last) x).

Definition aes_ccm_encr_start (L : Z) (nonce : list Z) : list Z :=
  u8 (L - 1) :: take (Z.to_nat (15 - L)) nonce ++ replicate (Z.to_nat L) 0.

(** [WPA_PUT_BE16(&a[AES_BLOCK_SIZE - 2], i)] *)
Definition set_counter (a : list Z) (i : Z) : list Z := put 14 (WPA_PUT_BE16 i) a.

(** A block written at [off] of the output buffer, checked. *)
Definition write_block (off : Z) (b out : list Z) : cres (list Z) :=
  if (0 <=? off) && (off + zlen b <=? zlen out) then Ok (put off b out) else Fault.

(** [aes_ccm_encr]: the loop over the full blocks from the [i]-th, then the
    rest, for which a whole block of key stream is written to the output. *)
Fixpoint ccm_encr_blocks (blocks : nat) (c : ctx) (a : list Z) (i : Z) (inp out : list Z) :
    cres (list Z * list Z) :=
  match blocks with
  | O => Ok (a, out)
  | S blocks =>
      let a := set_counter a i in
      let off := 16 * (i - 1) in
      (out <-- write_block off (xor_with (aes_encrypt c a) (slice off 16 inp)) out ;;
       ccm_encr_blocks blocks c a (i + 1) inp out)%c
  end.

Definition aes_ccm_encr (c : ctx) (a inp out : list Z) : cres (list Z * list Z) :=
  let last := zlen inp mod AES_BLOCK_SIZE in
  let blocks := zlen inp / AES_BLOCK_SIZE in
  (s <-- ccm_encr_blocks (Z.to_nat blocks) c a 1 inp out ;;
   let '(a, out) := s in
   if last =? 0 then Ok (a, out)
   else
     let a := set_counter a (blocks + 1) in
     let off := 16 * blocks in
     out <-- write_block off (aes_encrypt c a) out ;;
     Ok (a, put off (xor_with (slice off last out) (slice off last inp)) out))%c.

(** [aes_ccm_encr_auth] and [aes_ccm_decr_auth]: [M] bytes exclusive or'ed with
    the key stream's block 0. *)
Definition aes_ccm_encr_auth (c : ctx) (M : Z) (x a : list Z) : list Z :=
  xor_with (take (Z.to_nat M) x) (aes_encrypt c (set_counter a 0)).
Definition aes_ccm_decr_auth (c : ctx) (M : Z) (a auth : list Z) : list Z :=
  xor_with (take (Z.to_nat M) auth) (aes_encrypt c (set_counter a 0)).

(** The result, the output buffer [crypt] and the authentication tag; the
    nonce has thirteen bytes. *)
Definition aes_ccm_ae (key : list Z) (key_len : Z) (nonce : list Z) (M : Z)
    (plain aad crypt auth : list Z) : cres (Z * list Z * list Z) :=
  let L := 2 in
  if (30 <? zlen aad) || (AES_BLOCK_SIZE <? M) then Ok (-1, crypt, auth)
  else
    (r <-- aes_encrypt_init key key_len ;;
     match r with
     | None => Ok (-1, crypt, auth)
     | Some c =>
         nonce <-- rdn nonce 0 (15 - L) ;;
         let x := aes_ccm_auth_start c M L nonce aad (zlen plain) in
         let x := aes_ccm_auth c plain x in
         let a := aes_ccm_encr_start L nonce in
         s <-- aes_ccm_encr c a plain crypt ;;
         Ok (0, s.2, aes_ccm_encr_auth c M x s.1)
     end)%c.

Definition aes_ccm_ad (key : list Z) (key_len : Z) (nonce : list Z) (M : Z)
    (crypt aad auth plain : list Z) : cres (Z * list Z) :=
  let L := 2 in
  if (30 <? zlen aad) || (AES_BLOCK_SIZE <? M) then Ok (-1, plain)
  else
    (r <-- aes_encrypt_init key key_len ;;
     match r with
     | None => Ok (-1, plain)
     | Some c =>
         nonce <-- rdn nonce 0 (15 - L) ;;
         let a := aes_ccm_encr_start L nonce in
         auth <-- rdn auth 0 M ;;
         let t := aes_ccm_decr_auth c M a auth in
         s <-- aes_ccm_encr c a crypt plain ;;
         let plain := s.2 in
         let x := aes_ccm_auth_start c M L nonce aad (zlen crypt) in
         let x := aes_ccm_auth c (take (length crypt) plain) x in
         if bool_decide (take (Z.to_nat M) x = t) then Ok (0, plain) else Ok (-1, plain)
     end)%c.

End modes.

(** RFC 3610, packet vector 1; the nine bytes after the ciphertext are the rest
    of the last key stream block. *)
Example rfc3610_packet_vector_1 :
  aes_ccm_ae (seqZ 0xc0 16) 16 [0; 0; 0; 3; 2; 1; 0; 0xa0; 0xa1; 0xa2; 0xa3; 0xa4; 0xa5] 8
    (seqZ 8 23) (seqZ 0 8) (replicate 32 0) []
  = Ok (0,
        [0x58; 0x8c; 0x97; 0x9a; 0x61; 0xc6; 0x63; 0xd2; 0xf0; 0x66; 0xd0; 0xc2; 0xc0; 0xf9; 0x89; 0x80;
         0x6d; 0x5f; 0x6b; 0x61; 0xda; 0xc3; 0x84] ++ [255; 100; 12; 156; 6; 222; 109; 13; 143],
        [0x17; 0xe8; 0xd1; 0x2c; 0xfd; 0xf9; 0x26; 0xe0]).
Proof. vm_compute. reflexivity. Qed.

Section laws.
Context {ctx : Type} `{!BlockCipher ctx, !CipherLaws ctx}.

(** ** EAX *)

(** The string number [t] that EAX authenticates. *)
Definition eax_string (t : Z) (data : list Z) : list Z := replicate 15 0 ++ [t] ++ data.

Lemma bytes_eax_string t data : is_byte t -> bytes data -> bytes (eax_string t data).
Proof.
  intros. unfold eax_string. rewrite !bytes_app. split; [by apply bytes_replicate; lia|].
  split; [by constructor|done].
Qed.

Lemma eax_mac_spec key e t data :
  aes_encrypt_init key 16 = Ok (Some e) -> is_byte t -> bytes data ->
  eax_mac key t data = Ok (0, cmac e (eax_string t data)).
Proof.
  intros He Ht Hd. unfold eax_mac, omac1_aes_128, omac1_aes_128_vector.
  pose proof (omac_spec key 16 e [eax_string t data] He ltac:(done)) as E.
  cbn [concat] in E. rewrite app_nil_r in E. apply E; [by apply bytes_eax_string|].
  right. constructor; [discriminate|constructor].
Qed.

Definition eax_expected (e : ctx) (nonce hdr data : list Z) : list Z :=
  eax_tag (cmac e (eax_string 0 nonce)) (cmac e (eax_string 2 data)) (cmac e (eax_string 1 hdr)).

Lemma eax_encrypt_spec key e nonce hdr data data' tag :
  aes_encrypt_init key 16 = Ok (Some e) -> bytes nonce -> bytes hdr -> bytes data' ->
  aes_128_ctr_encrypt key (cmac e (eax_string 0 nonce)) data = Ok (0, data') ->
  aes_128_eax_encrypt true key nonce hdr data tag = Ok (0, data', eax_expected e nonce hdr data').
Proof.
  intros He Hn Hh Hd Hc. unfold aes_128_eax_encrypt. cbn [negb].
  rewrite (eax_mac_spec key e 0) by (done || lia). cbn [cbind fst snd Z.eqb negb].
  rewrite (eax_mac_spec key e 1) by (done || lia). cbn [cbind fst snd Z.eqb negb].
  rewrite Hc. cbn [cbind fst snd Z.eqb negb].
  by rewrite (eax_mac_spec key e 2) by (done || lia).
Qed.

Lemma eax_decrypt_spec key e nonce hdr data tag :
  aes_encrypt_init key 16 = Ok (Some e) -> bytes nonce -> bytes hdr -> bytes data -> length tag = 16%nat ->
  aes_128_eax_decrypt true key nonce hdr data tag =
  if bool_decide (tag = eax_expected e nonce hdr data)
  then aes_128_ctr_encrypt key (cmac e (eax_string 0 nonce)) data
  else Ok (-2, data).
Proof.
  intros He Hn Hh Hd Ht. unfold aes_128_eax_decrypt. cbn [negb].
  rewrite (eax_mac_spec key e 0) by (done || lia). cbn [cbind fst snd Z.eqb negb].
  rewrite (eax_mac_spec key e 1) by (done || lia). cbn [cbind fst snd Z.eqb negb].
  rewrite (eax_mac_spec key e 2) by (done || lia). cbn [cbind fst snd Z.eqb negb].
  rewrite rdn_ok, slice_all by (unfold AES_BLOCK_SIZE; lia). cbn [cbind].
  unfold eax_expected. by case_bool_decide.
Qed.

(** What [aes_128_eax_encrypt] sealed, [aes_128_eax_decrypt] opens with the
    same key, nonce and header: it returns 0 and the data. *)
Theorem aes_128_eax_decrypt_encrypt key nonce hdr data tag0 :
  valid_key key 16 -> bytes nonce -> bytes hdr -> bytes data ->
  exists data' tag,
    aes_128_eax_encrypt true key nonce hdr data tag0 = Ok (0, data', tag) /\
    length data' = length data /\ length tag = 16%nat /\
    aes_128_eax_decrypt true key nonce hdr data' tag = Ok (0, data).
Proof.
  intros Hk Hn Hh Hd. destruct (cipher_init key 16 Hk) as (e & _ & He & _).
  assert (Hnm : block (cmac e (eax_string 0 nonce))) by (apply block_cmac, bytes_eax_string; [lia|done]).
  destruct (ctr_involutive key 16 _ data Hk Hnm) as (data' & E1 & El & Hb & E2).
  exists data', (eax_expected e nonce hdr data'). split; [by apply eax_encrypt_spec; auto|].
  split; [done|].
  assert (Ht : length (eax_expected e nonce hdr data') = 16%nat).
  { unfold eax_expected, eax_tag. apply block_xor_with; [apply block_xor_with|];
      apply block_cmac, bytes_eax_string; auto; lia. }
  split; [done|]. rewrite (eax_decrypt_spec key e) by auto. by rewrite bool_decide_eq_true_2.
Qed.

(** C35: [aes_128_eax_decrypt] opens nothing else: for a tag that is not the MAC
    of nonce, header and data it returns -2 and leaves the data encrypted. *)
Theorem aes_128_eax_decrypt_authentic key nonce hdr data tag :
  valid_key key 16 -> bytes nonce -> bytes hdr -> bytes data -> length tag = 16%nat ->
  exists e, aes_encrypt_init key 16 = Ok (Some e) /\
    ((tag = eax_expected e nonce hdr data /\
      exists plain, aes_128_eax_decrypt true key nonce hdr data tag = Ok (0, plain) /\
        aes_128_eax_encrypt true key nonce hdr plain tag = Ok (0, data, tag)) \/
     (tag <> eax_expected e nonce hdr data /\
      aes_128_eax_decrypt true key nonce hdr data tag = Ok (-2, data))).
Proof.
  intros Hk Hn Hh Hd Ht. destruct (cipher_init key 16 Hk) as (e & _ & He & _).
  exists e. split; [done|]. rewrite (eax_decrypt_spec key e) by auto.
  case_bool_decide as E; [left|by right]. split; [done|].
  assert (Hnm : block (cmac e (eax_string 0 nonce))) by (apply block_cmac, bytes_eax_string; [lia|done]).
  destruct (ctr_involutive key 16 _ data Hk Hnm) as (plain & E1 & El & Hb & E2).
  exists plain. split; [done|]. rewrite E at 2. by apply eax_encrypt_spec.
Qed.

(** ** SIV *)

Lemma omac_single key key_len data :
  valid_key key key_len -> bytes data ->
  exists v, omac1_aes_vector key key_len [data] = Ok (0, v) /\ block v.
Proof.
  intros Hk Hd. destruct (cipher_init key key_len Hk) as (e & _ & He & _).
  exists (cmac e data). split; [|by apply block_cmac].
  pose proof (omac_spec key key_len e [data] He ltac:(done)) as E.
  cbn [concat] in E. rewrite app_nil_r in E. apply E; [done|].
  destruct data; [by left|right]. constructor; [discriminate|constructor].
Qed.

Lemma s2v_loop_ok key key_len elems tmp :
  valid_key key key_len -> block tmp -> Forall (fun e => bytes e) elems ->
  exists v, s2v_loop key key_len elems tmp = Ok (0, v) /\ block v.
Proof.
  intros Hk Ht He. revert tmp Ht. induction He as [|e elems He Hel IH]; intros tmp Ht; [by exists tmp|].
  destruct (omac_single key key_len e Hk He) as (v & E & Hv).
  cbn [s2v_loop]. rewrite E. cbn [cbind fst snd Z.eqb negb].
  apply IH, block_xor_with; [|done]. by apply block_gf_mulx.
Qed.

Lemma s2v_ok key key_len elems sn :
  valid_key key key_len -> Forall (fun e => bytes e) elems -> bytes sn ->
  exists v, aes_s2v true key key_len (elems ++ [sn]) = Ok (0, v) /\ block v.
Proof.
  intros Hk He Hs. unfold aes_s2v. rewrite last_snoc, removelast_last.
  destruct (omac_single key key_len zero_block Hk) as (z & Ez & Hz); [apply block_zero|].
  rewrite Ez. cbn [cbind fst snd Z.eqb negb].
  destruct (s2v_loop_ok key key_len elems z Hk Hz He) as (d & Ed & Hd).
  rewrite Ed. cbn [cbind fst snd Z.eqb negb]. unfold AES_BLOCK_SIZE.
  destruct (Z.leb_spec 16 (zlen sn)) as [Hl|Hl]; apply omac_single; try done.
  - unfold xorend. case_match; [done|]. apply bytes_app.
    destruct Hd. split; [auto with cint|]. apply bytes_xor_with; auto with cint.
  - apply block_xor_with; [by apply block_gf_mulx|]. unfold pad_block, AES_BLOCK_SIZE.
    destruct (Z.ltb_spec (zlen sn) 16); [|lia]. split.
    + apply Forall_insert; [|lia]. apply bytes_put; [done|]. apply block_zero.
    + rewrite length_insert, length_put; [done|lia|]. cbn. lia.
Qed.

Lemma block_siv_counter v : block v -> block (siv_counter v).
Proof.
  intros [Hb Hl]. unfold siv_counter.
  assert (Hm : forall l i, bytes l -> is_byte (Z.land (at_ l i) 0x7f)).
  { intros l i Hbl. change 0x7f with (Z.ones 7). rewrite land_mask by lia.
    pose proof (Z.mod_pos_bound (at_ l i) (2 ^ 7)). lia. }
  assert (H8 : bytes (<[8%nat := Z.land (at_ v 8) 0x7f]> v)) by (apply Forall_insert; auto).
  split; [apply Forall_insert; auto|by rewrite !length_insert].
Qed.

Lemma valid_half key key_len off :
  bytes key -> zlen key = key_len -> siv_key_len key_len = true -> (off = 0 \/ off = key_len / 2) ->
  rdn key off (key_len / 2) = Ok (slice off (key_len / 2) key) /\
  valid_key (slice off (key_len / 2) key) (key_len / 2).
Proof.
  intros Hb Hl Hk Ho. unfold siv_key_len in Hk. rewrite !orb_true_iff, !Z.eqb_eq in Hk.
  assert (0 <= off /\ off + key_len / 2 <= zlen key) as [H1 H2] by (destruct Hk as [[-> | ->]| ->]; dlia).
  split; [apply rdn_ok; dlia|]. split; [auto with cint|].
  split; [rewrite length_slice; dlia|]. destruct Hk as [[-> | ->]| ->]; dlia.
Qed.

(** [aes_siv_decrypt] recovers with the same key and associated data what
    [aes_siv_encrypt] sealed; the sealed text is one block longer.  At most
    five elements of associated data, which may be empty. *)
Theorem aes_siv_decrypt_encrypt key key_len pw elems :
  bytes key -> zlen key = key_len -> siv_key_len key_len = true ->
  bytes pw -> Forall (fun e => bytes e) elems -> zlen elems <= 5 ->
  exists out, aes_siv_encrypt true key key_len pw elems = Ok (0, out) /\
    zlen out = 16 + zlen pw /\
    aes_siv_decrypt true key key_len out elems = Ok (0, pw).
Proof.
  intros Hkb Hkl Hkk Hp He Hn. unfold aes_siv_encrypt, aes_siv_decrypt.
  destruct (valid_half key key_len 0 Hkb Hkl Hkk) as [R1 V1]; [by left|].
  destruct (valid_half key key_len (key_len / 2) Hkb Hkl Hkk) as [R2 V2]; [by right|].
  rewrite Hkk, R1, R2. destruct (Z.ltb_spec 5 (zlen elems)); [lia|]. cbn [orb negb cbind].
  destruct (s2v_ok _ _ elems pw V1 He Hp) as (v & Ev & Hv). rewrite Ev. cbn [cbind fst snd Z.eqb negb].
  destruct (ctr_involutive _ _ _ pw V2 (block_siv_counter v Hv)) as (c & E1 & Hl & Hb & E2).
  rewrite E1. cbn [cbind fst snd].
  exists (v ++ c). destruct Hv as [Hvb Hvl].
  assert (Hlen : zlen (v ++ c) = 16 + zlen pw) by (rewrite length_app, Hl; lia).
  split; [done|]. split; [done|]. unfold AES_BLOCK_SIZE. rewrite Hlen.
  destruct (Z.ltb_spec (16 + zlen pw) 16); [lia|]. cbn [orb].
  rewrite (rdn_ok _ 0), (rdn_ok _ 16) by lia. cbn [cbind].
  rewrite slice_app_l, slice_app_r by lia. rewrite E2. cbn [cbind fst snd Z.eqb negb].
  rewrite Ev. cbn [cbind fst snd Z.eqb negb]. by rewrite bool_decide_eq_true_2.
Qed.

(** ** CCM *)

Lemma xor_with_comm a b : xor_with a b = xor_with b a.
Proof.
  revert b. induction a as [|x a IH]; intros [|y b]; try done. cbn. rewrite IH. f_equal. apply Z.lxor_comm.
Qed.

Lemma xor_with_take n a b : xor_with (take n a) (take n b) = take n (xor_with a b).
Proof.
  revert a b. induction n as [|n IH]; intros [|x a] [|y b]; try done. cbn. f_equal. apply IH.
Qed.

(** The counter of a counter block does not depend on the one before. *)
Lemma set_counter_set a i j : length a = 16%nat -> set_counter (set_counter a i) j = set_counter a j.
Proof. intros. unfold set_counter. apply put_put; cbn; lia. Qed.

Lemma length_set_counter a i : length a = 16%nat -> length (set_counter a i) = 16%nat.
Proof. intros. unfold set_counter. rewrite length_put; cbn; lia. Qed.

Lemma block_set_counter a i : block a -> block (set_counter a i).
Proof.
  intros [Hb Hl]. split; [|by apply length_set_counter]. apply bytes_put; [|done].
  unfold WPA_PUT_BE16. repeat constructor; apply u8_range.
Qed.

(** The key stream of blocks [i], [i + 1], ... *)
Fixpoint ccm_stream (c : ctx) (a : list Z) (i : Z) (n : nat) : list Z :=
  match n with
  | O => []
  | S n => aes_encrypt c (set_counter a i) ++ ccm_stream c a (i + 1) n
  end.

Lemma ccm_stream_set c a j i n :
  length a = 16%nat -> ccm_stream c (set_counter a j) i n = ccm_stream c a i n.
Proof. intros Ha. revert i. induction n as [|n IH]; intros i; cbn; [done|]. by rewrite set_counter_set, IH. Qed.

Lemma length_ccm_stream c a i n : block a -> length (ccm_stream c a i n) = (16 * n)%nat.
Proof.
  intros Ha. revert i. induction n as [|n IH]; intros i; cbn [ccm_stream]; [done|].
  destruct (encrypt_block c _ (block_set_counter a i Ha)) as [_ E]. rewrite length_app, IH. lia.
Qed.

Lemma ccm_stream_snoc c a i n :
  ccm_stream c a i (S n) = ccm_stream c a i n ++ aes_encrypt c (set_counter a (i + Z.of_nat n)).
Proof.
  revert i. induction n as [|n IH]; intros i; [cbn; by rewrite app_nil_r, Z.add_0_r|].
  change (ccm_stream c a i (S (S n)))
    with (aes_encrypt c (set_counter a i) ++ ccm_stream c a (i + 1) (S n)).
  rewrite IH, app_assoc. by replace (i + Z.of_nat (S n)) with (i + 1 + Z.of_nat n) by lia.
Qed.

Lemma put_app off b bs l :
  0 <= off -> off + zlen b + zlen bs <= zlen l ->
  put (off + zlen b) bs (put off b l) = put off (b ++ bs) l.
Proof.
  intros Ho Hl. unfold put.
  assert (Ht : length (take (Z.to_nat off) l) = Z.to_nat off) by (rewrite length_take; lia).
  rewrite (app_assoc (take _ l)), take_app_length' by (rewrite length_app; lia).
  rewrite <- !app_assoc. do 3 f_equal. rewrite (app_assoc (take _ l)).
  rewrite drop_app_ge by (rewrite length_app; lia). rewrite drop_drop. f_equal.
  rewrite !length_app. lia.
Qed.

Lemma write_block_ok off b out : 0 <= off -> off + zlen b <= zlen out -> write_block off b out = Ok (put off b out).
Proof.
  intros. unfold write_block. destruct (Z.leb_spec 0 off), (Z.leb_spec (off + zlen b) (zlen out)); try lia. done.
Qed.

Lemma slice_app_slice {A} off n m (l : list A) :
  0 <= off -> 0 <= n -> 0 <= m -> slice off n l ++ slice (off + n) m l = slice off (n + m) l.
Proof.
  intros. unfold slice. rewrite !Z2Nat.inj_add, <- drop_drop by lia. apply take_take_drop.
Qed.

Lemma length_slice_le {A} off n (l : list A) : (length (slice off n l) <= Z.to_nat n)%nat.
Proof. unfold slice. rewrite length_take. lia. Qed.

Lemma ccm_encr_blocks_spec n c a i inp out :
  block a -> 1 <= i -> 16 * (i - 1) + 16 * Z.of_nat n <= zlen inp ->
  16 * (i - 1) + 16 * Z.of_nat n <= zlen out ->
  exists a', ccm_encr_blocks n c a i inp out =
    Ok (a', put (16 * (i - 1))
              (xor_with (slice (16 * (i - 1)) (16 * Z.of_nat n) inp) (ccm_stream c a i n)) out) /\
    (a' = a \/ exists j, a' = set_counter a j).
Proof.
  intros Ha. revert i out. assert (Hla : length a = 16%nat) by apply Ha.
  cut (forall i out a0, (a0 = a \/ exists j, a0 = set_counter a j) ->
    1 <= i -> 16 * (i - 1) + 16 * Z.of_nat n <= zlen inp -> 16 * (i - 1) + 16 * Z.of_nat n <= zlen out ->
    exists a', ccm_encr_blocks n c a0 i inp out =
    Ok (a', put (16 * (i - 1))
              (xor_with (slice (16 * (i - 1)) (16 * Z.of_nat n) inp) (ccm_stream c a i n)) out) /\
    (a' = a \/ exists j, a' = set_counter a j)).
  { intros H i out. by apply H; left. }
  induction n as [|n IH]; intros i out a0 Ha0 Hi Hin Hout.
  { exists a0. split; [|done]. cbn [ccm_encr_blocks ccm_stream]. unfold xor_with. rewrite zip_with_nil_r.
    unfold put. cbn [app length]. by rewrite Nat.add_0_r, take_drop. }
  cbn [ccm_encr_blocks]. set (off := 16 * (i - 1)) in *.
  assert (Es : set_counter a0 i = set_counter a i) by (destruct Ha0 as [->|[j ->]]; [done|by apply set_counter_set]).
  rewrite Es. destruct (encrypt_block c _ (block_set_counter a i Ha)) as [_ HE].
  set (b := xor_with (aes_encrypt c (set_counter a i)) (slice off 16 inp)).
  assert (Hb : length b = 16%nat) by (unfold b; rewrite length_xor_with, length_slice; lia).
  rewrite write_block_ok by lia. cbn [cbind].
  destruct (IH (i + 1) (put off b out) (set_counter a i)) as (a' & E & Ha'); [right; by exists i|lia|lia|..].
  { rewrite length_put; lia. }
  exists a'. split; [|done]. rewrite E. do 2 f_equal.
  replace (16 * (i + 1 - 1)) with (off + zlen b) by (rewrite Hb; lia).
  set (b2 := xor_with (slice (off + zlen b) (16 * Z.of_nat n) inp) (ccm_stream c a (i + 1) n)).
  assert (Hb2 : zlen b2 = 16 * Z.of_nat n).
  { unfold b2. rewrite length_xor_with, length_slice, length_ccm_stream by (done || lia). lia. }
  rewrite put_app by lia. f_equal.
  replace (16 * Z.of_nat (S n)) with (16 + 16 * Z.of_nat n) by lia.
  rewrite <- slice_app_slice by lia. cbn [ccm_stream].
  unfold b, b2. rewrite Hb, (xor_with_comm (aes_encrypt _ _)). unfold xor_with.
  by rewrite zip_with_app by (rewrite length_slice; lia).
Qed.

Lemma take_put_0 b l : (length b <= length l)%nat -> take (length b) (put 0 b l) = b.
Proof. intros. unfold put. rewrite take_0. cbn [app]. by rewrite take_app_length. Qed.

Lemma take_put_after n off b l : 0 <= off <= zlen l -> (n <= Z.to_nat off)%nat -> take n (put off b l) = take n l.
Proof.
  intros. unfold put. rewrite take_app_le by (rewrite length_take; lia). rewrite take_take. f_equal. lia.
Qed.

Lemma ccm_encr_spec c a inp out :
  block a -> 16 * ((zlen inp + 15) / 16) <= zlen out ->
  exists a' out', aes_ccm_encr c a inp out = Ok (a', out') /\
    take (length inp) out' = xor_with inp (ccm_stream c a 1 (Z.to_nat ((zlen inp + 15) / 16))) /\
    length out' = length out /\ set_counter a' 0 = set_counter a 0.
Proof.
  intros Ha Hout. assert (Hla : length a = 16%nat) by apply Ha.
  unfold aes_ccm_encr, AES_BLOCK_SIZE. set (n := zlen inp / 16). set (last := zlen inp mod 16).
  assert (Hn : zlen inp = 16 * n + last /\ 0 <= last < 16 /\ 0 <= n) by (unfold n, last; dlia).
  destruct (ccm_encr_blocks_spec (Z.to_nat n) c a 1 inp out Ha) as (a' & E & Ha'); [lia|lia|dlia|].
  rewrite E. cbn [cbind]. change (16 * (1 - 1)) with 0. rewrite Z2Nat.id by lia.
  set (ks := ccm_stream c a 1 (Z.to_nat n)).
  set (B := xor_with (slice 0 (16 * n) inp) ks).
  assert (Hks : length ks = (16 * Z.to_nat n)%nat) by (by apply length_ccm_stream).
  assert (HB : zlen B = 16 * n) by (unfold B; rewrite length_xor_with, length_slice; lia).
  assert (Hset : forall i, set_counter a' i = set_counter a i)
    by (intros i; destruct Ha' as [->|[j ->]]; [done|by apply set_counter_set]).
  destruct (Z.eqb_spec last 0) as [El|El].
  - exists a', (put 0 B out). split; [done|].
    replace ((zlen inp + 15) / 16) with n by dlia. fold ks.
    assert (EB : B = xor_with inp ks) by (unfold B; by rewrite slice_all by lia).
    split; [|split; [apply length_put; dlia|apply Hset]].
    replace (length inp) with (length B) by lia. rewrite take_put_0 by dlia. done.
  - replace ((zlen inp + 15) / 16) with (n + 1) in * by dlia.
    rewrite Hset. destruct (encrypt_block c _ (block_set_counter a (n + 1) Ha)) as [_ HE].
    set (S1 := aes_encrypt c (set_counter a (n + 1))) in *.
    assert (Hl1 : length (put 0 B out) = length out) by (apply length_put; lia).
    rewrite write_block_ok by lia. cbn [cbind].
    set (out2 := put (16 * n) S1 (put 0 B out)).
    assert (Hl2 : length out2 = length out) by (unfold out2; rewrite length_put; lia).
    exists (set_counter a (n + 1)). eexists. split; [done|].
    split; [|split; [|by apply set_counter_set]].
    2:{ rewrite length_put; [done|lia|]. rewrite length_xor_with, length_slice by lia.
        pose proof (length_slice_le (16 * n) last inp). lia. }
    assert (Es : slice (16 * n) last out2 = take (Z.to_nat last) S1).
    { unfold slice, out2, put at 1. rewrite drop_app_length' by (rewrite length_take; lia).
      by rewrite take_app_le by lia. }
    assert (Ei : slice (16 * n) last inp = drop (Z.to_nat (16 * n)) inp)
      by (unfold slice; apply take_ge; rewrite length_drop; lia).
    rewrite Es, Ei. set (X := xor_with (take (Z.to_nat last) S1) (drop (Z.to_nat (16 * n)) inp)).
    assert (HX : zlen X = last) by (unfold X; rewrite length_xor_with, length_take, length_drop; lia).
    assert (Eo : take (Z.to_nat (16 * n)) out2 = B).
    { unfold out2. rewrite take_put_after by lia. replace (Z.to_nat (16 * n)) with (length B) by lia.
      apply take_put_0. lia. }
    unfold put. rewrite Eo, app_assoc, take_app_length' by (rewrite length_app; lia).
    replace (Z.to_nat (n + 1)) with (S (Z.to_nat n)) by lia. rewrite ccm_stream_snoc. fold ks.
    replace (1 + Z.of_nat (Z.to_nat n)) with (n + 1) by lia. fold S1.
    rewrite <- (take_drop (Z.to_nat (16 * n)) inp) at 1. unfold xor_with at 1.
    rewrite zip_with_app by (rewrite length_take; lia). fold (xor_with (drop (Z.to_nat (16 * n)) inp) S1).
    unfold B, slice. rewrite drop_0. unfold xor_with at 1. f_equal.
    unfold X. rewrite xor_with_comm.
    assert (Ed : length (drop (Z.to_nat (16 * n)) inp) = Z.to_nat last) by (rewrite length_drop; lia).
    rewrite <- Ed, <- (firstn_all (drop (Z.to_nat (16 * n)) inp)) at 1.
    rewrite xor_with_take, take_ge; [done|]. rewrite length_xor_with. lia.
Qed.

Lemma bytes_put_be16 v : bytes (WPA_PUT_BE16 v).
Proof. unfold WPA_PUT_BE16. repeat constructor; apply u8_range. Qed.

Lemma block_counter0 nonce : bytes nonce -> length nonce = 13%nat -> block (aes_ccm_encr_start 2 nonce).
Proof.
  intros Hb Hl. unfold aes_ccm_encr_start. change (Z.to_nat (15 - 2)) with 13%nat.
  rewrite take_ge by lia. split; [|cbn; rewrite length_app, Hl; done].
  constructor; [apply u8_range|]. apply bytes_app. split; [done|]. by apply bytes_replicate; lia.
Qed.

Lemma block_b0 M nonce aad_len plain_len :
  bytes nonce -> length nonce = 13%nat -> block (ccm_b0 M 2 nonce aad_len plain_len).
Proof.
  intros Hb Hl. unfold ccm_b0. change (Z.to_nat (15 - 2)) with 13%nat. rewrite take_ge by lia.
  assert (H16 : length (replicate (Z.to_nat 2) 0) = 2%nat) by done.
  split.
  - apply bytes_put; [apply bytes_put_be16|]. constructor; [apply u8_range|].
    apply bytes_app. split; [done|]. by apply bytes_replicate; lia.
  - rewrite length_put; cbn; rewrite ?length_app, ?Hl; cbn; lia.
Qed.

Lemma xor_aes_block_16 a b : length a = 16%nat -> xor_aes_block a b = xor_with a b.
Proof. intros. unfold xor_aes_block. by rewrite take_ge, drop_ge, app_nil_r by lia. Qed.

Lemma block_auth_start c M nonce aad plain_len :
  bytes nonce -> length nonce = 13%nat -> bytes aad -> zlen aad <= 30 ->
  block (aes_ccm_auth_start c M 2 nonce aad plain_len).
Proof.
  intros Hb Hl Ha Hla. unfold aes_ccm_auth_start, AES_BLOCK_SIZE.
  pose proof (encrypt_block c _ (block_b0 M nonce (zlen aad) plain_len Hb Hl)) as Hx.
  set (x := aes_encrypt c _) in *. case_match; [done|].
  set (buf := WPA_PUT_BE16 (zlen aad) ++ aad ++ replicate (Z.to_nat (32 - 2 - zlen aad)) 0).
  assert (Hbuf : bytes buf).
  { unfold buf. rewrite !bytes_app. split; [apply bytes_put_be16|]. split; [done|]. by apply bytes_replicate; lia. }
  assert (Hbl : length buf = 32%nat) by (unfold buf; rewrite !length_app, length_replicate; cbn; lia).
  assert (Hx2 : block (take 16 (xor_aes_block buf x))).
  { unfold xor_aes_block. destruct Hx. rewrite take_app_length' by (rewrite length_xor_with, length_take; lia).
    apply block_xor_with; [|done]. split; [auto with cint|rewrite length_take; lia]. }
  pose proof (encrypt_block c _ Hx2) as Hx3. case_match; [|done].
  apply (encrypt_block c).
  assert (Hd : drop 16 (xor_aes_block buf x) = drop 16 buf).
  { unfold xor_aes_block. destruct Hx. by rewrite drop_app_length' by (rewrite length_xor_with, length_take; lia). }
  rewrite Hd, xor_aes_block_16 by (rewrite length_drop; lia). apply block_xor_with; [|done].
  split; [auto with cint|rewrite length_drop; lia].
Qed.

Lemma auth_blocks_ok n c data x :
  block x -> bytes data -> (16 * n <= length data)%nat ->
  exists x', ccm_auth_blocks n c data x = (drop (16 * n) data, x') /\ block x'.
Proof.
  revert data x. induction n as [|n IH]; intros data x Hx Hd Hl; [by exists x; rewrite drop_0|].
  cbn [ccm_auth_blocks]. destruct (IH (drop 16 data) (aes_encrypt c (xor_aes_block x data))) as (x' & E & Hx').
  - apply (encrypt_block c). destruct Hx as [Hxb Hxl]. rewrite xor_aes_block_16 by done.
    split; [by apply bytes_xor_with|]. rewrite length_xor_with. lia.
  - auto with cint.
  - rewrite length_drop. lia.
  - exists x'. rewrite E, drop_drop. split; [|done]. do 2 f_equal. lia.
Qed.

Lemma block_auth c data x : block x -> bytes data -> block (aes_ccm_auth c data x).
Proof.
  intros Hx Hd. unfold aes_ccm_auth, AES_BLOCK_SIZE.
  destruct (auth_blocks_ok (Z.to_nat (zlen data / 16)) c data x Hx Hd) as (x' & E & Hx'); [dlia|].
  rewrite E. case_match; [done|]. apply (encrypt_block c). destruct Hx' as [Hb Hl]. split.
  - apply bytes_app. split; [apply bytes_xor_with|]; auto with cint.
  - rewrite length_app, length_xor_with, length_take, !length_drop. dlia.
Qed.

(** [aes_ccm_ad] recovers with the same key, nonce, tag length and
    associated data what [aes_ccm_ae] sealed, and accepts its tag.  The output
    buffers have room for a whole number of blocks. *)
Theorem aes_ccm_ad_ae key key_len nonce M plain aad crypt auth plain' :
  valid_key key key_len -> bytes nonce -> length nonce = 13%nat -> 0 <= M <= 16 ->
  bytes plain -> bytes aad -> zlen aad <= 30 ->
  16 * ((zlen plain + 15) / 16) <= zlen crypt -> 16 * ((zlen plain + 15) / 16) <= zlen plain' ->
  exists crypt1 tag,
    aes_ccm_ae key key_len nonce M plain aad crypt auth = Ok (0, crypt1, tag) /\ zlen tag = M /\
    exists plain1, aes_ccm_ad key key_len nonce M (take (length plain) crypt1) aad tag plain' = Ok (0, plain1) /\
      take (length plain) plain1 = plain.
Proof.
  intros Hk Hn Hnl HM Hp Ha Hal Hc Hc'. destruct (cipher_init key key_len Hk) as (e & _ & He & _).
  unfold aes_ccm_ae, aes_ccm_ad, AES_BLOCK_SIZE. rewrite He.
  destruct (Z.ltb_spec 30 (zlen aad)), (Z.ltb_spec 16 M); try lia. cbn [orb cbind].
  rewrite (rdn_ok nonce), (slice_all _ nonce) by lia. cbn [cbind].
  set (a := aes_ccm_encr_start 2 nonce). pose proof (block_counter0 nonce Hn Hnl : block a) as Hblk.
  destruct (ccm_encr_spec e a plain crypt Hblk Hc) as (a1 & crypt1 & E1 & T1 & L1 & S1).
  rewrite E1. cbn [cbind fst snd].
  set (ks := ccm_stream e a 1 (Z.to_nat ((zlen plain + 15) / 16))) in *.
  assert (Hks : (length plain <= length ks)%nat) by (unfold ks; rewrite length_ccm_stream by done; dlia).
  set (x := aes_ccm_auth e plain _). assert (Hx : block x) by (by apply block_auth, Hp; apply block_auth_start).
  exists crypt1, (aes_ccm_encr_auth e M x a1).
  destruct (encrypt_block e _ (block_set_counter a 0 Hblk)) as [_ HS].
  assert (Ht : length (aes_ccm_encr_auth e M x a1) = Z.to_nat M).
  { unfold aes_ccm_encr_auth. rewrite S1, length_xor_with, length_take. destruct Hx. lia. }
  split; [done|]. split; [lia|].
  rewrite (rdn_ok _ 0 M), slice_all by lia. cbn [cbind]. rewrite T1.
  assert (Hlc : length (xor_with plain ks) = length plain) by (rewrite length_xor_with; lia).
  destruct (ccm_encr_spec e a (xor_with plain ks) plain' Hblk) as (a2 & plain1 & E2 & T2 & L2 & S2).
  { by rewrite Hlc. }
  rewrite E2. cbn [cbind fst snd]. rewrite Hlc in T2 |- *. fold ks in T2.
  rewrite xor_with_cancel in T2 by done. rewrite T2. fold x.
  exists plain1. split; [|done]. rewrite bool_decide_eq_true_2; [done|].
  unfold aes_ccm_decr_auth, aes_ccm_encr_auth. rewrite S1. destruct Hx.
  rewrite (take_ge (xor_with _ _)) by (rewrite length_xor_with, length_take; lia).
  rewrite xor_with_cancel by (rewrite length_take; lia). done.
Qed.

(** [aes_ccm_ae] writes past the end of an output buffer that has just the
    room of the message, when the message does not end a block:
    [aes_ccm_encr] writes a whole block of key stream for the partial one. *)
Theorem aes_ccm_ae_overruns key key_len nonce M plain aad crypt auth :
  valid_key key key_len -> bytes nonce -> length nonce = 13%nat -> 0 <= M <= 16 -> zlen aad <= 30 ->
  zlen plain mod 16 <> 0 -> zlen crypt = zlen plain ->
  aes_ccm_ae key key_len nonce M plain aad crypt auth = Fault.
Proof.
  intros Hk Hn Hnl HM Hal Hm Hl. destruct (cipher_init key key_len Hk) as (e & _ & He & _).
  unfold aes_ccm_ae, AES_BLOCK_SIZE. rewrite He.
  destruct (Z.ltb_spec 30 (zlen aad)), (Z.ltb_spec 16 M); try lia. cbn [orb cbind].
  rewrite (rdn_ok nonce), (slice_all _ nonce) by lia. cbn [cbind].
  pose proof (block_counter0 nonce Hn Hnl) as Hblk. unfold aes_ccm_encr, AES_BLOCK_SIZE.
  destruct (ccm_encr_blocks_spec (Z.to_nat (zlen plain / 16)) e _ 1 plain crypt Hblk) as (a' & E & Ha'); [lia|dlia|dlia|].
  rewrite E. cbn [cbind]. destruct (Z.eqb_spec (zlen plain mod 16) 0); [done|].
  assert (Hset : block (set_counter a' (zlen plain / 16 + 1))).
  { destruct Ha' as [->|[j ->]]; [|rewrite set_counter_set by apply Hblk]; by apply block_set_counter. }
  destruct (encrypt_block e _ Hset) as [_ HE].
  unfold write_block. rewrite HE, length_put.
  - destruct (Z.leb_spec (16 * (zlen plain / 16) + Z.of_nat 16) (zlen crypt)); [dlia|].
    by rewrite andb_false_r.
  - lia.
  - rewrite length_xor_with, length_slice, length_ccm_stream by (done || dlia). dlia.
Qed.

End laws.

(** *** Witnesses, with hostapd's AES *)

Lemma aes_128_eax_decrypt_encrypt_witness :
  exists data' tag,
    aes_128_eax_encrypt true demo_key (demo_data 7) (demo_data 9) (demo_data 20) [] = Ok (0, data', tag) /\
    length data' = 20%nat /\ length tag = 16%nat /\
    aes_128_eax_decrypt true demo_key (demo_data 7) (demo_data 9) data' tag = Ok (0, demo_data 20).
Proof.
  apply (aes_128_eax_decrypt_encrypt demo_key (demo_data 7) (demo_data 9) (demo_data 20) [] demo_key_ok);
    by_deciding.
Defined.

Lemma aes_128_eax_decrypt_authentic_witness :
  exists e, aes_encrypt_init demo_key 16 = Ok (Some e) /\
    ((demo_data 16 = eax_expected e (demo_data 7) (demo_data 9) (demo_data 20) /\
      exists plain, aes_128_eax_decrypt true demo_key (demo_data 7) (demo_data 9) (demo_data 20) (demo_data 16)
                    = Ok (0, plain) /\
        aes_128_eax_encrypt true demo_key (demo_data 7) (demo_data 9) plain (demo_data 16)
        = Ok (0, demo_data 20, demo_data 16)) \/
     (demo_data 16 <> eax_expected e (demo_data 7) (demo_data 9) (demo_data 20) /\
      aes_128_eax_decrypt true demo_key (demo_data 7) (demo_data 9) (demo_data 20) (demo_data 16)
      = Ok (-2, demo_data 20))).
Proof.
  apply (aes_128_eax_decrypt_authentic demo_key (demo_data 7) (demo_data 9) (demo_data 20) (demo_data 16)
           demo_key_ok); [by_deciding|by_deciding|by_deciding|done].
Defined.

Lemma aes_siv_decrypt_encrypt_witness :
  exists out, aes_siv_encrypt true (demo_data 32) 32 (demo_data 20) [demo_data 3; []] = Ok (0, out) /\
    zlen out = 36 /\ aes_siv_decrypt true (demo_data 32) 32 out [demo_data 3; []] = Ok (0, demo_data 20).
Proof.
  apply (aes_siv_decrypt_encrypt (demo_data 32) 32 (demo_data 20) [demo_data 3; []]);
    [by_deciding|done|done|by_deciding|by_deciding|by_deciding].
Defined.

Lemma aes_ccm_ad_ae_witness :
  exists crypt1 tag,
    aes_ccm_ae demo_key 16 (demo_data 13) 8 (demo_data 20) (demo_data 22) (replicate 32 0) []
      = Ok (0, crypt1, tag) /\ zlen tag = 8 /\
    exists plain1, aes_ccm_ad demo_key 16 (demo_data 13) 8 (take 20 crypt1) (demo_data 22) tag (replicate 32 0)
                     = Ok (0, plain1) /\ take 20 plain1 = demo_data 20.
Proof.
  apply (aes_ccm_ad_ae demo_key 16 (demo_data 13) 8 (demo_data 20) (demo_data 22) (replicate 32 0) []
           (replicate 32 0) demo_key_ok); [by_deciding|done|by_deciding..].
Defined.

Lemma aes_ccm_ae_overruns_witness :
  aes_ccm_ae demo_key 16 (demo_data 13) 8 (demo_data 20) [] (replicate 20 0) [] = Fault.
Proof.
  apply (aes_ccm_ae_overruns demo_key 16 (demo_data 13) 8 (demo_data 20) [] (replicate 20 0) [] demo_key_ok);
    [by_deciding|done|by_deciding|by_deciding|discriminate|done].
Defined.

End AesAead.
