(* ===== verification/RsnIe.v ===== *)
(** * RSN and WPA information elements

    Writing (ap/wpa_auth_ie.c) and parsing (common/wpa_common.c) of the
    elements that announce cipher suites and key management, in the default
    configuration: TKIP and DPP, no 802.11r, SAE, FILS, OWE, HS 2.0 or PASN.

    A writer returns its result and the bytes it put at [buf]; what it leaves
    there when it fails is a prefix of those and is not represented.  A parser
    follows [pos] as the rest of the element and [left] as the number the code
    keeps, with every read checked. *)

From S2P Require Import Prelude WpaDefs.

Module RsnIe.
Import WpaDefs.

#[local] Open Scope list_scope.

(** ** Cipher suites (common/wpa_common.c) *)

Definition rsn_selector_to_bitfield (s : list Z) : cres Z :=
  (sel <-- RSN_SELECTOR_GET s ;;
   Ok (if sel =? RSN_CIPHER_SUITE_NONE then WPA_CIPHER_NONE
       else if sel =? RSN_CIPHER_SUITE_TKIP then WPA_CIPHER_TKIP
       else if sel =? RSN_CIPHER_SUITE_CCMP then WPA_CIPHER_CCMP
       else if sel =? RSN_CIPHER_SUITE_AES_128_CMAC then WPA_CIPHER_AES_128_CMAC
       else if sel =? RSN_CIPHER_SUITE_GCMP then WPA_CIPHER_GCMP
       else if sel =? RSN_CIPHER_SUITE_CCMP_256 then WPA_CIPHER_CCMP_256
       else if sel =? RSN_CIPHER_SUITE_GCMP_256 then WPA_CIPHER_GCMP_256
       else if sel =? RSN_CIPHER_SUITE_BIP_GMAC_128 then WPA_CIPHER_BIP_GMAC_128
       else if sel =? RSN_CIPHER_SUITE_BIP_GMAC_256 then WPA_CIPHER_BIP_GMAC_256
       else if sel =? RSN_CIPHER_SUITE_BIP_CMAC_256 then WPA_CIPHER_BIP_CMAC_256
       else if sel =? RSN_CIPHER_SUITE_NO_GROUP_ADDRESSED then WPA_CIPHER_GTK_NOT_USED
       else 0))%c.

Definition rsn_key_mgmt_to_bitfield (s : list Z) : cres Z :=
  (sel <-- RSN_SELECTOR_GET s ;;
   Ok (if sel =? RSN_AUTH_KEY_MGMT_UNSPEC_802_1X then WPA_KEY_MGMT_IEEE8021X
       else if sel =? RSN_AUTH_KEY_MGMT_PSK_OVER_802_1X then WPA_KEY_MGMT_PSK
       else if sel =? RSN_AUTH_KEY_MGMT_802_1X_SHA384 then WPA_KEY_MGMT_IEEE8021X_SHA384
       else if sel =? RSN_AUTH_KEY_MGMT_802_1X_SHA256 then WPA_KEY_MGMT_IEEE8021X_SHA256
       else if sel =? RSN_AUTH_KEY_MGMT_PSK_SHA256 then WPA_KEY_MGMT_PSK_SHA256
       else if sel =? RSN_AUTH_KEY_MGMT_802_1X_SUITE_B then WPA_KEY_MGMT_IEEE8021X_SUITE_B
       else if sel =? RSN_AUTH_KEY_MGMT_802_1X_SUITE_B_192 then WPA_KEY_MGMT_IEEE8021X_SUITE_B_192
       else if sel =? RSN_AUTH_KEY_MGMT_FILS_SHA256 then WPA_KEY_MGMT_FILS_SHA256
       else if sel =? RSN_AUTH_KEY_MGMT_FILS_SHA384 then WPA_KEY_MGMT_FILS_SHA384
       else if sel =? RSN_AUTH_KEY_MGMT_FT_FILS_SHA256 then WPA_KEY_MGMT_FT_FILS_SHA256
       else if sel =? RSN_AUTH_KEY_MGMT_FT_FILS_SHA384 then WPA_KEY_MGMT_FT_FILS_SHA384
       else if sel =? RSN_AUTH_KEY_MGMT_DPP then WPA_KEY_MGMT_DPP
       else if sel =? RSN_AUTH_KEY_MGMT_OSEN then WPA_KEY_MGMT_OSEN
       else 0))%c.

Definition wpa_selector_to_bitfield (s : list Z) : cres Z :=
  (sel <-- RSN_SELECTOR_GET s ;;
   Ok (if sel =? WPA_CIPHER_SUITE_NONE then WPA_CIPHER_NONE
       else if sel =? WPA_CIPHER_SUITE_TKIP then WPA_CIPHER_TKIP
       else if sel =? WPA_CIPHER_SUITE_CCMP then WPA_CIPHER_CCMP
       else 0))%c.

Definition wpa_key_mgmt_to_bitfield (s : list Z) : cres Z :=
  (sel <-- RSN_SELECTOR_GET s ;;
   Ok (if sel =? WPA_AUTH_KEY_MGMT_UNSPEC_802_1X then WPA_KEY_MGMT_IEEE8021X
       else if sel =? WPA_AUTH_KEY_MGMT_PSK_OVER_802_1X then WPA_KEY_MGMT_PSK
       else if sel =? WPA_AUTH_KEY_MGMT_NONE then WPA_KEY_MGMT_WPA_NONE
       else 0))%c.

Definition wpa_cipher_valid_pairwise (cipher : Z) : bool :=
  (cipher =? WPA_CIPHER_CCMP_256) || (cipher =? WPA_CIPHER_GCMP_256) || (cipher =? WPA_CIPHER_CCMP) ||
  (cipher =? WPA_CIPHER_GCMP) || (cipher =? WPA_CIPHER_TKIP).
Definition wpa_cipher_valid_group (cipher : Z) : bool :=
  wpa_cipher_valid_pairwise cipher || (cipher =? WPA_CIPHER_GTK_NOT_USED).
Definition wpa_cipher_valid_mgmt_group (cipher : Z) : bool :=
  (cipher =? WPA_CIPHER_GTK_NOT_USED) || (cipher =? WPA_CIPHER_AES_128_CMAC) ||
  (cipher =? WPA_CIPHER_BIP_GMAC_128) || (cipher =? WPA_CIPHER_BIP_GMAC_256) ||
  (cipher =? WPA_CIPHER_BIP_CMAC_256).

Definition wpa_cipher_to_suite (proto cipher : Z) : Z :=
  if flag_set cipher WPA_CIPHER_CCMP_256 then RSN_CIPHER_SUITE_CCMP_256
  else if flag_set cipher WPA_CIPHER_GCMP_256 then RSN_CIPHER_SUITE_GCMP_256
  else if flag_set cipher WPA_CIPHER_CCMP then
    if proto =? WPA_PROTO_RSN then RSN_CIPHER_SUITE_CCMP else WPA_CIPHER_SUITE_CCMP
  else if flag_set cipher WPA_CIPHER_GCMP then RSN_CIPHER_SUITE_GCMP
  else if flag_set cipher WPA_CIPHER_TKIP then
    if proto =? WPA_PROTO_RSN then RSN_CIPHER_SUITE_TKIP else WPA_CIPHER_SUITE_TKIP
  else if flag_set cipher WPA_CIPHER_NONE then
    if proto =? WPA_PROTO_RSN then RSN_CIPHER_SUITE_NONE else WPA_CIPHER_SUITE_NONE
  else if flag_set cipher WPA_CIPHER_GTK_NOT_USED then RSN_CIPHER_SUITE_NO_GROUP_ADDRESSED
  else if flag_set cipher WPA_CIPHER_AES_128_CMAC then RSN_CIPHER_SUITE_AES_128_CMAC
  else if flag_set cipher WPA_CIPHER_BIP_GMAC_128 then RSN_CIPHER_SUITE_BIP_GMAC_128
  else if flag_set cipher WPA_CIPHER_BIP_GMAC_256 then RSN_CIPHER_SUITE_BIP_GMAC_256
  else if flag_set cipher WPA_CIPHER_BIP_CMAC_256 then RSN_CIPHER_SUITE_BIP_CMAC_256
  else 0.

(** [if (v & bit) { RSN_SELECTOR_PUT(pos, suite); pos += 4; num_suites++; }]:
    the selectors of the suites [v] has, in the order of the statements. *)
Definition put_suites (tbl : list (Z * Z)) (v : Z) : list Z :=
  flat_map (fun p => if flag_set v (fst p) then RSN_SELECTOR_PUT (snd p) else []) tbl.
Definition num_suites (tbl : list (Z * Z)) (v : Z) : Z :=
  zlen (filter (fun p => flag_set v (fst p) = true) tbl).

Definition rsn_ciphers : list (Z * Z) :=
  [(WPA_CIPHER_CCMP_256, RSN_CIPHER_SUITE_CCMP_256); (WPA_CIPHER_GCMP_256, RSN_CIPHER_SUITE_GCMP_256);
   (WPA_CIPHER_CCMP, RSN_CIPHER_SUITE_CCMP); (WPA_CIPHER_GCMP, RSN_CIPHER_SUITE_GCMP);
   (WPA_CIPHER_TKIP, RSN_CIPHER_SUITE_TKIP); (WPA_CIPHER_NONE, RSN_CIPHER_SUITE_NONE)].
Definition wpa_ciphers : list (Z * Z) :=
  [(WPA_CIPHER_CCMP, WPA_CIPHER_SUITE_CCMP); (WPA_CIPHER_TKIP, WPA_CIPHER_SUITE_TKIP);
   (WPA_CIPHER_NONE, WPA_CIPHER_SUITE_NONE)].

(** The selectors and their number. *)
Definition rsn_cipher_put_suites (ciphers : Z) : list Z * Z :=
  let pos := put_suites rsn_ciphers ciphers in (pos, zlen pos / RSN_SELECTOR_LEN).
Definition wpa_cipher_put_suites (ciphers : Z) : list Z * Z :=
  let pos := put_suites wpa_ciphers ciphers in (pos, zlen pos / RSN_SELECTOR_LEN).

(** The key management suites of [wpa_write_rsn_ie], and of [wpa_write_wpa_ie]. *)
Definition rsn_akms : list (Z * Z) :=
  [(WPA_KEY_MGMT_IEEE8021X, RSN_AUTH_KEY_MGMT_UNSPEC_802_1X);
   (WPA_KEY_MGMT_PSK, RSN_AUTH_KEY_MGMT_PSK_OVER_802_1X);
   (WPA_KEY_MGMT_IEEE8021X_SHA384, RSN_AUTH_KEY_MGMT_802_1X_SHA384);
   (WPA_KEY_MGMT_IEEE8021X_SHA256, RSN_AUTH_KEY_MGMT_802_1X_SHA256);
   (WPA_KEY_MGMT_PSK_SHA256, RSN_AUTH_KEY_MGMT_PSK_SHA256);
   (WPA_KEY_MGMT_IEEE8021X_SUITE_B, RSN_AUTH_KEY_MGMT_802_1X_SUITE_B);
   (WPA_KEY_MGMT_IEEE8021X_SUITE_B_192, RSN_AUTH_KEY_MGMT_802_1X_SUITE_B_192);
   (WPA_KEY_MGMT_DPP, RSN_AUTH_KEY_MGMT_DPP)].
Definition wpa_akms : list (Z * Z) :=
  [(WPA_KEY_MGMT_IEEE8021X, WPA_AUTH_KEY_MGMT_UNSPEC_802_1X);
   (WPA_KEY_MGMT_PSK, WPA_AUTH_KEY_MGMT_PSK_OVER_802_1X)].

(** ** Writing (ap/wpa_auth_ie.c) *)

(** The members of [struct wpa_auth_config] that are read here. *)
Record wpa_auth_config := mkConf {
  wpa : Z; wpa_key_mgmt : Z; wpa_pairwise : Z; wpa_group : Z; rsn_pairwise : Z; group_mgmt_cipher : Z;
  ieee80211w : Z; rsn_preauth : bool; wmm_enabled : bool; extended_key_id : bool; sae_pwe : Z;
  sae_pk : bool; secure_ltf : bool; secure_rtt : bool; prot_range_neg : bool; ssid_protection : bool
}.

Definition NO_MGMT_FRAME_PROTECTION : Z := 0.
Definition MGMT_FRAME_PROTECTION_REQUIRED : Z := 2.

Definition wpa_write_wpa_ie (conf : wpa_auth_config) : Z * list Z :=
  let suite := wpa_cipher_to_suite WPA_PROTO_WPA conf.(wpa_group) in
  if suite =? 0 then (-1, [])
  else
    let '(ciphers, num) := wpa_cipher_put_suites conf.(wpa_pairwise) in
    if num =? 0 then (-1, [])
    else
      let akms := put_suites wpa_akms conf.(wpa_key_mgmt) in
      let num_akms := num_suites wpa_akms conf.(wpa_key_mgmt) in
      if num_akms =? 0 then (-1, [])
      else
        let body := RSN_SELECTOR_PUT WPA_OUI_TYPE ++ WPA_PUT_LE16 WPA_VERSION ++ RSN_SELECTOR_PUT suite ++
                    WPA_PUT_LE16 num ++ ciphers ++ WPA_PUT_LE16 num_akms ++ akms in
        (2 + zlen body, WLAN_EID_VENDOR_SPECIFIC :: u8 (zlen body) :: body).

Definition wpa_own_rsn_capab (conf : wpa_auth_config) : Z :=
  let capab := 0 in
  let capab := if conf.(rsn_preauth) then Z.lor capab WPA_CAPABILITY_PREAUTH else capab in
  let capab := if conf.(wmm_enabled) then Z.lor capab (Z.shiftl RSN_NUM_REPLAY_COUNTERS_16 2) else capab in
  let capab :=
    if negb (conf.(ieee80211w) =? NO_MGMT_FRAME_PROTECTION) then
      let capab := Z.lor capab WPA_CAPABILITY_MFPC in
      if conf.(ieee80211w) =? MGMT_FRAME_PROTECTION_REQUIRED then Z.lor capab WPA_CAPABILITY_MFPR else capab
    else capab in
  if conf.(extended_key_id) then Z.lor capab WPA_CAPABILITY_EXT_KEY_ID_FOR_UNICAST else capab.

(** The suite of the management group cipher, if there is one to write. *)
Definition mgmt_suite (cipher : Z) : option Z :=
  if cipher =? WPA_CIPHER_AES_128_CMAC then Some RSN_CIPHER_SUITE_AES_128_CMAC
  else if cipher =? WPA_CIPHER_BIP_GMAC_128 then Some RSN_CIPHER_SUITE_BIP_GMAC_128
  else if cipher =? WPA_CIPHER_BIP_GMAC_256 then Some RSN_CIPHER_SUITE_BIP_GMAC_256
  else if cipher =? WPA_CIPHER_BIP_CMAC_256 then Some RSN_CIPHER_SUITE_BIP_CMAC_256
  else None.

(** After the capabilities: PMKID and management group cipher, with what is
    left of the buffer after [pos] bytes checked. *)
Definition rsn_pmkid_part (len pos : Z) (pmkid : option (list Z)) : option (list Z) :=
  match pmkid with
  | Some id => if len - pos <? 2 + PMKID_LEN then None else Some (WPA_PUT_LE16 1 ++ id)
  | None => Some []
  end.
Definition rsn_mgmt_part (conf : wpa_auth_config) (len pos : Z) (pmkid : option (list Z)) : option (list Z) :=
  if negb (conf.(ieee80211w) =? NO_MGMT_FRAME_PROTECTION) &&
     negb (conf.(group_mgmt_cipher) =? WPA_CIPHER_AES_128_CMAC)
  then
    if len - pos <? 2 + 4 then None
    else
      match mgmt_suite conf.(group_mgmt_cipher) with
      | None => None
      | Some suite => Some ((match pmkid with Some _ => [] | None => WPA_PUT_LE16 0 end) ++ RSN_SELECTOR_PUT suite)
      end
  else Some [].

(** [pmkid] points to [PMKID_LEN] bytes. *)
Definition wpa_write_rsn_ie (conf : wpa_auth_config) (len : Z) (pmkid : option (list Z)) : Z * list Z :=
  let suite := wpa_cipher_to_suite WPA_PROTO_RSN conf.(wpa_group) in
  if suite =? 0 then (-1, [])
  else
    let '(ciphers, num) := rsn_cipher_put_suites conf.(rsn_pairwise) in
    if num =? 0 then (-1, [])
    else
      let akms := put_suites rsn_akms conf.(wpa_key_mgmt) in
      let num_akms := num_suites rsn_akms conf.(wpa_key_mgmt) in
      if num_akms =? 0 then (-1, [])
      else
        let body := WPA_PUT_LE16 RSN_VERSION ++ RSN_SELECTOR_PUT suite ++ WPA_PUT_LE16 num ++ ciphers ++
                    WPA_PUT_LE16 num_akms ++ akms ++ WPA_PUT_LE16 (wpa_own_rsn_capab conf) in
        match rsn_pmkid_part len (2 + zlen body) pmkid with
        | None => (-1, [])
        | Some part =>
            let body := body ++ part in
            match rsn_mgmt_part conf len (2 + zlen body) pmkid with
            | None => (-1, [])
            | Some part =>
                let body := body ++ part in
                (2 + zlen body, WLAN_EID_RSN :: u8 (zlen body) :: body)
            end
        end.

Definition WLAN_RSNX_CAPAB_SAE_H2E : Z := 5.
Definition WLAN_RSNX_CAPAB_SECURE_LTF : Z := 8.
Definition WLAN_RSNX_CAPAB_SECURE_RTT : Z := 9.
Definition WLAN_RSNX_CAPAB_URNM_MFPR : Z := 15.
Definition WLAN_RSNX_CAPAB_SSID_PROTECTION : Z := 21.

Definition SAE_PWE_HASH_TO_ELEMENT : Z := 1.
Definition SAE_PWE_BOTH : Z := 2.

(** [while (v) { ... v >>= 8; }]: the bytes of a [u32] from the lowest; four
    passes shift everything out. *)
Fixpoint low_bytes (fuel : nat) (v : Z) : list Z :=
  match fuel with
  | O => []
  | S fuel => if v =? 0 then [] else Z.land v 0xff :: low_bytes fuel (Z.shiftr v 8)
  end.

Definition rsnx_capab (conf : wpa_auth_config) : Z :=
  let capab :=
    if wpa_key_mgmt_sae conf.(wpa_key_mgmt) &&
       ((conf.(sae_pwe) =? SAE_PWE_HASH_TO_ELEMENT) || (conf.(sae_pwe) =? SAE_PWE_BOTH) || conf.(sae_pk) ||
        wpa_key_mgmt_sae_ext_key conf.(wpa_key_mgmt))
    then BIT WLAN_RSNX_CAPAB_SAE_H2E else 0 in
  let capab := if conf.(secure_ltf) then Z.lor capab (BIT WLAN_RSNX_CAPAB_SECURE_LTF) else capab in
  let capab := if conf.(secure_rtt) then Z.lor capab (BIT WLAN_RSNX_CAPAB_SECURE_RTT) else capab in
  let capab := if conf.(prot_range_neg) then Z.lor capab (BIT WLAN_RSNX_CAPAB_URNM_MFPR) else capab in
  if conf.(ssid_protection) then Z.lor capab (BIT WLAN_RSNX_CAPAB_SSID_PROTECTION) else capab.

Definition wpa_write_rsnxe (conf : wpa_auth_config) (len : Z) : Z * list Z :=
  let capab := rsnx_capab conf in
  if capab =? 0 then (0, [])
  else
    let flen := zlen (low_bytes 4 capab) in
    if len <? 2 + flen then (-1, [])
    else
      let body := low_bytes 4 (Z.lor capab (flen - 1)) in
      (2 + zlen body, WLAN_EID_RSNX :: u8 flen :: body).

(** [conf] must have the OSEN protocol only, as for the one caller. *)
Definition wpa_write_osen (conf : wpa_auth_config) : list Z :=
  let capab := if conf.(wmm_enabled) then Z.shiftl RSN_NUM_REPLAY_COUNTERS_16 2 else 0 in
  let capab :=
    if negb (conf.(ieee80211w) =? NO_MGMT_FRAME_PROTECTION) then
      let capab := Z.lor capab WPA_CAPABILITY_MFPC in
      if conf.(ieee80211w) =? MGMT_FRAME_PROTECTION_REQUIRED then Z.lor capab WPA_CAPABILITY_MFPR else capab
    else capab in
  let body := WPA_PUT_BE24 OUI_WFA ++ [HS20_OSEN_OUI_TYPE] ++
              RSN_SELECTOR_PUT RSN_CIPHER_SUITE_NO_GROUP_ADDRESSED ++ WPA_PUT_LE16 1 ++
              RSN_SELECTOR_PUT RSN_CIPHER_SUITE_CCMP ++ WPA_PUT_LE16 1 ++
              RSN_SELECTOR_PUT RSN_AUTH_KEY_MGMT_OSEN ++ WPA_PUT_LE16 capab in
  WLAN_EID_VENDOR_SPECIFIC :: u8 (zlen body) :: body.

(** The size of [buf] in [wpa_auth_gen_wpa_ie]. *)
Definition ie_buf_size : Z := 128.

(** Writes [res], at [pos] in [buf], or gives up: [if (res < 0) return res]. *)
Definition append_ie (pos : list Z) (res : Z * list Z) : Z + list Z :=
  if fst res <? 0 then inl (fst res) else inr (pos ++ snd res).

(** The result and [wpa_auth->wpa_ie] after the call, which is kept when a
    writer fails and is gone when the allocation does. *)
Definition wpa_auth_gen_wpa_ie (conf : wpa_auth_config) (malloc_ok : bool) (wpa_ie : option (list Z)) :
    Z * option (list Z) :=
  let pos := if conf.(wpa) =? WPA_PROTO_OSEN then wpa_write_osen conf else [] in
  let rsn :=
    if flag_set conf.(wpa) WPA_PROTO_RSN then
      match append_ie pos (wpa_write_rsn_ie conf (ie_buf_size - zlen pos) None) with
      | inl r => inl r
      | inr pos => append_ie pos (wpa_write_rsnxe conf (ie_buf_size - zlen pos))
      end
    else inr pos in
  match rsn with
  | inl r => (r, wpa_ie)
  | inr pos =>
      match (if flag_set conf.(wpa) WPA_PROTO_WPA then append_ie pos (wpa_write_wpa_ie conf) else inr pos) with
      | inl r => (r, wpa_ie)
      | inr pos => if malloc_ok then (0, Some pos) else (-1, None)
      end
  end.

(** The key data encapsulation; [data2] can be missing. *)
Definition wpa_add_kde (kde : Z) (data : list Z) (data2 : option (list Z)) : list Z :=
  let data2 := default [] data2 in
  WLAN_EID_VENDOR_SPECIFIC :: u8 (RSN_SELECTOR_LEN + zlen data + zlen data2) ::
  RSN_SELECTOR_PUT kde ++ data ++ data2.

(** ** Parsing (common/wpa_common.c) *)

(** [struct wpa_ie_data]; [pmkid] as the rest of the element from there. *)
Record wpa_ie_data := mkData {
  proto : Z; pairwise_cipher : Z; has_pairwise : Z; group_cipher : Z; has_group : Z; key_mgmt : Z;
  capabilities : Z; num_pmkid : Z; pmkid : option (list Z); mgmt_group_cipher : Z
}.
#[export] Instance data_eta : Settable wpa_ie_data := fun d =>
  mkData d.(proto) d.(pairwise_cipher) d.(has_pairwise) d.(group_cipher) d.(has_group) d.(key_mgmt)
    d.(capabilities) d.(num_pmkid) d.(pmkid) d.(mgmt_group_cipher).

(** The parsers return early: each part goes on with [k], given the rest of
    the element, the count of what is left, and the data so far. *)
Definition part : Type := list Z -> Z -> wpa_ie_data -> cres (Z * wpa_ie_data).

(** [for (i = 0; i < count; i++) { v |= f(pos); pos += 4; }] *)
Fixpoint suites_loop (f : list Z -> cres Z) (count : nat) (pos : list Z) (v : Z) : cres (Z * list Z) :=
  match count with
  | O => Ok (v, pos)
  | S count => (b <-- f pos ;; suites_loop f count (drop 4 pos) (Z.lor v b))%c
  end.

(** A count and as many suites; [k] gets their bits. *)
Definition suites_part (f : list Z -> cres Z) (botch : Z) (d : wpa_ie_data)
    (k : Z -> list Z -> Z -> cres (Z * wpa_ie_data)) (pos : list Z) (left : Z) : cres (Z * wpa_ie_data) :=
  (count <-- WPA_GET_LE16 pos ;;
   let pos := drop 2 pos in
   let left := left - 2 in
   if (count =? 0) || (left / RSN_SELECTOR_LEN <? count) then Ok (botch, d)
   else
     r <-- suites_loop f (Z.to_nat count) pos 0 ;;
     k (fst r) (snd r) (left - count * RSN_SELECTOR_LEN))%c.

Definition group_part (k : part) : part := fun pos left d =>
  if RSN_SELECTOR_LEN <=? left then
    (v <-- rsn_selector_to_bitfield pos ;;
     let d := d <| group_cipher := v |> <| has_group := 1 |> in
     if negb (wpa_cipher_valid_group v) then Ok (-1, d)
     else k (drop 4 pos) (left - RSN_SELECTOR_LEN) d)%c
  else if 0 <? left then Ok (-3, d)
  else k pos left d.

Definition pairwise_part (k : part) : part := fun pos left d =>
  if 2 <=? left then
    suites_part rsn_selector_to_bitfield (-4) (d <| pairwise_cipher := 0 |>)
      (fun v pos left =>
         let d := d <| pairwise_cipher := v |> <| has_pairwise := 1 |> in
         if flag_set v WPA_CIPHER_AES_128_CMAC then Ok (-1, d) else k pos left d) pos left
  else if left =? 1 then Ok (-5, d)
  else k pos left d.

Definition akm_part (k : part) : part := fun pos left d =>
  if 2 <=? left then
    suites_part rsn_key_mgmt_to_bitfield (-6) (d <| key_mgmt := 0 |>)
      (fun v pos left => k pos left (d <| key_mgmt := v |>)) pos left
  else if left =? 1 then Ok (-7, d)
  else k pos left d.

Definition capab_part (k : part) : part := fun pos left d =>
  if 2 <=? left then
    (v <-- WPA_GET_LE16 pos ;; k (drop 2 pos) (left - 2) (d <| capabilities := v |>))%c
  else k pos left d.

Definition pmkid_part (k : part) : part := fun pos left d =>
  if 2 <=? left then
    (n <-- WPA_GET_LE16 pos ;;
     let pos := drop 2 pos in
     let left := left - 2 in
     if left / PMKID_LEN <? n then Ok (-9, d <| num_pmkid := 0 |>)
     else k (drop (Z.to_nat (n * PMKID_LEN)) pos) (left - n * PMKID_LEN)
            (d <| num_pmkid := n |> <| pmkid := Some pos |>))%c
  else k pos left d.

Definition mgmt_part : part := fun pos left d =>
  if 4 <=? left then
    (v <-- rsn_selector_to_bitfield pos ;;
     let d := d <| mgmt_group_cipher := v |> in
     if negb (wpa_cipher_valid_mgmt_group v) then Ok (-10, d) else Ok (0, d))%c
  else Ok (0, d).

Definition rsn_parts : part := group_part (pairwise_part (akm_part (capab_part (pmkid_part mgmt_part)))).

Definition rsn_defaults : wpa_ie_data :=
  mkData WPA_PROTO_RSN WPA_CIPHER_CCMP 0 WPA_CIPHER_CCMP 0 WPA_KEY_MGMT_IEEE8021X 0 0 None
    WPA_CIPHER_AES_128_CMAC.

(** The element is [rsn_ie], of [rsn_ie_len = zlen rsn_ie] bytes. *)
Definition wpa_parse_wpa_ie_rsn (rsn_ie : list Z) : cres (Z * wpa_ie_data) :=
  let rsn_ie_len := zlen rsn_ie in
  let data := rsn_defaults in
  if rsn_ie_len =? 0 then Ok (-1, data)
  else if rsn_ie_len <? 4 then Ok (-1, data)
  else
    (len <-- rd rsn_ie 1 ;;
     osen <-- (if (6 <=? rsn_ie_len) && (4 <=? len) && (len =? rsn_ie_len - 2) then
                 v <-- WPA_GET_BE32 (drop 2 rsn_ie) ;; Ok (v =? OSEN_IE_VENDOR_TYPE)
               else Ok false) ;;
     if osen : bool then
       rsn_parts (drop 6 rsn_ie) (rsn_ie_len - 6)
         (data <| group_cipher := WPA_CIPHER_GTK_NOT_USED |> <| has_group := 1 |>
               <| key_mgmt := WPA_KEY_MGMT_OSEN |> <| proto := WPA_PROTO_OSEN |>)
     else
       elem_id <-- rd rsn_ie 0 ;;
       version <-- WPA_GET_LE16 (drop 2 rsn_ie) ;;
       if negb (elem_id =? WLAN_EID_RSN) || negb (len =? rsn_ie_len - 2) || negb (version =? RSN_VERSION)
       then Ok (-2, data)
       else rsn_parts (drop 4 rsn_ie) (rsn_ie_len - 4) data)%c.

Definition wpa_group_part (k : part) : part := fun pos left d =>
  if WPA_SELECTOR_LEN <=? left then
    (v <-- wpa_selector_to_bitfield pos ;;
     k (drop 4 pos) (left - WPA_SELECTOR_LEN) (d <| group_cipher := v |>))%c
  else if 0 <? left then Ok (-3, d)
  else k pos left d.

Definition wpa_pairwise_part (k : part) : part := fun pos left d =>
  if 2 <=? left then
    suites_part wpa_selector_to_bitfield (-4) (d <| pairwise_cipher := 0 |>)
      (fun v pos left => k pos left (d <| pairwise_cipher := v |>)) pos left
  else if left =? 1 then Ok (-5, d)
  else k pos left d.

Definition wpa_akm_part (k : part) : part := fun pos left d =>
  if 2 <=? left then
    suites_part wpa_key_mgmt_to_bitfield (-6) (d <| key_mgmt := 0 |>)
      (fun v pos left => k pos left (d <| key_mgmt := v |>)) pos left
  else if left =? 1 then Ok (-7, d)
  else k pos left d.

Definition wpa_parts : part :=
  wpa_group_part (wpa_pairwise_part (wpa_akm_part (capab_part (fun _ _ d => Ok (0, d))))).

Definition wpa_defaults : wpa_ie_data :=
  mkData WPA_PROTO_WPA WPA_CIPHER_TKIP 0 WPA_CIPHER_TKIP 0 WPA_KEY_MGMT_IEEE8021X 0 0 None 0.

Definition wpa_parse_wpa_ie_wpa (wpa_ie : list Z) : cres (Z * wpa_ie_data) :=
  let wpa_ie_len := zlen wpa_ie in
  let data := wpa_defaults in
  if wpa_ie_len <? 8 then Ok (-1, data)
  else
    (elem_id <-- rd wpa_ie 0 ;;
     len <-- rd wpa_ie 1 ;;
     oui <-- RSN_SELECTOR_GET (drop 2 wpa_ie) ;;
     version <-- WPA_GET_LE16 (drop 6 wpa_ie) ;;
     if negb (elem_id =? WLAN_EID_VENDOR_SPECIFIC) || negb (len =? wpa_ie_len - 2) ||
        negb (oui =? WPA_OUI_TYPE) || negb (version =? WPA_VERSION)
     then Ok (-2, data)
     else wpa_parts (drop 8 wpa_ie) (wpa_ie_len - 8) data)%c.

(** ** Parsing stays inside the element *)

(** Where [pmkid] points there are as many PMKIDs as [num_pmkid] says. *)
Definition pmkids_ok (d : wpa_ie_data) : Prop :=
  match d.(pmkid) with None => d.(num_pmkid) = 0 | Some p => 0 <= d.(num_pmkid) * PMKID_LEN <= zlen p end.

Definition result_ok (r : cres (Z * wpa_ie_data)) : Prop :=
  match r with Ok (_, d) => pmkids_ok d | Fault => False end.

(** A part that is given no more than there is. *)
Definition part_ok (k : part) : Prop :=
  forall pos left d, bytes pos -> 0 <= left <= zlen pos -> pmkids_ok d -> result_ok (k pos left d).

Lemma get_le16_ok pos :
  bytes pos -> 2 <= zlen pos -> exists v, WPA_GET_LE16 pos = Ok v /\ 0 <= v < 2 ^ 16.
Proof.
  intros Hb Hl. unfold WPA_GET_LE16. rewrite !rd_ok by lia. cbn [cbind]. eexists. split; [done|].
  pose proof (at_byte pos 0 Hb). pose proof (at_byte pos 1 Hb). rewrite lor_shiftl by lia. lia.
Qed.

Lemma get_be32_ok pos : 4 <= zlen pos -> exists v, WPA_GET_BE32 pos = Ok v.
Proof. intros Hl. unfold WPA_GET_BE32. rewrite !rd_ok by lia. by eexists. Qed.

(** The functions that read a selector. *)
Definition reads_selector (f : list Z -> cres Z) : Prop := forall pos, 4 <= zlen pos -> exists v, f pos = Ok v.

Lemma reads_rsn_cipher : reads_selector rsn_selector_to_bitfield.
Proof. intros pos H. unfold rsn_selector_to_bitfield, RSN_SELECTOR_GET. destruct (get_be32_ok pos H) as [v ->]. by eexists. Qed.
Lemma reads_rsn_akm : reads_selector rsn_key_mgmt_to_bitfield.
Proof. intros pos H. unfold rsn_key_mgmt_to_bitfield, RSN_SELECTOR_GET. destruct (get_be32_ok pos H) as [v ->]. by eexists. Qed.
Lemma reads_wpa_cipher : reads_selector wpa_selector_to_bitfield.
Proof. intros pos H. unfold wpa_selector_to_bitfield, RSN_SELECTOR_GET. destruct (get_be32_ok pos H) as [v ->]. by eexists. Qed.
Lemma reads_wpa_akm : reads_selector wpa_key_mgmt_to_bitfield.
Proof. intros pos H. unfold wpa_key_mgmt_to_bitfield, RSN_SELECTOR_GET. destruct (get_be32_ok pos H) as [v ->]. by eexists. Qed.

Lemma suites_loop_ok f count pos v :
  reads_selector f -> 4 * Z.of_nat count <= zlen pos ->
  exists w, suites_loop f count pos v = Ok (w, drop (4 * count) pos).
Proof.
  intros Hf. revert pos v. induction count as [|count IH]; intros pos v Hl; cbn [suites_loop].
  - eexists. by rewrite Nat.mul_0_r, drop_0.
  - destruct (Hf pos) as [b ->]; [lia|]. cbn [cbind].
    destruct (IH (drop 4 pos) (Z.lor v b)) as [w ->]; [rewrite length_drop; lia|].
    eexists. rewrite drop_drop. do 3 f_equal. lia.
Qed.

Lemma suites_part_ok f botch d k pos left :
  reads_selector f -> bytes pos -> 2 <= left <= zlen pos -> pmkids_ok d ->
  (forall v pos left, bytes pos -> 0 <= left <= zlen pos -> result_ok (k v pos left)) ->
  result_ok (suites_part f botch d k pos left).
Proof.
  intros Hf Hb Hl Hd Hk. unfold suites_part.
  destruct (get_le16_ok pos Hb) as (n & -> & Hn); [lia|]. cbn [cbind]. unfold RSN_SELECTOR_LEN.
  destruct ((n =? 0) || ((left - 2) / 4 <? n)) eqn:E; [done|].
  apply orb_false_iff in E as [_ E]. apply Z.ltb_ge in E.
  destruct (suites_loop_ok f (Z.to_nat n) (drop 2 pos) 0 Hf) as [w ->]; [rewrite length_drop; dlia|].
  cbn [cbind fst snd]. apply Hk; [auto with cint|]. rewrite !length_drop. dlia.
Qed.

Ltac part_tac k :=
  intros Hk pos left d Hb Hl Hd; unfold k;
  repeat match goal with
  | |- result_ok (if ?a <=? ?b then _ else _) => destruct (Z.leb_spec a b)
  | |- result_ok (if _ then Ok _ else _) => case_match; [exact Hd|]
  end.

Lemma group_part_ok k : part_ok k -> part_ok (group_part k).
Proof.
  part_tac group_part; unfold RSN_SELECTOR_LEN in *.
  - destruct (reads_rsn_cipher pos) as [v ->]; [lia|]. cbn [cbind]. case_match; [exact Hd|].
    apply Hk; [auto with cint|rewrite length_drop; lia|exact Hd].
  - by apply Hk.
Qed.

Lemma wpa_group_part_ok k : part_ok k -> part_ok (wpa_group_part k).
Proof.
  part_tac wpa_group_part; unfold WPA_SELECTOR_LEN in *.
  - destruct (reads_wpa_cipher pos) as [v ->]; [lia|]. cbn [cbind].
    apply Hk; [auto with cint|rewrite length_drop; lia|exact Hd].
  - by apply Hk.
Qed.

Lemma pairwise_part_ok k : part_ok k -> part_ok (pairwise_part k).
Proof.
  part_tac pairwise_part; [|by apply Hk].
  apply suites_part_ok; auto using reads_rsn_cipher; [lia|]. intros. case_match; [exact Hd|by apply Hk].
Qed.

Lemma wpa_pairwise_part_ok k : part_ok k -> part_ok (wpa_pairwise_part k).
Proof.
  part_tac wpa_pairwise_part; [|by apply Hk].
  apply suites_part_ok; auto using reads_wpa_cipher. lia.
Qed.

Lemma akm_part_ok k : part_ok k -> part_ok (akm_part k).
Proof.
  part_tac akm_part; [|by apply Hk].
  apply suites_part_ok; auto using reads_rsn_akm. lia.
Qed.

Lemma wpa_akm_part_ok k : part_ok k -> part_ok (wpa_akm_part k).
Proof.
  part_tac wpa_akm_part; [|by apply Hk].
  apply suites_part_ok; auto using reads_wpa_akm. lia.
Qed.

Lemma capab_part_ok k : part_ok k -> part_ok (capab_part k).
Proof.
  part_tac capab_part; [|by apply Hk].
  destruct (get_le16_ok pos Hb) as (n & -> & Hn); [lia|]. cbn [cbind].
  apply Hk; [auto with cint|rewrite length_drop; lia|exact Hd].
Qed.

Lemma pmkid_part_ok k : part_ok k -> part_ok (pmkid_part k).
Proof.
  part_tac pmkid_part; [|by apply Hk].
  destruct (get_le16_ok pos Hb) as (n & -> & Hn); [lia|]. cbn [cbind]. unfold PMKID_LEN.
  destruct (Z.ltb_spec ((left - 2) / 16) n).
  - unfold result_ok, pmkids_ok in *. cbn [pmkid num_pmkid set_field]. destruct (pmkid d); [|done].
    change (num_pmkid _) with 0. lia.
  - apply Hk; [auto with cint|rewrite !length_drop; dlia|]. unfold pmkids_ok, PMKID_LEN. cbn.
    rewrite length_drop. dlia.
Qed.

Lemma mgmt_part_ok : part_ok mgmt_part.
Proof.
  intros pos left d Hb Hl Hd. unfold mgmt_part. destruct (Z.leb_spec 4 left); [|exact Hd].
  destruct (reads_rsn_cipher pos) as [v ->]; [lia|]. cbn [cbind]. case_match; exact Hd.
Qed.

Lemma rsn_parts_ok : part_ok rsn_parts.
Proof.
  apply group_part_ok, pairwise_part_ok, akm_part_ok, capab_part_ok, pmkid_part_ok, mgmt_part_ok.
Qed.

Lemma wpa_parts_ok : part_ok wpa_parts.
Proof.
  apply wpa_group_part_ok, wpa_pairwise_part_ok, wpa_akm_part_ok, capab_part_ok.
  intros pos left d _ _ Hd. exact Hd.
Qed.

(** C32: whatever its bytes, an element is parsed without a read outside it, by
    the RSN parser and by the WPA parser, and where [pmkid] points the whole
    list of [num_pmkid] PMKIDs lies inside the element. *)
Theorem wpa_parse_in_bounds ie :
  bytes ie -> result_ok (wpa_parse_wpa_ie_rsn ie) /\ result_ok (wpa_parse_wpa_ie_wpa ie).
Proof.
  intros Hb. split.
  - unfold wpa_parse_wpa_ie_rsn. case_match; [done|].
    destruct (Z.ltb_spec (zlen ie) 4); [done|]. rewrite !rd_ok by lia. cbn [cbind].
    set (osen := if _ && _ && _ then _ else _).
    assert (Ho : exists b, osen = Ok b /\ (b = true -> 6 <= zlen ie)).
    { unfold osen. destruct (Z.leb_spec 6 (zlen ie)); [|by exists false]. cbn [andb].
      case_match; [|by exists false].
      destruct (get_be32_ok (drop 2 ie)) as [v ->]; [rewrite length_drop; lia|]. by eexists. }
    destruct Ho as (b & -> & Hl). cbn [cbind]. destruct b.
    + apply rsn_parts_ok; [auto with cint|rewrite length_drop; lia|done].
    + destruct (get_le16_ok (drop 2 ie)) as (v & -> & _); [auto with cint|rewrite length_drop; lia|].
      cbn [cbind]. case_match; [done|]. apply rsn_parts_ok; [auto with cint|rewrite length_drop; lia|done].
  - unfold wpa_parse_wpa_ie_wpa. destruct (Z.ltb_spec (zlen ie) 8); [done|].
    rewrite !rd_ok by lia. cbn [cbind]. unfold RSN_SELECTOR_GET.
    destruct (get_be32_ok (drop 2 ie)) as [o ->]; [rewrite length_drop; lia|]. cbn [cbind].
    destruct (get_le16_ok (drop 6 ie)) as (v & -> & _); [auto with cint|rewrite length_drop; lia|].
    cbn [cbind]. case_match; [done|]. apply wpa_parts_ok; [auto with cint|rewrite length_drop; lia|done].
Qed.

(** ** What is written is what is parsed *)

(** The suites of a table that [v] has. *)
Definition chosen (tbl : list (Z * Z)) (v : Z) : list (Z * Z) :=
  filter (fun p => flag_set v (fst p) = true) tbl.

(** [f] reads the selectors of [tbl] as their bits. *)
Definition reads_table (f : list Z -> cres Z) (tbl : list (Z * Z)) : Prop :=
  Forall (fun p => (forall r, f (RSN_SELECTOR_PUT (snd p) ++ r) = Ok (fst p)) /\
                   exists k, 0 <= k /\ fst p = 2 ^ k) tbl.

Lemma put_suites_chosen tbl v : put_suites tbl v = flat_map (fun p => RSN_SELECTOR_PUT (snd p)) (chosen tbl v).
Proof.
  unfold put_suites, chosen. induction tbl as [|p tbl IH]; [done|]. cbn [flat_map]. rewrite filter_cons, IH.
  destruct (flag_set v p.1); [by rewrite decide_True|by rewrite decide_False].
Qed.

Lemma length_put_suites tbl v : zlen (put_suites tbl v) = 4 * num_suites tbl v.
Proof.
  rewrite put_suites_chosen. unfold num_suites. fold (chosen tbl v).
  induction (chosen tbl v) as [|p l IH]; [done|]. cbn [flat_map]. rewrite length_app, Nat2Z.inj_add, IH.
  cbn [length RSN_SELECTOR_PUT WPA_PUT_BE32]. lia.
Qed.

Lemma num_suites_le tbl v : 0 <= num_suites tbl v <= zlen tbl.
Proof. unfold num_suites. pose proof (length_filter (fun p => flag_set v p.1 = true) tbl). lia. Qed.

Lemma suites_loop_put f l r v :
  reads_table f l ->
  suites_loop f (length l) (flat_map (fun p => RSN_SELECTOR_PUT (snd p)) l ++ r) v =
  Ok (foldl Z.lor v (map fst l), r).
Proof.
  intros H. revert v. induction H as [|p l [Hp _] Hl IH]; intros v; [done|].
  cbn [length suites_loop flat_map]. rewrite <- app_assoc, Hp. cbn [cbind].
  rewrite drop_app_length' by done. apply IH.
Qed.

Lemma foldl_lor l v : foldl Z.lor v l = Z.lor v (any_of l).
Proof.
  revert v. induction l as [|b l IH]; intros v; cbn; [by rewrite Z.lor_0_r|]. by rewrite IH, Z.lor_assoc.
Qed.

Lemma land_bit v k : 0 <= k -> Z.land v (2 ^ k) = if flag_set v (2 ^ k) then 2 ^ k else 0.
Proof.
  intros Hk. unfold flag_set. assert (H : Z.land v (2 ^ k) = if Z.testbit v k then 2 ^ k else 0).
  { apply Z.bits_inj'. intros n Hn. rewrite Z.land_spec.
    destruct (Z.testbit v k) eqn:E; rewrite ?Z.bits_0; destruct (Z.eq_dec n k) as [->|Hnk];
      rewrite ?Z.pow2_bits_true, ?Z.pow2_bits_false, ?andb_false_r, ?E by lia; done. }
  rewrite H. destruct (Z.testbit v k); [|done]. by destruct (Z.eqb_spec (2 ^ k) 0); [lia|].
Qed.

(** The bits of the chosen suites are those of [v] the table knows. *)
Lemma any_of_chosen f tbl v :
  reads_table f tbl -> any_of (map fst (chosen tbl v)) = Z.land v (any_of (map fst tbl)).
Proof.
  unfold chosen. induction 1 as [|p tbl (_ & k & Hk & Hp) Hl IH]; cbn [map any_of foldr]; [by rewrite Z.land_0_r|].
  change (foldr Z.lor 0 ?l) with (any_of l). rewrite Z.land_lor_distr_r, filter_cons, <- IH, Hp, land_bit by done.
  destruct (flag_set v (2 ^ k)) eqn:E.
  - rewrite decide_True by done. cbn [map any_of foldr]. by rewrite Hp.
  - by rewrite decide_False, Z.lor_0_l by congruence.
Qed.

Lemma reads_chosen f tbl v : reads_table f tbl -> reads_table f (chosen tbl v).
Proof. unfold reads_table, chosen. rewrite !Forall_forall. intros H x Hx. apply list_elem_of_filter in Hx as [_ Hx]. auto. Qed.

(** A list of suites behind its count, read back. *)
Lemma suites_part_put f tbl v botch d k rest left :
  reads_table f tbl -> zlen tbl < 64 -> num_suites tbl v <> 0 -> left = 2 + zlen (put_suites tbl v) + zlen rest ->
  suites_part f botch d k (WPA_PUT_LE16 (num_suites tbl v) ++ put_suites tbl v ++ rest) left =
  k (Z.land v (any_of (map fst tbl))) rest (zlen rest).
Proof.
  intros Hf Ht Hn ->. pose proof (num_suites_le tbl v) as Hr. unfold suites_part.
  rewrite get_put_le16 by lia. cbn [cbind]. rewrite length_put_suites. unfold RSN_SELECTOR_LEN.
  destruct (Z.eqb_spec (num_suites tbl v) 0); [done|]. cbn [orb].
  destruct (Z.ltb_spec ((2 + 4 * num_suites tbl v + zlen rest - 2) / 4) (num_suites tbl v)); [dlia|].
  rewrite drop_app_length' by done. rewrite put_suites_chosen.
  replace (Z.to_nat (num_suites tbl v)) with (length (chosen tbl v)) by (unfold num_suites, chosen; lia).
  rewrite suites_loop_put by (by apply reads_chosen). cbn [cbind fst snd].
  rewrite foldl_lor, Z.lor_0_l, (any_of_chosen f) by done. f_equal. lia.
Qed.

Ltac reads_table_tac f :=
  unfold reads_table; repeat (apply Forall_cons; split;
    [split; [intros r; unfold f, RSN_SELECTOR_GET, RSN_SELECTOR_PUT; cbn [snd];
             rewrite get_put_be32 by (vm_compute; intuition congruence); vm_compute; reflexivity
            |cbn [fst]; unfold BIT; match goal with |- context [_ = 2 ^ _] => idtac end;
             match goal with |- exists k, 0 <= k /\ ?b = 2 ^ k =>
               let k := eval vm_compute in (Z.log2 b) in exists k; split; [lia|vm_compute; reflexivity] end]|]);
  apply Forall_nil; exact I.

Lemma rsn_ciphers_read : reads_table rsn_selector_to_bitfield rsn_ciphers.
Proof. reads_table_tac rsn_selector_to_bitfield. Qed.
Lemma rsn_akms_read : reads_table rsn_key_mgmt_to_bitfield rsn_akms.
Proof. reads_table_tac rsn_key_mgmt_to_bitfield. Qed.
Lemma wpa_ciphers_read : reads_table wpa_selector_to_bitfield wpa_ciphers.
Proof. reads_table_tac wpa_selector_to_bitfield. Qed.
Lemma wpa_akms_read : reads_table wpa_key_mgmt_to_bitfield wpa_akms.
Proof. reads_table_tac wpa_key_mgmt_to_bitfield. Qed.

Lemma group_suite_read c r :
  wpa_cipher_valid_group c = true ->
  wpa_cipher_to_suite WPA_PROTO_RSN c <> 0 /\
  rsn_selector_to_bitfield (RSN_SELECTOR_PUT (wpa_cipher_to_suite WPA_PROTO_RSN c) ++ r) = Ok c.
Proof.
  unfold wpa_cipher_valid_group, wpa_cipher_valid_pairwise. rewrite !orb_true_iff, !Z.eqb_eq.
  intros [[[[[->| ->]| ->]| ->]| ->]| ->]; unfold rsn_selector_to_bitfield, RSN_SELECTOR_GET, RSN_SELECTOR_PUT;
    (split; [vm_compute; congruence|]); rewrite get_put_be32 by (vm_compute; intuition congruence);
    vm_compute; reflexivity.
Qed.

Lemma mgmt_suite_read c suite r :
  mgmt_suite c = Some suite ->
  rsn_selector_to_bitfield (RSN_SELECTOR_PUT suite ++ r) = Ok c /\ wpa_cipher_valid_mgmt_group c = true.
Proof.
  unfold mgmt_suite. intros H.
  assert (Hc : (c, suite) ∈ [(WPA_CIPHER_AES_128_CMAC, RSN_CIPHER_SUITE_AES_128_CMAC);
    (WPA_CIPHER_BIP_GMAC_128, RSN_CIPHER_SUITE_BIP_GMAC_128);
    (WPA_CIPHER_BIP_GMAC_256, RSN_CIPHER_SUITE_BIP_GMAC_256);
    (WPA_CIPHER_BIP_CMAC_256, RSN_CIPHER_SUITE_BIP_CMAC_256)]).
  { rewrite !elem_of_cons. revert H.
    repeat match goal with |- context [c =? ?k] =>
      destruct (Z.eqb_spec c k) as [->|_]; [intros [= <-]; auto 7|] end. done. }
  rewrite !elem_of_cons, elem_of_nil in Hc.
  destruct Hc as [[= -> ->]|[[= -> ->]|[[= -> ->]|[[= -> ->]|[]]]]]; (split; [|vm_compute; reflexivity]);
    unfold rsn_selector_to_bitfield, RSN_SELECTOR_GET, RSN_SELECTOR_PUT;
    rewrite get_put_be32 by (vm_compute; intuition congruence); vm_compute; reflexivity.
Qed.

Lemma own_rsn_capab_range conf : 0 <= wpa_own_rsn_capab conf < 2 ^ 16.
Proof. unfold wpa_own_rsn_capab. repeat case_match; vm_compute; intuition congruence. Qed.

(** Whether the element names a management group cipher, and how. *)
Definition has_mgmt (conf : wpa_auth_config) : bool :=
  negb (conf.(ieee80211w) =? NO_MGMT_FRAME_PROTECTION) &&
  negb (conf.(group_mgmt_cipher) =? WPA_CIPHER_AES_128_CMAC).
Definition mgmt_bytes (conf : wpa_auth_config) : list Z :=
  match mgmt_suite conf.(group_mgmt_cipher) with
  | Some suite => if has_mgmt conf then RSN_SELECTOR_PUT suite else []
  | None => []
  end.

(** What the element of [conf] says. *)
Definition announced (conf : wpa_auth_config) (id : option (list Z)) : wpa_ie_data :=
  mkData WPA_PROTO_RSN (Z.land conf.(rsn_pairwise) (any_of (map fst rsn_ciphers))) 1 conf.(wpa_group) 1
    (Z.land conf.(wpa_key_mgmt) (any_of (map fst rsn_akms))) (wpa_own_rsn_capab conf)
    (match id with Some _ => 1 | None => 0 end)
    (match id with Some id => Some (id ++ mgmt_bytes conf)
                 | None => if has_mgmt conf then Some (mgmt_bytes conf) else None end)
    (if has_mgmt conf then conf.(group_mgmt_cipher) else WPA_CIPHER_AES_128_CMAC).

(** The end of the element, from the PMKID count on. *)
Definition ie_tail (conf : wpa_auth_config) (id : option (list Z)) : list Z :=
  match id with
  | Some id => WPA_PUT_LE16 1 ++ id ++ mgmt_bytes conf
  | None => if has_mgmt conf then WPA_PUT_LE16 0 ++ mgmt_bytes conf else []
  end.

Lemma mgmt_part_put conf d :
  (has_mgmt conf = true -> is_Some (mgmt_suite conf.(group_mgmt_cipher))) ->
  mgmt_part (mgmt_bytes conf) (zlen (mgmt_bytes conf)) d =
  Ok (0, if has_mgmt conf then d <| mgmt_group_cipher := conf.(group_mgmt_cipher) |> else d).
Proof.
  intros Hm. unfold mgmt_part, mgmt_bytes.
  destruct (mgmt_suite (group_mgmt_cipher conf)) as [suite|] eqn:E, (has_mgmt conf) eqn:Eh; try done.
  - destruct (mgmt_suite_read _ _ [] E) as [Hs Hv]. rewrite app_nil_r in Hs.
    change (4 <=? zlen (RSN_SELECTOR_PUT suite)) with true. rewrite Hs. cbn [cbind]. by rewrite Hv.
  - by destruct (Hm eq_refl).
Qed.

Lemma tail_parse conf id d :
  (has_mgmt conf = true -> is_Some (mgmt_suite conf.(group_mgmt_cipher))) ->
  match id with Some id => length id = 16%nat | None => True end ->
  d.(num_pmkid) = 0 -> d.(pmkid) = None -> d.(mgmt_group_cipher) = WPA_CIPHER_AES_128_CMAC ->
  pmkid_part mgmt_part (ie_tail conf id) (zlen (ie_tail conf id)) d =
  Ok (0, d <| num_pmkid := (announced conf id).(num_pmkid) |> <| pmkid := (announced conf id).(pmkid) |>
           <| mgmt_group_cipher := (announced conf id).(mgmt_group_cipher) |>).
Proof.
  intros Hm Hid H1 H2 H3. unfold pmkid_part, ie_tail, announced. cbn [num_pmkid pmkid mgmt_group_cipher].
  assert (Hd : d = d <| num_pmkid := 0 |> <| pmkid := None |> <| mgmt_group_cipher := WPA_CIPHER_AES_128_CMAC |>)
    by (destruct d; cbn in *; by subst).
  destruct id as [id|].
  - rewrite length_app. cbn [length WPA_PUT_LE16]. destruct (Z.leb_spec 2 (Z.of_nat (2 + length (id ++ mgmt_bytes conf)))); [|lia].
    change ([Z.land 1 255; u8 (Z.shiftr 1 8)] ++ id ++ mgmt_bytes conf) with (WPA_PUT_LE16 1 ++ (id ++ mgmt_bytes conf)).
    rewrite get_put_le16 by lia. cbn [cbind]. rewrite drop_app_length' by done. rewrite !length_app, Hid. unfold PMKID_LEN.
    destruct (Z.ltb_spec ((Z.of_nat (2 + (16 + length (mgmt_bytes conf))) - 2) / 16) 1); [dlia|].
    rewrite drop_app_length' by (rewrite Hid; reflexivity).
    replace (Z.of_nat (2 + (16 + length (mgmt_bytes conf))) - 2 - 1 * 16) with (zlen (mgmt_bytes conf)) by lia.
    rewrite mgmt_part_put by done. destruct (has_mgmt conf); [|rewrite Hd]; done.
  - destruct (has_mgmt conf) eqn:Eh; [|by rewrite <- Hd at 1].
    rewrite length_app. cbn [length WPA_PUT_LE16]. destruct (Z.leb_spec 2 (Z.of_nat (2 + length (mgmt_bytes conf)))); [|lia].
    change ([Z.land 0 255; u8 (Z.shiftr 0 8)] ++ mgmt_bytes conf) with (WPA_PUT_LE16 0 ++ mgmt_bytes conf).
    rewrite get_put_le16 by lia. cbn [cbind]. rewrite drop_app_length' by done. unfold PMKID_LEN.
    destruct (Z.ltb_spec ((Z.of_nat (2 + length (mgmt_bytes conf)) - 2) / 16) 0); [dlia|].
    change (Z.to_nat (0 * 16)) with 0%nat. rewrite drop_0.
    replace (Z.of_nat (2 + length (mgmt_bytes conf)) - 2 - 0 * 16) with (zlen (mgmt_bytes conf)) by lia.
    rewrite mgmt_part_put by auto. by rewrite Eh.
Qed.

(** The element, put together. *)
Definition ie_body (conf : wpa_auth_config) (id : option (list Z)) : list Z :=
  WPA_PUT_LE16 RSN_VERSION ++ RSN_SELECTOR_PUT (wpa_cipher_to_suite WPA_PROTO_RSN conf.(wpa_group)) ++
  (WPA_PUT_LE16 (num_suites rsn_ciphers conf.(rsn_pairwise)) ++ put_suites rsn_ciphers conf.(rsn_pairwise) ++
   (WPA_PUT_LE16 (num_suites rsn_akms conf.(wpa_key_mgmt)) ++ put_suites rsn_akms conf.(wpa_key_mgmt) ++
    (WPA_PUT_LE16 (wpa_own_rsn_capab conf) ++ ie_tail conf id))).

(** Why writing can fail, short of room. *)
Definition can_write (conf : wpa_auth_config) : Prop :=
  num_suites rsn_ciphers conf.(rsn_pairwise) <> 0 /\ num_suites rsn_akms conf.(wpa_key_mgmt) <> 0 /\
  (has_mgmt conf = true -> is_Some (mgmt_suite conf.(group_mgmt_cipher))).

Lemma rsn_cipher_put_suites_num v :
  rsn_cipher_put_suites v = (put_suites rsn_ciphers v, num_suites rsn_ciphers v).
Proof. unfold rsn_cipher_put_suites. rewrite length_put_suites. unfold RSN_SELECTOR_LEN. f_equal. dlia. Qed.

Lemma wpa_cipher_put_suites_num v :
  wpa_cipher_put_suites v = (put_suites wpa_ciphers v, num_suites wpa_ciphers v).
Proof. unfold wpa_cipher_put_suites. rewrite length_put_suites. unfold RSN_SELECTOR_LEN. f_equal. dlia. Qed.

Lemma write_rsn_ie_body conf len id n buf :
  wpa_write_rsn_ie conf len id = (n, buf) -> 0 <= n ->
  can_write conf /\ n = 2 + zlen (ie_body conf id) /\
  buf = WLAN_EID_RSN :: u8 (zlen (ie_body conf id)) :: ie_body conf id.
Proof.
  unfold wpa_write_rsn_ie. rewrite rsn_cipher_put_suites_num. intros H Hn.
  set (part1 := WPA_PUT_LE16 RSN_VERSION ++ _) in H.
  destruct (wpa_cipher_to_suite WPA_PROTO_RSN (wpa_group conf) =? 0); [by injection H as <- <-|].
  destruct (Z.eqb_spec (num_suites rsn_ciphers conf.(rsn_pairwise)) 0) as [|H1]; [by injection H as <- <-|].
  destruct (Z.eqb_spec (num_suites rsn_akms conf.(wpa_key_mgmt)) 0) as [|H2]; [by injection H as <- <-|].
  destruct (rsn_pmkid_part _ _ id) as [p1|] eqn:E1; [|by injection H as <- <-].
  destruct (rsn_mgmt_part _ _ _ id) as [p2|] eqn:E2; [|by injection H as <- <-].
  assert (Ht : p1 ++ p2 = ie_tail conf id /\ (has_mgmt conf = true -> is_Some (mgmt_suite conf.(group_mgmt_cipher)))).
  { unfold rsn_mgmt_part in E2. fold (has_mgmt conf) in E2. unfold ie_tail, mgmt_bytes.
    destruct id as [id|]; cbn [rsn_pmkid_part] in E1;
      [destruct (_ <? _); [done|]|]; injection E1 as <-;
      (destruct (has_mgmt conf); [destruct (_ <? _); [done|]|injection E2 as <-]);
      destruct (mgmt_suite (group_mgmt_cipher conf)); try done; try (injection E2 as <-);
      (split; [by rewrite ?app_nil_r|done]). }
  destruct Ht as [Ht Hm]. rewrite <- app_assoc, Ht in H.
  assert (Hb : part1 ++ ie_tail conf id = ie_body conf id) by (unfold part1, ie_body; by rewrite <- !app_assoc).
  rewrite Hb in H. injection H as <- <-. done.
Qed.

Lemma length_ie_body conf id :
  match id with Some id => length id = 16%nat | None => True end -> 12 <= zlen (ie_body conf id) <= 94.
Proof.
  intros Hid. unfold ie_body. rewrite !length_app, !Nat2Z.inj_add, !length_put_suites.
  pose proof (num_suites_le rsn_ciphers conf.(rsn_pairwise)) as H1. change (zlen rsn_ciphers) with 6 in H1.
  pose proof (num_suites_le rsn_akms conf.(wpa_key_mgmt)) as H2. change (zlen rsn_akms) with 8 in H2.
  assert (H3 : zlen (mgmt_bytes conf) <= 4) by (unfold mgmt_bytes; repeat case_match; cbn; lia).
  assert (H4 : zlen (ie_tail conf id) <= 22).
  { unfold ie_tail. destruct id; [rewrite !length_app; cbn [length WPA_PUT_LE16]; lia|].
    case_match; rewrite ?length_app; cbn [length WPA_PUT_LE16]; lia. }
  cbn [length WPA_PUT_LE16 RSN_SELECTOR_PUT WPA_PUT_BE32]. lia.
Qed.

Lemma length_ie_body_plain conf : zlen (ie_body conf None) <= 76.
Proof.
  unfold ie_body. rewrite !length_app, !Nat2Z.inj_add, !length_put_suites.
  pose proof (num_suites_le rsn_ciphers conf.(rsn_pairwise)) as H1. change (zlen rsn_ciphers) with 6 in H1.
  pose proof (num_suites_le rsn_akms conf.(wpa_key_mgmt)) as H2. change (zlen rsn_akms) with 8 in H2.
  assert (H3 : zlen (mgmt_bytes conf) <= 4) by (unfold mgmt_bytes; repeat case_match; cbn; lia).
  unfold ie_tail. case_match; rewrite ?length_app; cbn [length WPA_PUT_LE16 RSN_SELECTOR_PUT WPA_PUT_BE32]; lia.
Qed.

(** The version field keeps the element apart from an OSEN element. *)
Lemma not_osen conf id :
  wpa_cipher_valid_group conf.(wpa_group) = true ->
  exists b, WPA_GET_BE32 (ie_body conf id) = Ok b /\ (b =? OSEN_IE_VENDOR_TYPE) = false.
Proof.
  unfold wpa_cipher_valid_group, wpa_cipher_valid_pairwise, ie_body. rewrite !orb_true_iff, !Z.eqb_eq.
  set (rest := WPA_PUT_LE16 (num_suites rsn_ciphers _) ++ _).
  intros [[[[[->| ->]| ->]| ->]| ->]| ->]; cbn [app WPA_PUT_LE16 RSN_SELECTOR_PUT WPA_PUT_BE32];
    unfold WPA_GET_BE32; rewrite !rd_ok by (cbn [length]; lia); cbn [cbind]; at_simpl;
    (eexists; split; [reflexivity|vm_compute; reflexivity]).
Qed.

Lemma group_part_put k c rest d :
  wpa_cipher_valid_group c = true ->
  let ie := RSN_SELECTOR_PUT (wpa_cipher_to_suite WPA_PROTO_RSN c) ++ rest in
  group_part k ie (zlen ie) d = k rest (zlen rest) (d <| group_cipher := c |> <| has_group := 1 |>).
Proof.
  intros Hg ie. assert (Hl : zlen ie = 4 + zlen rest) by (unfold ie; rewrite length_app; cbn [length RSN_SELECTOR_PUT WPA_PUT_BE32]; lia).
  unfold group_part. unfold RSN_SELECTOR_LEN. destruct (Z.leb_spec 4 (zlen ie)); [|lia].
  unfold ie at 1. destruct (group_suite_read c rest Hg) as [_ ->]. cbn [cbind]. rewrite Hg. cbn [negb].
  replace (zlen ie - 4) with (zlen rest) by lia. done.
Qed.

(** A list of suites in an element. *)
Definition suites_ie (tbl : list (Z * Z)) (v : Z) (rest : list Z) : list Z :=
  WPA_PUT_LE16 (num_suites tbl v) ++ put_suites tbl v ++ rest.

Lemma suites_part_ie f tbl v botch d k rest :
  reads_table f tbl -> zlen tbl < 64 -> num_suites tbl v <> 0 ->
  suites_part f botch d k (suites_ie tbl v rest) (zlen (suites_ie tbl v rest)) =
  k (Z.land v (any_of (map fst tbl))) rest (zlen rest).
Proof.
  intros. unfold suites_ie. apply suites_part_put; try done.
  rewrite !length_app. cbn [length WPA_PUT_LE16]. lia.
Qed.

Lemma suites_ie_two tbl v rest : (2 <=? zlen (suites_ie tbl v rest)) = true.
Proof. unfold suites_ie. rewrite !length_app. cbn [length WPA_PUT_LE16]. apply Z.leb_le. lia. Qed.

Lemma pairwise_part_put k v rest d :
  num_suites rsn_ciphers v <> 0 ->
  let ie := suites_ie rsn_ciphers v rest in
  pairwise_part k ie (zlen ie) d =
  k rest (zlen rest) (d <| pairwise_cipher := Z.land v (any_of (map fst rsn_ciphers)) |> <| has_pairwise := 1 |>).
Proof.
  intros Hn ie. subst ie. unfold pairwise_part.
  rewrite suites_ie_two, (suites_part_ie _ _ _ _ _ _ _ rsn_ciphers_read) by done. cbv zeta.
  replace (flag_set _ WPA_CIPHER_AES_128_CMAC) with false; [done|].
  symmetry. unfold flag_set. rewrite <- Z.land_assoc.
  change (Z.land (any_of (map fst rsn_ciphers)) WPA_CIPHER_AES_128_CMAC) with 0. by rewrite Z.land_0_r.
Qed.

Lemma akm_part_put k v rest d :
  num_suites rsn_akms v <> 0 ->
  let ie := suites_ie rsn_akms v rest in
  akm_part k ie (zlen ie) d = k rest (zlen rest) (d <| key_mgmt := Z.land v (any_of (map fst rsn_akms)) |>).
Proof.
  intros Hn ie. subst ie. unfold akm_part.
  by rewrite suites_ie_two, (suites_part_ie _ _ _ _ _ _ _ rsn_akms_read).
Qed.

Lemma capab_part_put k v rest d :
  0 <= v < 2 ^ 16 ->
  let ie := WPA_PUT_LE16 v ++ rest in
  capab_part k ie (zlen ie) d = k rest (zlen rest) (d <| capabilities := v |>).
Proof.
  intros Hv ie. unfold capab_part.
  assert (Hl : zlen ie = 2 + zlen rest) by (unfold ie; rewrite length_app; cbn [length WPA_PUT_LE16]; lia).
  destruct (Z.leb_spec 2 (zlen ie)); [|lia]. unfold ie at 1. rewrite get_put_le16 by done. cbn [cbind].
  replace (zlen ie - 2) with (zlen rest) by lia. done.
Qed.

Lemma rsn_parts_announced conf id :
  can_write conf -> match id with Some id => length id = 16%nat | None => True end ->
  wpa_cipher_valid_group conf.(wpa_group) = true ->
  let rest := drop 2 (ie_body conf id) in
  rsn_parts rest (zlen rest) rsn_defaults = Ok (0, announced conf id).
Proof.
  intros (H1 & H2 & H3) Hid Hg rest. unfold rsn_parts.
  change rest with (RSN_SELECTOR_PUT (wpa_cipher_to_suite WPA_PROTO_RSN conf.(wpa_group)) ++
    suites_ie rsn_ciphers conf.(rsn_pairwise) (suites_ie rsn_akms conf.(wpa_key_mgmt)
      (WPA_PUT_LE16 (wpa_own_rsn_capab conf) ++ ie_tail conf id))).
  rewrite group_part_put, pairwise_part_put, akm_part_put, capab_part_put by auto using own_rsn_capab_range.
  by rewrite tail_parse.
Qed.

(** C8: the RSN element hostapd writes for a configuration is parsed back as
    that configuration: the same group cipher, pairwise ciphers, key management
    suites and capabilities (those of them the element can carry), the PMKID,
    and the management group cipher. *)
Theorem rsn_ie_roundtrip conf len id n buf :
  wpa_write_rsn_ie conf len id = (n, buf) -> 0 <= n ->
  match id with Some id => length id = 16%nat | None => True end ->
  wpa_cipher_valid_group conf.(wpa_group) = true ->
  n = zlen buf /\ wpa_parse_wpa_ie_rsn buf = Ok (0, announced conf id).
Proof.
  intros Hw Hn Hid Hg. destruct (write_rsn_ie_body _ _ _ _ _ Hw Hn) as ((H1 & H2 & H3) & -> & ->).
  pose proof (length_ie_body conf id Hid) as Hl. cbn [length]. split; [lia|].
  rewrite u8_small by lia. set (body := ie_body conf id) in *.
  unfold wpa_parse_wpa_ie_rsn. cbn [length].
  destruct (Z.eqb_spec (Z.of_nat (S (S (length body)))) 0); [lia|].
  destruct (Z.ltb_spec (Z.of_nat (S (S (length body)))) 4); [lia|].
  rewrite !rd_ok by (cbn [length]; lia). at_simpl. cbn [cbind drop].
  assert (Hosen : exists b, WPA_GET_BE32 body = Ok b /\ (b =? OSEN_IE_VENDOR_TYPE) = false)
    by (apply not_osen, Hg).
  destruct Hosen as (b & Hb & Hosen).
  destruct (Z.leb_spec 6 (Z.of_nat (S (S (length body))))); [|lia].
  destruct (Z.leb_spec 4 (zlen body)); [|lia].
  destruct (Z.eqb_spec (zlen body) (Z.of_nat (S (S (length body))) - 2)); [|lia].
  cbn [andb]. change (drop 0 body) with body. rewrite Hb. cbn [cbind]. rewrite Hosen.
  assert (Hv : WPA_GET_LE16 body = Ok RSN_VERSION)
    by (unfold body, ie_body; apply get_put_le16; vm_compute; intuition congruence).
  rewrite Hv. cbn [cbind]. rewrite !Z.eqb_refl. cbn [negb orb].
  replace (Z.of_nat (S (S (length body))) - 4) with (zlen (drop 2 body)) by (rewrite length_drop; lia).
  by apply rsn_parts_announced.
Qed.

(** *** The WPA element *)

Definition wpa_body (conf : wpa_auth_config) : list Z :=
  RSN_SELECTOR_PUT WPA_OUI_TYPE ++ WPA_PUT_LE16 WPA_VERSION ++
  RSN_SELECTOR_PUT (wpa_cipher_to_suite WPA_PROTO_WPA conf.(wpa_group)) ++
  suites_ie wpa_ciphers conf.(wpa_pairwise) (suites_ie wpa_akms conf.(wpa_key_mgmt) []).

Definition wpa_announced (conf : wpa_auth_config) : wpa_ie_data :=
  mkData WPA_PROTO_WPA (Z.land conf.(wpa_pairwise) (any_of (map fst wpa_ciphers))) 0 conf.(wpa_group) 0
    (Z.land conf.(wpa_key_mgmt) (any_of (map fst wpa_akms))) 0 0 None 0.

Lemma write_wpa_ie_body conf n buf :
  wpa_write_wpa_ie conf = (n, buf) -> 0 <= n ->
  num_suites wpa_ciphers conf.(wpa_pairwise) <> 0 /\ num_suites wpa_akms conf.(wpa_key_mgmt) <> 0 /\
  n = 2 + zlen (wpa_body conf) /\
  buf = WLAN_EID_VENDOR_SPECIFIC :: u8 (zlen (wpa_body conf)) :: wpa_body conf.
Proof.
  unfold wpa_write_wpa_ie. rewrite wpa_cipher_put_suites_num. intros H Hn.
  destruct (wpa_cipher_to_suite WPA_PROTO_WPA (wpa_group conf) =? 0); [by injection H as <- <-|].
  destruct (Z.eqb_spec (num_suites wpa_ciphers conf.(wpa_pairwise)) 0); [by injection H as <- <-|].
  destruct (Z.eqb_spec (num_suites wpa_akms conf.(wpa_key_mgmt)) 0); [by injection H as <- <-|].
  unfold wpa_body, suites_ie. rewrite app_nil_r. by injection H as <- <-.
Qed.

Lemma length_wpa_body conf : 10 <= zlen (wpa_body conf) <= 34.
Proof.
  unfold wpa_body, suites_ie. rewrite !length_app, !Nat2Z.inj_add, !length_put_suites.
  pose proof (num_suites_le wpa_ciphers conf.(wpa_pairwise)) as H1. change (zlen wpa_ciphers) with 3 in H1.
  pose proof (num_suites_le wpa_akms conf.(wpa_key_mgmt)) as H2. change (zlen wpa_akms) with 2 in H2.
  cbn [length WPA_PUT_LE16 RSN_SELECTOR_PUT WPA_PUT_BE32]. lia.
Qed.

Lemma wpa_group_read c r :
  c = WPA_CIPHER_TKIP \/ c = WPA_CIPHER_CCMP ->
  wpa_selector_to_bitfield (RSN_SELECTOR_PUT (wpa_cipher_to_suite WPA_PROTO_WPA c) ++ r) = Ok c.
Proof.
  intros [-> | ->]; unfold wpa_selector_to_bitfield, RSN_SELECTOR_GET, RSN_SELECTOR_PUT;
    rewrite get_put_be32 by (vm_compute; intuition congruence); vm_compute; reflexivity.
Qed.

Lemma wpa_parts_announced conf :
  num_suites wpa_ciphers conf.(wpa_pairwise) <> 0 -> num_suites wpa_akms conf.(wpa_key_mgmt) <> 0 ->
  conf.(wpa_group) = WPA_CIPHER_TKIP \/ conf.(wpa_group) = WPA_CIPHER_CCMP ->
  let rest := drop 6 (wpa_body conf) in
  wpa_parts rest (zlen rest) wpa_defaults = Ok (0, wpa_announced conf).
Proof.
  intros H1 H2 Hg rest. set (ie := suites_ie wpa_ciphers conf.(wpa_pairwise) (suites_ie wpa_akms conf.(wpa_key_mgmt) [])).
  change rest with (RSN_SELECTOR_PUT (wpa_cipher_to_suite WPA_PROTO_WPA conf.(wpa_group)) ++ ie).
  unfold wpa_parts, wpa_group_part. rewrite length_app. unfold WPA_SELECTOR_LEN.
  cbn [length RSN_SELECTOR_PUT WPA_PUT_BE32]. destruct (Z.leb_spec 4 (Z.of_nat (4 + length ie))); [|lia].
  rewrite wpa_group_read by done. cbn [cbind].
  replace (Z.of_nat (4 + length ie) - 4) with (zlen ie) by lia. rewrite drop_app_length' by done.
  unfold ie. unfold wpa_pairwise_part.
  rewrite suites_ie_two, (suites_part_ie _ _ _ _ _ _ _ wpa_ciphers_read) by done.
  unfold wpa_akm_part. by rewrite suites_ie_two, (suites_part_ie _ _ _ _ _ _ _ wpa_akms_read) by done.
Qed.

(** The WPA element hostapd writes for a configuration whose group cipher
    is one of WPA is parsed back as that configuration. *)
Theorem wpa_ie_roundtrip conf n buf :
  wpa_write_wpa_ie conf = (n, buf) -> 0 <= n ->
  conf.(wpa_group) = WPA_CIPHER_TKIP \/ conf.(wpa_group) = WPA_CIPHER_CCMP ->
  n = zlen buf /\ wpa_parse_wpa_ie_wpa buf = Ok (0, wpa_announced conf).
Proof.
  intros Hw Hn Hg. destruct (write_wpa_ie_body _ _ _ Hw Hn) as (H1 & H2 & -> & ->).
  pose proof (length_wpa_body conf) as Hl. cbn [length]. split; [lia|].
  rewrite u8_small by lia. set (body := wpa_body conf) in *.
  unfold wpa_parse_wpa_ie_wpa. cbn [length].
  destruct (Z.ltb_spec (Z.of_nat (S (S (length body)))) 8); [lia|].
  rewrite !rd_ok by (cbn [length]; lia). at_simpl. cbn [cbind]. change (drop 2 (_ :: _ :: body)) with body.
  assert (Ho : RSN_SELECTOR_GET body = Ok WPA_OUI_TYPE)
    by (unfold body, wpa_body; apply get_put_be32; vm_compute; intuition congruence).
  assert (Hv : WPA_GET_LE16 (drop 4 body) = Ok WPA_VERSION)
    by (unfold body, wpa_body; rewrite drop_app_length' by done; apply get_put_le16; vm_compute; intuition congruence).
  rewrite Ho. change (drop 6 (_ :: _ :: body)) with (drop 4 body). rewrite Hv. cbn [cbind].
  destruct (Z.eqb_spec (zlen body) (Z.of_nat (S (S (length body))) - 2)); [|lia].
  rewrite !Z.eqb_refl. cbn [negb orb]. change (drop 8 (_ :: _ :: body)) with (drop 6 body).
  replace (Z.of_nat (S (S (length body))) - 8) with (zlen (drop 6 body)) by (rewrite length_drop; lia).
  by apply wpa_parts_announced.
Qed.

(** *** What [wpa_auth_gen_wpa_ie] puts in its buffer *)

Lemma low_bytes_length n fuel v : 0 <= v < 2 ^ (8 * Z.of_nat n) -> (length (low_bytes fuel v) <= n)%nat.
Proof.
  revert v n. induction fuel as [|fuel IH]; intros v n Hv; cbn [low_bytes]; [cbn; lia|].
  destruct (Z.eqb_spec v 0); [cbn; lia|]. destruct n as [|n]; [change (8 * Z.of_nat 0) with 0 in Hv; lia|].
  cbn [length]. apply le_n_S, IH. rewrite Z.shiftr_div_pow2 by lia. split; [apply Z.div_pos; lia|].
  apply Z.div_lt_upper_bound; [lia|]. rewrite <- Z.pow_add_r by lia.
  replace (8 + 8 * Z.of_nat n) with (8 * Z.of_nat (S n)) by lia. lia.
Qed.

Lemma rsnx_capab_range conf : 0 <= rsnx_capab conf < 2 ^ 22.
Proof.
  unfold rsnx_capab. generalize (wpa_key_mgmt_sae conf.(wpa_key_mgmt) &&
       ((conf.(sae_pwe) =? SAE_PWE_HASH_TO_ELEMENT) || (conf.(sae_pwe) =? SAE_PWE_BOTH) || conf.(sae_pk) ||
        wpa_key_mgmt_sae_ext_key conf.(wpa_key_mgmt))). intros b.
  destruct b, conf.(secure_ltf), conf.(secure_rtt), conf.(prot_range_neg), conf.(ssid_protection);
    vm_compute; intuition congruence.
Qed.

Lemma write_rsnxe_length conf len : zlen (snd (wpa_write_rsnxe conf len)) <= 5.
Proof.
  unfold wpa_write_rsnxe. pose proof (rsnx_capab_range conf) as Hr.
  destruct (Z.eqb_spec (rsnx_capab conf) 0) as [|H0]; [done|]. set (flen := zlen (low_bytes 4 (rsnx_capab conf))).
  destruct (len <? 2 + flen); [done|]. cbn [snd length].
  assert (Hf : 1 <= flen <= 4).
  { unfold flen. split; [|pose proof (low_bytes_length 4 4 (rsnx_capab conf)); lia].
    cbn [low_bytes]. destruct (Z.eqb_spec (rsnx_capab conf) 0); [done|]. cbn [length]. lia. }
  assert (Hc : 0 <= Z.lor (rsnx_capab conf) (flen - 1) < 2 ^ 24) by (apply lor_range; lia).
  pose proof (low_bytes_length 3 4 _ Hc). lia.
Qed.

(** A writer that fails by -1, or tells the length of what it wrote. *)
Definition wrote (res : Z * list Z) (most : Z) : Prop := fst res = -1 \/ (0 <= fst res /\ zlen (snd res) <= most).

Lemma append_wrote pos res most :
  wrote res most ->
  append_ie pos res = inl (-1) \/ exists pos', append_ie pos res = inr pos' /\ zlen pos' <= zlen pos + most.
Proof.
  unfold append_ie. intros [-> | [H1 H2]]; [by left|]. destruct (Z.ltb_spec (fst res) 0); [lia|].
  right. eexists. split; [done|]. rewrite length_app. lia.
Qed.

Lemma wrote_rsn conf len : wrote (wpa_write_rsn_ie conf len None) 78.
Proof.
  destruct (wpa_write_rsn_ie conf len None) as [n buf] eqn:E.
  destruct (Z.lt_ge_cases n 0) as [Hn|Hn].
  - left. revert E. unfold wpa_write_rsn_ie. rewrite rsn_cipher_put_suites_num. cbv zeta. cbn [fst].
    repeat case_match; intros [= <- _]; try done; lia.
  - destruct (write_rsn_ie_body _ _ _ _ _ E Hn) as (_ & -> & ->). right. cbn [fst snd length].
    pose proof (length_ie_body_plain conf). lia.
Qed.

Lemma wrote_rsnxe conf len : wrote (wpa_write_rsnxe conf len) 5.
Proof.
  pose proof (write_rsnxe_length conf len) as Hl. revert Hl. unfold wpa_write_rsnxe, wrote. cbv zeta.
  repeat case_match; cbn [fst snd]; intros; auto; right; lia.
Qed.

Lemma wrote_wpa conf : wrote (wpa_write_wpa_ie conf) 36.
Proof.
  destruct (wpa_write_wpa_ie conf) as [n buf] eqn:E.
  destruct (Z.lt_ge_cases n 0) as [Hn|Hn].
  - left. revert E. unfold wpa_write_wpa_ie. rewrite wpa_cipher_put_suites_num. cbv zeta. cbn [fst].
    repeat case_match; intros [= <- _]; try done; lia.
  - destruct (write_wpa_ie_body _ _ _ E Hn) as (_ & _ & -> & ->). right. cbn [fst snd length].
    pose proof (length_wpa_body conf). lia.
Qed.

(** What [wpa_auth_gen_wpa_ie] puts into its buffer of 128 bytes fits,
    whatever the configuration, though the writer of the WPA element is not
    told how much room there is; it returns 0 with the elements, or -1. *)
Theorem gen_wpa_ie_fits conf malloc_ok old :
  let '(r, ie) := wpa_auth_gen_wpa_ie conf malloc_ok old in
  (r = 0 /\ exists new, ie = Some new /\ zlen new <= 119 < ie_buf_size) \/
  (r = -1 /\ (ie = old \/ malloc_ok = false /\ ie = None)).
Proof.
  unfold wpa_auth_gen_wpa_ie, ie_buf_size. cbv zeta.
  destruct (Z.eqb_spec conf.(wpa) WPA_PROTO_OSEN) as [->|_].
  - change (flag_set WPA_PROTO_OSEN WPA_PROTO_RSN) with false.
    change (flag_set WPA_PROTO_OSEN WPA_PROTO_WPA) with false.
    destruct malloc_ok; [left|right; by auto]. split; [done|]. eexists. split; [done|].
    cbn [length wpa_write_osen app RSN_SELECTOR_PUT WPA_PUT_BE32 WPA_PUT_LE16 WPA_PUT_BE24]. lia.
  - assert (Hpos : exists r, (if flag_set conf.(wpa) WPA_PROTO_RSN then
      match append_ie [] (wpa_write_rsn_ie conf (128 - zlen (@nil Z)) None) with
      | inl r => inl r
      | inr pos => append_ie pos (wpa_write_rsnxe conf (128 - zlen pos))
      end else inr []) = r /\ match r with inl n => n = -1 | inr pos => zlen pos <= 83 end).
    { eexists. split; [reflexivity|]. destruct (flag_set conf.(wpa) WPA_PROTO_RSN); [|cbn; lia].
      destruct (append_wrote [] _ _ (wrote_rsn conf (128 - zlen (@nil Z)))) as [->|(p & -> & Hp)]; [done|].
      destruct (append_wrote p _ _ (wrote_rsnxe conf (128 - zlen p))) as [->|(q & -> & Hq)]; [done|].
      cbn [length] in Hp. lia. }
    destruct Hpos as (r & -> & Hr). destruct r as [n|pos]; [by auto|].
    destruct (flag_set conf.(wpa) WPA_PROTO_WPA).
    + destruct (append_wrote pos _ _ (wrote_wpa conf)) as [->|(p & -> & Hp)]; [by auto|].
      destruct malloc_ok; [left|right; by auto]. split; [done|]. eexists. split; [done|lia].
    + destruct malloc_ok; [left|right; by auto]. split; [done|]. eexists. split; [done|lia].
Qed.

(** ** Witnesses *)

(** A WPA2/WPA3 transition access point with management frame protection. *)
Definition example_conf : wpa_auth_config :=
  mkConf (Z.lor WPA_PROTO_RSN WPA_PROTO_WPA) (Z.lor WPA_KEY_MGMT_PSK WPA_KEY_MGMT_PSK_SHA256) WPA_CIPHER_TKIP
    WPA_CIPHER_CCMP (Z.lor WPA_CIPHER_CCMP WPA_CIPHER_GCMP_256) WPA_CIPHER_BIP_GMAC_256
    1 true true false 0 false false false false false.

Lemma wpa_parse_in_bounds_witness :
  bytes [48; 4; 1; 0; 0; 15] /\
  result_ok (wpa_parse_wpa_ie_rsn [48; 4; 1; 0; 0; 15]) /\ result_ok (wpa_parse_wpa_ie_wpa [48; 4; 1; 0; 0; 15]).
Proof.
  assert (H : bytes [48; 4; 1; 0; 0; 15]) by by_deciding.
  split; [exact H|exact (wpa_parse_in_bounds _ H)].
Defined.

Lemma rsn_ie_roundtrip_witness :
  let id := Some (repeat 7 16) in
  let w := wpa_write_rsn_ie example_conf 128 id in
  fst w = 52 /\ wpa_parse_wpa_ie_rsn (snd w) = Ok (0, announced example_conf id).
Proof.
  intros id w. split; [vm_compute; reflexivity|].
  apply (rsn_ie_roundtrip example_conf 128 id (fst w) (snd w));
    [apply surjective_pairing|vm_compute; congruence|reflexivity|vm_compute; reflexivity].
Defined.

Lemma wpa_ie_roundtrip_witness :
  let w := wpa_write_wpa_ie example_conf in
  fst w = 24 /\ wpa_parse_wpa_ie_wpa (snd w) = Ok (0, wpa_announced example_conf).
Proof.
  intros w. split; [vm_compute; reflexivity|].
  apply (wpa_ie_roundtrip example_conf (fst w) (snd w));
    [apply surjective_pairing|vm_compute; congruence|right; reflexivity].
Defined.

End RsnIe.
