(* ===== verification/PmksaCache.v ===== *)
(** * The PMKSA cache (ap/pmksa_cache_auth.c)

    Entries live in a heap and are linked twice, as in the code: through [next]
    in the order of their expiration and through [hnext] in the bucket of their
    PMKID's hash.  A pointer is a number, a read or write through one that
    points to no entry is a [Fault], and a freed entry is gone from the heap.

    The theorems relate the heap to a list of entries, the cache's contents:
    every operation, given a cache that represents a list, succeeds and leaves
    a cache that represents the list the operation should leave. *)

From S2P Require Import Prelude WpaDefs Eloop.
From stdpp Require Import gmap sorting.

Module PmksaCache.
Import WpaDefs Eloop.

#[local] Open Scope list_scope.
#[local] Open Scope Z_scope.

(** ** Data *)

Definition NULL : Z := 0.

Definition pmksa_cache_max_entries : Z := 1024.
Definition dot11RSNAConfigPMKLifetime : Z := 43200.
Definition PMKID_HASH_SIZE : Z := 128.
Definition PMKID_HASH (pmkid : list Z) : Z := Z.land (at_ pmkid 0) 0x7f.

(** ap/vlan.h; [tagged] without the zeros at its end. *)
Record vlan_description := mkVlan { notempty : bool; untagged : Z; tagged : list Z }.

(** [pmk] and [kck] are the bytes in use of the arrays. *)
Record rsn_pmksa_cache_entry := mkEntry {
  next : Z; hnext : Z; pmkid : list Z; pmk : list Z; kck : list Z; expiration : Z; akmp : Z;
  spa : list Z; identity : option (list Z); cui : option (list Z); radius_class : list (list Z);
  eap_type_authsrv : Z; vlan_desc : option vlan_description; opportunistic : Z; acct_multi_session_id : Z
}.
#[export] Instance entry_eta : Settable rsn_pmksa_cache_entry := fun e =>
  mkEntry e.(next) e.(hnext) e.(pmkid) e.(pmk) e.(kck) e.(expiration) e.(akmp) e.(spa) e.(identity)
    e.(cui) e.(radius_class) e.(eap_type_authsrv) e.(vlan_desc) e.(opportunistic) e.(acct_multi_session_id).

(** The cache with the heap of its entries, the calls of [free_cb] and the
    event loop. *)
Record rsn_pmksa_cache := mkCache {
  heap : gmap Z rsn_pmksa_cache_entry; buckets : list Z; pmksa : Z; pmksa_count : Z; freed : list Z; loop : eloop_data
}.
#[export] Instance cache_eta : Settable rsn_pmksa_cache := fun c =>
  mkCache c.(heap) c.(buckets) c.(pmksa) c.(pmksa_count) c.(freed) c.(loop).
Implicit Types c : rsn_pmksa_cache.

(** What the calls one operation makes return: its own reading of the clock,
    those of [pmksa_cache_set_expiration] and of the registration it makes,
    and the allocations ([a_class] attributes of the class can be copied). *)
Record env := mkEnv {
  now : os_reltime; now_set : os_reltime; now_reg : reading; reg_malloc : bool;
  a_entry : Z; a_identity : bool; a_cui : bool; a_vlan : bool; a_class : option nat
}.

(** The members of the EAPOL machine and its station that are cached. *)
Record eapol_data := mkEapol {
  e_identity : option (list Z); e_cui : option (list Z); e_class : list (list Z); e_eap_type : Z;
  e_vlan : option vlan_description; e_session : Z
}.

(** HMAC is the TLS library's. *)
Class Hmac := {
  hmac_sha1_vector : list Z -> list (list Z) -> list Z;
  hmac_sha256_vector : list Z -> list (list Z) -> list Z;
  hmac_sha384_vector : list Z -> list (list Z) -> list Z
}.

(** ** Pointers *)

Definition deref c (p : Z) : cres rsn_pmksa_cache_entry :=
  match c.(heap) !! p with Some e => Ok e | None => Fault end.
Definition assign c (p : Z) (f : rsn_pmksa_cache_entry -> rsn_pmksa_cache_entry) : cres rsn_pmksa_cache :=
  (e <-- deref c p ;; Ok (c <| heap := <[p := f e]> c.(heap) |>))%c.

(** The two lists an entry is in. *)
Inductive link := Next | Hnext.
Definition follow (k : link) (e : rsn_pmksa_cache_entry) : Z := match k with Next => e.(next) | Hnext => e.(hnext) end.
Definition relink (k : link) (p : Z) (e : rsn_pmksa_cache_entry) : rsn_pmksa_cache_entry :=
  match k with Next => e <| next := p |> | Hnext => e <| hnext := p |> end.

Definition bucket c (hash : Z) : Z := at_ c.(buckets) hash.
Definition set_bucket (hash p : Z) c : rsn_pmksa_cache := c <| buckets := <[Z.to_nat hash := p]> c.(buckets) |>.
Definition set_pmksa (p : Z) c : rsn_pmksa_cache := c <| pmksa := p |>.

(** Enough passes for a list of entries of the heap. *)
Definition passes c : nat := S (size c.(heap)).

(** ** Operations *)

(** [while (pos) { if (pos == entry) { unlink; break; } prev = pos; pos = pos->next; }] *)
Fixpoint unlink (k : link) (set_first : Z -> rsn_pmksa_cache -> rsn_pmksa_cache) (fuel : nat) (entry pos prev : Z) c : cres rsn_pmksa_cache :=
  match fuel with
  | O => Fault
  | S fuel =>
      if pos =? NULL then Ok c
      else if pos =? entry then
        (e <-- deref c entry ;;
         if negb (prev =? NULL) then assign c prev (relink k (follow k e))
         else Ok (set_first (follow k e) c))%c
      else (e <-- deref c pos ;; unlink k set_first fuel entry (follow k e) pos c)%c
  end.

Definition pmksa_cache_free_entry c (entry : Z) : cres rsn_pmksa_cache :=
  (let c := c <| pmksa_count := c.(pmksa_count) - 1 |> <| freed := c.(freed) ++ [entry] |> in
   e <-- deref c entry ;;
   let hash := PMKID_HASH e.(pmkid) in
   c <-- unlink Hnext (set_bucket hash) (passes c) entry (bucket c hash) NULL c ;;
   c <-- unlink Next set_pmksa (passes c) entry c.(pmksa) NULL c ;;
   Ok (c <| heap := delete entry c.(heap) |>))%c.

Fixpoint flush_loop (fuel : nat) c : cres rsn_pmksa_cache :=
  match fuel with
  | O => Fault
  | S fuel =>
      if c.(pmksa) =? NULL then Ok c
      else (c <-- pmksa_cache_free_entry c c.(pmksa) ;; flush_loop fuel c)%c
  end.
Definition pmksa_cache_auth_flush c : cres rsn_pmksa_cache := flush_loop (passes c) c.

Section operations.

(** The address of the cache, and of the timeout's handler. *)
Variables (self expire_cb : Z).
Context {HM : Hmac}.

Definition pmksa_cache_set_expiration (v : env) c : cres rsn_pmksa_cache :=
  (let c := c <| loop := fst (eloop_cancel_timeout expire_cb self NULL c.(loop)) |> in
   if c.(pmksa) =? NULL then Ok c
   else
     e <-- deref c c.(pmksa) ;;
     let sec := s32 (e.(expiration) - v.(now_set).(Eloop.sec)) in
     let sec := if sec <? 0 then 0 else sec in
     Ok (c <| loop := fst (eloop_register_timeout v.(reg_malloc) v.(now_reg) (u32 (sec + 1)) 0 expire_cb self
                             NULL c.(loop)) |>))%c.

Fixpoint expire_loop (fuel : nat) (now : Z) c : cres rsn_pmksa_cache :=
  match fuel with
  | O => Fault
  | S fuel =>
      if c.(pmksa) =? NULL then Ok c
      else
        (e <-- deref c c.(pmksa) ;;
         if e.(expiration) <=? now then c <-- pmksa_cache_free_entry c c.(pmksa) ;; expire_loop fuel now c
         else Ok c)%c
  end.
Definition pmksa_cache_expire (v : env) c : cres rsn_pmksa_cache :=
  (c <-- expire_loop (passes c) v.(now).(Eloop.sec) c ;; pmksa_cache_set_expiration v c)%c.

Definition radius_copy_class (dst src : list (list Z)) (copied : option nat) : list (list Z) :=
  match src with
  | [] => dst
  | _ => match copied with None => [] | Some n => take n src end
  end.

Definition pmksa_cache_from_eapol_data (v : env) (e : rsn_pmksa_cache_entry) (eapol : option eapol_data) : rsn_pmksa_cache_entry :=
  match eapol with
  | None => e
  | Some s =>
      let e := if v.(a_identity) then match s.(e_identity) with Some i => e <| identity := Some i |> | None => e end
               else e in
      let e := match s.(e_cui) with Some b => e <| cui := if v.(a_cui) then Some b else None |> | None => e end in
      let e := e <| radius_class := radius_copy_class e.(radius_class) s.(e_class) v.(a_class) |> in
      let e := e <| eap_type_authsrv := s.(e_eap_type) |> in
      let e :=
        match s.(e_vlan) with
        | Some d => if d.(notempty) then e <| vlan_desc := if v.(a_vlan) then Some d else None |>
                    else e <| vlan_desc := None |>
        | None => e <| vlan_desc := None |>
        end in
      e <| acct_multi_session_id := s.(e_session) |>
  end.

(** The machine's data, but for the VLAN, which [ap_sta_set_vlan] is called
    with; [None] when an argument is missing. *)
Definition pmksa_cache_to_eapol_data (v : env) (e : option rsn_pmksa_cache_entry) (eapol : option eapol_data) :
    option (eapol_data * option vlan_description) :=
  match e, eapol with
  | Some e, Some s =>
      let identity := match e.(identity) with
                      | Some i => if v.(a_identity) then Some i else None
                      | None => s.(e_identity)
                      end in
      let cui := match e.(cui) with Some b => if v.(a_cui) then Some b else None | None => s.(e_cui) end in
      Some (mkEapol identity cui (radius_copy_class [] e.(radius_class) v.(a_class)) e.(eap_type_authsrv)
              s.(e_vlan) e.(acct_multi_session_id), e.(vlan_desc))
  | _, _ => None
  end.

(** [while (pos) { if (pos->expiration > entry->expiration) break; ... }]: the
    last [prev]. *)
Fixpoint find_prev (fuel : nat) (pos prev expires : Z) c : cres Z :=
  match fuel with
  | O => Fault
  | S fuel =>
      if pos =? NULL then Ok prev
      else (e <-- deref c pos ;;
            if expires <? e.(expiration) then Ok prev else find_prev fuel e.(next) pos expires c)%c
  end.

(** Puts the entry behind [prev], first if that is NULL. *)
Definition link_after c (entry prev : Z) : cres rsn_pmksa_cache :=
  (if prev =? NULL then
     c <-- assign c entry (relink Next c.(pmksa)) ;; Ok (c <| pmksa := entry |>)
   else
     q <-- deref c prev ;;
     c <-- assign c entry (relink Next q.(next)) ;;
     assign c prev (relink Next entry))%c.

Definition pmksa_cache_link_entry (v : env) c (entry : Z) : cres rsn_pmksa_cache :=
  (e <-- deref c entry ;;
   prev <-- find_prev (passes c) c.(pmksa) NULL e.(expiration) c ;;
   c <-- link_after c entry prev ;;
   let hash := PMKID_HASH e.(pmkid) in
   c <-- assign c entry (relink Hnext (bucket c hash)) ;;
   let c := set_bucket hash entry c in
   let c := c <| pmksa_count := c.(pmksa_count) + 1 |> in
   if prev =? NULL then pmksa_cache_set_expiration v c else Ok c)%c.

(** common/wpa_common.c; the Suite B variants are stubs that fail, as
    CONFIG_SUITEB and CONFIG_SUITEB192 are not set. *)
Definition pmk_name : list Z := [0x50; 0x4d; 0x4b; 0x20; 0x4e; 0x61; 0x6d; 0x65].
Definition rsn_pmkid (pmk aa spa : list Z) (akmp : Z) : list Z :=
  let addr := [pmk_name; aa; spa] in
  let hash := if wpa_key_mgmt_sha384 akmp then hmac_sha384_vector pmk addr
              else if wpa_key_mgmt_sha256 akmp then hmac_sha256_vector pmk addr
              else hmac_sha1_vector pmk addr in
  take (Z.to_nat PMKID_LEN) hash.
Definition rsn_pmkid_suite_b (pmkid : list Z) : list Z := pmkid.
Definition rsn_pmkid_suite_b_192 (pmkid : list Z) : list Z := pmkid.

Definition zero_entry : rsn_pmksa_cache_entry :=
  mkEntry NULL NULL (replicate (Z.to_nat PMKID_LEN) 0) [] [] 0 0 (replicate 6 0) None None [] 0 None 0 0.

(** The entry, at the address the allocator gave. *)
Definition pmksa_cache_auth_create_entry (v : env) c (pmk : list Z) (id kck : option (list Z)) (aa spa : list Z)
    (session_timeout : Z) (eapol : option eapol_data) (akmp : Z) : Z * rsn_pmksa_cache :=
  if PMK_LEN_MAX <? zlen pmk then (NULL, c)
  else if wpa_key_mgmt_suite_b akmp && negb (bool_decide (is_Some kck)) then (NULL, c)
  else if v.(a_entry) =? NULL then (NULL, c)
  else
    let e := zero_entry <| PmksaCache.pmk := pmk |> in
    let e := match kck with
             | Some k => if negb (zlen k =? 0) && (zlen k <? WPA_KCK_MAX_LEN) then e <| PmksaCache.kck := k |> else e
             | None => e
             end in
    let e := e <| pmkid := match id with
                           | Some id => id
                           | None => if akmp =? WPA_KEY_MGMT_IEEE8021X_SUITE_B_192 then rsn_pmkid_suite_b_192 e.(pmkid)
                                     else if wpa_key_mgmt_suite_b akmp then rsn_pmkid_suite_b e.(pmkid)
                                     else rsn_pmkid pmk aa spa akmp
                           end |> in
    let e := e <| expiration := v.(now).(Eloop.sec) +
                    (if 0 <? session_timeout then session_timeout else dot11RSNAConfigPMKLifetime) |> in
    let e := e <| PmksaCache.akmp := akmp |> <| PmksaCache.spa := spa |> in
    let e := pmksa_cache_from_eapol_data v e eapol in
    (v.(a_entry), c <| heap := <[v.(a_entry) := e]> c.(heap) |>).

(** Whether the address asked for matches; NULL matches any. *)
Definition matches_opt (want : option (list Z)) (have : list Z) : bool :=
  match want with None => true | Some w => bool_decide (have = w) end.

(** [for (entry = first; entry; entry = entry->next) if (...) return entry;] *)
Fixpoint search (k : link) (f : rsn_pmksa_cache_entry -> bool) (fuel : nat) (p : Z) c : cres Z :=
  match fuel with
  | O => Fault
  | S fuel =>
      if p =? NULL then Ok NULL
      else (e <-- deref c p ;; if f e then Ok p else search k f fuel (follow k e) c)%c
  end.

Definition pmksa_cache_auth_get c (addr id : option (list Z)) : cres Z :=
  match id with
  | Some i => search Hnext (fun e => matches_opt addr e.(spa) && bool_decide (e.(pmkid) = i)) (passes c)
                (bucket c (PMKID_HASH i)) c
  | None => search Next (fun e => matches_opt addr e.(spa)) (passes c) c.(pmksa) c
  end.

(** What an entry's PMKID would be at the authenticator [aa]; [stack] is what
    [new_pmkid] holds when nothing writes it. *)
Definition okc_pmkid (aa spa stack : list Z) (e : rsn_pmksa_cache_entry) : list Z :=
  if wpa_key_mgmt_sae e.(akmp) || wpa_key_mgmt_fils e.(akmp) then e.(pmkid)
  else if (e.(akmp) =? WPA_KEY_MGMT_IEEE8021X_SUITE_B_192) && (0 <? zlen e.(kck)) then rsn_pmkid_suite_b_192 stack
  else if wpa_key_mgmt_suite_b e.(akmp) && (0 <? zlen e.(kck)) then rsn_pmkid_suite_b stack
  else rsn_pmkid e.(pmk) aa spa e.(akmp).

Definition pmksa_cache_get_okc c (aa addr id stack : list Z) : cres Z :=
  search Next (fun e => bool_decide (e.(spa) = addr) && bool_decide (okc_pmkid aa addr stack e = id))
    (passes c) c.(pmksa) c.

Definition pmksa_cache_auth_add_entry (v : env) c (entry : Z) : cres (Z * rsn_pmksa_cache) :=
  if entry =? NULL then Ok (-1, c)
  else
    (e <-- deref c entry ;;
     pos <-- pmksa_cache_auth_get c (Some e.(spa)) None ;;
     c <-- (if negb (pos =? NULL) then pmksa_cache_free_entry c pos else Ok c) ;;
     c <-- (if (pmksa_cache_max_entries <=? c.(pmksa_count)) && negb (c.(pmksa) =? NULL)
            then pmksa_cache_free_entry c c.(pmksa) else Ok c) ;;
     c <-- pmksa_cache_link_entry v c entry ;;
     Ok (0, c))%c.

Definition pmksa_cache_auth_add (v : env) c (pmk : list Z) (id kck : option (list Z)) (aa spa : list Z)
    (session_timeout : Z) (eapol : option eapol_data) (akmp : Z) : cres (Z * rsn_pmksa_cache) :=
  (let '(entry, c) := pmksa_cache_auth_create_entry v c pmk id kck aa spa session_timeout eapol akmp in
   r <-- pmksa_cache_auth_add_entry v c entry ;;
   Ok (if fst r <? 0 then NULL else entry, snd r))%c.

(** [old_entry] may belong to the cache of another interface. *)
Definition okc_entry (v : env) (old : rsn_pmksa_cache_entry) (id : list Z) : rsn_pmksa_cache_entry :=
  mkEntry NULL NULL id old.(pmk) [] old.(expiration) old.(akmp) old.(spa)
    (if v.(a_identity) then old.(identity) else None) (if v.(a_cui) then old.(cui) else None)
    (radius_copy_class [] old.(radius_class) v.(a_class)) old.(eap_type_authsrv)
    (if v.(a_vlan) then old.(vlan_desc) else None) 1 0.
Definition pmksa_cache_add_okc (v : env) c (old : rsn_pmksa_cache_entry) (id : list Z) : cres (Z * rsn_pmksa_cache) :=
  if v.(a_entry) =? NULL then Ok (NULL, c)
  else
    (let c := c <| heap := <[v.(a_entry) := okc_entry v old id]> c.(heap) |> in
     c <-- pmksa_cache_link_entry v c v.(a_entry) ;;
     Ok (v.(a_entry), c))%c.

(** The entries are freed without a call of [free_cb]. *)
Fixpoint deinit_loop (fuel : nat) (p : Z) c : cres rsn_pmksa_cache :=
  match fuel with
  | O => Fault
  | S fuel =>
      if p =? NULL then Ok c
      else (e <-- deref c p ;; deinit_loop fuel e.(next) (c <| heap := delete p c.(heap) |>))%c
  end.
Definition pmksa_cache_auth_deinit c : cres rsn_pmksa_cache :=
  (c <-- deinit_loop (passes c) c.(pmksa) c ;;
   Ok (mkCache c.(heap) (replicate (Z.to_nat PMKID_HASH_SIZE) NULL) NULL 0 c.(freed)
         (fst (eloop_cancel_timeout expire_cb self NULL c.(loop)))))%c.

Definition pmksa_cache_auth_init (l : eloop_data) : rsn_pmksa_cache :=
  mkCache ∅ (replicate (Z.to_nat PMKID_HASH_SIZE) NULL) NULL 0 [] l.

(** *** RADIUS Disconnect-Request *)

Record radius_das_attrs := mkDas {
  sta_addr : option (list Z); user_name : option (list Z); acct_session_id : option (list Z);
  d_multi_session_id : option (list Z); d_cui : option (list Z)
}.

(** [%016llX] *)
Definition hex_digit (d : Z) : Z := if d <? 10 then 0x30 + d else 0x41 + (d - 10).
Definition hex16 (x : Z) : list Z := map (fun i => hex_digit (Z.land (Z.shiftr x (4 * (15 - Z.of_nat i))) 15)) (seq 0 16).

(** One attribute: [None] when it is there and differs. *)
Definition das_check (here : bool) (equal : bool) (m : Z) : option Z :=
  if here then if equal then Some (m + 1) else None else Some m.
Definition das_attr_match (e : rsn_pmksa_cache_entry) (attr : radius_das_attrs) : Z :=
  let here {A} (o : option A) := bool_decide (is_Some o) in
  default 0
    (m ← das_check (here attr.(sta_addr)) (bool_decide (attr.(sta_addr) = Some e.(spa))) 0;
     m ← das_check (here attr.(d_multi_session_id))
           (bool_decide (attr.(d_multi_session_id) = Some (hex16 e.(acct_multi_session_id)))) m;
     m ← das_check (here attr.(d_cui)) (bool_decide (attr.(d_cui) = e.(cui))) m;
     das_check (here attr.(user_name)) (bool_decide (attr.(user_name) = e.(identity))) m).

Fixpoint das_loop (fuel : nat) (p : Z) (attr : radius_das_attrs) (found : Z) c : cres (Z * rsn_pmksa_cache) :=
  match fuel with
  | O => Fault
  | S fuel =>
      if p =? NULL then Ok (found, c)
      else
        (e <-- deref c p ;;
         if negb (das_attr_match e attr =? 0) then
           c <-- pmksa_cache_free_entry c p ;; das_loop fuel e.(next) attr (found + 1) c
         else das_loop fuel e.(next) attr found c)%c
  end.
Definition pmksa_cache_auth_radius_das_disconnect c (attr : radius_das_attrs) : cres (Z * rsn_pmksa_cache) :=
  match attr.(acct_session_id) with
  | Some _ => Ok (-1, c)
  | None =>
      (r <-- das_loop (passes c) c.(pmksa) attr 0 c ;;
       Ok (if negb (fst r =? 0) then 0 else -1, snd r))%c
  end.

End operations.

(** ** Chains of pointers *)

(** Following [f] from [p] visits [l] and ends at NULL. *)
Fixpoint chain (f : Z -> option Z) (p : Z) (l : list Z) : Prop :=
  match l with
  | [] => p = NULL
  | a :: l => p = a /\ a <> NULL /\ exists n, f a = Some n /\ chain f n l
  end.

Lemma chain_frame f g p l : (forall a, a ∈ l -> g a = f a) -> chain f p l -> chain g p l.
Proof.
  revert p. induction l as [|a l IH]; intros p Hg; [done|]. intros (-> & Ha & n & Hn & Hc).
  split_and!; [done|done|]. exists n. rewrite Hg by set_solver. split; [done|]. apply IH; [set_solver|done].
Qed.

Lemma chain_det f p l k : chain f p l -> chain f p k -> l = k.
Proof.
  revert p k. induction l as [|a l IH]; intros p [|b k]; cbn [chain];
    [done|intros -> (<- & H & _); done|intros (-> & H & _) ->; done|].
  intros (-> & Ha & n & Hn & Hl) (-> & Hb & m & Hm & Hk). f_equal. apply (IH n); [done|congruence].
Qed.

Lemma chain_app f p l k : chain f p (l ++ k) <-> exists q, (forall r, chain f q r -> chain f p (l ++ r)) /\ chain f q k.
Proof.
  revert p. induction l as [|a l IH]; intros p; cbn [app chain].
  - split; [intros H; by exists p|]. intros (q & Hq & Hk). by apply Hq.
  - split.
    + intros (-> & Ha & n & Hn & Hc). apply IH in Hc as (q & Hq & Hk). exists q. split; [|done].
      intros r Hr. split_and!; [done|done|]. exists n. auto.
    + intros (q & Hq & Hk). by apply Hq.
Qed.

Lemma chain_lookup f p l a : chain f p l -> a ∈ l -> a <> NULL /\ is_Some (f a).
Proof.
  revert p. induction l as [|b l IH]; intros p; [set_solver|]. intros (-> & Hb & n & Hn & Hc).
  rewrite elem_of_cons. intros [->|Ha]; [by eauto|by apply (IH n)].
Qed.

Lemma chain_suffix f p l k : chain f p (l ++ k) -> exists q, chain f q k.
Proof. rewrite chain_app. intros (q & _ & Hq). eauto. Qed.

(** A pointer met twice would be met forever. *)
Lemma chain_nodup f p l : chain f p l -> NoDup l.
Proof.
  revert p. induction l as [|a l IH]; intros p; [constructor|].
  intros (-> & Ha & n & Hn & Hc). constructor; [|by apply (IH n)].
  intros Hin. apply list_elem_of_split in Hin as (l1 & l2 & ->).
  destruct (chain_suffix _ _ _ _ Hc) as [q Hq]. pose proof Hq as (-> & _ & _ & _ & _).
  assert (Hl : chain f a (a :: l1 ++ a :: l2)) by (cbn [chain]; eauto).
  pose proof (chain_det _ _ _ _ Hq Hl) as Heq. apply (f_equal length) in Heq.
  cbn [length] in Heq. rewrite length_app in Heq. cbn [length] in Heq. lia.
Qed.

Lemma chain_next f p l a k : chain f p (l ++ a :: k) -> exists n, f a = Some n /\ chain f n k.
Proof. intros H. apply chain_suffix in H as [q (-> & _ & n & Hn & Hk)]. eauto. Qed.

(** Unlinking [a] behind [q], and linking it there. *)
Lemma chain_unlink f g p l q a k n :
  chain f p (l ++ q :: a :: k) -> f a = Some n -> g q = Some n -> (forall x, x <> q -> g x = f x) ->
  chain g p (l ++ q :: k).
Proof.
  intros H Ha Hq Hg. pose proof (chain_nodup _ _ _ H) as Hnd.
  apply NoDup_app in Hnd as (_ & Hl & Hnd). apply NoDup_cons in Hnd as [Hqk _].
  revert p H. induction l as [|b l IH]; intros p; cbn [app chain].
  - intros (-> & Hq0 & m & Hm & -> & Ha0 & n' & Hn' & Hk). simplify_eq.
    split_and!; [done|done|]. exists n. split; [done|].
    apply (chain_frame f); [|done]. intros x Hx. apply Hg. set_solver.
  - intros (-> & Hb & m & Hm & Hc). split_and!; [done|done|]. exists m. rewrite Hg by set_solver.
    split; [done|]. apply IH; [set_solver|done].
Qed.

Lemma chain_insert f g p l q a k n :
  chain f p (l ++ q :: k) -> a ∉ l ++ q :: k -> a <> NULL -> f q = Some n -> g a = Some n -> g q = Some a ->
  (forall x, x <> q -> x <> a -> g x = f x) -> chain g p (l ++ q :: a :: k).
Proof.
  intros H Hin Ha Hfq Hga Hgq Hg. pose proof (chain_nodup _ _ _ H) as Hnd.
  apply NoDup_app in Hnd as (_ & Hl & Hnd). apply NoDup_cons in Hnd as [Hqk _].
  revert p H. induction l as [|b l IH]; intros p; cbn [app chain].
  - intros (-> & Hq0 & m & Hm & Hk). simplify_eq. split_and!; [done|done|]. exists a. split_and!; [done|done|done|].
    exists n. split; [done|]. apply (chain_frame f); [|done]. intros x Hx. apply Hg; set_solver.
  - intros (-> & Hb & m & Hm & Hc). split_and!; [done|done|]. exists m. rewrite Hg by set_solver.
    split; [done|]. apply IH; [set_solver|set_solver|done].
Qed.

(** ** What a cache represents *)

Definition step (k : link) (h : gmap Z rsn_pmksa_cache_entry) (a : Z) : option Z := follow k <$> h !! a.

(** An entry without its links. *)
Definition strip (e : rsn_pmksa_cache_entry) : rsn_pmksa_cache_entry := e <| next := NULL |> <| hnext := NULL |>.
Definition info (h : gmap Z rsn_pmksa_cache_entry) (a : Z) : option rsn_pmksa_cache_entry := strip <$> h !! a.

(** The cache's contents: its entries and where they are, in the order of
    their expiration. *)
Implicit Types A : list (Z * rsn_pmksa_cache_entry).

Definition no_later (x y : Z * rsn_pmksa_cache_entry) : Prop := x.2.(expiration) <= y.2.(expiration).
#[export] Instance no_later_trans : Transitive no_later.
Proof. unfold no_later. intros x y z. lia. Qed.

Definition in_bucket A (i a : Z) : Prop := exists e, (a, e) ∈ A /\ PMKID_HASH e.(pmkid) = i.

Record represents c A : Prop := mkRep {
  rep_chain : chain (step Next c.(heap)) c.(pmksa) A.*1;
  rep_length : zlen c.(buckets) = PMKID_HASH_SIZE;
  rep_bucket i : 0 <= i < PMKID_HASH_SIZE ->
    exists b, chain (step Hnext c.(heap)) (bucket c i) b /\ forall a, a ∈ b <-> in_bucket A i a;
  rep_info a e : (a, e) ∈ A -> info c.(heap) a = Some e;
  rep_sorted : StronglySorted no_later A;
  rep_count : c.(pmksa_count) = zlen A
}.

(** And nothing else is in the heap. *)
Definition no_leak c A : Prop := forall a, is_Some (c.(heap) !! a) -> a ∈ A.*1.

Definition other (k : link) : link := match k with Next => Hnext | Hnext => Next end.

Lemma follow_relink k p e : follow k (relink k p e) = p.
Proof. by destruct k. Qed.
Lemma follow_relink_other k p e : follow (other k) (relink k p e) = follow (other k) e.
Proof. by destruct k. Qed.
Lemma strip_relink k p e : strip (relink k p e) = strip e.
Proof. by destruct k. Qed.
Lemma expiration_strip e : (strip e).(expiration) = e.(expiration).
Proof. done. Qed.

(** A heap in which only links of kind [k], of entries of [l], differ. *)
Definition touched (k : link) (l : list Z) (h h' : gmap Z rsn_pmksa_cache_entry) : Prop :=
  forall x, info h' x = info h x /\ step (other k) h' x = step (other k) h x /\ (x ∉ l -> h' !! x = h !! x).

Lemma touched_refl k l h : touched k l h h.
Proof. done. Qed.

Lemma touched_relink k l h q e p : h !! q = Some e -> q ∈ l -> touched k l h (<[q := relink k p e]> h).
Proof.
  intros Hq Hl x. unfold info, step. destruct (decide (x = q)) as [->|Hx].
  - rewrite lookup_insert_eq, Hq. cbn [fmap option_fmap option_map].
    rewrite strip_relink, follow_relink_other. split_and!; [done|done|done].
  - by rewrite lookup_insert_ne by done.
Qed.

Lemma step_relink k h q e p : step k (<[q := relink k p e]> h) q = Some p.
Proof. unfold step. rewrite lookup_insert_eq. cbn [fmap option_fmap option_map]. by rewrite follow_relink. Qed.

Lemma step_insert_ne k h q e x : x <> q -> step k (<[q := e]> h) x = step k h x.
Proof. intros. unfold step. by rewrite lookup_insert_ne. Qed.

Lemma is_Some_step k h a : is_Some (step k h a) <-> is_Some (h !! a).
Proof. unfold step. apply fmap_is_Some. Qed.

Lemma length_le_size (h : gmap Z rsn_pmksa_cache_entry) l : NoDup l -> (forall a, a ∈ l -> is_Some (h !! a)) -> (length l <= size h)%nat.
Proof.
  intros Hnd Hin. rewrite <- (size_list_to_set (C := gset Z) l) by done. rewrite <- size_dom.
  apply subseteq_size. intros a Ha. apply elem_of_dom, Hin. set_solver.
Qed.

Lemma chain_passes k h p l : chain (step k h) p l -> (length l < S (size h))%nat.
Proof.
  intros H. pose proof (length_le_size h l (chain_nodup _ _ _ H)) as Hl.
  enough (forall a, a ∈ l -> is_Some (h !! a)) by (specialize (Hl ltac:(done)); lia).
  intros a Ha. apply (is_Some_step k). eapply chain_lookup; done.
Qed.

Lemma same_heap c : c <| heap := c.(heap) |> = c.
Proof. by destruct c. Qed.

(** *** Unlinking *)

Lemma filter_ne_notin (a : Z) (l : list Z) : a ∉ l -> filter (.≠ a) l = l.
Proof.
  induction l as [|b l IH]; [done|]. intros H. rewrite filter_cons_True by set_solver. f_equal. apply IH. set_solver.
Qed.

Fixpoint last_or (d : Z) (l : list Z) : Z := match l with [] => d | b :: l => last_or b l end.

Lemma last_or_snoc d l q : last_or d (l ++ [q]) = q.
Proof. revert d. by induction l; intros d; cbn. Qed.

Lemma unlink_behind k sf fuel a pos prev l1 l2 c :
  chain (step k c.(heap)) pos (l1 ++ a :: l2) -> a ∉ l1 -> (length l1 < fuel)%nat ->
  exists n, step k c.(heap) a = Some n /\
    unlink k sf fuel a pos prev c =
    if negb (last_or prev l1 =? NULL) then assign c (last_or prev l1) (relink k n) else Ok (sf n c).
Proof.
  revert fuel pos prev. induction l1 as [|b l1 IH]; intros fuel pos prev H Hin Hf;
    (destruct fuel as [|fuel]; [cbn in Hf; lia|]); cbn [app] in H; destruct H as (-> & Ha & n & Hn & Hc).
  - exists n. split; [done|]. cbn [unlink last_or]. destruct (Z.eqb_spec a NULL); [done|]. rewrite Z.eqb_refl.
    unfold step in Hn. unfold deref. destruct (heap c !! a) as [e|]; [|done]. cbn in Hn. by injection Hn as <-.
  - cbn [unlink last_or]. destruct (Z.eqb_spec b NULL); [done|].
    destruct (Z.eqb_spec b a) as [->|_]; [set_solver|].
    unfold step in Hn. unfold deref at 1. destruct (heap c !! b) as [e|] eqn:Hb; [|done]. cbn in Hn.
    injection Hn as <-. cbn [cbind]. apply IH; [done|set_solver|cbn in Hf; lia].
Qed.

Lemma unlink_ok k sf fuel a pos l c :
  chain (step k c.(heap)) pos l -> a ∈ l -> (length l < fuel)%nat ->
  (forall h, sf pos (c <| heap := h |>) = c <| heap := h |>) ->
  exists h p, unlink k sf fuel a pos NULL c = Ok (sf p (c <| heap := h |>)) /\
    chain (step k h) p (filter (.≠ a) l) /\ touched k l c.(heap) h.
Proof.
  intros H Hin Hf Hsf. pose proof (chain_nodup _ _ _ H) as Hnd.
  apply list_elem_of_split in Hin as (l1 & l2 & ->).
  apply NoDup_app in Hnd as Hnd'. destruct Hnd' as (_ & Hl1 & Hl2). apply NoDup_cons in Hl2 as [Hl2 _].
  assert (Hal1 : a ∉ l1) by (intros Ha; apply (Hl1 a Ha); set_solver).
  assert (Hkeep : filter (.≠ a) (l1 ++ a :: l2) = l1 ++ l2).
  { rewrite filter_app, filter_cons_False by naive_solver.
    by rewrite !filter_ne_notin. }
  rewrite Hkeep. destruct (unlink_behind k sf fuel a pos NULL l1 l2 c) as (n & Hn & ->); [done|done|rewrite length_app in Hf; lia|].
  destruct l1 as [|q l1 _] using rev_ind.
  - cbn [last_or]. exists c.(heap), n. rewrite same_heap. split_and!; [done| |apply touched_refl].
    cbn in H. destruct H as (_ & _ & m & Hm & Hc). cbn [app]. congruence.
  - rewrite last_or_snoc. rewrite <- app_assoc in H |- *. cbn [app] in H |- *.
    destruct (chain_lookup _ _ _ q H) as [Hq0 [m Hm]]; [set_solver|].
    destruct (Z.eqb_spec q NULL); [done|]. unfold step in Hm. unfold assign, deref.
    destruct (heap c !! q) as [e|] eqn:Hq; [|done]. cbn [negb cbind].
    exists (<[q := relink k n e]> c.(heap)), pos. rewrite Hsf. split_and!; [done| |apply touched_relink; set_solver].
    eapply chain_unlink; [exact H|exact Hn|by rewrite step_relink|]. intros x Hx. by apply step_insert_ne.
Qed.

(** *** Freeing *)

Definition sfree (a : Z) A : list (Z * rsn_pmksa_cache_entry) := filter (fun x => x.1 <> a) A.

Lemma sfree_fst a A : (sfree a A).*1 = filter (.≠ a) A.*1.
Proof.
  unfold sfree. induction A as [|[b e] A IH]; [done|]. change (((b, e) :: A).*1) with (b :: A.*1).
  destruct (decide (b = a)) as [->|Hb].
  - rewrite !filter_cons_False by (cbn; tauto). exact IH.
  - rewrite !filter_cons_True by done. cbn [fmap list_fmap fst]. f_equal. exact IH.
Qed.

Lemma elem_of_sfree a A b e : (b, e) ∈ sfree a A <-> b <> a /\ (b, e) ∈ A.
Proof. unfold sfree. rewrite list_elem_of_filter. done. Qed.

Lemma StronglySorted_filter {B} (R : B -> B -> Prop) (P : B -> Prop) `{!forall x, Decision (P x)} (l : list B) :
  StronglySorted R l -> StronglySorted R (filter P l).
Proof.
  induction 1 as [|x l Hs IH Hx]; [constructor|]. rewrite filter_cons. destruct (decide (P x)); [|done].
  constructor; [done|]. rewrite Forall_forall in *. intros y Hy. apply Hx. by apply list_elem_of_filter in Hy as [_ Hy].
Qed.

Lemma hash_range id : 0 <= PMKID_HASH id < PMKID_HASH_SIZE.
Proof.
  unfold PMKID_HASH, PMKID_HASH_SIZE. change 0x7f with (Z.ones 7). rewrite land_mask by lia. dlia.
Qed.

Lemma bucket_set i j p c :
  zlen c.(buckets) = PMKID_HASH_SIZE -> 0 <= i < PMKID_HASH_SIZE -> 0 <= j < PMKID_HASH_SIZE ->
  bucket (set_bucket i p c) j = if i =? j then p else bucket c j.
Proof.
  intros Hl Hi Hj. unfold bucket, set_bucket. cbn [buckets set_field]. rewrite !at_lookup.
  destruct (Z.eqb_spec i j) as [->|Hij].
  - change (buckets (c <| buckets := ?l |>)) with l. rewrite list_lookup_insert_eq by lia. done.
  - change (buckets (c <| buckets := ?l |>)) with l. rewrite list_lookup_insert_ne by lia. done.
Qed.

Lemma set_bucket_same i c h :
  zlen c.(buckets) = PMKID_HASH_SIZE -> 0 <= i < PMKID_HASH_SIZE ->
  set_bucket i (bucket c i) (c <| heap := h |>) = c <| heap := h |>.
Proof.
  intros Hl Hi. unfold set_bucket, bucket. destruct c as [h0 bs q n fr lo]. cbn in *.
  unfold set_field. cbn. f_equal. rewrite at_lookup. destruct (bs !! Z.to_nat i) as [x|] eqn:E.
  - by rewrite list_insert_id.
  - apply lookup_ge_None in E. lia.
Qed.

Lemma rep_nodup c A : represents c A -> NoDup A.*1.
Proof. intros H. eapply chain_nodup, H. Qed.

Lemma in_fst A (a : Z) : a ∈ A.*1 -> exists e, (a, e) ∈ A.
Proof. intros H. apply list_elem_of_fmap in H as ([b e] & -> & H). eauto. Qed.

Lemma fst_in A (a : Z) e : (a, e) ∈ A -> a ∈ A.*1.
Proof. intros H. by apply (list_elem_of_fmap_2 fst) in H. Qed.

Lemma info_lookup (h : gmap Z rsn_pmksa_cache_entry) a e :
  info h a = Some e -> exists e', h !! a = Some e' /\ strip e' = e.
Proof. unfold info. intros H. apply fmap_Some in H as (e' & He & ->). eauto. Qed.

Lemma NoDup_fst_inj A (a : Z) x y : NoDup A.*1 -> (a, x) ∈ A -> (a, y) ∈ A -> x = y.
Proof.
  intros Hnd Hx Hy. apply list_elem_of_lookup in Hx as [i Hi]. apply list_elem_of_lookup in Hy as [j Hj].
  assert (i = j) as ->; [|congruence].
  apply (NoDup_lookup _ i j a Hnd); by rewrite list_lookup_fmap, ?Hi, ?Hj.
Qed.

(** The entry of a pointer of the cache. *)
Lemma rep_entry c A a e : represents c A -> (a, e) ∈ A -> exists e', c.(heap) !! a = Some e' /\ strip e' = e.
Proof.
  intros Hr Ha. by apply info_lookup, (rep_info _ _ Hr).
Qed.

Lemma touched_chain k l k' f h h' p m :
  touched k l h h' -> chain (step f h) p m -> f = other k \/ (forall a, a ∈ m -> a ∉ l) /\ f = k' -> chain (step f h') p m.
Proof.
  intros Ht Hc [-> | [Hm ->]]; (eapply chain_frame; [|exact Hc]); intros a Ha.
  - apply Ht.
  - unfold step. by rewrite (proj2 (proj2 (Ht a))) by auto.
Qed.

Lemma delete_chain k h a p l : a ∉ l -> chain (step k h) p l -> chain (step k (delete a h)) p l.
Proof.
  intros Ha. apply chain_frame. intros x Hx. unfold step. rewrite lookup_delete_ne; [done|set_solver].
Qed.

Lemma in_bucket_sfree A a i x : in_bucket (sfree a A) i x <-> in_bucket A i x /\ x <> a.
Proof. unfold in_bucket. setoid_rewrite elem_of_sfree. naive_solver. Qed.

Lemma sfree_length A a : NoDup A.*1 -> a ∈ A.*1 -> S (length (sfree a A)) = length A.
Proof.
  rewrite <- (length_fmap fst (sfree a A)), sfree_fst, <- (length_fmap fst A). generalize A.*1. clear A.
  intros l Hnd Hin. apply list_elem_of_split in Hin as (l1 & l2 & ->).
  apply NoDup_app in Hnd as (_ & Hl1 & Hl2). apply NoDup_cons in Hl2 as [Hl2 _].
  rewrite filter_app, filter_cons_False by naive_solver. rewrite !filter_ne_notin; [|done|].
  - rewrite !length_app. cbn [length]. lia.
  - intros Ha. apply (Hl1 a Ha). set_solver.
Qed.

Lemma free_entry_ok c A a :
  represents c A -> a ∈ A.*1 ->
  exists c', pmksa_cache_free_entry c a = Ok c' /\ represents c' (sfree a A) /\ c'.(heap) !! a = None /\
    (forall x, x <> a -> info c'.(heap) x = info c.(heap) x) /\ c'.(freed) = c.(freed) ++ [a] /\ c'.(loop) = c.(loop).
Proof.
  intros Hr Ha. destruct (in_fst _ _ Ha) as [e He]. destruct (rep_entry _ _ _ _ Hr He) as (e' & He' & Hs).
  set (i := PMKID_HASH e.(pmkid)). pose proof (hash_range e.(pmkid)) as Hi. fold i in Hi.
  destruct (rep_bucket _ _ Hr i Hi) as (b & Hb & Hbin).
  assert (Hab : a ∈ b) by (apply Hbin; by exists e).
  set (c0 := c <| pmksa_count := c.(pmksa_count) - 1 |> <| freed := c.(freed) ++ [a] |>).
  destruct (unlink_ok Hnext (set_bucket i) (passes c0) a (bucket c0 i) b c0) as (h1 & p1 & E1 & Hc1 & Ht1);
    [exact Hb|exact Hab|eapply chain_passes, Hb|intros h; apply (set_bucket_same i c0 h (rep_length _ _ Hr) Hi)|].
  set (c1 := set_bucket i p1 (c0 <| heap := h1 |>)) in *.
  assert (Hn1 : chain (step Next h1) c.(pmksa) A.*1)
    by (apply (touched_chain Hnext b Hnext _ c.(heap)); [exact Ht1|apply Hr|by left]).
  destruct (unlink_ok Next set_pmksa (passes c1) a c.(pmksa) A.*1 c1) as (h2 & p2 & E2 & Hc2 & Ht2);
    [exact Hn1|exact Ha|eapply chain_passes, Hn1|done|].
  exists (set_pmksa p2 (c1 <| heap := delete a h2 |>)). split_and!; [| | | |done|done].
  - unfold pmksa_cache_free_entry. fold c0. unfold deref. change (heap c0) with (heap c). rewrite He'. cbn [cbind].
    replace (pmkid e') with (pmkid e) by (by rewrite <- Hs). fold i. rewrite E1. cbn [cbind].
    change (pmksa c1) with (pmksa c). rewrite E2. done.
  - split.
    + rewrite sfree_fst. apply delete_chain; [rewrite list_elem_of_filter; naive_solver|exact Hc2].
    + change (buckets _) with (buckets c1). unfold c1, set_bucket. change (buckets (_ <| buckets := ?l |>)) with l.
      rewrite length_insert. apply Hr.
    + intros j Hj. change (bucket _ j) with (bucket c1 j). unfold c1. rewrite bucket_set; [|apply Hr|done|done].
      change (heap _) with (delete a h2). setoid_rewrite in_bucket_sfree.
      destruct (Z.eqb_spec i j) as [<-|Hij].
      * exists (filter (.≠ a) b). split; [|intros x; rewrite list_elem_of_filter, Hbin; naive_solver].
        apply delete_chain; [rewrite list_elem_of_filter; naive_solver|].
        apply (touched_chain Next A.*1 Next _ h1); [exact Ht2|exact Hc1|by left].
      * destruct (rep_bucket _ _ Hr j Hj) as (bj & Hbj & Hjin).
        assert (Haj : forall x, x ∈ bj -> x ∉ b).
        { intros x Hx Hxb. apply Hjin in Hx as (ex & Hx & Hh). apply Hbin in Hxb as (ex' & Hx' & Hh').
          assert (ex = ex') as -> by (apply (rep_info _ _ Hr) in Hx, Hx'; congruence). congruence. }
        assert (Haj' : a ∉ bj) by (intros H; by apply (Haj a)).
        exists bj. split; [|intros x; rewrite Hjin; split; [|tauto]; intros H; split; [done|intros ->; apply Haj', Hjin, H]].
        apply delete_chain; [done|]. apply (touched_chain Next A.*1 Next _ h1); [exact Ht2| |by left].
        apply (touched_chain Hnext b Hnext _ c.(heap)); [exact Ht1|exact Hbj|by right].
    + intros x ex Hx. apply elem_of_sfree in Hx as [Hxa Hx]. change (heap _) with (delete a h2).
      unfold info. rewrite lookup_delete_ne by done. change (info h2 x = Some ex).
      rewrite (proj1 (Ht2 x)). change (heap c1) with h1. rewrite (proj1 (Ht1 x)). by apply Hr.
    + apply StronglySorted_filter, Hr.
    + change (pmksa_count _) with (pmksa_count c - 1). rewrite (rep_count _ _ Hr).
      pose proof (sfree_length A a (rep_nodup _ _ Hr) Ha). lia.
  - change (heap _) with (delete a h2). by rewrite lookup_delete_eq.
  - intros x Hx. change (heap (set_pmksa _ _)) with (delete a h2). unfold info. rewrite lookup_delete_ne by done.
    change (info h2 x = info c.(heap) x). rewrite (proj1 (Ht2 x)). exact (proj1 (Ht1 x)).
Qed.

(** *** Linking *)

Fixpoint sinsert (x : Z * rsn_pmksa_cache_entry) A : list (Z * rsn_pmksa_cache_entry) :=
  match A with
  | [] => [x]
  | y :: B => if x.2.(expiration) <? y.2.(expiration) then x :: A else y :: sinsert x B
  end.

Lemma sinsert_split x A :
  exists B C, A = B ++ C /\ sinsert x A = B ++ x :: C /\ Forall (fun y => y.2.(expiration) <= x.2.(expiration)) B /\
    match C with [] => True | y :: _ => x.2.(expiration) < y.2.(expiration) end.
Proof.
  induction A as [|y A (B & C & -> & IH & HB & HC)]; [by exists [], []|]. cbn [sinsert].
  destruct (Z.ltb_spec x.2.(expiration) y.2.(expiration)).
  - by exists [], (y :: B ++ C).
  - exists (y :: B), C. rewrite IH. split_and!; [done|done|by constructor|done].
Qed.

Lemma elem_of_sinsert x A y : y ∈ sinsert x A <-> y = x \/ y ∈ A.
Proof. destruct (sinsert_split x A) as (B & C & -> & -> & _). set_solver. Qed.

Lemma sinsert_fst x A a : a ∈ (sinsert x A).*1 <-> a = x.1 \/ a ∈ A.*1.
Proof.
  split.
  - intros H. apply in_fst in H as [e H]. apply elem_of_sinsert in H as [<- |H]; [by left|right; by apply fst_in in H].
  - intros [->|H].
    + destruct x as [b e]. apply (fst_in _ b e), elem_of_sinsert. by left.
    + apply in_fst in H as [e H]. apply (fst_in _ a e), elem_of_sinsert. by right.
Qed.

Lemma sinsert_length x A : length (sinsert x A) = S (length A).
Proof. destruct (sinsert_split x A) as (B & C & -> & -> & _). rewrite !length_app. cbn [length]. lia. Qed.

Lemma sinsert_sorted x A : StronglySorted no_later A -> StronglySorted no_later (sinsert x A).
Proof.
  induction 1 as [|y A Hs IH Hy]; cbn [sinsert]; [by repeat constructor|].
  destruct (Z.ltb_spec x.2.(expiration) y.2.(expiration)).
  - constructor; [by constructor|]. constructor; [unfold no_later; lia|].
    eapply Forall_impl; [exact Hy|]. unfold no_later. intros z Hz. cbn beta in Hz. lia.
  - constructor; [done|]. rewrite Forall_forall in *. intros z Hz. apply elem_of_sinsert in Hz as [->|Hz]; [|by apply Hy].
    done.
Qed.

Lemma find_prev_ok c B C p prev expires fuel :
  chain (step Next c.(heap)) p (B ++ C).*1 -> (forall a e, (a, e) ∈ B ++ C -> info c.(heap) a = Some e) ->
  Forall (fun y => y.2.(expiration) <= expires) B ->
  match C with [] => True | y :: _ => expires < y.2.(expiration) end -> (length B < fuel)%nat ->
  find_prev fuel p prev expires c = Ok (last_or prev B.*1).
Proof.
  revert p prev fuel. induction B as [|[b e] B IH]; intros p prev fuel Hc Hi HB HC Hf;
    (destruct fuel as [|fuel]; [cbn in Hf; lia|]); cbn [find_prev].
  - destruct C as [|[q e] C]; [by rewrite (proj2 (Z.eqb_eq p NULL) Hc)|].
    destruct Hc as (-> & Hq & _). cbn [fst] in *. destruct (Z.eqb_spec q NULL); [done|].
    destruct (info_lookup _ _ _ (Hi q e ltac:(set_solver))) as (e' & Hl & He).
    unfold deref. rewrite Hl. cbn [cbind].
    rewrite <- (expiration_strip e'), He. cbn in HC. by rewrite (proj2 (Z.ltb_lt _ _) HC).
  - destruct Hc as (-> & Hb & n & Hn & Hc). cbn [fst] in *. destruct (Z.eqb_spec b NULL); [done|].
    destruct (info_lookup _ _ _ (Hi b e ltac:(set_solver))) as (e' & Hl & He).
    unfold step in Hn. unfold deref. rewrite Hl in Hn |- *. cbn [cbind]. cbn in Hn. injection Hn as Hn.
    inversion_clear HB. rewrite <- (expiration_strip e'), He. cbn [snd] in *.
    destruct (Z.ltb_spec expires (expiration e)); [lia|]. rewrite Hn.
    apply (IH n b fuel); [exact Hc| |done|done|cbn in Hf; lia]. intros a ea Ha. apply Hi. set_solver.
Qed.

(** What [pmksa_cache_set_expiration] makes of the event loop. *)
Definition rearm (self expire_cb : Z) (v : env) A (l : eloop_data) : eloop_data :=
  let l := fst (eloop_cancel_timeout expire_cb self NULL l) in
  match A with
  | [] => l
  | (_, e) :: _ =>
      fst (eloop_register_timeout v.(reg_malloc) v.(now_reg)
             (u32 (Z.max 0 (s32 (e.(expiration) - v.(now_set).(Eloop.sec))) + 1)) 0 expire_cb self NULL l)
  end.

Lemma represents_loop c A l : represents c A -> represents (c <| loop := l |>) A.
Proof. intros []. by split. Qed.

Lemma represents_null c A : represents c A -> (c.(pmksa) =? NULL) = match A with [] => true | _ => false end.
Proof.
  intros Hr. pose proof (rep_chain _ _ Hr) as H. destruct A as [|[a e] A]; [by apply Z.eqb_eq|].
  destruct H as (-> & Ha & _). by apply Z.eqb_neq.
Qed.

Lemma represents_first c a e A :
  represents c ((a, e) :: A) -> c.(pmksa) = a /\ exists e', c.(heap) !! a = Some e' /\ strip e' = e.
Proof.
  intros Hr. split; [apply (rep_chain _ _ Hr)|]. apply (rep_entry c ((a, e) :: A)); [done|set_solver].
Qed.

Lemma set_expiration_ok self expire_cb v c A :
  represents c A -> pmksa_cache_set_expiration self expire_cb v c = Ok (c <| loop := rearm self expire_cb v A c.(loop) |>).
Proof.
  intros Hr. unfold pmksa_cache_set_expiration, rearm.
  set (l := fst (eloop_cancel_timeout expire_cb self NULL (loop c))).
  change (pmksa (c <| loop := l |>)) with (pmksa c). rewrite (represents_null c A Hr).
  destruct A as [|[a e] A]; [done|]. destruct (represents_first _ _ _ _ Hr) as (-> & e' & He & Hs).
  unfold deref. change (heap (c <| loop := l |>)) with (heap c). rewrite He. cbn [cbind].
  rewrite <- (expiration_strip e'), Hs. cbv zeta.
  replace (if _ <? 0 then 0 else _) with (Z.max 0 (s32 (expiration e - Eloop.sec (now_set v)))); [done|].
  destruct (Z.ltb_spec (s32 (expiration e - Eloop.sec (now_set v))) 0); lia.
Qed.

Lemma touched_trans k l h1 h2 h3 : touched k l h1 h2 -> touched k l h2 h3 -> touched k l h1 h3.
Proof.
  intros H1 H2 x. destruct (H1 x) as (A1 & A2 & A3), (H2 x) as (B1 & B2 & B3).
  split_and!; [congruence|congruence|]. intros Hx. rewrite B3, A3; done.
Qed.

Lemma last_or_in d l : l <> [] -> last_or d l ∈ l.
Proof.
  revert d. induction l as [|b l IH]; intros d Hl; [done|]. cbn [last_or]. destruct l as [|q l].
  - cbn [last_or]. set_solver.
  - apply elem_of_cons. right. by apply IH.
Qed.

Lemma link_after_ok c a e B C :
  chain (step Next c.(heap)) c.(pmksa) (B ++ C) -> c.(heap) !! a = Some e -> a <> NULL -> a ∉ B ++ C ->
  exists h p, link_after c a (last_or NULL B) = Ok (c <| heap := h |> <| pmksa := p |>) /\
    chain (step Next h) p (B ++ a :: C) /\ touched Next (a :: B) c.(heap) h.
Proof.
  intros Hc He Ha Hin. unfold link_after. destruct B as [|q B _] using rev_ind.
  - cbn [last_or app] in *. rewrite Z.eqb_refl. unfold assign, deref. rewrite He. cbn [cbind].
    exists (<[a := relink Next c.(pmksa) e]> c.(heap)), a. split_and!; [done| |apply touched_relink; set_solver].
    cbn [chain]. split_and!; [done|done|]. exists c.(pmksa). split; [apply step_relink|].
    eapply chain_frame; [|exact Hc]. intros x Hx. apply step_insert_ne. set_solver.
  - rewrite last_or_snoc. rewrite <- app_assoc in Hc, Hin |- *. cbn [app] in *.
    destruct (chain_lookup _ _ _ q Hc) as [Hq0 [m Hm]]; [set_solver|].
    destruct (Z.eqb_spec q NULL); [done|]. unfold step in Hm. unfold assign, deref.
    destruct (heap c !! q) as [eq|] eqn:Hq; [|done]. cbn in Hm. injection Hm as Hm. cbn [cbind]. rewrite He.
    cbn [cbind]. set (h1 := <[a := relink Next (next eq) e]> c.(heap)).
    change (heap (c <| heap := h1 |>)) with h1.
    assert (Haq : a <> q) by set_solver.
    assert (Hq1 : h1 !! q = Some eq) by (unfold h1; by rewrite lookup_insert_ne). rewrite Hq1. cbn [cbind].
    set (h2 := <[q := relink Next a eq]> h1). exists h2, c.(pmksa).
    assert (E : c <| heap := h2 |> = c <| heap := h1 |> <| heap := h2 |>) by done.
    split_and!; [by destruct c| |].
    + apply (chain_insert (step Next c.(heap)) _ _ _ _ _ _ (next eq)); [done|done|done| | | |].
      * unfold step. by rewrite Hq.
      * unfold h2. rewrite step_insert_ne by done. apply step_relink.
      * apply step_relink.
      * intros x Hxq Hxa. unfold h2, h1. by rewrite !step_insert_ne.
    + apply (touched_trans _ _ _ h1); apply touched_relink; try done; set_solver.
Qed.

(** Whether an entry goes to the front. *)
Definition goes_first (e : rsn_pmksa_cache_entry) A : bool :=
  match A with [] => true | (_, y) :: _ => e.(expiration) <? y.(expiration) end.

Lemma sinsert_first a e A : goes_first e A = true -> sinsert (a, e) A = (a, e) :: A.
Proof. destruct A as [|[b y] A]; [done|]. cbn [goes_first sinsert snd]. by intros ->. Qed.

Lemma split_first a e B C :
  Forall (fun y => y.2.(expiration) <= e.(expiration)) B ->
  match C with [] => True | y :: _ => e.(expiration) < y.2.(expiration) end ->
  (forall x, x ∈ (B ++ C).*1 -> x <> NULL) ->
  (last_or NULL B.*1 =? NULL) = goes_first e (B ++ C) /\ sinsert (a, e) (B ++ C) = B ++ (a, e) :: C.
Proof.
  intros HB HC Hn. split.
  - destruct B as [|[b y] B].
    + destruct C as [|[q z] C]; [done|]. cbn in HC |- *. symmetry. by apply Z.ltb_lt.
    + assert (H : last_or NULL ((b, y) :: B).*1 ∈ ((b, y) :: B).*1) by (by apply last_or_in).
      destruct (Z.eqb_spec (last_or NULL ((b, y) :: B).*1) NULL) as [H0|_].
      * exfalso. apply (Hn (last_or NULL ((b, y) :: B).*1)); [|done]. rewrite fmap_app. set_solver.
      * inversion_clear HB. cbn in *. symmetry. by apply Z.ltb_ge.
  - clear Hn. induction B as [|[b y] B IH]; cbn [app sinsert].
    + destruct C as [|[q z] C]; [done|]. cbn [sinsert snd] in *. by rewrite (proj2 (Z.ltb_lt _ _) HC).
    + inversion_clear HB. cbn [snd] in *. rewrite (proj2 (Z.ltb_ge _ _)) by done. f_equal. by apply IH.
Qed.

Lemma in_bucket_sinsert x A i a :
  in_bucket (sinsert x A) i a <-> (a = x.1 /\ PMKID_HASH x.2.(pmkid) = i) \/ in_bucket A i a.
Proof.
  unfold in_bucket. setoid_rewrite elem_of_sinsert. split.
  - intros (e & [<- |H] & He); [by left|right; eauto].
  - intros [[-> <-]|(e & H & He)]; [exists x.2; split; [left; by destruct x|done]|eauto].
Qed.

(** The two links of a new entry made, and the bucket's. *)
Lemma represents_linked c A a e h1 h2 p :
  represents c A -> info c.(heap) a = Some e -> a <> NULL -> a ∉ A.*1 ->
  chain (step Next h1) p (sinsert (a, e) A).*1 ->
  (forall x, info h1 x = info c.(heap) x /\ step Hnext h1 x = step Hnext c.(heap) x) ->
  let i := PMKID_HASH e.(pmkid) in
  touched Hnext [a] h1 h2 -> step Hnext h2 a = Some (bucket c i) ->
  represents (set_bucket i a (c <| heap := h2 |> <| pmksa := p |>) <| pmksa_count := c.(pmksa_count) + 1 |>)
    (sinsert (a, e) A).
Proof.
  intros Hr Ha Ha0 Hin Hc1 Ht1 i Ht2 Hs. pose proof (hash_range e.(pmkid)) as Hi. fold i in Hi.
  set (c1 := c <| heap := h2 |> <| pmksa := p |>).
  split.
  - apply (touched_chain Hnext [a] Hnext _ h1); [exact Ht2|exact Hc1|by left].
  - change (zlen (<[Z.to_nat i := a]> (buckets c)) = PMKID_HASH_SIZE). rewrite length_insert. apply Hr.
  - intros j Hj. change (bucket _ j) with (bucket (set_bucket i a c1) j).
    rewrite bucket_set by (apply Hr || done). change (heap _) with h2. setoid_rewrite in_bucket_sinsert.
    destruct (rep_bucket _ _ Hr j Hj) as (b & Hb & Hbin). cbn [fst snd]. fold i.
    assert (Hab : a ∉ b) by (intros H; apply Hbin in H as (ex & H & _); by apply Hin, (fst_in _ a ex)).
    assert (Hb2 : chain (step Hnext h2) (bucket c j) b).
    { apply (touched_chain Hnext [a] Hnext _ h1); [exact Ht2| |right; split; [set_solver|done]].
      eapply chain_frame; [|exact Hb]. intros x _. apply Ht1. }
    destruct (Z.eqb_spec i j) as [<-|Hij].
    + exists (a :: b). split; [cbn [chain]; eauto|]. intros x. rewrite elem_of_cons, Hbin. naive_solver.
    + exists b. split; [exact Hb2|]. intros x. rewrite Hbin. naive_solver.
  - intros x ex Hx. change (heap _) with h2. rewrite (proj1 (Ht2 x)), (proj1 (Ht1 x)).
    apply elem_of_sinsert in Hx as [[= -> ->]|Hx]; [done|by apply Hr].
  - apply sinsert_sorted, Hr.
  - change (pmksa_count c + 1 = zlen (sinsert (a, e) A)). rewrite sinsert_length, (rep_count _ _ Hr). lia.
Qed.

Lemma link_entry_ok self expire_cb v c A a e :
  represents c A -> c.(heap) !! a = Some e -> a <> NULL -> a ∉ A.*1 ->
  exists c', pmksa_cache_link_entry self expire_cb v c a = Ok c' /\ represents c' (sinsert (a, strip e) A) /\
    (forall x, info c'.(heap) x = info c.(heap) x) /\ c'.(freed) = c.(freed) /\
    c'.(loop) = if goes_first e A then rearm self expire_cb v (sinsert (a, strip e) A) c.(loop) else c.(loop).
Proof.
  intros Hr He Ha Hin. destruct (sinsert_split (a, strip e) A) as (B & C & -> & _ & HB & HC). cbn [snd] in *.
  pose proof (chain_passes _ _ _ _ (rep_chain _ _ Hr)) as Hp. rewrite length_fmap, length_app in Hp.
  destruct (split_first a (strip e) B C HB HC) as [Hfirst Hins].
  { intros x Hx. eapply chain_lookup; [apply Hr|exact Hx]. }
  pose proof (rep_chain _ _ Hr) as Hc. rewrite fmap_app in Hc, Hin.
  destruct (link_after_ok c a e B.*1 C.*1 Hc He Ha Hin) as (h1 & p & E & Hc1 & Ht1).
  assert (Hi1 : info h1 a = Some (strip e)) by (rewrite (proj1 (Ht1 a)); unfold info; by rewrite He).
  destruct (info_lookup _ _ _ Hi1) as (e1 & He1 & Hs1).
  set (c1 := c <| heap := h1 |> <| pmksa := p |>) in *. set (i := PMKID_HASH e.(pmkid)).
  set (h2 := <[a := relink Hnext (bucket c i) e1]> h1).
  assert (Ht2 : touched Hnext [a] h1 h2) by (apply touched_relink; [done|set_solver]).
  set (c2 := set_bucket i a (c <| heap := h2 |> <| pmksa := p |>) <| pmksa_count := c.(pmksa_count) + 1 |>).
  assert (Hr2 : represents c2 (sinsert (a, strip e) (B ++ C))).
  { apply (represents_linked c (B ++ C) a (strip e) h1); try done.
    - unfold info. by rewrite He.
    - by rewrite fmap_app.
    - by rewrite Hins, fmap_app.
    - intros x. split; apply Ht1.
    - apply step_relink. }
  assert (Hrun : pmksa_cache_link_entry self expire_cb v c a =
    if goes_first e (B ++ C) then pmksa_cache_set_expiration self expire_cb v c2 else Ok c2).
  { unfold pmksa_cache_link_entry. unfold deref at 1. rewrite He. cbn [cbind].
    rewrite (find_prev_ok c B C _ NULL e.(expiration) (passes c)); [|by rewrite fmap_app|apply Hr|done|done|unfold passes; lia].
    cbn [cbind]. rewrite E. cbn [cbind]. unfold assign, deref. change (heap c1) with h1. rewrite He1. cbn [cbind].
    cbv zeta. change (goes_first e (B ++ C)) with (goes_first (strip e) (B ++ C)). rewrite <- Hfirst. done. }
  rewrite Hrun. destruct (goes_first e (B ++ C)).
  - rewrite (set_expiration_ok _ _ _ _ _ Hr2). eexists. split; [done|]. split_and!; [by apply represents_loop| |done|done].
    intros x. change (info h2 x = info c.(heap) x). by rewrite (proj1 (Ht2 x)), (proj1 (Ht1 x)).
  - exists c2. split_and!; [done|done| |done|done]. intros x. change (info h2 x = info c.(heap) x). by rewrite (proj1 (Ht2 x)), (proj1 (Ht1 x)).
Qed.

(** *** Searching *)

(** The first entry of [B] that passes the test. *)
Definition sget (f : rsn_pmksa_cache_entry -> bool) (B : list (Z * rsn_pmksa_cache_entry)) : Z :=
  match List.find (fun x => f x.2) B with Some x => x.1 | None => NULL end.

Lemma search_ok k f c p B fuel :
  chain (step k c.(heap)) p B.*1 -> (forall a e, (a, e) ∈ B -> info c.(heap) a = Some e) ->
  (forall e, f (strip e) = f e) -> (length B < fuel)%nat -> search k f fuel p c = Ok (sget f B).
Proof.
  revert p fuel. induction B as [|[b e] B IH]; intros p fuel Hc Hi Hf Hl;
    (destruct fuel as [|fuel]; [cbn in Hl; lia|]); cbn [search].
  - by rewrite (proj2 (Z.eqb_eq p NULL) Hc).
  - destruct Hc as (-> & Hb & n & Hn & Hc). cbn [fst] in *. destruct (Z.eqb_spec b NULL); [done|].
    destruct (info_lookup _ _ _ (Hi b e ltac:(set_solver))) as (e' & He & Hs).
    unfold step in Hn. unfold deref. rewrite He in Hn |- *. cbn [cbind]. cbn in Hn. injection Hn as <-.
    rewrite <- (Hf e'), Hs. unfold sget. cbn [List.find snd]. destruct (f e); [done|].
    apply IH; [exact Hc| |exact Hf|cbn in Hl; lia]. intros x ex Hx. apply Hi. set_solver.
Qed.

Lemma sget_spec f B q :
  sget f B = q -> (forall a e, (a, e) ∈ B -> a <> NULL) ->
  (q = NULL /\ forall a e, (a, e) ∈ B -> f e = false) \/ (q <> NULL /\ exists e, (q, e) ∈ B /\ f e = true).
Proof.
  intros <- Hn. unfold sget. destruct (List.find _ B) as [[a e]|] eqn:E.
  - right. apply List.find_some in E as [Hin Hf]. apply list_elem_of_In in Hin. cbn in *. split; [by eapply Hn|eauto].
  - left. split; [done|]. intros a e Hin. apply list_elem_of_In in Hin. by apply (List.find_none _ _ E) in Hin.
Qed.

Lemma rep_null c A a e : represents c A -> (a, e) ∈ A -> a <> NULL.
Proof. intros Hr Hin. eapply chain_lookup; [apply Hr|by eapply fst_in]. Qed.

Lemma get_ok c A addr :
  represents c A -> pmksa_cache_auth_get c addr None = Ok (sget (fun e => matches_opt addr e.(spa)) A).
Proof.
  intros Hr. apply search_ok; [apply Hr|apply Hr|done|].
  pose proof (chain_passes _ _ _ _ (rep_chain _ _ Hr)) as H. by rewrite length_fmap in H.
Qed.

(** The entries of a bucket. *)
Lemma bucket_entries c A i :
  represents c A -> 0 <= i < PMKID_HASH_SIZE ->
  exists B, chain (step Hnext c.(heap)) (bucket c i) B.*1 /\ (length B < passes c)%nat /\
    forall a e, (a, e) ∈ B <-> (a, e) ∈ A /\ PMKID_HASH e.(pmkid) = i.
Proof.
  intros Hr Hi. destruct (rep_bucket _ _ Hr i Hi) as (b & Hb & Hbin).
  assert (Hsplit : forall l, (forall a, a ∈ l -> a ∈ b) -> exists B, B.*1 = l /\ forall a e, (a, e) ∈ B ->
    (a, e) ∈ A /\ PMKID_HASH e.(pmkid) = i).
  { induction l as [|a l IH]; intros Hl; [exists []; split; [done|set_solver]|].
    destruct IH as (B & <- & HB); [set_solver|]. destruct (proj1 (Hbin a)) as (e & He & Hh); [set_solver|].
    exists ((a, e) :: B). split; [done|]. intros x ex. rewrite elem_of_cons. intros [[= -> ->]|Hx]; [done|auto]. }
  destruct (Hsplit b) as (B & <- & HB); [done|]. exists B. split_and!; [done| |].
  - pose proof (chain_passes _ _ _ _ Hb) as H. by rewrite length_fmap in H.
  - intros a e. split; [apply HB|]. intros [Ha Hh].
    assert (Hin : a ∈ B.*1) by (apply Hbin; by exists e). apply in_fst in Hin as [e' He'].
    pose proof (proj1 (HB _ _ He')) as Ha'. apply (rep_info _ _ Hr) in Ha, Ha'. congruence.
Qed.

(** *** Freeing several *)

Lemma sfree_notin a A : a ∉ A.*1 -> sfree a A = A.
Proof.
  intros Ha. unfold sfree. induction A as [|[b e] A IH]; [done|]. change (((b, e) :: A).*1) with (b :: A.*1) in Ha.
  rewrite filter_cons_True by (cbn; set_solver). f_equal. apply IH. set_solver.
Qed.

Lemma sfree_head a e A : NoDup ((a, e) :: A).*1 -> sfree a ((a, e) :: A) = A.
Proof.
  change (((a, e) :: A).*1) with (a :: A.*1). intros H. apply NoDup_cons in H as [Ha _].
  unfold sfree. rewrite filter_cons_False by (cbn; tauto). by apply sfree_notin.
Qed.

(** Nothing but entries [D] has gone from the heap of [c] to that of [c']. *)
Definition only_gone (D : list Z) c c' : Prop :=
  (forall x, x ∉ D -> info c'.(heap) x = info c.(heap) x) /\ (forall x, x ∈ D -> c'.(heap) !! x = None).

Lemma only_gone_nil c : only_gone [] c c.
Proof. split; [done|set_solver]. Qed.

Lemma info_None h a : info h a = None <-> h !! a = None.
Proof. unfold info. apply fmap_None. Qed.

Lemma only_gone_app D E c1 c2 c3 : only_gone D c1 c2 -> only_gone E c2 c3 -> only_gone (D ++ E) c1 c3.
Proof.
  intros [H1 H2] [H3 H4]. split; intros x Hx.
  - rewrite H3, H1; [done|set_solver|set_solver].
  - destruct (decide (x ∈ E)) as [HE|HE]; [by apply H4|]. apply info_None. rewrite H3 by done.
    apply info_None, H2. set_solver.
Qed.

(** [c'] is [c] after the calls of [free_cb] for [D]. *)
Definition after_free (D : list Z) c c' : Prop :=
  only_gone D c c' /\ c'.(freed) = c.(freed) ++ D /\ c'.(loop) = c.(loop).

Lemma after_free_nil c : after_free [] c c.
Proof. split_and!; [apply only_gone_nil|by rewrite app_nil_r|done]. Qed.

Lemma after_free_app D E c1 c2 c3 : after_free D c1 c2 -> after_free E c2 c3 -> after_free (D ++ E) c1 c3.
Proof.
  intros (G1 & F1 & L1) (G2 & F2 & L2). split_and!; [by eapply only_gone_app|by rewrite F2, F1, app_assoc|congruence].
Qed.

Lemma free_ok c A a :
  represents c A -> a ∈ A.*1 ->
  exists c', pmksa_cache_free_entry c a = Ok c' /\ represents c' (sfree a A) /\ after_free [a] c c'.
Proof.
  intros Hr Ha. destruct (free_entry_ok c A a Hr Ha) as (c' & E & Hr' & Hgone & Hi & Hf & Hl).
  exists c'. split_and!; [done|done|split; [|done]]. split; intros x Hx; [apply Hi; set_solver|].
  apply list_elem_of_singleton in Hx as ->. done.
Qed.

(** Freeing the first entry. *)
Lemma free_first_ok c a e A :
  represents c ((a, e) :: A) ->
  exists c', pmksa_cache_free_entry c c.(pmksa) = Ok c' /\ represents c' A /\ after_free [a] c c'.
Proof.
  intros Hr. destruct (free_ok c ((a, e) :: A) a Hr) as (c' & E & Hr' & H); [by apply (fst_in _ a e), list_elem_of_here|].
  destruct (represents_first _ _ _ _ Hr) as [-> _]. exists c'. split_and!; [done| |done].
  rewrite sfree_head in Hr'; [done|]. by apply (rep_nodup c).
Qed.

Lemma flush_loop_ok A c fuel :
  represents c A -> (length A < fuel)%nat ->
  exists c', flush_loop fuel c = Ok c' /\ represents c' [] /\ after_free A.*1 c c'.
Proof.
  revert c fuel. induction A as [|[a e] A IH]; intros c fuel Hr Hf; (destruct fuel as [|fuel]; [cbn in Hf; lia|]);
    cbn [flush_loop]; rewrite (represents_null c _ Hr).
  - exists c. split_and!; [done|done|apply after_free_nil].
  - destruct (free_first_ok c a e A Hr) as (c1 & -> & Hr1 & H1). cbn [cbind].
    destruct (IH c1 fuel Hr1) as (c2 & -> & Hr2 & H2); [cbn in Hf; lia|].
    exists c2. split_and!; [done|done|exact (after_free_app [a] A.*1 c c1 c2 H1 H2)].
Qed.

Lemma rep_passes c A : represents c A -> (length A < passes c)%nat.
Proof. intros Hr. pose proof (chain_passes _ _ _ _ (rep_chain _ _ Hr)) as H. by rewrite length_fmap in H. Qed.

(** *** Expiry *)

Definition expired (now : Z) A : list (Z * rsn_pmksa_cache_entry) := filter (fun x => x.2.(expiration) <= now) A.
Definition unexpired (now : Z) A : list (Z * rsn_pmksa_cache_entry) := filter (fun x => now < x.2.(expiration)) A.

Lemma none_expired now A :
  Forall (fun x => now < x.2.(expiration)) A -> expired now A = [] /\ unexpired now A = A.
Proof.
  unfold expired, unexpired. induction 1 as [|x A Hx HA [IH1 IH2]]; [done|].
  rewrite (filter_cons_True (fun x => now < _)), (filter_cons_False (fun x => _ <= now)) by lia. by rewrite IH1, IH2.
Qed.

Lemma expire_loop_ok now A c fuel :
  represents c A -> (length A < fuel)%nat ->
  exists c', expire_loop fuel now c = Ok c' /\ represents c' (unexpired now A) /\ after_free (expired now A).*1 c c'.
Proof.
  revert c fuel. induction A as [|[a e] A IH]; intros c fuel Hr Hf; (destruct fuel as [|fuel]; [cbn in Hf; lia|]);
    cbn [expire_loop]; rewrite (represents_null c _ Hr).
  - exists c. split_and!; [done|done|apply after_free_nil].
  - destruct (represents_first _ _ _ _ Hr) as (Hp & e' & He & Hs).
    unfold deref. rewrite Hp, He. cbn [cbind]. rewrite <- (expiration_strip e'), Hs.
    destruct (Z.leb_spec e.(expiration) now).
    + destruct (free_first_ok c a e A Hr) as (c1 & E1 & Hr1 & H1). rewrite Hp in E1. rewrite E1. cbn [cbind].
      destruct (IH c1 fuel Hr1) as (c2 & -> & Hr2 & H2); [cbn in Hf; lia|]. exists c2. split; [done|].
      unfold expired, unexpired. rewrite (filter_cons_False (fun x => now < _)) by (cbn; lia).
      rewrite filter_cons_True by (cbn; lia). split; [done|]. exact (after_free_app [a] _ c c1 c2 H1 H2).
    + destruct (none_expired now ((a, e) :: A)) as [-> ->].
      { pose proof (rep_sorted _ _ Hr) as Hs'. inversion_clear Hs' as [|? ? _ Hall]. constructor; [done|].
        eapply Forall_impl; [exact Hall|]. unfold no_later. cbn. intros x Hx. lia. }
      exists c. split_and!; [done|done|apply after_free_nil].
Qed.

(** *** Disconnect requests *)

Definition das_match (attr : radius_das_attrs) (x : Z * rsn_pmksa_cache_entry) : Prop := das_attr_match x.2 attr <> 0.

Lemma chain_start f p l : chain f p l -> p = match l with [] => NULL | a :: _ => a end.
Proof. destruct l; [done|]. by intros [-> _]. Qed.

Lemma sfree_middle D a e R : NoDup (D ++ (a, e) :: R).*1 -> sfree a (D ++ (a, e) :: R) = D ++ R.
Proof.
  rewrite fmap_app. change (((a, e) :: R).*1) with (a :: R.*1). intros H.
  apply NoDup_app in H as (_ & HD & HR). apply NoDup_cons in HR as [HR _].
  unfold sfree. rewrite filter_app, filter_cons_False by (cbn; tauto).
  f_equal; apply sfree_notin; [|done]. intros Ha. apply (HD a Ha). set_solver.
Qed.

Lemma das_loop_ok attr R D c fuel found :
  represents c (D ++ R) -> (length R < fuel)%nat ->
  exists c', das_loop fuel (match R.*1 with [] => NULL | a :: _ => a end) attr found c =
      Ok (found + zlen (filter (das_match attr) R), c') /\
    represents c' (D ++ filter (fun x => ~ das_match attr x) R) /\ after_free (filter (das_match attr) R).*1 c c'.
Proof.
  revert D c fuel found. induction R as [|[a e] R IH]; intros D c fuel found Hr Hf;
    (destruct fuel as [|fuel]; [cbn in Hf; lia|]).
  - cbn [das_loop fmap list_fmap]. rewrite Z.eqb_refl, Z.add_0_r. exists c. split_and!; [done|done|apply after_free_nil].
  - cbn [das_loop]. change (((a, e) :: R).*1) with (a :: R.*1). cbn iota.
    assert (Hin : (a, e) ∈ D ++ (a, e) :: R) by set_solver.
    destruct (Z.eqb_spec a NULL) as [|_]; [by pose proof (rep_null _ _ _ _ Hr Hin)|].
    destruct (rep_entry _ _ _ _ Hr Hin) as (e' & He & Hs). unfold deref. rewrite He. cbn [cbind].
    assert (Hn : next e' = match R.*1 with [] => NULL | b :: _ => b end).
    { pose proof (rep_chain _ _ Hr) as Hc. rewrite fmap_app in Hc.
      destruct (chain_next _ _ D.*1 a R.*1 Hc) as (n & Hn & Hc'). unfold step in Hn. rewrite He in Hn. cbn in Hn.
      injection Hn as ->. by eapply chain_start. }
    rewrite Hn. change (das_attr_match e' attr) with (das_attr_match (strip e') attr). rewrite Hs.
    destruct (Z.eqb_spec (das_attr_match e attr) 0) as [Hm|Hm]; cbn [negb].
    + rewrite filter_cons_False by (unfold das_match; cbn; tauto).
      rewrite (filter_cons_True (fun x => ~ das_match attr x)) by (unfold das_match; cbn; tauto).
      rewrite cons_middle, app_assoc in Hr |- *. apply IH; [done|cbn in Hf; lia].
    + rewrite filter_cons_True by done.
      rewrite (filter_cons_False (fun x => ~ das_match attr x)) by (unfold das_match; cbn; tauto).
      destruct (free_ok c _ a Hr (fst_in _ _ _ Hin)) as (c1 & -> & Hr1 & H1). cbn [cbind].
      rewrite sfree_middle in Hr1 by (by apply (rep_nodup c)).
      destruct (IH D c1 fuel (found + 1) Hr1) as (c2 & -> & Hr2 & H2); [cbn in Hf; lia|].
      exists c2. split_and!; [|done|exact (after_free_app [a] _ c c1 c2 H1 H2)].
      do 2 f_equal. cbn [length]. lia.
Qed.

(** *** Adding *)

(** The cache without the first entry of a station, and with room for one. *)
Definition drop_old (spa : list Z) A : list (Z * rsn_pmksa_cache_entry) :=
  sfree (sget (fun y => matches_opt (Some spa) y.(PmksaCache.spa)) A) A.
Definition make_room A : list (Z * rsn_pmksa_cache_entry) :=
  if pmksa_cache_max_entries <=? zlen A then tail A else A.
Definition roomy (spa : list Z) A : list (Z * rsn_pmksa_cache_entry) := make_room (drop_old spa A).

Lemma represents_alloc c A a e :
  c.(heap) !! a = None -> represents c A -> represents (c <| heap := <[a := e]> c.(heap) |>) A.
Proof.
  intros Ha Hr.
  assert (Hsame : forall k x, x ∈ A.*1 -> step k (<[a := e]> c.(heap)) x = step k c.(heap) x).
  { intros k x Hx. apply step_insert_ne. intros ->. apply in_fst in Hx as [ex Hx].
    destruct (rep_entry _ _ _ _ Hr Hx) as (e' & He & _). congruence. }
  split; [| apply Hr| | |apply Hr|apply Hr].
  - eapply chain_frame; [|apply Hr]. intros x Hx. by apply Hsame.
  - intros i Hi. destruct (rep_bucket _ _ Hr i Hi) as (b & Hb & Hbin). exists b. split; [|done].
    eapply chain_frame; [|exact Hb]. intros x Hx. apply Hsame. apply Hbin in Hx as (ex & Hx & _). by eapply fst_in.
  - intros x ex Hx. change (info (<[a := e]> (heap c)) x = Some ex). unfold info. rewrite lookup_insert_ne; [by apply Hr|].
    intros ->. destruct (rep_entry _ _ _ _ Hr Hx) as (e' & He & _). congruence.
Qed.

Lemma fresh_notin c A a : represents c A -> c.(heap) !! a = None -> a ∉ A.*1.
Proof.
  intros Hr Ha Hin. apply in_fst in Hin as [e Hin]. destruct (rep_entry _ _ _ _ Hr Hin) as (e' & He & _). congruence.
Qed.

Lemma sget_in f A : (forall a e, (a, e) ∈ A -> a <> NULL) -> sget f A <> NULL -> sget f A ∈ A.*1.
Proof.
  intros Hn H. destruct (sget_spec f A _ eq_refl Hn) as [[? _]|[_ (e & He & _)]]; [done|by eapply fst_in].
Qed.

(** The two evictions of [pmksa_cache_auth_add_entry]. *)
Lemma drop_old_ok c A spa :
  represents c A ->
  let p := sget (fun y => matches_opt (Some spa) y.(PmksaCache.spa)) A in
  exists D c', (if negb (p =? NULL) then pmksa_cache_free_entry c p else Ok c) = Ok c' /\
    represents c' (drop_old spa A) /\ after_free D c c' /\
    (forall x, x ∈ A.*1 <-> x ∈ D \/ x ∈ (drop_old spa A).*1).
Proof.
  intros Hr p. unfold drop_old. fold p.
  assert (Hn : forall a e, (a, e) ∈ A -> a <> NULL) by (intros a e; apply (rep_null _ _ _ _ Hr)).
  destruct (Z.eqb_spec p NULL) as [Hp|Hp]; cbn [negb].
  - exists [], c. rewrite sfree_notin.
    + split_and!; [done|done|apply after_free_nil|set_solver].
    + intros Hin. apply in_fst in Hin as [e Hin]. by apply (Hn p e).
  - pose proof (sget_in _ _ Hn Hp) as Hpin. fold p in Hpin.
    destruct (free_ok c A p Hr Hpin) as (c1 & -> & Hr1 & Hf). exists [p], c1.
    split_and!; [done|done|done|]. intros x. rewrite sfree_fst, list_elem_of_filter, list_elem_of_singleton.
    destruct (decide (x = p)) as [->|]; tauto.
Qed.

Lemma make_room_ok c A :
  represents c A ->
  exists D c', (if (pmksa_cache_max_entries <=? c.(pmksa_count)) && negb (c.(pmksa) =? NULL)
                then pmksa_cache_free_entry c c.(pmksa) else Ok c) = Ok c' /\
    represents c' (make_room A) /\ after_free D c c' /\ (forall x, x ∈ A.*1 <-> x ∈ D \/ x ∈ (make_room A).*1).
Proof.
  intros Hr. rewrite (rep_count _ _ Hr), (represents_null _ _ Hr). unfold make_room.
  destruct (Z.leb_spec pmksa_cache_max_entries (zlen A)) as [Hl|Hl]; cbn [andb].
  - destruct A as [|[a e] A]; [cbn in Hl; unfold pmksa_cache_max_entries in Hl; lia|]. cbn [negb tail].
    destruct (free_first_ok c a e A Hr) as (c2 & E2 & Hr2 & Hf2). rewrite E2.
    exists [a], c2. split_and!; [done|done|done|].
    intros x. change (((a, e) :: A).*1) with (a :: A.*1). rewrite elem_of_cons, list_elem_of_singleton. tauto.
  - exists [], c. split_and!; [done|done|apply after_free_nil|set_solver].
Qed.

(** What adding leaves, and when the timeout is set. *)
Definition added (x : Z * rsn_pmksa_cache_entry) A : list (Z * rsn_pmksa_cache_entry) :=
  sinsert x (roomy x.2.(spa) A).

Lemma added_fst x A a : a ∈ (added x A).*1 <-> a = x.1 \/ a ∈ (roomy x.2.(spa) A).*1.
Proof. unfold added. apply sinsert_fst. Qed.

Lemma add_entry_ok self expire_cb v c A a e :
  represents c A -> c.(heap) !! a = Some e -> a <> NULL -> a ∉ A.*1 ->
  exists D c', pmksa_cache_auth_add_entry self expire_cb v c a = Ok (0, c') /\ represents c' (added (a, strip e) A) /\
    only_gone D c c' /\ c'.(freed) = c.(freed) ++ D /\
    (forall x, x ∈ A.*1 <-> x ∈ D \/ x ∈ (roomy e.(spa) A).*1) /\
    c'.(loop) = if goes_first e (roomy e.(spa) A) then rearm self expire_cb v (added (a, strip e) A) c.(loop)
                else c.(loop).
Proof.
  intros Hr He Ha Hin. unfold pmksa_cache_auth_add_entry. destruct (Z.eqb_spec a NULL); [done|].
  unfold deref at 1. rewrite He. cbn [cbind]. rewrite (get_ok c A) by done. cbn [cbind].
  destruct (drop_old_ok c A e.(spa) Hr) as (D1 & c1 & -> & Hr1 & Hf1 & HD1). cbn [cbind].
  destruct (make_room_ok c1 _ Hr1) as (D2 & c2 & -> & Hr2 & Hf2 & HD2). cbn [cbind].
  destruct (after_free_app _ _ _ _ _ Hf1 Hf2) as (Hg & Hfr & Hl).
  change (make_room (drop_old (spa e) A)) with (roomy e.(spa) A) in *.
  assert (HD : forall x, x ∈ A.*1 <-> x ∈ D1 ++ D2 \/ x ∈ (roomy e.(spa) A).*1).
  { intros x. rewrite HD1, elem_of_app. rewrite HD2. tauto. }
  assert (Hi : info c2.(heap) a = Some (strip e)).
  { rewrite (proj1 Hg); [unfold info; by rewrite He|]. intros H. by apply Hin, HD; left. }
  destruct (info_lookup _ _ _ Hi) as (e2 & He2 & Hs2).
  destruct (link_entry_ok self expire_cb v c2 _ a e2 Hr2 He2 Ha) as (c3 & -> & Hr3 & Hi3 & Hf3 & Hl3).
  { intros H. by apply Hin, HD; right. }
  cbn [cbind]. exists (D1 ++ D2), c3. unfold added. rewrite Hs2 in *. cbn [snd].
  change (goes_first e2) with (goes_first (strip e2)) in Hl3. rewrite Hs2 in Hl3.
  split_and!; [done|done| |congruence|done|].
  - split; intros x Hx; [rewrite Hi3; by apply Hg|]. apply info_None. rewrite Hi3. by apply info_None, Hg.
  - rewrite Hl3, Hl. done.
Qed.

(** *** New entries *)

Section runs.
Variables (self expire_cb : Z).
Context {HM : Hmac}.

(** What the entry of [pmksa_cache_auth_create_entry] is made of. *)
Definition made_of (v : env) (key : list Z) (id : option (list Z)) (aa addr : list Z) (session_timeout kind : Z)
    (e : rsn_pmksa_cache_entry) : Prop :=
  e.(pmk) = key /\ e.(spa) = addr /\ e.(akmp) = kind /\
  e.(expiration) = v.(now).(Eloop.sec) + (if 0 <? session_timeout then session_timeout else dot11RSNAConfigPMKLifetime) /\
  match id with
  | Some id => e.(pmkid) = id
  | None => wpa_key_mgmt_suite_b kind = false -> e.(pmkid) = rsn_pmkid key aa addr kind
  end.

Lemma from_eapol_keeps v e s :
  let e' := pmksa_cache_from_eapol_data v e s in
  e'.(pmk) = e.(pmk) /\ e'.(spa) = e.(spa) /\ e'.(akmp) = e.(akmp) /\ e'.(expiration) = e.(expiration) /\
  e'.(pmkid) = e.(pmkid) /\ strip e' = pmksa_cache_from_eapol_data v (strip e) s.
Proof.
  unfold pmksa_cache_from_eapol_data. destruct s as [s|]; [|done].
  destruct (a_identity v), (e_identity s), (e_cui s), (e_vlan s) as [d|]; try (destruct (notempty d)); done.
Qed.

(** When no entry is created. *)
Definition refused (v : env) (key : list Z) (kck : option (list Z)) (kind : Z) : Prop :=
  PMK_LEN_MAX < zlen key \/ (wpa_key_mgmt_suite_b kind = true /\ kck = None) \/ v.(a_entry) = NULL.

Lemma create_entry_cases v c key id kck aa addr st eapol kind :
  let '(p, c') := pmksa_cache_auth_create_entry v c key id kck aa addr st eapol kind in
  (p = NULL /\ c' = c /\ refused v key kck kind) \/
  (p = v.(a_entry) /\ p <> NULL /\ exists e, c' = c <| heap := <[p := e]> c.(heap) |> /\ strip e = e /\
     made_of v key id aa addr st kind e).
Proof.
  unfold pmksa_cache_auth_create_entry, refused. destruct (Z.ltb_spec PMK_LEN_MAX (zlen key)); [by auto|].
  destruct (wpa_key_mgmt_suite_b kind && negb (bool_decide (is_Some kck))) eqn:E.
  { left. apply andb_true_iff in E as [-> E]. apply negb_true_iff, bool_decide_eq_false, eq_None_not_Some in E.
    split_and!; [done|done|by right; left]. }
  destruct (Z.eqb_spec (a_entry v) NULL) as [|Hp]; [left; by auto|]. right. split_and!; [done|done|]. cbv zeta.
  set (k := match kck with Some k => _ | None => _ end).
  assert (Hk : k = zero_entry <| pmk := key |> <| PmksaCache.kck := k.(PmksaCache.kck) |>)
    by (unfold k; destruct kck; [destruct (negb _ && _)|]; done).
  eexists. split; [reflexivity|]. unfold made_of.
  pose proof (from_eapol_keeps v (k <| pmkid := match id with
                           | Some id => id
                           | None => if kind =? WPA_KEY_MGMT_IEEE8021X_SUITE_B_192 then rsn_pmkid_suite_b_192 k.(pmkid)
                                     else if wpa_key_mgmt_suite_b kind then rsn_pmkid_suite_b k.(pmkid)
                                     else rsn_pmkid key aa addr kind
                           end |> <| expiration := v.(now).(Eloop.sec) + (if 0 <? st then st else dot11RSNAConfigPMKLifetime) |>
       <| akmp := kind |> <| spa := addr |>) eapol) as (E1 & E2 & E3 & E4 & E5 & E6).
  split; [rewrite E6; rewrite Hk; done|]. rewrite E1, E2, E3, E4, E5. rewrite Hk. split_and!; [done|done|done|done|].
  destruct id; [done|]. intros Hs. cbn [pmkid set_field].
  assert (Hb : (kind =? WPA_KEY_MGMT_IEEE8021X_SUITE_B_192) = false).
  { destruct (Z.eqb_spec kind WPA_KEY_MGMT_IEEE8021X_SUITE_B_192) as [->|]; [by vm_compute in Hs|done]. }
  rewrite Hb, Hs. done.
Qed.

(** ** Runs *)

Inductive op :=
| OpAdd (v : env) (key : list Z) (id kck : option (list Z)) (aa addr : list Z) (session_timeout : Z)
    (eapol : option eapol_data) (kind : Z)
| OpAddOkc (v : env) (old : rsn_pmksa_cache_entry) (id : list Z)
| OpFree (entry : Z)
| OpFlush
| OpExpire (v : env)
| OpDisconnect (attr : radius_das_attrs).

Definition run_op (o : op) c : cres rsn_pmksa_cache :=
  match o with
  | OpAdd v key id kck aa addr st eapol kind =>
      (r <-- pmksa_cache_auth_add self expire_cb v c key id kck aa addr st eapol kind ;; Ok (snd r))%c
  | OpAddOkc v old id => (r <-- pmksa_cache_add_okc self expire_cb v c old id ;; Ok (snd r))%c
  | OpFree entry => pmksa_cache_free_entry c entry
  | OpFlush => pmksa_cache_auth_flush c
  | OpExpire v => pmksa_cache_expire self expire_cb v c
  | OpDisconnect attr => (r <-- pmksa_cache_auth_radius_das_disconnect c attr ;; Ok (snd r))%c
  end.

(** The allocator gives an address not in use. *)
Definition env_ok (v : env) c : Prop := v.(a_entry) <> NULL -> c.(heap) !! v.(a_entry) = None.

(** The event loop can register a timeout: there is memory for it, and the
    clock can be read and is not near its end.  The result of the registration
    is not looked at. *)
Definition registers (v : env) : bool :=
  v.(reg_malloc) && (0 <=? fst v.(now_reg)) && (0 <=? (snd v.(now_reg)).(Eloop.sec)) &&
  ((snd v.(now_reg)).(Eloop.sec) <? 2 ^ 62) && (0 <=? (snd v.(now_reg)).(usec)) && ((snd v.(now_reg)).(usec) <? 1000000).

Lemma registers_true v : registers v = true ->
  v.(reg_malloc) = true /\ 0 <= fst v.(now_reg) /\ sane (snd v.(now_reg)) /\ (snd v.(now_reg)).(Eloop.sec) < 2 ^ 62.
Proof. unfold registers, sane. rewrite !andb_true_iff, !Z.leb_le, !Z.ltb_lt. intros (((((H1 & H2) & H3) & H4) & H5) & H6). split_and!; lia || done. Qed.

Definition op_ok c (o : op) : Prop :=
  match o with
  | OpAdd v _ _ _ _ _ _ _ _ | OpAddOkc v _ _ | OpExpire v => env_ok v c
  | OpFree entry => is_Some (c.(heap) !! entry)
  | OpFlush | OpDisconnect _ => True
  end.

(** Whether the timeout is still seen to after [o], when [ok] says so of the
    time before: an addition may need to set it again, an expiry always does. *)
Definition kept (ok : bool) (o : op) : bool :=
  match o with
  | OpAdd v _ _ _ _ _ _ _ _ | OpAddOkc v _ _ => ok && registers v
  | OpExpire v => registers v
  | OpFree _ | OpFlush | OpDisconnect _ => ok
  end.

(** The caches that operations lead to; [ok] when no registration has failed
    since the last expiry. *)
Inductive reaches : bool -> rsn_pmksa_cache -> Prop :=
| reach_init l : reaches true (pmksa_cache_auth_init l)
| reach_op ok c c' o : reaches ok c -> op_ok c o -> run_op o c = Ok c' -> reaches (kept ok o) c'.

(** The cache's timeout is registered. *)
Definition pending (l : eloop_data) : Prop :=
  exists t, t ∈ l.(timeout) /\ t.(t_handler) = expire_cb /\ t.(t_eloop_data) = self /\ t.(t_user_data) = NULL.

Lemma elem_of_insert_timeout t l : t ∈ insert_timeout t l.
Proof. induction l as [|u l IH]; cbn [insert_timeout]; [set_solver|]. case_match; set_solver. Qed.

Lemma rearm_pending v A l : registers v = true -> A <> [] -> pending (rearm self expire_cb v A l).
Proof.
  intros (Hm & Hr & Hs & Hc)%registers_true HA. unfold rearm. destruct A as [|[a e] A]; [done|].
  unfold eloop_register_timeout. rewrite Hm. cbn [negb]. destruct (now_reg v) as [r tm]. cbn [fst snd] in *.
  destruct (Z.ltb_spec r 0); [lia|]. set (s := u32 _).
  pose proof (u32_range (Z.max 0 (s32 (expiration e - Eloop.sec (now_set v))) + 1)) as Hu. fold s in Hu.
  assert (Hz : is_u32 0) by lia. rewrite (deadline_exact tm s 0 Hs Hu Hz). unfold sane in *.
  destruct (Z.ltb_spec (Eloop.sec tm + s + (usec tm + 0) / 1000000) (2 ^ 63)); [|dlia].
  cbn [fst]. unfold pending. eexists. split; [apply elem_of_insert_timeout|done].
Qed.

(** A cache between operations. *)
Definition settled (ok : bool) c A : Prop :=
  represents c A /\ no_leak c A /\ (ok = true -> A = [] \/ pending c.(loop)).

(** Exactly [D] has been freed, and reported. *)
Definition reported (D : list Z) c c' : Prop :=
  c'.(freed) = c.(freed) ++ D /\ forall x, is_Some (c.(heap) !! x) -> x ∈ D <-> c'.(heap) !! x = None.

Lemma gone_keeps D c c' A A' :
  no_leak c A -> only_gone D c c' -> (forall x, x ∈ A.*1 -> x ∈ D \/ x ∈ A'.*1) ->
  no_leak c' A' /\ forall x, is_Some (c.(heap) !! x) -> x ∈ D <-> c'.(heap) !! x = None.
Proof.
  intros Hn [Hi Hg] Hin.
  assert (Hx : forall x, x ∉ D -> is_Some (c'.(heap) !! x) <-> is_Some (c.(heap) !! x)).
  { intros x HD. rewrite <- !not_eq_None_Some, <- !info_None. by rewrite Hi. }
  split.
  - intros x Hs. destruct (decide (x ∈ D)) as [HD|HD]; [rewrite Hg in Hs by done; by destruct Hs|].
    apply Hx in Hs; [|done]. by destruct (Hin x (Hn x Hs)).
  - intros x Hs. split; [apply Hg|]. intros E. destruct (decide (x ∈ D)) as [HD|HD]; [done|].
    apply Hx in Hs; [|done]. rewrite E in Hs. by destruct Hs.
Qed.

(** The end of an operation that only frees. *)
Lemma settled_after_free ok D c c' A A' :
  settled ok c A -> represents c' A' -> after_free D c c' -> (forall x, x ∈ A.*1 -> x ∈ D \/ x ∈ A'.*1) ->
  (A = [] -> A' = []) -> settled ok c' A' /\ reported D c c'.
Proof.
  intros (Hr & Hn & Hp) Hr' (Hg & Hf & Hl) Hin H0. destruct (gone_keeps _ _ _ _ _ Hn Hg Hin) as [Hn' HD].
  split; [|done]. split_and!; [done|done|]. rewrite Hl. intros Hok. destruct (Hp Hok); auto.
Qed.

Lemma filter_or (P Q : Z * rsn_pmksa_cache_entry -> Prop) `{!forall x, Decision (P x)} `{!forall x, Decision (Q x)} A a :
  (forall x, P x \/ Q x) -> a ∈ A.*1 -> a ∈ (filter P A).*1 \/ a ∈ (filter Q A).*1.
Proof.
  intros HPQ Ha. apply in_fst in Ha as [e Ha]. destruct (HPQ (a, e)); [left|right];
    apply (fst_in _ a e); by apply list_elem_of_filter.
Qed.

Lemma settled_link ok c c1 c2 a e A A' D v :
  settled ok c A -> c.(heap) !! a = None -> c1 = c <| heap := <[a := e]> c.(heap) |> -> strip e = e -> env_ok v c ->
  represents c2 (sinsert (a, e) A') -> only_gone D c1 c2 -> c2.(freed) = c.(freed) ++ D ->
  (forall x, x ∈ A.*1 <-> x ∈ D \/ x ∈ A'.*1) ->
  c2.(loop) = (if goes_first e A' then rearm self expire_cb v (sinsert (a, e) A') c.(loop) else c.(loop)) ->
  settled (ok && registers v) c2 (sinsert (a, e) A') /\ reported D c c2.
Proof.
  intros (Hr & Hn & Hp) Ha -> Hs Hv Hr2 Hg Hf Hin Hl.
  assert (HaA : a ∉ A.*1) by (by eapply fresh_notin).
  assert (Hn1 : no_leak (c <| heap := <[a := e]> c.(heap) |>) ((a, e) :: A)).
  { intros x. change (heap _) with (<[a := e]> (heap c)). change (((a, e) :: A).*1) with (a :: A.*1).
    rewrite lookup_insert_is_Some', elem_of_cons. intros [->|Hx]; [by left|right; by apply Hn]. }
  destruct (gone_keeps D _ c2 _ (sinsert (a, e) A') Hn1 Hg) as [Hn2 HD].
  { intros x. change (((a, e) :: A).*1) with (a :: A.*1). rewrite elem_of_cons, sinsert_fst. cbn [fst].
    rewrite Hin. tauto. }
  split; [split_and!; [done|done|intros [Hok Hv']%andb_true_iff; right]|split; [done|]].
  - rewrite Hl. destruct (goes_first e A') eqn:E.
    + apply rearm_pending; [exact Hv'|]. intros H0. apply (f_equal length) in H0. by rewrite sinsert_length in H0.
    + destruct (Hp Hok) as [->|Hp']; [|done]. destruct A' as [|[b y] A']; [done|].
      exfalso. apply (not_elem_of_nil b), Hin. right. apply (fst_in _ b y), list_elem_of_here.
  - intros x Hx. apply HD. change (is_Some (<[a := e]> (heap c) !! x)). apply lookup_insert_is_Some'. by right.
Qed.

Lemma add_run ok v c A key id kck aa addr st eapol kind :
  settled ok c A -> env_ok v c ->
  exists p c', pmksa_cache_auth_add self expire_cb v c key id kck aa addr st eapol kind = Ok (p, c') /\
    ((p = NULL /\ c' = c /\ refused v key kck kind) \/
     (p = v.(a_entry) /\ p <> NULL /\ exists e D, made_of v key id aa addr st kind e /\
        settled (ok && registers v) c' (added (p, e) A) /\ reported D c c' /\ p ∉ A.*1 /\
        forall x, x ∈ A.*1 <-> x ∈ D \/ x ∈ (roomy addr A).*1)).
Proof.
  intros Hset Hv. unfold pmksa_cache_auth_add.
  pose proof (create_entry_cases v c key id kck aa addr st eapol kind) as H.
  destruct (pmksa_cache_auth_create_entry _ _ _ _ _ _ _ _ _ _) as [p c1].
  destruct H as [(-> & -> & Href)|(-> & Hp & e & Hc1 & Hs & Hm)].
  - exists NULL, c. auto.
  - pose proof (Hv Hp) as Ha. pose proof (fresh_notin _ _ _ (proj1 Hset) Ha) as HaA.
    destruct (add_entry_ok self expire_cb v c1 A (a_entry v) e) as (D & c2 & -> & Hr2 & Hg & Hf & HD & Hl).
    + rewrite Hc1. by apply represents_alloc, Hset.
    + rewrite Hc1. by apply lookup_insert_eq.
    + done.
    + done.
    + cbn [cbind fst snd]. change (0 <? 0) with false. exists (a_entry v), c2. split; [done|]. right.
      split_and!; [done|done|]. exists e, D. rewrite Hs in *. unfold added in *. cbn [snd] in *.
      pose proof (proj1 (proj2 Hm)) as Hspa. subst addr.
      destruct (settled_link ok c c1 c2 (a_entry v) e A (roomy (spa e) A) D v) as [H1 H2]; try done.
      * by rewrite Hf, Hc1.
      * rewrite Hl, Hc1. done.
Qed.

Lemma okc_run ok v c A old id :
  settled ok c A -> env_ok v c ->
  exists p c', pmksa_cache_add_okc self expire_cb v c old id = Ok (p, c') /\
    ((p = NULL /\ c' = c) \/
     (p = v.(a_entry) /\ p <> NULL /\ p ∉ A.*1 /\
        settled (ok && registers v) c' (sinsert (p, okc_entry v old id) A) /\ reported [] c c')).
Proof.
  intros Hset Hv. unfold pmksa_cache_add_okc. destruct (Z.eqb_spec (a_entry v) NULL) as [|Hp]; [exists NULL, c; auto|].
  pose proof (Hv Hp) as Ha. pose proof (fresh_notin _ _ _ (proj1 Hset) Ha) as HaA.
  set (e := okc_entry v old id). set (c1 := c <| heap := <[a_entry v := e]> c.(heap) |>).
  destruct (link_entry_ok self expire_cb v c1 A (a_entry v) e) as (c2 & -> & Hr2 & Hi & Hf & Hl).
  - apply represents_alloc; [done|apply Hset].
  - apply lookup_insert_eq.
  - done.
  - done.
  - cbn [cbind]. exists (a_entry v), c2. split; [done|]. right.
    destruct (settled_link ok c c1 c2 (a_entry v) e A A [] v) as [H1 H2]; try done.
    + split; [done|set_solver].
    + by rewrite Hf, app_nil_r.
    + set_solver.
Qed.

Lemma expire_run ok v c A :
  settled ok c A -> env_ok v c ->
  exists c', pmksa_cache_expire self expire_cb v c = Ok c' /\ settled (registers v) c' (unexpired v.(now).(Eloop.sec) A) /\
    reported (expired v.(now).(Eloop.sec) A).*1 c c' /\
    c'.(loop) = rearm self expire_cb v (unexpired v.(now).(Eloop.sec) A) c.(loop).
Proof.
  intros Hset Hv. unfold pmksa_cache_expire. set (s := v.(now).(Eloop.sec)). pose proof (proj1 Hset) as Hr.
  destruct (expire_loop_ok s A c (passes c) Hr (rep_passes _ _ Hr)) as (c1 & -> & Hr1 & H1). cbn [cbind].
  rewrite (set_expiration_ok self expire_cb v c1 _ Hr1). eexists. split; [reflexivity|].
  assert (Hin : forall x, x ∈ A.*1 -> x ∈ (expired s A).*1 \/ x ∈ (unexpired s A).*1)
    by (intros x; apply filter_or; intros; lia).
  destruct (settled_after_free _ _ _ _ _ _ Hset Hr1 H1 Hin) as [(_ & Hn1 & _) Hrep]; [by intros ->|].
  destruct H1 as (_ & _ & Hl). split_and!; [|exact Hrep|by rewrite <- Hl].
  split; [by apply represents_loop|]. split; [exact Hn1|].
  intros Hok. destruct (unexpired s A) as [|x B] eqn:E; [by left|right]. by apply rearm_pending.
Qed.

Lemma disconnect_run ok attr c A :
  settled ok c A -> attr.(acct_session_id) = None ->
  let gone := filter (das_match attr) A in
  exists c', pmksa_cache_auth_radius_das_disconnect c attr = Ok (if bool_decide (gone = []) then -1 else 0, c') /\
    settled ok c' (filter (fun x => ~ das_match attr x) A) /\ reported gone.*1 c c'.
Proof.
  intros Hset Ha gone. pose proof (proj1 Hset) as Hr. unfold pmksa_cache_auth_radius_das_disconnect. rewrite Ha.
  destruct (das_loop_ok attr A [] c (passes c) 0 Hr (rep_passes _ _ Hr)) as (c1 & E & Hr1 & H1).
  rewrite (chain_start _ _ _ (rep_chain _ _ Hr)), E. cbn [cbind fst snd]. fold gone. rewrite Z.add_0_l.
  exists c1. split.
  - destruct gone as [|x l]; [done|]. rewrite bool_decide_false by done.
    destruct (Z.eqb_spec (zlen (x :: l)) 0) as [E0|]; [cbn in E0; lia|done].
  - apply (settled_after_free _ _ c c1 A); try done; [|by intros ->].
    intros x. apply filter_or. intros y. unfold das_match. destruct (decide (das_attr_match y.2 attr = 0)); auto.
Qed.

Lemma free_run ok a c A :
  settled ok c A -> is_Some (c.(heap) !! a) ->
  exists c', pmksa_cache_free_entry c a = Ok c' /\ settled ok c' (sfree a A) /\ reported [a] c c'.
Proof.
  intros Hset Ha. destruct (free_ok c A a (proj1 Hset)) as (c1 & -> & Hr1 & H1); [by apply Hset|].
  exists c1. split; [done|]. apply (settled_after_free _ _ c c1 A); try done; [|by intros ->].
  intros x Hx. rewrite sfree_fst, list_elem_of_filter, list_elem_of_singleton. destruct (decide (x = a)); auto.
Qed.

Lemma flush_run ok c A :
  settled ok c A -> exists c', pmksa_cache_auth_flush c = Ok c' /\ settled ok c' [] /\ reported A.*1 c c'.
Proof.
  intros Hset. pose proof (proj1 Hset) as Hr. unfold pmksa_cache_auth_flush.
  destruct (flush_loop_ok A c (passes c) Hr (rep_passes _ _ Hr)) as (c1 & -> & Hr1 & H1).
  exists c1. split; [done|]. apply (settled_after_free _ _ c c1 A); auto.
Qed.

Lemma reported_nil c : reported [] c c.
Proof.
  split; [by rewrite app_nil_r|]. intros x Hx. split; [set_solver|]. intros H. rewrite H in Hx. by destruct Hx.
Qed.

Lemma settled_and ok b c A : settled ok c A -> settled (ok && b) c A.
Proof. intros (Hr & Hn & Hp). split_and!; [done|done|]. intros [Hok _]%andb_true_iff. auto. Qed.

(** Every operation, from a cache between operations. *)
Lemma op_run ok o c A :
  settled ok c A -> op_ok c o -> exists c' A' D, run_op o c = Ok c' /\ settled (kept ok o) c' A' /\ reported D c c'.
Proof.
  intros Hset Ho. destruct o as [v key id kck aa addr st s kind|v old id|a| |v|attr]; cbn [run_op op_ok kept] in *.
  - destruct (add_run ok v c A key id kck aa addr st s kind Hset Ho) as (p & c' & -> & H). exists c'. cbn [cbind snd].
    destruct H as [(-> & -> & _)|(_ & _ & e & D & _ & H1 & H2 & _)]; eauto 8 using reported_nil, settled_and.
  - destruct (okc_run ok v c A old id Hset Ho) as (p & c' & -> & H). exists c'. cbn [cbind snd].
    destruct H as [[-> ->]|(_ & _ & _ & H1 & H2)]; eauto 8 using reported_nil, settled_and.
  - destruct (free_run ok a c A Hset Ho) as (c' & -> & H). eauto.
  - destruct (flush_run ok c A Hset) as (c' & -> & H). eauto.
  - destruct (expire_run ok v c A Hset Ho) as (c' & -> & H1 & H2 & _). eauto 8.
  - destruct (acct_session_id attr) eqn:E.
    + unfold pmksa_cache_auth_radius_das_disconnect. rewrite E. cbn [cbind snd]. eauto 8 using reported_nil.
    + destruct (disconnect_run ok attr c A Hset E) as (c' & -> & H). cbn [cbind snd]. eauto.
Qed.

Lemma init_settled l : settled true (pmksa_cache_auth_init l) [].
Proof.
  split_and!; [split| |by left].
  - done.
  - done.
  - intros i Hi. exists []. split.
    + unfold bucket, pmksa_cache_auth_init. cbn [buckets chain]. rewrite at_lookup, lookup_replicate_2; [done|].
      unfold PMKID_HASH_SIZE in *. lia.
    + intros a. split; [set_solver|]. intros (e & He & _). set_solver.
  - set_solver.
  - constructor.
  - done.
  - intros a [e He]. exfalso. apply (lookup_empty_Some (M := gmap Z) a e). exact He.
Qed.

Lemma reaches_settled ok c : reaches ok c -> exists A, settled ok c A.
Proof.
  induction 1 as [l|ok c c' o _ (A & Hset) Ho Hrun]; [exists []; apply init_settled|].
  destruct (op_run ok o c A Hset Ho) as (c1 & A1 & D & E & H & _). rewrite Hrun in E. injection E as <-. eauto.
Qed.

(** *** The end of a cache *)

Lemma deinit_loop_ok l p c fuel :
  chain (step Next c.(heap)) p l -> (length l < fuel)%nat ->
  exists h, deinit_loop fuel p c = Ok (c <| heap := h |>) /\
    forall x, h !! x = if decide (x ∈ l) then None else c.(heap) !! x.
Proof.
  revert p c fuel. induction l as [|a l IH]; intros p c fuel Hc Hf; (destruct fuel as [|fuel]; [cbn in Hf; lia|]);
    cbn [deinit_loop].
  - rewrite (proj2 (Z.eqb_eq p NULL) Hc). exists c.(heap). rewrite same_heap. split; [done|]. intros x.
    destruct (decide (x ∈ [])); [set_solver|done].
  - pose proof (chain_nodup _ _ _ Hc) as Hnd. apply NoDup_cons in Hnd as [Hal _].
    destruct Hc as (-> & Ha & n & Hn & Hc). destruct (Z.eqb_spec a NULL); [done|].
    unfold step in Hn. unfold deref. destruct (heap c !! a) as [e|]; [|done]. cbn in Hn. injection Hn as <-. cbn [cbind].
    destruct (IH (next e) (c <| heap := delete a c.(heap) |>) fuel) as (h & E & Hh); [by apply delete_chain|cbn in Hf; lia|].
    exists h. rewrite E. split; [done|]. intros x. rewrite Hh. change (heap (c <| heap := ?k |>)) with k.
    destruct (decide (x ∈ l)) as [H1|H1], (decide (x ∈ a :: l)) as [H2|H2]; [done|set_solver| |].
    + assert (x = a) as -> by set_solver. apply lookup_delete_eq.
    + apply lookup_delete_ne. set_solver.
Qed.

Lemma deinit_ok ok c A :
  settled ok c A -> exists c', pmksa_cache_auth_deinit self expire_cb c = Ok c' /\ c'.(heap) = ∅ /\ ~ pending c'.(loop).
Proof.
  intros (Hr & Hn & _). unfold pmksa_cache_auth_deinit.
  destruct (deinit_loop_ok A.*1 c.(pmksa) c (passes c)) as (h & -> & Hh); [apply Hr|eapply chain_passes, Hr|].
  cbn [cbind]. eexists. split; [reflexivity|]. split.
  - change (h = ∅). apply map_empty. intros x. rewrite Hh. destruct (decide (x ∈ A.*1)) as [|Hx]; [done|].
    apply eq_None_not_Some. intros Hs. by apply Hx, Hn.
  - cbn [loop]. intros (t & Ht & H1 & H2 & H3). revert Ht. unfold eloop_cancel_timeout. rewrite cancel_loop_filter.
    cbn [fst]. change (timeout (_ <| timeout := ?k |>)) with k. rewrite list_elem_of_filter, cancels_false.
    intros [Hm _]. apply Hm. unfold matches. auto.
Qed.

(** ** Properties *)

(** C4: in every state the cache can reach, whatever is added, freed, flushed,
    expired or disconnected and whatever fails, the two chains and the count
    describe exactly the entries that are allocated, sorted by expiration, and
    the timeout is registered when there are any, unless a registration has
    failed (no memory, no clock), which the code ignores, since the last run of
    the expiry that registered; the next operation dereferences no freed or NULL
    pointer, ends, frees only entries it reports to [free_cb], once each, and
    leaves the cache so; and taking the cache down leaves no entry and no timeout
    behind. *)
Theorem pmksa_cache_sound ok c :
  reaches ok c ->
  (exists A, settled ok c A) /\
  (forall o, op_ok c o -> exists c' A' D, run_op o c = Ok c' /\ settled (kept ok o) c' A' /\ reported D c c') /\
  (exists c', pmksa_cache_auth_deinit self expire_cb c = Ok c' /\ c'.(heap) = ∅ /\ ~ pending c'.(loop)).
Proof.
  intros Hc. destruct (reaches_settled _ c Hc) as [A Hset]. split_and!.
  - by exists A.
  - intros o Ho. by apply (op_run ok o c A).
  - by apply (deinit_ok ok c A).
Qed.

Lemma settled_lookup ok c A a e : settled ok c A -> c.(heap) !! a = Some e -> (a, strip e) ∈ A.
Proof.
  intros (Hr & Hn & _) He. assert (Ha : a ∈ A.*1) by (apply Hn; by eexists). apply in_fst in Ha as [e' Ha].
  pose proof (rep_info _ _ Hr _ _ Ha) as Hi. unfold info in Hi. rewrite He in Hi.
  apply (inj Some) in Hi. by rewrite Hi.
Qed.

Definition wanted (addr id : option (list Z)) (e : rsn_pmksa_cache_entry) : Prop :=
  matches_opt addr e.(spa) = true /\ matches_opt id e.(pmkid) = true.

(** C30: a search by PMKID, which looks into one bucket only, and a search by
    address find an entry if and only if some entry of the whole cache matches,
    and the one they find does. *)
Theorem pmksa_get_finds ok c addr id :
  reaches ok c ->
  exists q, pmksa_cache_auth_get c addr id = Ok q /\
    ((q = NULL /\ forall a e, c.(heap) !! a = Some e -> ~ wanted addr id e) \/
     (q <> NULL /\ exists e, c.(heap) !! q = Some e /\ wanted addr id e)).
Proof.
  intros Hc. destruct (reaches_settled _ c Hc) as [A Hset]. pose proof (proj1 Hset) as Hr. unfold wanted.
  assert (Hn : forall a e, (a, e) ∈ A -> a <> NULL) by (intros a e; by apply (rep_null c)).
  destruct id as [i|]; cbn [pmksa_cache_auth_get].
  - destruct (bucket_entries c A (PMKID_HASH i) Hr (hash_range i)) as (B & HB & Hl & HBin).
    rewrite (search_ok _ _ _ _ B); [|done|intros a e He; by apply Hr, HBin|done|done].
    eexists. split; [done|].
    match goal with |- context [sget ?f B] => destruct (sget_spec f B _ eq_refl) as [[H1 H2]|(H1 & e & H2 & H3)] end.
    + intros a e He. by apply (Hn a e), HBin.
    + left. split; [done|]. intros a e He [Hw1 Hw2]. cbn [matches_opt] in Hw2. apply bool_decide_eq_true in Hw2.
      assert (HinB : (a, strip e) ∈ B) by (apply HBin; split; [by apply (settled_lookup ok c)|by change (pmkid (strip e)) with (pmkid e); rewrite Hw2]).
      apply H2 in HinB. change (spa (strip e)) with (spa e) in HinB. change (pmkid (strip e)) with (pmkid e) in HinB.
      rewrite Hw1, bool_decide_true in HinB by done. done.
    + right. split; [done|]. apply HBin in H2 as [H2 _]. destruct (rep_entry _ _ _ _ Hr H2) as (e' & He' & <-).
      exists e'. apply andb_true_iff in H3. done.
  - pose proof (get_ok c A addr Hr) as E. cbn [pmksa_cache_auth_get] in E. rewrite E. eexists. split; [done|].
    match goal with |- context [sget ?f A] => destruct (sget_spec f A _ eq_refl Hn) as [[H1 H2]|(H1 & e & H2 & H3)] end.
    + left. split; [done|]. intros a e He [Hw _]. apply (settled_lookup ok c A) in He; [|done]. apply H2 in He.
      change (spa (strip e)) with (spa e) in He. congruence.
    + right. split; [done|]. destruct (rep_entry _ _ _ _ Hr H2) as (e' & He' & <-). by exists e'.
Qed.

(** At most one entry per station. *)
Definition one_each A : Prop := NoDup ((fun x => x.2.(spa)) <$> A).

Lemma roomy_sublist addr A : roomy addr A `sublist_of` A.
Proof.
  unfold roomy, make_room. assert (Hd : drop_old addr A `sublist_of` A) by apply sublist_filter.
  destruct (_ <=? _); [|done]. etrans; [|exact Hd]. destruct (drop_old addr A); [done|by constructor].
Qed.

Lemma drop_old_station addr A x :
  (forall a e, (a, e) ∈ A -> a <> NULL) -> one_each A -> x ∈ drop_old addr A -> x.2.(spa) <> addr.
Proof.
  intros Hn Ho Hx Hs. unfold drop_old in Hx. set (p := sget _ A) in Hx. destruct x as [a e]. cbn [snd] in Hs.
  apply elem_of_sfree in Hx as [Hap Hx].
  destruct (sget_spec (fun y => matches_opt (Some addr) y.(spa)) A p eq_refl Hn) as [[_ H]|(_ & e' & H & Hm)].
  - specialize (H _ _ Hx). cbn [matches_opt] in H. by rewrite bool_decide_true in H.
  - apply bool_decide_eq_true in Hm. apply Hap.
    apply list_elem_of_lookup in Hx as [i Hi]. apply list_elem_of_lookup in H as [j Hj].
    assert (i = j) as ->; [|congruence].
    apply (NoDup_lookup _ i j addr Ho); rewrite list_lookup_fmap, ?Hi, ?Hj; cbn; congruence.
Qed.

Lemma roomy_station addr A x :
  (forall a e, (a, e) ∈ A -> a <> NULL) -> one_each A -> x ∈ roomy addr A -> x.2.(spa) <> addr.
Proof.
  intros Hn Ho Hx. apply (drop_old_station addr A); [done|done|]. unfold roomy, make_room in Hx.
  destruct (_ <=? _); [|done]. destruct (drop_old addr A); [done|]. by apply list_elem_of_further.
Qed.

Lemma sinsert_perm x A : sinsert x A ≡ₚ x :: A.
Proof. destruct (sinsert_split x A) as (B & C & -> & -> & _). by rewrite Permutation_middle. Qed.

Lemma added_one_each x A :
  (forall a e, (a, e) ∈ A -> a <> NULL) -> one_each A -> one_each (added x A).
Proof.
  intros Hn Ho. unfold one_each, added. rewrite sinsert_perm, fmap_cons. apply NoDup_cons. split.
  - intros H. apply list_elem_of_fmap in H as (y & Hy & Hin). by apply (roomy_station _ _ _ Hn Ho) in Hin.
  - eapply sublist_NoDup; [exact Ho|]. apply fmap_sublist, roomy_sublist.
Qed.

Lemma added_bound x A : zlen A <= pmksa_cache_max_entries -> zlen (added x A) <= pmksa_cache_max_entries.
Proof.
  intros Hl. unfold added. rewrite sinsert_length. unfold roomy, make_room.
  assert (Hd : (length (drop_old x.2.(spa) A) <= length A)%nat) by (apply length_filter).
  destruct (Z.leb_spec pmksa_cache_max_entries (zlen (drop_old x.2.(spa) A))); [|lia].
  unfold pmksa_cache_max_entries in *. destruct (drop_old x.2.(spa) A); cbn [length tail] in *; lia.
Qed.

Lemma added_others x A y :
  (forall a e, (a, e) ∈ A -> a <> NULL) ->
  zlen A < pmksa_cache_max_entries -> y ∈ A -> y.2.(spa) <> x.2.(spa) -> NoDup A.*1 -> y ∈ added x A.
Proof.
  intros Hn Hl Hy Hs Hnd. unfold added. apply elem_of_sinsert. right. unfold roomy, make_room.
  assert (Hd : (length (drop_old x.2.(spa) A) <= length A)%nat) by (apply length_filter).
  destruct (Z.leb_spec pmksa_cache_max_entries (zlen (drop_old x.2.(spa) A))); [lia|].
  unfold drop_old. destruct y as [a e]. apply elem_of_sfree. split; [|done]. cbn [snd] in Hs. intros Ha.
  destruct (sget_spec (fun y => matches_opt (Some x.2.(spa)) y.(spa)) A a (eq_sym Ha) Hn) as [[H0 _]|(_ & e' & He' & Hm)].
  - by eapply Hn.
  - apply bool_decide_eq_true in Hm. apply Hs. rewrite <- Hm. do 2 f_equal.
    by apply (NoDup_fst_inj A a).
Qed.

(** C31: unless it is refused, a key is added: the new entry is made of the
    arguments and expires when the session does; the station's old entry is
    dropped, the one that expires first is dropped when the cache is full, and
    no other; a cache of at most 1024 entries keeps to that, and one that holds
    an entry per station at most still does.  The timeout is seen to if no
    registration fails. *)
Theorem pmksa_add_replaces ok v c key id kck aa addr st s kind :
  reaches ok c -> env_ok v c -> ~ refused v key kck kind ->
  exists A c' e D, settled ok c A /\
    pmksa_cache_auth_add self expire_cb v c key id kck aa addr st s kind = Ok (v.(a_entry), c') /\
    made_of v key id aa addr st kind e /\ settled (ok && registers v) c' (added (v.(a_entry), e) A) /\ reported D c c' /\
    (zlen A <= pmksa_cache_max_entries -> zlen (added (v.(a_entry), e) A) <= pmksa_cache_max_entries) /\
    (one_each A -> one_each (added (v.(a_entry), e) A)) /\
    (zlen A < pmksa_cache_max_entries -> forall y, y ∈ A -> y.2.(spa) <> addr -> y ∈ added (v.(a_entry), e) A).
Proof.
  intros Hc Hv Href. destruct (reaches_settled _ c Hc) as [A Hset].
  destruct (add_run ok v c A key id kck aa addr st s kind Hset Hv) as (p & c' & E & H).
  destruct H as [(_ & _ & H)|(-> & Hp & e & D & Hm & H1 & H2 & H3 & H4)]; [by apply Href in H|].
  assert (Hn : forall a e, (a, e) ∈ A -> a <> NULL) by (intros a ea; apply (rep_null c), Hset).
  exists A, c', e, D. split_and!; try done.
  - apply added_bound.
  - by apply added_one_each.
  - intros Hl y Hy Hs. apply added_others; try done; [|apply (rep_nodup c), Hset]. cbn [snd]. by rewrite (proj1 (proj2 Hm)).
Qed.

(** When the timeout fires and can be set again, exactly the entries that have expired by then
    are freed, and the timeout is set again for the first of the others: a
    second after it expires. *)
Theorem pmksa_expire_exact ok v c :
  reaches ok c -> env_ok v c -> registers v = true ->
  exists c', pmksa_cache_expire self expire_cb v c = Ok c' /\
    (forall a e, c.(heap) !! a = Some e ->
       if e.(expiration) <=? v.(now).(Eloop.sec) then c'.(heap) !! a = None
       else exists e', c'.(heap) !! a = Some e' /\ strip e' = strip e) /\
    forall e, c'.(heap) !! c'.(pmksa) = Some e ->
      let left := e.(expiration) - v.(now_set).(Eloop.sec) in
      - 2 ^ 31 <= left < 2 ^ 31 ->
      exists t, t ∈ c'.(loop).(timeout) /\ t.(t_handler) = expire_cb /\ t.(t_eloop_data) = self /\
        t.(t_user_data) = NULL /\ us t.(time) = us (snd v.(now_reg)) + (Z.max 0 left + 1) * 1000000.
Proof.
  intros Hc Hv Hreg. destruct (reaches_settled _ c Hc) as [A Hset].
  destruct (expire_run ok v c A Hset Hv) as (c' & -> & Hset' & [_ Hrep] & Hl). exists c'. split; [done|]. split.
  - intros a e He. pose proof (settled_lookup ok c A a e Hset He) as Ha. specialize (Hrep a ltac:(by eexists)).
    destruct (Z.leb_spec e.(expiration) v.(now).(Eloop.sec)).
    + apply Hrep, (fst_in _ a (strip e)). by apply list_elem_of_filter.
    + assert (Hin : (a, strip e) ∈ unexpired v.(now).(Eloop.sec) A) by (by apply list_elem_of_filter).
      apply (rep_entry c' _ a (strip e) (proj1 Hset') Hin).
  - intros e He left Hleft. pose proof (rep_chain _ _ (proj1 Hset')) as Hch.
    rewrite Hl. destruct (unexpired (Eloop.sec (now v)) A) as [|[a ea] B] eqn:E.
    { apply (settled_lookup (registers v) c' []) in He; [set_solver|done]. }
    destruct (represents_first _ _ _ _ (proj1 Hset')) as (Hp & e' & He' & Hs). rewrite Hp, He' in He.
    injection He as ->. unfold rearm. apply registers_true in Hreg as (Hm & Hr & Hsane & Hmax).
    unfold eloop_register_timeout. rewrite Hm. cbn [negb]. destruct (now_reg v) as [r tm]. cbn [fst snd] in *.
    destruct (Z.ltb_spec r 0); [lia|]. rewrite <- Hs, expiration_strip. fold left. rewrite s32_small by lia.
    rewrite u32_small by lia.
    destruct (deadline tm (Z.max 0 left + 1) 0) as [d|] eqn:Ed.
    + cbn [fst]. eexists. split; [apply elem_of_insert_timeout|]. split_and!; [done|done|done|].
      apply deadline_us in Ed as [Ed _]; [|done|lia|lia]. cbn [time]. rewrite Ed. lia.
    + rewrite deadline_exact in Ed; [|done|lia|lia]. unfold sane in *. revert Ed.
      destruct (Z.ltb_spec (Eloop.sec tm + (Z.max 0 left + 1) + (usec tm + 0) / 1000000) (2 ^ 63)); [done|dlia].
Qed.

(** What a Disconnect-Request selects: entries that agree with every attribute
    it has, of which there must be one. *)
Definition selects (attr : radius_das_attrs) (e : rsn_pmksa_cache_entry) : Prop :=
  (is_Some attr.(sta_addr) \/ is_Some attr.(d_multi_session_id) \/ is_Some attr.(d_cui) \/ is_Some attr.(user_name)) /\
  (forall x, attr.(sta_addr) = Some x -> x = e.(spa)) /\
  (forall x, attr.(d_multi_session_id) = Some x -> x = hex16 e.(acct_multi_session_id)) /\
  (forall x, attr.(d_cui) = Some x -> e.(cui) = Some x) /\
  (forall x, attr.(user_name) = Some x -> e.(identity) = Some x).

Definition agrees {B} (o w : option B) : Prop := forall x, o = Some x -> w = Some x.
Definition present {B} (o : option B) : Z := if o then 1 else 0.

Lemma das_check_spec {B} `{!EqDecision B} (o w : option B) m :
  (agrees o w /\ das_check (bool_decide (is_Some o)) (bool_decide (o = w)) m = Some (m + present o)) \/
  (~ agrees o w /\ das_check (bool_decide (is_Some o)) (bool_decide (o = w)) m = None).
Proof.
  unfold das_check, agrees, present. destruct o as [x|].
  - rewrite (bool_decide_true (is_Some _)) by by eexists. destruct (decide (Some x = w)) as [<-|Hw].
    + left. rewrite bool_decide_true by done. auto.
    + right. rewrite bool_decide_false by done. split; [|done]. intros H. by rewrite (H x) in Hw.
  - left. rewrite bool_decide_false by apply is_Some_None. split; [done|]. by rewrite Z.add_0_r.
Qed.

Lemma agrees_Some {B} (o : option B) w : agrees o (Some w) <-> forall x, o = Some x -> x = w.
Proof. unfold agrees. split; intros H x Hx; specialize (H x Hx); congruence. Qed.

Lemma present_spec {B} (o : option B) : (is_Some o /\ present o = 1) \/ (~ is_Some o /\ present o = 0).
Proof. destruct o; [left; by eauto|right]. split; [apply is_Some_None|done]. Qed.

Lemma das_attr_match_spec attr e : das_attr_match e attr <> 0 <-> selects attr e.
Proof.
  unfold das_attr_match, selects. rewrite <- !agrees_Some. fold (agrees attr.(d_cui) e.(cui)).
  fold (agrees attr.(user_name) e.(identity)).
  destruct (das_check_spec attr.(sta_addr) (Some e.(spa)) 0) as [[H1 ->]|[H1 ->]]; cbn [mbind option_bind]; [|tauto].
  match goal with |- context [das_check _ (bool_decide (d_multi_session_id attr = ?w)) ?m] =>
    destruct (das_check_spec attr.(d_multi_session_id) w m) as [[H2 ->]|[H2 ->]] end; cbn [mbind option_bind]; [|tauto].
  match goal with |- context [das_check _ (bool_decide (d_cui attr = ?w)) ?m] =>
    destruct (das_check_spec attr.(d_cui) w m) as [[H3 ->]|[H3 ->]] end; cbn [mbind option_bind]; [|tauto].
  match goal with |- context [das_check _ (bool_decide (user_name attr = ?w)) ?m] =>
    destruct (das_check_spec attr.(user_name) w m) as [[H4 ->]|[H4 ->]] end; cbn [default from_option id]; [|tauto].
  destruct (present_spec attr.(sta_addr)) as [[P1 ->]|[P1 ->]], (present_spec attr.(d_multi_session_id)) as [[P2 ->]|[P2 ->]],
    (present_spec attr.(d_cui)) as [[P3 ->]|[P3 ->]], (present_spec attr.(user_name)) as [[P4 ->]|[P4 ->]]; tauto || (split; [intros _; tauto|lia]).
Qed.

(** A Disconnect-Request without a session id frees exactly the entries it
    selects and succeeds if there was one; with a session id it is refused and
    changes nothing. *)
Theorem pmksa_disconnect_exact ok c attr :
  reaches ok c ->
  exists r c', pmksa_cache_auth_radius_das_disconnect c attr = Ok (r, c') /\
    match attr.(acct_session_id) with
    | Some _ => r = -1 /\ c' = c
    | None =>
        (forall a e, c.(heap) !! a = Some e ->
           (c'.(heap) !! a = None <-> selects attr e) /\
           (~ selects attr e -> exists e', c'.(heap) !! a = Some e' /\ strip e' = strip e)) /\
        (r = 0 /\ (exists a e, c.(heap) !! a = Some e /\ selects attr e) \/
         r = -1 /\ (forall a e, c.(heap) !! a = Some e -> ~ selects attr e))
    end.
Proof.
  intros Hc. destruct (reaches_settled _ c Hc) as [A Hset]. destruct (acct_session_id attr) as [x|] eqn:Hx.
  { exists (-1), c. unfold pmksa_cache_auth_radius_das_disconnect. by rewrite Hx. }
  destruct (disconnect_run ok attr c A Hset Hx) as (c' & -> & Hset' & [_ Hrep]).
  set (gone := filter (das_match attr) A) in *. eexists _, c'. split; [reflexivity|]. split.
  - intros a e He. pose proof (settled_lookup ok c A a e Hset He) as Ha. specialize (Hrep a ltac:(by eexists)).
    assert (Hs : a ∈ gone.*1 <-> selects attr e).
    { rewrite <- das_attr_match_spec. change (das_attr_match e attr) with (das_attr_match (strip e) attr). split.
      - intros H. apply in_fst in H as [e' H]. apply list_elem_of_filter in H as [Hm H].
        assert (e' = strip e) as ->; [|done]. eapply NoDup_fst_inj; [apply (rep_nodup c), Hset|done|done].
      - intros H. apply (fst_in _ a (strip e)). by apply list_elem_of_filter. }
    split; [by rewrite <- Hs|]. intros Hns.
    assert (Hin : (a, strip e) ∈ filter (fun x => ~ das_match attr x) A).
    { apply list_elem_of_filter. split; [|done]. intros H. by apply Hns, das_attr_match_spec. }
    apply (rep_entry c' _ a (strip e) (proj1 Hset') Hin).
  - destruct (decide (gone = [])) as [Hg|Hg]; [rewrite bool_decide_true by done|rewrite bool_decide_false by done].
    + right. split; [done|]. intros a e He Hs. apply das_attr_match_spec in Hs.
      pose proof (settled_lookup ok c A a e Hset He) as Ha.
      assert (Hin : (a, strip e) ∈ gone) by (by apply list_elem_of_filter). rewrite Hg in Hin. set_solver.
    + left. split; [done|]. destruct gone as [|[a e] l] eqn:E; [done|].
      assert (Hin : (a, e) ∈ filter (das_match attr) A) by (fold gone; rewrite E; apply list_elem_of_here).
      apply list_elem_of_filter in Hin as [Hm Hin]. destruct (rep_entry _ _ _ _ (proj1 Hset) Hin) as (e' & He' & <-).
      exists a, e'. split; [done|]. by apply das_attr_match_spec.
Qed.

(** An environment in which everything succeeds. *)
Definition easy_env (p : Z) : env :=
  mkEnv (mkTime 1000 0) (mkTime 1000 0) (0, mkTime 1000 0) true p true true true (Some 8%nat).

Lemma easy_env_ok p c : c.(heap) !! p = None -> env_ok (easy_env p) c.
Proof. intros Hp _. exact Hp. Qed.

(** Entries made by opportunistic key caching are added without regard to
    the limit of 1024: the cache can hold any number, none having been freed. *)
Theorem pmksa_okc_unbounded (n : nat) :
  exists c, reaches true c /\ c.(pmksa_count) = Z.of_nat n /\ c.(freed) = [].
Proof.
  induction n as [|n (c & Hc & Hn & Hf)].
  - exists (pmksa_cache_auth_init eloop_init). split_and!; [constructor|done|done].
  - destruct (reaches_settled _ c Hc) as [A Hset].
    set (p := fresh (NULL :: A.*1)). pose proof (infinite_is_fresh (NULL :: A.*1)) as Hp. fold p in Hp.
    apply not_elem_of_cons in Hp as [Hp0 HpA].
    assert (Hv : env_ok (easy_env p) c).
    { apply easy_env_ok, eq_None_not_Some. intros H. by apply HpA, Hset. }
    destruct (okc_run true (easy_env p) c A zero_entry [] Hset Hv) as (q & c' & E & H).
    destruct H as [[-> _]|(-> & _ & _ & Hset' & [Hf' _])].
    { exfalso. revert E. unfold pmksa_cache_add_okc. destruct (Z.eqb_spec (a_entry (easy_env p)) NULL); [done|].
      destruct (pmksa_cache_link_entry _ _ _ _ _); cbn [cbind]; [|done]. intros [= H _]. done. }
    exists c'. split_and!.
    + apply (reach_op true c c' (OpAddOkc (easy_env p) zero_entry [])); [done|done|]. cbn [run_op]. by rewrite E.
    + rewrite (rep_count _ _ (proj1 Hset')), sinsert_length. rewrite (rep_count _ _ (proj1 Hset)) in Hn. lia.
    + by rewrite Hf', Hf.
Qed.

End runs.

(** ** Witnesses *)

Definition example_hmac : Hmac :=
  {| hmac_sha1_vector := fun key _ => take 20 (key ++ replicate 20 0);
     hmac_sha256_vector := fun key _ => take 32 (key ++ replicate 32 0);
     hmac_sha384_vector := fun key _ => take 48 (key ++ replicate 48 0) |}.
Definition example_aa : list Z := [2; 0; 0; 0; 0; 1].
Definition example_spa : list Z := [2; 0; 0; 0; 1; 7].
Definition example_key : list Z := replicate 32 9.
Definition example_add (p : Z) : op :=
  OpAdd (easy_env p) example_key None None example_aa example_spa 600 None WPA_KEY_MGMT_IEEE8021X.
Definition example_cache : rsn_pmksa_cache :=
  match run_op 4096 7 (HM := example_hmac) (example_add 64) (pmksa_cache_auth_init eloop_init) with
  | Ok c => c
  | Fault => pmksa_cache_auth_init eloop_init
  end.

Lemma example_reached : reaches 4096 7 (HM := example_hmac) true example_cache.
Proof.
  apply (reach_op _ _ true (pmksa_cache_auth_init eloop_init) _ (example_add 64)); [constructor| |].
  - apply easy_env_ok. vm_compute. reflexivity.
  - vm_compute. reflexivity.
Qed.

(** One entry is in the cache, and the timeout cannot be registered. *)
Definition poor_env (p : Z) : env :=
  mkEnv (mkTime 1000 0) (mkTime 1000 0) (0, mkTime 1000 0) false p true true true (Some 8%nat).
Definition poor_add (p : Z) : op :=
  OpAdd (poor_env p) example_key None None example_aa example_spa 30 None WPA_KEY_MGMT_IEEE8021X.

Lemma pmksa_cache_sound_witness :
  example_cache.(pmksa_count) = 1 /\
  (exists c' A' D, run_op 4096 7 (HM := example_hmac) (poor_add 128) example_cache = Ok c' /\
     settled 4096 7 false c' A' /\ reported D example_cache c') /\
  exists c' A' D, run_op 4096 7 (HM := example_hmac) (OpExpire (easy_env 0)) example_cache = Ok c' /\
    settled 4096 7 true c' A' /\ reported D example_cache c'.
Proof.
  destruct (pmksa_cache_sound 4096 7 (HM := example_hmac) true example_cache example_reached) as (_ & H & _).
  split; [vm_compute; reflexivity|]. split.
  - apply (H (poor_add 128)). intros _. vm_compute. reflexivity.
  - apply (H (OpExpire (easy_env 0))). intros []. reflexivity.
Defined.

Lemma pmksa_get_finds_witness :
  exists q, pmksa_cache_auth_get example_cache (Some example_spa) (Some (replicate 16 9)) = Ok q /\
    ((q = NULL /\ forall a e, example_cache.(heap) !! a = Some e -> ~ wanted (Some example_spa) (Some (replicate 16 9)) e) \/
     (q <> NULL /\ exists e, example_cache.(heap) !! q = Some e /\ wanted (Some example_spa) (Some (replicate 16 9)) e)).
Proof. exact (pmksa_get_finds 4096 7 (HM := example_hmac) true example_cache _ _ example_reached). Defined.

Example pmksa_get_64 :
  pmksa_cache_auth_get example_cache (Some example_spa) (Some (replicate 16 9)) = Ok 64.
Proof. vm_compute. reflexivity. Qed.

Lemma pmksa_add_replaces_witness :
  exists A c' e D, settled 4096 7 true example_cache A /\
    pmksa_cache_auth_add 4096 7 (HM := example_hmac) (easy_env 128) example_cache example_key None None example_aa
      example_spa 600 None WPA_KEY_MGMT_IEEE8021X = Ok (128, c') /\
    settled 4096 7 true c' (added (128, e) A) /\ reported D example_cache c'.
Proof.
  destruct (pmksa_add_replaces 4096 7 (HM := example_hmac) true (easy_env 128) example_cache example_key None None example_aa
    example_spa 600 None WPA_KEY_MGMT_IEEE8021X example_reached) as (A & c' & e & D & H1 & H2 & _ & H3 & H4 & _).
  - apply easy_env_ok. vm_compute. reflexivity.
  - intros [H|[[H _]|H]]; vm_compute in H; discriminate H.
  - exists A, c', e, D. exact (conj H1 (conj H2 (conj H3 H4))).
Defined.

Lemma pmksa_expire_exact_witness :
  exists c', pmksa_cache_expire 4096 7 (easy_env 0) example_cache = Ok c' /\
    exists e', c'.(heap) !! 64 = Some e' /\ e'.(expiration) = 1600.
Proof.
  destruct (pmksa_expire_exact 4096 7 (HM := example_hmac) true (easy_env 0) example_cache example_reached) as (c' & E & H & _).
  - apply easy_env_ok. vm_compute. reflexivity.
  - reflexivity.
  - exists c'. split; [exact E|].
    assert (He : exists e, heap example_cache !! 64 = Some e /\ expiration e = 1600) by (eexists; split; vm_compute; reflexivity).
    destruct He as (e & He & Hx). specialize (H 64 e He). rewrite Hx in H. destruct H as (e' & He' & Hs).
    exists e'. split; [exact He'|]. rewrite <- (expiration_strip e'), Hs. exact Hx.
Defined.

Lemma pmksa_disconnect_exact_witness :
  let attr := mkDas (Some example_spa) None None None None in
  exists r c', pmksa_cache_auth_radius_das_disconnect example_cache attr = Ok (r, c') /\ c'.(heap) !! 64 = None.
Proof.
  intros attr.
  destruct (pmksa_disconnect_exact 4096 7 (HM := example_hmac) true example_cache attr example_reached) as (r & c' & E & H & _).
  exists r, c'. split; [exact E|].
  assert (He : exists e, heap example_cache !! 64 = Some e /\ spa e = example_spa) by (eexists; split; vm_compute; reflexivity).
  destruct He as (e & He & Hs). apply (H 64 e He). split; [left; eexists; reflexivity|].
  split_and!; [|discriminate|discriminate|discriminate]. intros x Hx. injection Hx as <-. symmetry. exact Hs.
Defined.

End PmksaCache.
