(* ===== verification/WpaKey.v ===== *)
(** * Keys and integrity codes of EAPOL-Key frames

    The key sizes, the pairwise key derivation and the integrity code of
    common/wpa_common.c, with the key expansion functions of crypto/sha1-prf.c,
    crypto/sha256-prf.c, crypto/sha384-prf.c and crypto/sha512-prf.c.  The keyed
    hashes are computed by the TLS library and are the class [Hmac]; the
    AES integrity code is [AesModes.omac1_aes_128]. *)

From Stdlib Require Import Ascii String.
From S2P Require Import Prelude WpaDefs AesModes.

Module WpaKey.
Import WpaDefs AesModes.

#[local] Open Scope Z_scope.
#[local] Open Scope list_scope.

(** *** Sizes (common/wpa_common.h, common/wpa_common.c) *)

Definition ETH_ALEN : Z := 6.
Definition WPA_KEK_MAX_LEN : Z := 64.
Definition WPA_TK_MAX_LEN : Z := 32.
Definition WPA_KDK_MAX_LEN : Z := 32.
Definition MAX_Z_LEN : Z := 66.

(** [struct ieee802_1x_hdr] and [struct wpa_eapol_key] are packed. *)
Definition sizeof_hdr : Z := 4.
Definition sizeof_eapol_key : Z := 77.

Definition one_of (x : Z) (l : list Z) : bool := existsb (Z.eqb x) l.

Definition wpa_kck_len (akmp pmk_len : Z) : Z :=
  if one_of akmp [WPA_KEY_MGMT_IEEE8021X_SUITE_B_192; WPA_KEY_MGMT_IEEE8021X_SHA384;
                  WPA_KEY_MGMT_FT_IEEE8021X_SHA384] then 24
  else if one_of akmp [WPA_KEY_MGMT_FILS_SHA256; WPA_KEY_MGMT_FT_FILS_SHA256;
                       WPA_KEY_MGMT_FILS_SHA384; WPA_KEY_MGMT_FT_FILS_SHA384] then 0
  else if one_of akmp [WPA_KEY_MGMT_DPP; WPA_KEY_MGMT_OWE; WPA_KEY_MGMT_SAE_EXT_KEY;
                       WPA_KEY_MGMT_FT_SAE_EXT_KEY] then pmk_len / 2
  else 16.

Definition wpa_kek_len (akmp pmk_len : Z) : Z :=
  if one_of akmp [WPA_KEY_MGMT_FILS_SHA384; WPA_KEY_MGMT_FT_FILS_SHA384] then 64
  else if one_of akmp [WPA_KEY_MGMT_IEEE8021X_SUITE_B_192; WPA_KEY_MGMT_FILS_SHA256;
                       WPA_KEY_MGMT_FT_FILS_SHA256; WPA_KEY_MGMT_FT_IEEE8021X_SHA384;
                       WPA_KEY_MGMT_IEEE8021X_SHA384] then 32
  else if one_of akmp [WPA_KEY_MGMT_DPP; WPA_KEY_MGMT_OWE; WPA_KEY_MGMT_SAE_EXT_KEY;
                       WPA_KEY_MGMT_FT_SAE_EXT_KEY] then (if pmk_len <=? 32 then 16 else 32)
  else 16.

Definition wpa_mic_len (akmp pmk_len : Z) : Z :=
  if one_of akmp [WPA_KEY_MGMT_IEEE8021X_SUITE_B_192; WPA_KEY_MGMT_FT_IEEE8021X_SHA384;
                  WPA_KEY_MGMT_IEEE8021X_SHA384] then 24
  else if one_of akmp [WPA_KEY_MGMT_FILS_SHA256; WPA_KEY_MGMT_FILS_SHA384;
                       WPA_KEY_MGMT_FT_FILS_SHA256; WPA_KEY_MGMT_FT_FILS_SHA384] then 0
  else if one_of akmp [WPA_KEY_MGMT_DPP; WPA_KEY_MGMT_OWE; WPA_KEY_MGMT_SAE_EXT_KEY;
                       WPA_KEY_MGMT_FT_SAE_EXT_KEY] then pmk_len / 2
  else 16.

Definition wpa_use_akm_defined (akmp : Z) : bool :=
  (akmp =? WPA_KEY_MGMT_OSEN) || (akmp =? WPA_KEY_MGMT_OWE) || (akmp =? WPA_KEY_MGMT_DPP) ||
  (akmp =? WPA_KEY_MGMT_FT_IEEE8021X_SHA384) || (akmp =? WPA_KEY_MGMT_IEEE8021X_SHA384) ||
  wpa_key_mgmt_sae akmp || wpa_key_mgmt_suite_b akmp || wpa_key_mgmt_fils akmp.

Definition wpa_use_cmac (akmp : Z) : bool :=
  (akmp =? WPA_KEY_MGMT_OSEN) || (akmp =? WPA_KEY_MGMT_OWE) || (akmp =? WPA_KEY_MGMT_DPP) ||
  wpa_key_mgmt_ft akmp || wpa_key_mgmt_sha256 akmp ||
  (wpa_key_mgmt_sae akmp && negb (wpa_key_mgmt_sae_ext_key akmp)) || wpa_key_mgmt_suite_b akmp.

Definition wpa_use_aes_key_wrap (akmp : Z) : bool :=
  (akmp =? WPA_KEY_MGMT_OSEN) || (akmp =? WPA_KEY_MGMT_OWE) || (akmp =? WPA_KEY_MGMT_DPP) ||
  (akmp =? WPA_KEY_MGMT_IEEE8021X_SHA384) ||
  wpa_key_mgmt_ft akmp || wpa_key_mgmt_sha256 akmp || wpa_key_mgmt_sae akmp || wpa_key_mgmt_suite_b akmp.

Definition wpa_cipher_key_len (cipher : Z) : Z :=
  if one_of cipher [WPA_CIPHER_CCMP_256; WPA_CIPHER_GCMP_256; WPA_CIPHER_BIP_GMAC_256;
                    WPA_CIPHER_BIP_CMAC_256] then 32
  else if one_of cipher [WPA_CIPHER_CCMP; WPA_CIPHER_GCMP; WPA_CIPHER_AES_128_CMAC;
                         WPA_CIPHER_BIP_GMAC_128] then 16
  else if cipher =? WPA_CIPHER_TKIP then 32
  else 0.

(** [enum wpa_alg] (common/defs.h) *)
Inductive wpa_alg :=
| WPA_ALG_NONE | WPA_ALG_WEP | WPA_ALG_TKIP | WPA_ALG_CCMP | WPA_ALG_BIP_CMAC_128 | WPA_ALG_GCMP
| WPA_ALG_SMS4 | WPA_ALG_KRK | WPA_ALG_GCMP_256 | WPA_ALG_CCMP_256 | WPA_ALG_BIP_GMAC_128
| WPA_ALG_BIP_GMAC_256 | WPA_ALG_BIP_CMAC_256.

#[export] Instance wpa_alg_eq_dec : EqDecision wpa_alg.
Proof. solve_decision. Defined.

Definition wpa_cipher_to_alg (cipher : Z) : wpa_alg :=
  if cipher =? WPA_CIPHER_CCMP_256 then WPA_ALG_CCMP_256
  else if cipher =? WPA_CIPHER_GCMP_256 then WPA_ALG_GCMP_256
  else if cipher =? WPA_CIPHER_CCMP then WPA_ALG_CCMP
  else if cipher =? WPA_CIPHER_GCMP then WPA_ALG_GCMP
  else if cipher =? WPA_CIPHER_TKIP then WPA_ALG_TKIP
  else if cipher =? WPA_CIPHER_AES_128_CMAC then WPA_ALG_BIP_CMAC_128
  else if cipher =? WPA_CIPHER_BIP_GMAC_128 then WPA_ALG_BIP_GMAC_128
  else if cipher =? WPA_CIPHER_BIP_GMAC_256 then WPA_ALG_BIP_GMAC_256
  else if cipher =? WPA_CIPHER_BIP_CMAC_256 then WPA_ALG_BIP_CMAC_256
  else WPA_ALG_NONE.

(** *** Keyed hashes and key expansion *)

Inductive hash := MD5 | SHA1 | SHA256 | SHA384 | SHA512.

Definition mac_len (h : hash) : Z :=
  match h with MD5 => 16 | SHA1 => 20 | SHA256 => 32 | SHA384 => 48 | SHA512 => 64 end.

(** [hmac_sha1(key, key_len, data, data_len, mac)] and the like; [None] is a
    failure of the library.  The vector variants hash the concatenation. *)
Class Hmac := { hmac : hash -> list Z -> list Z -> option (list Z) }.

Class HmacLaws `{!Hmac} := {
  hmac_output h key data m : hmac h key data = Some m -> zlen m = mac_len h /\ bytes m
}.

Definition str (s : string) : list Z := map (fun c => Z.of_nat (nat_of_ascii c)) (list_ascii_of_string s).

(** [os_memcmp] of two regions of the same length. *)
Fixpoint memcmp (a b : list Z) : Z :=
  match a, b with
  | x :: a, y :: b => if x =? y then memcmp a b else x - y
  | _, _ => 0
  end.

Section keys.
Context `{HM : !Hmac} {ctx : Type} `{BC : !BlockCipher ctx}.

(** The passes of [sha1_prf]: blocks until the buffer of [left] bytes is full. *)
Fixpoint sha1_prf_loop (fuel : nat) (key msg : list Z) (counter left : Z) : option (list Z) :=
  match fuel with
  | O => Some []
  | S fuel =>
      if left <=? 0 then Some []
      else
        h ← hmac SHA1 key (msg ++ [counter]);
        if mac_len SHA1 <=? left then
          rest ← sha1_prf_loop fuel key msg (u8 (counter + 1)) (left - mac_len SHA1);
          Some (h ++ rest)
        else Some (take (Z.to_nat left) h)
  end.

Definition sha1_prf (key : list Z) (label : string) (data : list Z) (buf_len : Z) : option (list Z) :=
  sha1_prf_loop (S (Z.to_nat buf_len)) key (str label ++ [0] ++ data) 0 buf_len.

Fixpoint prf_loop (h : hash) (fuel : nat) (key msg : list Z) (counter left : Z) : option (list Z) :=
  match fuel with
  | O => Some []
  | S fuel =>
      if left <=? 0 then Some []
      else
        m ← hmac h key (WPA_PUT_LE16 counter ++ msg);
        if mac_len h <=? left then
          rest ← prf_loop h fuel key msg (u16 (counter + 1)) (left - mac_len h);
          Some (m ++ rest)
        else Some (take (Z.to_nat left) m)
  end.

(** [buf[pos - 1] &= 0xff << (8 - bits % 8)] *)
Definition mask_last (bits : Z) (buf : list Z) : list Z :=
  if bits mod 8 =? 0 then buf
  else let pos := Z.to_nat ((bits + 7) / 8 - 1) in
       <[pos := Z.land (at_ buf (Z.of_nat pos)) (u8 (Z.shiftl 0xff (8 - bits mod 8)))]> buf.

Definition prf_bits (h : hash) (key : list Z) (label : string) (data : list Z) (bits : Z) : option (list Z) :=
  let buf_len := (bits + 7) / 8 in
  buf ← prf_loop h (S (Z.to_nat buf_len)) key (str label ++ data ++ WPA_PUT_LE16 (u16 bits)) 1 buf_len;
  Some (mask_last bits buf).

Definition sha256_prf_bits := prf_bits SHA256.
Definition sha384_prf_bits := prf_bits SHA384.
Definition sha512_prf_bits := prf_bits SHA512.
Definition sha256_prf key label data buf_len := sha256_prf_bits key label data (buf_len * 8).
Definition sha384_prf key label data buf_len := sha384_prf_bits key label data (buf_len * 8).
Definition sha512_prf key label data buf_len := sha512_prf_bits key label data (buf_len * 8).

(** *** Pairwise key derivation *)

(** [struct wpa_ptk]: each part with exactly its length. *)
Record wpa_ptk := mkPtk { kck : list Z; kek : list Z; tk : list Z; kdk : list Z }.

Definition zero_ptk : wpa_ptk := mkPtk [] [] [] [].

(** The bytes hashed: the smaller address and nonce first. *)
Definition ordered (a b : list Z) : list Z := if memcmp a b <? 0 then a ++ b else b ++ a.

Definition ptk_data (addr1 addr2 nonce1 nonce2 z : list Z) : list Z :=
  ordered addr1 addr2 ++ ordered nonce1 nonce2 ++ z.

(** The key expansion an AKM uses; [None] when it has none for this PMK. *)
Definition ptk_prf (akmp pmk_len : Z) : option (list Z -> string -> list Z -> Z -> option (list Z)) :=
  let by_len := if pmk_len =? 32 then Some sha256_prf
                else if pmk_len =? 48 then Some sha384_prf
                else if pmk_len =? 64 then Some sha512_prf else None in
  if wpa_key_mgmt_sha384 akmp then Some sha384_prf
  else if wpa_key_mgmt_sha256 akmp then Some sha256_prf
  else if akmp =? WPA_KEY_MGMT_DPP then by_len
  else Some sha1_prf.

(** [None] is -1; the key material goes through a buffer of [sizeof(tmp)]
    bytes and into the arrays of [struct wpa_ptk]. *)
Definition wpa_pmk_to_ptk (pmk : list Z) (label : string) (addr1 addr2 nonce1 nonce2 : list Z)
    (akmp cipher : Z) (z : list Z) (kdk_len : Z) : cres (option wpa_ptk) :=
  let pmk_len := zlen pmk in
  if pmk_len =? 0 then Ok None
  else if MAX_Z_LEN <? zlen z then Ok None
  else if WPA_KDK_MAX_LEN <? kdk_len then Ok None
  else
    let kck_len := wpa_kck_len akmp pmk_len in
    let kek_len := wpa_kek_len akmp pmk_len in
    let tk_len := wpa_cipher_key_len cipher in
    if tk_len =? 0 then Ok None
    else
      let ptk_len := kck_len + kek_len + tk_len + kdk_len in
      match ptk_prf akmp pmk_len with
      | None => Ok None
      | Some prf =>
          if (WPA_KCK_MAX_LEN + WPA_KEK_MAX_LEN + WPA_TK_MAX_LEN + WPA_KDK_MAX_LEN <? ptk_len) ||
             (WPA_KCK_MAX_LEN <? kck_len) then Fault
          else match prf pmk label (ptk_data addr1 addr2 nonce1 nonce2 z) ptk_len with
               | None => Ok None
               | Some tmp =>
                   Ok (Some (mkPtk (slice 0 kck_len tmp) (slice kck_len kek_len tmp)
                                   (slice (kck_len + kek_len) tk_len tmp)
                                   (slice (kck_len + kek_len + tk_len) kdk_len tmp)))
               end
      end.

(** *** Integrity code *)

(** The code written for a frame, [None] for -1. *)
Definition wpa_eapol_key_mic (key : list Z) (akmp ver : Z) (buf : list Z) : cres (option (list Z)) :=
  let key_len := zlen key in
  let hmac_taking h n := Ok (option_map (take (Z.to_nat n)) (hmac h key buf)) in
  if key_len =? 0 then Ok None
  else if ver =? WPA_KEY_INFO_TYPE_HMAC_MD5_RC4 then hmac_taking MD5 16
  else if ver =? WPA_KEY_INFO_TYPE_HMAC_SHA1_AES then hmac_taking SHA1 16
  else if ver =? WPA_KEY_INFO_TYPE_AES_128_CMAC then
    (r <-- omac1_aes_128 key buf ;; Ok (if fst r =? 0 then Some (snd r) else None))%c
  else if ver =? WPA_KEY_INFO_TYPE_AKM_DEFINED then
    if akmp =? WPA_KEY_MGMT_DPP then
      if key_len =? 16 then hmac_taking SHA256 key_len
      else if key_len =? 24 then hmac_taking SHA384 key_len
      else if key_len =? 32 then hmac_taking SHA512 key_len
      else Ok None
    else if akmp =? WPA_KEY_MGMT_IEEE8021X_SHA384 then hmac_taking SHA384 24
    else Ok None
  else Ok None.

(** Writes into a buffer, checked. *)
Definition wr (l : list Z) (off : Z) (bs : list Z) : cres (list Z) :=
  if (0 <=? off) && (off + zlen bs <=? zlen l) then Ok (put off bs l) else Fault.

Definition mic_off : Z := sizeof_hdr + sizeof_eapol_key.

(** [wpa_verify_key_mic] (ap/wpa_auth.c): 0 and the frame, which the code
    changes while it computes. *)
Definition wpa_verify_key_mic (akmp pmk_len : Z) (PTK : wpa_ptk) (data : list Z) : cres (Z * list Z) :=
  let mic_len := wpa_mic_len akmp pmk_len in
  if zlen data <? mic_off then Ok (-1, data)
  else
    (key_info <-- WPA_GET_BE16 (drop (Z.to_nat (sizeof_hdr + 1)) data) ;;
     mic <-- rdn data mic_off mic_len ;;
     data <-- wr data mic_off (replicate (Z.to_nat mic_len) 0) ;;
     r <-- wpa_eapol_key_mic PTK.(kck) akmp (Z.land key_info 7) data ;;
     match r with
     | None => data <-- wr data mic_off mic ;; Ok (-1, data)
     | Some m =>
         data <-- wr data mic_off m ;;
         got <-- rdn data mic_off mic_len ;;
         data <-- wr data mic_off mic ;;
         Ok (if bool_decide (mic = got) then 0 else -1, data)
     end)%c.

Definition rsn_pmkid (pmk aa spa : list Z) (akmp : Z) : option (list Z) :=
  let h := if wpa_key_mgmt_sha384 akmp then SHA384
           else if wpa_key_mgmt_sha256 akmp then SHA256 else SHA1 in
  option_map (take (Z.to_nat PMKID_LEN)) (hmac h pmk (str "PMK Name" ++ aa ++ spa)).

End keys.

(** *** Lemmas on comparison and key expansion *)

Lemma memcmp_antisym a b : length a = length b -> memcmp b a = - memcmp a b.
Proof.
  revert b. induction a as [|x a IH]; intros [|y b] H; cbn in *; try lia.
  destruct (Z.eqb_spec x y) as [->|Hxy]; [rewrite Z.eqb_refl; apply IH; lia|].
  destruct (Z.eqb_spec y x); lia.
Qed.

Lemma memcmp_zero a b : length a = length b -> memcmp a b = 0 -> a = b.
Proof.
  revert b. induction a as [|x a IH]; intros [|y b] H E; cbn in *; try lia; [done|].
  destruct (Z.eqb_spec x y) as [->|Hxy]; [|lia]. f_equal. apply IH; [lia|done].
Qed.

Lemma ordered_comm a b : length a = length b -> ordered a b = ordered b a.
Proof.
  intros H. unfold ordered. rewrite (memcmp_antisym a b H).
  destruct (Z.ltb_spec (memcmp a b) 0), (Z.ltb_spec (- memcmp a b) 0); try done; [lia|].
  by rewrite (memcmp_zero a b) by lia.
Qed.

Lemma put_self off l bs :
  0 <= off -> off + zlen bs <= zlen l -> slice off (zlen bs) l = bs -> put off bs l = l.
Proof. intros H1 H2 E. rewrite <- E at 1. apply put_slice; lia. Qed.

Lemma wr_ok l off bs : 0 <= off -> off + zlen bs <= zlen l -> wr l off bs = Ok (put off bs l).
Proof.
  intros. unfold wr. destruct (Z.leb_spec 0 off); [|lia].
  by destruct (Z.leb_spec (off + zlen bs) (zlen l)); [|lia].
Qed.
#[export] Hint Rewrite wr_ok using lia : cint.

Section laws.
Context `{HM : !Hmac, HL : !HmacLaws} {ctx : Type} `{BC : !BlockCipher ctx}.

Lemma mac_len_pos h : 16 <= mac_len h <= 64.
Proof. destruct h; cbn; lia. Qed.

Lemma sha1_prf_loop_length fuel key msg c left out :
  0 <= left < Z.of_nat fuel -> sha1_prf_loop fuel key msg c left = Some out -> zlen out = left /\ bytes out.
Proof.
  revert c left out. induction fuel as [|fuel IH]; intros c left out Hf; [lia|]. cbn [sha1_prf_loop].
  destruct (Z.leb_spec left 0); [intros [= <-]; split; [cbn; lia|constructor]|].
  destruct (hmac SHA1 key (msg ++ [c])) as [h|] eqn:Eh; cbn; [|done].
  apply hmac_output in Eh as [Eh Hb]. change (mac_len SHA1) with 20 in *.
  destruct (Z.leb_spec 20 left).
  - destruct (sha1_prf_loop fuel key msg _ _) as [r|] eqn:Er; cbn; [|done]. intros [= <-].
    apply IH in Er as [El Er]; [|lia]. split; [rewrite length_app; lia|by apply bytes_app].
  - intros [= <-]. split; [rewrite length_take; lia|auto with cint].
Qed.

Lemma prf_loop_length h fuel key msg c left out :
  0 <= left < Z.of_nat fuel -> prf_loop h fuel key msg c left = Some out -> zlen out = left /\ bytes out.
Proof.
  pose proof (mac_len_pos h) as Hm.
  revert c left out. induction fuel as [|fuel IH]; intros c left out Hf; [lia|]. cbn [prf_loop].
  destruct (Z.leb_spec left 0); [intros [= <-]; split; [cbn; lia|constructor]|].
  destruct (hmac h key _) as [m|] eqn:Eh; cbn; [|done]. apply hmac_output in Eh as [Eh Hb].
  destruct (Z.leb_spec (mac_len h) left).
  - destruct (prf_loop h fuel key msg _ _) as [r|] eqn:Er; cbn; [|done]. intros [= <-].
    apply IH in Er as [El Er]; [|lia]. split; [rewrite length_app; lia|by apply bytes_app].
  - intros [= <-]. split; [rewrite length_take; lia|auto with cint].
Qed.

Lemma prf_bits_length h key label data n out :
  0 <= n -> prf_bits h key label data (n * 8) = Some out -> zlen out = n /\ bytes out.
Proof.
  intros Hn. unfold prf_bits. replace ((n * 8 + 7) / 8) with n by dlia.
  destruct (prf_loop h _ key _ 1 n) as [b|] eqn:E; cbn [mbind option_bind]; [|done]. intros [= <-].
  apply prf_loop_length in E; [|lia]. unfold mask_last. by rewrite Z.mod_mul by lia.
Qed.

Lemma ptk_prf_length akmp pmk_len prf key label data n out :
  ptk_prf akmp pmk_len = Some prf -> 0 <= n -> prf key label data n = Some out -> zlen out = n /\ bytes out.
Proof.
  unfold ptk_prf. intros Hp Hn.
  assert (Hs1 : sha1_prf key label data n = Some out -> zlen out = n /\ bytes out)
    by (apply sha1_prf_loop_length; lia).
  pose proof (prf_bits_length SHA256 key label data n out Hn).
  pose proof (prf_bits_length SHA384 key label data n out Hn).
  pose proof (prf_bits_length SHA512 key label data n out Hn).
  repeat match type of Hp with context [if ?b then _ else _] => destruct b end;
    first [discriminate | injection Hp as <-]; assumption.
Qed.

Lemma kck_len_bounds akmp pmk_len : 0 <= pmk_len <= PMK_LEN_MAX -> 0 <= wpa_kck_len akmp pmk_len <= 32.
Proof.
  unfold PMK_LEN_MAX, wpa_kck_len. intros.
  repeat match goal with |- context [if ?b then _ else _] => destruct b end; dlia.
Qed.

Lemma kek_len_bounds akmp pmk_len : 0 <= wpa_kek_len akmp pmk_len <= 64.
Proof.
  unfold wpa_kek_len.
  repeat match goal with |- context [if ?b then _ else _] => destruct b end; lia.
Qed.

Lemma cipher_key_len_bounds cipher : 0 <= wpa_cipher_key_len cipher <= 32.
Proof.
  unfold wpa_cipher_key_len.
  repeat match goal with |- context [if ?b then _ else _] => destruct b end; lia.
Qed.

(** What a derivation yields: no overrun of the key buffers, and the parts
    with the lengths of the AKM and the cipher. *)
Lemma pmk_to_ptk_shape pmk label a1 a2 n1 n2 akmp cipher z kdk_len :
  zlen pmk <= PMK_LEN_MAX -> 0 <= kdk_len ->
  exists r, wpa_pmk_to_ptk pmk label a1 a2 n1 n2 akmp cipher z kdk_len = Ok r /\
    forall p, r = Some p ->
      0 < zlen pmk /\ 0 < wpa_cipher_key_len cipher /\
      zlen p.(kck) = wpa_kck_len akmp (zlen pmk) /\ zlen p.(kek) = wpa_kek_len akmp (zlen pmk) /\
      zlen p.(tk) = wpa_cipher_key_len cipher /\ zlen p.(kdk) = kdk_len /\
      bytes p.(kck) /\ bytes p.(kek) /\ bytes p.(tk).
Proof.
  intros Hpmk Hkdk. unfold wpa_pmk_to_ptk.
  destruct (Z.eqb_spec (zlen pmk) 0); [by eexists|].
  destruct (MAX_Z_LEN <? zlen z); [by eexists|].
  destruct (Z.ltb_spec WPA_KDK_MAX_LEN kdk_len) as [|Hk]; [by eexists|].
  pose proof (kck_len_bounds akmp (zlen pmk) ltac:(lia)) as B1.
  pose proof (kek_len_bounds akmp (zlen pmk)) as B2. pose proof (cipher_key_len_bounds cipher) as B3.
  destruct (Z.eqb_spec (wpa_cipher_key_len cipher) 0); [by eexists|].
  destruct (ptk_prf akmp (zlen pmk)) as [prf|] eqn:Ep; [|by eexists].
  unfold WPA_KDK_MAX_LEN, WPA_KCK_MAX_LEN, WPA_KEK_MAX_LEN, WPA_TK_MAX_LEN in *.
  destruct (Z.ltb_spec (32 + 64 + 32 + 32) (wpa_kck_len akmp (zlen pmk) + wpa_kek_len akmp (zlen pmk) + wpa_cipher_key_len cipher + kdk_len)); [lia|].
  destruct (Z.ltb_spec 32 (wpa_kck_len akmp (zlen pmk))); [lia|]. cbn [orb].
  destruct (prf pmk label _ _) as [tmp|] eqn:E; [|by eexists].
  apply (ptk_prf_length _ _ _ _ _ _ _ _ Ep) in E as [E Hb]; [|lia].
  eexists. split; [done|]. intros p [= <-]. cbn [kck kek tk kdk].
  rewrite !length_slice by lia. split_and!; first [lia | auto with cint].
Qed.

(** *** The integrity code *)

(** A frame with its integrity code field cleared, and the descriptor version
    of a frame. *)
Definition cleared (mic_len : Z) (data : list Z) : list Z :=
  put mic_off (replicate (Z.to_nat mic_len) 0) data.
Definition frame_ver (data : list Z) : Z :=
  Z.land (Z.lor (Z.shiftl (at_ data 5) 8) (at_ data 6)) 7.

(** The versions [wpa_auth_valid_key_desc_ver] lets through for an AKM. *)
Definition ver_fits (akmp ver : Z) : Prop :=
  if wpa_use_akm_defined akmp then ver = WPA_KEY_INFO_TYPE_AKM_DEFINED else 1 <= ver <= 3.

Lemma frame_key_info (data : list Z) :
  7 <= zlen data ->
  WPA_GET_BE16 (drop 5 data) = Ok (Z.lor (Z.shiftl (at_ data 5) 8) (at_ data 6)).
Proof.
  intros H. unfold WPA_GET_BE16. rewrite !rd_ok by (rewrite length_drop; lia). cbn [cbind].
  rewrite !at_lookup, !lookup_drop. done.
Qed.

Lemma verify_spec akmp pmk_len PTK data r :
  let mic_len := wpa_mic_len akmp pmk_len in
  0 <= mic_len -> mic_off + mic_len <= zlen data ->
  wpa_eapol_key_mic PTK.(kck) akmp (frame_ver data) (cleared mic_len data) = Ok r ->
  (forall m, r = Some m -> zlen m = mic_len) ->
  wpa_verify_key_mic akmp pmk_len PTK data =
    Ok (if bool_decide (r = Some (slice mic_off mic_len data)) then 0 else -1, data).
Proof.
  cbv zeta. set (n := wpa_mic_len akmp pmk_len). intros Hn Hl Er Hm. unfold wpa_verify_key_mic. fold n.
  assert (Hoff : mic_off = 81) by done.
  destruct (Z.ltb_spec (zlen data) mic_off); [lia|].
  change (Z.to_nat (sizeof_hdr + 1)) with 5%nat. rewrite frame_key_info by lia. cbn [cbind].
  rewrite rdn_ok by lia. cbn [cbind].
  assert (Hz : zlen (replicate (Z.to_nat n) 0) = n) by (rewrite length_replicate; lia).
  rewrite wr_ok by lia. cbn [cbind]. fold (cleared n data). fold (frame_ver data). rewrite Er. cbn [cbind].
  assert (Hc : zlen (cleared n data) = zlen data) by (unfold cleared; rewrite length_put by lia; lia).
  assert (Hs : zlen (slice mic_off n data) = n) by (rewrite length_slice by lia; lia).
  assert (Hback : forall bs, zlen bs = n -> put mic_off (slice mic_off n data) (put mic_off bs data) = data).
  { intros bs Hb. rewrite put_put by lia. apply put_slice; lia. }
  destruct r as [m|]; cycle 1.
  { rewrite wr_ok by lia. cbn [cbind]. unfold cleared. rewrite Hback by done. by rewrite bool_decide_false. }
  specialize (Hm m eq_refl). rewrite wr_ok by lia. cbn [cbind]. unfold cleared. rewrite put_put by lia.
  rewrite rdn_ok by (rewrite ?length_put by lia; lia). cbn [cbind].
  replace (slice mic_off n (put mic_off m data)) with m by (rewrite <- Hm; symmetry; apply slice_put; lia).
  rewrite wr_ok by (rewrite ?length_put by lia; lia). cbn [cbind]. rewrite Hback by done.
  do 2 f_equal. rewrite (bool_decide_ext (slice mic_off n data = m) (Some m = Some (slice mic_off n data)))
    by (split; [by intros ->|by intros [= ->]]). done.
Qed.

End laws.

(** *** Lengths of the codes *)

Section mic.
Context `{HM : !Hmac, HL : !HmacLaws} {ctx : Type} `{BC : !BlockCipher ctx, CL : !CipherLaws ctx}.

Lemma akm_plain akmp pmk_len :
  wpa_use_akm_defined akmp = false -> wpa_kck_len akmp pmk_len = 16 /\ wpa_mic_len akmp pmk_len = 16.
Proof.
  intros H. unfold wpa_kck_len, wpa_mic_len.
  assert (E : forall x, one_of akmp [x] = true -> wpa_use_akm_defined x = true -> False).
  { intros x Hx. unfold one_of in Hx. cbn in Hx. rewrite orb_false_r in Hx. apply Z.eqb_eq in Hx. congruence. }
  assert (N : forall l, forallb wpa_use_akm_defined l = true -> one_of akmp l = false).
  { intros l. induction l as [|x l IH]; [done|]. cbn. intros [Hx Hl]%andb_true_iff.
    unfold one_of in *. cbn. rewrite IH by done. rewrite orb_false_r. apply not_true_iff_false. intros E'.
    apply (E x); [unfold one_of; cbn; by rewrite E'|done]. }
  by rewrite !N by (vm_compute; reflexivity).
Qed.

(** The code has the length of the field, whatever the algorithm. *)
Lemma mic_length akmp pmk_len key buf :
  forall ver, ver_fits akmp ver -> bytes key -> zlen key = wpa_kck_len akmp pmk_len ->
  bytes buf -> buf <> [] ->
  exists r, wpa_eapol_key_mic key akmp ver buf = Ok r /\ forall m, r = Some m -> zlen m = wpa_mic_len akmp pmk_len.
Proof.
  intros ver Hv Hk Hlen Hb Hne. unfold wpa_eapol_key_mic.
  assert (Hh : forall h n l, 0 <= n <= mac_len h -> l = n ->
    exists r, Ok (option_map (take (Z.to_nat n)) (hmac h key buf)) = Ok r /\
      forall m, r = Some m -> zlen m = l).
  { intros h n l Hn ->. eexists. split; [done|]. intros m Hm. destruct (hmac h key buf) as [x|] eqn:Ex; [|done].
    apply hmac_output in Ex as [Ex _]. injection Hm as <-. rewrite length_take. lia. }
  assert (Hnone : exists r, Ok None = Ok r /\ forall m : list Z, r = Some m -> zlen m = wpa_mic_len akmp pmk_len)
    by (by eexists).
  destruct (Z.eqb_spec (zlen key) 0) as [|Hk0]; [done|]. unfold ver_fits in Hv.
  destruct (wpa_use_akm_defined akmp) eqn:Hd.
  - subst ver. cbn [Z.eqb]. change (WPA_KEY_INFO_TYPE_AKM_DEFINED =? WPA_KEY_INFO_TYPE_HMAC_MD5_RC4) with false.
    change (WPA_KEY_INFO_TYPE_AKM_DEFINED =? WPA_KEY_INFO_TYPE_HMAC_SHA1_AES) with false.
    change (WPA_KEY_INFO_TYPE_AKM_DEFINED =? WPA_KEY_INFO_TYPE_AES_128_CMAC) with false.
    rewrite Z.eqb_refl. destruct (Z.eqb_spec akmp WPA_KEY_MGMT_DPP) as [->|].
    + assert (Em : wpa_kck_len WPA_KEY_MGMT_DPP pmk_len = wpa_mic_len WPA_KEY_MGMT_DPP pmk_len) by done.
      rewrite Em in Hlen. destruct (Z.eqb_spec (zlen key) 16); [apply Hh; cbn; lia|].
      destruct (Z.eqb_spec (zlen key) 24); [apply Hh; cbn; lia|].
      destruct (Z.eqb_spec (zlen key) 32); [apply Hh; cbn; lia|done].
    + destruct (Z.eqb_spec akmp WPA_KEY_MGMT_IEEE8021X_SHA384) as [->|]; [|done]. by apply Hh; cbn.
  - destruct (akm_plain akmp pmk_len Hd) as [Ek Em]. rewrite Em. rewrite Ek in Hlen.
    destruct (Z.eqb_spec ver WPA_KEY_INFO_TYPE_HMAC_MD5_RC4); [by apply Hh; cbn|].
    destruct (Z.eqb_spec ver WPA_KEY_INFO_TYPE_HMAC_SHA1_AES); [by apply Hh; cbn|].
    destruct (Z.eqb_spec ver WPA_KEY_INFO_TYPE_AES_128_CMAC) as [|Hv3].
    + destruct (cipher_init key 16) as (ci & _ & Hi & _); [split_and!; [done|lia|by left]|].
      unfold omac1_aes_128, omac1_aes_128_vector. rewrite (omac_spec key 16 ci [buf]); cbn [concat].
      * cbn [cbind fst snd Z.eqb]. eexists. split; [done|]. intros m [= <-]. rewrite app_nil_r.
        destruct (block_cmac ci buf Hb) as [_ ->]. lia.
      * done.
      * done.
      * by rewrite app_nil_r.
      * right. by constructor.
    + unfold WPA_KEY_INFO_TYPE_HMAC_MD5_RC4, WPA_KEY_INFO_TYPE_HMAC_SHA1_AES, WPA_KEY_INFO_TYPE_AES_128_CMAC in *.
      change (BIT 0) with 1 in *. change (BIT 1) with 2 in *. lia.
Qed.

Lemma length_cleared n data : 0 <= n -> mic_off + n <= zlen data -> zlen (cleared n data) = zlen data.
Proof.
  intros. assert (mic_off = 81) by done. unfold cleared. rewrite length_put; [done|lia|]. rewrite length_replicate. lia.
Qed.

Lemma mic_len_range akmp pmk_len : 0 <= pmk_len <= PMK_LEN_MAX -> 0 <= wpa_mic_len akmp pmk_len <= 32.
Proof.
  unfold PMK_LEN_MAX, wpa_mic_len. intros.
  repeat match goal with |- context [if ?b then _ else _] => destruct b end; dlia.
Qed.

(** The key confirmation key an AKM derives from a PMK of a length. *)
Definition kck_fits (akmp pmk_len : Z) (PTK : wpa_ptk) : Prop :=
  bytes PTK.(kck) /\ zlen PTK.(kck) = wpa_kck_len akmp pmk_len.

Lemma verify_total akmp pmk_len PTK data :
  let mic_len := wpa_mic_len akmp pmk_len in
  0 <= pmk_len <= PMK_LEN_MAX -> kck_fits akmp pmk_len PTK ->
  bytes data -> mic_off + mic_len <= zlen data -> ver_fits akmp (frame_ver data) ->
  exists r,
    wpa_eapol_key_mic PTK.(kck) akmp (frame_ver data) (cleared mic_len data) = Ok r /\
    (forall m, r = Some m -> zlen m = mic_len) /\
    wpa_verify_key_mic akmp pmk_len PTK data =
      Ok (if bool_decide (r = Some (slice mic_off mic_len data)) then 0 else -1, data).
Proof.
  cbv zeta. intros Hp [Hk Hkl] Hb Hl Hv. pose proof (mic_len_range akmp pmk_len Hp) as Hr.
  assert (mic_off = 81) by done.
  destruct (mic_length akmp pmk_len PTK.(kck) (cleared (wpa_mic_len akmp pmk_len) data) _ Hv) as (r & Er & Hm); try done.
  - apply bytes_put; [by apply bytes_replicate|done].
  - intros E. pose proof (length_cleared (wpa_mic_len akmp pmk_len) data ltac:(lia) Hl) as E2. rewrite E in E2. cbn in E2. lia.
  - exists r. split_and!; [done|done|]. by apply verify_spec; [lia|..].
Qed.

Lemma cleared_put n m data : zlen m = n -> mic_off + n <= zlen data -> cleared n (put mic_off m data) = cleared n data.
Proof. intros <- H. assert (mic_off = 81) by done. apply put_put; [rewrite length_replicate; lia|lia|done]. Qed.

Lemma at_put_before i off bs (l : list Z) : 0 <= i < off -> off <= zlen l -> at_ (put off bs l) i = at_ l i.
Proof.
  intros. rewrite !at_lookup. unfold put. rewrite lookup_app_l by (rewrite length_take; lia).
  by rewrite lookup_take_lt by lia.
Qed.

Lemma frame_ver_put m data : mic_off <= zlen data -> frame_ver (put mic_off m data) = frame_ver data.
Proof. intros. assert (mic_off = 81) by done. unfold frame_ver. by rewrite !at_put_before by lia. Qed.

(** C28: Both ends of a pairwise key derivation get the same keys: swapping the
    roles of the addresses and nonces changes nothing, whatever their order.  No
    PMK of at most [PMK_LEN_MAX] bytes overruns the key buffers, and the keys
    derived have the lengths of the AKM and the cipher. *)
Theorem pairwise_keys_agree pmk label aa spa anonce snonce akmp cipher z kdk_len :
  length aa = length spa -> length anonce = length snonce ->
  zlen pmk <= PMK_LEN_MAX -> 0 <= kdk_len ->
  exists r,
    wpa_pmk_to_ptk pmk label aa spa anonce snonce akmp cipher z kdk_len = Ok r /\
    wpa_pmk_to_ptk pmk label spa aa snonce anonce akmp cipher z kdk_len = Ok r /\
    forall p, r = Some p ->
      kck_fits akmp (zlen pmk) p /\ zlen p.(kek) = wpa_kek_len akmp (zlen pmk) /\
      zlen p.(tk) = wpa_cipher_key_len cipher /\ zlen p.(kdk) = kdk_len.
Proof.
  intros Ha Hn Hp Hk.
  destruct (pmk_to_ptk_shape pmk label aa spa anonce snonce akmp cipher z kdk_len Hp Hk) as (r & Er & Hr).
  exists r. split; [done|]. split.
  - rewrite <- Er. unfold wpa_pmk_to_ptk, ptk_data. by rewrite (ordered_comm spa aa), (ordered_comm snonce anonce).
  - intros p E. unfold kck_fits. destruct (Hr p E) as (_ & _ & ? & ? & ? & ? & ? & _). by split_and!.
Qed.


End mic.

(** *** Witnesses *)

(** A keyed hash with the right output lengths. *)
Definition demo_hmac (h : hash) (key data : list Z) : option (list Z) :=
  Some (map (fun i => (i + foldl (fun s b => 7 * s + b) 1 (key ++ data)) mod 256) (seqZ 0 (mac_len h))).

#[export] Instance demo_hmac_inst : Hmac := { hmac := demo_hmac }.
#[export] Instance demo_hmac_laws : HmacLaws.
Proof.
  constructor. intros h key data m [= <-]. split; [rewrite length_map, length_seqZ; by destruct h|].
  apply Forall_map, Forall_true. intros i. cbn. dlia.
Qed.

Definition demo_pmk : list Z := seqZ 1 32.
Definition demo_aa : list Z := [2;0;0;0;0;1].
Definition demo_spa : list Z := [2;0;0;0;0;2].
Definition demo_anonce : list Z := replicate 32 0xa5.
Definition demo_snonce : list Z := replicate 32 0x5a.
Definition demo_ptk : wpa_ptk :=
  match wpa_pmk_to_ptk demo_pmk "Pairwise key expansion" demo_aa demo_spa demo_anonce demo_snonce
          WPA_KEY_MGMT_PSK WPA_CIPHER_CCMP [] 0 with Ok (Some p) => p | _ => zero_ptk end.
Definition demo_frame : list Z := [2;3;0;95;2;1;10] ++ replicate 92 0.

Lemma pairwise_keys_agree_witness :
  exists r,
    wpa_pmk_to_ptk demo_pmk "Pairwise key expansion" demo_aa demo_spa demo_anonce demo_snonce
      WPA_KEY_MGMT_PSK WPA_CIPHER_CCMP [] 0 = Ok r /\
    wpa_pmk_to_ptk demo_pmk "Pairwise key expansion" demo_spa demo_aa demo_snonce demo_anonce
      WPA_KEY_MGMT_PSK WPA_CIPHER_CCMP [] 0 = Ok r /\
    forall p, r = Some p ->
      kck_fits WPA_KEY_MGMT_PSK (zlen demo_pmk) p /\ zlen p.(kek) = wpa_kek_len WPA_KEY_MGMT_PSK (zlen demo_pmk) /\
      zlen p.(tk) = wpa_cipher_key_len WPA_CIPHER_CCMP /\ zlen p.(kdk) = 0.
Proof. apply pairwise_keys_agree; [done|done|by_deciding|lia]. Defined.


End WpaKey.
