(* ===== verification/Kde.v ===== *)
(** * Key data of EAPOL-Key frames

    The parser of key data, [wpa_parse_kde_ies] of common/wpa_common.c, and the
    writer of key data elements, [wpa_add_kde] of ap/wpa_auth_ie.c. *)

From S2P Require Import Prelude WpaDefs WpaKey.

Module Kde.
Import WpaDefs WpaKey.

#[local] Open Scope Z_scope.
#[local] Open Scope list_scope.

(** *** Constants (common/ieee802_11_defs.h, common/defs.h, common/wpa_common.h) *)

Definition WLAN_EID_SSID : Z := 0.
Definition WLAN_EID_SUPP_RATES : Z := 1.
Definition WLAN_EID_SUPPORTED_CHANNELS : Z := 36.
Definition WLAN_EID_HT_CAP : Z := 45.
Definition WLAN_EID_QOS : Z := 46.
Definition WLAN_EID_EXT_SUPP_RATES : Z := 50.
Definition WLAN_EID_MOBILITY_DOMAIN : Z := 54.
Definition WLAN_EID_FAST_BSS_TRANSITION : Z := 55.
Definition WLAN_EID_TIMEOUT_INTERVAL : Z := 56.
Definition WLAN_EID_SUPPORTED_OPERATING_CLASSES : Z := 59.
Definition WLAN_EID_LINK_ID : Z := 101.
Definition WLAN_EID_EXT_CAPAB : Z := 127.
Definition WLAN_EID_VHT_CAP : Z := 191.
Definition WLAN_EID_AID : Z := 197.
Definition WLAN_EID_EXTENSION : Z := 255.
Definition WLAN_EID_EXT_HE_CAPABILITIES : Z := 35.
Definition WLAN_EID_EXT_HE_6GHZ_BAND_CAP : Z := 59.
Definition WLAN_EID_EXT_EHT_CAPABILITIES : Z := 108.
Definition WLAN_TIMEOUT_REASSOC_DEADLINE : Z := 1.
Definition WLAN_TIMEOUT_KEY_LIFETIME : Z := 2.
Definition IEEE80211_HE_CAPAB_MIN_LEN : Z := 17.
Definition IEEE80211_EHT_CAPAB_MIN_LEN : Z := 11.
Definition sizeof_ht_capabilities : Z := 26.
Definition sizeof_vht_capabilities : Z := 12.
Definition sizeof_he_6ghz_band_cap : Z := 2.
Definition OUI_MICROSOFT : Z := 0x0050f2.
Definition WMM_OUI_TYPE : Z := 2.
Definition WMM_OUI_SUBTYPE_INFORMATION_ELEMENT : Z := 0.
Definition WMM_OUI_SUBTYPE_PARAMETER_ELEMENT : Z := 1.
Definition MAX_NUM_MLD_LINKS : Z := 15.
Definition RSN_MLO_GTK_KDE_PREFIX_LENGTH : Z := 7.
Definition RSN_MLO_IGTK_KDE_PREFIX_LENGTH : Z := 9.
Definition RSN_MLO_BIGTK_KDE_PREFIX_LENGTH : Z := 9.
Definition RSN_MLO_LINK_KDE_FIXED_LENGTH : Z := 7.

(** *** Parsed key data *)

(** [struct wpa_eapol_ie_parse].  A pointer is [None] for [NULL], and else the
    bytes it stands for: the [_len] member's when there is one, and else those
    whose presence the parser has checked. *)
Record wpa_eapol_ie_parse := mkIes {
  wpa_ie : option (list Z); rsn_ie : option (list Z); pmkid : option (list Z);
  key_id : option (list Z); gtk : option (list Z); mac_addr : option (list Z);
  igtk : option (list Z); bigtk : option (list Z); mdie : option (list Z); ftie : option (list Z);
  ip_addr_req : option (list Z); ip_addr_alloc : option (list Z);
  transition_disable : option (list Z); dpp_kde : option (list Z); oci : option (list Z);
  osen : option (list Z); rsnxe : option (list Z); reassoc_deadline : option (list Z);
  key_lifetime : option (list Z); lnkid : option (list Z); ext_capab : option (list Z);
  supp_rates : option (list Z); ext_supp_rates : option (list Z); ht_capabilities : option (list Z);
  vht_capabilities : option (list Z); he_capabilities : option (list Z);
  he_6ghz_capabilities : option (list Z); eht_capabilities : option (list Z);
  supp_channels : option (list Z); supp_oper_classes : option (list Z); ssid : option (list Z);
  qosinfo : Z; aid : Z; wmm : option (list Z);
  mlo_gtk : list (option (list Z)); mlo_igtk : list (option (list Z));
  mlo_bigtk : list (option (list Z)); mlo_link : list (option (list Z));
  valid_mlo_gtks : Z; valid_mlo_igtks : Z; valid_mlo_bigtks : Z; valid_mlo_links : Z }.

#[export] Instance ies_settable : Settable wpa_eapol_ie_parse := fun r =>
  mkIes r.(wpa_ie) r.(rsn_ie) r.(pmkid) r.(key_id) r.(gtk) r.(mac_addr) r.(igtk) r.(bigtk) r.(mdie) r.(ftie)
    r.(ip_addr_req) r.(ip_addr_alloc) r.(transition_disable) r.(dpp_kde) r.(oci) r.(osen) r.(rsnxe)
    r.(reassoc_deadline) r.(key_lifetime) r.(lnkid) r.(ext_capab) r.(supp_rates) r.(ext_supp_rates)
    r.(ht_capabilities) r.(vht_capabilities) r.(he_capabilities) r.(he_6ghz_capabilities)
    r.(eht_capabilities) r.(supp_channels) r.(supp_oper_classes) r.(ssid) r.(qosinfo) r.(aid) r.(wmm)
    r.(mlo_gtk) r.(mlo_igtk) r.(mlo_bigtk) r.(mlo_link) r.(valid_mlo_gtks) r.(valid_mlo_igtks)
    r.(valid_mlo_bigtks) r.(valid_mlo_links).

(** [os_memset(ie, 0, sizeof( *ie))] *)
Definition no_ies : wpa_eapol_ie_parse :=
  let links := replicate (Z.to_nat MAX_NUM_MLD_LINKS) None in
  mkIes None None None None None None None None None None None None None None None None None None None None
    None None None None None None None None None None None 0 0 None links links links links 0 0 0 0.

(** [&pos[off]] of [len] bytes. *)
Definition ptr (pos : list Z) (off len : Z) : cres (option (list Z)) :=
  (x <-- rdn pos off len ;; Ok (Some x))%c.

Definition WPA_GET_BE24 (a : list Z) : cres Z :=
  (x <-- rd a 0 ;; y <-- rd a 1 ;; z <-- rd a 2 ;;
   Ok (Z.lor (Z.lor (Z.shiftl x 16) (Z.shiftl y 8)) z))%c.

(** In the parsers [pos] is the rest of the buffer from the element on. *)
Definition wpa_parse_vendor_specific (pos : list Z) (ie : wpa_eapol_ie_parse) : cres wpa_eapol_ie_parse :=
  (len <-- rd pos 1 ;;
   if len <? 4 then Ok ie
   else
     oui <-- WPA_GET_BE24 (drop 2 pos) ;;
     type <-- rd pos 5 ;;
     if (oui =? OUI_MICROSOFT) && (type =? WMM_OUI_TYPE) && (4 <? len) then
       subtype <-- rd pos 6 ;;
       if subtype =? WMM_OUI_SUBTYPE_INFORMATION_ELEMENT then
         x <-- ptr pos 2 len ;; Ok (ie <| wmm := x |>)
       else if subtype =? WMM_OUI_SUBTYPE_PARAMETER_ELEMENT then
         x <-- ptr pos 2 len ;; Ok (ie <| wmm := x |>)
       else Ok ie
     else Ok ie)%c.

(** [(p[i] & 0xf0) >> 4], the link identifier of an MLO element. *)
Definition mlo_link_id (pos : list Z) (i : Z) : cres Z :=
  (x <-- rd pos (6 + i) ;; Ok (Z.shiftr (Z.land x 0xf0) 4))%c.

Definition wpa_parse_generic (pos : list Z) (ie : wpa_eapol_ie_parse) : cres (Z * wpa_eapol_ie_parse) :=
  (len <-- rd pos 1 ;;
   let dlen := 2 + len in
   if len =? 0 then Ok (1, ie)
   else if len <? RSN_SELECTOR_LEN then Ok (2, ie)
   else
     selector <-- RSN_SELECTOR_GET (drop 2 pos) ;;
     let p := 2 + RSN_SELECTOR_LEN in
     let left := len - RSN_SELECTOR_LEN in
     version_1 <-- (if (2 <=? left) && (selector =? WPA_OUI_TYPE) then
                      p0 <-- rd pos p ;; p1 <-- rd pos (p + 1) ;; Ok ((p0 =? 1) && (p1 =? 0))
                    else Ok false) ;;
     if version_1 : bool then x <-- ptr pos 0 dlen ;; Ok (0, ie <| wpa_ie := x |>)
     else if selector =? OSEN_IE_VENDOR_TYPE then x <-- ptr pos 0 dlen ;; Ok (0, ie <| osen := x |>)
     else if (PMKID_LEN <=? left) && (selector =? RSN_KEY_DATA_PMKID) then
       x <-- ptr pos p PMKID_LEN ;; Ok (0, ie <| pmkid := x |>)
     else if (2 <=? left) && (selector =? RSN_KEY_DATA_KEYID) then
       x <-- ptr pos p 2 ;; Ok (0, ie <| key_id := x |>)
     else if (2 <? left) && (selector =? RSN_KEY_DATA_GROUPKEY) then
       x <-- ptr pos p left ;; Ok (0, ie <| gtk := x |>)
     else if (ETH_ALEN <=? left) && (selector =? RSN_KEY_DATA_MAC_ADDR) then
       x <-- ptr pos p ETH_ALEN ;; Ok (0, ie <| mac_addr := x |>)
     else if (2 <? left) && (selector =? RSN_KEY_DATA_IGTK) then
       x <-- ptr pos p left ;; Ok (0, ie <| igtk := x |>)
     else if (2 <? left) && (selector =? RSN_KEY_DATA_BIGTK) then
       x <-- ptr pos p left ;; Ok (0, ie <| bigtk := x |>)
     else if (1 <=? left) && (selector =? WFA_KEY_DATA_IP_ADDR_REQ) then
       x <-- ptr pos p 1 ;; Ok (0, ie <| ip_addr_req := x |>)
     else if (3 * 4 <=? left) && (selector =? WFA_KEY_DATA_IP_ADDR_ALLOC) then
       x <-- ptr pos p (3 * 4) ;; Ok (0, ie <| ip_addr_alloc := x |>)
     else if (2 <? left) && (selector =? RSN_KEY_DATA_OCI) then
       x <-- ptr pos p left ;; Ok (0, ie <| oci := x |>)
     else if (1 <=? left) && (selector =? WFA_KEY_DATA_TRANSITION_DISABLE) then
       x <-- ptr pos p left ;; Ok (0, ie <| transition_disable := x |>)
     else if (2 <=? left) && (selector =? WFA_KEY_DATA_DPP) then
       x <-- ptr pos p left ;; Ok (0, ie <| dpp_kde := x |>)
     else if (RSN_MLO_GTK_KDE_PREFIX_LENGTH <=? left) && (selector =? RSN_KEY_DATA_MLO_GTK) then
       link_id <-- mlo_link_id pos 0 ;;
       if MAX_NUM_MLD_LINKS <=? link_id then Ok (2, ie)
       else x <-- ptr pos p left ;;
            Ok (0, ie <| valid_mlo_gtks := Z.lor ie.(valid_mlo_gtks) (BIT link_id) |>
                      <| mlo_gtk := <[Z.to_nat link_id := x]> ie.(mlo_gtk) |>)
     else if (RSN_MLO_IGTK_KDE_PREFIX_LENGTH <=? left) && (selector =? RSN_KEY_DATA_MLO_IGTK) then
       link_id <-- mlo_link_id pos 8 ;;
       if MAX_NUM_MLD_LINKS <=? link_id then Ok (2, ie)
       else x <-- ptr pos p left ;;
            Ok (0, ie <| valid_mlo_igtks := Z.lor ie.(valid_mlo_igtks) (BIT link_id) |>
                      <| mlo_igtk := <[Z.to_nat link_id := x]> ie.(mlo_igtk) |>)
     else if (RSN_MLO_BIGTK_KDE_PREFIX_LENGTH <=? left) && (selector =? RSN_KEY_DATA_MLO_BIGTK) then
       link_id <-- mlo_link_id pos 8 ;;
       if MAX_NUM_MLD_LINKS <=? link_id then Ok (2, ie)
       else x <-- ptr pos p left ;;
            Ok (0, ie <| valid_mlo_bigtks := Z.lor ie.(valid_mlo_bigtks) (BIT link_id) |>
                      <| mlo_bigtk := <[Z.to_nat link_id := x]> ie.(mlo_bigtk) |>)
     else if (RSN_MLO_LINK_KDE_FIXED_LENGTH <=? left) && (selector =? RSN_KEY_DATA_MLO_LINK) then
       x0 <-- rd pos p ;;
       let link_id := Z.land x0 0x0f in
       if MAX_NUM_MLD_LINKS <=? link_id then Ok (2, ie)
       else x <-- ptr pos p left ;;
            Ok (0, ie <| valid_mlo_links := Z.lor ie.(valid_mlo_links) (BIT link_id) |>
                      <| mlo_link := <[Z.to_nat link_id := x]> ie.(mlo_link) |>)
     else Ok (2, ie))%c.

(** One element of [wpa_parse_kde_ies]; [true] when the end mark is found. *)
Definition parse_element (pos : list Z) (ie : wpa_eapol_ie_parse) : cres (bool * wpa_eapol_ie_parse) :=
  (id <-- rd pos 0 ;;
   len <-- rd pos 1 ;;
   let dlen := 2 + len in
   let subid := if 1 <=? len then rd pos 2 else Ok 0 in
   if id =? WLAN_EID_RSN then x <-- ptr pos 0 dlen ;; Ok (false, ie <| rsn_ie := x |>)
   else if id =? WLAN_EID_RSNX then x <-- ptr pos 0 dlen ;; Ok (false, ie <| rsnxe := x |>)
   else if id =? WLAN_EID_MOBILITY_DOMAIN then x <-- ptr pos 0 dlen ;; Ok (false, ie <| mdie := x |>)
   else if id =? WLAN_EID_FAST_BSS_TRANSITION then x <-- ptr pos 0 dlen ;; Ok (false, ie <| ftie := x |>)
   else if (id =? WLAN_EID_TIMEOUT_INTERVAL) && (5 <=? len) then
     type <-- rd pos 2 ;;
     if type =? WLAN_TIMEOUT_REASSOC_DEADLINE then
       x <-- ptr pos 0 dlen ;; Ok (false, ie <| reassoc_deadline := x |>)
     else if type =? WLAN_TIMEOUT_KEY_LIFETIME then
       x <-- ptr pos 0 dlen ;; Ok (false, ie <| key_lifetime := x |>)
     else Ok (false, ie)
   else if id =? WLAN_EID_LINK_ID then
     if 18 <=? len then x <-- ptr pos 0 dlen ;; Ok (false, ie <| lnkid := x |>) else Ok (false, ie)
   else if id =? WLAN_EID_EXT_CAPAB then x <-- ptr pos 0 dlen ;; Ok (false, ie <| ext_capab := x |>)
   else if id =? WLAN_EID_SUPP_RATES then x <-- ptr pos 0 dlen ;; Ok (false, ie <| supp_rates := x |>)
   else if id =? WLAN_EID_EXT_SUPP_RATES then x <-- ptr pos 0 dlen ;; Ok (false, ie <| ext_supp_rates := x |>)
   else if (id =? WLAN_EID_HT_CAP) && (sizeof_ht_capabilities <=? len) then
     x <-- ptr pos 2 sizeof_ht_capabilities ;; Ok (false, ie <| ht_capabilities := x |>)
   else if id =? WLAN_EID_AID then
     if 2 <=? len then v <-- WPA_GET_LE16 (drop 2 pos) ;; Ok (false, ie <| aid := Z.land v 0x3fff |>)
     else Ok (false, ie)
   else if (id =? WLAN_EID_VHT_CAP) && (sizeof_vht_capabilities <=? len) then
     x <-- ptr pos 2 sizeof_vht_capabilities ;; Ok (false, ie <| vht_capabilities := x |>)
   else
     sub <-- subid ;;
     if (id =? WLAN_EID_EXTENSION) && (1 + IEEE80211_HE_CAPAB_MIN_LEN <=? len) &&
        (sub =? WLAN_EID_EXT_HE_CAPABILITIES) then
       x <-- ptr pos 3 (len - 1) ;; Ok (false, ie <| he_capabilities := x |>)
     else if (id =? WLAN_EID_EXTENSION) && (1 + sizeof_he_6ghz_band_cap <=? len) &&
             (sub =? WLAN_EID_EXT_HE_6GHZ_BAND_CAP) then
       x <-- ptr pos 3 sizeof_he_6ghz_band_cap ;; Ok (false, ie <| he_6ghz_capabilities := x |>)
     else if (id =? WLAN_EID_EXTENSION) && (1 + IEEE80211_EHT_CAPAB_MIN_LEN <=? len) &&
             (sub =? WLAN_EID_EXT_EHT_CAPABILITIES) then
       x <-- ptr pos 3 (len - 1) ;; Ok (false, ie <| eht_capabilities := x |>)
     else if (id =? WLAN_EID_QOS) && (1 <=? len) then Ok (false, ie <| qosinfo := sub |>)
     else if id =? WLAN_EID_SUPPORTED_CHANNELS then
       x <-- ptr pos 2 len ;; Ok (false, ie <| supp_channels := x |>)
     else if id =? WLAN_EID_SUPPORTED_OPERATING_CLASSES then
       if (2 <=? len) && (len <=? 253) then x <-- ptr pos 2 len ;; Ok (false, ie <| supp_oper_classes := x |>)
       else Ok (false, ie)
     else if id =? WLAN_EID_SSID then x <-- ptr pos 2 len ;; Ok (false, ie <| ssid := x |>)
     else if id =? WLAN_EID_VENDOR_SPECIFIC then
       r <-- wpa_parse_generic pos ie ;;
       let '(ret, ie) := r in
       if ret =? 1 then Ok (true, ie)
       else if ret =? 2 then ie <-- wpa_parse_vendor_specific pos ie ;; Ok (false, ie)
       else Ok (false, ie)
     else Ok (false, ie))%c.

Fixpoint parse_loop (fuel : nat) (pos : list Z) (ie : wpa_eapol_ie_parse) : cres (Z * wpa_eapol_ie_parse) :=
  match fuel with
  | O => Fault
  | S fuel =>
      if negb (1 <? zlen pos) then Ok (0, ie)
      else
        (id <-- rd pos 0 ;;
         len <-- rd pos 1 ;;
         if (id =? 0xdd) && ((zlen pos =? 1) || (len =? 0)) then Ok (0, ie)
         else if zlen pos <? 2 + len then Ok (-1, ie)
         else
           r <-- parse_element pos ie ;;
           let '(stop, ie) := r in
           if stop : bool then Ok (0, ie) else parse_loop fuel (drop (Z.to_nat (2 + len)) pos) ie)%c
  end.

Definition wpa_parse_kde_ies (buf : list Z) : cres (Z * wpa_eapol_ie_parse) :=
  parse_loop (S (length buf)) buf no_ies.

(** [wpa_add_kde]: the bytes written. *)
Definition wpa_add_kde (kde : Z) (data data2 : list Z) : list Z :=
  [WLAN_EID_VENDOR_SPECIFIC; u8 (RSN_SELECTOR_LEN + zlen data + zlen data2)] ++
  RSN_SELECTOR_PUT kde ++ data ++ data2.

(** [get_ie]: the first element with an identifier (common/ieee802_11_common.c). *)
Fixpoint get_ie_loop (fuel : nat) (ies : list Z) (eid : Z) : cres (option (list Z)) :=
  match fuel with
  | O => Fault
  | S fuel =>
      if zlen ies <? 2 then Ok None
      else
        (datalen <-- rd ies 1 ;;
         if zlen ies <? 2 + datalen then Ok None
         else
           id <-- rd ies 0 ;;
           if id =? eid then ptr ies 0 (2 + datalen)
           else get_ie_loop fuel (drop (Z.to_nat (2 + datalen)) ies) eid)%c
  end.

Definition get_ie (ies : list Z) (eid : Z) : cres (option (list Z)) := get_ie_loop (S (length ies)) ies eid.

(** *** Lemmas *)

(** Everything a parsed structure points to. *)
Definition members (r : wpa_eapol_ie_parse) : list (option (list Z)) :=
  [r.(wpa_ie); r.(rsn_ie); r.(pmkid); r.(key_id); r.(gtk); r.(mac_addr); r.(igtk); r.(bigtk); r.(mdie); r.(ftie);
   r.(ip_addr_req); r.(ip_addr_alloc); r.(transition_disable); r.(dpp_kde); r.(oci); r.(osen); r.(rsnxe);
   r.(reassoc_deadline); r.(key_lifetime); r.(lnkid); r.(ext_capab); r.(supp_rates); r.(ext_supp_rates);
   r.(ht_capabilities); r.(vht_capabilities); r.(he_capabilities); r.(he_6ghz_capabilities);
   r.(eht_capabilities); r.(supp_channels); r.(supp_oper_classes); r.(ssid); r.(wmm)].

Definition points_into (buf : list Z) (o : option (list Z)) : Prop :=
  match o with Some x => part_of buf x | None => True end.

Definition inside (buf : list Z) (r : wpa_eapol_ie_parse) : Prop :=
  foldr and True (map (points_into buf) (members r)) /\
  Forall (points_into buf) r.(mlo_gtk) /\ Forall (points_into buf) r.(mlo_igtk) /\
  Forall (points_into buf) r.(mlo_bigtk) /\ Forall (points_into buf) r.(mlo_link).

Lemma inside_no_ies buf : inside buf no_ies.
Proof. unfold inside. cbn. split_and!; repeat constructor. Qed.

(** A member set to a part of the buffer keeps the structure inside it. *)
Ltac keep_inside :=
  match goal with
  | H : inside ?buf ?r |- inside ?buf _ =>
      unfold inside, members in *; destruct r; cbv [set_field]; cbn -[points_into] in H |- *;
      destruct H as (H & ? & ? & ? & ?);
      repeat (match type of H with _ /\ _ => destruct H as [? H] end);
      repeat match goal with |- _ /\ _ => split end;
      first [assumption | exact I | by apply Forall_insert]
  end.

(** The comparisons decided on the way here, as inequalities. *)
Ltac decided :=
  repeat match goal with
  | H : (_ && _) = true |- _ => apply andb_true_iff in H as [? ?]
  | H : (_ <=? _) = true |- _ => apply Z.leb_le in H
  | H : (_ <=? _) = false |- _ => apply Z.leb_gt in H
  | H : (_ <? _) = true |- _ => apply Z.ltb_lt in H
  | H : (_ <? _) = false |- _ => apply Z.ltb_ge in H
  end;
  unfold RSN_SELECTOR_LEN, PMKID_LEN, ETH_ALEN, RSN_MLO_GTK_KDE_PREFIX_LENGTH, RSN_MLO_IGTK_KDE_PREFIX_LENGTH,
    RSN_MLO_BIGTK_KDE_PREFIX_LENGTH, RSN_MLO_LINK_KDE_FIXED_LENGTH, sizeof_ht_capabilities,
    sizeof_vht_capabilities, sizeof_he_6ghz_band_cap, IEEE80211_HE_CAPAB_MIN_LEN,
    IEEE80211_EHT_CAPAB_MIN_LEN, MAX_NUM_MLD_LINKS in *.

Lemma yields_ptr {B} buf pos off n (k : option (list Z) -> cres B) Q :
  part_of buf pos -> 0 <= off -> 0 <= n -> off + n <= zlen pos ->
  (forall x, points_into buf x -> yields (k x) Q) -> yields (cbind (ptr pos off n) k) Q.
Proof.
  intros Hb H1 H2 H3 Hk. unfold ptr. rewrite rdn_ok by done. cbn [cbind]. apply Hk.
  apply (part_of_trans _ pos); [done|]. apply part_of_slice.
Qed.

Lemma yields_be16_drop {B} n (pos : list Z) (k : Z -> cres B) Q :
  Z.of_nat n + 2 <= zlen pos -> (forall v, yields (k v) Q) -> yields (cbind (WPA_GET_LE16 (drop n pos)) k) Q.
Proof.
  intros H Hk. unfold WPA_GET_LE16. rewrite !rd_ok by (rewrite length_drop; lia). apply Hk.
Qed.

Lemma yields_be24_drop {B} n (pos : list Z) (k : Z -> cres B) Q :
  Z.of_nat n + 3 <= zlen pos -> (forall v, yields (k v) Q) -> yields (cbind (WPA_GET_BE24 (drop n pos)) k) Q.
Proof.
  intros H Hk. unfold WPA_GET_BE24. rewrite !rd_ok by (rewrite length_drop; lia). apply Hk.
Qed.

Lemma yields_selector_drop {B} n (pos : list Z) (k : Z -> cres B) Q :
  Z.of_nat n + 4 <= zlen pos -> (forall v, yields (k v) Q) -> yields (cbind (RSN_SELECTOR_GET (drop n pos)) k) Q.
Proof.
  intros H Hk. unfold RSN_SELECTOR_GET, WPA_GET_BE32. rewrite !rd_ok by (rewrite length_drop; lia). apply Hk.
Qed.

(** Drops the comparisons that say nothing about lengths. *)
Ltac only_bounds :=
  repeat match goal with
  | H : (_ && _) = true |- _ => apply andb_true_iff in H as [? ?]
  | H : (_ && _) = false |- _ => clear H
  | H : (_ =? _) = _ |- _ => clear H
  end.

Ltac parse_step :=
  match goal with
  | |- yields (Ok _) _ => apply yields_ok
  | |- yields (if ?b then _ else _) _ => destruct b eqn:?; only_bounds
  | |- yields (let _ := _ in _) _ => cbv zeta
  | |- yields (cbind (rd _ _) _) _ => apply yields_rd; [decided; lia|]
  | |- yields (cbind (ptr _ _ _) _) _ =>
      eapply yields_ptr; [eassumption|decided; lia|decided; lia|decided; lia|intros]
  | |- yields (cbind (WPA_GET_LE16 (drop _ _)) _) _ => apply yields_be16_drop; [decided; lia|intros]
  | |- yields (cbind (WPA_GET_BE24 (drop _ _)) _) _ => apply yields_be24_drop; [decided; lia|intros]
  | |- yields (cbind (RSN_SELECTOR_GET (drop _ _)) _) _ => apply yields_selector_drop; [decided; lia|intros]
  end.

Section inside.
Context (buf : list Z).

Lemma vendor_specific_inside pos r :
  bytes pos -> part_of buf pos -> 2 <= zlen pos -> 2 + at_ pos 1 <= zlen pos -> inside buf r ->
  yields (wpa_parse_vendor_specific pos r) (inside buf).
Proof.
  intros Hb Hp H2 Hl Hr. pose proof (at_byte pos 1 Hb). unfold wpa_parse_vendor_specific.
  repeat parse_step; try done; keep_inside.
Qed.

Lemma yields_link_id {B} pos i (k : Z -> cres B) Q :
  0 <= i -> 6 + i < zlen pos -> (forall v, yields (k v) Q) -> yields (cbind (mlo_link_id pos i) k) Q.
Proof. intros ? ? Hk. unfold mlo_link_id. rewrite rd_ok by lia. apply Hk. Qed.

Lemma generic_inside pos r :
  bytes pos -> part_of buf pos -> 2 <= zlen pos -> 2 + at_ pos 1 <= zlen pos -> inside buf r ->
  yields (wpa_parse_generic pos r) (fun x => inside buf x.2).
Proof.
  intros Hb Hp H2 Hl Hr. pose proof (at_byte pos 1 Hb) as Hlen. unfold wpa_parse_generic.
  apply yields_rd; [lia|]. cbv zeta.
  destruct (at_ pos 1 =? 0); [by apply yields_ok|].
  destruct (Z.ltb_spec (at_ pos 1) RSN_SELECTOR_LEN) as [|H4]; [by apply yields_ok|].
  unfold RSN_SELECTOR_LEN in *. apply yields_selector_drop; [lia|]. intros selector.
  apply yields_bind with (P := fun _ => True).
  { destruct (_ && _) eqn:E; [|by apply yields_ok]. repeat parse_step; done. }
  intros version_1 _.
  repeat first [parse_step | apply yields_link_id; [decided; lia|decided; lia|intros]];
    match goal with |- inside _ (snd (_, ?x)) => change (inside buf x) end; first [assumption | keep_inside].
Qed.

Lemma element_inside pos r :
  bytes pos -> part_of buf pos -> 2 <= zlen pos -> 2 + at_ pos 1 <= zlen pos -> inside buf r ->
  yields (parse_element pos r) (fun x => inside buf x.2).
Proof.
  intros Hb Hp H2 Hl Hr. pose proof (at_byte pos 1 Hb) as Hlen. unfold parse_element.
  repeat first [parse_step
    | match goal with |- yields (cbind (if _ then rd _ _ else Ok _) _) _ =>
        apply yields_bind with (P := fun _ => True);
        [destruct (_ <=? _) eqn:?; [|by apply yields_ok];
         eexists; split; [apply rd_ok; decided; lia|done]|intros ? _]
      end
    | match goal with |- yields (cbind (wpa_parse_generic _ _) _) _ =>
        eapply yields_bind; [by apply generic_inside|intros [? ?] ?; cbn [snd] in *]
      end
    | match goal with |- yields (cbind (wpa_parse_vendor_specific _ _) _) _ =>
        eapply yields_bind; [by apply vendor_specific_inside|intros]
      end];
    match goal with |- inside _ (snd (_, ?x)) => change (inside buf x) end; first [assumption | keep_inside].
Qed.

Lemma loop_inside fuel pos r :
  (length pos < fuel)%nat -> bytes pos -> part_of buf pos -> inside buf r ->
  yields (parse_loop fuel pos r) (fun x => (x.1 = 0 \/ x.1 = -1) /\ inside buf x.2).
Proof.
  revert pos r. induction fuel as [|fuel IH]; intros pos r Hf Hb Hp Hr; [lia|]. cbn [parse_loop].
  destruct (Z.ltb_spec 1 (zlen pos)) as [H1|H1]; cbn [negb]; [|apply yields_ok; auto].
  pose proof (at_byte pos 1 Hb) as Hlen.
  do 2 (apply yields_rd; [lia|]). destruct ((at_ pos 0 =? 0xdd) && _); [apply yields_ok; auto|].
  destruct (Z.ltb_spec (zlen pos) (2 + at_ pos 1)); [apply yields_ok; auto|].
  eapply yields_bind; [apply element_inside; try done; lia|]. intros [stop r'] Hr'. cbn [snd] in Hr'.
  destruct stop; [apply yields_ok; auto|]. apply IH; [rewrite length_drop; lia|auto with cint| |done].
  eapply part_of_trans; [done|apply part_of_drop].
Qed.

End inside.

(** *** Round trip *)

(** What the access point puts into key data: its elements, a key identifier,
    group keys, a PMKID; [hdr] is the two bytes before a key. *)
Inductive item :=
| IRsn (body : list Z) | IRsnx (body : list Z) | IKeyId (hdr : list Z) | IGtk (hdr key : list Z)
| IIgtk (key : list Z) | IBigtk (key : list Z) | IPmkid (id : list Z).

Definition item_bytes (i : item) : list Z :=
  match i with
  | IRsn body => [WLAN_EID_RSN; zlen body] ++ body
  | IRsnx body => [WLAN_EID_RSNX; zlen body] ++ body
  | IKeyId hdr => wpa_add_kde RSN_KEY_DATA_KEYID hdr []
  | IGtk hdr key => wpa_add_kde RSN_KEY_DATA_GROUPKEY hdr key
  | IIgtk key => wpa_add_kde RSN_KEY_DATA_IGTK key []
  | IBigtk key => wpa_add_kde RSN_KEY_DATA_BIGTK key []
  | IPmkid id => wpa_add_kde RSN_KEY_DATA_PMKID id []
  end.

Definition item_ok (i : item) : Prop :=
  match i with
  | IRsn body | IRsnx body => zlen body <= 255
  | IKeyId hdr => zlen hdr = 2
  | IGtk hdr key => zlen hdr = 2 /\ 1 <= zlen key <= 249
  | IIgtk key | IBigtk key => 2 < zlen key <= 251
  | IPmkid id => zlen id = PMKID_LEN
  end.

Definition item_sets (r : wpa_eapol_ie_parse) (i : item) : wpa_eapol_ie_parse :=
  match i with
  | IRsn body => r <| rsn_ie := Some (item_bytes i) |>
  | IRsnx body => r <| rsnxe := Some (item_bytes i) |>
  | IKeyId hdr => r <| key_id := Some hdr |>
  | IGtk hdr key => r <| gtk := Some (hdr ++ key) |>
  | IIgtk key => r <| igtk := Some key |>
  | IBigtk key => r <| bigtk := Some key |>
  | IPmkid id => r <| pmkid := Some id |>
  end.

Lemma ptr_ok pos off n : 0 <= off -> 0 <= n -> off + n <= zlen pos -> ptr pos off n = Ok (Some (slice off n pos)).
Proof. intros. unfold ptr. by rewrite rdn_ok. Qed.

(** The data of a key data element where the parser finds it. *)
Lemma kde_slice (l n : Z) (sel data rest : list Z) :
  zlen sel = 4 -> n <= zlen data -> 0 <= n ->
  slice 6 n (0xdd :: l :: sel ++ data ++ rest) = take (Z.to_nat n) data.
Proof.
  intros Hs Hn Hn0. unfold slice. change (Z.to_nat 6) with 6%nat. cbn [drop].
  rewrite drop_app_length' by lia. by rewrite take_app_le by lia.
Qed.

(** Comparisons of constants. *)
Ltac compare_constants :=
  repeat match goal with
  | |- context [?a =? ?b] =>
      let v := eval vm_compute in (a =? b) in
      match v with true => change (a =? b) with true | false => change (a =? b) with false end
  end;
  rewrite ?andb_false_r, ?andb_true_r.

(** An element of a key data selector, [left] bytes of data after it. *)
Definition kde_element (kde : Z) (data : list Z) : list Z :=
  0xdd :: 4 + zlen data :: RSN_SELECTOR_PUT kde ++ data.

Lemma add_kde_element kde data data2 :
  zlen (data ++ data2) <= 251 -> wpa_add_kde kde data data2 = kde_element kde (data ++ data2).
Proof.
  rewrite length_app. intros H. unfold wpa_add_kde, kde_element, RSN_SELECTOR_LEN. rewrite length_app.
  rewrite u8_small by lia. cbn [app]. do 2 f_equal. lia.
Qed.

Lemma length_kde_element kde data : zlen (kde_element kde data) = 6 + zlen data.
Proof. unfold kde_element. cbn [length]. rewrite length_app. cbn [length RSN_SELECTOR_PUT WPA_PUT_BE32]. lia. Qed.

Section element.
Context (kde : Z) (data rest : list Z) (Hk : is_u32 kde) (Hd : 0 < zlen data <= 251).
Let pos : list Z := kde_element kde data ++ rest.

Lemma element_id : rd pos 0 = Ok 0xdd.
Proof. apply rd_ok. unfold pos, kde_element. cbn [app length]. lia. Qed.

Lemma element_len : rd pos 1 = Ok (4 + zlen data).
Proof. apply rd_ok. unfold pos, kde_element. cbn [app length]. lia. Qed.

Lemma element_sub : exists b, rd pos 2 = Ok b.
Proof. eexists. apply rd_ok. unfold pos. rewrite length_app. pose proof (length_kde_element kde data). lia. Qed.

Lemma element_selector : RSN_SELECTOR_GET (drop 2 pos) = Ok kde.
Proof. unfold pos, kde_element. cbn [drop app]. rewrite <- app_assoc. by apply get_put_selector. Qed.

Lemma element_ptr n : 0 <= n <= zlen data -> ptr pos 6 n = Ok (Some (take (Z.to_nat n) data)).
Proof.
  intros Hn. unfold pos. pose proof (length_kde_element kde data).
  rewrite ptr_ok by (rewrite ?length_app; lia). do 2 f_equal.
  unfold kde_element. cbn [app]. rewrite <- app_assoc. by apply kde_slice; [|lia..].
Qed.

End element.

Ltac parse_known :=
  match goal with
  | |- parse_element (kde_element ?k ?d ++ ?rest) _ = _ =>
      assert (Hk : is_u32 k) by (vm_compute; split; [discriminate|reflexivity]);
      destruct (element_sub k d rest ltac:(assumption)) as [sub Hsub];
      unfold parse_element; rewrite element_id, element_len by assumption; cbn [cbind];
      compare_constants; cbn [andb];
      replace (1 <=? 4 + zlen d) with true by (symmetry; apply Z.leb_le; lia);
      rewrite Hsub; cbn [cbind];
      unfold wpa_parse_generic; rewrite element_len by assumption; cbn [cbind];
      replace (4 + zlen d =? 0) with false by (symmetry; apply Z.eqb_neq; lia);
      replace (4 + zlen d <? RSN_SELECTOR_LEN) with false by (symmetry; apply Z.ltb_ge; unfold RSN_SELECTOR_LEN; lia);
      rewrite element_selector by assumption; cbn [cbind];
      replace (4 + zlen d - RSN_SELECTOR_LEN) with (zlen d) by (unfold RSN_SELECTOR_LEN; lia);
      change (2 + RSN_SELECTOR_LEN) with 6;
      compare_constants; cbn [cbind]
  end.

Lemma parse_item i rest r :
  item_ok i -> parse_element (item_bytes i ++ rest) r = Ok (false, item_sets r i).
Proof.
  destruct i as [body|body|hdr|hdr key|key|key|id]; cbn [item_ok item_bytes item_sets]; intros Hok.
  1,2: unfold parse_element; cbn [app]; rewrite !rd_ok by (cbn [length]; lia); cbn [cbind]; at_simpl;
    cbn -[Z.add]; rewrite ptr_ok by (cbn [length]; rewrite ?length_app; lia); cbn [cbind]; do 3 f_equal;
    unfold slice; rewrite drop_0; rewrite app_comm_cons, app_comm_cons, take_app_length' by (cbn [length]; lia); done.
  all: rewrite add_kde_element by (unfold PMKID_LEN in *; rewrite ?length_app; cbn [length]; lia).
  all: match goal with |- context [kde_element _ ?d] => assert (Hd : 0 < zlen d <= 251)
         by (unfold PMKID_LEN in *; rewrite ?length_app; cbn [length]; lia) end.
  all: parse_known.
  all: rewrite ?app_nil_r in *.
  - destruct (Z.leb_spec 2 (zlen hdr)); [|lia]. rewrite element_ptr by lia. cbn. rewrite take_ge by lia. done.
  - assert (zlen (hdr ++ key) = 2 + zlen key) by (rewrite length_app; lia).
    destruct (Z.ltb_spec 2 (zlen (hdr ++ key))); [|lia]. rewrite element_ptr by lia. cbn. rewrite take_ge by lia. done.
  - destruct (Z.ltb_spec 2 (zlen key)); [|lia]. rewrite element_ptr by lia. cbn. rewrite take_ge by lia. done.
  - destruct (Z.ltb_spec 2 (zlen key)); [|lia]. rewrite element_ptr by lia. cbn. rewrite take_ge by lia. done.
  - unfold PMKID_LEN in *. destruct (Z.leb_spec 16 (zlen id)); [|lia]. rewrite element_ptr by lia.
    cbn. rewrite take_ge by lia. done.
Qed.

(** The padding before key wrap: nothing, or 0xdd and zeros. *)
Definition is_padding (pad : list Z) : Prop := pad = [] \/ exists n, pad = 0xdd :: replicate n 0.

Lemma item_shape i :
  item_ok i -> exists id len body, item_bytes i = id :: len :: body /\ zlen body = len /\ (id = 0xdd -> len <> 0).
Proof.
  destruct i; cbn [item_ok item_bytes]; intros H; try (by eexists _, _, _; split_and!; [done|done|]);
    rewrite add_kde_element by (unfold PMKID_LEN in *; rewrite ?length_app; cbn [length]; lia);
    (eexists _, _, _; split_and!; [done|rewrite length_app; cbn; lia|lia]).
Qed.

Lemma parse_items items pad fuel r :
  Forall item_ok items -> is_padding pad ->
  (length (concat (map item_bytes items) ++ pad) < fuel)%nat ->
  parse_loop fuel (concat (map item_bytes items) ++ pad) r = Ok (0, foldl item_sets r items).
Proof.
  intros Hi Hp. revert fuel r. induction Hi as [|i items Hi _ IH]; intros fuel r Hf.
  - cbn [map concat app foldl] in *. destruct fuel as [|fuel]; [lia|]. cbn [parse_loop].
    destruct Hp as [->|[[|n] ->]]; [done|done|]. cbn [replicate] in *.
    destruct (Z.ltb_spec 1 (zlen (0xdd :: 0 :: replicate n 0))); [|done]. cbn [negb].
    rewrite !rd_ok by (cbn [length]; lia). cbn [cbind]. at_simpl. cbn [Z.eqb Pos.eqb]. rewrite orb_true_r. done.
  - cbn [map concat foldl] in *. rewrite <- app_assoc in *. set (rest := concat _ ++ pad) in *.
    destruct (item_shape i Hi) as (id & len & body & E & Hb & Hdd).
    destruct fuel as [|fuel]; [lia|]. cbn [parse_loop].
    rewrite length_app in Hf. rewrite E in Hf |- *. cbn [app length] in *.
    assert (Hl : Z.of_nat (S (S (length (body ++ rest)))) = 2 + len + zlen rest) by (rewrite length_app; lia).
    rewrite Hl. destruct (Z.ltb_spec 1 (2 + len + zlen rest)); [|lia]. cbn [negb].
    rewrite !rd_ok by (cbn [length]; lia). cbn [cbind]. at_simpl.
    replace ((id =? 0xdd) && _) with false; cycle 1.
    { symmetry. destruct (Z.eqb_spec id 0xdd) as [Hid|]; [|done]. specialize (Hdd Hid). cbn [andb].
      apply orb_false_iff. split; apply Z.eqb_neq; lia. }
    destruct (Z.ltb_spec (2 + len + zlen rest) (2 + len)); [lia|].
    change (id :: len :: body ++ rest) with ((id :: len :: body) ++ rest). rewrite <- E, parse_item by done. cbn [cbind].
    rewrite drop_app_length' by (rewrite E; cbn [length]; lia). apply IH. lia.
Qed.

(** C27: Key data round trip: parsing key data made of RSN and RSNX elements, key
    identifiers, GTKs, IGTKs, BIGTKs and PMKIDs, in any order and number, with or
    without the padding of key wrap, returns exactly these.  (The transition
    disable, DPP and WPA elements are not among them.) *)
Theorem key_data_roundtrip items pad :
  Forall item_ok items -> is_padding pad ->
  wpa_parse_kde_ies (concat (map item_bytes items) ++ pad) = Ok (0, foldl item_sets no_ies items).
Proof. intros. apply parse_items; [done..|lia]. Qed.

(** C26: Parsing key data, whatever its bytes, ends, never reads outside it and
    returns 0 or -1; every pointer of the result, after success or failure, is
    [NULL] or points to bytes of the key data. *)
Theorem parse_kde_ies_in_bounds buf :
  bytes buf ->
  yields (wpa_parse_kde_ies buf) (fun x => (x.1 = 0 \/ x.1 = -1) /\ inside buf x.2).
Proof.
  intros Hb. apply loop_inside; [lia|done|apply part_of_refl|apply inside_no_ies].
Qed.

(** *** Witnesses *)

Definition demo_items : list item :=
  [IRsn (replicate 20 1); IKeyId [1; 0]; IGtk [1; 0] (replicate 16 7); IIgtk (replicate 24 9)].

Lemma key_data_roundtrip_witness :
  Forall item_ok demo_items /\
  wpa_parse_kde_ies (concat (map item_bytes demo_items) ++ [0xdd; 0; 0]) =
    Ok (0, foldl item_sets no_ies demo_items).
Proof.
  assert (H : Forall item_ok demo_items) by (repeat constructor; cbn; lia).
  split; [exact H|]. apply key_data_roundtrip; [exact H|]. right. by exists 2%nat.
Defined.

Lemma parse_kde_ies_in_bounds_witness :
  yields (wpa_parse_kde_ies [0xdd; 200; 0; 15]) (fun x => (x.1 = 0 \/ x.1 = -1) /\ inside [0xdd; 200; 0; 15] x.2).
Proof. apply parse_kde_ies_in_bounds. by_deciding. Defined.

End Kde.
