(* ===== verification/WpaAuth.v ===== *)
(** * The WPA authenticator

    ap/wpa_auth.c: the 4-way and group key handshakes of a station, their state
    machines, the sending and reception of EAPOL-Key frames, and the group key
    machine of the access point.  Its theorems are in [WpaAuthSafety],
    [WpaAuthLoop] and [WpaAuthFaults]. *)

From Stdlib Require Import Ascii String.
From stdpp Require Import gmap.
From S2P Require Import Prelude WpaDefs AesModes WpaKey Kde.

Module WpaAuth.
Import WpaDefs AesModes WpaKey Kde.

#[local] Open Scope Z_scope.
#[local] Open Scope list_scope.

(** ** Data *)

(** *** Constants *)

Definition RSNA_MAX_EAPOL_RETRIES : nat := 4.
Definition WPA_VERSION_NO_WPA : Z := 0.
Definition WPA_VERSION_WPA : Z := 1.
Definition WPA_VERSION_WPA2 : Z := 2.
Definition WPA_GTK_MAX_LEN : Z := 32.
Definition WPA_KEY_INFO_TYPE_MASK : Z := 7.
Definition WPA_KEY_INFO_KEY_INDEX_SHIFT : Z := 4.
Definition WPA_IGTK_KDE_PREFIX_LEN : Z := 8.
Definition WPA_BIGTK_KDE_PREFIX_LEN : Z := 8.
Definition IEEE802_1X_TYPE_EAPOL_KEY : Z := 3.
Definition EAPOL_KEY_TYPE_RSN : Z := 2.
Definition EAPOL_KEY_TYPE_WPA : Z := 254.
Definition WLAN_RSNX_CAPAB_SECURE_LTF : Z := 8.
Definition DPP_VERSION : Z := 2.
Definition DPP_KDE_PFS_ALLOWED : Z := BIT 0.
Definition DPP_KDE_PFS_REQUIRED : Z := BIT 1.
Definition WLAN_REASON_PREV_AUTH_NOT_VALID : Z := 2.
Definition WLAN_REASON_CLASS3_FRAME_FROM_NONASSOC_STA : Z := 7.
Definition WLAN_REASON_4WAY_HANDSHAKE_TIMEOUT : Z := 15.
Definition WLAN_REASON_GROUP_KEY_UPDATE_TIMEOUT : Z := 16.
Definition WLAN_REASON_INVALID_PMKID : Z := 49.
Definition eapol_key_timeout_first : Z := 100.
Definition eapol_key_timeout_subseq : Z := 1000.
Definition eapol_key_timeout_first_group : Z := 500.
Definition eapol_key_timeout_no_retrans : Z := 4000.
Definition dot11RSNAConfigPMKLifetime : Z := 43200.
Definition KEY_FLAG_PAIRWISE : Z := BIT 5.
Definition KEY_FLAG_GROUP_TX_DEFAULT : Z := any_of [BIT 4; BIT 3; BIT 1].
Definition KEY_FLAG_PAIRWISE_RX_TX : Z := any_of [BIT 5; BIT 2; BIT 3].
Definition KEY_FLAG_PAIRWISE_RX : Z := any_of [BIT 5; BIT 2].
Definition KEY_FLAG_PAIRWISE_RX_TX_MODIFY : Z := any_of [BIT 5; BIT 2; BIT 3; BIT 0].
Definition broadcast_ether_addr : list Z := replicate 6 0xff.

(** *** States *)

Inductive wpa_ptk_st :=
| WPA_PTK_INITIALIZE | WPA_PTK_DISCONNECT | WPA_PTK_DISCONNECTED | WPA_PTK_AUTHENTICATION
| WPA_PTK_AUTHENTICATION2 | WPA_PTK_INITPMK | WPA_PTK_INITPSK | WPA_PTK_PTKSTART
| WPA_PTK_PTKCALCNEGOTIATING | WPA_PTK_PTKCALCNEGOTIATING2 | WPA_PTK_PTKINITNEGOTIATING
| WPA_PTK_PTKINITDONE.

Inductive wpa_ptk_group_st :=
| WPA_PTK_GROUP_IDLE | WPA_PTK_GROUP_REKEYNEGOTIATING | WPA_PTK_GROUP_REKEYESTABLISHED
| WPA_PTK_GROUP_KEYERROR.

Inductive wpa_group_st :=
| WPA_GROUP_GTK_INIT | WPA_GROUP_SETKEYS | WPA_GROUP_SETKEYSDONE | WPA_GROUP_FATAL_FAILURE.

#[export] Instance wpa_ptk_st_eq_dec : EqDecision wpa_ptk_st.
Proof. solve_decision. Defined.
#[export] Instance wpa_ptk_group_st_eq_dec : EqDecision wpa_ptk_group_st.
Proof. solve_decision. Defined.
#[export] Instance wpa_group_st_eq_dec : EqDecision wpa_group_st.
Proof. solve_decision. Defined.

Definition in_state {S} `{EqDecision S} (s t : S) : bool := bool_decide (s = t).

(** [struct wpa_key_replay_counter] *)
Record wpa_key_replay_counter := mkCtr { counter : list Z; valid : bool }.

(** [struct wpa_state_machine].  A key is the list of its bytes, so that
    [pmk_len] is [zlen PMK]; [pmksa] is the PMK and PMKID of the cache entry.
    [group] is the VLAN of the group the pointer leads to. *)
Record wpa_state_machine := mkSm {
  group : Z; addr : list Z; wpa_ptk_state : wpa_ptk_st; wpa_ptk_group_state : wpa_ptk_group_st;
  Init : bool; DeauthenticationRequest : bool; AuthenticationRequest : bool;
  ReAuthenticationRequest : bool; Disconnect : bool; disconnect_reason : Z; TimeoutCtr : Z;
  GTimeoutCtr : Z; TimeoutEvt : bool; EAPOLKeyReceived : bool; EAPOLKeyPairwise : bool;
  EAPOLKeyRequest : bool; MICVerified : bool; GUpdateStationKeys : bool; ANonce : list Z;
  SNonce : list Z; alt_SNonce : list Z; alt_replay_counter : list Z; PMK : list Z; PTK : wpa_ptk;
  keyidx_active : Z; use_ext_key_id : bool; PTK_valid : bool; pairwise_set : bool;
  tk_already_set : bool; keycount : Z; Pair : bool; key_replay : list wpa_key_replay_counter;
  prev_key_replay : list wpa_key_replay_counter; PInitAKeys : bool; PTKRequest : bool;
  has_GTK : bool; PtkGroupInit : bool; last_rx_eapol_key : option (list Z);
  last_rx_eapol_key_len : Z; changed : bool; in_step_loop : bool; pending_deinit : bool;
  started : bool; mgmt_frame_prot : bool; rx_eapol_key_secure : bool; update_snonce : bool;
  alt_snonce_valid : bool; waiting_radius_psk : bool; is_wnmsleep : bool;
  ptkstart_without_success : Z; req_replay_counter : list Z; req_replay_counter_used : bool;
  sta_wpa_ie : option (list Z); sta_rsnxe : option (list Z); wpa : Z; pairwise : Z;
  sta_key_mgmt : Z; pmksa : option (list Z * list Z); RemoteMICFailures : Z;
  pending_1_of_4_timeout : bool; dpp_z : option (list Z); ssid_protection : bool }.

#[export] Instance sm_settable : Settable wpa_state_machine := fun r =>
  mkSm r.(group) r.(addr) r.(wpa_ptk_state) r.(wpa_ptk_group_state) r.(Init)
    r.(DeauthenticationRequest) r.(AuthenticationRequest) r.(ReAuthenticationRequest) r.(Disconnect)
    r.(disconnect_reason) r.(TimeoutCtr) r.(GTimeoutCtr) r.(TimeoutEvt) r.(EAPOLKeyReceived)
    r.(EAPOLKeyPairwise) r.(EAPOLKeyRequest) r.(MICVerified) r.(GUpdateStationKeys) r.(ANonce)
    r.(SNonce) r.(alt_SNonce) r.(alt_replay_counter) r.(PMK) r.(PTK) r.(keyidx_active)
    r.(use_ext_key_id) r.(PTK_valid) r.(pairwise_set) r.(tk_already_set) r.(keycount) r.(Pair)
    r.(key_replay) r.(prev_key_replay) r.(PInitAKeys) r.(PTKRequest) r.(has_GTK) r.(PtkGroupInit)
    r.(last_rx_eapol_key) r.(last_rx_eapol_key_len) r.(changed) r.(in_step_loop) r.(pending_deinit)
    r.(started) r.(mgmt_frame_prot) r.(rx_eapol_key_secure) r.(update_snonce) r.(alt_snonce_valid)
    r.(waiting_radius_psk) r.(is_wnmsleep) r.(ptkstart_without_success) r.(req_replay_counter)
    r.(req_replay_counter_used) r.(sta_wpa_ie) r.(sta_rsnxe) r.(wpa) r.(pairwise) r.(sta_key_mgmt)
    r.(pmksa) r.(RemoteMICFailures) r.(pending_1_of_4_timeout) r.(dpp_z) r.(ssid_protection).

(** [struct wpa_group]; a key array is the list of its two keys. *)
Record wpa_group := mkGroup {
  vlan_id : Z; GInit : bool; GKeyDoneStations : Z; GTKReKey : bool; GTK_len : Z; GN : Z; GM : Z;
  GTKAuthenticator : bool; Counter : list Z; wpa_group_state : wpa_group_st; GMK : list Z;
  GTK : list (list Z); GNonce : list Z; g_changed : bool; first_sta_seen : bool;
  reject_4way_hs_for_entropy : bool; IGTK : list (list Z); BIGTK : list (list Z); GN_igtk : Z;
  GM_igtk : Z; GN_bigtk : Z; GM_bigtk : Z; bigtk_set : bool; bigtk_configured : bool }.

#[export] Instance group_settable : Settable wpa_group := fun r =>
  mkGroup r.(vlan_id) r.(GInit) r.(GKeyDoneStations) r.(GTKReKey) r.(GTK_len) r.(GN) r.(GM)
    r.(GTKAuthenticator) r.(Counter) r.(wpa_group_state) r.(GMK) r.(GTK) r.(GNonce) r.(g_changed)
    r.(first_sta_seen) r.(reject_4way_hs_for_entropy) r.(IGTK) r.(BIGTK) r.(GN_igtk) r.(GM_igtk)
    r.(GN_bigtk) r.(GM_bigtk) r.(bigtk_set) r.(bigtk_configured).

(** The members of [struct wpa_auth_config] the handshakes read. *)
Record wpa_auth_config := mkConf {
  conf_wpa : Z; wpa_group_cipher : Z; wpa_group_rekey : Z; wpa_strict_rekey : bool;
  wpa_gmk_rekey : Z; wpa_ptk_rekey : Z; wpa_deny_ptk0_rekey : bool; wpa_group_update_count : Z;
  wpa_pairwise_update_count : Z; wpa_disable_eapol_key_retries : bool; eapol_version : Z;
  tx_status : bool; ieee80211w : bool; beacon_prot : bool; group_mgmt_cipher : Z;
  disable_gtk : bool; transition_disable_cfg : Z; dpp_pfs : Z; owe_ptk_workaround : Z;
  force_kdk_derivation : bool; secure_ltf : bool; radius_psk : bool;
  no_disconnect_on_group_keyerror : bool; conf_ssid : list Z; auth_addr : list Z; auth_wpa_ie : list Z }.

(** *** Events *)

Inductive wpa_eapol_variable :=
| WPA_EAPOL_portEnabled | WPA_EAPOL_portValid | WPA_EAPOL_authorized | WPA_EAPOL_portControl_Auto
| WPA_EAPOL_keyRun | WPA_EAPOL_keyAvailable | WPA_EAPOL_keyDone | WPA_EAPOL_inc_EapolFramesTx.

Inductive timeout := SendEapolTimeout | RekeyPtk | RekeyGtk | RekeyGmk | CallStep.

(** What the authenticator asks of the rest of hostapd. *)
Inductive event :=
| EvSetEapol (var : wpa_eapol_variable) (value : Z)
| EvSetKey (vlan : Z) (alg : wpa_alg) (address : list Z) (idx : Z) (key : list Z) (flag : Z)
| EvSendEapol (frame : list Z) (encrypt : bool)
| EvDisconnect (reason : Z)
| EvRemovePtksa | EvStorePtksa (ptk : wpa_ptk)
| EvRegister (t : timeout) (sec usec : Z) | EvCancel (t : timeout)
| EvUpdateVlan (vlan : Z) | EvPskFailure | EvRequestRadiusPsk (frame : list Z) | EvMicFailure
| EvCompleted.

(** The authenticator as one station sees it: its machine, the groups of the
    access point by VLAN (the first is 0), the counters of failures, the number
    of answers got from hostapd so far and the events. *)
Record world := mkWorld {
  sm : wpa_state_machine; groups : gmap Z wpa_group; HandshakeFailures : Z; AuthMICFailures : Z;
  asked : nat; log : list event }.

#[export] Instance world_settable : Settable world := fun r =>
  mkWorld r.(sm) r.(groups) r.(HandshakeFailures) r.(AuthMICFailures) r.(asked) r.(log).

(** The callbacks of hostapd, the random generator and the allocator: the
    answer to the [n]th question.  [ask_station_known] is whether the callback
    that disconnects finds the station and so reports [WPA_DEAUTH] back;
    [ask_others] is what the machines of the other stations do to the groups
    while a group visits them. *)
Class Hostapd := {
  ask_random : nat -> Z -> option (list Z);
  ask_random_pool_ready : nat -> bool;
  ask_malloc : nat -> bool;
  ask_ntp : nat -> list Z;
  ask_group_pointer : list Z;
  ask_eapol : nat -> wpa_eapol_variable -> Z;
  ask_psks : nat -> list (list Z * Z);
  ask_msk : nat -> option (list Z);
  ask_set_key : nat -> Z;
  ask_seqnum : nat -> Z -> option (list Z);
  ask_update_vlan : nat -> Z;
  ask_sta_count : nat -> Z;
  ask_mic_failure : nat -> Z;
  ask_station_known : nat -> bool;
  ask_others : nat -> gmap Z wpa_group -> gmap Z wpa_group;
  rc4_skip : list Z -> Z -> list Z -> list Z
}.

(** ** Computations on a world that may fault *)

Definition M (A : Type) : Type := world -> cres (A * world).

#[export] Instance M_ret : MRet M := fun A a w => Ok (a, w).
#[export] Instance M_bind : MBind M := fun A B f m w =>
  match m w with Ok (a, w) => f a w | Fault => Fault end.

Definition lift {A} (m : cres A) : M A := fun w => match m with Ok a => Ok (a, w) | Fault => Fault end.
Definition gets {A} (f : world -> A) : M A := fun w => Ok (f w, w).
Definition the {A} (f : wpa_state_machine -> A) : M A := gets (fun w => f w.(sm)).
Definition upd (f : wpa_state_machine -> wpa_state_machine) : M unit := fun w => Ok (tt, w <| sm := f w.(sm) |>).
Definition emit (e : event) : M unit := fun w => Ok (tt, w <| log := w.(log) ++ [e] |>).
Definition ask {A} (f : nat -> A) : M A := fun w => Ok (f w.(asked), w <| asked := S w.(asked) |>).
Definition skip : M unit := mret tt.
Definition when (b : bool) (m : M unit) : M unit := if b then m else skip.

#[export] Instance group_inhabited : Inhabited wpa_group :=
  populate (mkGroup 0 false 0 false 0 1 2 false [] WPA_GROUP_GTK_INIT [] [] [] false false false [] []
              4 5 6 7 false false).

(** A group through its pointer; a dangling one faults. *)
Definition get_group (k : Z) : M wpa_group := fun w =>
  match w.(groups) !! k with Some g => Ok (g, w) | None => Fault end.
Definition upd_group (k : Z) (f : wpa_group -> wpa_group) : M unit := fun w =>
  match w.(groups) !! k with
  | Some g => Ok (tt, w <| groups := <[k := f g]> w.(groups) |>)
  | None => Fault
  end.

Section authenticator.
Context `{HM : !Hmac} {ctx : Type} `{BC : !BlockCipher ctx} `{HO : !Hostapd} (conf : wpa_auth_config).

(** *** The callbacks (ap/wpa_auth.c, ap/wpa_auth_glue.c) *)

Definition wpa_auth_set_eapol (var : wpa_eapol_variable) (value : Z) : M unit := emit (EvSetEapol var value).
Definition wpa_auth_get_eapol (var : wpa_eapol_variable) : M Z := ask (fun n => ask_eapol n var).

Definition wpa_auth_set_key (vlan : Z) (alg : wpa_alg) (address : list Z) (idx : Z) (key : list Z)
    (flag : Z) : M Z :=
  emit (EvSetKey vlan alg address idx key flag) ;; ask ask_set_key.

Definition wpa_auth_get_seqnum (idx : Z) : M (option (list Z)) := ask (fun n => ask_seqnum n idx).
Definition wpa_auth_update_vlan (vlan : Z) : M Z := emit (EvUpdateVlan vlan) ;; ask ask_update_vlan.
Definition random_get_bytes (n : Z) : M (option (list Z)) := ask (fun k => ask_random k n).
Definition os_malloc : M bool := ask ask_malloc.

Definition eloop_register (t : timeout) (sec usec : Z) : M unit := emit (EvRegister t sec usec).
Definition eloop_cancel (t : timeout) : M unit := emit (EvCancel t).

(** *** Group keys *)

Definition zero_keys : list (list Z) := replicate 2 (replicate (Z.to_nat WPA_GTK_MAX_LEN) 0).

(** [arr[i]] of an array of two keys, and a store into it. *)
Definition key_at (keys : list (list Z)) (i : Z) : cres (list Z) :=
  if (0 <=? i) && (i <? 2) then
    match keys !! Z.to_nat i with Some k => Ok k | None => Fault end
  else Fault.

Definition set_key_at (keys : list (list Z)) (i : Z) (k : list Z) : cres (list (list Z)) :=
  (old <-- key_at keys i ;; new <-- wr old 0 k ;; Ok (<[Z.to_nat i := new]> keys))%c.

Definition inc_byte_array (len : nat) (c : list Z) : list Z := increment len c.

(** The result, and the key when the expansion wrote one: a failure of the
    random generator is reported, but does not stop the expansion. *)
Definition wpa_gmk_to_gtk (gmk : list Z) (label : string) (gnonce : list Z) (gtk_len : Z) : M (Z * option (list Z)) :=
  t ← ask ask_ntp;
  r ← random_get_bytes gtk_len;
  let noise := default (replicate (Z.to_nat gtk_len) 0) r in
  let data := conf.(auth_addr) ++ gnonce ++ t ++ noise ++
              replicate (Z.to_nat (WPA_GTK_MAX_LEN - gtk_len)) 0 in
  let key := sha384_prf gmk label data gtk_len in
  mret (if r is Some _ then if key is Some _ then 0 else -1 else -1, key).

(** One key of [wpa_gtk_update]: the next nonce, the derivation, the store. *)
Definition derive_group_key (k : Z) (label : string) (len : Z)
    (store : wpa_group -> list Z -> cres wpa_group) : M bool :=
  upd_group k (fun g => g <| GNonce := g.(Counter) |> <| Counter := inc_byte_array 32 g.(Counter) |>) ;;
  g ← get_group k;
  r ← wpa_gmk_to_gtk g.(GMK) label g.(GNonce) len;
  (if r.2 is Some key then g' ← lift (store g key); upd_group k (fun _ => g') else skip) ;;
  mret (r.1 =? 0).

(** The BSS is not one of a multiple BSSID set: there is no [tx_bss_auth], and
    no BSS that does not transmit beacons ([non_tx_beacon_prot]). *)
Definition wpa_gtk_update (k : Z) : M Z :=
  g ← get_group k;
  ok ← derive_group_key k "Group key expansion" g.(GTK_len)
         (fun g key => (a <-- set_key_at g.(GTK) (g.(GN) - 1) key ;; Ok (g <| GTK := a |>))%c);
  let len := wpa_cipher_key_len conf.(group_mgmt_cipher) in
  ok2 ← (if conf.(ieee80211w) then
           derive_group_key k "IGTK key expansion" len
             (fun g key => (a <-- set_key_at g.(IGTK) (g.(GN_igtk) - 4) key ;; Ok (g <| IGTK := a |>))%c)
         else mret true);
  let ret := if ok && ok2 then 0 else -1 in
  if negb conf.(ieee80211w) || negb conf.(beacon_prot) then mret ret
  else
    ok3 ← derive_group_key k "BIGTK key expansion" len
            (fun g key => (a <-- set_key_at g.(BIGTK) (g.(GN_bigtk) - 6) key ;; Ok (g <| BIGTK := a |>))%c);
    if negb ok3 then mret (-1)
    else upd_group k (fun g => g <| bigtk_set := true |>) ;; mret ret.

Definition wpa_group_init_gmk_and_counter (k : Z) : M Z :=
  r ← random_get_bytes WPA_GMK_LEN;
  match r with
  | None => mret (-1)
  | Some gmk =>
      upd_group k (fun g => g <| GMK := gmk |>) ;;
      t ← ask ask_ntp;
      rkey ← random_get_bytes 32;
      match rkey with
      | None => mret (-1)
      | Some rkey =>
          match sha1_prf rkey "Init Counter" (conf.(auth_addr) ++ t ++ ask_group_pointer) WPA_NONCE_LEN with
          | None => mret (-1)
          | Some c => upd_group k (fun g => g <| Counter := c |>) ;; mret 0
          end
      end
  end.

(** [key[0 .. len)] handed to the driver. *)
Definition install_group_key (k : Z) (alg : wpa_alg) (idx : Z) (key : cres (list Z)) (len : Z) : M Z :=
  g ← get_group k;
  key ← lift (x <-- key ;; rdn x 0 len)%c;
  wpa_auth_set_key g.(vlan_id) alg broadcast_ether_addr idx key KEY_FLAG_GROUP_TX_DEFAULT.

Definition wpa_group_config_group_keys (k : Z) : M Z :=
  g ← get_group k;
  r ← install_group_key k (wpa_cipher_to_alg conf.(wpa_group_cipher)) g.(GN) (key_at g.(GTK) (g.(GN) - 1)) g.(GTK_len);
  let ret := if r <? 0 then -1 else 0 in
  if negb conf.(ieee80211w) then mret ret
  else
    let alg := wpa_cipher_to_alg conf.(group_mgmt_cipher) in
    let len := wpa_cipher_key_len conf.(group_mgmt_cipher) in
    ret ← (if ret =? 0 then
             r ← install_group_key k alg g.(GN_igtk) (key_at g.(IGTK) (g.(GN_igtk) - 4)) len;
             mret (if r <? 0 then -1 else ret)
           else mret ret);
    if negb (ret =? 0) || negb conf.(beacon_prot) then mret ret
    else
      r ← install_group_key k alg g.(GN_bigtk) (key_at g.(BIGTK) (g.(GN_bigtk) - 6)) len;
      if r <? 0 then mret (-1)
      else upd_group k (fun g => g <| bigtk_configured := true |>) ;; mret ret.

Definition wpa_group_ensure_init (k : Z) : M unit :=
  g ← get_group k;
  when (negb g.(first_sta_seen))
    (ready ← ask ask_random_pool_ready;
     (if ready : bool then
        upd_group k (fun g => g <| first_sta_seen := true |> <| reject_4way_hs_for_entropy := false |>)
      else upd_group k (fun g => g <| reject_4way_hs_for_entropy := true |>)) ;;
     a ← wpa_group_init_gmk_and_counter k;
     b ← (if a <? 0 then mret (-1) else wpa_gtk_update k);
     c ← (if b <? 0 then mret (-1) else wpa_group_config_group_keys k);
     when (c <? 0)
       (upd_group k (fun g => g <| first_sta_seen := false |> <| reject_4way_hs_for_entropy := true |>))).

(** *** Sending (ap/wpa_auth.c) *)

Definition zero_ctr : wpa_key_replay_counter := mkCtr (replicate 8 0) false.

(** The shift of [key_replay] and the next counter in front. *)
Definition next_replay (l : list wpa_key_replay_counter) : list wpa_key_replay_counter :=
  let c := nth 0 l zero_ctr in
  take RSNA_MAX_EAPOL_RETRIES (mkCtr (inc_byte_array 8 c.(counter)) true :: l).

(** The key descriptor version of the frames to a station. *)
Definition send_version (s : wpa_state_machine) (force_version : Z) : Z :=
  if negb (force_version =? 0) then force_version
  else if wpa_use_akm_defined s.(sta_key_mgmt) then WPA_KEY_INFO_TYPE_AKM_DEFINED
  else if wpa_use_cmac s.(sta_key_mgmt) then WPA_KEY_INFO_TYPE_AES_128_CMAC
  else if negb (s.(pairwise) =? WPA_CIPHER_TKIP) then WPA_KEY_INFO_TYPE_HMAC_SHA1_AES
  else WPA_KEY_INFO_TYPE_HMAC_MD5_RC4.

Definition key_wrapped (s : wpa_state_machine) (version : Z) : bool :=
  (version =? WPA_KEY_INFO_TYPE_HMAC_SHA1_AES) || wpa_use_aes_key_wrap s.(sta_key_mgmt) ||
  (version =? WPA_KEY_INFO_TYPE_AES_128_CMAC).

(** [pad_len] of key data to wrap. *)
Definition wrap_pad (len : Z) : Z := if len mod 8 =? 0 then 0 else 8 - len mod 8.

(** The frame before its integrity code: 802.1X header, key descriptor,
    integrity code field, key data length and key data. *)
Definition eapol_key_frame (version_8021x key_type key_info key_length : Z) (replay nonce iv rsc : list Z)
    (mic_len key_data_length : Z) (key_data : list Z) : list Z :=
  let body := [key_type] ++ WPA_PUT_BE16 key_info ++ WPA_PUT_BE16 key_length ++ replay ++ nonce ++ iv ++
              rsc ++ replicate 8 0 ++ replicate (Z.to_nat mic_len) 0 ++ WPA_PUT_BE16 key_data_length ++
              key_data in
  [version_8021x; IEEE802_1X_TYPE_EAPOL_KEY] ++ WPA_PUT_BE16 (u16 (zlen body)) ++ body.

(** The key data of a frame and the initialization vector; [None] when the
    frame is given up.  [key_data_len] bytes are set aside. *)
Definition key_data_field (version encr : Z) (kde : option (list Z)) (key_data_len : Z) :
    M (option (Z * list Z * list Z)) :=
  s ← the id;
  let blank := replicate (Z.to_nat key_data_len) 0 in
  let no_iv := replicate 16 0 in
  match kde with
  | None => mret (Some (0, blank, no_iv))
  | Some kde =>
      if encr =? 0 then d ← lift (wr blank 0 kde); mret (Some (zlen kde, d, no_iv))
      else
        ok ← os_malloc;
        if negb ok then mret None
        else
          let pad_len := if key_wrapped s version then wrap_pad (zlen kde) else 0 in
          buf ← lift (wr blank 0 (kde ++ if pad_len =? 0 then [] else [0xdd]));
          if key_wrapped s version then
            r ← lift (aes_wrap s.(PTK).(kek) (zlen s.(PTK).(kek)) ((key_data_len - 8) / 8) buf);
            if negb (r.1 =? 0) then mret None
            else d ← lift (wr blank 0 r.2); mret (Some (key_data_len, d, no_iv))
          else if zlen s.(PTK).(kek) =? 16 then
            g ← get_group s.(group);
            let iv := drop 16 g.(Counter) in
            upd_group s.(group) (fun g => g <| Counter := inc_byte_array 32 g.(Counter) |>) ;;
            mret (Some (key_data_len, rc4_skip (iv ++ s.(PTK).(kek)) 256 buf, iv))
          else mret None
  end.

Definition __wpa_send_eapol (key_info : Z) (key_rsc nonce kde : option (list Z)) (keyidx encr force_version : Z) :
    M unit :=
  s ← the id;
  let mic_len := wpa_mic_len s.(sta_key_mgmt) (zlen s.(PMK)) in
  let version := send_version s force_version in
  let pairwise_key := flag_set key_info WPA_KEY_INFO_KEY_TYPE in
  let kde_len := zlen (default [] kde) in
  let key_data_len :=
    if key_wrapped s version && negb (encr =? 0) then kde_len + wrap_pad kde_len + 8 else kde_len in
  let room := key_data_len + (if (mic_len =? 0) && negb (encr =? 0) then AES_BLOCK_SIZE else 0) in
  ok ← os_malloc;
  when ok
    (let key_info := Z.lor key_info version in
     let key_info := if negb (encr =? 0) && (s.(wpa) =? WPA_VERSION_WPA2)
                     then Z.lor key_info WPA_KEY_INFO_ENCR_KEY_DATA else key_info in
     let key_info := if negb (s.(wpa) =? WPA_VERSION_WPA2)
                     then Z.lor key_info (Z.shiftl keyidx WPA_KEY_INFO_KEY_INDEX_SHIFT) else key_info in
     let alg := if pairwise_key then s.(pairwise) else conf.(wpa_group_cipher) in
     let key_length := if (s.(wpa) =? WPA_VERSION_WPA2) && negb pairwise_key then 0 else wpa_cipher_key_len alg in
     upd (fun s => s <| key_replay := next_replay s.(key_replay) |>) ;;
     s' ← the id;
     let replay := (nth 0 s'.(key_replay) zero_ctr).(counter) in
     r ← key_data_field version encr kde key_data_len;
     match r with
     | None => skip
     | Some (kd_length, kd, iv) =>
         let frame := eapol_key_frame conf.(eapol_version)
           (if s.(wpa) =? WPA_VERSION_WPA2 then EAPOL_KEY_TYPE_RSN else EAPOL_KEY_TYPE_WPA)
           key_info key_length replay (default (replicate 32 0) nonce) iv (default (replicate 8 0) key_rsc)
           mic_len kd_length (kd ++ replicate (Z.to_nat (room - key_data_len)) 0) in
         sealed ← (if flag_set key_info WPA_KEY_INFO_MIC then
                     if negb s.(PTK_valid) || (mic_len =? 0) then mret None
                     else
                       m ← lift (wpa_eapol_key_mic s.(PTK).(kck) s.(sta_key_mgmt) version frame);
                       match m with
                       | None => mret None
                       | Some m => f ← lift (wr frame mic_off m); mret (Some f)
                       end
                   else mret (Some frame));
         match sealed with
         | None => skip
         | Some frame =>
             wpa_auth_set_eapol WPA_EAPOL_inc_EapolFramesTx 1 ;;
             emit (EvSendEapol frame s.(pairwise_set))
         end
     end).

Definition wpa_send_eapol (key_info : Z) (key_rsc nonce kde : option (list Z)) (keyidx encr : Z) : M unit :=
  s ← the id;
  let pairwise_key := flag_set key_info WPA_KEY_INFO_KEY_TYPE in
  let ctr := if pairwise_key then s.(TimeoutCtr) else s.(GTimeoutCtr) in
  __wpa_send_eapol key_info key_rsc nonce kde keyidx encr 0 ;;
  timeout_ms ← (if (ctr =? 1) && conf.(tx_status) then
                  if pairwise_key then mret eapol_key_timeout_first
                  else
                    count ← ask ask_sta_count;
                    mret (if 100 <? count then u32 (eapol_key_timeout_first_group * 2)
                          else eapol_key_timeout_first_group)
                else mret eapol_key_timeout_subseq);
  let timeout_ms :=
    if conf.(wpa_disable_eapol_key_retries) && (negb pairwise_key || flag_set key_info WPA_KEY_INFO_MIC)
    then eapol_key_timeout_no_retrans else timeout_ms in
  when (pairwise_key && (ctr =? 1) && negb (flag_set key_info WPA_KEY_INFO_MIC))
    (upd (fun s => s <| pending_1_of_4_timeout := true |>)) ;;
  eloop_register SendEapolTimeout (timeout_ms / 1000) (timeout_ms mod 1000 * 1000).

(** *** Replay counters *)

Fixpoint wpa_replay_counter_valid (ctr : list wpa_key_replay_counter) (replay_counter : list Z) : bool :=
  match ctr with
  | c :: ctr =>
      if negb c.(valid) then false
      else if bool_decide (replay_counter = c.(counter)) then true
      else wpa_replay_counter_valid ctr replay_counter
  | [] => false
  end.

(** A [replay_counter] of [None] is [NULL]: all of them. *)
Definition wpa_replay_counter_mark_invalid (ctr : list wpa_key_replay_counter) (replay_counter : option (list Z)) :
    list wpa_key_replay_counter :=
  map (fun c =>
    if c.(valid) && match replay_counter with None => true | Some r => bool_decide (r = c.(counter)) end
    then mkCtr c.(counter) false else c) ctr.

(** *** Small operations *)

Definition wpa_gkeydone_sta : M unit :=
  upd_group 0 (fun g => g <| GKeyDoneStations := g.(GKeyDoneStations) - 1 |>) ;;
  upd (fun s => s <| GUpdateStationKeys := false |>).

Definition wpa_request_new_ptk : M unit :=
  s ← the id;
  if negb s.(use_ext_key_id) && conf.(wpa_deny_ptk0_rekey) then
    upd (fun s => s <| Disconnect := true |>
                    <| disconnect_reason := WLAN_REASON_CLASS3_FRAME_FROM_NONASSOC_STA |>)
  else
    when s.(use_ext_key_id) (upd (fun s => s <| keyidx_active := u8 (Z.lxor s.(keyidx_active) 1) |>)) ;;
    upd (fun s => s <| PTKRequest := true |> <| PTK_valid := false |>).

Definition wpa_auth_set_ptk_rekey_timer : M unit :=
  when (negb (conf.(wpa_ptk_rekey) =? 0))
    (eloop_cancel RekeyPtk ;; eloop_register RekeyPtk conf.(wpa_ptk_rekey) 0).

Definition wpa_remove_ptk : M unit :=
  upd (fun s => s <| PTK_valid := false |> <| PTK := zero_ptk |>) ;;
  emit EvRemovePtksa ;;
  s ← the id;
  _ ← wpa_auth_set_key 0 WPA_ALG_NONE s.(addr) 0 [] KEY_FLAG_PAIRWISE;
  (if s.(use_ext_key_id) then
     _ ← wpa_auth_set_key 0 WPA_ALG_NONE s.(addr) 1 [] KEY_FLAG_PAIRWISE; skip
   else skip) ;;
  upd (fun s => s <| pairwise_set := false |>) ;;
  eloop_cancel RekeyPtk.

(** *** Reports of events to the machine *)

Inductive wpa_event :=
| WPA_AUTH | WPA_ASSOC | WPA_DISASSOC | WPA_DEAUTH | WPA_REAUTH | WPA_REAUTH_EAPOL | WPA_ASSOC_FT
| WPA_ASSOC_FILS | WPA_DRV_STA_REMOVED.

#[export] Instance wpa_event_eq_dec : EqDecision wpa_event.
Proof. solve_decision. Defined.

(** The end of [wpa_auth_sm_event]: the keys go, and the machine steps unless
    it is in its loop, which then runs again. *)
Definition sm_event_tail (step : M Z) (ev : wpa_event) : M Z :=
  s ← the id;
  when (negb (s.(mgmt_frame_prot) && bool_decide (ev = WPA_AUTH)))
    (upd (fun s => s <| PTK_valid := false |> <| PTK := zero_ptk |>) ;;
     when (negb (bool_decide (ev = WPA_REAUTH_EAPOL))) wpa_remove_ptk) ;;
  s ← the id;
  if s.(in_step_loop) then upd (fun s => s <| changed := true |>) ;; mret 0 else step.

Definition wpa_auth_sm_event (step : M Z) (ev : wpa_event) : M Z :=
  s ← the id;
  match ev with
  | WPA_AUTH | WPA_ASSOC | WPA_ASSOC_FT | WPA_ASSOC_FILS => sm_event_tail step ev
  | WPA_DEAUTH | WPA_DISASSOC =>
      upd (fun s => s <| DeauthenticationRequest := true |> <| PMK := [] |>) ;;
      sm_event_tail step ev
  | WPA_REAUTH | WPA_REAUTH_EAPOL =>
      if negb s.(started) then
        upd (fun s => s <| started := true |> <| Init := true |>) ;;
        r ← step;
        if r =? 1 then mret 1
        else upd (fun s => s <| Init := false |> <| AuthenticationRequest := true |>) ;; sm_event_tail step ev
      else if 3 <? s.(ptkstart_without_success) then
        upd (fun s => s <| Disconnect := true |>) ;; sm_event_tail step ev
      else if negb s.(use_ext_key_id) && conf.(wpa_deny_ptk0_rekey) then
        upd (fun s => s <| Disconnect := true |>
                        <| disconnect_reason := WLAN_REASON_CLASS3_FRAME_FROM_NONASSOC_STA |>) ;;
        sm_event_tail step ev
      else
        when s.(use_ext_key_id) (upd (fun s => s <| keyidx_active := u8 (Z.lxor s.(keyidx_active) 1) |>)) ;;
        when s.(GUpdateStationKeys) (wpa_gkeydone_sta ;; upd (fun s => s <| PtkGroupInit := true |>)) ;;
        upd (fun s => s <| ReAuthenticationRequest := true |>) ;;
        sm_event_tail step ev
  | WPA_DRV_STA_REMOVED => upd (fun s => s <| tk_already_set := false |>) ;; mret 0
  end.

(** [wpa_sta_disconnect]: hostapd's callback reports [WPA_DEAUTH] back when it
    finds the station.  The caller is in the step loop, or says how to step. *)
Definition wpa_sta_disconnect (step : M Z) (reason : Z) : M unit :=
  emit (EvDisconnect reason) ;;
  known ← ask ask_station_known;
  if known : bool then _ ← wpa_auth_sm_event step WPA_DEAUTH; skip else skip.

(** *** Deriving and trying pairwise keys *)

(** [ieee802_11_rsnx_capab] (common/ieee802_11_common.c) *)
Definition ieee802_11_rsnx_capab (rsnxe : option (list Z)) (capab : Z) : cres bool :=
  match rsnxe with
  | None => Ok false
  | Some e =>
      (len <-- rd e 1 ;;
       if len =? 0 then Ok false
       else
         b0 <-- rd e 2 ;;
         let flen := Z.land b0 0x0f + 1 in
         if len <? flen then Ok false
         else
           bs <-- rdn e 2 (Z.min flen 4) ;;
           Ok (has_bit (foldr (fun b v => Z.lor b (Z.shiftl v 8)) 0 bs) capab))%c
  end.

Definition wpa_derive_ptk (s : wpa_state_machine) (snonce pmk : list Z) (force_sha256 no_kdk : bool) :
    cres (option wpa_ptk) :=
  (ltf <-- (if negb no_kdk && conf.(secure_ltf)
            then ieee802_11_rsnx_capab s.(sta_rsnxe) WLAN_RSNX_CAPAB_SECURE_LTF else Ok false) ;;
   let kdk_len := if conf.(force_kdk_derivation) || ltf then WPA_KDK_MAX_LEN else 0 in
   let z := if s.(sta_key_mgmt) =? WPA_KEY_MGMT_DPP then default [] s.(dpp_z) else [] in
   let akmp := if force_sha256 then Z.lor s.(sta_key_mgmt) WPA_KEY_MGMT_PSK_SHA256 else s.(sta_key_mgmt) in
   wpa_pmk_to_ptk pmk "Pairwise key expansion" conf.(auth_addr) s.(addr) s.(ANonce) snonce akmp
     s.(pairwise) z kdk_len)%c.

(** [wpa_verify_key_mic] on [last_rx_eapol_key], a pointer with its length. *)
Definition verify_last (pmk_len : Z) (p : wpa_ptk) : M Z :=
  s ← the id;
  if s.(last_rx_eapol_key_len) <? mic_off then mret (-1)
  else match s.(last_rx_eapol_key) with
       | None => lift Fault
       | Some d =>
           r ← lift (wpa_verify_key_mic s.(sta_key_mgmt) pmk_len p d);
           upd (fun s => s <| last_rx_eapol_key := Some r.2 |>) ;; mret r.1
       end.

(** What trying a PMK gives: no key can be derived, the code does not match, or
    the key.  Only OWE moves the local [owe_ptk_workaround] to 2. *)
Inductive tried := TryBreak | TryNo | TryOk (p : wpa_ptk).

Definition try_ptk (mic_len : Z) (pmk : list Z) (no_kdk : bool) : M tried :=
  s ← the id;
  let owe_ptk_workaround := if conf.(owe_ptk_workaround) =? 0 then 0 else 1 in
  p ← lift (wpa_derive_ptk s s.(SNonce) pmk (owe_ptk_workaround =? 2) no_kdk);
  match p with
  | None => mret TryBreak
  | Some p =>
      if mic_len =? 0 then mret TryNo
      else r ← verify_last (zlen pmk) p; mret (if r =? 0 then TryOk p else TryNo)
  end.

Definition try_pmk (mic_len : Z) (pmk : list Z) : M tried :=
  s ← the id;
  derive_kdk ← lift (if conf.(secure_ltf) then ieee802_11_rsnx_capab s.(sta_rsnxe) WLAN_RSNX_CAPAB_SECURE_LTF
                     else Ok false);
  r ← try_ptk mic_len pmk false;
  match r with
  | TryNo => if negb conf.(force_kdk_derivation) && derive_kdk then try_ptk mic_len pmk true else mret TryNo
  | _ => mret r
  end.

(** [os_memcpy(sm->PMK, pmk, pmk_len)] into the array of the structure. *)
Definition store_pmk (pmk : list Z) : M unit :=
  if zlen pmk <=? PMK_LEN_MAX then upd (fun s => s <| PMK := pmk |>) else lift Fault.

Definition or_cached (s : wpa_state_machine) (pmk : list Z) : list Z :=
  match s.(pmksa) with Some (k, _) => if zlen pmk =? 0 then k else pmk | None => pmk end.

(** The passes over the PSKs of the station: the keys, the PMK, its VLAN and
    whether the PMK is not the one in the structure. *)
Fixpoint psk_loop (mic_len : Z) (psks : list (list Z * Z)) : M (option (wpa_ptk * list Z * Z * bool)) :=
  match psks with
  | [] => mret None
  | (psk, vlan) :: psks =>
      s ← the id;
      let pmk := or_cached s psk in
      r ← try_pmk mic_len pmk;
      match r with
      | TryBreak => mret None
      | TryOk p => store_pmk pmk ;; mret (Some (p, pmk, vlan, true))
      | TryNo => psk_loop mic_len psks
      end
  end.

Definition uses_psk (s : wpa_state_machine) : bool :=
  wpa_key_mgmt_wpa_psk s.(sta_key_mgmt) && negb (wpa_key_mgmt_sae s.(sta_key_mgmt)).

Definition wpa_compare_rsn_ie (ie1 ie2 : option (list Z)) : Z :=
  match ie1, ie2 with
  | Some a, Some b => if bool_decide (a = b) then 0 else -1
  | _, _ => -1
  end.

(** The temporal key of a cipher, from its array in [struct wpa_ptk]. *)
Definition tk_bytes (cipher : Z) (p : wpa_ptk) : list Z :=
  take (Z.to_nat (wpa_cipher_key_len cipher)) (p.(tk) ++ replicate (Z.to_nat WPA_TK_MAX_LEN - length p.(tk)) 0).

(** *** WPA_PTK: the pairwise key machine *)

Definition enter (st : wpa_ptk_st) : M unit := upd (fun s => s <| changed := true |> <| wpa_ptk_state := st |>).

(** In the loop a report of an event does not step. *)
Definition in_loop : M Z := mret 0.
Definition disconnect_in_loop (reason : Z) : M unit := wpa_sta_disconnect in_loop reason.

Definition psk_or_own (akmp : Z) : bool :=
  wpa_key_mgmt_wpa_psk akmp || (akmp =? WPA_KEY_MGMT_DPP) || (akmp =? WPA_KEY_MGMT_OWE).

Definition sm_WPA_PTK_INITIALIZE_Enter : M unit :=
  enter WPA_PTK_INITIALIZE ;;
  s ← the id;
  when s.(Init) (upd (fun s => s <| changed := false |>)) ;;
  upd (fun s => s <| keycount := 0 |>) ;;
  when s.(GUpdateStationKeys) wpa_gkeydone_sta ;;
  when (s.(wpa) =? WPA_VERSION_WPA) (upd (fun s => s <| PInitAKeys := false |>)) ;;
  upd (fun s => s <| Pair := true |>) ;;
  wpa_auth_set_eapol WPA_EAPOL_portEnabled 0 ;;
  wpa_remove_ptk ;;
  wpa_auth_set_eapol WPA_EAPOL_portValid 0 ;;
  upd (fun s => s <| TimeoutCtr := 0 |>) ;;
  when (psk_or_own s.(sta_key_mgmt)) (wpa_auth_set_eapol WPA_EAPOL_authorized 0).

Definition sm_WPA_PTK_DISCONNECT_Enter : M unit :=
  s ← the id;
  enter WPA_PTK_DISCONNECT ;;
  upd (fun s => s <| Disconnect := false |> <| disconnect_reason := 0 |>) ;;
  disconnect_in_loop (if s.(disconnect_reason) =? 0 then WLAN_REASON_PREV_AUTH_NOT_VALID else s.(disconnect_reason)).

Definition sm_WPA_PTK_DISCONNECTED_Enter : M unit :=
  enter WPA_PTK_DISCONNECTED ;; upd (fun s => s <| DeauthenticationRequest := false |>).

Definition sm_WPA_PTK_AUTHENTICATION_Enter : M unit :=
  enter WPA_PTK_AUTHENTICATION ;;
  upd (fun s => s <| PTK := zero_ptk |> <| PTK_valid := false |>) ;;
  wpa_auth_set_eapol WPA_EAPOL_portControl_Auto 1 ;;
  wpa_auth_set_eapol WPA_EAPOL_portEnabled 1 ;;
  upd (fun s => s <| AuthenticationRequest := false |>).

(** A fresh nonce, or the end of the association. *)
Definition new_anonce : M bool :=
  r ← random_get_bytes WPA_NONCE_LEN;
  match r with
  | None => upd (fun s => s <| Disconnect := true |>) ;; mret false
  | Some n => upd (fun s => s <| ANonce := n |> <| TimeoutCtr := 0 |>) ;; mret true
  end.

Definition sm_WPA_PTK_AUTHENTICATION2_Enter : M unit :=
  enter WPA_PTK_AUTHENTICATION2 ;;
  s ← the id;
  wpa_group_ensure_init s.(group) ;;
  upd (fun s => s <| ReAuthenticationRequest := false |>) ;;
  _ ← new_anonce; skip.

Definition wpa_auth_sm_ptk_update : M Z := ok ← new_anonce; mret (if ok : bool then 0 else -1).

Definition sm_WPA_PTK_INITPMK_Enter : M unit :=
  enter WPA_PTK_INITPMK ;;
  s ← the id;
  let finish := upd (fun s => s <| req_replay_counter_used := false |>) ;; wpa_auth_set_eapol WPA_EAPOL_keyRun 0 in
  match s.(pmksa) with
  | Some (pmk, _) => store_pmk pmk ;; finish
  | None =>
      if s.(sta_key_mgmt) =? WPA_KEY_MGMT_DPP then
        upd (fun s => s <| Disconnect := true |> <| disconnect_reason := WLAN_REASON_INVALID_PMKID |>)
      else
        msk ← ask ask_msk;
        match msk with
        | Some msk =>
            let pmk_len := if wpa_key_mgmt_sha384 s.(sta_key_mgmt) then 48 else PMK_LEN in
            if zlen msk <? pmk_len then upd (fun s => s <| Disconnect := true |>)
            else store_pmk (take (Z.to_nat pmk_len) msk) ;; finish
        | None => upd (fun s => s <| Disconnect := true |>)
        end
  end.

Definition sm_WPA_PTK_INITPSK_Enter : M unit :=
  enter WPA_PTK_INITPSK ;;
  psks ← ask ask_psks;
  match psks with
  | (psk, _) :: _ => store_pmk psk
  | [] => skip
  end ;;
  upd (fun s => s <| req_replay_counter_used := false |>).

Definition sm_WPA_PTK_PTKSTART_Enter : M unit :=
  enter WPA_PTK_PTKSTART ;;
  upd (fun s => s <| PTKRequest := false |> <| TimeoutEvt := false |> <| alt_snonce_valid := false |>
                  <| ptkstart_without_success := u32 (s.(ptkstart_without_success) + 1) |>
                  <| TimeoutCtr := u32 (s.(TimeoutCtr) + 1) |>) ;;
  s ← the id;
  if conf.(wpa_pairwise_update_count) <? s.(TimeoutCtr) then skip
  else
    ok ← os_malloc;
    if negb ok then skip
    else
      let akmp := s.(sta_key_mgmt) in
      let pmkid :=
        if (s.(wpa) =? WPA_VERSION_WPA2) &&
           (wpa_key_mgmt_wpa_ieee8021x akmp ||
            ((akmp =? WPA_KEY_MGMT_OWE) && bool_decide (is_Some s.(pmksa))) || wpa_key_mgmt_sae akmp) &&
           negb (akmp =? WPA_KEY_MGMT_OSEN)
        then match s.(pmksa) with
             | Some (_, id) => Some id
             | None => if wpa_key_mgmt_suite_b akmp then None
                       else Some (default (replicate 16 0) (rsn_pmkid s.(PMK) conf.(auth_addr) s.(addr) akmp))
             end
        else None in
      let kde := option_map (fun id => item_bytes (IPmkid id)) pmkid in
      let key_info := Z.lor WPA_KEY_INFO_ACK WPA_KEY_INFO_KEY_TYPE in
      let key_info := if s.(pairwise_set) && negb (s.(wpa) =? WPA_VERSION_WPA)
                      then Z.lor key_info WPA_KEY_INFO_SECURE else key_info in
      wpa_send_eapol key_info None (Some s.(ANonce)) kde 0 0.

(** The checks on the key data of message 2/4, [true] when it is accepted. *)
Definition check_msg_2 (kde : wpa_eapol_ie_parse) (vlan : Z) : M bool :=
  s ← the id;
  let eapol_key_ie := match kde.(rsn_ie), kde.(osen) with
                      | Some e, _ => Some e | None, Some e => Some e | None, None => kde.(wpa_ie) end in
  let reject := disconnect_in_loop WLAN_REASON_PREV_AUTH_NOT_VALID ;; mret false in
  if negb (wpa_compare_rsn_ie s.(sta_wpa_ie) eapol_key_ie =? 0) then reject
  else if negb (bool_decide (s.(sta_rsnxe) = kde.(rsnxe))) then reject
  else
    pfs ← lift (match kde.(dpp_kde) with
                | Some d => (flags <-- rd d 1 ;;
                             Ok ((1 <? DPP_VERSION) && (s.(sta_key_mgmt) =? WPA_KEY_MGMT_DPP) && negb (conf.(dpp_pfs) =? 2) &&
                                 flag_set flags DPP_KDE_PFS_ALLOWED && negb (bool_decide (is_Some s.(dpp_z)))))%c
                | None => Ok false
                end);
    if pfs : bool then reject
    else if negb (vlan =? 0) && wpa_key_mgmt_wpa_psk s.(sta_key_mgmt) then
      r ← wpa_auth_update_vlan vlan;
      if r <? 0 then reject else mret true
    else mret true.

(** The key data of the last frame, unwrapped with the keys [p]; [None] when
    the frame is dropped.  When unwrapping fails the code frees the buffer of
    the plaintext and, at its end, frees it again. *)
Definition msg_2_key_data (mic_len : Z) (p : wpa_ptk) : M (option (list Z)) :=
  s ← the id;
  match s.(last_rx_eapol_key) with
  | None => lift Fault
  | Some d =>
      key_info ← lift (WPA_GET_BE16 (drop 5 d));
      key_data_length ← lift (WPA_GET_BE16 (drop (Z.to_nat (mic_off + mic_len)) d));
      if s.(last_rx_eapol_key_len) - mic_off - mic_len - 2 <? key_data_length then mret None
      else
        let key_data := drop (Z.to_nat (mic_off + mic_len + 2)) d in
        let ver := Z.land key_info WPA_KEY_INFO_TYPE_MASK in
        if negb (mic_len =? 0) && flag_set key_info WPA_KEY_INFO_ENCR_KEY_DATA then
          if negb (ver =? WPA_KEY_INFO_TYPE_HMAC_SHA1_AES) && negb (ver =? WPA_KEY_INFO_TYPE_AES_128_CMAC) &&
             negb (wpa_use_aes_key_wrap s.(sta_key_mgmt)) then mret None
          else if (key_data_length <? 8) || negb (key_data_length mod 8 =? 0) then mret None
          else
            ok ← os_malloc;
            if negb ok then mret None
            else
              r ← lift (aes_unwrap p.(kek) (zlen p.(kek)) ((key_data_length - 8) / 8) key_data);
              if negb (r.1 =? 0) then lift Fault else mret (Some r.2)
        else x ← lift (rdn key_data 0 key_data_length); mret (Some x)
  end.

(** No PMK of the station verifies message 2/4. *)
Definition msg_2_unmatched (no_psk : bool) : M unit :=
  s ← the id;
  if wpa_key_mgmt_wpa_psk_no_sae s.(sta_key_mgmt) && conf.(radius_psk) && negb s.(waiting_radius_psk) then
    emit (EvRequestRadiusPsk (default [] s.(last_rx_eapol_key))) ;;
    upd (fun s => s <| waiting_radius_psk := true |>)
  else when (uses_psk s && negb no_psk) (emit EvPskFailure).

(** The keys [p] from [pmk] verify it. *)
Definition msg_2_matched (mic_len : Z) (p : wpa_ptk) (pmk : list Z) (vlan : Z) (foreign : bool) : M unit :=
  data ← msg_2_key_data mic_len p;
  match data with
  | None => skip
  | Some data =>
      r ← lift (wpa_parse_kde_ies data);
      if r.1 <? 0 then skip
      else
        ok ← check_msg_2 r.2 vlan;
        when ok
          (upd (fun s => s <| pending_1_of_4_timeout := false |>) ;;
           eloop_cancel SendEapolTimeout ;;
           s ← the id;
           (if wpa_key_mgmt_wpa_psk s.(sta_key_mgmt) && foreign then
              pmk ← lift (rdn pmk 0 PMK_LEN); upd (fun s => s <| PMK := pmk |>)
            else skip) ;;
           upd (fun s => s <| MICVerified := true |> <| PTK := p |> <| PTK_valid := true |>))
  end.

Definition sm_WPA_PTK_PTKCALCNEGOTIATING_Enter : M unit :=
  enter WPA_PTK_PTKCALCNEGOTIATING ;;
  upd (fun s => s <| EAPOLKeyReceived := false |> <| update_snonce := false |>) ;;
  s ← the id;
  let mic_len := wpa_mic_len s.(sta_key_mgmt) (zlen s.(PMK)) in
  psks ← (if uses_psk s then ask ask_psks else mret []);
  found ← (if uses_psk s then psk_loop mic_len psks
           else
             let pmk := or_cached s s.(PMK) in
             r ← try_pmk mic_len pmk;
             match r with
             | TryOk p => store_pmk pmk ;;
                 mret (Some (p, pmk, 0, (zlen s.(PMK) =? 0) && bool_decide (is_Some s.(pmksa))))
             | _ => mret None
             end);
  match found with
  | None => msg_2_unmatched (bool_decide (psks = []))
  | Some (p, pmk, vlan, foreign) => msg_2_matched mic_len p pmk vlan foreign
  end.

Definition sm_WPA_PTK_PTKCALCNEGOTIATING2_Enter : M unit :=
  enter WPA_PTK_PTKCALCNEGOTIATING2 ;; upd (fun s => s <| TimeoutCtr := 0 |>).

(** *** Key data of messages 3/4 and 1/2 *)

Definition ieee80211w_kde_len (s : wpa_state_machine) : Z :=
  let len := wpa_cipher_key_len conf.(group_mgmt_cipher) in
  (if s.(mgmt_frame_prot) then 2 + RSN_SELECTOR_LEN + WPA_IGTK_KDE_PREFIX_LEN + len else 0) +
  (if s.(mgmt_frame_prot) && conf.(beacon_prot) then 2 + RSN_SELECTOR_LEN + WPA_BIGTK_KDE_PREFIX_LEN + len else 0).

(** The packet number of a group management key; zeros before it is in use. *)
Definition group_pn (g : wpa_group) (idx : Z) : M (list Z) :=
  let zeros := replicate 6 0 in
  if in_state g.(wpa_group_state) WPA_GROUP_SETKEYSDONE then
    rsc ← wpa_auth_get_seqnum idx;
    mret (match rsc with Some r => take 6 r | None => zeros end)
  else mret zeros.

(** One management key: identifier, packet number and key, or a random key for
    this station only; [None] when there is no randomness for one. *)
Definition mgmt_key (g : wpa_group) (idx : Z) (key : cres (list Z)) (len : Z) (unique : bool) : M (option (list Z)) :=
  pn ← group_pn g idx;
  key ← lift (k <-- key ;; rdn k 0 len)%c;
  k ← (if unique then random_get_bytes len else mret (Some key));
  mret (option_map (fun k => [u8 idx; 0] ++ pn ++ k) k).

Definition ieee80211w_kde_add : M (list item) :=
  s ← the id;
  if negb s.(mgmt_frame_prot) then mret []
  else
    g ← get_group s.(group);
    let len := wpa_cipher_key_len conf.(group_mgmt_cipher) in
    let osen := s.(sta_key_mgmt) =? WPA_KEY_MGMT_OSEN in
    i ← mgmt_key g g.(GN_igtk) (key_at g.(IGTK) (g.(GN_igtk) - 4)) len (conf.(disable_gtk) || osen);
    match i with
    | None => mret []
    | Some igtk =>
        if negb conf.(beacon_prot) then mret [IIgtk igtk]
        else
          b ← mgmt_key g g.(GN_bigtk) (key_at g.(BIGTK) (g.(GN_bigtk) - 6)) len osen;
          mret (match b with Some bigtk => [IIgtk igtk; IBigtk bigtk] | None => [IIgtk igtk] end)
    end.

Definition items_bytes (l : list item) : list Z := concat (map item_bytes l).

(** The group key a station gets: the group's, or a random one of its own. *)
Definition station_gtk (s : wpa_state_machine) (g : wpa_group) : M (option (list Z)) :=
  key ← lift (k <-- key_at g.(GTK) (g.(GN) - 1) ;; rdn k 0 g.(GTK_len))%c;
  if conf.(disable_gtk) || (s.(sta_key_mgmt) =? WPA_KEY_MGMT_OSEN) then random_get_bytes g.(GTK_len)
  else mret (Some key).

(** The access point's elements for a station: only the WPA element when it
    does not use RSN. *)
Definition station_wpa_ie (s : wpa_state_machine) : cres (list Z) :=
  let ie := conf.(auth_wpa_ie) in
  if (s.(wpa) =? WPA_VERSION_WPA) && flag_set conf.(conf_wpa) WPA_PROTO_RSN then
    (l <-- rd ie 1 ;;
     id <-- rd ie 0 ;;
     if (l + 2 <? zlen ie) && (id =? WLAN_EID_RSN) then
       let ie := drop (Z.to_nat (l + 2)) ie in
       id <-- rd ie 0 ;;
       l <-- (if id =? WLAN_EID_RSNX then rd ie 1 else Ok (-2)) ;;
       let ie := drop (Z.to_nat (l + 2)) ie in
       id <-- rd ie 0 ;;
       l <-- (if id =? WLAN_EID_MOBILITY_DOMAIN then rd ie 1 else Ok (-2)) ;;
       let ie := drop (Z.to_nat (l + 2)) ie in
       l <-- rd ie 1 ;;
       rdn ie 0 (l + 2)
     else Ok ie)%c
  else Ok ie.

(** The key data after the elements; [hdr] of a key is its identifier. *)
Definition msg_3_items (s : wpa_state_machine) (gtk : option (Z * list Z)) (igtks : list item) : list item :=
  (if s.(use_ext_key_id) then [IKeyId [Z.land s.(keyidx_active) 1; 0]] else []) ++
  match gtk with Some (idx, key) => [IGtk [Z.land idx 3; 0] key] | None => [] end ++ igtks.

Definition msg_3_tail (s : wpa_state_machine) : list Z :=
  (if negb (conf.(transition_disable_cfg) =? 0)
   then wpa_add_kde WFA_KEY_DATA_TRANSITION_DISABLE [conf.(transition_disable_cfg)] [] else []) ++
  (if (1 <? DPP_VERSION) && (s.(sta_key_mgmt) =? WPA_KEY_MGMT_DPP)
   then wpa_add_kde WFA_KEY_DATA_DPP
          [DPP_VERSION; if conf.(dpp_pfs) =? 0 then DPP_KDE_PFS_ALLOWED
                        else if conf.(dpp_pfs) =? 1 then Z.lor DPP_KDE_PFS_ALLOWED DPP_KDE_PFS_REQUIRED else 0] []
   else []) ++
  (if s.(ssid_protection) then [WLAN_EID_SSID; zlen conf.(conf_ssid)] ++ conf.(conf_ssid) else []).

(** [kde_len] of message 3/4. *)
Definition msg_3_len (s : wpa_state_machine) (wpa_ie : list Z) (gtk : option (Z * list Z)) : Z :=
  zlen wpa_ie + ieee80211w_kde_len s +
  (if s.(use_ext_key_id) then 2 + RSN_SELECTOR_LEN + 2 else 0) +
  match gtk with Some (_, key) => 2 + RSN_SELECTOR_LEN + 2 + zlen key | None => 0 end +
  (if negb (conf.(transition_disable_cfg) =? 0) then 2 + RSN_SELECTOR_LEN + 1 else 0) +
  (if s.(sta_key_mgmt) =? WPA_KEY_MGMT_DPP then 2 + RSN_SELECTOR_LEN + 2 else 0) +
  (if s.(ssid_protection) then 2 + zlen conf.(conf_ssid) else 0).

(** Message 3/4 once the keys to send are known. *)
Definition send_msg_3 (wpa_ie rsc : list Z) (secure : bool) (gtk : option (Z * list Z)) (encr : Z) : M unit :=
  s ← the id;
  ok ← os_malloc;
  if negb ok then skip
  else
    igtks ← ieee80211w_kde_add;
    let kde := wpa_ie ++ items_bytes (msg_3_items s gtk igtks) ++ msg_3_tail s in
    if msg_3_len s wpa_ie gtk <? zlen kde then lift Fault
    else
      let key_info := any_of
        [if secure then WPA_KEY_INFO_SECURE else 0;
         if negb (wpa_mic_len s.(sta_key_mgmt) (zlen s.(PMK)) =? 0) then WPA_KEY_INFO_MIC else 0;
         WPA_KEY_INFO_ACK; WPA_KEY_INFO_INSTALL; WPA_KEY_INFO_KEY_TYPE] in
      wpa_send_eapol key_info (if s.(wpa) =? WPA_VERSION_WPA2 then Some rsc else None) (Some s.(ANonce))
        (Some kde) 0 encr.

Definition sm_WPA_PTK_PTKINITNEGOTIATING_Enter : M unit :=
  enter WPA_PTK_PTKINITNEGOTIATING ;;
  upd (fun s => s <| TimeoutEvt := false |> <| TimeoutCtr := u32 (s.(TimeoutCtr) + 1) |>) ;;
  s ← the id;
  if conf.(wpa_disable_eapol_key_retries) && (1 <? s.(TimeoutCtr)) then skip
  else if conf.(wpa_pairwise_update_count) <? s.(TimeoutCtr) then skip
  else
    g ← get_group s.(group);
    rsc ← wpa_auth_get_seqnum g.(GN);
    wpa_ie ← lift (station_wpa_ie s);
    let rsc := default (replicate 8 0) rsc in
    if s.(wpa) =? WPA_VERSION_WPA2 then
      res ← (if s.(use_ext_key_id) && (s.(TimeoutCtr) =? 1) then
               wpa_auth_set_key 0 (wpa_cipher_to_alg s.(pairwise)) s.(addr) s.(keyidx_active) (tk_bytes s.(pairwise) s.(PTK))
                 KEY_FLAG_PAIRWISE_RX
             else mret 0);
      if negb (res =? 0) then disconnect_in_loop WLAN_REASON_PREV_AUTH_NOT_VALID
      else
        gtk ← station_gtk s g;
        match gtk with
        | None => skip
        | Some gtk => send_msg_3 wpa_ie rsc true (Some (g.(GN), gtk)) 1
        end
    else send_msg_3 wpa_ie rsc s.(rx_eapol_key_secure) None 0.

Definition sm_WPA_PTK_PTKINITDONE_Enter : M unit :=
  enter WPA_PTK_PTKINITDONE ;;
  upd (fun s => s <| EAPOLKeyReceived := false |>) ;;
  s ← the id;
  res ← (if s.(Pair) then
           if s.(use_ext_key_id) then
             wpa_auth_set_key 0 WPA_ALG_NONE s.(addr) s.(keyidx_active) [] KEY_FLAG_PAIRWISE_RX_TX_MODIFY
           else
             wpa_auth_set_key 0 (wpa_cipher_to_alg s.(pairwise)) s.(addr) 0 (tk_bytes s.(pairwise) s.(PTK))
               KEY_FLAG_PAIRWISE_RX_TX
         else mret 0);
  if negb (res =? 0) then disconnect_in_loop WLAN_REASON_PREV_AUTH_NOT_VALID
  else
    when s.(Pair)
      (upd (fun s => s <| pairwise_set := true |>) ;;
       wpa_auth_set_ptk_rekey_timer ;;
       emit (EvStorePtksa s.(PTK)) ;;
       when (psk_or_own s.(sta_key_mgmt)) (wpa_auth_set_eapol WPA_EAPOL_authorized 1)) ;;
    wpa_auth_set_eapol WPA_EAPOL_portValid 1 ;;
    wpa_auth_set_eapol WPA_EAPOL_keyAvailable 0 ;;
    wpa_auth_set_eapol WPA_EAPOL_keyDone 1 ;;
    (if s.(wpa) =? WPA_VERSION_WPA then upd (fun s => s <| PInitAKeys := true |>)
     else upd (fun s => s <| has_GTK := true |>)) ;;
    emit EvCompleted ;;
    upd (fun s => s <| ptkstart_without_success := 0 |>).

Definition handshake_failed : M unit := fun w => Ok (tt, w <| HandshakeFailures := u32 (w.(HandshakeFailures) + 1) |>).

(** A reply of the pairwise handshake is waiting. *)
Definition reply_waiting (s : wpa_state_machine) : bool :=
  s.(EAPOLKeyReceived) && negb s.(EAPOLKeyRequest) && s.(EAPOLKeyPairwise).

(** The transition out of a state, without the requests that go first. *)
Definition sm_WPA_PTK_Step_state (s : wpa_state_machine) : M unit :=
  let akmp := s.(sta_key_mgmt) in
  let timed_out := handshake_failed ;;
                   upd (fun s => s <| disconnect_reason := WLAN_REASON_4WAY_HANDSHAKE_TIMEOUT |>) ;;
                   sm_WPA_PTK_DISCONNECT_Enter in
  match s.(wpa_ptk_state) with
  | WPA_PTK_INITIALIZE => skip
  | WPA_PTK_DISCONNECT => sm_WPA_PTK_DISCONNECTED_Enter
  | WPA_PTK_DISCONNECTED => sm_WPA_PTK_INITIALIZE_Enter
  | WPA_PTK_AUTHENTICATION => sm_WPA_PTK_AUTHENTICATION2_Enter
  | WPA_PTK_AUTHENTICATION2 =>
      keyRun ← (if wpa_key_mgmt_wpa_ieee8021x akmp then wpa_auth_get_eapol WPA_EAPOL_keyRun else mret 0);
      if negb (keyRun =? 0) then sm_WPA_PTK_INITPMK_Enter
      else if wpa_key_mgmt_wpa_psk akmp || (akmp =? WPA_KEY_MGMT_OWE) then sm_WPA_PTK_INITPSK_Enter
      else if akmp =? WPA_KEY_MGMT_DPP then sm_WPA_PTK_INITPMK_Enter
      else skip
  | WPA_PTK_INITPMK =>
      available ← wpa_auth_get_eapol WPA_EAPOL_keyAvailable;
      if negb (available =? 0) then sm_WPA_PTK_PTKSTART_Enter
      else if (akmp =? WPA_KEY_MGMT_DPP) && bool_decide (is_Some s.(pmksa)) then sm_WPA_PTK_PTKSTART_Enter
      else handshake_failed ;; sm_WPA_PTK_DISCONNECT_Enter
  | WPA_PTK_INITPSK =>
      psks ← ask ask_psks;
      if negb (bool_decide (psks = [])) then sm_WPA_PTK_PTKSTART_Enter
      else if wpa_key_mgmt_wpa_psk_no_sae akmp && conf.(radius_psk) then sm_WPA_PTK_PTKSTART_Enter
      else handshake_failed ;; sm_WPA_PTK_DISCONNECT_Enter
  | WPA_PTK_PTKSTART =>
      if reply_waiting s then sm_WPA_PTK_PTKCALCNEGOTIATING_Enter
      else if conf.(wpa_pairwise_update_count) <? s.(TimeoutCtr) then timed_out
      else if s.(TimeoutEvt) then sm_WPA_PTK_PTKSTART_Enter
      else skip
  | WPA_PTK_PTKCALCNEGOTIATING =>
      if s.(MICVerified) then sm_WPA_PTK_PTKCALCNEGOTIATING2_Enter
      else if reply_waiting s then sm_WPA_PTK_PTKCALCNEGOTIATING_Enter
      else if s.(TimeoutEvt) then sm_WPA_PTK_PTKSTART_Enter
      else skip
  | WPA_PTK_PTKCALCNEGOTIATING2 => sm_WPA_PTK_PTKINITNEGOTIATING_Enter
  | WPA_PTK_PTKINITNEGOTIATING =>
      if s.(update_snonce) then sm_WPA_PTK_PTKCALCNEGOTIATING_Enter
      else if reply_waiting s && s.(MICVerified) then sm_WPA_PTK_PTKINITDONE_Enter
      else if (conf.(wpa_pairwise_update_count) <? s.(TimeoutCtr)) ||
              (conf.(wpa_disable_eapol_key_retries) && (1 <? s.(TimeoutCtr))) then timed_out
      else if s.(TimeoutEvt) then sm_WPA_PTK_PTKINITNEGOTIATING_Enter
      else skip
  | WPA_PTK_PTKINITDONE => skip
  end.

Definition sm_WPA_PTK_Step : M unit :=
  s ← the id;
  if s.(Init) then sm_WPA_PTK_INITIALIZE_Enter
  else if s.(Disconnect) then sm_WPA_PTK_DISCONNECT_Enter
  else if s.(DeauthenticationRequest) then sm_WPA_PTK_DISCONNECTED_Enter
  else if s.(AuthenticationRequest) then sm_WPA_PTK_AUTHENTICATION_Enter
  else if s.(ReAuthenticationRequest) then sm_WPA_PTK_AUTHENTICATION2_Enter
  else if s.(PTKRequest) then
    r ← wpa_auth_sm_ptk_update;
    if r <? 0 then sm_WPA_PTK_DISCONNECTED_Enter else sm_WPA_PTK_PTKSTART_Enter
  else sm_WPA_PTK_Step_state s.

(** *** WPA_PTK_GROUP: the group key machine of the station *)

Definition enter_group (st : wpa_ptk_group_st) : M unit :=
  upd (fun s => s <| changed := true |> <| wpa_ptk_group_state := st |>).

Definition sm_WPA_PTK_GROUP_IDLE_Enter : M unit :=
  enter_group WPA_PTK_GROUP_IDLE ;;
  s ← the id;
  when s.(Init) (upd (fun s => s <| changed := false |>)) ;;
  upd (fun s => s <| GTimeoutCtr := 0 |>).

Definition sm_WPA_PTK_GROUP_REKEYNEGOTIATING_Enter : M unit :=
  enter_group WPA_PTK_GROUP_REKEYNEGOTIATING ;;
  upd (fun s => s <| GTimeoutCtr := u32 (s.(GTimeoutCtr) + 1) |>) ;;
  s ← the id;
  if conf.(wpa_disable_eapol_key_retries) && (1 <? s.(GTimeoutCtr)) then skip
  else if conf.(wpa_group_update_count) <? s.(GTimeoutCtr) then skip
  else
    when (s.(wpa) =? WPA_VERSION_WPA) (upd (fun s => s <| PInitAKeys := false |>)) ;;
    upd (fun s => s <| TimeoutEvt := false |>) ;;
    g ← get_group s.(group);
    rsc ← (if in_state g.(wpa_group_state) WPA_GROUP_SETKEYSDONE then wpa_auth_get_seqnum g.(GN) else mret None);
    let rsc := default (replicate 8 0) rsc in
    gtk ← station_gtk s g;
    match gtk with
    | None => skip
    | Some gtk =>
        let key_info := any_of
          [WPA_KEY_INFO_SECURE;
           if negb (wpa_mic_len s.(sta_key_mgmt) (zlen s.(PMK)) =? 0) then WPA_KEY_INFO_MIC else 0;
           WPA_KEY_INFO_ACK; if negb s.(Pair) then WPA_KEY_INFO_INSTALL else 0] in
        if s.(wpa) =? WPA_VERSION_WPA2 then
          ok ← os_malloc;
          if negb ok then skip
          else
            igtks ← ieee80211w_kde_add;
            let kde := items_bytes (IGtk [Z.land g.(GN) 3; 0] gtk :: igtks) in
            if 2 + RSN_SELECTOR_LEN + 2 + g.(GTK_len) + ieee80211w_kde_len s <? zlen kde then lift Fault
            else wpa_send_eapol key_info (Some rsc) None (Some kde) g.(GN) 1
        else wpa_send_eapol key_info (Some rsc) None (Some gtk) g.(GN) 1
    end.

Definition sm_WPA_PTK_GROUP_REKEYESTABLISHED_Enter : M unit :=
  enter_group WPA_PTK_GROUP_REKEYESTABLISHED ;;
  upd (fun s => s <| EAPOLKeyReceived := false |>) ;;
  s ← the id;
  when s.(GUpdateStationKeys) wpa_gkeydone_sta ;;
  upd (fun s => s <| GTimeoutCtr := 0 |> <| has_GTK := true |>).

Definition sm_WPA_PTK_GROUP_KEYERROR_Enter : M unit :=
  enter_group WPA_PTK_GROUP_KEYERROR ;;
  s ← the id;
  when s.(GUpdateStationKeys) wpa_gkeydone_sta ;;
  if conf.(no_disconnect_on_group_keyerror) && (s.(wpa) =? WPA_VERSION_WPA2) then skip
  else upd (fun s => s <| Disconnect := true |> <| disconnect_reason := WLAN_REASON_GROUP_KEY_UPDATE_TIMEOUT |>).

Definition sm_WPA_PTK_GROUP_Step : M unit :=
  s ← the id;
  if s.(Init) || s.(PtkGroupInit) then
    sm_WPA_PTK_GROUP_IDLE_Enter ;; upd (fun s => s <| PtkGroupInit := false |>)
  else match s.(wpa_ptk_group_state) with
  | WPA_PTK_GROUP_IDLE =>
      when (s.(GUpdateStationKeys) || ((s.(wpa) =? WPA_VERSION_WPA) && s.(PInitAKeys)))
        sm_WPA_PTK_GROUP_REKEYNEGOTIATING_Enter
  | WPA_PTK_GROUP_REKEYNEGOTIATING =>
      if s.(EAPOLKeyReceived) && negb s.(EAPOLKeyRequest) && negb s.(EAPOLKeyPairwise) && s.(MICVerified) then
        sm_WPA_PTK_GROUP_REKEYESTABLISHED_Enter
      else if (conf.(wpa_group_update_count) <? s.(GTimeoutCtr)) ||
              (conf.(wpa_disable_eapol_key_retries) && (1 <? s.(GTimeoutCtr))) then
        sm_WPA_PTK_GROUP_KEYERROR_Enter
      else when s.(TimeoutEvt) sm_WPA_PTK_GROUP_REKEYNEGOTIATING_Enter
  | WPA_PTK_GROUP_KEYERROR | WPA_PTK_GROUP_REKEYESTABLISHED => sm_WPA_PTK_GROUP_IDLE_Enter
  end.

(** *** The group key machine of the access point *)

Definition swap_keys (g : wpa_group) : wpa_group :=
  g <| GM := g.(GN) |> <| GN := g.(GM) |> <| GM_igtk := g.(GN_igtk) |> <| GN_igtk := g.(GM_igtk) |>
    <| GM_bigtk := g.(GN_bigtk) |> <| GN_bigtk := g.(GM_bigtk) |>.

Definition wpa_group_gtk_init (k : Z) : M unit :=
  upd_group k (fun g => g <| g_changed := false |> <| wpa_group_state := WPA_GROUP_GTK_INIT |>
                          <| GTK := zero_keys |> <| GN := 1 |> <| GM := 2 |> <| GN_igtk := 4 |>
                          <| GM_igtk := 5 |> <| GN_bigtk := 6 |> <| GM_bigtk := 7 |>) ;;
  _ ← wpa_gtk_update k; skip.

(** The visit of this station; [step] is [wpa_sm_step]. *)
Definition wpa_group_update_sta (step : M Z) (k : Z) : M unit :=
  s ← the id;
  if negb (s.(group) =? k) then skip
  else if negb (in_state s.(wpa_ptk_state) WPA_PTK_PTKINITDONE) then
    upd (fun s => s <| GUpdateStationKeys := false |>)
  else if s.(is_wnmsleep) then skip
  else
    upd_group k (fun g => g <| GKeyDoneStations := g.(GKeyDoneStations) + 1 |>) ;;
    upd (fun s => s <| GUpdateStationKeys := true |>) ;;
    _ ← step; skip.

(** The machines of the other stations. *)
Definition others : M unit := fun w =>
  Ok (tt, w <| groups := ask_others w.(asked) w.(groups) |> <| asked := S w.(asked) |>).

Definition wpa_auth_for_each_sta (visit : M unit) : M unit := others ;; visit ;; others.

Definition wpa_group_update_gtk (k : Z) : M unit := upd_group k swap_keys ;; _ ← wpa_gtk_update k; skip.

Definition wpa_group_setkeys (step : M Z) (k : Z) : M unit :=
  upd_group k (fun g => g <| g_changed := true |> <| wpa_group_state := WPA_GROUP_SETKEYS |> <| GTKReKey := false |>) ;;
  wpa_group_update_gtk k ;;
  upd_group k (fun g => g <| GKeyDoneStations := 0 |>) ;;
  wpa_auth_for_each_sta (wpa_group_update_sta step k).

Definition wpa_group_fatal_failure (k : Z) : M unit :=
  upd_group k (fun g => g <| g_changed := true |> <| wpa_group_state := WPA_GROUP_FATAL_FAILURE |>) ;;
  wpa_auth_for_each_sta
    (s ← the id; when (s.(group) =? k) (upd (fun s => s <| Disconnect := true |>))).

Definition wpa_group_setkeysdone (k : Z) : M Z :=
  upd_group k (fun g => g <| g_changed := true |> <| wpa_group_state := WPA_GROUP_SETKEYSDONE |>) ;;
  r ← wpa_group_config_group_keys k;
  if r <? 0 then wpa_group_fatal_failure k ;; mret (-1) else mret 0.

Definition wpa_group_sm_step (step : M Z) (k : Z) : M unit :=
  g ← get_group k;
  if g.(GInit) then wpa_group_gtk_init k
  else match g.(wpa_group_state) with
  | WPA_GROUP_FATAL_FAILURE => skip
  | WPA_GROUP_GTK_INIT => when g.(GTKAuthenticator) (_ ← wpa_group_setkeysdone k; skip)
  | WPA_GROUP_SETKEYSDONE => when g.(GTKReKey) (wpa_group_setkeys step k)
  | WPA_GROUP_SETKEYS =>
      if g.(GKeyDoneStations) =? 0 then _ ← wpa_group_setkeysdone k; skip
      else when g.(GTKReKey) (wpa_group_setkeys step k)
  end.

(** *** The step loop *)

Definition wpa_free_sta_sm : M unit := s ← the id; when s.(GUpdateStationKeys) wpa_gkeydone_sta.

Definition step_pass : M bool :=
  s ← the id;
  if s.(pending_deinit) then mret false
  else
    upd (fun s => s <| changed := false |>) ;;
    upd_group 0 (fun g => g <| g_changed := false |>) ;;
    sm_WPA_PTK_Step ;;
    s ← the id;
    if s.(pending_deinit) then mret false
    else
      sm_WPA_PTK_GROUP_Step ;;
      s ← the id;
      if s.(pending_deinit) then mret false
      else
        wpa_group_sm_step in_loop 0 ;;
        s ← the id;
        g ← get_group 0;
        mret (s.(changed) || g.(g_changed)).

(** The passes; [false] when the fuel runs out first. *)
Fixpoint step_loop (fuel : nat) : M bool :=
  match fuel with
  | O => mret false
  | S fuel => again ← step_pass; if again : bool then step_loop fuel else mret true
  end.

Definition step_fuel : nat := 200.

(** [wpa_sm_step]: 1 when the station is freed.  A loop that the fuel does not
    finish faults. *)
Definition wpa_sm_step : M Z :=
  s ← the id;
  if s.(in_step_loop) then mret 0
  else
    upd (fun s => s <| in_step_loop := true |>) ;;
    done ← step_loop step_fuel;
    upd (fun s => s <| in_step_loop := false |>) ;;
    if negb done then lift Fault
    else
      s ← the id;
      if s.(pending_deinit) then wpa_free_sta_sm ;; mret 1 else mret 0.

(** *** Reception *)

Inductive eapol_key_msg := PAIRWISE_2 | PAIRWISE_4 | GROUP_2 | REQUEST.

#[export] Instance eapol_key_msg_eq_dec : EqDecision eapol_key_msg.
Proof. solve_decision. Defined.

(** The fields of a frame reception reads. *)
Record key_frame := mkFrame {
  f_type : Z; f_info : Z; f_replay : list Z; f_nonce : list Z; f_data_length : Z; f_data : list Z }.

Definition parse_frame (mic_len : Z) (data : list Z) : cres key_frame :=
  (type <-- rd data 4 ;;
   key_info <-- WPA_GET_BE16 (drop 5 data) ;;
   replay <-- rdn data 9 8 ;;
   nonce <-- rdn data 17 32 ;;
   key_data_length <-- WPA_GET_BE16 (drop (Z.to_nat (mic_off + mic_len)) data) ;;
   Ok (mkFrame type key_info replay nonce key_data_length (drop (Z.to_nat (mic_off + mic_len + 2)) data)))%c.

Definition wpa_auth_valid_key_desc_ver (s : wpa_state_machine) (ver : Z) : bool :=
  if WPA_KEY_INFO_TYPE_AES_128_CMAC <? ver then false
  else if negb (wpa_use_akm_defined s.(sta_key_mgmt)) && wpa_use_cmac s.(sta_key_mgmt) &&
          negb (ver =? WPA_KEY_INFO_TYPE_AES_128_CMAC) then false
  else if negb (s.(pairwise) =? WPA_CIPHER_TKIP) && negb (wpa_use_akm_defined s.(sta_key_mgmt)) &&
          negb (wpa_use_cmac s.(sta_key_mgmt)) && negb (ver =? WPA_KEY_INFO_TYPE_HMAC_SHA1_AES) then false
  else if wpa_use_akm_defined s.(sta_key_mgmt) && negb (ver =? WPA_KEY_INFO_TYPE_AKM_DEFINED) then false
  else true.

(** The key data to look at: unwrapped when it is encrypted and there is a key;
    [None] drops the frame, and the flag is [key_data_buf]. *)
Definition receive_key_data (mic_len : Z) (f : key_frame) : M (option (list Z * bool)) :=
  s ← the id;
  let ver := Z.land f.(f_info) WPA_KEY_INFO_TYPE_MASK in
  let len := f.(f_data_length) in
  if (0 <? mic_len) && flag_set f.(f_info) WPA_KEY_INFO_ENCR_KEY_DATA && s.(PTK_valid) &&
     ((ver =? WPA_KEY_INFO_TYPE_HMAC_SHA1_AES) || (ver =? WPA_KEY_INFO_TYPE_AES_128_CMAC) ||
      wpa_use_aes_key_wrap s.(sta_key_mgmt)) &&
     (8 <=? len) && (len mod 8 =? 0)
  then
    ok ← os_malloc;
    if negb ok then mret None
    else
      r ← lift (aes_unwrap s.(PTK).(kek) (zlen s.(PTK).(kek)) ((len - 8) / 8) f.(f_data));
      mret (if r.1 =? 0 then Some (r.2, true) else None)
  else x ← lift (rdn f.(f_data) 0 len); mret (Some (x, false)).

Definition classify (s : wpa_state_machine) (mic_len : Z) (info : Z) (data : list Z) (unwrapped : bool) :
    cres eapol_key_msg :=
  if flag_set info WPA_KEY_INFO_REQUEST then Ok REQUEST
  else if negb (flag_set info WPA_KEY_INFO_KEY_TYPE) then Ok GROUP_2
  else if zlen data =? 0 then Ok PAIRWISE_4
  else
    (no_rsn <-- (if (s.(wpa) =? WPA_VERSION_WPA2) &&
                    (negb (flag_set info WPA_KEY_INFO_ENCR_KEY_DATA) || unwrapped) &&
                    flag_set info WPA_KEY_INFO_SECURE
                 then e <-- get_ie data WLAN_EID_RSN ;; Ok (negb (bool_decide (is_Some e)))
                 else Ok false) ;;
     if no_rsn || ((mic_len =? 0) && flag_set info WPA_KEY_INFO_ENCR_KEY_DATA && (zlen data =? AES_BLOCK_SIZE))
     then Ok PAIRWISE_4 else Ok PAIRWISE_2)%c.

Definition wpa_auth_valid_request_counter (s : wpa_state_machine) (replay_counter : list Z) : bool :=
  negb (s.(req_replay_counter_used) && (memcmp replay_counter s.(req_replay_counter) <=? 0)).

Definition wpa_auth_valid_counter (msg : eapol_key_msg) (replay_counter nonce : list Z) : M bool :=
  s ← the id;
  let negotiating := in_state s.(wpa_ptk_state) WPA_PTK_PTKINITNEGOTIATING in
  if bool_decide (msg = REQUEST) then mret (wpa_auth_valid_request_counter s replay_counter)
  else if wpa_replay_counter_valid s.(key_replay) replay_counter then mret true
  else if bool_decide (msg = PAIRWISE_2) && wpa_replay_counter_valid s.(prev_key_replay) replay_counter &&
          negotiating && negb (bool_decide (s.(SNonce) = nonce)) then
    upd (fun s => s <| update_snonce := true |> <| alt_SNonce := s.(SNonce) |> <| alt_snonce_valid := true |>
                    <| alt_replay_counter := (nth 0 s.(key_replay) zero_ctr).(counter) |>) ;;
    mret true
  else if bool_decide (msg = PAIRWISE_4) && s.(alt_snonce_valid) && negotiating &&
          bool_decide (replay_counter = s.(alt_replay_counter)) then mret true
  else mret false.

(** Whether the machine expects the message; [None] when the access point wants
    entropy first and disconnects. *)
Definition expected (s : wpa_state_machine) (msg : eapol_key_msg) : bool :=
  match msg with
  | PAIRWISE_2 =>
      in_state s.(wpa_ptk_state) WPA_PTK_PTKSTART || in_state s.(wpa_ptk_state) WPA_PTK_PTKCALCNEGOTIATING ||
      (s.(update_snonce) && in_state s.(wpa_ptk_state) WPA_PTK_PTKINITNEGOTIATING)
  | PAIRWISE_4 => in_state s.(wpa_ptk_state) WPA_PTK_PTKINITNEGOTIATING && s.(PTK_valid)
  | GROUP_2 => in_state s.(wpa_ptk_group_state) WPA_PTK_GROUP_REKEYNEGOTIATING && s.(PTK_valid)
  | REQUEST =>
      negb (in_state s.(wpa_ptk_state) WPA_PTK_PTKSTART || in_state s.(wpa_ptk_state) WPA_PTK_PTKCALCNEGOTIATING ||
            in_state s.(wpa_ptk_state) WPA_PTK_PTKCALCNEGOTIATING2 ||
            in_state s.(wpa_ptk_state) WPA_PTK_PTKINITNEGOTIATING)
  end.

(** The passes of [wpa_try_alt_snonce] over PMKs: the keys, the PMK and its VLAN. *)
Definition try_alt (pmk data : list Z) : M (option (option wpa_ptk)) :=
  s ← the id;
  p ← lift (wpa_derive_ptk s s.(alt_SNonce) pmk false false);
  match p with
  | None => mret None
  | Some p =>
      r ← lift (wpa_verify_key_mic s.(sta_key_mgmt) (zlen pmk) p data);
      mret (Some (if r.1 =? 0 then Some p else None))
  end.

Fixpoint alt_loop (psks : list (list Z * Z)) (data : list Z) : M (option (wpa_ptk * Z)) :=
  match psks with
  | [] => mret None
  | (pmk, vlan) :: psks =>
      r ← try_alt pmk data;
      match r with
      | None => mret None
      | Some (Some p) => store_pmk pmk ;; mret (Some (p, vlan))
      | Some None => alt_loop psks data
      end
  end.

Definition wpa_try_alt_snonce (data : list Z) : M Z :=
  s ← the id;
  psks ← (if uses_psk s then ask ask_psks else mret []);
  found ← (if uses_psk s then alt_loop psks data
           else r ← try_alt s.(PMK) data;
                mret (match r with Some (Some p) => Some (p, 0) | _ => None end));
  match found with
  | None => mret (-1)
  | Some (p, vlan) =>
      upd (fun s => s <| alt_snonce_valid := false |>) ;;
      r ← (if negb (vlan =? 0) && wpa_key_mgmt_wpa_psk s.(sta_key_mgmt) then wpa_auth_update_vlan vlan else mret 0);
      if r <? 0 then mret (-1)
      else
        upd (fun s => s <| SNonce := s.(alt_SNonce) |> <| PTK := p |> <| PTK_valid := true |>) ;; mret 0
  end.

(** [MICVerified] for a frame; [false] drops it. *)
Definition check_mic (msg : eapol_key_msg) (mic_len : Z) (data : list Z) : M bool :=
  upd (fun s => s <| MICVerified := false |>) ;;
  s ← the id;
  if s.(PTK_valid) && negb s.(update_snonce) then
    bad ← (if mic_len =? 0 then mret false
           else
             r ← lift (wpa_verify_key_mic s.(sta_key_mgmt) (zlen s.(PMK)) s.(PTK) data);
             if r.1 =? 0 then mret false
             else if negb (bool_decide (msg = PAIRWISE_4)) || negb s.(alt_snonce_valid) then mret true
             else r ← wpa_try_alt_snonce data; mret (negb (r =? 0)));
    if bad : bool then mret false
    else
      upd (fun s => s <| MICVerified := true |>) ;;
      eloop_cancel SendEapolTimeout ;;
      upd (fun s => s <| pending_1_of_4_timeout := false |>) ;;
      mret true
  else mret true.

(** [wpa_rekey_all_groups]: [step] is [wpa_sm_step] of this station. *)
Fixpoint rekey_loop (fuel : nat) (step : M Z) (k : Z) : M bool :=
  match fuel with
  | O => mret false
  | S fuel =>
      upd_group k (fun g => g <| g_changed := false |>) ;;
      wpa_group_sm_step step k ;;
      g ← get_group k;
      if g.(g_changed) then rekey_loop fuel step k else mret true
  end.

Fixpoint rekey_groups (step : M Z) (ks : list Z) : M bool :=
  match ks with
  | [] => mret true
  | k :: ks =>
      upd_group k (fun g => g <| GTKReKey := true |>) ;;
      a ← rekey_loop step_fuel step k;
      b ← rekey_groups step ks;
      mret (a && b)
  end.

Definition wpa_rekey_gtk : M bool :=
  w ← gets id;
  finished ← rekey_groups wpa_sm_step (map fst (map_to_list w.(groups)));
  when (negb (conf.(wpa_group_rekey) =? 0)) (eloop_register RekeyGtk conf.(wpa_group_rekey) 0) ;;
  mret finished.

Definition wpa_auth_gtk_rekey_in_process (w : world) : bool :=
  existsb (fun p => negb (p.2.(GKeyDoneStations) =? 0)) (map_to_list w.(groups)).

(** [wpa_auth->dot11RSNAStatsTKIPRemoteMICFailures++]. *)
Definition auth_mic_failure : M unit :=
  fun w => Ok (tt, w <| AuthMICFailures := u32 (w.(AuthMICFailures) + 1) |>).

(** 1 when the station was removed. *)
Definition wpa_receive_error_report (group_report : bool) : M Z :=
  s ← the id;
  let not_tkip := (group_report && negb (conf.(wpa_group_cipher) =? WPA_CIPHER_TKIP)) ||
                  (negb group_report && negb (s.(pairwise) =? WPA_CIPHER_TKIP)) in
  removed ← (if not_tkip then mret false
             else
               emit EvMicFailure ;;
               r ← ask ask_mic_failure;
               if 0 <? r then mret true
               else
                 upd (fun s => s <| RemoteMICFailures := u32 (s.(RemoteMICFailures) + 1) |>) ;;
                 auth_mic_failure ;;
                 mret false);
  if removed : bool then mret 1 else wpa_request_new_ptk ;; mret 0.

(** What an authenticated request asks for; [false] drops the frame. *)
Definition handle_request (f : key_frame) : M bool :=
  s ← the id;
  if negb (flag_set f.(f_info) WPA_KEY_INFO_SECURE) then mret false
  else if negb s.(MICVerified) then mret false
  else
    upd (fun s => s <| req_replay_counter_used := true |> <| req_replay_counter := f.(f_replay) |>) ;;
    if flag_set f.(f_info) WPA_KEY_INFO_ERROR then
      r ← wpa_receive_error_report (negb (flag_set f.(f_info) WPA_KEY_INFO_KEY_TYPE));
      mret (negb (0 <? r))
    else if flag_set f.(f_info) WPA_KEY_INFO_KEY_TYPE then wpa_request_new_ptk ;; mret true
    else
      eloop_cancel RekeyGtk ;;
      w ← gets id;
      (if wpa_auth_gtk_rekey_in_process w then skip else _ ← wpa_rekey_gtk; skip) ;;
      mret true.

(** The counters of the frames a reply can no longer belong to. *)
Definition use_counter (msg : eapol_key_msg) (replay_counter : list Z) : M unit :=
  upd (fun s => s <| key_replay := wpa_replay_counter_mark_invalid s.(key_replay) (Some replay_counter) |>) ;;
  (if bool_decide (msg = PAIRWISE_2) then upd (fun s => s <| prev_key_replay := s.(key_replay) |>)
   else upd (fun s => s <| prev_key_replay := replicate RSNA_MAX_EAPOL_RETRIES zero_ctr |>)) ;;
  upd (fun s => s <| key_replay := wpa_replay_counter_mark_invalid s.(key_replay) None |>).

(** The frame is kept for the machine, which steps. *)
Definition accept_frame (f : key_frame) (data : list Z) : M unit :=
  ok ← os_malloc;
  upd (fun s => s <| last_rx_eapol_key := if ok : bool then Some data else None |>) ;;
  when ok
    (upd (fun s => s <| last_rx_eapol_key_len := zlen data |>
                     <| rx_eapol_key_secure := flag_set f.(f_info) WPA_KEY_INFO_SECURE |>
                     <| EAPOLKeyReceived := true |>
                     <| EAPOLKeyPairwise := flag_set f.(f_info) WPA_KEY_INFO_KEY_TYPE |>
                     <| EAPOLKeyRequest := flag_set f.(f_info) WPA_KEY_INFO_REQUEST |>
                     <| SNonce := f.(f_nonce) |>) ;;
     _ ← wpa_sm_step; skip).

(** From the expected message on. *)
Definition receive_expected (msg : eapol_key_msg) (mic_len : Z) (f : key_frame) (data : list Z) : M unit :=
  if flag_set f.(f_info) WPA_KEY_INFO_ACK then skip
  else if negb (flag_set f.(f_info) WPA_KEY_INFO_MIC) then skip
  else
    ok ← check_mic msg mic_len data;
    if negb ok then skip
    else
      ok ← (if flag_set f.(f_info) WPA_KEY_INFO_REQUEST then handle_request f
            else use_counter msg f.(f_replay) ;; mret true);
      when ok (accept_frame f data).

Definition key_type_fits (s : wpa_state_machine) (type : Z) : bool :=
  (type =? EAPOL_KEY_TYPE_WPA) || ((s.(wpa) =? WPA_VERSION_WPA2) && (type =? EAPOL_KEY_TYPE_RSN)).

Definition wpa_receive (data : list Z) : M unit :=
  s ← the id;
  if conf.(conf_wpa) =? 0 then skip
  else
    let mic_len := wpa_mic_len s.(sta_key_mgmt) (zlen s.(PMK)) in
    if zlen data <? mic_off + mic_len + 2 then skip
    else
      f ← lift (parse_frame mic_len data);
      if zlen data - mic_off - mic_len - 2 <? f.(f_data_length) then skip
      else if negb (key_type_fits s f.(f_type)) then skip
      else if flag_set f.(f_info) WPA_KEY_INFO_SMK_MESSAGE then skip
      else if negb (wpa_auth_valid_key_desc_ver s (Z.land f.(f_info) WPA_KEY_INFO_TYPE_MASK)) then skip
      else
        kd ← receive_key_data mic_len f;
        match kd with
        | None => skip
        | Some (kd, unwrapped) =>
            msg ← lift (classify s mic_len f.(f_info) kd unwrapped);
            fresh ← wpa_auth_valid_counter msg f.(f_replay) f.(f_nonce);
            s ← the id;
            if negb fresh then skip
            else if negb (expected s msg) then skip
            else
              g ← get_group s.(group);
              if bool_decide (msg = PAIRWISE_2) && g.(reject_4way_hs_for_entropy) then
                wpa_sta_disconnect wpa_sm_step WLAN_REASON_PREV_AUTH_NOT_VALID
              else receive_expected msg mic_len f data
        end.

(** *** Timers and calls from hostapd *)

Definition wpa_send_eapol_timeout : M unit :=
  s ← the id;
  if s.(waiting_radius_psk) then skip
  else
    upd (fun s => s <| pending_1_of_4_timeout := false |> <| TimeoutEvt := true |>) ;;
    _ ← wpa_sm_step; skip.

Definition wpa_rekey_ptk : M unit := wpa_request_new_ptk ;; _ ← wpa_sm_step; skip.

Definition wpa_rekey_gmk : M unit :=
  r ← random_get_bytes WPA_GMK_LEN;
  match r with Some k => upd_group 0 (fun g => g <| GMK := k |>) | None => skip end ;;
  when (negb (conf.(wpa_gmk_rekey) =? 0)) (eloop_register RekeyGmk conf.(wpa_gmk_rekey) 0).

Definition wpa_auth_sm_notify : M unit := eloop_register CallStep 0 0.

(** The RADIUS server has answered for the PSK that message 2/4 needed. *)
Definition wpa_auth_sta_radius_psk_resp (success : bool) : M unit :=
  s ← the id;
  if negb s.(waiting_radius_psk) then skip
  else
    upd (fun s => s <| waiting_radius_psk := false |>) ;;
    (if success then upd (fun s => s <| EAPOLKeyReceived := true |>)
     else upd (fun s => s <| Disconnect := true |>)) ;;
    eloop_register CallStep 0 0.

(** [wpa_auth->group] is the group 0. *)
Definition wpa_gtk_rekey : M unit :=
  let turn := upd_group 0 swap_keys ;; _ ← wpa_gtk_update 0; _ ← wpa_group_config_group_keys 0; skip in
  turn ;; turn.

Fixpoint config_groups (ks : list Z) : M unit :=
  match ks with
  | [] => skip
  | k :: ks => _ ← wpa_group_config_group_keys k; config_groups ks
  end.
Definition wpa_auth_reconfig_group_keys : M unit :=
  w ← gets id; config_groups (map fst (map_to_list w.(groups))).

Definition wpa_auth_sta_associated : M Z :=
  s ← the id;
  if conf.(conf_wpa) =? 0 then mret (-1)
  else if s.(started) then
    upd (fun s => s <| key_replay := replicate RSNA_MAX_EAPOL_RETRIES zero_ctr |>
                    <| ReAuthenticationRequest := true |>) ;;
    wpa_sm_step
  else
    upd (fun s => s <| started := true |> <| Init := true |>) ;;
    r ← wpa_sm_step;
    if r =? 1 then mret 1
    else upd (fun s => s <| Init := false |> <| AuthenticationRequest := true |>) ;; wpa_sm_step.

Definition wpa_auth_sta_no_wpa : M unit := upd (fun s => s <| sta_key_mgmt := 0 |>).

Definition wpa_auth_eapol_key_tx_status (ack : bool) : M unit :=
  s ← the id;
  when (s.(pending_1_of_4_timeout) && ack)
    (eloop_cancel SendEapolTimeout ;;
     eloop_register SendEapolTimeout (eapol_key_timeout_subseq / 1000) (eapol_key_timeout_subseq mod 1000 * 1000)).

Definition wpa_auth_sta_deinit : M unit :=
  s ← the id;
  when (conf.(wpa_strict_rekey) && s.(has_GTK)) (eloop_register RekeyGtk 0 500000) ;;
  eloop_cancel SendEapolTimeout ;;
  upd (fun s => s <| pending_1_of_4_timeout := false |>) ;;
  eloop_cancel CallStep ;;
  eloop_cancel RekeyPtk ;;
  if s.(in_step_loop) then upd (fun s => s <| pending_deinit := true |>) else wpa_free_sta_sm.

(** [wpa_auth_sta_init]: a zeroed machine. *)
Definition wpa_auth_sta_init (address : list Z) (k : Z) : wpa_state_machine :=
  let ctrs := replicate RSNA_MAX_EAPOL_RETRIES zero_ctr in
  let nonce := replicate 32 0 in
  mkSm k address WPA_PTK_INITIALIZE WPA_PTK_GROUP_IDLE false false false false false 0 0 0 false false
    false false false false nonce nonce nonce (replicate 8 0) [] zero_ptk 0 false false false false 0
    false ctrs ctrs false false false false None 0 false false false false false false false false
    false false 0 (replicate 8 0) false None None 0 0 0 None 0 false None false.

End authenticator.

End WpaAuth.
