(* ===== verification/WpaAuthLogic.v ===== *)
(** * Reasoning on the WPA authenticator

    A weakest precondition for the computations of [WpaAuth], the relation of
    the operations that only send, report and rekey ([moves]), and what each
    state of the pairwise machine does on entry. *)

From Stdlib Require Import Ascii String.
From stdpp Require Import gmap.
From S2P Require Import Prelude WpaDefs AesModes WpaKey Kde WpaAuth.

Module WpaAuthLogic.
Import WpaDefs AesModes WpaKey Kde WpaAuth.

#[local] Open Scope Z_scope.
#[local] Open Scope list_scope.

(** ** Weakest preconditions *)

(** [Q] holds of every result; a fault has none. *)
Definition wp {A} (m : M A) (Q : A -> world -> Prop) (w : world) : Prop :=
  forall a w', m w = Ok (a, w') -> Q a w'.

Lemma wp_ret {A} (a : A) Q w : Q a w -> wp (mret a) Q w.
Proof. by intros H ? ? [= <- <-]. Qed.

Lemma wp_bind {A B} (m : M A) (f : A -> M B) Q w :
  wp m (fun a => wp (f a) Q) w -> wp (mbind f m) Q w.
Proof.
  intros H b w' E. unfold mbind, M_bind in E. destruct (m w) as [[a w1]|] eqn:E1; [|done].
  exact (H a w1 E1 b w' E).
Qed.

Lemma wp_mono {A} (m : M A) (Q Q' : A -> world -> Prop) w :
  wp m Q w -> (forall a w', Q a w' -> Q' a w') -> wp m Q' w.
Proof. intros H HQ a w' E. apply HQ, (H a w' E). Qed.

Lemma wp_and {A} (m : M A) (Q Q' : A -> world -> Prop) w :
  wp m Q w -> wp m Q' w -> wp m (fun a w' => Q a w' /\ Q' a w') w.
Proof. intros H H' a w' E. split; [by apply H|by apply H']. Qed.

Lemma wp_gets {A} (f : world -> A) Q w : Q (f w) w -> wp (gets f) Q w.
Proof. by intros H ? ? [= <- <-]. Qed.

Lemma wp_the {A} (f : wpa_state_machine -> A) Q w : Q (f w.(sm)) w -> wp (the f) Q w.
Proof. by intros H ? ? [= <- <-]. Qed.

Lemma wp_the_id Q w : Q w.(sm) w -> wp (the id) Q w.
Proof. by intros H ? ? [= <- <-]. Qed.

Lemma wp_upd f Q w : Q tt (w <| sm := f w.(sm) |>) -> wp (upd f) Q w.
Proof. by intros H ? ? [= <- <-]. Qed.

Lemma wp_emit e Q w : Q tt (w <| log := w.(log) ++ [e] |>) -> wp (emit e) Q w.
Proof. by intros H ? ? [= <- <-]. Qed.

Lemma wp_ask {A} (f : nat -> A) Q w : Q (f w.(asked)) (w <| asked := S w.(asked) |>) -> wp (ask f) Q w.
Proof. by intros H ? ? [= <- <-]. Qed.

Lemma wp_lift {A} (m : cres A) Q w : (forall a, m = Ok a -> Q a w) -> wp (lift m) Q w.
Proof. intros H a w' E. unfold lift in E. destruct m; [|done]. injection E as <- <-. by apply H. Qed.

Lemma wp_fault {A} (Q : A -> world -> Prop) w : wp (lift Fault) Q w.
Proof. by apply wp_lift. Qed.

Lemma wp_get_group k Q w : (forall g, w.(groups) !! k = Some g -> Q g w) -> wp (get_group k) Q w.
Proof.
  intros H a w' E. unfold get_group in E. destruct (groups w !! k) eqn:Eg; [|done].
  injection E as <- <-. by apply H.
Qed.

Lemma wp_upd_group k f Q w :
  (forall g, w.(groups) !! k = Some g -> Q tt (w <| groups := <[k := f g]> w.(groups) |>)) -> wp (upd_group k f) Q w.
Proof.
  intros H a w' E. unfold upd_group in E. destruct (groups w !! k) eqn:Eg; [|done].
  injection E as <- <-. by apply H.
Qed.

Lemma wp_when b m Q w :
  (b = true -> wp m Q w) -> (b = false -> Q tt w) -> wp (when b m) Q w.
Proof. intros H1 H2. destruct b; [by apply H1|]. apply wp_ret. by apply H2. Qed.

(** Every computation through the rules; what is left is the postcondition
    and the calls that have a specification of their own. *)
Ltac wp_step :=
  lazymatch goal with
  | |- wp (mbind _ _) _ _ => apply wp_bind
  | |- wp (mret _) _ _ => apply wp_ret
  | |- wp skip _ _ => apply wp_ret
  | |- wp (gets _) _ _ => apply wp_gets
  | |- wp (the id) _ _ => apply wp_the_id
  | |- wp (the _) _ _ => apply wp_the
  | |- wp (upd _) _ _ => apply wp_upd
  | |- wp (emit _) _ _ => apply wp_emit
  | |- wp (ask _) _ _ => apply wp_ask
  | |- wp (lift Fault) _ _ => apply wp_fault
  | |- wp (lift _) _ _ => apply wp_lift; intros ? ?
  | |- wp (get_group _) _ _ => apply wp_get_group; intros ? ?
  | |- wp (upd_group _ _) _ _ => apply wp_upd_group; intros ? ?
  | |- wp (when _ _) _ _ => apply wp_when; intros ?
  | |- wp (if ?b then _ else _) _ _ => destruct b eqn:?
  | |- wp (match ?x with _ => _ end) _ _ => destruct x eqn:?
  | |- wp (let x := _ in _) _ _ => cbv zeta
  end; cbv beta.

(** A call whose result has been described by [H]. *)
Ltac wp_call H := eapply wp_mono; [eapply H|]; cbv beta; intros ? ? ?.

(** ** Operations that only send, report and rekey *)

(** The control part of a group. *)
Definition sched (g : wpa_group) : bool * bool * bool * bool * wpa_group_st :=
  (g.(GInit), g.(GTKReKey), g.(g_changed), g.(GTKAuthenticator), g.(wpa_group_state)).

Definition same_sched (a b : gmap Z wpa_group) : Prop := forall k, sched <$> b !! k = sched <$> a !! k.

(** The machine with [n] counters drawn and a new mark on message 1/4. *)
Definition drawn (n : nat) (b : bool) (s : wpa_state_machine) : wpa_state_machine :=
  s <| key_replay := Nat.iter n next_replay s.(key_replay) |> <| pending_1_of_4_timeout := b |>.

(** From [w] to [w']: counters drawn, keys of the groups changed, events of [P]. *)
Definition moves (P : event -> Prop) (w w' : world) : Prop :=
  (exists n b, w'.(sm) = drawn n b w.(sm)) /\
  (exists l, w'.(log) = w.(log) ++ l /\ Forall P l) /\
  same_sched w.(groups) w'.(groups).

Lemma drawn_0 s : drawn 0 s.(pending_1_of_4_timeout) s = s.
Proof. by destruct s. Qed.

Lemma iter_iter {A} (f : A -> A) n m x : Nat.iter n f (Nat.iter m f x) = Nat.iter (n + m) f x.
Proof. induction n as [|n IH]; [done|]. change (f (Nat.iter n f (Nat.iter m f x)) = f (Nat.iter (n + m) f x)). by rewrite IH. Qed.

Lemma drawn_drawn n b m c s : drawn n b (drawn m c s) = drawn (n + m) b s.
Proof.
  transitivity (s <| key_replay := Nat.iter n next_replay (Nat.iter m next_replay s.(key_replay)) |>
                  <| pending_1_of_4_timeout := b |>); [reflexivity|].
  by rewrite iter_iter.
Qed.

Lemma same_sched_refl a : same_sched a a.
Proof. done. Qed.

Lemma same_sched_trans a b c : same_sched a b -> same_sched b c -> same_sched a c.
Proof. intros H1 H2 k. by rewrite H2, H1. Qed.

Lemma moves_refl P w : moves P w w.
Proof.
  split_and!; [|exists []; by rewrite app_nil_r|done].
  exists 0%nat, w.(sm).(pending_1_of_4_timeout). by rewrite drawn_0.
Qed.

Lemma moves_trans P w1 w2 w3 : moves P w1 w2 -> moves P w2 w3 -> moves P w1 w3.
Proof.
  intros ((n & b & E) & (l & El & Hl) & Hg) ((n' & b' & E') & (l' & El' & Hl') & Hg'). split_and!.
  - exists (n' + n)%nat, b'. by rewrite E', E, drawn_drawn.
  - exists (l ++ l'). split; [by rewrite El', El, (assoc_L (++))|by apply Forall_app].
  - by eapply same_sched_trans.
Qed.

Lemma moves_mono (P P' : event -> Prop) w w' : (forall e, P e -> P' e) -> moves P w w' -> moves P' w w'.
Proof.
  intros H (Hs & (l & El & Hl) & Hg). split_and!; [done| |done]. exists l. split; [done|].
  by eapply Forall_impl.
Qed.

Definition still {A} (P : event -> Prop) (m : M A) : Prop := forall w, wp m (fun _ w' => moves P w w') w.

Lemma still_ret {A} P (a : A) : still P (mret a).
Proof. intros w. apply wp_ret, moves_refl. Qed.

Lemma still_bind {A B} P (m : M A) (f : A -> M B) : still P m -> (forall a, still P (f a)) -> still P (mbind f m).
Proof.
  intros Hm Hf w. apply wp_bind. eapply wp_mono; [apply Hm|]. intros a w1 H1.
  eapply wp_mono; [apply Hf|]. intros b w2 H2. exact (moves_trans _ _ _ _ H1 H2).
Qed.

Lemma still_gets {A} P (f : world -> A) : still P (gets f).
Proof. intros w. apply wp_gets, moves_refl. Qed.

Lemma still_the {A} P (f : wpa_state_machine -> A) : still P (the f).
Proof. intros w. apply wp_the, moves_refl. Qed.

Lemma still_lift {A} P (m : cres A) : still P (lift m).
Proof. intros w. apply wp_lift. intros a _. apply moves_refl. Qed.

Lemma still_ask {A} P (f : nat -> A) : still P (ask f).
Proof.
  intros w. apply wp_ask. split_and!; [|exists []; by rewrite app_nil_r|done].
  exists 0%nat, w.(sm).(pending_1_of_4_timeout). by rewrite drawn_0.
Qed.

Lemma still_emit (P : event -> Prop) e : P e -> still P (emit e).
Proof.
  intros He w. apply wp_emit. split_and!; [|exists [e]; split; [done|by apply Forall_singleton]|done].
  exists 0%nat, w.(sm).(pending_1_of_4_timeout). by rewrite drawn_0.
Qed.

Lemma still_get_group P k : still P (get_group k).
Proof. intros w. apply wp_get_group. intros g _. apply moves_refl. Qed.

Lemma still_upd_group P k f : (forall g, sched (f g) = sched g) -> still P (upd_group k f).
Proof.
  intros Hf w. apply wp_upd_group. intros g Hg. split_and!; [|exists []; by rewrite app_nil_r|].
  - exists 0%nat, w.(sm).(pending_1_of_4_timeout). by rewrite drawn_0.
  - intros j. cbn. destruct (decide (j = k)) as [->|Hj].
    + rewrite lookup_insert, Hg, decide_True by done. cbn. by rewrite Hf.
    + by rewrite lookup_insert_ne.
Qed.

Lemma still_next P : still P (upd (fun s => s <| key_replay := next_replay s.(key_replay) |>)).
Proof.
  intros w. apply wp_upd. split_and!; [|exists []; by rewrite app_nil_r|done].
  exists 1%nat, w.(sm).(pending_1_of_4_timeout). cbn. by destruct (sm w).
Qed.

Lemma still_pending P b : still P (upd (fun s => s <| pending_1_of_4_timeout := b |>)).
Proof.
  intros w. apply wp_upd. split_and!; [|exists []; by rewrite app_nil_r|done].
  exists 0%nat, b. cbn. by destruct (sm w).
Qed.

Lemma still_when P b m : still P m -> still P (when b m).
Proof. intros H. destruct b; [done|apply still_ret]. Qed.

(** The events that open the port or let a pairwise key be used for sending. *)
Definition opening (e : event) : bool :=
  match e with
  | EvSetEapol WPA_EAPOL_authorized v | EvSetEapol WPA_EAPOL_portValid v | EvSetEapol WPA_EAPOL_keyDone v =>
      negb (v =? 0)
  | EvSetKey _ _ _ _ _ flag => (flag =? KEY_FLAG_PAIRWISE_RX_TX) || (flag =? KEY_FLAG_PAIRWISE_RX_TX_MODIFY)
  | EvStorePtksa _ | EvCompleted => true
  | _ => false
  end.

Definition quiet (e : event) : Prop := opening e = false.

Create HintDb still discriminated.

Ltac still_tac :=
  repeat first
    [ lazymatch goal with
      | |- still _ (mbind _ _) => apply still_bind; [|intros ?]
      | |- still _ (mret _) => apply still_ret
      | |- still _ skip => apply still_ret
      | |- still _ (gets _) => apply still_gets
      | |- still _ (the _) => apply still_the
      | |- still _ (lift _) => apply still_lift
      | |- still _ (ask _) => apply still_ask
      | |- still _ (get_group _) => apply still_get_group
      | |- still _ (emit _) => apply still_emit; reflexivity
      | |- still _ (upd_group _ _) => apply still_upd_group; intros []; reflexivity
      | |- still _ (when _ _) => apply still_when
      | |- still _ (if ?b then _ else _) => destruct b
      | |- still _ (match ?x with _ => _ end) => destruct x
      | |- still _ (let x := _ in _) => cbv zeta
      end
    | solve [auto with still nocore] ].

Section quiet_operations.
Context `{HM : !Hmac} {ctx : Type} `{BC : !BlockCipher ctx} `{HO : !Hostapd} (conf : wpa_auth_config).

Lemma quiet_set_eapol var v : opening (EvSetEapol var v) = false -> still quiet (wpa_auth_set_eapol var v).
Proof. intros H. by apply still_emit. Qed.

Lemma quiet_set_key vlan alg a idx key flag :
  opening (EvSetKey vlan alg a idx key flag) = false -> still quiet (wpa_auth_set_key vlan alg a idx key flag).
Proof. intros H. apply still_bind; [by apply still_emit|]. intros _. apply still_ask. Qed.

Lemma quiet_register t x y : still quiet (eloop_register t x y).
Proof. by apply still_emit. Qed.

Lemma quiet_cancel t : still quiet (eloop_cancel t).
Proof. by apply still_emit. Qed.

Lemma quiet_get_eapol v : still quiet (wpa_auth_get_eapol v).
Proof. apply still_ask. Qed.

Lemma quiet_seqnum idx : still quiet (wpa_auth_get_seqnum idx).
Proof. apply still_ask. Qed.

Lemma quiet_update_vlan vlan : still quiet (wpa_auth_update_vlan vlan).
Proof. unfold wpa_auth_update_vlan. still_tac. Qed.

Lemma quiet_random n : still quiet (random_get_bytes n).
Proof. apply still_ask. Qed.

Lemma quiet_malloc : still quiet os_malloc.
Proof. apply still_ask. Qed.

#[local] Hint Resolve quiet_register quiet_cancel quiet_get_eapol quiet_seqnum quiet_update_vlan quiet_random
  quiet_malloc : still.

Lemma quiet_gmk_to_gtk gmk label gnonce len : still quiet (wpa_gmk_to_gtk conf gmk label gnonce len).
Proof. unfold wpa_gmk_to_gtk. still_tac. Qed.

Lemma quiet_derive k label len store :
  (forall g key g', store g key = Ok g' -> sched g' = sched g) -> still quiet (derive_group_key conf k label len store).
Proof.
  intros H. unfold derive_group_key. apply still_bind; [still_tac|]. intros _ w. apply wp_bind, wp_get_group.
  intros g Hg. apply wp_bind. eapply wp_mono; [apply quiet_gmk_to_gtk|]. cbv beta. intros [r key] w1 H1.
  assert (H1' := H1). destruct H1 as (_ & _ & Hs).
  assert (Hg1 : forall g1, groups w1 !! k = Some g1 -> sched g1 = sched g).
  { intros g1 E. specialize (Hs k). rewrite E, Hg in Hs. change (Some (sched g1) = Some (sched g)) in Hs. congruence. }
  cbn [snd fst]. destruct key as [key|]; cbn iota.
  - apply wp_bind, wp_bind, wp_lift. intros g' E. apply wp_upd_group. intros g1 E1. apply wp_ret.
    eapply moves_trans; [exact H1'|]. split_and!; [|exists []; by rewrite app_nil_r|].
    + exists 0%nat, (sm w1).(pending_1_of_4_timeout). by rewrite drawn_0.
    + intros j. cbn. destruct (decide (j = k)) as [->|Hj].
      * rewrite lookup_insert, E1, decide_True by done. cbn. f_equal. rewrite (Hg1 g1 E1). by eapply H.
      * by rewrite lookup_insert_ne.
  - apply wp_bind, wp_ret, wp_ret. exact H1'.
Qed.

Lemma set_key_keeps a i key (f : list (list Z) -> wpa_group) g g' :
  (forall x, sched (f x) = sched g) -> (x <-- set_key_at a i key ;; Ok (f x))%c = Ok g' -> sched g' = sched g.
Proof. intros H E. destruct (set_key_at a i key); [|done]. by injection E as <-. Qed.

Lemma quiet_gtk_update k : still quiet (wpa_gtk_update conf k).
Proof.
  unfold wpa_gtk_update.
  repeat first [ apply quiet_derive; intros g0 key g' E; revert E; apply set_key_keeps; by destruct g0 | still_tac ].
Qed.

Lemma quiet_init_gmk k : still quiet (wpa_group_init_gmk_and_counter conf k).
Proof. unfold wpa_group_init_gmk_and_counter. still_tac. Qed.

Lemma quiet_install_group k alg idx key len : still quiet (install_group_key k alg idx key len).
Proof. unfold install_group_key. still_tac. by apply quiet_set_key. Qed.

#[local] Hint Resolve quiet_gtk_update quiet_init_gmk quiet_install_group : still.

Lemma quiet_config_group_keys k : still quiet (wpa_group_config_group_keys conf k).
Proof. unfold wpa_group_config_group_keys. still_tac. Qed.

#[local] Hint Resolve quiet_config_group_keys : still.

Lemma quiet_ensure_init k : still quiet (wpa_group_ensure_init conf k).
Proof. unfold wpa_group_ensure_init. still_tac. Qed.

Lemma quiet_key_data_field version encr kde len : still quiet (key_data_field version encr kde len).
Proof. unfold key_data_field. still_tac. Qed.

Lemma quiet_set_eapol_tx : still quiet (wpa_auth_set_eapol WPA_EAPOL_inc_EapolFramesTx 1).
Proof. by apply quiet_set_eapol. Qed.

#[local] Hint Resolve quiet_key_data_field still_next still_pending quiet_set_eapol_tx : still.

Lemma quiet__send key_info rsc nonce kde idx encr ver : still quiet (__wpa_send_eapol conf key_info rsc nonce kde idx encr ver).
Proof. unfold __wpa_send_eapol. still_tac. Qed.

#[local] Hint Resolve quiet__send : still.

Lemma quiet_send key_info rsc nonce kde idx encr : still quiet (wpa_send_eapol conf key_info rsc nonce kde idx encr).
Proof. unfold wpa_send_eapol. still_tac. Qed.

#[local] Hint Resolve quiet_send : still.

Lemma quiet_kde_add : still quiet (ieee80211w_kde_add conf).
Proof. unfold ieee80211w_kde_add, mgmt_key, group_pn. still_tac. Qed.

Lemma quiet_station_gtk s g : still quiet (station_gtk conf s g).
Proof. unfold station_gtk. still_tac. Qed.

#[local] Hint Resolve quiet_kde_add quiet_station_gtk : still.

Lemma quiet_send_msg_3 ie rsc secure gtk encr : still quiet (send_msg_3 conf ie rsc secure gtk encr).
Proof. unfold send_msg_3. still_tac. Qed.

Lemma quiet_rekey_timer : still quiet (wpa_auth_set_ptk_rekey_timer conf).
Proof. unfold wpa_auth_set_ptk_rekey_timer. still_tac. Qed.

End quiet_operations.

#[export] Hint Extern 1 (still quiet (wpa_auth_set_key _ _ _ _ _ _)) => apply quiet_set_key; reflexivity : still.
#[export] Hint Extern 1 (still quiet (wpa_auth_set_eapol _ _)) => apply quiet_set_eapol; reflexivity : still.
#[export] Hint Resolve quiet_register quiet_cancel quiet_get_eapol quiet_seqnum quiet_update_vlan quiet_random
  quiet_malloc quiet_gtk_update quiet_init_gmk quiet_install_group quiet_config_group_keys quiet_ensure_init
  quiet_key_data_field still_next still_pending quiet_set_eapol_tx quiet__send quiet_send quiet_kde_add
  quiet_station_gtk quiet_send_msg_3 quiet_rekey_timer : still.

(** ** What the operations of the machine do *)

(** [w'] is [w] with the machine [s], up to counters, group keys and quiet events. *)
Definition goes (P : event -> Prop) (w : world) (s : wpa_state_machine) (w' : world) : Prop :=
  moves P (w <| sm := s |>) w'.

Lemma goes_self P w : goes P w w.(sm) w.
Proof. unfold goes. replace (w <| sm := sm w |>) with w by by destruct w. apply moves_refl. Qed.

Lemma goes_moves P w s w1 w2 : goes P w s w1 -> moves P w1 w2 -> goes P w s w2.
Proof. apply moves_trans. Qed.

Lemma goes_upd P f w s w1 :
  (forall n b s, f (drawn n b s) = drawn n b (f s)) -> goes P w s w1 ->
  goes P w (f s) (w1 <| sm := f w1.(sm) |>).
Proof.
  intros Hf ((n & b & E) & Hl & Hg). split_and!; [|done|done].
  exists n, b. change (f (sm w1) = drawn n b (f s)). rewrite E. apply Hf.
Qed.

Lemma goes_then P f w s w1 w2 :
  (forall n b s, f (drawn n b s) = drawn n b (f s)) -> goes P w s w1 -> goes P w1 (f w1.(sm)) w2 -> goes P w (f s) w2.
Proof. intros Hf H H2. exact (moves_trans _ _ _ _ (goes_upd _ _ _ _ _ Hf H) H2). Qed.

Lemma goes_emit (P : event -> Prop) e w s w1 : P e -> goes P w s w1 -> goes P w s (w1 <| log := w1.(log) ++ [e] |>).
Proof.
  intros He H. eapply goes_moves; [exact H|]. split_and!; [|exists [e]; split; [done|by apply Forall_singleton]|done].
  exists 0%nat, w1.(sm).(pending_1_of_4_timeout). by rewrite drawn_0.
Qed.

Lemma wp_still {A} P (m : M A) Q w :
  still P m -> (forall a w', moves P w w' -> Q a w') -> wp m Q w.
Proof. intros H HQ. eapply wp_mono; [apply H|exact HQ]. Qed.

Lemma goes_wp_upd P f w s w1 Q :
  (forall n b s, f (drawn n b s) = drawn n b (f s)) -> goes P w s w1 ->
  (forall w2, goes P w (f s) w2 -> Q tt w2) -> wp (upd f) Q w1.
Proof. intros Hf H HQ. apply wp_upd, HQ. by apply goes_upd. Qed.

Lemma goes_wp_ask {A} P (f : nat -> A) w s w1 Q :
  goes P w s w1 -> (forall w2, goes P w s w2 -> Q (f w1.(asked)) w2) -> wp (ask f) Q w1.
Proof. intros H HQ. apply wp_ask, HQ. exact H. Qed.

(** The machine in a world reached by [goes], with the fields the drawing of
    counters does not touch. *)
Lemma goes_field {B} (g : wpa_state_machine -> B) P w s w' :
  (forall n b s, g (drawn n b s) = g s) -> goes P w s w' -> g w'.(sm) = g s.
Proof. intros Hg ((n & b & E) & _). rewrite E. apply Hg. Qed.

(** Fields read from a world [H] describes, as fields of the machine given. *)
Ltac goes_read H :=
  lazymatch type of H with
  | goes _ _ ?s ?w1 =>
      repeat match goal with
      | |- context [?g (sm w1)] =>
          lazymatch type of (g (sm w1)) with
          | wpa_state_machine => fail
          | _ => rewrite (goes_field g _ _ _ _ (fun _ _ _ => eq_refl) H)
          end
      end
  end.

(** A quiet statement after [H : goes P w s w1]. *)
Ltac goes_still H :=
  lazymatch type of H with
  | goes ?P _ _ _ =>
      apply (wp_still P); [solve [still_tac]|];
      let Hm := fresh in let H' := fresh H in
      intros ? ? Hm; pose proof (goes_moves _ _ _ _ _ H Hm) as H'; clear H Hm; rename H' into H
  end.

(** One more statement after [H : goes P w s w1]. *)
Ltac goes_step H :=
  lazymatch goal with
  | |- wp (upd ?f) _ _ =>
      first
        [ let H' := fresh H in
          apply (goes_wp_upd _ f _ _ _ _ ltac:(intros; reflexivity) H);
          let v := fresh "v" in intros v H'; cbv beta in H'; clear H; rename H' into H
        | goes_still H ]
  | |- wp (the id) _ _ => apply wp_the_id; cbv beta; goes_read H
  | |- wp (ask ?f) _ _ =>
      let H' := fresh H in
      apply (goes_wp_ask _ _ _ _ _ _ H);
      let v := fresh "v" in intros v H'; clear H; rename H' into H
  | |- wp (mbind _ _) _ _ => apply wp_bind
  | |- wp (mret _) _ _ => apply wp_ret
  | |- wp skip _ _ => apply wp_ret
  | |- wp (when _ _) _ _ => apply wp_when; intros ?
  | |- wp (if ?b then _ else _) _ _ => destruct b eqn:?
  | |- wp (match ?x with _ => _ end) _ _ => destruct x eqn:?
  | |- wp (let x := _ in _) _ _ => cbv zeta
  | |- wp (lift Fault) _ _ => apply wp_fault
  | |- wp (lift _) _ _ => apply wp_lift; intros ? ?
  | |- wp _ _ _ => goes_still H
  end; cbv beta.

Section operations.
Context `{HM : !Hmac} {ctx : Type} `{BC : !BlockCipher ctx} `{HO : !Hostapd} (conf : wpa_auth_config).

Definition without_ptk (s : wpa_state_machine) : wpa_state_machine :=
  s <| PTK_valid := false |> <| PTK := zero_ptk |> <| pairwise_set := false |>.

(** The station after [WPA_DEAUTH] inside the loop. *)
Definition kicked (s : wpa_state_machine) : wpa_state_machine :=
  without_ptk (s <| DeauthenticationRequest := true |> <| PMK := [] |>) <| changed := true |>.

Lemma goes_gkeydone w s w1 :
  goes quiet w s w1 ->
  wp wpa_gkeydone_sta (fun _ w' => goes quiet w (s <| GUpdateStationKeys := false |>) w') w1.
Proof. intros H. unfold wpa_gkeydone_sta. repeat goes_step H. exact H. Qed.

Lemma goes_remove_ptk w s w1 :
  goes quiet w s w1 -> wp wpa_remove_ptk (fun _ w' => goes quiet w (without_ptk s) w') w1.
Proof. intros H. unfold wpa_remove_ptk. repeat goes_step H; exact H. Qed.

(** What an event does to the keys. *)
Definition event_keys (ev : wpa_event) (s : wpa_state_machine) : wpa_state_machine :=
  if s.(mgmt_frame_prot) && bool_decide (ev = WPA_AUTH) then s
  else if bool_decide (ev = WPA_REAUTH_EAPOL) then s <| PTK_valid := false |> <| PTK := zero_ptk |>
  else without_ptk s.

Lemma goes_event_tail step ev w s w1 Q :
  goes quiet w s w1 ->
  (forall w2, goes quiet w (event_keys ev s) w2 ->
    if s.(in_step_loop) then Q 0 (w2 <| sm := w2.(sm) <| changed := true |> |>) else wp step Q w2) ->
  wp (sm_event_tail step ev) Q w1.
Proof.
  intros H HQ. unfold sm_event_tail. do 2 goes_step H. apply wp_bind.
  assert (Hend : forall w2, goes quiet w (event_keys ev s) w2 ->
    wp (s ← the id; if in_step_loop s then upd (fun s => s <| changed := true |>) ;; mret 0 else step) Q w2).
  { intros w2 H2. specialize (HQ w2 H2). apply wp_bind, wp_the_id. goes_read H2.
    replace (in_step_loop (event_keys ev s)) with (in_step_loop s)
      by (unfold event_keys; by repeat case_match).
    destruct (in_step_loop s); [|exact HQ]. apply wp_bind, wp_upd, wp_ret. exact HQ. }
  unfold event_keys in Hend.
  destruct (mgmt_frame_prot s && bool_decide (ev = WPA_AUTH)); cbn [negb].
  - apply wp_ret. by apply Hend.
  - unfold when at 1. do 2 goes_step H.
    destruct (bool_decide (ev = WPA_REAUTH_EAPOL)); cbn [negb when].
    + apply wp_ret. by apply Hend.
    + eapply wp_mono; [exact (goes_remove_ptk _ _ _ H)|]. cbv beta. intros _ w2 H2. by apply Hend.
Qed.

Lemma event_keys_deauth s : event_keys WPA_DEAUTH s = without_ptk s.
Proof. unfold event_keys. by rewrite andb_false_r. Qed.

Lemma goes_disconnect reason w s w1 :
  goes quiet w s w1 -> s.(in_step_loop) = true ->
  wp (disconnect_in_loop conf reason)
    (fun _ w' => goes quiet w s w' \/ goes quiet w (kicked s) w') w1.
Proof.
  intros H Hl. unfold disconnect_in_loop, wpa_sta_disconnect, wpa_auth_sm_event. do 4 goes_step H.
  destruct (ask_station_known _); [|apply wp_ret; by left].
  do 5 goes_step H. eapply goes_event_tail; [exact H|]. intros w2 H2.
  rewrite event_keys_deauth in H2.
  match goal with |- if in_step_loop ?x then _ else _ => change (in_step_loop x) with (in_step_loop s) end.
  rewrite Hl. apply wp_ret. right. exact (goes_upd _ (fun s => s <| changed := true |>) _ _ _ (fun _ _ _ => eq_refl) H2).
Qed.

Lemma goes_eq P w s s' w' : goes P w s w' -> s = s' -> goes P w s' w'.
Proof. by intros H <-. Qed.

End operations.

(** The same, as tactics: a call with a specification of its own, or one more
    statement. *)
Ltac goes_next H :=
  lazymatch goal with
  | |- wp wpa_gkeydone_sta _ _ =>
      eapply wp_mono; [exact (goes_gkeydone _ _ _ H)|]; cbv beta;
      let H' := fresh H in intros ? ? H'; clear H; rename H' into H
  | |- wp wpa_remove_ptk _ _ =>
      eapply wp_mono; [exact (goes_remove_ptk _ _ _ H)|]; cbv beta;
      let H' := fresh H in intros ? ? H'; clear H; rename H' into H
  | |- wp (disconnect_in_loop _ _) _ _ =>
      eapply wp_mono; [refine (goes_disconnect _ _ _ _ _ H _); assumption|]; cbv beta;
      let H' := fresh H in intros ? ? [H'|H']; clear H; rename H' into H
  | |- wp _ _ _ => goes_step H
  end.

End WpaAuthLogic.
