(* ===== verification/WpaAuthSafety.v ===== *)
(** * Who gets keys from the WPA authenticator

    A pairwise key is used for sending, and the port is opened, only for a
    station whose received frame carries an integrity code of a key derived from
    a PMK hostapd holds for it.  The calls are all those the rest of hostapd and
    the timers make on a station's machine, but the freeing of it and the setting
    of a new configuration. *)

From Stdlib Require Import Ascii String.
From stdpp Require Import gmap.
From S2P Require Import Prelude WpaDefs Aes AesModes WpaKey Kde WpaAuth WpaAuthLogic.

Module WpaAuthSafety.
Import WpaDefs AesModes WpaKey Kde WpaAuth WpaAuthLogic.

#[local] Open Scope Z_scope.
#[local] Open Scope list_scope.

(** ** What hostapd holds for a station *)

(** The PSKs, the key from EAP and their lengths (PMK_LEN for a PSK, up to
    PMK_LEN_MAX otherwise); [Secret] is the set of PMKs of the station. *)
Class Holds `{HO : !Hostapd} (Secret : list Z -> Prop) := {
  secret_length k : Secret k -> PMK_LEN <= zlen k;
  secret_psk n k vlan : (k, vlan) ∈ ask_psks n -> Secret k /\ zlen k = PMK_LEN;
  secret_msk n k len : ask_msk n = Some k -> len = 48 \/ len = PMK_LEN -> len <= zlen k -> Secret (take (Z.to_nat len) k)
}.

Section safety.
Context `{HM : !Hmac} {ctx : Type} `{BC : !BlockCipher ctx} `{HO : !Hostapd} (conf : wpa_auth_config).
Context (Secret : list Z -> Prop) `{HS : !Holds Secret} (spa : list Z).
(** The events before the call looked at. *)
Context (past : list event).
(** The RADIUS server is not asked for PSKs in the middle of a handshake
    ([wpa_psk_radius] is not 3): a late answer takes the machine past the checks,
    see [late_psk_answer_opens]. *)
Context (Hradius : conf.(radius_psk) = false).

(** A pairwise key of the station, for some cipher and key management. *)
Definition derived (p : wpa_ptk) : Prop :=
  exists pmk anonce snonce akm cipher z kdk_len, Secret pmk /\
    wpa_pmk_to_ptk pmk "Pairwise key expansion" conf.(auth_addr) spa anonce snonce akm cipher z kdk_len = Ok (Some p).

(** A frame has a code, and it is right under [p]. *)
Definition verifies (p : wpa_ptk) (f : list Z) : Prop :=
  exists akm pmk_len f', wpa_mic_len akm pmk_len <> 0 /\ wpa_verify_key_mic akm pmk_len p f = Ok (0, f').

(** One of the frames [rx] proves the key [p]. *)
Definition proven (rx : list (list Z)) (p : wpa_ptk) : Prop := exists f, f ∈ rx /\ verifies p f.

(** The key given to the driver is the temporal key of [p], for the algorithm
    it is given with. *)
Definition uses_key (p : wpa_ptk) (alg : wpa_alg) (key : list Z) : Prop :=
  exists cipher, alg = wpa_cipher_to_alg cipher /\ key = tk_bytes cipher p.

(** An event that opens the port or starts the use of a key has a reason. *)
Definition good (rx : list (list Z)) (e : event) : Prop :=
  opening e = true -> exists p, derived p /\ proven rx p /\
    match e with
    | EvSetKey _ alg _ _ key flag => flag = KEY_FLAG_PAIRWISE_RX_TX -> uses_key p alg key
    | EvStorePtksa p' => p' = p
    | _ => True
    end.

(** The events of the call have a reason among the frames [rx]. *)
Definition logged (rx : list (list Z)) (w : world) : Prop := exists l, w.(log) = past ++ l /\ Forall (good rx) l.

Lemma logged_more rx w w' l : logged rx w -> w'.(log) = w.(log) ++ l -> Forall (good rx) l -> logged rx w'.
Proof.
  intros (l1 & E1 & H1) E H. exists (l1 ++ l). split; [|by apply Forall_app].
  by rewrite E, E1, (assoc_L (++)).
Qed.

(** ** Invariants *)

Record sound (s : wpa_state_machine) : Prop := {
  s_addr : s.(addr) = spa;
  s_akm : wpa_key_mgmt_sae s.(sta_key_mgmt) = false /\ wpa_key_mgmt_fils s.(sta_key_mgmt) = false;
  s_radius : s.(waiting_radius_psk) = false;
  s_pmksa : forall k id, s.(pmksa) = Some (k, id) -> Secret k;
  s_pmk : s.(PMK) = [] \/ Secret s.(PMK);
  s_valid : s.(PTK_valid) = true -> derived s.(PTK) /\ Secret s.(PMK);
  s_deinit : s.(pending_deinit) = false
}.

Definition negotiating (s : wpa_state_machine) : bool :=
  match s.(wpa_ptk_state) with
  | WPA_PTK_PTKCALCNEGOTIATING | WPA_PTK_PTKCALCNEGOTIATING2 | WPA_PTK_PTKINITNEGOTIATING => true
  | _ => false
  end.

(** Between calls no reply waits in a state that would take it. *)
Definition settled (s : wpa_state_machine) : Prop := negotiating s = true -> reply_waiting s = false.

(** In the loop one may, and then it is either not looked at yet or proven. *)
Definition ready (rx : list (list Z)) (s : wpa_state_machine) : Prop :=
  negotiating s = true -> s.(DeauthenticationRequest) = false -> reply_waiting s = true ->
    (s.(wpa_ptk_state) = WPA_PTK_PTKCALCNEGOTIATING /\ s.(MICVerified) = false) \/
    (s.(wpa_ptk_state) = WPA_PTK_PTKINITNEGOTIATING /\ s.(update_snonce) = true) \/
    (s.(MICVerified) = true /\ derived s.(PTK) /\ proven rx s.(PTK)).

Definition live (rx : list (list Z)) (w : world) : Prop :=
  sound w.(sm) /\ ready rx w.(sm) /\ w.(sm).(in_step_loop) = true /\ logged rx w.

Lemma quiet_good rx e : quiet e -> good rx e.
Proof. unfold quiet, good. congruence. Qed.

Lemma settled_ready rx s : settled s -> ready rx s.
Proof. unfold settled, ready. intros H Hn _ Hw. rewrite H in Hw by done. done. Qed.

Lemma sound_drawn n b s : sound s -> sound (drawn n b s).
Proof. by intros []. Qed.

Lemma ready_drawn rx n b s : ready rx s -> ready rx (drawn n b s).
Proof. done. Qed.

(** The machine a [goes] ends in. *)
Lemma live_goes rx w s w' :
  logged rx w -> goes (good rx) w s w' -> sound s -> ready rx s -> s.(in_step_loop) = true -> live rx w'.
Proof.
  intros Hw ((n & b & E) & (l & El & Hl) & _) H1 H2 H3. unfold live. rewrite E. split_and!.
  - by apply sound_drawn.
  - by apply ready_drawn.
  - done.
  - by eapply logged_more.
Qed.

Lemma goes_good rx w s w' : goes quiet w s w' -> goes (good rx) w s w'.
Proof. apply moves_mono, quiet_good. Qed.

(** Changes elsewhere keep the machine sound. *)
Lemma sound_upd s s' :
  sound s -> s'.(addr) = s.(addr) -> s'.(waiting_radius_psk) = s.(waiting_radius_psk) -> s'.(sta_key_mgmt) = s.(sta_key_mgmt) ->
  s'.(pmksa) = s.(pmksa) -> s'.(pending_deinit) = s.(pending_deinit) ->
  (s'.(PMK) = s.(PMK) /\ (s'.(PTK_valid) = s.(PTK_valid) /\ s'.(PTK) = s.(PTK) \/ s'.(PTK_valid) = false)) \/
  (s'.(PMK) = [] /\ s'.(PTK_valid) = false) \/
  (Secret s'.(PMK) /\ s'.(PTK_valid) = s.(PTK_valid) /\ s'.(PTK) = s.(PTK)) -> sound s'.
Proof.
  intros [] E1 E2 E3 E4 E5 E6. constructor; rewrite ?E1, ?E2, ?E3, ?E4, ?E5; try done.
  - destruct E6 as [[-> _]|[[-> _]|[? _]]]; [done|by left|by right].
  - destruct E6 as [[-> [[-> ->]| ->]]|[[_ ->]|(? & -> & ->)]]; [done|done|done|].
    intros Hv. split; [|done]. by apply s_valid0.
Qed.

Ltac sound_tac H :=
  apply (sound_upd _ _ H); [reflexivity..|];
  first [ right; left; split; reflexivity
        | right; right; split_and!; [eassumption|reflexivity|reflexivity]
        | left; split; [reflexivity|]; first [right; reflexivity | left; split; reflexivity] ].

(** *** Entering states that keep the keys *)

(** What a transition establishes: the loop runs on, or no reply waits. *)
Definition entered (rx : list (list Z)) (w' : world) : Prop :=
  live rx w' /\ (w'.(sm).(changed) = true /\ w'.(sm).(Init) = false \/ settled w'.(sm)).

Lemma entered_goes rx w s w' :
  logged rx w -> goes (good rx) w s w' -> sound s -> ready rx s -> s.(in_step_loop) = true ->
  s.(changed) = true /\ s.(Init) = false \/ settled s -> entered rx w'.
Proof.
  intros Hw H H1 H2 H3 H4. split; [by eapply live_goes|].
  destruct H4 as [H4|H4]; [left|right].
  - by rewrite (goes_field changed _ _ _ _ (fun _ _ _ => eq_refl) H), (goes_field Init _ _ _ _ (fun _ _ _ => eq_refl) H).
  - destruct H as ((n & b & ->) & _). exact H4.
Qed.

Ltac entered_tac H :=
  eapply entered_goes; [eassumption|first [exact H | exact (goes_good _ _ _ _ H)]| | | |];
  [ match goal with Hs : sound _ |- _ => sound_tac Hs end
  | try solve [ intros Hneg; discriminate Hneg | intros _ Hd; discriminate Hd | intros _ _ Hw; discriminate Hw ]
  | assumption
  | first [ right; intros Hneg; discriminate Hneg | left; split; [reflexivity|assumption] ] ].

Ltac enter_live H :=
  lazymatch goal with |- live _ _ -> _ => idtac | |- _ => intros Hi end;
  match goal with |- live ?rx ?w -> _ =>
    intros (Hs & Hr & Hl & Hg); pose proof (goes_self quiet w) as H;
    repeat goes_next H; entered_tac H
  end.

Lemma INITIALIZE_live rx w : live rx w -> wp sm_WPA_PTK_INITIALIZE_Enter (fun _ => entered rx) w.
Proof. unfold sm_WPA_PTK_INITIALIZE_Enter, enter. enter_live H. Qed.

Lemma DISCONNECT_live rx w : (sm w).(Init) = false -> live rx w -> wp (sm_WPA_PTK_DISCONNECT_Enter conf) (fun _ => entered rx) w.
Proof. unfold sm_WPA_PTK_DISCONNECT_Enter, enter. enter_live H. Qed.

Lemma DISCONNECTED_live rx w : (sm w).(Init) = false -> live rx w -> wp sm_WPA_PTK_DISCONNECTED_Enter (fun _ => entered rx) w.
Proof. unfold sm_WPA_PTK_DISCONNECTED_Enter, enter. enter_live H. Qed.

Lemma AUTHENTICATION_live rx w : (sm w).(Init) = false -> live rx w -> wp sm_WPA_PTK_AUTHENTICATION_Enter (fun _ => entered rx) w.
Proof. unfold sm_WPA_PTK_AUTHENTICATION_Enter, enter. enter_live H. Qed.

Lemma AUTHENTICATION2_live rx w : (sm w).(Init) = false -> live rx w -> wp (sm_WPA_PTK_AUTHENTICATION2_Enter conf) (fun _ => entered rx) w.
Proof. unfold sm_WPA_PTK_AUTHENTICATION2_Enter, enter, new_anonce. enter_live H. Qed.

Lemma PTKSTART_live rx w : (sm w).(Init) = false -> live rx w -> wp (sm_WPA_PTK_PTKSTART_Enter conf) (fun _ => entered rx) w.
Proof. unfold sm_WPA_PTK_PTKSTART_Enter, enter. enter_live H. Qed.

Lemma INITPMK_live rx w : (sm w).(Init) = false -> live rx w -> wp sm_WPA_PTK_INITPMK_Enter (fun _ => entered rx) w.
Proof.
  unfold sm_WPA_PTK_INITPMK_Enter, enter, store_pmk.
  intros Hi (Hs & Hr & Hl & Hg); pose proof (goes_self quiet w) as H. repeat goes_next H.
  all: try match goal with
    | Hk : pmksa _ = Some (?k, _) |- _ => assert (Secret k) by exact (s_pmksa _ Hs _ _ Hk)
    | Hk : ask_msk _ = Some ?k, Hlen : (zlen ?k <? ?len) = false |- _ =>
        assert (Secret (take (Z.to_nat len) k))
          by (eapply secret_msk; [exact Hk|case_match; auto|apply Z.ltb_ge, Hlen])
    end.
  all: entered_tac H.
Qed.

Lemma INITPSK_live rx w : (sm w).(Init) = false -> live rx w -> wp sm_WPA_PTK_INITPSK_Enter (fun _ => entered rx) w.
Proof.
  unfold sm_WPA_PTK_INITPSK_Enter, enter, store_pmk.
  intros Hi (Hs & Hr & Hl & Hg); pose proof (goes_self quiet w) as H. repeat goes_next H.
  all: try match goal with
    | Hk : ask_psks ?n = (?k, ?v) :: _ |- _ => destruct (secret_psk n k v) as [? _]; [rewrite Hk; by left|]
    end.
  all: entered_tac H.
Qed.

(** A reply that waits is proven. *)
Definition armed (rx : list (list Z)) (s : wpa_state_machine) : Prop :=
  reply_waiting s = true -> s.(DeauthenticationRequest) = false ->
  s.(MICVerified) = true /\ derived s.(PTK) /\ proven rx s.(PTK).

Lemma PTKCALCNEGOTIATING2_live rx w :
  (sm w).(Init) = false -> armed rx w.(sm) -> live rx w -> wp sm_WPA_PTK_PTKCALCNEGOTIATING2_Enter (fun _ => entered rx) w.
Proof.
  unfold sm_WPA_PTK_PTKCALCNEGOTIATING2_Enter, enter.
  intros Hi Ha (Hs & Hr & Hl & Hg); pose proof (goes_self quiet w) as H. repeat goes_next H.
  entered_tac H. intros _ Hd Hw. right; right. exact (Ha Hw Hd).
Qed.

Lemma PTKINITNEGOTIATING_live rx w :
  (sm w).(Init) = false -> armed rx w.(sm) -> live rx w -> wp (sm_WPA_PTK_PTKINITNEGOTIATING_Enter conf) (fun _ => entered rx) w.
Proof.
  unfold sm_WPA_PTK_PTKINITNEGOTIATING_Enter, enter.
  intros Hi Ha (Hs & Hr & Hl & Hg); pose proof (goes_self quiet w) as H. repeat goes_next H.
  all: entered_tac H; intros _ Hd Hw; right; right; exact (Ha Hw Hd).
Qed.

Lemma still_good {A} rx (m : M A) : still quiet m -> still (good rx) m.
Proof. intros H w. eapply wp_mono; [apply H|]. intros a w'. apply moves_mono, quiet_good. Qed.

Lemma good_emit rx p e :
  derived p -> proven rx p ->
  match e with
  | EvSetKey _ alg _ _ key flag => flag = KEY_FLAG_PAIRWISE_RX_TX -> uses_key p alg key
  | EvStorePtksa p' => p' = p
  | _ => True
  end -> still (good rx) (emit e).
Proof. intros Hd Hp He. apply still_emit. intros _. by exists p. Qed.

Lemma good_set_key rx p vlan alg a idx key flag :
  derived p -> proven rx p -> (flag = KEY_FLAG_PAIRWISE_RX_TX -> uses_key p alg key) ->
  still (good rx) (wpa_auth_set_key vlan alg a idx key flag).
Proof. intros Hd Hp Hk. apply still_bind; [by apply (good_emit rx p)|]. intros _. apply still_ask. Qed.

Lemma good_disconnect rx reason w s w1 :
  goes (good rx) w s w1 -> s.(in_step_loop) = true ->
  wp (disconnect_in_loop conf reason)
    (fun _ w' => goes (good rx) w s w' \/ goes (good rx) w (kicked s) w') w1.
Proof.
  intros H Hl. eapply wp_mono.
  - apply (goes_disconnect conf reason w1 (sm w1) w1); [apply goes_self|].
    by rewrite (goes_field in_step_loop _ _ _ _ (fun _ _ _ => eq_refl) H).
  - cbv beta. intros _ w2 [H2|H2]; [left|right].
    + exact (goes_then _ (fun s => s) _ _ _ _ (fun _ _ _ => eq_refl) H (goes_good _ _ _ _ H2)).
    + exact (goes_then _ kicked _ _ _ _ (fun _ _ _ => eq_refl) H (goes_good _ _ _ _ H2)).
Qed.

(** One statement of PTKINITDONE, whose events the proven key [Hp] justifies. *)
Ltac done_step H Hd Hp :=
  lazymatch goal with
  | |- wp (disconnect_in_loop _ _) _ _ =>
      eapply wp_mono; [refine (good_disconnect _ _ _ _ _ H _); assumption|]; cbv beta;
      let H' := fresh H in intros ? ? [H'|H']; clear H; rename H' into H
  | |- wp (when _ _) _ _ => apply wp_when; intros ?
  | |- wp (if _ then _ else _) _ _ => goes_step H
  | |- wp (mbind _ _) _ _ => goes_step H
  | |- wp (mret _) _ _ => goes_step H
  | |- wp skip _ _ => goes_step H
  | |- wp (the _) _ _ => goes_step H
  | |- wp (upd _) _ _ => goes_step H
  | |- wp _ _ _ =>
      lazymatch type of H with
      | goes (good ?rx) _ _ _ =>
          apply (wp_still (good rx));
          [ first [ apply still_good; solve [still_tac]
                  | apply (good_set_key _ _ _ _ _ _ _ _ Hd Hp); first [discriminate | intros _]
                  | apply (good_emit _ _ _ Hd Hp); done ]
          | let Hm := fresh in let H' := fresh H in
            intros ? ? Hm; pose proof (goes_moves _ _ _ _ _ H Hm) as H'; clear H Hm; rename H' into H ]
      end
  end; cbv beta.

Lemma PTKINITDONE_live rx w :
  (sm w).(Init) = false -> derived (PTK w.(sm)) -> proven rx (PTK w.(sm)) -> live rx w ->
  wp (sm_WPA_PTK_PTKINITDONE_Enter conf) (fun _ => entered rx) w.
Proof.
  unfold sm_WPA_PTK_PTKINITDONE_Enter, enter.
  intros Hi Hd Hp (Hs & Hr & Hl & Hg); pose proof (goes_self (good rx) w) as H.
  repeat done_step H Hd Hp.
  all: first
    [ match goal with |- uses_key _ _ _ => eexists; split; reflexivity end
    | entered_tac H ].
Qed.

(** *** Trying PMKs *)

Definition retry (pmk : list Z) (rx : option (list Z)) (s : wpa_state_machine) : wpa_state_machine :=
  s <| PMK := pmk |> <| last_rx_eapol_key := rx |>.

(** Passes over PMKs leave one of them in the machine, or the one it had. *)
Definition tries (w w' : world) : Prop :=
  exists pmk lr, goes quiet w (retry pmk lr w.(sm)) w' /\ (pmk = PMK w.(sm) \/ Secret pmk).

Lemma tries_goes w s w1 w2 :
  goes quiet w s w1 -> tries w1 w2 ->
  exists pmk lr, goes quiet w (retry pmk lr s) w2 /\ (pmk = PMK s \/ Secret pmk).
Proof.
  intros H (pmk & lr & H2 & Hp). exists pmk, lr. split.
  - exact (goes_then _ (retry pmk lr) _ _ _ _ (fun _ _ _ => eq_refl) H H2).
  - by rewrite <- (goes_field PMK _ _ _ _ (fun _ _ _ => eq_refl) H).
Qed.

Lemma tries_trans w1 w2 w3 : tries w1 w2 -> tries w2 w3 -> tries w1 w3.
Proof.
  intros (pmk & lr & H & Hp) H2. destruct (tries_goes _ _ _ _ H H2) as (pmk' & lr' & H' & Hp').
  exists pmk', lr'. split; [exact H'|]. destruct Hp' as [->|?]; [exact Hp|by right].
Qed.

Lemma retry_same s : retry (PMK s) (last_rx_eapol_key s) s = s.
Proof. by destruct s. Qed.

Lemma tries_quiet w w' : moves quiet w w' -> tries w w'.
Proof.
  intros H. exists (PMK w.(sm)), (last_rx_eapol_key w.(sm)). split; [|by left].
  rewrite retry_same. unfold goes. replace (w <| sm := sm w |>) with w by by destruct w. exact H.
Qed.

Lemma wp_tries {A} (m : M A) Q w : still quiet m -> (forall a w', tries w w' -> Q a w') -> wp m Q w.
Proof. intros H HQ. apply (wp_still quiet); [done|]. intros a w' Hm. by apply HQ, tries_quiet. Qed.

Lemma derive_empty s snonce force no_kdk : forall r, wpa_derive_ptk conf s snonce [] force no_kdk = Ok r -> r = None.
Proof.
  intros r. unfold wpa_derive_ptk. destruct (if negb no_kdk && secure_ltf conf then _ else _) as [ltf|]; [|done].
  cbn [cbind]. intros E. by injection E as <-.
Qed.

Lemma derive_derived s snonce pmk force no_kdk p :
  s.(addr) = spa -> Secret pmk ->
  wpa_derive_ptk conf s snonce pmk force no_kdk = Ok (Some p) -> derived p.
Proof.
  intros Ha Hp. unfold wpa_derive_ptk. destruct (if negb no_kdk && secure_ltf conf then _ else _) as [ltf|]; [|done].
  cbn [cbind]. rewrite Ha. intros E. unfold derived. eauto 12.
Qed.

(** The outcome of trying [pmk] in [w]. *)
Definition tried_ok (pmk : list Z) (r : tried) : Prop :=
  forall p, r = TryOk p -> pmk <> [] /\ (Secret pmk -> derived p).

Lemma tries_refl w : tries w w.
Proof. apply tries_quiet, moves_refl. Qed.

Lemma tries_asked w n : tries w (w <| asked := n |>).
Proof.
  apply tries_quiet. split_and!; [|exists []; by rewrite app_nil_r|done].
  exists 0%nat, (pending_1_of_4_timeout (sm w)). by rewrite drawn_0.
Qed.

Lemma verify_last_tries n p w : wp (verify_last n p) (fun _ w' => tries w w') w.
Proof.
  unfold verify_last. repeat wp_step; try apply tries_refl.
  exists (PMK (sm w)), (Some a.2). split; [|by left]. split_and!; [|exists []; by rewrite app_nil_r|done].
  exists 0%nat, (pending_1_of_4_timeout (sm w)). cbn [sm]. by destruct (sm w).
Qed.

Lemma sound_tries w w' : sound w.(sm) -> tries w w' -> sound w'.(sm).
Proof.
  intros Hs (pmk & lr & ((n & b & ->) & _) & Hp). apply sound_drawn.
  apply (sound_upd _ _ Hs); try reflexivity. destruct Hp as [Hp|Hp]; [left|right; right].
  - split; [exact Hp|by left].
  - by split.
Qed.

Lemma try_ptk_tries mic_len pmk no_kdk w :
  sound w.(sm) -> wp (try_ptk conf mic_len pmk no_kdk) (fun r w' => tries w w' /\ tried_ok pmk r) w.
Proof.
  intros Hs. unfold try_ptk. wp_step. wp_step. cbv zeta. apply wp_bind, wp_lift. intros o Ho.
  destruct o as [p|]; [|apply wp_ret; split; [apply tries_refl|done]].
  destruct (mic_len =? 0); [apply wp_ret; split; [apply tries_refl|done]|].
  apply wp_bind. eapply wp_mono; [apply verify_last_tries|]. cbv beta. intros r w1 H1. apply wp_ret. split; [done|].
  intros p' Hp'. destruct (r =? 0); [|done]. injection Hp' as <-. split.
  - intros ->. by apply derive_empty in Ho.
  - intros Hk. eapply derive_derived; [apply Hs..|exact Hk|exact Ho].
Qed.

Lemma try_pmk_tries mic_len pmk w :
  sound w.(sm) -> wp (try_pmk conf mic_len pmk) (fun r w' => tries w w' /\ tried_ok pmk r) w.
Proof.
  intros Hs. unfold try_pmk. do 2 wp_step. apply wp_bind, wp_lift. intros kdk _. apply wp_bind.
  eapply wp_mono; [by apply try_ptk_tries|]. cbv beta. intros r w1 [H1 Hr].
  assert (Hret : forall r', r' = r -> wp (mret r') (fun r w' => tries w w' /\ tried_ok pmk r) w1)
    by (intros ? ->; apply wp_ret; by split).
  destruct r; try by apply Hret.
  destruct (negb _ && kdk); [|by apply Hret].
  eapply wp_mono; [apply try_ptk_tries; by eapply sound_tries|]. cbv beta. intros r w2 [H2 Hr2].
  split; [by eapply tries_trans|done].
Qed.

Lemma store_tries pmk w : Secret pmk -> wp (store_pmk pmk) (fun _ w' => tries w w' /\ PMK w'.(sm) = pmk) w.
Proof.
  intros Hk. unfold store_pmk. repeat wp_step. split; [|done].
  exists pmk, (last_rx_eapol_key (sm w)). split; [|by right]. split_and!; [|exists []; by rewrite app_nil_r|done].
  exists 0%nat, (pending_1_of_4_timeout (sm w)). cbn [sm]. by destruct (sm w).
Qed.

Lemma or_cached_psk s psk : zlen psk = PMK_LEN -> or_cached s psk = psk.
Proof. intros H. unfold or_cached. rewrite H. by destruct (pmksa s) as [[]|]. Qed.

Lemma psk_loop_tries mic_len psks w :
  sound w.(sm) -> (forall k v, (k, v) ∈ psks -> Secret k /\ zlen k = PMK_LEN) ->
  wp (psk_loop conf mic_len psks) (fun r w' => tries w w' /\
    forall p pmk vlan foreign, r = Some (p, pmk, vlan, foreign) -> 
      derived p /\ Secret pmk /\ zlen pmk = PMK_LEN /\ PMK w'.(sm) = pmk) w.
Proof.
  revert w. induction psks as [|[psk vlan] psks IH]; intros w Hs Hk; cbn [psk_loop].
  { apply wp_ret. split; [apply tries_refl|done]. }
  destruct (Hk psk vlan) as [Hp Hl]; [by left|].
  do 2 wp_step. rewrite or_cached_psk by done. cbv zeta. apply wp_bind.
  eapply wp_mono; [by apply try_pmk_tries|]. cbv beta. intros r w1 [H1 Hr]. destruct r as [| |p].
  - apply wp_ret. by split.
  - eapply wp_mono; [apply IH; [by eapply sound_tries|]|].
    + intros k v Hin. apply (Hk k v). by right.
    + cbv beta. intros r w2 [H2 Hr2]. split; [by eapply tries_trans|done].
  - apply wp_bind. eapply wp_mono; [by apply store_tries|]. cbv beta. intros _ w2 [H2 Hpmk]. apply wp_ret.
    split; [by eapply tries_trans|]. intros p' pmk' vlan' f [= <- <- <- <-].
    destruct (Hr p eq_refl) as [_ Hd]. split_and!; auto.
Qed.

(** The PMK a machine without PSKs tries, when there is one. *)
Lemma or_cached_secret s : sound s -> or_cached s (PMK s) <> [] -> Secret (or_cached s (PMK s)).
Proof.
  intros Hs. unfold or_cached. destruct (pmksa s) as [[k id]|] eqn:E.
  - destruct (s_pmk _ Hs) as [-> | Hp]; [intros _; exact (s_pmksa _ Hs _ _ E)|].
    destruct (zlen (PMK s) =? 0); [intros _; exact (s_pmksa _ Hs _ _ E)|done].
  - by destruct (s_pmk _ Hs) as [-> | Hp].
Qed.

(** The part of PTKCALCNEGOTIATING that looks for a PMK. *)
Lemma find_tries mic_len s w :
  sound s -> sound w.(sm) ->
  wp (psks ← (if uses_psk s then ask ask_psks else mret []);
      found ← (if uses_psk s then psk_loop conf mic_len psks
               else
                 let pmk := or_cached s s.(PMK) in
                 r ← try_pmk conf mic_len pmk;
                 match r with
                 | TryOk p => store_pmk pmk ;;
                     mret (Some (p, pmk, 0, (zlen s.(PMK) =? 0) && bool_decide (is_Some s.(pmksa))))
                 | _ => mret None
                 end);
      mret (psks, found))
    (fun r w' => tries w w' /\ forall p pmk vlan foreign, r.2 = Some (p, pmk, vlan, foreign) ->
      derived p /\ Secret pmk /\ PMK w'.(sm) = pmk /\ (uses_psk s = true -> zlen pmk = PMK_LEN)) w.
Proof.
  intros Hs Hw. destruct (uses_psk s) eqn:Eu.
  - apply wp_bind, wp_ask, wp_bind. set (w1 := w <| asked := _ |>).
    assert (H1 : tries w w1) by apply tries_asked.
    eapply wp_mono; [apply psk_loop_tries; [by eapply sound_tries|apply secret_psk]|]. cbv beta.
    intros r w2 [H2 Hr]. apply wp_ret. split; [exact (tries_trans _ _ _ H1 H2)|].
    intros p pmk vlan f E. destruct (Hr p pmk vlan f E) as (? & ? & ? & ?). by split_and!.
  - apply wp_bind, wp_ret, wp_bind. cbv zeta. apply wp_bind.
    eapply wp_mono; [by apply try_pmk_tries|]. cbv beta. intros r w1 [H1 Hr].
    destruct r as [| |p]; [apply wp_ret, wp_ret; split; [exact H1|discriminate]..|].
    destruct (Hr p eq_refl) as [Hne Hd]. pose proof (or_cached_secret _ Hs Hne) as Hk. apply wp_bind.
    eapply wp_mono; [by apply store_tries|]. cbv beta. intros _ w2 [H2 Hpmk]. apply wp_ret, wp_ret.
    split; [exact (tries_trans _ _ _ H1 H2)|]. intros p' pmk' v f [= <- <- <- <-]. split_and!; auto. done.
Qed.

Lemma wp_pair {A B C} (m : M A) (f : A -> M B) (k : A -> B -> M C) Q w :
  wp (a ← m; b ← f a; mret (a, b)) (fun r => wp (k r.1 r.2) Q) w -> wp (a ← m; b ← f a; k a b) Q w.
Proof.
  intros H. apply wp_bind. intros a w1 E1. apply wp_bind. intros b w2 E2. apply (H (a, b) w2).
  unfold mbind, M_bind. by rewrite E1, E2.
Qed.

Lemma rdn_all l n : zlen l = n -> rdn l 0 n = Ok l.
Proof. intros <-. rewrite rdn_ok by lia. f_equal. unfold slice. rewrite Nat2Z.id. apply firstn_all. Qed.

Lemma quiet_msg_2_key_data mic_len p : still quiet (msg_2_key_data mic_len p).
Proof. unfold msg_2_key_data. still_tac. Qed.
#[local] Hint Resolve quiet_msg_2_key_data : still.

Lemma goes_check_msg_2 kde vlan w s w1 :
  goes quiet w s w1 -> s.(in_step_loop) = true ->
  wp (check_msg_2 conf kde vlan)
    (fun ok w' => goes quiet w s w' \/ (ok = false /\ goes quiet w (kicked s) w')) w1.
Proof.
  intros H Hl. unfold check_msg_2.
  assert (Hrej : forall w2, goes quiet w s w2 ->
    wp (disconnect_in_loop conf WLAN_REASON_PREV_AUTH_NOT_VALID ;; mret false)
       (fun ok w' => goes quiet w s w' \/ (ok = false /\ goes quiet w (kicked s) w')) w2).
  { intros w2 H2. repeat goes_next H2; auto. }
  do 2 goes_step H. cbv zeta. set (ie := match rsn_ie kde with Some e => Some e | None => _ end).
  destruct (negb (wpa_compare_rsn_ie (sta_wpa_ie s) ie =? 0)); [by apply Hrej|].
  destruct (negb (bool_decide (sta_rsnxe s = rsnxe kde))); [by apply Hrej|].
  apply wp_bind, wp_lift. intros pfs _. destruct pfs; [by apply Hrej|].
  destruct (negb (vlan =? 0) && _); [|apply wp_ret; by left]. goes_step H.
  goes_step H. destruct (a <? 0); [by apply Hrej|]. apply wp_ret. by left.
Qed.

Lemma sound_retry s pmk lr : sound s -> pmk = PMK s \/ Secret pmk -> sound (retry pmk lr s).
Proof.
  intros Hs Hp. apply (sound_upd _ _ Hs); try reflexivity. destruct Hp as [Hp|Hp]; [left|right; right].
  - split; [exact Hp|by left].
  - by split.
Qed.

(** The keys of a verified frame are taken. *)
Lemma sound_keyed s s' :
  sound s -> s'.(addr) = s.(addr) -> s'.(waiting_radius_psk) = s.(waiting_radius_psk) -> s'.(sta_key_mgmt) = s.(sta_key_mgmt) ->
  s'.(pmksa) = s.(pmksa) -> s'.(pending_deinit) = s.(pending_deinit) ->
  Secret s'.(PMK) -> derived s'.(PTK) -> sound s'.
Proof. intros [] E1 E2 E3 E4 E5 Hk Hd. constructor; rewrite ?E1, ?E2, ?E3, ?E4, ?E5; auto. Qed.

(** A PSK is only taken from the list of the station. *)
Lemma psk_uses s : sound s -> wpa_key_mgmt_wpa_psk s.(sta_key_mgmt) = true -> uses_psk s = true.
Proof.
  intros Hs Hp. unfold uses_psk. rewrite Hp. by rewrite (proj1 (s_akm _ Hs)).
Qed.

(** A machine that has just taken message 2/4 in its step loop. *)
Record taken (s : wpa_state_machine) : Prop := {
  t_sound : sound s;
  t_state : s.(wpa_ptk_state) = WPA_PTK_PTKCALCNEGOTIATING;
  t_read : s.(EAPOLKeyReceived) = false;
  t_loop : s.(in_step_loop) = true;
  t_changed : s.(changed) = true;
  t_init : s.(Init) = false
}.

Lemma taken_entered rx w s s' w' :
  taken s -> logged rx w -> goes quiet w s' w' -> sound s' ->
  s'.(EAPOLKeyReceived) = false -> s'.(in_step_loop) = true -> s'.(changed) = true -> s'.(Init) = false -> entered rx w'.
Proof.
  intros Ht Hg H Hs Hr Hl Hc Hi. eapply entered_goes; [exact Hg|exact (goes_good _ _ _ _ H)|exact Hs| |exact Hl|by left].
  intros _ _ Hw. unfold reply_waiting in Hw. by rewrite Hr in Hw.
Qed.

Lemma taken_goes rx w s w' : taken s -> logged rx w -> goes quiet w s w' -> entered rx w'.
Proof. intros Ht Hg H. by eapply taken_entered; [..|apply Ht|apply Ht|apply Ht|apply Ht|apply Ht]. Qed.

Lemma taken_kicked rx w s w' : taken s -> logged rx w -> goes quiet w (kicked s) w' -> entered rx w'.
Proof.
  intros Ht Hg H. eapply taken_entered; [exact Ht|exact Hg|exact H| |exact (t_read _ Ht)|exact (t_loop _ Ht)|reflexivity|exact (t_init _ Ht)].
  sound_tac (t_sound _ Ht).
Qed.

Lemma unmatched_entered rx w s w1 b :
  taken s -> logged rx w -> goes quiet w s w1 -> wp (msg_2_unmatched conf b) (fun _ => entered rx) w1.
Proof.
  intros Ht Hg H. unfold msg_2_unmatched. repeat goes_next H; [|by eapply taken_goes..].
  exfalso. match goal with Hb : _ && radius_psk conf && _ = true |- _ => rewrite Hradius, andb_false_r in Hb; discriminate Hb end.
Qed.

Lemma matched_entered rx w s w1 mic_len p vlan foreign :
  taken s -> logged rx w -> goes quiet w s w1 -> derived p -> Secret (PMK s) ->
  (uses_psk s = true -> zlen (PMK s) = PMK_LEN) ->
  wp (msg_2_matched conf mic_len p (PMK s) vlan foreign) (fun _ => entered rx) w1.
Proof.
  intros Ht Hg H Hd Hk Hlen. unfold msg_2_matched. do 2 goes_next H. destruct a; [|goes_next H; by eapply taken_goes].
  do 2 goes_next H. destruct (a.1 <? 0); [goes_next H; by eapply taken_goes|]. apply wp_bind.
  eapply wp_mono; [refine (goes_check_msg_2 _ _ _ _ _ H _); exact (t_loop _ Ht)|]. cbv beta. clear H.
  intros ok w2 [H|[-> H]]; [|apply wp_ret; by eapply taken_kicked].
  apply wp_when; intros _; [|by eapply taken_goes]. repeat goes_next H.
  - assert (a2 = PMK s) as ->.
    { apply andb_prop in Heqb as [Hpsk _]. rewrite rdn_all in H1; [by injection H1|].
      apply Hlen, psk_uses; [apply Ht|exact Hpsk]. }
    eapply taken_entered; [exact Ht|exact Hg|exact H| |exact (t_read _ Ht)|exact (t_loop _ Ht)|exact (t_changed _ Ht)|exact (t_init _ Ht)].
    eapply (sound_keyed _ _ (t_sound _ Ht)); first [reflexivity|exact Hk|exact Hd].
  - eapply taken_entered; [exact Ht|exact Hg|exact H| |exact (t_read _ Ht)|exact (t_loop _ Ht)|exact (t_changed _ Ht)|exact (t_init _ Ht)].
    eapply (sound_keyed _ _ (t_sound _ Ht)); first [reflexivity|exact Hk|exact Hd].
Qed.

Lemma taken_retry s pmk lr : taken s -> pmk = PMK s \/ Secret pmk -> taken (retry pmk lr s).
Proof. intros [] Hp. by constructor; [apply sound_retry|..]. Qed.

Lemma PTKCALCNEGOTIATING_live rx w : (sm w).(Init) = false -> live rx w -> wp (sm_WPA_PTK_PTKCALCNEGOTIATING_Enter conf) (fun _ => entered rx) w.
Proof.
  unfold sm_WPA_PTK_PTKCALCNEGOTIATING_Enter, enter. intros Hi (Hs & Hr & Hl & Hg).
  pose proof (goes_self quiet w) as H. do 6 goes_next H. cbv zeta.
  match type of H with goes _ _ ?s _ =>
    assert (Ht : taken s) by (constructor; [sound_tac Hs|reflexivity..|exact Hl|reflexivity|exact Hi]);
    generalize dependent s
  end.
  intros s H Ht. apply wp_pair. eapply wp_mono; [apply find_tries; [apply Ht|]|].
  { destruct H as ((n & b & ->) & _). apply sound_drawn, Ht. }
  cbv beta. intros [psks found] w2 [H2 Hf]. cbn [fst snd] in *.
  destruct (tries_goes _ _ _ _ H H2) as (pmk & lr & H3 & Hp). pose proof (taken_retry s pmk lr Ht Hp) as Ht2.
  destruct found as [[[[p pmk'] vlan] foreign]|]; [|by eapply unmatched_entered].
  destruct (Hf p pmk' vlan foreign eq_refl) as (Hd & Hk & Hpmk & Hlen).
  assert (pmk' = PMK (retry pmk lr s)) as ->.
  { rewrite <- Hpmk. exact (goes_field PMK _ _ _ _ (fun _ _ _ => eq_refl) H3). }
  eapply matched_entered; [exact Ht2|exact Hg|exact H3|exact Hd|exact Hk|exact Hlen].
Qed.

(** *** The step loop *)

Lemma live_entered rx w : live rx w -> settled w.(sm) -> entered rx w.
Proof. intros H Hs. split; [done|by right]. Qed.

Lemma live_failed rx w : live rx w -> live rx (w <| HandshakeFailures := u32 (w.(HandshakeFailures) + 1) |>).
Proof. done. Qed.

Lemma live_reason rx w r : live rx w -> live rx (w <| sm := w.(sm) <| disconnect_reason := r |> |>).
Proof. intros (Hs & Hr & Hl & Hg). split_and!; [sound_tac Hs|exact Hr|exact Hl|exact Hg]. Qed.

Lemma failed_live {A} rx (m : M A) Q w :
  live rx w -> (forall w', w'.(sm) = w.(sm) -> live rx w' -> wp m Q w') -> wp (handshake_failed ;; m) Q w.
Proof. intros H HQ. apply wp_bind. intros [] w' [= <-]. by apply HQ. Qed.

Lemma timed_out_live rx w :
  (sm w).(Init) = false -> live rx w ->
  wp (handshake_failed ;; upd (fun s => s <| disconnect_reason := WLAN_REASON_4WAY_HANDSHAKE_TIMEOUT |>) ;;
      sm_WPA_PTK_DISCONNECT_Enter conf) (fun _ => entered rx) w.
Proof.
  intros Hi H. apply (failed_live rx); [done|]. intros w' E H'. apply wp_bind, wp_upd, DISCONNECT_live.
  - change (Init (sm w') = false). by rewrite E.
  - by apply live_reason.
Qed.

(** Questions to hostapd change nothing. *)
Lemma live_asked rx w : live rx w -> live rx (w <| asked := S w.(asked) |>).
Proof. done. Qed.

Lemma unsettled s : ~ settled s -> negotiating s = true /\ reply_waiting s = true.
Proof. unfold settled. destruct (negotiating s), (reply_waiting s); intuition congruence. Qed.

Lemma settled_if s : (negotiating s = true -> reply_waiting s = true -> False) -> settled s.
Proof. unfold settled. intros H Hn. destruct (reply_waiting s); [by destruct H|done]. Qed.

Lemma Step_state_live rx w :
  (sm w).(Init) = false -> (sm w).(DeauthenticationRequest) = false -> live rx w ->
  wp (sm_WPA_PTK_Step_state conf w.(sm)) (fun _ => entered rx) w.
Proof.
  intros Hi Hd H. assert (Hr : ready rx (sm w)) by apply H. unfold ready in Hr.
  unfold sm_WPA_PTK_Step_state. cbv zeta.
  assert (Hskip : settled (sm w) -> wp skip (fun _ => entered rx) w) by (intros ?; by apply wp_ret, live_entered).
  assert (Hother : negotiating (sm w) = false -> settled (sm w)) by (intros E ?; congruence).
  unfold negotiating in *. destruct (wpa_ptk_state (sm w)) eqn:Est.
  - by apply Hskip, Hother.
  - by apply DISCONNECTED_live.
  - by apply INITIALIZE_live.
  - by apply AUTHENTICATION2_live.
  - apply wp_bind. assert (Hrun : forall keyRun w', w'.(sm) = w.(sm) -> live rx w' ->
      wp (if negb (keyRun =? 0) then sm_WPA_PTK_INITPMK_Enter
          else if wpa_key_mgmt_wpa_psk (sta_key_mgmt (sm w)) || (sta_key_mgmt (sm w) =? WPA_KEY_MGMT_OWE) then sm_WPA_PTK_INITPSK_Enter
          else if sta_key_mgmt (sm w) =? WPA_KEY_MGMT_DPP then sm_WPA_PTK_INITPMK_Enter else skip)
         (fun _ => entered rx) w').
    { intros r w' E H'. rewrite <- E in Hi. destruct (negb (r =? 0)); [by apply INITPMK_live|].
      destruct (_ || _); [by apply INITPSK_live|]. destruct (_ =? _); [by apply INITPMK_live|].
      apply wp_ret, live_entered; [done|]. rewrite E. by apply Hother. }
    destruct (wpa_key_mgmt_wpa_ieee8021x _); [apply wp_ask|apply wp_ret]; by apply Hrun.
  - apply wp_bind, wp_ask. destruct (negb _); [by apply PTKSTART_live|].
    destruct (_ && _); [by apply PTKSTART_live|]. apply (failed_live rx); [done|]. intros w' E H'.
    apply DISCONNECT_live; [by rewrite E|done].
  - apply wp_bind, wp_ask. destruct (negb _); [by apply PTKSTART_live|].
    destruct (_ && _); [by apply PTKSTART_live|]. apply (failed_live rx); [done|]. intros w' E H'.
    apply DISCONNECT_live; [by rewrite E|done].
  - destruct (reply_waiting (sm w)); [by apply PTKCALCNEGOTIATING_live|].
    destruct (_ <? _); [by apply timed_out_live|]. destruct (TimeoutEvt (sm w)); [by apply PTKSTART_live|].
    by apply Hskip, Hother.
  - destruct (MICVerified (sm w)) eqn:Em.
    { apply PTKCALCNEGOTIATING2_live; [done| |done]. intros Hw _.
      destruct (Hr eq_refl Hd Hw) as [[_ ?]|[[? _]|[_ Ha]]]; [congruence|congruence|by split]. }
    destruct (reply_waiting (sm w)) eqn:Ew; [by apply PTKCALCNEGOTIATING_live|].
    destruct (TimeoutEvt (sm w)); [by apply PTKSTART_live|].
    apply Hskip. intros _. exact Ew.
  - apply PTKINITNEGOTIATING_live; [done| |done]. intros Hw _.
    destruct (Hr eq_refl Hd Hw) as [[? _]|[[? _]|Ha]]; [congruence|congruence|exact Ha].
  - destruct (update_snonce (sm w)) eqn:Eu; [by apply PTKCALCNEGOTIATING_live|].
    assert (Harm : armed rx (sm w)).
    { intros Hw _. destruct (Hr eq_refl Hd Hw) as [[? _]|[[_ ?]|Ha]]; [congruence|congruence|exact Ha]. }
    destruct (reply_waiting (sm w) && MICVerified (sm w)) eqn:Ew.
    { apply andb_prop in Ew as [Ew _]. destruct (Harm Ew Hd) as (_ & ? & ?). by apply PTKINITDONE_live. }
    destruct (_ || _); [by apply timed_out_live|].
    destruct (TimeoutEvt (sm w)); [by apply PTKINITNEGOTIATING_live|].
    apply Hskip, settled_if. intros _ Hw. destruct (Harm Hw Hd) as [Hm _]. by rewrite Hw, Hm in Ew.
  - by apply Hskip, Hother.
Qed.

(** A request that goes first. *)
Lemma Step_live rx w : live rx w -> wp (sm_WPA_PTK_Step conf) (fun _ => entered rx) w.
Proof.
  intros H. unfold sm_WPA_PTK_Step. apply wp_bind, wp_the_id.
  destruct (Init (sm w)) eqn:Hi; [by apply INITIALIZE_live|].
  destruct (Disconnect (sm w)); [by apply DISCONNECT_live|].
  destruct (DeauthenticationRequest (sm w)) eqn:Hd; [by apply DISCONNECTED_live|].
  destruct (AuthenticationRequest (sm w)); [by apply AUTHENTICATION_live|].
  destruct (ReAuthenticationRequest (sm w)); [by apply AUTHENTICATION2_live|].
  destruct (PTKRequest (sm w)); [|by apply Step_state_live].
  unfold wpa_auth_sm_ptk_update, new_anonce. apply wp_bind, wp_bind, wp_bind, wp_ask.
  assert (Hn : forall f, (forall s, f s = s <| Disconnect := true |> \/ exists n, f s = s <| ANonce := n |> <| TimeoutCtr := 0 |>) ->
    live rx (w <| asked := S (asked w) |> <| sm := f (sm w) |>) /\ Init (f (sm w)) = false).
  { intros f Hf. destruct H as (Hs & Hr & Hl & Hg). 
    destruct (Hf (sm w)) as [E|[n E]]; unfold live; cbn [sm log]; rewrite E; split_and!; done || sound_tac Hs. }
  destruct (ask_random _ _) as [n|].
  - destruct (Hn (fun s => s <| ANonce := n |> <| TimeoutCtr := 0 |>)) as [H1 H2]; [intros; right; by exists n|].
    apply wp_bind, wp_upd, wp_ret, wp_ret. by apply PTKSTART_live.
  - destruct (Hn (fun s => s <| Disconnect := true |>)) as [H1 H2]; [intros; by left|].
    apply wp_bind, wp_upd, wp_ret, wp_ret. by apply DISCONNECTED_live.
Qed.

(** ** Computations that keep an invariant of the machine *)

Definition inv (rx : list (list Z)) (E : wpa_state_machine -> Prop) (w : world) : Prop :=
  E w.(sm) /\ logged rx w.

Definition keeps {A} (rx : list (list Z)) (E : wpa_state_machine -> Prop) (m : M A) : Prop :=
  forall w, inv rx E w -> wp m (fun _ => inv rx E) w.

(** Invariants that sending and the group machine do not disturb. *)
Record steady (E : wpa_state_machine -> Prop) : Prop := {
  steady_drawn n b s : E s -> E (drawn n b s);
  steady_disconnect s : E s -> E (s <| Disconnect := true |>);
  steady_update b s : E s -> E (s <| GUpdateStationKeys := b |>)
}.

Lemma keeps_ret {A} rx E (a : A) : keeps rx E (mret a).
Proof. intros w H. by apply wp_ret. Qed.

Lemma keeps_bind {A B} rx E (m : M A) (f : A -> M B) :
  keeps rx E m -> (forall a, keeps rx E (f a)) -> keeps rx E (mbind f m).
Proof.
  intros Hm Hf w H. apply wp_bind. eapply wp_mono; [by apply Hm|]. intros a w' H'. by apply Hf.
Qed.

Lemma keeps_still {A} rx E (m : M A) : steady E -> still quiet m -> keeps rx E m.
Proof.
  intros HE Hm w [H Hg]. eapply wp_mono; [apply Hm|]. intros a w' ((n & b & Es) & (l & El & Hl) & _). split.
  - rewrite Es. by apply steady_drawn.
  - eapply logged_more; [exact Hg|exact El|]. eapply Forall_impl; [exact Hl|]. apply quiet_good.
Qed.

Lemma keeps_upd rx (E : wpa_state_machine -> Prop) f : (forall s, E s -> E (f s)) -> keeps rx E (upd f).
Proof. intros Hf w [H Hg]. apply wp_upd. split; [by apply Hf|done]. Qed.

Lemma keeps_upd_group rx E k f : keeps rx E (upd_group k f).
Proof. intros w H. apply wp_upd_group. by intros g _. Qed.

Lemma keeps_get_group rx E k : keeps rx E (get_group k).
Proof. intros w H. apply wp_get_group. by intros g _. Qed.

Lemma keeps_gets {A} rx E (f : world -> A) : keeps rx E (gets f).
Proof. intros w H. by apply wp_gets. Qed.

Lemma keeps_ask {A} rx E (f : nat -> A) : keeps rx E (ask f).
Proof. intros w H. by apply wp_ask. Qed.

Lemma keeps_lift {A} rx E (m : cres A) : keeps rx E (lift m).
Proof. intros w H. by apply wp_lift. Qed.

Lemma keeps_when rx E b m : keeps rx E m -> keeps rx E (when b m).
Proof. intros H. destruct b; [done|apply keeps_ret]. Qed.

Lemma logged_emit rx e w : quiet e -> logged rx w -> logged rx (w <| log := w.(log) ++ [e] |>).
Proof. intros He H. eapply logged_more; [exact H|reflexivity|]. by apply Forall_singleton, quiet_good. Qed.

Lemma keeps_emit rx E e : quiet e -> keeps rx E (emit e).
Proof. intros He w [H Hg]. apply wp_emit. split; [done|]. by apply logged_emit. Qed.

Lemma keeps_others rx E : keeps rx E others.
Proof. by intros w H a w' [= <- <-]. Qed.

Ltac keeps_tac :=
  repeat lazymatch goal with
  | |- keeps _ _ (mbind _ _) => apply keeps_bind; [|intros ?]
  | |- keeps _ _ (mret _) => apply keeps_ret
  | |- keeps _ _ skip => apply keeps_ret
  | |- keeps _ _ (gets _) => apply keeps_gets
  | |- keeps _ _ (the _) => apply keeps_gets
  | |- keeps _ _ (ask _) => apply keeps_ask
  | |- keeps _ _ (lift _) => apply keeps_lift
  | |- keeps _ _ (get_group _) => apply keeps_get_group
  | |- keeps _ _ (upd_group _ _) => apply keeps_upd_group
  | |- keeps _ _ (when _ _) => apply keeps_when
  | |- keeps _ _ others => apply keeps_others
  | |- keeps _ _ (if ?b then _ else _) => destruct b
  | |- keeps _ _ (match ?x with _ => _ end) => destruct x
  | |- keeps _ _ (let x := _ in _) => cbv zeta
  | |- keeps _ _ _ => first [ assumption | apply keeps_still; [assumption|solve [still_tac]] ]
  end.

(** *** The group machine of the access point *)

Lemma keeps_disconnects rx E : steady E -> keeps rx E (upd (fun s => s <| Disconnect := true |>)).
Proof. intros HE. apply keeps_upd. apply (steady_disconnect _ HE). Qed.

Lemma keeps_update rx E b : steady E -> keeps rx E (upd (fun s => s <| GUpdateStationKeys := b |>)).
Proof. intros HE. apply keeps_upd. apply (steady_update _ HE). Qed.

Lemma group_step_keeps rx E step k : steady E -> keeps rx E step -> keeps rx E (wpa_group_sm_step conf step k).
Proof.
  intros HE Hs. pose proof (fun b => keeps_update rx E b HE) as Hu. pose proof (keeps_disconnects rx E HE) as Hd.
  assert (Hdone : keeps rx E (wpa_group_setkeysdone conf k)).
  { unfold wpa_group_setkeysdone, wpa_group_fatal_failure, wpa_auth_for_each_sta. keeps_tac. }
  assert (Hset : keeps rx E (wpa_group_setkeys conf step k)).
  { unfold wpa_group_setkeys, wpa_group_update_gtk, wpa_auth_for_each_sta, wpa_group_update_sta. keeps_tac; apply Hu. }
  unfold wpa_group_sm_step, wpa_group_gtk_init. keeps_tac.
Qed.

(** *** The group key machine of the station *)

Definition looping (rx : list (list Z)) (s : wpa_state_machine) : Prop :=
  sound s /\ ready rx s /\ s.(in_step_loop) = true /\ (s.(changed) = true /\ s.(Init) = false \/ settled s).

Lemma entered_looping rx w : entered rx w <-> inv rx (looping rx) w.
Proof. unfold entered, live, inv, looping. tauto. Qed.

Lemma steady_looping rx : steady (looping rx).
Proof.
  constructor; intros ? **; repeat match goal with H : looping _ _ |- _ => destruct H as (Hs & Hr & Hl & Hc) end;
    (split_and!; [sound_tac Hs|exact Hr|exact Hl|exact Hc]).
Qed.

Ltac looping_tac :=
  let s := fresh "s" in let Hs := fresh in let Hr := fresh in let Hl := fresh in let Hc := fresh in
  intros s (Hs & Hr & Hl & Hc); split_and!;
  [ sound_tac Hs
  | first [exact Hr | intros _ _ Hw; discriminate Hw]
  | exact Hl
  | first [ exact Hc | destruct Hc as [[_ Hc]|Hc]; [left; split; [reflexivity|exact Hc]|right; exact Hc]
          | destruct Hc as [Hc|Hc]; [left; exact Hc|right; intros _; reflexivity] ] ].

Lemma IDLE_keeps rx : keeps rx (looping rx) sm_WPA_PTK_GROUP_IDLE_Enter.
Proof.
  unfold sm_WPA_PTK_GROUP_IDLE_Enter, enter_group. intros w H. apply wp_bind.
  eapply wp_mono; [refine (keeps_upd rx (looping rx) _ _ w H); looping_tac|]. cbv beta. intros _ w1 H1. clear w H.
  apply wp_bind, wp_the_id, wp_bind, wp_when; intros Hi.
  - apply wp_upd. apply (keeps_upd rx (looping rx)); [looping_tac|]. destruct H1 as [H1 Hg]. split; [|exact Hg].
    cbn [sm]. revert H1 Hi. generalize (sm w1). intros s (Hs & Hr & Hl & Hc) Hi.
    split_and!; [sound_tac Hs|exact Hr|exact Hl|right].
    destruct Hc as [[_ Hc]|Hc]; [congruence|exact Hc].
  - revert H1. apply keeps_upd. looping_tac.
Qed.

Lemma gkeydone_keeps rx : keeps rx (looping rx) wpa_gkeydone_sta.
Proof. unfold wpa_gkeydone_sta. keeps_tac. apply keeps_update, steady_looping. Qed.

Lemma REKEYNEGOTIATING_keeps rx : keeps rx (looping rx) (sm_WPA_PTK_GROUP_REKEYNEGOTIATING_Enter conf).
Proof.
  pose proof (steady_looping rx) as HE.
  unfold sm_WPA_PTK_GROUP_REKEYNEGOTIATING_Enter, enter_group.
  repeat first [apply keeps_upd; looping_tac | progress keeps_tac].
Qed.

Lemma REKEYESTABLISHED_keeps rx : keeps rx (looping rx) sm_WPA_PTK_GROUP_REKEYESTABLISHED_Enter.
Proof.
  pose proof (gkeydone_keeps rx) as Hg.
  unfold sm_WPA_PTK_GROUP_REKEYESTABLISHED_Enter, enter_group.
  repeat first [apply keeps_upd; looping_tac | progress keeps_tac].
Qed.

Lemma KEYERROR_keeps rx : keeps rx (looping rx) (sm_WPA_PTK_GROUP_KEYERROR_Enter conf).
Proof.
  pose proof (gkeydone_keeps rx) as Hg.
  unfold sm_WPA_PTK_GROUP_KEYERROR_Enter, enter_group.
  repeat first [apply keeps_upd; looping_tac | progress keeps_tac].
Qed.

Lemma Group_Step_keeps rx : keeps rx (looping rx) (sm_WPA_PTK_GROUP_Step conf).
Proof.
  pose proof (IDLE_keeps rx). pose proof (REKEYNEGOTIATING_keeps rx). pose proof (REKEYESTABLISHED_keeps rx).
  pose proof (KEYERROR_keeps rx). unfold sm_WPA_PTK_GROUP_Step.
  repeat first [apply keeps_upd; looping_tac | progress keeps_tac].
Qed.

(** *** The loop *)

Lemma step_pass_live rx w :
  live rx w -> wp (step_pass conf) (fun again w' => live rx w' /\ (again = false -> settled w'.(sm))) w.
Proof.
  intros H. unfold step_pass. apply wp_bind, wp_the_id. rewrite (s_deinit _ (proj1 H)). apply wp_bind, wp_upd, wp_bind.
  set (w1 := w <| sm := _ |>). assert (H1 : live rx w1).
  { destruct H as (Hs & Hr & Hl & Hg). split_and!; [sound_tac Hs|exact Hr|exact Hl|exact Hg]. }
  apply wp_upd_group. intros g Hg. set (w2 := w1 <| groups := _ |>). apply wp_bind.
  eapply wp_mono; [apply (Step_live rx w2 H1)|]. cbv beta. intros _ w3 H3. apply wp_bind, wp_the_id.
  rewrite (s_deinit _ (proj1 (proj1 H3))). apply entered_looping in H3. apply wp_bind.
  eapply wp_mono; [by apply (Group_Step_keeps rx)|]. cbv beta. intros _ w4 H4. apply wp_bind, wp_the_id.
  rewrite (s_deinit _ (proj1 (proj1 H4))). apply wp_bind.
  eapply wp_mono; [apply (group_step_keeps rx (looping rx) _ 0 (steady_looping rx)); [apply keeps_ret|exact H4]|].
  cbv beta. intros _ w5 H5. apply entered_looping in H5. apply wp_bind, wp_the_id, wp_bind, wp_get_group. intros g5 _.
  apply wp_ret. split; [apply H5|]. intros Hf. apply orb_false_elim in Hf as [Hf _].
  destruct H5 as [_ [[Hc _]|Hs]]; [congruence|exact Hs].
Qed.

Lemma step_loop_live rx fuel w :
  live rx w -> wp (step_loop conf fuel) (fun d w' => live rx w' /\ (d = true -> settled w'.(sm))) w.
Proof.
  revert w. induction fuel as [|fuel IH]; intros w H; cbn [step_loop]; [by apply wp_ret|]. apply wp_bind.
  eapply wp_mono; [by apply step_pass_live|]. cbv beta. intros again w1 [H1 Hs]. destruct again; [by apply IH|].
  apply wp_ret. split; [done|]. intros _. by apply Hs.
Qed.

(** ** Between calls *)

Definition at_rest (s : wpa_state_machine) : Prop := sound s /\ settled s /\ s.(in_step_loop) = false.

Definition prepared (rx : list (list Z)) (s : wpa_state_machine) : Prop :=
  sound s /\ ready rx s /\ s.(in_step_loop) = false.

Lemma rest_prepared rx w : inv rx at_rest w -> inv rx (prepared rx) w.
Proof. intros [(Hs & Hr & Hl) Hg]. split; [|done]. split_and!; [done|by apply settled_ready|done]. Qed.

Ltac rest_tac :=
  let s := fresh "s" in let Hs := fresh in let Hr := fresh in let Hl := fresh in
  intros s (Hs & Hr & Hl); split_and!; [ sound_tac Hs | exact Hr | exact Hl ].

Lemma steady_rest : steady at_rest.
Proof. constructor; intros ? **; match goal with H : at_rest _ |- _ => revert H; generalize s; rest_tac end. Qed.

Lemma step_prepared rx w : inv rx (prepared rx) w -> wp (wpa_sm_step conf) (fun _ => inv rx at_rest) w.
Proof.
  intros [(Hs & Hr & Hl) Hg]. unfold wpa_sm_step. apply wp_bind, wp_the_id. rewrite Hl.
  apply wp_bind, wp_upd, wp_bind. eapply wp_mono; [apply (step_loop_live rx)|].
  { split_and!; [sound_tac Hs|exact Hr|reflexivity|exact Hg]. }
  cbv beta. intros d w1 [(Hs1 & Hr1 & Hl1 & Hg1) Hd]. apply wp_bind, wp_upd.
  destruct d; [|apply wp_fault]. apply wp_bind, wp_the_id.
  match goal with |- wp (if ?b then _ else _) _ _ => replace b with false end; [|symmetry; exact (s_deinit _ Hs1)].
  apply wp_ret. split; [|exact Hg1]. split_and!; [sound_tac Hs1|exact (Hd eq_refl)|reflexivity].
Qed.

Lemma step_keeps rx : keeps rx at_rest (wpa_sm_step conf).
Proof. intros w H. by apply step_prepared, rest_prepared. Qed.

Lemma rest_goes rx w s w' : goes quiet w s w' -> at_rest s -> logged rx w -> inv rx at_rest w'.
Proof.
  intros ((n & b & E) & (l & El & Hl) & _) Hs Hg. split.
  - rewrite E. by apply steady_drawn; [apply steady_rest|].
  - eapply logged_more; [exact Hg|exact El|]. eapply Forall_impl; [exact Hl|]. apply quiet_good.
Qed.

Lemma inv_upd rx (E : wpa_state_machine -> Prop) f w :
  (forall x, E x -> E (f x)) -> inv rx E w -> inv rx E (w <| sm := f w.(sm) |>).
Proof. intros Hf [H Hg]. split; [by apply Hf|exact Hg]. Qed.

(** Events at rest: the keys go and the machine steps. *)
Lemma event_keys_rest ev s : at_rest s -> at_rest (event_keys ev s).
Proof.
  intros (Hs & Hr & Hl). unfold event_keys. destruct (_ && _); [done|].
  destruct (bool_decide _); (split_and!; [sound_tac Hs|exact Hr|exact Hl]).
Qed.

Lemma event_tail_keeps rx ev : keeps rx at_rest (sm_event_tail (wpa_sm_step conf) ev).
Proof.
  intros w [H Hg]. apply (goes_event_tail _ ev w (sm w)); [apply goes_self|]. intros w2 H2.
  destruct H as (Hs & Hr & Hl). rewrite Hl. apply step_keeps.
  eapply rest_goes; [exact H2| |exact Hg]. by apply event_keys_rest.
Qed.

(** The machine without its PMK, which the end of the event finishes. *)
Definition dropped (s : wpa_state_machine) : wpa_state_machine :=
  s <| DeauthenticationRequest := true |> <| PMK := [] |>.

Lemma dropped_rest ev s :
  ev = WPA_DEAUTH \/ ev = WPA_DISASSOC -> at_rest s -> at_rest (event_keys ev (dropped s)).
Proof.
  intros Hev (Hs & Hr & Hl). unfold event_keys.
  destruct Hev as [-> | ->]; rewrite andb_false_r; cbn [bool_decide];
    (split_and!; [sound_tac Hs|exact Hr|exact Hl]).
Qed.

Lemma event_keeps rx ev : keeps rx at_rest (wpa_auth_sm_event conf (wpa_sm_step conf) ev).
Proof.
  pose proof (event_tail_keeps rx ev) as Ht. pose proof (step_keeps rx) as Hs.
  unfold wpa_auth_sm_event. intros w H. apply wp_bind, wp_the_id.
  assert (Hdrop : ev = WPA_DEAUTH \/ ev = WPA_DISASSOC ->
    wp (upd dropped ;; sm_event_tail (wpa_sm_step conf) ev) (fun _ => inv rx at_rest) w).
  { intros Hev. apply wp_bind, wp_upd. destruct H as [H Hg].
    apply (goes_event_tail _ ev w (dropped (sm w))).
    - exact (goes_upd quiet dropped w (sm w) w (fun _ _ _ => eq_refl) (goes_self _ w)).
    - intros w2 H2. replace (in_step_loop (dropped (sm w))) with false by (symmetry; apply H).
      apply step_keeps. eapply rest_goes; [exact H2| |exact Hg]. by apply dropped_rest. }
  destruct ev; first [by apply Ht | by apply Hdrop; auto | idtac];
    match goal with |- wp ?m _ _ => refine ((_ : keeps rx at_rest m) w H) end; unfold wpa_gkeydone_sta;
    repeat first [apply keeps_upd; rest_tac | progress keeps_tac].
Qed.

(** ** Reception *)

Lemma mic_len_pos akm n : wpa_key_mgmt_fils akm = false -> PMK_LEN <= n -> wpa_mic_len akm n <> 0.
Proof.
  intros Hf Hn.
  assert (32 <= n) by done. unfold wpa_mic_len. destruct (one_of akm [_; _; _]); [done|].
  destruct (one_of akm [WPA_KEY_MGMT_FILS_SHA256; _; _; _]) eqn:E.
  - exfalso. unfold one_of in E. cbn [existsb] in E.
    repeat (apply orb_prop in E as [E|E]); first [discriminate E | apply Z.eqb_eq in E; by rewrite E in Hf].
  - pose proof (Z.div_le_mono 32 n 2). change (32 / 2) with 16 in *.
    clear E. destruct (one_of akm _); lia.
Qed.

(** A frame that verifies proves the key. *)
Lemma verified_proves rx s pmk_len p data r :
  sound s -> data ∈ rx -> PMK_LEN <= pmk_len ->
  wpa_verify_key_mic s.(sta_key_mgmt) pmk_len p data = Ok r -> (r.1 =? 0) = true -> proven rx p.
Proof.
  intros Hs Hin Hn E Hr. exists data. split; [exact Hin|].
  exists s.(sta_key_mgmt), pmk_len, r.2. split.
  - apply mic_len_pos; [apply Hs|exact Hn].
  - rewrite E. apply Z.eqb_eq in Hr. destruct r as [z d]. cbn in Hr. by subst z.
Qed.

(** What the handling of a frame leaves of the machine. *)
Definition same_phase (s s' : wpa_state_machine) : Prop :=
  s'.(wpa_ptk_state) = s.(wpa_ptk_state) /\ s'.(update_snonce) = s.(update_snonce) /\ s'.(PTK_valid) = s.(PTK_valid).

Definition phased (rx : list (list Z)) (s : wpa_state_machine) (w : world) : Prop :=
  inv rx at_rest w /\ same_phase s w.(sm).

Lemma phased_quiet {A} rx s (m : M A) w : still quiet m -> phased rx s w -> wp m (fun _ => phased rx s) w.
Proof.
  intros Hm [H Hp]. eapply wp_mono; [apply wp_and; [by apply (keeps_still rx at_rest); [apply steady_rest|exact Hm|]|apply Hm]|].
  intros a w' [H' ((n & b & E) & _)]. split; [done|]. unfold same_phase. rewrite E. exact Hp.
Qed.

Lemma phased_upd rx s f w :
  (forall x, at_rest x -> at_rest (f x)) -> (forall x, same_phase x (f x)) -> phased rx s w ->
  phased rx s (w <| sm := f w.(sm) |>).
Proof.
  intros Hf Hp [[Hr Hg] (E1 & E2 & E3)]. split; [split; [by apply Hf|exact Hg]|].
  destruct (Hp (sm w)) as (F1 & F2 & F3).
  split_and!; [exact (eq_trans F1 E1)|exact (eq_trans F2 E2)|exact (eq_trans F3 E3)].
Qed.

Lemma try_alt_proves rx pmk data w :
  inv rx at_rest w -> Secret pmk -> data ∈ rx ->
  wp (try_alt conf pmk data) (fun r w' => w' = w /\ forall p, r = Some (Some p) -> derived p /\ proven rx p) w.
Proof.
  intros [(Hs & _) _] Hk Hin. unfold try_alt. apply wp_bind, wp_the_id, wp_bind, wp_lift. intros o Ho.
  destruct o as [p|]; [|apply wp_ret; by split]. apply wp_bind, wp_lift. intros r Hr. apply wp_ret.
  split; [done|]. intros p' Hp'. destruct (r.1 =? 0) eqn:E; [|done]. injection Hp' as <-. split.
  - eapply derive_derived; [apply Hs..|exact Hk|exact Ho].
  - eapply verified_proves; [exact Hs|exact Hin| |exact Hr|exact E]. exact (secret_length _ Hk).
Qed.

Lemma store_phased rx s pmk w : Secret pmk -> phased rx s w -> wp (store_pmk pmk) (fun _ => phased rx s) w.
Proof.
  intros Hk H. unfold store_pmk. destruct (_ <=? _); [|apply wp_fault]. apply wp_upd.
  apply phased_upd; [|done|exact H]. rest_tac.
Qed.

Lemma alt_loop_proves rx s psks data w :
  phased rx s w -> (forall k v, (k, v) ∈ psks -> Secret k) -> data ∈ rx ->
  wp (alt_loop conf psks data)
    (fun r w' => phased rx s w' /\ forall p vlan, r = Some (p, vlan) -> derived p /\ proven rx p) w.
Proof.
  intros H Hk Hin. revert w H. induction psks as [|[pmk vlan] psks IH]; intros w H; cbn [alt_loop]; [by apply wp_ret|].
  assert (Hpmk : Secret pmk) by (apply (Hk pmk vlan); by left). apply wp_bind.
  eapply wp_mono; [apply (try_alt_proves rx); [apply H|exact Hpmk|exact Hin]|]. cbv beta. intros r w1 [-> Hr].
  destruct r as [[p|]|]; [| |by apply wp_ret].
  - apply wp_bind. eapply wp_mono; [apply store_phased; [exact Hpmk|exact H]|]. cbv beta. intros _ w2 H2. apply wp_ret.
    split; [done|]. intros p' v [= <- <-]. by apply Hr.
  - apply IH; [|done]. intros k v Hkv. apply (Hk k v). by right.
Qed.

(** The keys after a check of the code. *)
Definition verified (rx : list (list Z)) (s : wpa_state_machine) : Prop := derived s.(PTK) /\ proven rx s.(PTK).

Lemma try_alt_snonce_proves rx s data w :
  phased rx s w -> PTK_valid s = true -> data ∈ rx ->
  wp (wpa_try_alt_snonce conf data) (fun r w' => phased rx s w' /\ (r = 0 -> verified rx w'.(sm))) w.
Proof.
  intros H Hv Hin. unfold wpa_try_alt_snonce. apply wp_bind, wp_the_id.
  assert (Hpmk : Secret (PMK (sm w))) by (apply H; by destruct H as (_ & _ & _ & ->)).
  apply wp_pair. eapply (wp_mono _ (fun r w' => phased rx s w' /\ forall p vlan, r.2 = Some (p, vlan) -> derived p /\ proven rx p)).
  - destruct (uses_psk (sm w)).
    + apply wp_bind, wp_ask. set (w1 := w <| asked := _ |>). apply wp_bind.
      eapply wp_mono; [apply (alt_loop_proves rx s); [exact H| |exact Hin]|].
      * intros k v Hkv. exact (proj1 (secret_psk (asked w) k v Hkv)).
      * cbv beta. intros r w2 [H2 Hr]. apply wp_ret. by split.
    + apply wp_bind, wp_ret, wp_bind, wp_bind. eapply wp_mono; [apply (try_alt_proves rx); [apply H|exact Hpmk|exact Hin]|].
      cbv beta. intros r w1 [-> Hr]. apply wp_ret, wp_ret. split; [exact H|]. cbn [snd].
      intros p vlan E. destruct r as [[q|]|]; [|done..]. injection E as <- <-. by apply Hr.
  - cbv beta. intros [psks found] w1 [H1 Hf]. cbn [fst snd] in *. destruct found as [[p vlan]|]; [|apply wp_ret; by split].
    destruct (Hf p vlan eq_refl) as [Hd Hp]. apply wp_bind, wp_upd.
    assert (H2 : phased rx s (w1 <| sm := w1.(sm) <| alt_snonce_valid := false |> |>)).
    { apply (phased_upd rx s (fun x => x <| alt_snonce_valid := false |>)); [rest_tac|done|exact H1]. }
    generalize dependent (w1 <| sm := w1.(sm) <| alt_snonce_valid := false |> |>). intros w2 H2.
    apply wp_bind. eapply wp_mono; [apply (phased_quiet rx s); [still_tac|exact H2]|]. cbv beta. intros r w3 H3.
    destruct (r <? 0); [apply wp_ret; by split|]. apply wp_bind, wp_upd, wp_ret. split; [|by split].
    destruct H3 as [[(Hs3 & Hr3 & Hl3) Hg3] (E1 & E2 & E3)]. split; [split; [split_and!|exact Hg3]|].
    + apply (sound_keyed _ _ Hs3); try reflexivity; [|exact Hd]. apply (s_valid _ Hs3). by rewrite E3.
    + exact Hr3.
    + exact Hl3.
    + split_and!; [exact E1|exact E2|symmetry; exact Hv].
Qed.

(** [MICVerified] is set only with a proven key. *)
Definition checked (rx : list (list Z)) (s : wpa_state_machine) : Prop :=
  (s.(MICVerified) = false /\ s.(PTK_valid) && negb s.(update_snonce) = false) \/
  (s.(MICVerified) = true /\ verified rx s).

Lemma verify_now rx s msg data w :
  phased rx s w -> PTK_valid s = true -> data ∈ rx ->
  wp (if wpa_mic_len (sta_key_mgmt (sm w)) (zlen (PMK (sm w))) =? 0 then mret false
      else
        r ← lift (wpa_verify_key_mic (sta_key_mgmt (sm w)) (zlen (PMK (sm w))) (PTK (sm w)) data);
        if r.1 =? 0 then mret false
        else if negb (bool_decide (msg = PAIRWISE_4)) || negb (alt_snonce_valid (sm w)) then mret true
        else r ← wpa_try_alt_snonce conf data; mret (negb (r =? 0)))
     (fun bad w' => phased rx s w' /\ (bad = false -> verified rx w'.(sm))) w.
Proof.
  intros H Hv Hin. assert (Hk : derived (PTK (sm w)) /\ Secret (PMK (sm w))).
  { destruct H as [[(Hs & _) _] (_ & _ & E)]. apply (s_valid _ Hs). by rewrite E. }
  destruct (Z.eqb_spec (wpa_mic_len (sta_key_mgmt (sm w)) (zlen (PMK (sm w)))) 0) as [E|_].
  { assert (Hs : sound (sm w)) by apply H.
    by destruct (mic_len_pos _ _ (proj2 (s_akm _ Hs)) (secret_length _ (proj2 Hk)) E). }
  apply wp_bind, wp_lift. intros r Hr. destruct (r.1 =? 0) eqn:Er.
  - apply wp_ret. split; [exact H|]. intros _. split; [apply Hk|].
    eapply verified_proves; [apply H|exact Hin| |exact Hr|exact Er]. exact (secret_length _ (proj2 Hk)).
  - destruct (_ || _); [by apply wp_ret|]. apply wp_bind.
    eapply wp_mono; [by apply (try_alt_snonce_proves rx s)|]. cbv beta. intros r' w1 [H1 Hf]. apply wp_ret.
    split; [exact H1|]. intros E. apply Hf. destruct (Z.eqb_spec r' 0); [done|discriminate E].
Qed.

Lemma verified_quiet rx w w' : moves quiet w w' -> verified rx w.(sm) -> verified rx w'.(sm).
Proof. by intros ((n & b & ->) & _). Qed.

Lemma check_mic_spec rx s msg data w :
  phased rx s w -> data ∈ rx ->
  wp (check_mic conf msg (wpa_mic_len (sta_key_mgmt (sm w)) (zlen (PMK (sm w)))) data)
    (fun ok w' => phased rx s w' /\ (ok = true -> checked rx w'.(sm))) w.
Proof.
  intros H Hin. unfold check_mic. apply wp_bind, wp_upd.
  set (n := wpa_mic_len _ _). set (w1 := w <| sm := _ |>).
  assert (H1 : phased rx s w1 /\ MICVerified (sm w1) = false /\
    n = wpa_mic_len (sta_key_mgmt (sm w1)) (zlen (PMK (sm w1)))).
  { split; [|done]. apply (phased_upd rx s (fun x => x <| MICVerified := false |>)); [rest_tac|done|exact H]. }
  clearbody n w1. destruct H1 as (H1 & Hm & ->). clear w H. apply wp_bind, wp_the_id.
  destruct (PTK_valid (sm w1) && negb (update_snonce (sm w1))) eqn:E.
  - apply wp_bind. eapply wp_mono; [apply (verify_now rx s); [exact H1| |exact Hin]|].
    { apply andb_prop in E as [E _]. by destruct H1 as (_ & _ & _ & <-). }
    cbv beta. intros bad w2 [H2 Hv]. destruct bad; [by apply wp_ret|]. apply wp_bind, wp_upd, wp_bind.
    set (w3 := w2 <| sm := _ |>).
    assert (H3 : phased rx s w3 /\ MICVerified (sm w3) = true /\ verified rx (sm w3)).
    { split; [|split; [done|exact (Hv eq_refl)]].
      apply (phased_upd rx s (fun x => x <| MICVerified := true |>)); [rest_tac|done|exact H2]. }
    clearbody w3. destruct H3 as (H3 & Hm3 & Hv3). clear w2 H2 Hv.
    apply wp_emit, wp_bind, wp_upd, wp_ret. split.
    + apply (phased_upd rx s (fun x => x <| pending_1_of_4_timeout := false |>)); [rest_tac|done|].
      destruct H3 as [[Hr Hg] Hp]. split; [split; [exact Hr|]|exact Hp].
      by apply logged_emit.
    + intros _. right. split; [exact Hm3|exact Hv3].
  - apply wp_ret. split; [exact H1|]. intros _. left. by split.
Qed.

(** A frame may be kept when what is verified suits the state. *)
Definition admissible (rx : list (list Z)) (s : wpa_state_machine) : Prop :=
  negotiating s = true ->
    (s.(wpa_ptk_state) = WPA_PTK_PTKCALCNEGOTIATING /\ s.(MICVerified) = false) \/
    (s.(wpa_ptk_state) = WPA_PTK_PTKINITNEGOTIATING /\ s.(update_snonce) = true) \/
    (s.(MICVerified) = true /\ verified rx s).

Definition pairwise_reply (f : key_frame) : bool :=
  flag_set f.(f_info) WPA_KEY_INFO_KEY_TYPE && negb (flag_set f.(f_info) WPA_KEY_INFO_REQUEST).

(** The machine with the frame to look at. *)
Definition with_frame (f : key_frame) (data : list Z) (s : wpa_state_machine) : wpa_state_machine :=
  s <| last_rx_eapol_key_len := zlen data |>
    <| rx_eapol_key_secure := flag_set f.(f_info) WPA_KEY_INFO_SECURE |>
    <| EAPOLKeyReceived := true |>
    <| EAPOLKeyPairwise := flag_set f.(f_info) WPA_KEY_INFO_KEY_TYPE |>
    <| EAPOLKeyRequest := flag_set f.(f_info) WPA_KEY_INFO_REQUEST |>
    <| SNonce := f.(f_nonce) |>.

Lemma with_frame_waiting f data s : reply_waiting (with_frame f data s) = true -> pairwise_reply f = true.
Proof.
  assert (E1 : EAPOLKeyPairwise (with_frame f data s) = flag_set f.(f_info) WPA_KEY_INFO_KEY_TYPE) by reflexivity.
  assert (E2 : EAPOLKeyRequest (with_frame f data s) = flag_set f.(f_info) WPA_KEY_INFO_REQUEST) by reflexivity.
  unfold reply_waiting, pairwise_reply. rewrite E1, E2. intros Hw.
  apply andb_prop in Hw as [Hw1 Hw3]. apply andb_prop in Hw1 as [_ Hw2]. by rewrite Hw2, Hw3.
Qed.

Lemma with_frame_prepared rx f data s :
  at_rest s -> (pairwise_reply f = true -> admissible rx s) -> prepared rx (with_frame f data s).
Proof.
  intros (Hs & Hr & Hl) Ha. split_and!; [sound_tac Hs| |exact Hl].
  intros Hn _ Hw. apply with_frame_waiting in Hw. exact (Ha Hw Hn).
Qed.

Lemma accept_keeps rx f data w :
  inv rx at_rest w -> (pairwise_reply f = true -> admissible rx w.(sm)) ->
  wp (accept_frame conf f data) (fun _ => inv rx at_rest) w.
Proof.
  intros H Ha. unfold accept_frame. apply wp_bind, wp_ask. set (w1 := w <| asked := _ |>).
  set (ok := ask_malloc _). apply wp_bind, wp_upd. set (w2 := w1 <| sm := _ |>).
  assert (H2 : inv rx at_rest w2 /\ (pairwise_reply f = true -> admissible rx w2.(sm))).
  { split; [|exact Ha].
    apply (inv_upd rx at_rest (fun x => x <| last_rx_eapol_key := if ok then Some data else None |>) w1); [rest_tac|exact H]. }
  clearbody ok w2. clear w w1 H Ha. destruct H2 as [[Hr Hg] Ha]. apply wp_when; intros _; [|by split].
  apply wp_bind, (wp_upd (with_frame f data)), wp_bind.
  eapply wp_mono; [apply (step_prepared rx)|cbv beta; intros a w3 H3; apply wp_ret; exact H3].
  split; [by apply with_frame_prepared|exact Hg].
Qed.

Ltac rest_steps := repeat first [ apply keeps_upd; rest_tac | progress keeps_tac ].

Lemma request_new_ptk_keeps rx : keeps rx at_rest (wpa_request_new_ptk conf).
Proof. unfold wpa_request_new_ptk. rest_steps. Qed.

Lemma rekey_loop_keeps rx fuel k : keeps rx at_rest (rekey_loop conf fuel (wpa_sm_step conf) k).
Proof.
  pose proof (step_keeps rx) as Hs. pose proof (group_step_keeps rx at_rest _ k steady_rest Hs) as Hg.
  induction fuel as [|fuel IH]; cbn [rekey_loop]; rest_steps.
Qed.

Lemma rekey_groups_keeps rx ks : keeps rx at_rest (rekey_groups conf (wpa_sm_step conf) ks).
Proof.
  induction ks as [|k ks IH]; cbn [rekey_groups]; rest_steps. apply rekey_loop_keeps.
Qed.

Lemma rekey_gtk_keeps rx : keeps rx at_rest (wpa_rekey_gtk conf).
Proof.
  pose proof steady_rest. unfold wpa_rekey_gtk. rest_steps. apply rekey_groups_keeps.
Qed.

Lemma auth_mic_failure_keeps rx : keeps rx at_rest auth_mic_failure.
Proof. by intros w H a w' [= <- <-]. Qed.

Lemma handle_request_keeps rx f : keeps rx at_rest (handle_request conf f).
Proof.
  pose proof steady_rest. pose proof (request_new_ptk_keeps rx). pose proof (rekey_gtk_keeps rx).
  pose proof (auth_mic_failure_keeps rx). unfold handle_request, wpa_receive_error_report. rest_steps.
Qed.

Lemma use_counter_keeps rx msg ctr : keeps rx at_rest (use_counter msg ctr).
Proof. unfold use_counter. rest_steps. Qed.

Lemma use_counter_spec rx msg ctr w :
  inv rx at_rest w -> (forall s, same_phase (sm w) s -> MICVerified s = MICVerified (sm w) -> PTK s = PTK (sm w) -> admissible rx s) ->
  wp (use_counter msg ctr) (fun _ w' => inv rx at_rest w' /\ admissible rx (sm w')) w.
Proof.
  intros H Ha. unfold use_counter. apply wp_bind, wp_upd, wp_bind.
  assert (Hk : forall w' k1 k2, sm w' = (sm w) <| prev_key_replay := k1 |> <| key_replay := k2 |> -> log w' = log w ->
    inv rx at_rest w' /\ admissible rx (sm w')).
  { intros w' k1 k2 E El. split; [split|].
    - rewrite E. destruct H as [H _]. revert H. generalize (sm w). rest_tac.
    - unfold logged. rewrite El. apply H.
    - rewrite E. apply Ha; done. }
  destruct (bool_decide _); apply wp_upd, wp_upd;
    (eapply Hk; [reflexivity|reflexivity]).
Qed.

Lemma expected_admissible rx s msg s' :
  expected s msg = true -> msg = PAIRWISE_2 \/ msg = PAIRWISE_4 -> same_phase s s' -> checked rx s' -> admissible rx s'.
Proof.
  intros He Hm (E1 & E2 & E3) Hc Hn. unfold negotiating in Hn. rewrite E1, E2 in *.
  destruct Hm as [-> | ->]; cbn [expected] in He.
  - apply orb_prop in He as [He|He]; [apply orb_prop in He as [He|He]|].
    + unfold in_state in He. apply bool_decide_eq_true in He. by rewrite He in Hn.
    + unfold in_state in He. apply bool_decide_eq_true in He.
      destruct Hc as [[Hc _]|Hc]; [left; by split|right; right; exact Hc].
    + apply andb_prop in He as [Hu He]. unfold in_state in He. apply bool_decide_eq_true in He. right; left. by split.
  - apply andb_prop in He as [He Hv]. unfold in_state in He. apply bool_decide_eq_true in He.
    destruct (update_snonce s) eqn:Eu; [right; left; by split|].
    destruct Hc as [[_ Hc]|Hc]; [|right; right; exact Hc]. rewrite E3, Hv, E2 in Hc. discriminate Hc.
Qed.

Lemma same_phase_refl s : same_phase s s.
Proof. done. Qed.

Lemma checked_moved rx s s' :
  same_phase s s' -> MICVerified s' = MICVerified s -> PTK s' = PTK s -> checked rx s -> checked rx s'.
Proof. intros (_ & E2 & E3) Em Ep. unfold checked, verified. by rewrite E2, E3, Em, Ep. Qed.

Lemma same_phase_trans s1 s2 s3 : same_phase s1 s2 -> same_phase s2 s3 -> same_phase s1 s3.
Proof. intros (? & ? & ?) (? & ? & ?). by split_and!; etransitivity. Qed.

Lemma receive_expected_rest rx msg f data w :
  inv rx at_rest w -> data ∈ rx -> expected (sm w) msg = true ->
  (pairwise_reply f = true -> msg = PAIRWISE_2 \/ msg = PAIRWISE_4) ->
  wp (receive_expected conf msg (wpa_mic_len (sta_key_mgmt (sm w)) (zlen (PMK (sm w)))) f data)
    (fun _ => inv rx at_rest) w.
Proof.
  intros H Hin He Hf. unfold receive_expected.
  destruct (flag_set _ WPA_KEY_INFO_ACK); [by apply wp_ret|].
  destruct (negb (flag_set _ WPA_KEY_INFO_MIC)); [by apply wp_ret|]. apply wp_bind.
  eapply wp_mono; [apply (check_mic_spec rx (sm w)); [split; [exact H|apply same_phase_refl]|exact Hin]|].
  cbv beta. intros ok w1 [[H1 Hp] Hc]. destruct ok; [|by apply wp_ret]. cbn [negb]. apply wp_bind.
  destruct (flag_set (f_info f) WPA_KEY_INFO_REQUEST) eqn:Er.
  - eapply wp_mono; [by apply handle_request_keeps|]. cbv beta. intros ok w2 H2. apply wp_when; intros _; [|done].
    apply accept_keeps; [done|]. intros Hpr. apply andb_prop in Hpr as [_ Hpr]. by rewrite Er in Hpr.
  - apply wp_bind. destruct (pairwise_reply f) eqn:Epr.
    + eapply wp_mono; [apply (use_counter_spec rx); [exact H1|]|].
      { intros s Hs Em Ept. apply (expected_admissible rx (sm w) msg); [done|by apply Hf| |].
        - by eapply same_phase_trans.
        - by eapply checked_moved; [..|apply Hc]. }
      cbv beta. intros _ w2 [H2 Ha]. apply wp_ret. cbn [when]. by apply accept_keeps.
    + eapply wp_mono; [exact (use_counter_keeps rx _ _ w1 H1)|].
      cbv beta. intros _ w2 H2. apply wp_ret. cbn [when]. apply accept_keeps; [done|]. by rewrite Epr.
Qed.

Lemma classify_pairwise s n f d u msg :
  classify s n (f_info f) d u = Ok msg -> pairwise_reply f = true -> msg = PAIRWISE_2 \/ msg = PAIRWISE_4.
Proof.
  unfold classify, pairwise_reply. intros E Hp. apply andb_prop in Hp as [Ht Hr]. rewrite Ht in E.
  destruct (flag_set _ WPA_KEY_INFO_REQUEST); [done|]. cbn [negb] in E.
  destruct (zlen d =? 0); [injection E as <-; by right|]. destruct (if _ && _ && _ then _ else _) as [b|]; [|done].
  cbn [cbind] in E. destruct (_ || _); injection E as <-; auto.
Qed.

(** The length of the code does not change while a frame is looked at. *)
Definition same_code (s s' : wpa_state_machine) : Prop :=
  s'.(sta_key_mgmt) = s.(sta_key_mgmt) /\ s'.(PMK) = s.(PMK).

Lemma valid_counter_rest rx msg ctr nonce w :
  inv rx at_rest w ->
  wp (wpa_auth_valid_counter msg ctr nonce) (fun _ w' => inv rx at_rest w' /\ same_code (sm w) (sm w')) w.
Proof.
  intros H. unfold wpa_auth_valid_counter. apply wp_bind, wp_the_id. cbv zeta.
  destruct (bool_decide _); [by apply wp_ret|]. destruct (wpa_replay_counter_valid _ _); [by apply wp_ret|].
  destruct (_ && _ && _ && _).
  - apply wp_bind, wp_upd, wp_ret. split; [|done]. destruct H as [H Hg]. split; [|exact Hg].
    revert H. cbn [sm]. generalize (sm w). rest_tac.
  - destruct (_ && _ && _ && _); by apply wp_ret.
Qed.

Lemma still_key_data n f : still quiet (receive_key_data n f).
Proof. unfold receive_key_data. still_tac. Qed.

Lemma receive_keeps rx data : data ∈ rx -> keeps rx at_rest (wpa_receive conf data).
Proof.
  intros Hin w H.
  unfold wpa_receive. apply wp_bind, wp_the_id. destruct (conf_wpa conf =? 0); [by apply wp_ret|]. cbv zeta.
  destruct (_ <? _); [by apply wp_ret|]. apply wp_bind, wp_lift. intros f _.
  destruct (_ <? _); [by apply wp_ret|]. destruct (negb (key_type_fits _ _)); [by apply wp_ret|].
  destruct (flag_set _ _); [by apply wp_ret|]. destruct (negb _); [by apply wp_ret|]. apply wp_bind.
  eapply wp_mono; [apply wp_and; [apply (keeps_still rx at_rest _ steady_rest (still_key_data _ _)); exact H|apply still_key_data]|].
  cbv beta. intros kd w1 [H1 ((n & b & E1) & _)].
  assert (Hc1 : same_code (sm w) (sm w1)) by by rewrite E1. clear E1.
  destruct kd as [[kd unwrapped]|]; [|by apply wp_ret]. apply wp_bind, wp_lift. intros msg Hmsg. apply wp_bind.
  eapply wp_mono; [apply (valid_counter_rest rx); exact H1|]. cbv beta. intros fresh w2 [H2 Hc2].
  apply wp_bind, wp_the_id. destruct (negb fresh); [by apply wp_ret|].
  destruct (expected (sm w2) msg) eqn:He; [|by apply wp_ret]. cbn [negb]. apply wp_bind, wp_get_group. intros g _.
  destruct (_ && reject_4way_hs_for_entropy g).
  - revert w2 H2 Hc2 He. intros w2 H2 _ _. revert w2 H2. pose proof (event_keeps rx WPA_DEAUTH) as Hev.
    change (keeps rx at_rest (wpa_sta_disconnect conf (wpa_sm_step conf) WLAN_REASON_PREV_AUTH_NOT_VALID)).
    unfold wpa_sta_disconnect. apply keeps_bind; [by apply keeps_emit|]. intros _. rest_steps.
  - destruct Hc1 as [Ea1 Ep1], Hc2 as [Ea2 Ep2]. rewrite <- Ea1, <- Ep1, <- Ea2, <- Ep2.
    apply receive_expected_rest; [exact H2|exact Hin|exact He|]. by eapply classify_pairwise.
Qed.

(** ** Runs *)

(** What an association negotiates before the machine starts or restarts, and
    what may change of it later: the cached key (wpa_auth_sta_clear_pmksa), the
    group (wpa_auth_sta_set_vlan), the DPP secret, the protection of the SSID. *)
Record association := mkAssoc {
  a_cipher : Z; a_akm : Z; a_wpa : Z; a_ie : option (list Z); a_rsnxe : option (list Z); a_pmksa : option (list Z * list Z); a_mfp : bool;
  a_ext_key_id : bool; a_group : Z; a_dpp_z : option (list Z); a_ssid_protection : bool }.

Definition associate (a : association) (s : wpa_state_machine) : wpa_state_machine :=
  s <| pairwise := a.(a_cipher) |> <| sta_key_mgmt := a.(a_akm) |> <| wpa := a.(a_wpa) |> <| sta_wpa_ie := a.(a_ie) |> <| sta_rsnxe := a.(a_rsnxe) |> <| pmksa := a.(a_pmksa) |>
    <| mgmt_frame_prot := a.(a_mfp) |> <| use_ext_key_id := a.(a_ext_key_id) |> <| group := a.(a_group) |>
    <| dpp_z := a.(a_dpp_z) |> <| ssid_protection := a.(a_ssid_protection) |>.

(** The calls the rest of hostapd makes, its timers among them. *)
Inductive call :=
| Receive (data : list Z) | Associate (a : association) | Associated | Event (ev : wpa_event) | NoWpa
| RadiusPsk (success : bool) | RemovePtk | Notify | GtkRekey | ReconfigGroupKeys
| TxStatus (ack : bool) | SendEapolTimer | RekeyPtkTimer | RekeyGmkTimer | RekeyGtkTimer | StepTimer | OtherStations.

Definition run_call (c : call) : M unit :=
  match c with
  | Receive data => wpa_receive conf data
  | Associate a => upd (associate a)
  | Associated => _ ← wpa_auth_sta_associated conf; skip
  | Event ev => _ ← wpa_auth_sm_event conf (wpa_sm_step conf) ev; skip
  | NoWpa => wpa_auth_sta_no_wpa
  | RadiusPsk success => wpa_auth_sta_radius_psk_resp success
  | RemovePtk => wpa_remove_ptk
  | Notify => wpa_auth_sm_notify
  | GtkRekey => wpa_gtk_rekey conf
  | ReconfigGroupKeys => wpa_auth_reconfig_group_keys conf
  | TxStatus ack => wpa_auth_eapol_key_tx_status ack
  | SendEapolTimer => wpa_send_eapol_timeout conf
  | RekeyPtkTimer => wpa_rekey_ptk conf
  | RekeyGmkTimer => wpa_rekey_gmk conf
  | RekeyGtkTimer => _ ← wpa_rekey_gtk conf; skip
  | StepTimer => _ ← wpa_sm_step conf; skip
  | OtherStations => others
  end.

(** A cached key is one of the station's; neither SAE nor FILS is in the
    default configuration. *)
Definition call_ok (c : call) : Prop :=
  match c with
  | Associate a => (forall k id, a.(a_pmksa) = Some (k, id) -> Secret k) /\
      wpa_key_mgmt_sae a.(a_akm) = false /\ wpa_key_mgmt_fils a.(a_akm) = false
  | _ => True
  end.

Definition received (c : call) : list (list Z) := match c with Receive data => [data] | _ => [] end.

Inductive reachable : world -> Prop :=
| reach_start k gs : reachable (mkWorld (wpa_auth_sta_init spa k) gs 0 0 0 [])
| reach_call w c w' : reachable w -> call_ok c -> run_call c w = Ok (tt, w') -> reachable w'.

Lemma associate_keeps rx a : call_ok (Associate a) -> keeps rx at_rest (upd (associate a)).
Proof.
  intros [Ha Hakm]. apply keeps_upd. intros s (Hs & Hr & Hl). split_and!; [|exact Hr|exact Hl]. destruct Hs.
  constructor; [assumption|exact Hakm|assumption|exact Ha|assumption|assumption|assumption].
Qed.

(** No answer is waited for. *)
Lemma radius_psk_keeps rx success : keeps rx at_rest (wpa_auth_sta_radius_psk_resp success).
Proof.
  intros w H. unfold wpa_auth_sta_radius_psk_resp. apply wp_bind, wp_the_id.
  rewrite (s_radius _ (proj1 (proj1 H))). by apply wp_ret.
Qed.

Lemma config_groups_keeps rx ks : keeps rx at_rest (config_groups conf ks).
Proof. pose proof steady_rest. induction ks as [|k ks IH]; cbn [config_groups]; rest_steps. Qed.

Lemma no_wpa_keeps rx : keeps rx at_rest wpa_auth_sta_no_wpa.
Proof.
  apply keeps_upd. intros s (Hs & Hr & Hl). split_and!; [|exact Hr|exact Hl]. destruct Hs.
  constructor; [assumption|by split|assumption..].
Qed.

Lemma call_keeps c : call_ok c -> keeps (received c) at_rest (run_call c).
Proof.
  intros Hc. destruct c; cbn [run_call received]; [apply receive_keeps; by left|by apply associate_keeps|..];
    set (rx := []);
    pose proof steady_rest; pose proof (step_keeps rx); pose proof (rekey_gtk_keeps rx);
    pose proof (request_new_ptk_keeps rx); pose proof (event_keeps rx); pose proof (no_wpa_keeps rx);
    pose proof (config_groups_keeps rx); pose proof (radius_psk_keeps rx);
    unfold wpa_remove_ptk, wpa_auth_sm_notify, wpa_gtk_rekey, wpa_auth_reconfig_group_keys, wpa_auth_sta_associated, wpa_auth_eapol_key_tx_status, wpa_send_eapol_timeout, wpa_rekey_ptk, wpa_rekey_gmk;
    repeat first [ apply keeps_upd; rest_tac | match goal with Hev : forall _, keeps _ _ _ |- _ => apply Hev end
                 | progress keeps_tac ].
Qed.

End safety.

Section runs.
Context `{HM : !Hmac} {ctx : Type} `{BC : !BlockCipher ctx} `{HO : !Hostapd} (conf : wpa_auth_config).
Context (Secret : list Z -> Prop) `{HS : !Holds Secret} (spa : list Z).

Notation reachable := (reachable conf Secret spa).

Lemma reachable_rest w : conf.(radius_psk) = false -> reachable w -> at_rest conf Secret spa w.(sm).
Proof.
  intros Hradius. induction 1 as [k gs|w c w' _ IH Hc E].
  - split_and!; [|done|done]. constructor; try done. by left.
  - destruct (call_keeps conf Secret spa w.(log) Hradius c Hc w) with tt w' as [H _]; [|exact E|exact H].
    split; [exact IH|]. exists []. split; [by rewrite app_nil_r|constructor].
Qed.

(** C2: No keys and no open port without proof, where the RADIUS server is not
    asked for PSKs during handshakes.  Whatever a station has sent and negotiated
    in its associations, and hostapd, its timers and the other stations have done
    before, if a call opens the station's port, reports its keys done, installs a
    pairwise key for sending or stores it, then the call is the reception of a
    frame whose integrity code is right under a pairwise key derived for the
    station from a PMK hostapd holds for it; the key installed or stored is that
    one. *)
Theorem opening_needs_proof w c w' l e :
  conf.(radius_psk) = false ->
  reachable w -> call_ok Secret c -> run_call conf c w = Ok (tt, w') -> w'.(log) = w.(log) ++ l ->
  e ∈ l -> opening e = true ->
  exists data p, c = Receive data /\ verifies p data /\ derived conf Secret spa p /\
    match e with
    | EvSetKey _ alg _ _ key flag => flag = KEY_FLAG_PAIRWISE_RX_TX -> uses_key p alg key
    | EvStorePtksa p' => p' = p
    | _ => True
    end.
Proof.
  intros Hradius H Hc E El He Ho. apply reachable_rest in H; [|done].
  destruct (call_keeps conf Secret spa w.(log) Hradius c Hc w) with tt w' as [_ (l' & El' & Hl)]; [|exact E|].
  { split; [exact H|]. exists []. split; [by rewrite app_nil_r|constructor]. }
  rewrite El in El'. apply app_inv_head in El' as <-. rewrite Forall_forall in Hl.
  destruct (Hl e He Ho) as (p & Hd & (f & Hf & Hv) & Hm).
  destruct c; try by apply not_elem_of_nil in Hf. apply list_elem_of_singleton in Hf as ->. by exists data, p.
Qed.

(** C20: What the authenticator keeps for a station between calls, where the
    RADIUS server is not asked for PSKs during handshakes.  In every reachable
    state a valid pairwise key is derived for the station from a PMK hostapd holds
    for it, the PMK kept is none or one of these, the step loop is left, no answer
    of RADIUS is awaited, and no reply waits in a state that would take it. *)
Theorem station_keys_sound w :
  conf.(radius_psk) = false -> reachable w ->
  (w.(sm).(PTK_valid) = true -> derived conf Secret spa w.(sm).(PTK) /\ Secret w.(sm).(PMK)) /\
  (w.(sm).(PMK) = [] \/ Secret w.(sm).(PMK)) /\
  w.(sm).(in_step_loop) = false /\ w.(sm).(waiting_radius_psk) = false /\
  (negotiating w.(sm) = true -> reply_waiting w.(sm) = false).
Proof.
  intros Hradius H. apply reachable_rest in H as (Hs & Hr & Hl); [|done].
  split_and!; [apply Hs|apply Hs|exact Hl|apply Hs|exact Hr].
Qed.

(** Runs of calls, for examples. *)
Fixpoint run_calls (cs : list call) (w : world) : cres world :=
  match cs with
  | [] => Ok w
  | c :: cs => match run_call conf c w with Ok (_, w) => run_calls cs w | Fault => Fault end
  end.

Lemma reachable_run cs w w' :
  reachable w -> Forall (call_ok Secret) cs -> run_calls cs w = Ok w' -> reachable w'.
Proof.
  revert w. induction cs as [|c cs IH]; intros w H Hc E; cbn in *; [by injection E as <-|].
  apply Forall_cons in Hc as [Hc Hcs]. destruct (run_call conf c w) as [[[] w1]|] eqn:E1; [|done].
  eapply IH; [|exact Hcs|exact E]. by eapply reach_call.
Qed.

End runs.
(** *** Witnesses *)

Definition demo_conf : wpa_auth_config :=
  mkConf WPA_PROTO_RSN WPA_CIPHER_CCMP 0 false 0 0 false 4 4 false 2 false false false 0 false 0 0 0 false false
    false false [] demo_aa [48; 2; 1; 0].

#[export] Instance demo_hostapd : Hostapd := {
  ask_random n k := Some (replicate (Z.to_nat k) (Z.of_nat n mod 256));
  ask_random_pool_ready _ := true;
  ask_malloc _ := true;
  ask_ntp _ := replicate 8 0;
  ask_group_pointer := replicate 8 0;
  ask_eapol _ _ := 0;
  ask_psks _ := [(demo_pmk, 0)];
  ask_msk _ := None;
  ask_set_key _ := 0;
  ask_seqnum _ _ := None;
  ask_update_vlan _ := 0;
  ask_sta_count _ := 1;
  ask_mic_failure _ := 0;
  ask_station_known _ := true;
  ask_others _ g := g;
  rc4_skip _ _ x := x }.

#[export] Instance demo_holds : Holds (fun k => k = demo_pmk).
Proof.
  constructor; [by intros ? ->| |done]. intros n k vlan H. apply list_elem_of_singleton in H. by injection H as -> _.
Qed.

Definition demo_group : wpa_group :=
  mkGroup 0 false 0 false 16 1 2 true (replicate 32 1) WPA_GROUP_SETKEYSDONE (replicate 32 3) zero_keys
    (replicate 32 0) false false false zero_keys zero_keys 4 5 6 7 false false.

Definition demo_start : world :=
  mkWorld (wpa_auth_sta_init demo_spa 0) {[0 := demo_group]} 0 0 0 [].

Definition demo_sealed (info : Z) (ctr nonce kd : list Z) : list Z :=
  let f := eapol_key_frame 2 2 info 16 ctr nonce (replicate 16 0) (replicate 8 0) 16 (zlen kd) kd in
  let p := match wpa_pmk_to_ptk demo_pmk "Pairwise key expansion" demo_aa demo_spa (replicate 32 8) demo_snonce
                   WPA_KEY_MGMT_PSK WPA_CIPHER_CCMP [] 0 with Ok (Some p) => p | _ => zero_ptk end in
  match wpa_eapol_key_mic p.(kck) WPA_KEY_MGMT_PSK 2 f with Ok (Some m) => put mic_off m f | _ => f end.

(** A whole 4-way handshake. *)
Definition demo_msg_2 : list Z := demo_sealed 0x010a [0; 0; 0; 0; 0; 0; 0; 1] demo_snonce [48; 2; 1; 0].
Definition demo_msg_4 : list Z := demo_sealed 0x030a [0; 0; 0; 0; 0; 0; 0; 2] (replicate 32 0) [].

Definition demo_calls : list call :=
  [Associate (mkAssoc WPA_CIPHER_CCMP WPA_KEY_MGMT_PSK WPA_VERSION_WPA2 (Some [48; 2; 1; 0]) None None false false 0 None false); Associated;
   Receive demo_msg_2].

(** The world before message 4/4 and after it. *)
Definition demo_mid : world := match run_calls demo_conf demo_calls demo_start with Ok w => w | Fault => demo_start end.
Definition demo_end : world :=
  match run_call demo_conf (Receive demo_msg_4) demo_mid with Ok (_, w) => w | Fault => demo_mid end.
Definition demo_events : list event := drop (length demo_mid.(log)) demo_end.(log).

Lemma demo_mid_reachable :
  reachable demo_conf (fun k => k = demo_pmk) demo_spa demo_mid.
Proof.
  apply (reachable_run demo_conf _ _ demo_calls demo_start); [apply reach_start|repeat constructor; try discriminate; reflexivity|].
  assert (H : match run_calls demo_conf demo_calls demo_start with Ok _ => true | Fault => false end = true)
    by (vm_compute; reflexivity).
  unfold demo_mid. by destruct (run_calls demo_conf demo_calls demo_start).
Qed.

Lemma demo_last : run_call demo_conf (Receive demo_msg_4) demo_mid = Ok (tt, demo_end).
Proof.
  assert (H : match run_call demo_conf (Receive demo_msg_4) demo_mid with Ok _ => true | Fault => false end = true)
    by (vm_compute; reflexivity).
  unfold demo_end. by destruct (run_call demo_conf (Receive demo_msg_4) demo_mid) as [[[] w]|].
Qed.

Lemma demo_log : demo_end.(log) = demo_mid.(log) ++ demo_events.
Proof. vm_compute. reflexivity. Qed.

Lemma opening_needs_proof_witness :
  exists e data p, e ∈ demo_events /\ opening e = true /\ verifies p data /\
    derived demo_conf (fun k => k = demo_pmk) demo_spa p.
Proof.
  assert (H : existsb opening demo_events = true) by (vm_compute; reflexivity).
  apply existsb_exists in H as (e & He & Ho). apply list_elem_of_In in He.
  destruct (opening_needs_proof demo_conf (fun k => k = demo_pmk) demo_spa
              demo_mid (Receive demo_msg_4) demo_end demo_events e eq_refl demo_mid_reachable I demo_last demo_log He Ho) as (data & p & _ & Hv & Hd & _).
  exists e, data, p. by split_and!.
Defined.

Lemma station_keys_sound_witness :
  demo_mid.(sm).(PTK_valid) = true /\
  derived demo_conf (fun k => k = demo_pmk) demo_spa demo_mid.(sm).(PTK).
Proof.
  assert (H : demo_mid.(sm).(PTK_valid) = true) by (vm_compute; reflexivity).
  split; [exact H|]. apply (station_keys_sound demo_conf (fun k => k = demo_pmk) demo_spa
    demo_mid eq_refl demo_mid_reachable). exact H.
Defined.

End WpaAuthSafety.
