(* ===== verification/WpaAuthWeight.v ===== *)
(** * What a station can still do

    A weight of the machines of a station and of a group, and that entering any
    state of the pairwise machine lowers it by what led there. *)

From Stdlib Require Import Ascii String.
From stdpp Require Import gmap.
From S2P Require Import Prelude WpaDefs AesModes WpaKey Kde WpaAuth WpaAuthLogic WpaAuthSafety.

Module WpaAuthWeight.
Import WpaDefs AesModes WpaKey Kde WpaAuth WpaAuthLogic.

#[local] Open Scope Z_scope.
#[local] Open Scope list_scope.

(** ** Weights *)

Definition given (b : bool) (n : Z) : Z := if b then n else 0.

Definition ptk_weight (st : wpa_ptk_st) : Z :=
  match st with
  | WPA_PTK_INITIALIZE | WPA_PTK_PTKINITDONE => 0
  | WPA_PTK_DISCONNECTED => 1
  | WPA_PTK_DISCONNECT => 2
  | WPA_PTK_PTKINITNEGOTIATING => 9
  | WPA_PTK_PTKCALCNEGOTIATING2 => 12
  | WPA_PTK_PTKCALCNEGOTIATING => 13
  | WPA_PTK_PTKSTART => 15
  | WPA_PTK_INITPMK | WPA_PTK_INITPSK => 16
  | WPA_PTK_AUTHENTICATION2 => 22
  | WPA_PTK_AUTHENTICATION => 23
  end.

Lemma ptk_weight_bounds st : 0 <= ptk_weight st <= 23.
Proof. destruct st; cbn; lia. Qed.

Section weights.
Context `{HM : !Hmac} {ctx : Type} `{BC : !BlockCipher ctx} `{HO : !Hostapd} (conf : wpa_auth_config).

(** A group key handshake that has used up its messages. *)
Definition expired (s : wpa_state_machine) : bool :=
  (conf.(wpa_group_update_count) <? s.(GTimeoutCtr)) || (conf.(wpa_disable_eapol_key_retries) && (1 <? s.(GTimeoutCtr))).

(** A group key the station should get counts while no handshake brings it. *)
Definition group_weight (s : wpa_state_machine) : Z :=
  given ((s.(wpa) =? WPA_VERSION_WPA) && s.(PInitAKeys)) 9 +
  match s.(wpa_ptk_group_state) with
  | WPA_PTK_GROUP_IDLE => given s.(GUpdateStationKeys) 9 + given (negb (s.(GTimeoutCtr) =? 0)) 9
  | WPA_PTK_GROUP_REKEYNEGOTIATING => if expired s then 7 else 8
  | WPA_PTK_GROUP_REKEYESTABLISHED | WPA_PTK_GROUP_KEYERROR => 1 + given s.(GUpdateStationKeys) 9
  end.

(** What a station can still do without another call; an initialization undoes
    each of its passes. *)
Definition station_weight (s : wpa_state_machine) : Z :=
  if s.(Init) then 0
  else
    given s.(Disconnect) 5 + given s.(DeauthenticationRequest) 2 + given s.(AuthenticationRequest) 24 +
    given s.(ReAuthenticationRequest) 23 + given s.(PTKRequest) 16 + given s.(EAPOLKeyReceived) 3 +
    given s.(TimeoutEvt) 3 + given s.(update_snonce) 7 + given s.(PtkGroupInit) 3 +
    ptk_weight s.(wpa_ptk_state) + group_weight s.

Definition access_weight (g : wpa_group) : Z :=
  if g.(GInit) then 0
  else
    given g.(GTKReKey) 17 +
    match g.(wpa_group_state) with
    | WPA_GROUP_FATAL_FAILURE => 0
    | WPA_GROUP_SETKEYSDONE => 1
    | WPA_GROUP_GTK_INIT | WPA_GROUP_SETKEYS => 7
    end.

(** The weight of the first group. *)
Definition groups_weight (gs : gmap Z wpa_group) : Z :=
  match gs !! 0 with Some g => access_weight g | None => 0 end.

Definition weight (w : world) : Z := station_weight w.(sm) + groups_weight w.(groups).

(** [w'] weighs less than [w], or no more and asks for no other pass. *)
Definition marked (w : world) : bool :=
  w.(sm).(changed) || match w.(groups) !! 0 with Some g => g.(g_changed) | None => false end.

Definition down (w w' : world) : Prop :=
  weight w' < weight w \/ (weight w' <= weight w /\ (marked w' = true -> marked w = true)).

Lemma down_refl w : down w w.
Proof. right. split; [lia|done]. Qed.

Lemma down_trans w1 w2 w3 : down w1 w2 -> down w2 w3 -> down w1 w3.
Proof. unfold down. intros [?|[? ?]] [?|[? ?]]; auto with lia. Qed.

(** *** Moves of the machine alone *)

Lemma sched_weight g g' : sched g = sched g' -> access_weight g = access_weight g' /\ g_changed g = g_changed g'.
Proof. unfold sched, access_weight. intros [= E1 E2 E3 _ E5]. by rewrite E1, E2, E3, E5. Qed.

Lemma same_sched_weight gs gs' :
  same_sched gs gs' -> groups_weight gs' = groups_weight gs /\
  match gs' !! 0 with Some g => g.(g_changed) | None => false end =
  match gs !! 0 with Some g => g.(g_changed) | None => false end.
Proof.
  intros H. specialize (H 0). unfold groups_weight. destruct (gs' !! 0) as [g'|], (gs !! 0) as [g|]; try discriminate H; [|done].
  apply sched_weight. change (Some (sched g') = Some (sched g)) in H. congruence.
Qed.

Lemma station_weight_drawn n b s : station_weight (drawn n b s) = station_weight s.
Proof. reflexivity. Qed.

(** A description of where a computation goes, and the weight there. *)
Lemma goes_down P w s w' :
  goes P w s w' ->
  station_weight s < station_weight w.(sm) \/
    (station_weight s <= station_weight w.(sm) /\ (s.(changed) = true -> w.(sm).(changed) = true)) ->
  down w w'.
Proof.
  intros ((n & b & E) & _ & Hg) H. apply same_sched_weight in Hg as [Hw Hc].
  change (groups (w <| sm := s |>)) with (groups w) in *. change (sm (w <| sm := s |>)) with s in *.
  unfold down, weight, marked. rewrite E, Hw, Hc, station_weight_drawn. change (changed (drawn n b s)) with (changed s).
  destruct H as [H|[H Hm]]; [left; lia|right]. split; [lia|]. intros Hs. apply orb_true_iff in Hs as [Hs|Hs].
  - by rewrite Hm.
  - rewrite Hs. apply orb_true_r.
Qed.

(** A part of a pass, in the loop. *)
Definition falls (w w' : world) : Prop := w'.(sm).(in_step_loop) = true /\ down w w'.

Lemma goes_falls P w s w' :
  goes P w s w' -> s.(in_step_loop) = true ->
  station_weight s < station_weight w.(sm) \/
    (station_weight s <= station_weight w.(sm) /\ (s.(changed) = true -> w.(sm).(changed) = true)) ->
  falls w w'.
Proof.
  intros H Hl Hw. split; [|by eapply goes_down].
  by rewrite (goes_field in_step_loop _ _ _ _ (fun _ _ _ => eq_refl) H).
Qed.

End weights.

(** The weight of a machine after assignments to its fields: [Hs] is what is
    known of the machine [sm w] before them. *)
Ltac weights :=
  lazy beta iota zeta delta
    [station_weight group_weight expired given reply_waiting kicked without_ptk set_field changed Init
     Disconnect DeauthenticationRequest AuthenticationRequest ReAuthenticationRequest PTKRequest EAPOLKeyReceived
     TimeoutEvt update_snonce PtkGroupInit wpa_ptk_state wpa_ptk_group_state wpa PInitAKeys GUpdateStationKeys
     GTimeoutCtr MICVerified EAPOLKeyRequest EAPOLKeyPairwise].

Ltac weigh w Hs :=
  revert Hs; clear; generalize (sm w); let s := fresh "s" in intros s; destruct s; weights; intros Hs.

(** Each condition left is a number within its bounds. *)
Ltac bound_conditions :=
  repeat match goal with
  | |- context [if ?b then ?x else ?y] =>
      let H := fresh in
      assert (H : Z.min x y <= (if b then x else y) <= Z.max x y) by (destruct b; lia);
      revert H; generalize (if b then x else y); intros ? ?
  end.

Ltac weigh_tac w Hs :=
  weigh w Hs; repeat match goal with H : _ /\ _ |- _ => destruct H end; subst; cbn [ptk_weight andb negb];
  repeat match goal with H : ?P |- _ => match type of P with Prop => revert H end end;
  repeat match goal with
  | |- context [ptk_weight ?s] => generalize (ptk_weight_bounds s); generalize (ptk_weight s); intros ?
  end;
  try match goal with s : wpa_ptk_group_st |- _ => destruct s end;
  rewrite ?andb_false_r, ?andb_true_r, ?Z.eqb_refl; cbn [negb]; cbn iota; bound_conditions; intros; first [lia | left; lia | right; split; [lia|first [done|auto]]].

(** The whole entry of a state that only sends and assigns. *)
Ltac entry_down w Hl Hs :=
  let H := fresh in pose proof (goes_self quiet w) as H; repeat goes_next H;
  (eapply goes_falls; [exact H|exact Hl|]; weigh_tac w Hs).

Section entries.
Context `{HM : !Hmac} {ctx : Type} `{BC : !BlockCipher ctx} `{HO : !Hostapd} (conf : wpa_auth_config).

Notation station_weight := (station_weight conf).
Notation falls := (falls conf).
Notation down := (down conf).

Lemma DISCONNECT_down w :
  (sm w).(in_step_loop) = true ->
  (sm w).(Init) = false /\ 4 < given (sm w).(Disconnect) 5 + ptk_weight (sm w).(wpa_ptk_state) ->
  wp (sm_WPA_PTK_DISCONNECT_Enter conf) (fun _ => falls w) w.
Proof. intros Hl Hs. unfold sm_WPA_PTK_DISCONNECT_Enter, enter. entry_down w Hl Hs. Qed.

Lemma DISCONNECTED_down w :
  (sm w).(in_step_loop) = true ->
  (sm w).(Init) = false /\ 1 < given (sm w).(DeauthenticationRequest) 2 + ptk_weight (sm w).(wpa_ptk_state) ->
  wp sm_WPA_PTK_DISCONNECTED_Enter (fun _ => falls w) w.
Proof. intros Hl Hs. unfold sm_WPA_PTK_DISCONNECTED_Enter, enter. entry_down w Hl Hs. Qed.

Lemma INITIALIZE_down w :
  (sm w).(in_step_loop) = true -> (sm w).(wpa_ptk_state) = WPA_PTK_DISCONNECTED /\ (sm w).(Init) = false ->
  wp sm_WPA_PTK_INITIALIZE_Enter (fun _ => falls w) w.
Proof. intros Hl Hs. unfold sm_WPA_PTK_INITIALIZE_Enter, enter. entry_down w Hl Hs. Qed.

Lemma INITIALIZE_again w :
  (sm w).(in_step_loop) = true -> (sm w).(Init) = true -> wp sm_WPA_PTK_INITIALIZE_Enter (fun _ => falls w) w.
Proof.
  intros Hl Hs. unfold sm_WPA_PTK_INITIALIZE_Enter, enter. pose proof (goes_self quiet w) as H.
  do 4 goes_next H. match goal with |- context [Init ?x] => change (Init x) with (Init (sm w)) end.
  rewrite Hs. cbn [when]. repeat goes_next H; (eapply goes_falls; [exact H|exact Hl|]; weigh_tac w Hs).
Qed.

Lemma AUTHENTICATION_down w :
  (sm w).(in_step_loop) = true -> (sm w).(Init) = false /\ (sm w).(AuthenticationRequest) = true ->
  wp sm_WPA_PTK_AUTHENTICATION_Enter (fun _ => falls w) w.
Proof. intros Hl Hs. unfold sm_WPA_PTK_AUTHENTICATION_Enter, enter. entry_down w Hl Hs. Qed.

(** The random generator works; what happens when it does not is below. *)
Context (Hrandom : forall n k, exists r, ask_random n k = Some r).

Lemma new_anonce_goes w s w1 Q :
  goes quiet w s w1 ->
  (forall n w2, goes quiet w (s <| ANonce := n |> <| TimeoutCtr := 0 |>) w2 -> Q true w2) -> wp new_anonce Q w1.
Proof.
  intros H HQ. unfold new_anonce, random_get_bytes. do 2 goes_next H. destruct (Hrandom (asked w1) WPA_NONCE_LEN) as [n En]. rewrite En.
  repeat goes_next H. by eapply HQ.
Qed.

Lemma AUTHENTICATION2_down w :
  (sm w).(in_step_loop) = true ->
  (sm w).(Init) = false /\ 22 < given (sm w).(ReAuthenticationRequest) 23 + ptk_weight (sm w).(wpa_ptk_state) ->
  wp (sm_WPA_PTK_AUTHENTICATION2_Enter conf) (fun _ => falls w) w.
Proof.
  intros Hl Hs. unfold sm_WPA_PTK_AUTHENTICATION2_Enter, enter. pose proof (goes_self quiet w) as H.
  do 9 goes_next H. eapply new_anonce_goes; [exact H|]. clear H. intros n w2 H. goes_next H.
  eapply goes_falls; [exact H|exact Hl|]. weigh_tac w Hs.
Qed.

Lemma PTKSTART_down w :
  (sm w).(in_step_loop) = true ->
  (sm w).(Init) = false /\
    15 < given (sm w).(PTKRequest) 16 + given (sm w).(TimeoutEvt) 3 + ptk_weight (sm w).(wpa_ptk_state) ->
  wp (sm_WPA_PTK_PTKSTART_Enter conf) (fun _ => falls w) w.
Proof. intros Hl Hs. unfold sm_WPA_PTK_PTKSTART_Enter, enter. entry_down w Hl Hs. Qed.

Lemma INITPMK_down w :
  (sm w).(in_step_loop) = true -> (sm w).(Init) = false /\ (sm w).(wpa_ptk_state) = WPA_PTK_AUTHENTICATION2 ->
  wp sm_WPA_PTK_INITPMK_Enter (fun _ => falls w) w.
Proof. intros Hl Hs. unfold sm_WPA_PTK_INITPMK_Enter, enter, store_pmk. entry_down w Hl Hs. Qed.

Lemma INITPSK_down w :
  (sm w).(in_step_loop) = true -> (sm w).(Init) = false /\ (sm w).(wpa_ptk_state) = WPA_PTK_AUTHENTICATION2 ->
  wp sm_WPA_PTK_INITPSK_Enter (fun _ => falls w) w.
Proof. intros Hl Hs. unfold sm_WPA_PTK_INITPSK_Enter, enter, store_pmk. entry_down w Hl Hs. Qed.

Lemma PTKCALCNEGOTIATING2_down w :
  (sm w).(in_step_loop) = true -> (sm w).(Init) = false /\ (sm w).(wpa_ptk_state) = WPA_PTK_PTKCALCNEGOTIATING ->
  wp sm_WPA_PTK_PTKCALCNEGOTIATING2_Enter (fun _ => falls w) w.
Proof. intros Hl Hs. unfold sm_WPA_PTK_PTKCALCNEGOTIATING2_Enter, enter. entry_down w Hl Hs. Qed.

Lemma PTKINITNEGOTIATING_down w :
  (sm w).(in_step_loop) = true ->
  (sm w).(Init) = false /\ 11 < given (sm w).(TimeoutEvt) 3 + ptk_weight (sm w).(wpa_ptk_state) ->
  wp (sm_WPA_PTK_PTKINITNEGOTIATING_Enter conf) (fun _ => falls w) w.
Proof. intros Hl Hs. unfold sm_WPA_PTK_PTKINITNEGOTIATING_Enter, enter. entry_down w Hl Hs. Qed.

(** *** Message 2/4 *)

(** Trying PMKs leaves one of them and the checked frame in the machine. *)
Definition retry (pmk : list Z) (rx : option (list Z)) (s : wpa_state_machine) : wpa_state_machine :=
  s <| PMK := pmk |> <| last_rx_eapol_key := rx |>.

Definition retried (w w' : world) : Prop := exists pmk lr, goes quiet w (retry pmk lr w.(sm)) w'.

Definition retries {A} (m : M A) : Prop := forall w, wp m (fun _ => retried w) w.

Lemma retry_own s : retry (PMK s) (last_rx_eapol_key s) s = s.
Proof. by destruct s. Qed.

Lemma retried_refl w : retried w w.
Proof.
  exists (PMK w.(sm)), (last_rx_eapol_key w.(sm)). rewrite retry_own. apply goes_self.
Qed.

Lemma goes_retried w s w1 w2 : goes quiet w s w1 -> retried w1 w2 -> exists pmk lr, goes quiet w (retry pmk lr s) w2.
Proof.
  intros H (pmk & lr & H2). exists pmk, lr.
  exact (goes_then _ (retry pmk lr) _ _ _ _ (fun _ _ _ => eq_refl) H H2).
Qed.

Lemma retried_trans w1 w2 w3 : retried w1 w2 -> retried w2 w3 -> retried w1 w3.
Proof. intros (pmk & lr & H) H2. destruct (goes_retried _ _ _ _ H H2) as (pmk' & lr' & H'). by exists pmk', lr'. Qed.

Lemma retries_ret {A} (a : A) : retries (mret a).
Proof. intros w. apply wp_ret, retried_refl. Qed.

Lemma retries_bind {A B} (m : M A) (f : A -> M B) : retries m -> (forall a, retries (f a)) -> retries (mbind f m).
Proof.
  intros Hm Hf w. apply wp_bind. eapply wp_mono; [apply Hm|]. intros a w1 H1.
  eapply wp_mono; [apply Hf|]. intros b w2 H2. exact (retried_trans _ _ _ H1 H2).
Qed.

Lemma retries_still {A} (m : M A) : still quiet m -> retries m.
Proof.
  intros H w. eapply wp_mono; [apply H|]. intros a w' Hm. destruct (retried_refl w) as (pmk & lr & H0).
  exists pmk, lr. by eapply goes_moves.
Qed.

Lemma retries_store pmk : retries (store_pmk pmk).
Proof.
  intros w. unfold store_pmk. destruct (_ <=? _); [|apply wp_fault]. apply wp_upd.
  exists pmk, (last_rx_eapol_key w.(sm)).
  exact (goes_upd quiet (retry pmk (last_rx_eapol_key (sm w))) w (sm w) w (fun _ _ _ => eq_refl) (goes_self _ w)).
Qed.

Lemma retries_verify n p : retries (verify_last n p).
Proof.
  intros w. unfold verify_last. repeat wp_step; try apply retried_refl.
  exists (PMK w.(sm)), (Some a.2).
  exact (goes_upd quiet (retry (PMK (sm w)) (Some a.2)) w (sm w) w (fun _ _ _ => eq_refl) (goes_self _ w)).
Qed.

Ltac retries_tac :=
  repeat lazymatch goal with
  | |- retries (mbind _ _) => apply retries_bind; [|intros ?]
  | |- retries (mret _) => apply retries_ret
  | |- retries (if ?b then _ else _) => destruct b
  | |- retries (match ?x with _ => _ end) => destruct x
  | |- retries (let x := _ in _) => cbv zeta
  | |- retries (store_pmk _) => apply retries_store
  | |- retries (verify_last _ _) => apply retries_verify
  | |- retries _ => first [ assumption | apply retries_still; solve [still_tac] ]
  end.

Lemma retries_try mic_len pmk : retries (try_pmk conf mic_len pmk).
Proof.
  assert (H : forall no_kdk, retries (try_ptk conf mic_len pmk no_kdk)) by (intros ?; unfold try_ptk; retries_tac).
  unfold try_pmk. retries_tac; apply H.
Qed.

Lemma retries_psk mic_len psks : retries (psk_loop conf mic_len psks).
Proof.
  induction psks as [|[psk vlan] psks IH]; cbn [psk_loop]; retries_tac. apply retries_try.
Qed.

Lemma kicked_weight s : station_weight (kicked s) <= station_weight s + 2.
Proof.
  destruct s. weights. destruct Init0; [lia|]. destruct DeauthenticationRequest0; lia.
Qed.

(** A machine light enough for the end of an association on top. *)
Definition light (w : world) (s : wpa_state_machine) : Prop :=
  s.(in_step_loop) = true /\ station_weight s + 2 < station_weight w.(sm).

Lemma light_falls P w s s' w' :
  light w s -> goes P w s' w' -> s'.(in_step_loop) = s.(in_step_loop) -> station_weight s' <= station_weight s + 2 ->
  falls w w'.
Proof. intros [Hl Hw] H E Hs. eapply goes_falls; [exact H|by rewrite E|left; lia]. Qed.

Ltac light_tac Hk H :=
  eapply light_falls; [exact Hk|exact H|reflexivity|
    first [ apply kicked_weight | match goal with |- station_weight ?a <= station_weight ?b + 2 =>
              change (station_weight a) with (station_weight b); lia end ]].

Lemma unmatched_down w s w1 b :
  light w s -> goes quiet w s w1 -> wp (msg_2_unmatched conf b) (fun _ => falls w) w1.
Proof. intros Hk H. unfold msg_2_unmatched. repeat goes_next H; light_tac Hk H. Qed.

Lemma matched_down w s w1 mic_len p pmk vlan foreign :
  light w s -> goes quiet w s w1 -> wp (msg_2_matched conf mic_len p pmk vlan foreign) (fun _ => falls w) w1.
Proof.
  intros Hk H. unfold msg_2_matched. pose proof (WpaAuthSafety.quiet_msg_2_key_data mic_len p).
  apply wp_bind. goes_still H. destruct a; [|goes_next H; light_tac Hk H].
  do 2 goes_next H. destruct (a.1 <? 0); [goes_next H; light_tac Hk H|]. apply wp_bind.
  eapply wp_mono; [refine (WpaAuthSafety.goes_check_msg_2 _ _ _ _ _ _ H _); apply Hk|]. cbv beta. clear H.
  intros ok w2 [H|[-> H]]; [|apply wp_ret; light_tac Hk H].
  apply wp_when; intros _; [|light_tac Hk H]. repeat goes_next H; light_tac Hk H.
Qed.

Lemma PTKCALCNEGOTIATING_down w :
  (sm w).(in_step_loop) = true ->
  (sm w).(Init) = false /\
    15 < given (sm w).(EAPOLKeyReceived) 3 + given (sm w).(update_snonce) 7 + ptk_weight (sm w).(wpa_ptk_state) ->
  wp (sm_WPA_PTK_PTKCALCNEGOTIATING_Enter conf) (fun _ => falls w) w.
Proof.
  intros Hl Hs. unfold sm_WPA_PTK_PTKCALCNEGOTIATING_Enter, enter. pose proof (goes_self quiet w) as H.
  do 6 goes_next H. cbv zeta.
  match type of H with goes _ _ ?s _ => assert (Hk : light w s) end.
  { split; [exact Hl|]. weigh_tac w Hs. }
  match type of H with goes _ _ ?s _ => generalize dependent s end. intros s H Hk. apply WpaAuthSafety.wp_pair.
  eapply wp_mono.
  { match goal with |- wp ?m _ ?w1 => refine ((_ : retries m) w1) end.
    retries_tac; first [apply retries_psk | apply retries_try]. }
  cbv beta. intros [psks found] w2 H2. cbn [fst snd]. destruct (goes_retried _ _ _ _ H H2) as (pmk & lr & H3).
  assert (Hk2 : light w (retry pmk lr s)) by exact Hk.
  destruct found as [[[[p pmk'] vlan] foreign]|]; [by eapply matched_down|by eapply unmatched_down].
Qed.

(** *** The end of the handshake, whose events are not quiet *)

Definition any_event (e : event) : Prop := True.

Lemma goes_any w s w' : goes quiet w s w' -> goes any_event w s w'.
Proof. by apply moves_mono. Qed.

Lemma still_any {A} (m : M A) : still quiet m -> still any_event m.
Proof. intros H w. eapply wp_mono; [apply H|]. intros a w'. by apply moves_mono. Qed.

Lemma any_emit e : still any_event (emit e).
Proof. by apply still_emit. Qed.

Lemma any_set_key vlan alg a idx key flag : still any_event (wpa_auth_set_key vlan alg a idx key flag).
Proof. apply still_bind; [apply any_emit|]. intros _. apply still_ask. Qed.

Lemma any_disconnect reason w s w1 :
  goes any_event w s w1 -> s.(in_step_loop) = true ->
  wp (disconnect_in_loop conf reason)
    (fun _ w' => goes any_event w s w' \/ goes any_event w (kicked s) w') w1.
Proof.
  intros H Hl. eapply wp_mono.
  - apply (goes_disconnect conf reason w1 (sm w1) w1); [apply goes_self|].
    by rewrite (goes_field in_step_loop _ _ _ _ (fun _ _ _ => eq_refl) H).
  - cbv beta. intros _ w2 [H2|H2]; [left|right].
    + exact (goes_then _ (fun s => s) _ _ _ _ (fun _ _ _ => eq_refl) H (goes_any _ _ _ H2)).
    + exact (goes_then _ kicked _ _ _ _ (fun _ _ _ => eq_refl) H (goes_any _ _ _ H2)).
Qed.

Ltac any_step H :=
  lazymatch goal with
  | |- wp (disconnect_in_loop _ _) _ _ =>
      eapply wp_mono; [refine (any_disconnect _ _ _ _ H _); assumption|]; cbv beta;
      let H' := fresh H in intros ? ? [H'|H']; clear H; rename H' into H
  | |- wp (when _ _) _ _ => apply wp_when; intros ?
  | |- wp (if _ then _ else _) _ _ => goes_step H
  | |- wp (mbind _ _) _ _ => goes_step H
  | |- wp (mret _) _ _ => goes_step H
  | |- wp skip _ _ => goes_step H
  | |- wp (the _) _ _ => goes_step H
  | |- wp (upd _) _ _ => goes_step H
  | |- wp _ _ _ =>
      apply (wp_still any_event);
      [ first [ apply any_set_key | apply any_emit | apply still_any; solve [still_tac] ]
      | let Hm := fresh in let H' := fresh H in
        intros ? ? Hm; pose proof (goes_moves _ _ _ _ _ H Hm) as H'; clear H Hm; rename H' into H ]
  end; cbv beta.

Lemma PTKINITDONE_down w :
  (sm w).(in_step_loop) = true ->
  (sm w).(Init) = false /\ (sm w).(EAPOLKeyReceived) = true /\ (sm w).(wpa_ptk_state) = WPA_PTK_PTKINITNEGOTIATING ->
  wp (sm_WPA_PTK_PTKINITDONE_Enter conf) (fun _ => falls w) w.
Proof.
  intros Hl Hs. unfold sm_WPA_PTK_PTKINITDONE_Enter, enter. pose proof (goes_self any_event w) as H.
  repeat any_step H.
  all: eapply goes_falls; [exact H|exact Hl|]; weigh_tac w Hs.
Qed.

End entries.

End WpaAuthWeight.
