(* ===== verification/WpaAuthLoop.v ===== *)
(** * The step loop of the WPA authenticator ends

    Every transition lowers the weight of the machines, so that [step_fuel]
    passes are enough; and the loop of passes that a failing random generator
    never lets end. *)

From Stdlib Require Import Ascii String.
From stdpp Require Import gmap.
From S2P Require Import Prelude WpaDefs Aes AesModes WpaKey Kde WpaAuth WpaAuthLogic WpaAuthSafety WpaAuthWeight.

Module WpaAuthLoop.
Import WpaDefs AesModes WpaKey Kde WpaAuth WpaAuthLogic WpaAuthWeight.

#[local] Open Scope Z_scope.
#[local] Open Scope list_scope.

(** ** The group machine in the hands of other stations *)

(** What a pass of the step loop of any station does to a group: its other
    fields change; while [GInit] is set the machine is held in GTK_INIT; a group
    that is asked for new keys makes them and answers the request; it goes on to
    SETKEYSDONE; or it fails.  No pass asks for new keys: [GTKReKey] is set by the
    timers and the requests of [wpa_rekey_gtk] only (wpa_auth.c:505), and [GInit]
    by the reinitialization of a group (709, 927). *)
Inductive group_turn (g g' : wpa_group) : Prop :=
| turn_data : g'.(GInit) = g.(GInit) -> g'.(GTKReKey) = g.(GTKReKey) -> g'.(wpa_group_state) = g.(wpa_group_state) -> group_turn g g'
| turn_gtk_init :
    g.(GInit) = true -> g'.(GInit) = true -> g'.(GTKReKey) = g.(GTKReKey) -> g'.(wpa_group_state) = WPA_GROUP_GTK_INIT -> group_turn g g'
| turn_setkeys :
    g.(GTKReKey) = true -> g.(wpa_group_state) = WPA_GROUP_SETKEYSDONE \/ g.(wpa_group_state) = WPA_GROUP_SETKEYS ->
    g'.(GInit) = g.(GInit) -> g'.(GTKReKey) = false -> g'.(wpa_group_state) = WPA_GROUP_SETKEYS -> group_turn g g'
| turn_setkeysdone :
    g.(wpa_group_state) = WPA_GROUP_GTK_INIT \/ g.(wpa_group_state) = WPA_GROUP_SETKEYS ->
    g'.(GInit) = g.(GInit) -> g'.(GTKReKey) = g.(GTKReKey) -> g'.(wpa_group_state) = WPA_GROUP_SETKEYSDONE -> group_turn g g'
| turn_failed :
    g'.(GInit) = g.(GInit) -> g'.(GTKReKey) = g.(GTKReKey) -> g'.(wpa_group_state) = WPA_GROUP_FATAL_FAILURE -> group_turn g g'.

(** The other stations' machines, which run the same code, do to the first group
    what passes do; that a pass of this station does so is [group_step_turns]. *)
Definition others_lawful `{HO : !Hostapd} : Prop :=
  forall n gs, option_Forall2 (rtc group_turn) (gs !! 0) (ask_others n gs !! 0).

Section loop.
Context `{HM : !Hmac} {ctx : Type} `{BC : !BlockCipher ctx} `{HO : !Hostapd} (conf : wpa_auth_config).
Notation station_weight := (station_weight conf).
Notation falls := (falls conf).
Notation down := (down conf).
Notation expired := (expired conf).
Notation weight := (weight conf).

(** The random generator works; what happens when it does not is below. *)
Context (Hrandom : forall n k, exists r, ask_random n k = Some r).

(** *** The pairwise machine *)

Lemma falls_refl w : (sm w).(in_step_loop) = true -> falls w w.
Proof. intros Hl. split; [done|apply down_refl]. Qed.

Lemma falls_from {A} (m : M A) w w1 :
  down w w1 -> wp m (fun _ => falls w1) w1 -> wp m (fun _ => falls w) w1.
Proof.
  intros Hd H. eapply wp_mono; [exact H|]. cbv beta. intros a w' [Hl Hd']. split; [done|]. by eapply down_trans.
Qed.

Lemma falls_skip w : (sm w).(in_step_loop) = true -> wp skip (fun _ => falls w) w.
Proof. intros Hl. by apply wp_ret, falls_refl. Qed.

(** A failure is counted. *)
Lemma failed_down (m : M unit) w :
  (forall n, wp m (fun _ => falls (w <| HandshakeFailures := n |>)) (w <| HandshakeFailures := n |>)) ->
  wp (handshake_failed ;; m) (fun _ => falls w) w.
Proof. intros H. apply wp_bind. intros [] w' [= <-]. apply H. Qed.

Lemma timed_out_down w :
  (sm w).(in_step_loop) = true -> (sm w).(Init) = false /\ 4 < ptk_weight (sm w).(wpa_ptk_state) ->
  wp (handshake_failed ;; upd (fun s => s <| disconnect_reason := WLAN_REASON_4WAY_HANDSHAKE_TIMEOUT |>) ;;
      sm_WPA_PTK_DISCONNECT_Enter conf) (fun _ => falls w) w.
Proof.
  intros Hl [Hi Hs]. apply failed_down. intros n. apply wp_bind, wp_upd. set (w1 := _ <| sm := _ |>).
  change (wp (sm_WPA_PTK_DISCONNECT_Enter conf) (fun _ => falls w1) w1).
  apply DISCONNECT_down; [exact Hl|]. split; [exact Hi|].
  change (4 < given (Disconnect (sm w)) 5 + ptk_weight (wpa_ptk_state (sm w))). unfold given. destruct (Disconnect (sm w)); lia.
Qed.

(** What the waiting of a reply weighs. *)
Lemma waiting_received s : reply_waiting s = true -> s.(EAPOLKeyReceived) = true.
Proof. unfold reply_waiting. by destruct (EAPOLKeyReceived s). Qed.

(** A side condition on weights, by what is known of the fields. *)
Ltac fields_tac :=
  split; [assumption|];
  repeat match goal with |- context [sm (set_field ?f ?v ?x)] => change (sm (set_field f v x)) with (sm x) end;
  repeat match goal with E : _ (sm _) = _ |- _ => rewrite E end; cbn [given ptk_weight];
  repeat match goal with |- context [given ?b ?n] => destruct b; cbn [given] end; first [done | lia].

Lemma asked_down {A} (m : M A) w :
  (forall n, wp m (fun _ => falls (w <| asked := n |>)) (w <| asked := n |>)) ->
  forall n, wp m (fun _ => falls w) (w <| asked := n |>).
Proof. intros H n. apply H. Qed.

Lemma Step_state_down w :
  (sm w).(in_step_loop) = true -> (sm w).(Init) = false ->
  wp (sm_WPA_PTK_Step_state conf w.(sm)) (fun _ => falls w) w.
Proof.
  intros Hl Hi. pose proof (falls_skip w Hl) as Hskip. pose proof (waiting_received (sm w)) as Hw.
  unfold sm_WPA_PTK_Step_state. cbv zeta. destruct (wpa_ptk_state (sm w)) eqn:Est.
  - exact Hskip.
  - apply DISCONNECTED_down; [done|fields_tac].
  - by apply INITIALIZE_down.
  - apply AUTHENTICATION2_down; [exact Hrandom|done|fields_tac].
  - apply wp_bind. assert (Hrun : forall keyRun n, wp
        (if negb (keyRun =? 0) then sm_WPA_PTK_INITPMK_Enter
         else if wpa_key_mgmt_wpa_psk (sta_key_mgmt (sm w)) || (sta_key_mgmt (sm w) =? WPA_KEY_MGMT_OWE) then sm_WPA_PTK_INITPSK_Enter
         else if sta_key_mgmt (sm w) =? WPA_KEY_MGMT_DPP then sm_WPA_PTK_INITPMK_Enter else skip)
        (fun _ => falls w) (w <| asked := n |>)).
    { intros r n. revert n. apply asked_down. intros n.
      destruct (negb (r =? 0)); [by apply INITPMK_down|]. destruct (_ || _); [by apply INITPSK_down|].
      destruct (_ =? _); [by apply INITPMK_down|by apply falls_skip]. }
    destruct (wpa_key_mgmt_wpa_ieee8021x _); [apply wp_ask; apply Hrun|apply wp_ret].
    specialize (Hrun 0 (asked w)). by destruct w.
  - apply wp_bind, wp_ask. generalize (S (asked w)). apply asked_down. intros n.
    destruct (negb _); [apply PTKSTART_down; [done|fields_tac]|].
    destruct (_ && _); [apply PTKSTART_down; [done|fields_tac]|].
    apply failed_down. intros f. apply DISCONNECT_down; [done|fields_tac].
  - apply wp_bind, wp_ask. generalize (S (asked w)). apply asked_down. intros n.
    destruct (negb _); [apply PTKSTART_down; [done|fields_tac]|].
    destruct (_ && _); [apply PTKSTART_down; [done|fields_tac]|].
    apply failed_down. intros f. apply DISCONNECT_down; [done|fields_tac].
  - destruct (reply_waiting (sm w)); [specialize (Hw eq_refl); apply PTKCALCNEGOTIATING_down; [done|fields_tac]|].
    destruct (_ <? _); [apply timed_out_down; [done|fields_tac]|].
    destruct (TimeoutEvt (sm w)) eqn:Et; [apply PTKSTART_down; [done|fields_tac]|exact Hskip].
  - destruct (MICVerified (sm w)); [by apply PTKCALCNEGOTIATING2_down|].
    destruct (reply_waiting (sm w)); [specialize (Hw eq_refl); apply PTKCALCNEGOTIATING_down; [done|fields_tac]|].
    destruct (TimeoutEvt (sm w)) eqn:Et; [apply PTKSTART_down; [done|fields_tac]|exact Hskip].
  - apply PTKINITNEGOTIATING_down; [done|fields_tac].
  - destruct (update_snonce (sm w)) eqn:Eu; [apply PTKCALCNEGOTIATING_down; [done|fields_tac]|].
    destruct (reply_waiting (sm w)); cbn [andb].
    + specialize (Hw eq_refl). destruct (MICVerified (sm w)); [by apply PTKINITDONE_down|].
      destruct (_ || _); [apply timed_out_down; [done|fields_tac]|].
      destruct (TimeoutEvt (sm w)) eqn:Et; [apply PTKINITNEGOTIATING_down; [done|fields_tac]|exact Hskip].
    + destruct (_ || _); [apply timed_out_down; [done|fields_tac]|].
      destruct (TimeoutEvt (sm w)) eqn:Et; [apply PTKINITNEGOTIATING_down; [done|fields_tac]|exact Hskip].
  - exact Hskip.
Qed.

Lemma Step_down w : (sm w).(in_step_loop) = true -> wp (sm_WPA_PTK_Step conf) (fun _ => falls w) w.
Proof.
  intros Hl. unfold sm_WPA_PTK_Step. apply wp_bind, wp_the_id.
  destruct (Init (sm w)) eqn:Hi; [by apply INITIALIZE_again|].
  pose proof (ptk_weight_bounds (wpa_ptk_state (sm w))).
  destruct (Disconnect (sm w)) eqn:Hd; [apply DISCONNECT_down; [done|fields_tac]|].
  destruct (DeauthenticationRequest (sm w)) eqn:Hx; [apply DISCONNECTED_down; [done|fields_tac]|].
  destruct (AuthenticationRequest (sm w)) eqn:Ha; [by apply AUTHENTICATION_down|].
  destruct (ReAuthenticationRequest (sm w)) eqn:Hr; [apply AUTHENTICATION2_down; [exact Hrandom|done|fields_tac]|].
  destruct (PTKRequest (sm w)) eqn:Hq; [|by apply Step_state_down].
  unfold wpa_auth_sm_ptk_update. apply wp_bind, wp_bind. eapply new_anonce_goes; [exact Hrandom|apply goes_self|].
  intros n w2 H2. apply wp_ret. cbn [Z.ltb Z.compare].
  assert (E : forall B (g : wpa_state_machine -> B), (forall n b s, g (drawn n b s) = g s) ->
    (forall s, g (s <| ANonce := n |> <| TimeoutCtr := 0 |>) = g s) -> g (sm w2) = g (sm w)).
  { intros B g Hg Hn. by rewrite (goes_field g _ _ _ _ Hg H2), Hn. }
  apply (falls_from _ w w2).
  - eapply goes_down; [exact H2|]. right. split; [|done].
    change (station_weight (sm w) <= station_weight (sm w)). lia.
  - apply PTKSTART_down; [by rewrite (E _ in_step_loop)|].
    rewrite (E _ Init), (E _ PTKRequest), (E _ TimeoutEvt), (E _ wpa_ptk_state) by done. fields_tac.
Qed.

(** ** The group key machine of the station *)

Lemma IDLE_again w :
  (sm w).(in_step_loop) = true -> (sm w).(Init) = true ->
  wp (sm_WPA_PTK_GROUP_IDLE_Enter ;; upd (fun s => s <| PtkGroupInit := false |>)) (fun _ => falls w) w.
Proof.
  intros Hl Hs. unfold sm_WPA_PTK_GROUP_IDLE_Enter, enter_group. pose proof (goes_self quiet w) as H.
  do 5 goes_next H. match goal with |- context [Init ?x] => change (Init x) with (Init (sm w)) end.
  rewrite Hs. cbn [when]. repeat goes_next H; (eapply goes_falls; [exact H|exact Hl|]; weigh_tac w Hs).
Qed.

Lemma IDLE_requested w :
  (sm w).(in_step_loop) = true -> (sm w).(Init) = false /\ (sm w).(PtkGroupInit) = true ->
  wp (sm_WPA_PTK_GROUP_IDLE_Enter ;; upd (fun s => s <| PtkGroupInit := false |>)) (fun _ => falls w) w.
Proof. intros Hl Hs. unfold sm_WPA_PTK_GROUP_IDLE_Enter, enter_group. entry_down w Hl Hs. Qed.

Lemma IDLE_down w :
  (sm w).(in_step_loop) = true -> (sm w).(Init) = false ->
  (sm w).(wpa_ptk_group_state) = WPA_PTK_GROUP_REKEYESTABLISHED \/ (sm w).(wpa_ptk_group_state) = WPA_PTK_GROUP_KEYERROR ->
  wp sm_WPA_PTK_GROUP_IDLE_Enter (fun _ => falls w) w.
Proof.
  intros Hl Hi [Hg|Hg]; pose proof (conj Hi Hg) as Hs; unfold sm_WPA_PTK_GROUP_IDLE_Enter, enter_group; entry_down w Hl Hs.
Qed.

Lemma REKEYESTABLISHED_down w :
  (sm w).(in_step_loop) = true ->
  (sm w).(Init) = false /\ (sm w).(wpa_ptk_group_state) = WPA_PTK_GROUP_REKEYNEGOTIATING ->
  wp sm_WPA_PTK_GROUP_REKEYESTABLISHED_Enter (fun _ => falls w) w.
Proof.
  intros Hl Hs. unfold sm_WPA_PTK_GROUP_REKEYESTABLISHED_Enter, enter_group. pose proof (goes_self quiet w) as H.
  do 7 goes_next H. match goal with |- context [when (GUpdateStationKeys ?x)] =>
    change (GUpdateStationKeys x) with (GUpdateStationKeys (sm w)) end.
  destruct (GUpdateStationKeys (sm w)) eqn:Eu; cbn [when]; pose proof (conj Eu Hs) as Hs2; repeat goes_next H;
    (eapply goes_falls; [exact H|exact Hl|]; weigh_tac w Hs2).
Qed.

Lemma KEYERROR_down w :
  (sm w).(in_step_loop) = true ->
  (sm w).(Init) = false /\ (sm w).(wpa_ptk_group_state) = WPA_PTK_GROUP_REKEYNEGOTIATING ->
  wp (sm_WPA_PTK_GROUP_KEYERROR_Enter conf) (fun _ => falls w) w.
Proof.
  intros Hl Hs. unfold sm_WPA_PTK_GROUP_KEYERROR_Enter, enter_group. pose proof (goes_self quiet w) as H.
  do 5 goes_next H. match goal with |- context [when (GUpdateStationKeys ?x)] =>
    change (GUpdateStationKeys x) with (GUpdateStationKeys (sm w)) end.
  destruct (GUpdateStationKeys (sm w)) eqn:Eu; cbn [when]; pose proof (conj Eu Hs) as Hs2; repeat goes_next H;
    (eapply goes_falls; [exact H|exact Hl|]; weigh_tac w Hs2).
Qed.

(** At least one message of a group key handshake is sent. *)
Context (Hcount : 1 <= conf.(wpa_group_update_count)).

(** The machine with one more group message counted. *)
Definition negotiates (s : wpa_state_machine) : wpa_state_machine :=
  s <| changed := true |> <| wpa_ptk_group_state := WPA_PTK_GROUP_REKEYNEGOTIATING |>
    <| GTimeoutCtr := u32 (s.(GTimeoutCtr) + 1) |>.

(** The message goes out, or the handshake has used up its messages. *)
Lemma REKEYNEGOTIATING_goes w :
  wp (sm_WPA_PTK_GROUP_REKEYNEGOTIATING_Enter conf)
    (fun _ w' => exists s, goes quiet w s w' /\
      (expired (negotiates (sm w)) = true /\ s = negotiates (sm w) \/
       expired (negotiates (sm w)) = false /\
         (s.(PInitAKeys) = (if (sm w).(wpa) =? WPA_VERSION_WPA then false else (sm w).(PInitAKeys))) /\
         exists b, s = (negotiates (sm w)) <| PInitAKeys := b |> <| TimeoutEvt := false |>)) w.
Proof.
  unfold sm_WPA_PTK_GROUP_REKEYNEGOTIATING_Enter, enter_group. pose proof (goes_self quiet w) as H.
  do 6 goes_next H. change (goes quiet w (negotiates (sm w)) v0) in H.
  match goal with |- context [GTimeoutCtr ?x] => change x with (negotiates (sm w)) end.
  set (s1 := negotiates (sm w)) in *. assert (Hw : wpa s1 = wpa (sm w)) by done. assert (Hp : PInitAKeys s1 = PInitAKeys (sm w)) by done.
  clearbody s1. unfold expired.
  destruct (wpa_disable_eapol_key_retries conf && (1 <? GTimeoutCtr s1)) eqn:E1.
  { goes_next H. exists s1. split; [exact H|]. left. split; [apply orb_true_r|done]. }
  destruct (wpa_group_update_count conf <? GTimeoutCtr s1) eqn:E2.
  { goes_next H. exists s1. split; [exact H|]. by left. }
  rewrite Hw. goes_next H. destruct (wpa (sm w) =? WPA_VERSION_WPA) eqn:E3; cbn [when].
  - repeat goes_next H; (eexists; split; [exact H|right; split; [done|split; [done|by exists false]]]).
  - repeat goes_next H; (eexists; split; [exact H|right; split; [done|split; [exact Hp|exists (PInitAKeys s1); by destruct s1]]]).
Qed.

Lemma expired_first s : s.(GTimeoutCtr) = 0 -> expired (negotiates s) = false.
Proof.
  intros E. unfold expired. change (GTimeoutCtr (negotiates s)) with (u32 (GTimeoutCtr s + 1)). rewrite E.
  change (u32 (0 + 1)) with 1. rewrite andb_false_r, orb_false_r. apply Z.ltb_ge. exact Hcount.
Qed.

(** Why a group key handshake starts or sends again. *)
Definition group_due (s : wpa_state_machine) : Prop :=
  s.(wpa_ptk_group_state) = WPA_PTK_GROUP_IDLE /\
    s.(GUpdateStationKeys) || ((s.(wpa) =? WPA_VERSION_WPA) && s.(PInitAKeys)) = true \/
  s.(wpa_ptk_group_state) = WPA_PTK_GROUP_REKEYNEGOTIATING /\ expired s = false /\ s.(TimeoutEvt) = true.

Lemma negotiates_lighter s : 
  s.(Init) = false -> group_due s -> expired (negotiates s) = true -> station_weight (negotiates s) < station_weight s.
Proof.
  intros Hi Hd He. assert (H0 : (GTimeoutCtr s =? 0) = false).
  { destruct (Z.eqb_spec (GTimeoutCtr s) 0) as [E|]; [|done]. by rewrite expired_first in He. }
  revert Hi Hd He H0. unfold group_due, negotiates. clear. destruct s. weights.
  intros -> Hd He H0. rewrite H0, He. cbn [negb].
  destruct Hd as [[-> Hd]|(-> & -> & ->)]; bound_conditions; intros; lia.
Qed.

Lemma negotiated_lighter s b :
  s.(Init) = false -> group_due s -> expired (negotiates s) = false ->
  b = (if s.(wpa) =? WPA_VERSION_WPA then false else s.(PInitAKeys)) ->
  station_weight ((negotiates s) <| PInitAKeys := b |> <| TimeoutEvt := false |>) < station_weight s.
Proof.
  intros Hi Hd He ->. revert Hi Hd He. unfold group_due, negotiates. clear. destruct s. weights.
  intros -> Hd He. rewrite He.
  destruct Hd as [[-> Hd]|(-> & -> & ->)]; [|destruct (wpa0 =? WPA_VERSION_WPA); cbn [andb]; bound_conditions; intros; lia].
  destruct GUpdateStationKeys0; cbn [orb] in Hd.
  - destruct (wpa0 =? WPA_VERSION_WPA); cbn [andb]; bound_conditions; intros; lia.
  - rewrite Hd. apply andb_prop in Hd as [-> _]. cbn [andb]. bound_conditions; intros; lia.
Qed.

Lemma REKEYNEGOTIATING_down w :
  (sm w).(in_step_loop) = true -> (sm w).(Init) = false -> group_due (sm w) ->
  wp (sm_WPA_PTK_GROUP_REKEYNEGOTIATING_Enter conf) (fun _ => falls w) w.
Proof.
  intros Hl Hi Hd. eapply wp_mono; [apply REKEYNEGOTIATING_goes|]. cbv beta. intros _ w' (s & H & Hc).
  destruct Hc as [[He ->]|(He & Hb & b & ->)].
  - eapply goes_falls; [exact H|exact Hl|left]. by apply negotiates_lighter.
  - eapply goes_falls; [exact H|exact Hl|left]. by apply negotiated_lighter.
Qed.

Lemma Group_Step_down w : (sm w).(in_step_loop) = true -> wp (sm_WPA_PTK_GROUP_Step conf) (fun _ => falls w) w.
Proof.
  intros Hl. pose proof (falls_skip w Hl) as Hskip. unfold sm_WPA_PTK_GROUP_Step. apply wp_bind, wp_the_id.
  destruct (Init (sm w)) eqn:Hi; [by apply IDLE_again|]. cbn [orb].
  destruct (PtkGroupInit (sm w)) eqn:Hp; [by apply IDLE_requested|].
  destruct (wpa_ptk_group_state (sm w)) eqn:Hg.
  - apply wp_when; intros Hd; [|by apply falls_refl]. apply REKEYNEGOTIATING_down; [done..|by left].
  - destruct (_ && _ && _ && _); [by apply REKEYESTABLISHED_down|].
    destruct (_ || _) eqn:He; [by apply KEYERROR_down|].
    apply wp_when; intros Ht; [|by apply falls_refl]. apply REKEYNEGOTIATING_down; [done..|by right].
  - apply IDLE_down; auto.
  - apply IDLE_down; auto.
Qed.

(** ** The group machine of the access point *)

Context (Hlawful : others_lawful).

Lemma turn_weight g g' : group_turn g g' -> access_weight g' <= access_weight g.
Proof.
  unfold access_weight. intros [Hi Hk Hs | Hi Hi' Hk Hs | Hk Hst Hi Hk' Hs | Hst Hi Hk Hs | Hi Hk Hs];
    rewrite ?Hi, ?Hi', ?Hk', ?Hk, ?Hs; try done; (destruct (GInit g); [done|]).
  - destruct Hst as [-> | ->]; cbn; lia.
  - destruct Hst as [-> | ->], (GTKReKey g); cbn; lia.
  - destruct (wpa_group_state g), (GTKReKey g); cbn; lia.
Qed.

(** The machines of the other stations leave the first group no more to do. *)
Lemma others_weight n gs : groups_weight (ask_others n gs) <= groups_weight gs.
Proof.
  unfold groups_weight. destruct (Hlawful n gs) as [g g' H|]; [|done].
  induction H as [|a b c H _ IH]; [lia|]. pose proof (turn_weight _ _ H). lia.
Qed.

(** In the loop, with at most the weight [n]. *)
Definition below (n : Z) (w : world) : Prop := w.(sm).(in_step_loop) = true /\ weight w <= n.

Lemma below_quiet {A} n (m : M A) w : still quiet m -> below n w -> wp m (fun _ => below n) w.
Proof.
  intros Hm [Hl Hn]. eapply wp_mono; [apply Hm|]. cbv beta. intros a w' ((k & b & E) & _ & Hg).
  apply same_sched_weight in Hg as [Hw _]. split; [by rewrite E|]. unfold WpaAuthWeight.weight.
  by rewrite E, Hw, station_weight_drawn.
Qed.

Lemma below_upd n d f w :
  below n w -> (forall s, in_step_loop (f s) = in_step_loop s /\ station_weight (f s) <= station_weight s + d) ->
  wp (upd f) (fun _ => below (n + d)) w.
Proof.
  intros [Hl Hn] Hf. apply wp_upd. destruct (Hf (sm w)) as [El Hd]. split; [exact (eq_trans El Hl)|].
  change (station_weight (f (sm w)) + groups_weight (groups w) <= n + d). unfold WpaAuthWeight.weight in Hn. lia.
Qed.

Lemma below_upd_group n f w :
  below n w -> (forall g, access_weight (f g) <= access_weight g) -> wp (upd_group 0 f) (fun _ => below n) w.
Proof.
  intros [Hl Hn] Hf. apply wp_upd_group. intros g Hg. split; [exact Hl|].
  change (station_weight (sm w) + groups_weight (<[0 := f g]> (groups w)) <= n).
  unfold WpaAuthWeight.weight in Hn. unfold groups_weight in *. rewrite Hg in Hn. rewrite lookup_insert, decide_True by done.
  specialize (Hf g). lia.
Qed.

Lemma below_others n w : below n w -> wp others (fun _ => below n) w.
Proof.
  intros [Hl Hn] a w' [= <- <-]. split; [exact Hl|]. unfold WpaAuthWeight.weight in *.
  change (station_weight (sm w) + groups_weight (ask_others (asked w) (groups w)) <= n).
  pose proof (others_weight (asked w) (groups w)). lia.
Qed.

Lemma given_bounds b n : 0 <= n -> 0 <= given b n <= n.
Proof. destruct b; cbn; lia. Qed.

Lemma disconnect_weight s : station_weight (s <| Disconnect := true |>) <= station_weight s + 5.
Proof. destruct s. weights. destruct Init0, Disconnect0; lia. Qed.

Lemma update_weight b s : station_weight (s <| GUpdateStationKeys := b |>) <= station_weight s + 9.
Proof.
  destruct s. weights. destruct Init0; [lia|]. destruct wpa_ptk_group_state0, b, GUpdateStationKeys0; lia.
Qed.

Lemma fatal_weight g :
  access_weight (g <| g_changed := true |> <| wpa_group_state := WPA_GROUP_FATAL_FAILURE |>) <= access_weight g.
Proof.
  unfold access_weight. change (GInit (g <| g_changed := true |> <| wpa_group_state := WPA_GROUP_FATAL_FAILURE |>)) with (GInit g).
  destruct (GInit g); [lia|]. change (given (GTKReKey g) 17 + 0 <= given (GTKReKey g) 17 +
    match wpa_group_state g with WPA_GROUP_FATAL_FAILURE => 0 | WPA_GROUP_SETKEYSDONE => 1 | _ => 7 end).
  destruct (wpa_group_state g); lia.
Qed.

(** An assignment to a group known to be in the map. *)
Lemma lowered_group n g f w :
  groups w !! 0 = Some g -> below n w -> (sm w).(in_step_loop) = true ->
  wp (upd_group 0 f) (fun _ => below (n - access_weight g + access_weight (f g))) w.
Proof.
  intros Hg [_ Hn] Hl. apply wp_upd_group. intros g' Hg'. assert (g' = g) as -> by congruence. split; [exact Hl|].
  change (station_weight (sm w) + groups_weight (<[0 := f g]> (groups w)) <= n - access_weight g + access_weight (f g)).
  unfold WpaAuthWeight.weight in Hn. unfold groups_weight in *. rewrite Hg in Hn. rewrite lookup_insert, decide_True by done. lia.
Qed.

Lemma below_less n n' w : below n w -> n <= n' -> below n' w.
Proof. intros [Hl Hn] H. split; [done|lia]. Qed.

Lemma below_falls n w w' : below n w' -> n < weight w -> falls w w'.
Proof. intros [Hl Hn] H. split; [done|left; unfold WpaAuthWeight.weight in *; lia]. Qed.

Lemma visits_below n d visit w :
  (forall w, below n w -> wp visit (fun _ => below (n + d)) w) -> below n w ->
  wp (wpa_auth_for_each_sta visit) (fun _ => below (n + d)) w.
Proof.
  intros Hv H. unfold wpa_auth_for_each_sta. apply wp_bind. eapply wp_mono; [by apply below_others|]. cbv beta.
  intros _ w1 H1. apply wp_bind. eapply wp_mono; [by apply Hv|]. cbv beta. intros _ w2 H2. by apply below_others.
Qed.

Lemma fatal_below n w : below n w -> wp (wpa_group_fatal_failure 0) (fun _ => below (n + 5)) w.
Proof.
  intros H. unfold wpa_group_fatal_failure. apply wp_bind.
  eapply wp_mono; [apply below_upd_group; [exact H|exact fatal_weight]|]. cbv beta. intros _ w1 H1.
  apply visits_below; [|exact H1]. clear. intros w H. apply wp_bind, wp_the_id, wp_when; intros _.
  - apply (below_upd _ 5); [exact H|]. intros s. split; [done|apply disconnect_weight].
  - eapply below_less; [exact H|lia].
Qed.

Lemma update_sta_below n w : below n w -> wp (wpa_group_update_sta in_loop 0) (fun _ => below (n + 9)) w.
Proof.
  intros H. unfold wpa_group_update_sta. apply wp_bind, wp_the_id.
  assert (H9 : below (n + 9) w) by (eapply below_less; [exact H|lia]).
  assert (Hu : forall b w, below n w -> wp (upd (fun s => s <| GUpdateStationKeys := b |>)) (fun _ => below (n + 9)) w).
  { clear. intros b w H. apply (below_upd _ 9); [exact H|]. intros s. split; [done|apply update_weight]. }
  destruct (negb _); [by apply wp_ret|]. destruct (negb _); [by apply Hu|].
  destruct (is_wnmsleep _); [by apply wp_ret|]. apply wp_bind.
  eapply wp_mono; [apply below_upd_group; [exact H|done]|]. cbv beta. intros _ w1 H1. apply wp_bind.
  eapply wp_mono; [by apply Hu|]. cbv beta. intros _ w2 H2. apply wp_bind. unfold in_loop. by apply wp_ret, wp_ret.
Qed.

Lemma below_self w : (sm w).(in_step_loop) = true -> below (weight w) w.
Proof. intros Hl. split; [done|lia]. Qed.

Lemma setkeysdone_falls w g :
  (sm w).(in_step_loop) = true -> groups w !! 0 = Some g -> g.(GInit) = false ->
  g.(wpa_group_state) = WPA_GROUP_GTK_INIT \/ g.(wpa_group_state) = WPA_GROUP_SETKEYS ->
  wp (wpa_group_setkeysdone conf 0) (fun _ => falls w) w.
Proof.
  intros Hl Hg Hi Hst. unfold wpa_group_setkeysdone. apply wp_bind.
  eapply wp_mono; [apply (lowered_group (weight w) g); [exact Hg|by apply below_self|exact Hl]|]. cbv beta. intros _ w1 H1.
  assert (H2 : below (weight w - 6) w1).
  { eapply below_less; [exact H1|]. unfold access_weight.
    change (GInit (g <| g_changed := true |> <| wpa_group_state := WPA_GROUP_SETKEYSDONE |>)) with (GInit g).
    rewrite Hi. change (GTKReKey (g <| g_changed := true |> <| wpa_group_state := WPA_GROUP_SETKEYSDONE |>)) with (GTKReKey g).
    change (wpa_group_state (g <| g_changed := true |> <| wpa_group_state := WPA_GROUP_SETKEYSDONE |>)) with WPA_GROUP_SETKEYSDONE.
    destruct Hst as [-> | ->]; lia. }
  apply wp_bind. eapply wp_mono; [apply below_quiet; [still_tac|exact H2]|]. cbv beta. intros r w2 H3.
  destruct (r <? 0).
  - apply wp_bind. eapply wp_mono; [by apply fatal_below|]. cbv beta. intros _ w3 H4. apply wp_ret.
    eapply below_falls; [exact H4|lia].
  - apply wp_ret. eapply below_falls; [exact H3|lia].
Qed.

Lemma setkeys_falls w g :
  (sm w).(in_step_loop) = true -> groups w !! 0 = Some g -> g.(GInit) = false -> g.(GTKReKey) = true ->
  g.(wpa_group_state) = WPA_GROUP_SETKEYSDONE \/ g.(wpa_group_state) = WPA_GROUP_SETKEYS ->
  wp (wpa_group_setkeys conf in_loop 0) (fun _ => falls w) w.
Proof.
  intros Hl Hg Hi Hk Hst. unfold wpa_group_setkeys, wpa_group_update_gtk. apply wp_bind.
  eapply wp_mono; [apply (lowered_group (weight w) g); [exact Hg|by apply below_self|exact Hl]|]. cbv beta. intros _ w1 H1.
  assert (H2 : below (weight w - 11) w1).
  { eapply below_less; [exact H1|]. unfold access_weight.
    change (GInit (g <| g_changed := true |> <| wpa_group_state := WPA_GROUP_SETKEYS |> <| GTKReKey := false |>)) with (GInit g).
    rewrite Hi, Hk.
    change (weight w - (17 + match wpa_group_state g with WPA_GROUP_FATAL_FAILURE => 0 | WPA_GROUP_SETKEYSDONE => 1 | _ => 7 end) +
      7 <= weight w - 11).
    destruct Hst as [-> | ->]; lia. }
  apply wp_bind, wp_bind. eapply wp_mono; [apply below_upd_group; [exact H2|done]|]. cbv beta. intros _ w2 H3.
  apply wp_bind. eapply wp_mono; [apply below_quiet; [still_tac|exact H3]|]. cbv beta. intros r w3 H4. apply wp_ret.
  apply wp_bind. eapply wp_mono; [apply below_upd_group; [exact H4|done]|]. cbv beta. intros _ w4 H5.
  eapply wp_mono; [apply visits_below; [|exact H5]; intros w' H'; by apply update_sta_below|].
  cbv beta. intros _ w5 H6. eapply below_falls; [exact H6|lia].
Qed.

Lemma still_falls {A} (m : M A) w : still quiet m -> (sm w).(in_step_loop) = true -> wp m (fun _ => falls w) w.
Proof.
  intros Hm Hl. eapply wp_mono; [apply Hm|]. cbv beta. intros a w' H.
  eapply goes_falls; [exact (goes_moves _ _ _ _ _ (goes_self quiet w) H)|exact Hl|]. right. split; [lia|done].
Qed.

Lemma gtk_init_falls w g :
  (sm w).(in_step_loop) = true -> groups w !! 0 = Some g -> g.(GInit) = true ->
  wp (wpa_group_gtk_init conf 0) (fun _ => falls w) w.
Proof.
  intros Hl Hg Hi. unfold wpa_group_gtk_init. apply wp_bind, wp_upd_group. intros g' Hg'.
  assert (g' = g) as -> by congruence. set (g1 := g <| g_changed := _ |> <| wpa_group_state := _ |> <| GTK := _ |>
    <| GN := _ |> <| GM := _ |> <| GN_igtk := _ |> <| GM_igtk := _ |> <| GN_bigtk := _ |> <| GM_bigtk := _ |>).
  assert (E : GInit g1 = true) by exact Hi. assert (Ec : g_changed g1 = false) by reflexivity. clearbody g1.
  set (w1 := w <| groups := _ |>). apply (falls_from _ w w1).
  - right. unfold WpaAuthWeight.weight, marked. change (sm w1) with (sm w).
    change (groups w1) with (<[0 := g1]> (groups w)). unfold groups_weight. rewrite lookup_insert, decide_True, Hg by done.
    unfold access_weight. rewrite E, Hi, Ec. split; [lia|]. rewrite orb_false_r. intros ->. done.
  - apply still_falls; [still_tac|exact Hl].
Qed.

Lemma group_step_falls w : (sm w).(in_step_loop) = true -> wp (wpa_group_sm_step conf in_loop 0) (fun _ => falls w) w.
Proof.
  intros Hl. pose proof (falls_refl w Hl) as Hr. unfold wpa_group_sm_step. apply wp_bind, wp_get_group. intros g Hg.
  destruct (GInit g) eqn:Hi; [by eapply gtk_init_falls|].
  assert (Hdone : wpa_group_state g = WPA_GROUP_GTK_INIT \/ wpa_group_state g = WPA_GROUP_SETKEYS ->
    wp (_ ← wpa_group_setkeysdone conf 0; skip) (fun _ => falls w) w).
  { intros Hst. apply wp_bind. eapply wp_mono; [by eapply setkeysdone_falls|]. cbv beta. intros _ w1 H1. by apply wp_ret. }
  destruct (wpa_group_state g) eqn:Hst.
  - apply wp_when; intros _; [|exact Hr]. apply Hdone. by left.
  - destruct (_ =? 0); [apply Hdone; by right|]. apply wp_when; intros Hk; [|exact Hr].
    eapply setkeys_falls; [exact Hl|exact Hg|exact Hi|exact Hk|by right].
  - apply wp_when; intros Hk; [|exact Hr]. eapply setkeys_falls; [exact Hl|exact Hg|exact Hi|exact Hk|by left].
  - by apply wp_ret.
Qed.

(** ** Passes *)

Lemma marked_again w g : groups w !! 0 = Some g -> changed (sm w) || g_changed g = marked w.
Proof. intros E. unfold marked. by rewrite E. Qed.

Lemma step_pass_falls w :
  (sm w).(in_step_loop) = true ->
  wp (step_pass conf) (fun again w' => (sm w').(in_step_loop) = true /\ (again = true -> weight w' < weight w)) w.
Proof.
  intros Hl. unfold step_pass. apply wp_bind, wp_the_id. destruct (pending_deinit (sm w)); [by apply wp_ret|].
  apply wp_bind, wp_upd, wp_bind, wp_upd_group. intros g Hg. set (w2 := _ <| groups := _ |>).
  change (groups w !! 0 = Some g) in Hg.
  assert (H2 : (sm w2).(in_step_loop) = true /\ weight w2 = weight w /\ marked w2 = false).
  { split; [exact Hl|]. unfold WpaAuthWeight.weight, marked.
    change (groups w2) with (<[0 := g <| g_changed := false |>]> (groups w)).
    change (station_weight (sm w2)) with (station_weight (sm w)).
    unfold groups_weight. rewrite lookup_insert, decide_True, Hg by done. done. }
  destruct H2 as (Hl2 & Hw2 & Hm2). rewrite <- Hw2. clearbody w2. clear w Hl g Hg Hw2.
  apply wp_bind. eapply wp_mono; [by apply Step_down|]. cbv beta. intros _ w3 [Hl3 H3].
  apply wp_bind, wp_the_id. destruct (pending_deinit (sm w3)); [by apply wp_ret|].
  apply wp_bind. eapply wp_mono; [by apply Group_Step_down|]. cbv beta. intros _ w4 [Hl4 H4].
  apply wp_bind, wp_the_id. destruct (pending_deinit (sm w4)); [by apply wp_ret|].
  apply wp_bind. eapply wp_mono; [by apply group_step_falls|]. cbv beta. intros _ w5 [Hl5 H5].
  apply wp_bind, wp_the_id, wp_bind, wp_get_group. intros g Hg. apply wp_ret. split; [done|].
  rewrite (marked_again _ _ Hg). intros Hm.
  destruct (down_trans _ _ _ _ (down_trans _ _ _ _ H3 H4) H5) as [H|[_ H]]; [exact H|]. rewrite H in Hm2 by done. done.
Qed.

Lemma weight_nonneg w : 0 <= weight w.
Proof.
  unfold WpaAuthWeight.weight. assert (0 <= station_weight (sm w)).
  { unfold WpaAuthWeight.station_weight, group_weight. destruct (Init (sm w)); [done|].
    pose proof (ptk_weight_bounds (wpa_ptk_state (sm w))).
    repeat match goal with |- context [given ?b ?n] =>
      pose proof (given_bounds b n ltac:(done)); generalize dependent (given b n); intros end.
    destruct (wpa_ptk_group_state (sm w)), (expired (sm w)); lia. }
  assert (0 <= groups_weight (groups w)); [|lia].
  unfold groups_weight. destruct (groups w !! 0) as [g|]; [|done]. unfold access_weight.
  destruct (GInit g), (GTKReKey g), (wpa_group_state g); cbn; lia.
Qed.

Lemma step_loop_falls fuel w :
  (sm w).(in_step_loop) = true -> weight w < Z.of_nat fuel -> wp (step_loop conf fuel) (fun d _ => d = true) w.
Proof.
  revert w. induction fuel as [|fuel IH]; intros w Hl Hf; cbn [step_loop]; [pose proof (weight_nonneg w); lia|].
  apply wp_bind. eapply wp_mono; [by apply step_pass_falls|]. cbv beta. intros again w1 [Hl1 Hw]. destruct again.
  - apply IH; [done|]. specialize (Hw eq_refl). lia.
  - by apply wp_ret.
Qed.

Lemma weight_bound w : weight w <= 160.
Proof.
  unfold WpaAuthWeight.weight. assert (station_weight (sm w) <= 136).
  { unfold WpaAuthWeight.station_weight, group_weight. destruct (Init (sm w)); [done|].
    pose proof (ptk_weight_bounds (wpa_ptk_state (sm w))).
    repeat match goal with |- context [given ?b ?n] =>
      pose proof (given_bounds b n ltac:(done)); generalize dependent (given b n); intros end.
    destruct (wpa_ptk_group_state (sm w)), (expired (sm w)); lia. }
  assert (groups_weight (groups w) <= 24); [|lia].
  unfold groups_weight. destruct (groups w !! 0) as [g|]; [|done]. unfold access_weight.
  destruct (GInit g), (GTKReKey g), (wpa_group_state g); cbn; lia.
Qed.

End loop.

(** *** The group machine makes such turns *)

Section turns.
Context `{HM : !Hmac} {ctx : Type} `{BC : !BlockCipher ctx} `{HO : !Hostapd} (conf : wpa_auth_config).
Context (Hlawful : others_lawful).

(** The first group is [g] after some turns. *)
Definition turned (g : wpa_group) (w : world) : Prop := exists g', w.(groups) !! 0 = Some g' /\ rtc group_turn g g'.

Lemma turned_quiet {A} g (m : M A) w : still quiet m -> turned g w -> wp m (fun _ => turned g) w.
Proof.
  intros Hm (g1 & E & H). eapply wp_mono; [apply Hm|]. cbv beta. intros _ w' (_ & _ & Hg). specialize (Hg 0).
  rewrite E in Hg. destruct (groups w' !! 0) as [g2|] eqn:E2; [|done].
  change (Some (sched g2) = Some (sched g1)) in Hg. injection Hg as E3 E4 E5 _ E6.
  exists g2. split; [exact E2|]. eapply rtc_r; [exact H|]. by apply turn_data.
Qed.

Lemma turned_group g f w :
  turned g w -> (forall g', w.(groups) !! 0 = Some g' -> group_turn g' (f g')) -> wp (upd_group 0 f) (fun _ => turned g) w.
Proof.
  intros (g1 & E & H) Hf. apply wp_upd_group. intros g' Eg. exists (f g'). split.
  - change (<[0 := f g']> (groups w) !! 0 = Some (f g')). by rewrite lookup_insert, decide_True.
  - assert (g' = g1) as -> by congruence. eapply rtc_r; [exact H|by apply Hf].
Qed.

(** The visit of a machine that does not step. *)
Lemma turned_visits g visit w :
  (forall w, turned g w -> wp visit (fun _ => turned g) w) -> turned g w ->
  wp (wpa_auth_for_each_sta visit) (fun _ => turned g) w.
Proof.
  assert (Ho : forall w, turned g w -> wp others (fun _ => turned g) w).
  { intros w0 (g1 & E & H) a w' [= <- <-].
    change (exists g', ask_others (asked w0) (groups w0) !! 0 = Some g' /\ rtc group_turn g g'). destruct (Hlawful (asked w0) (groups w0)) as [? g2 H2|]; [|done]. injection E as ->.
    exists g2. split; [done|]. by etrans. }
  intros Hv H. unfold wpa_auth_for_each_sta. apply wp_bind. eapply wp_mono; [by apply Ho|]. cbv beta.
  intros _ w1 H1. apply wp_bind. eapply wp_mono; [by apply Hv|]. cbv beta. intros _ w2 H2. by apply Ho.
Qed.

Lemma turned_fatal g w : turned g w -> wp (wpa_group_fatal_failure 0) (fun _ => turned g) w.
Proof.
  intros H. unfold wpa_group_fatal_failure. apply wp_bind.
  eapply wp_mono; [apply turned_group; [exact H|intros; by apply turn_failed]|]. cbv beta. intros _ w1 H1.
  apply turned_visits; [|exact H1]. clear. intros w H. apply wp_bind, wp_the_id, wp_when; intros _; [|exact H]. by apply wp_upd.
Qed.

Lemma turned_setkeysdone g w :
  turned g w ->
  (forall g', w.(groups) !! 0 = Some g' -> g'.(wpa_group_state) = WPA_GROUP_GTK_INIT \/ g'.(wpa_group_state) = WPA_GROUP_SETKEYS) ->
  wp (wpa_group_setkeysdone conf 0) (fun _ => turned g) w.
Proof.
  intros H Hst. unfold wpa_group_setkeysdone. apply wp_bind.
  eapply wp_mono; [apply turned_group; [exact H|intros g' E; apply turn_setkeysdone; [by apply Hst|done..]]|].
  cbv beta. intros _ w1 H1. apply wp_bind. eapply wp_mono; [apply turned_quiet; [still_tac|exact H1]|].
  cbv beta. intros r w2 H2. destruct (r <? 0); [|by apply wp_ret].
  apply wp_bind. eapply wp_mono; [by apply turned_fatal|]. cbv beta. intros _ w3 H3. by apply wp_ret.
Qed.

Lemma turned_setkeys g w :
  turned g w ->
  (forall g', w.(groups) !! 0 = Some g' -> g'.(GTKReKey) = true /\
     (g'.(wpa_group_state) = WPA_GROUP_SETKEYSDONE \/ g'.(wpa_group_state) = WPA_GROUP_SETKEYS)) ->
  wp (wpa_group_setkeys conf in_loop 0) (fun _ => turned g) w.
Proof.
  intros H Hst. unfold wpa_group_setkeys, wpa_group_update_gtk. apply wp_bind.
  eapply wp_mono; [apply turned_group; [exact H|intros g' E; destruct (Hst g' E); by apply turn_setkeys]|].
  cbv beta. intros _ w1 H1. apply wp_bind, wp_bind.
  eapply wp_mono; [apply turned_group; [exact H1|intros; by apply turn_data]|]. cbv beta. intros _ w2 H2.
  apply wp_bind. eapply wp_mono; [apply turned_quiet; [still_tac|exact H2]|]. cbv beta. intros _ w3 H3.
  apply wp_ret, wp_bind. eapply wp_mono; [apply turned_group; [exact H3|intros; by apply turn_data]|]. cbv beta.
  intros _ w4 H4. apply turned_visits; [|exact H4]. clear. intros w H. unfold wpa_group_update_sta.
  apply wp_bind, wp_the_id. destruct (negb _); [by apply wp_ret|]. destruct (negb _); [by apply wp_upd|].
  destruct (is_wnmsleep _); [by apply wp_ret|]. apply wp_bind.
  eapply wp_mono; [apply turned_group; [exact H|intros; by apply turn_data]|]. cbv beta. intros _ w1 H1.
  apply wp_bind, wp_upd, wp_bind. unfold in_loop. by apply wp_ret, wp_ret.
Qed.

(** The group machine of this station's pass is lawful for the others. *)
Lemma group_step_turns g w :
  w.(groups) !! 0 = Some g -> wp (wpa_group_sm_step conf in_loop 0) (fun _ => turned g) w.
Proof.
  intros E. assert (H : turned g w) by (exists g; by split). unfold wpa_group_sm_step. apply wp_bind, wp_get_group.
  intros g' E'. assert (g' = g) as -> by congruence. clear E'. destruct (GInit g) eqn:Hi.
  - unfold wpa_group_gtk_init. apply wp_bind.
    eapply wp_mono; [apply turned_group; [exact H|]|].
    + intros g' E'. assert (g' = g) as -> by congruence. by apply turn_gtk_init.
    + cbv beta. intros _ w1 H1. apply wp_bind. eapply wp_mono; [apply turned_quiet; [still_tac|exact H1]|].
      cbv beta. intros _ w2 H2. by apply wp_ret.
  - assert (Hdone : wpa_group_state g = WPA_GROUP_GTK_INIT \/ wpa_group_state g = WPA_GROUP_SETKEYS ->
      wp (_ ← wpa_group_setkeysdone conf 0; skip) (fun _ => turned g) w).
    { intros Hst. apply wp_bind. eapply wp_mono; [apply turned_setkeysdone; [exact H|]|].
      - intros g' E'. by assert (g' = g) as -> by congruence.
      - cbv beta. intros _ w1 H1. by apply wp_ret. }
    assert (Hset : GTKReKey g = true -> wpa_group_state g = WPA_GROUP_SETKEYSDONE \/ wpa_group_state g = WPA_GROUP_SETKEYS ->
      wp (wpa_group_setkeys conf in_loop 0) (fun _ => turned g) w).
    { intros Hk Hst. apply turned_setkeys; [exact H|]. intros g' E'. by assert (g' = g) as -> by congruence. }
    destruct (wpa_group_state g) eqn:Hst.
    + apply wp_when; intros _; [|exact H]. apply Hdone. by left.
    + destruct (_ =? 0); [apply Hdone; by right|]. apply wp_when; intros Hk; [|exact H]. apply Hset; [done|by right].
    + apply wp_when; intros Hk; [|exact H]. apply Hset; [done|by left].
    + by apply wp_ret.
Qed.

End turns.

(** C19: The step loop ends.  While the random generator gives bytes, at least one
    message of a group key handshake may be sent ([wpa_group_update_count] is 1 or
    more, as the configuration reader makes it, config_file.c:3094-3104) and the
    other stations' machines do to the group what passes of this loop do, the
    do-while loop of [wpa_sm_step] makes at most [step_fuel] passes from any state
    of a station's machines and the group: it never runs on forever, and the fuel
    of the model does not cut it short. *)
Theorem step_loop_ends `{HM : !Hmac} {ctx : Type} `{BC : !BlockCipher ctx} `{HO : !Hostapd} (conf : wpa_auth_config) w d w' :
  (forall n k, exists r, ask_random n k = Some r) ->
  1 <= conf.(wpa_group_update_count) ->
  others_lawful ->
  (sm w).(in_step_loop) = true -> step_loop conf step_fuel w = Ok (d, w') -> d = true.
Proof.
  intros Hrandom Hcount Hlawful Hl. apply (step_loop_falls conf Hrandom Hcount Hlawful step_fuel w Hl).
  pose proof (weight_bound conf w). assert (160 < Z.of_nat step_fuel) by reflexivity. lia.
Qed.

(** ** A failing random generator *)

(** [m] returns, with [Q]. *)
Definition runs {A} (m : M A) (Q : A -> world -> Prop) (w : world) : Prop := exists a w', m w = Ok (a, w') /\ Q a w'.

Lemma runs_ret {A} (a : A) (Q : A -> world -> Prop) w : Q a w -> runs (mret a) Q w.
Proof. intros H. by exists a, w. Qed.

Lemma runs_bind {A B} (m : M A) (f : A -> M B) Q w : runs m (fun a => runs (f a) Q) w -> runs (mbind f m) Q w.
Proof.
  intros (a & w1 & E & b & w2 & E2 & H). exists b, w2. split; [|exact H]. unfold mbind, M_bind. by rewrite E.
Qed.

Lemma runs_gets {A} (f : world -> A) (Q : A -> world -> Prop) w : Q (f w) w -> runs (gets f) Q w.
Proof. intros H. by exists (f w), w. Qed.

Lemma runs_the_id (Q : wpa_state_machine -> world -> Prop) w : Q w.(sm) w -> runs (the id) Q w.
Proof. intros H. by exists (sm w), w. Qed.

Lemma runs_upd f (Q : unit -> world -> Prop) w : Q tt (w <| sm := f w.(sm) |>) -> runs (upd f) Q w.
Proof. intros H. by exists tt, (w <| sm := f w.(sm) |>). Qed.

Lemma runs_emit e (Q : unit -> world -> Prop) w : Q tt (w <| log := w.(log) ++ [e] |>) -> runs (emit e) Q w.
Proof. intros H. by exists tt, (w <| log := w.(log) ++ [e] |>). Qed.

Lemma runs_ask {A} (f : nat -> A) (Q : A -> world -> Prop) w : Q (f w.(asked)) (w <| asked := S w.(asked) |>) -> runs (ask f) Q w.
Proof. intros H. by exists (f w.(asked)), (w <| asked := S w.(asked) |>). Qed.

Lemma runs_when b m Q w : (b = true -> runs m Q w) -> (b = false -> Q tt w) -> runs (when b m) Q w.
Proof. intros H1 H2. destruct b; [by apply H1|]. apply runs_ret. by apply H2. Qed.

Ltac runs_step :=
  lazymatch goal with
  | |- runs (mbind _ _) _ _ => apply runs_bind
  | |- runs (mret _) _ _ => apply runs_ret
  | |- runs skip _ _ => apply runs_ret
  | |- runs (gets _) _ _ => apply runs_gets
  | |- runs (the id) _ _ => apply runs_the_id
  | |- runs (upd _) _ _ => apply runs_upd
  | |- runs (emit _) _ _ => apply runs_emit
  | |- runs (ask _) _ _ => apply runs_ask
  | |- runs (when _ _) _ _ => apply runs_when; intros ?
  | |- runs (if ?b then _ else _) _ _ => destruct b eqn:?
  end; cbv beta.

Section spin.
Context `{HM : !Hmac} {ctx : Type} `{BC : !BlockCipher ctx} `{HO : !Hostapd} (conf : wpa_auth_config).
Context (Hrandom : forall n k, ask_random n k = None).

(** A station for which new pairwise keys are requested, between passes, with
    nothing else to do. *)
Record spins (s : wpa_state_machine) : Prop := {
  sp_request : s.(PTKRequest) = true;
  sp_init : s.(Init) = false;
  sp_auth : s.(AuthenticationRequest) = false;
  sp_reauth : s.(ReAuthenticationRequest) = false;
  sp_deinit : s.(pending_deinit) = false;
  sp_loop : s.(in_step_loop) = true;
  sp_group : s.(wpa_ptk_group_state) = WPA_PTK_GROUP_IDLE;
  sp_group_init : s.(PtkGroupInit) = false;
  sp_keys : s.(GUpdateStationKeys) = false;
  sp_pair : s.(PInitAKeys) = false
}.

Definition group_rests (gs : gmap Z wpa_group) : Prop :=
  exists g, gs !! 0 = Some g /\ g.(GInit) = false /\ g.(wpa_group_state) = WPA_GROUP_SETKEYSDONE /\ g.(GTKReKey) = false.

(** Fields the machine's requests do not touch. *)
Lemma spins_upd s s' :
  spins s -> s'.(PTKRequest) = s.(PTKRequest) -> s'.(Init) = s.(Init) ->
  s'.(AuthenticationRequest) = s.(AuthenticationRequest) -> s'.(ReAuthenticationRequest) = s.(ReAuthenticationRequest) ->
  s'.(pending_deinit) = s.(pending_deinit) -> s'.(in_step_loop) = s.(in_step_loop) ->
  s'.(wpa_ptk_group_state) = s.(wpa_ptk_group_state) -> s'.(PtkGroupInit) = s.(PtkGroupInit) ->
  s'.(GUpdateStationKeys) = s.(GUpdateStationKeys) -> s'.(PInitAKeys) = s.(PInitAKeys) -> spins s'.
Proof. intros [] E1 E2 E3 E4 E5 E6 E7 E8 E9 E10. constructor; congruence. Qed.

(** After the pairwise machine has moved in a pass. *)
Definition stepped (gs : gmap Z wpa_group) (w : world) : Prop :=
  spins w.(sm) /\ w.(sm).(changed) = true /\ w.(groups) = gs.

Definition stays {A} (gs : gmap Z wpa_group) (m : M A) : Prop := forall w, stepped gs w -> runs m (fun _ => stepped gs) w.

Lemma stays_ret {A} gs (a : A) : stays gs (mret a).
Proof. intros w H. by apply runs_ret. Qed.

Lemma stays_bind {A B} gs (m : M A) (f : A -> M B) : stays gs m -> (forall a, stays gs (f a)) -> stays gs (mbind f m).
Proof.
  intros Hm Hf w H. apply runs_bind. destruct (Hm w H) as (a & w1 & E & H1). exists a, w1. split; [exact E|].
  by apply Hf.
Qed.

Lemma stays_the {A} gs (f : wpa_state_machine -> A) : stays gs (the f).
Proof. intros w H. by apply runs_gets. Qed.

Lemma stays_emit gs e : stays gs (emit e).
Proof. intros w H. by apply runs_emit. Qed.

Lemma stays_ask {A} gs (f : nat -> A) : stays gs (ask f).
Proof. intros w H. by apply runs_ask. Qed.

Lemma stays_when gs b m : stays gs m -> stays gs (when b m).
Proof. intros H. destruct b; [exact H|apply stays_ret]. Qed.

Lemma stays_upd gs f : (forall s, spins s -> changed s = true -> spins (f s) /\ changed (f s) = true) -> stays gs (upd f).
Proof. intros Hf w (Hs & Hc & Hg). apply runs_upd. destruct (Hf _ Hs Hc). by split_and!. Qed.

Ltac assigns :=
  let s := fresh "s" in let Hs := fresh in let Hc := fresh in
  intros s Hs Hc; split; [apply (spins_upd _ _ Hs); reflexivity|first [reflexivity|exact Hc]].

Ltac stays_tac :=
  repeat lazymatch goal with
  | |- stays _ (mbind _ _) => apply stays_bind; [|intros ?]
  | |- stays _ (mret _) => apply stays_ret
  | |- stays _ skip => apply stays_ret
  | |- stays _ (the _) => apply stays_the
  | |- stays _ (emit _) => apply stays_emit
  | |- stays _ (ask _) => apply stays_ask
  | |- stays _ (when _ _) => apply stays_when
  | |- stays _ (upd _) => apply stays_upd; assigns
  | |- stays _ (if ?b then _ else _) => destruct b
  end.

Lemma disconnect_stays gs reason : stays gs (disconnect_in_loop conf reason).
Proof.
  unfold disconnect_in_loop, wpa_sta_disconnect, wpa_auth_sm_event, sm_event_tail, wpa_remove_ptk, wpa_auth_set_key,
    eloop_cancel, in_loop. stays_tac.
Qed.

(** Entering a state, and what follows. *)
Lemma enter_stays {A} st (m : M A) w :
  spins w.(sm) -> stays w.(groups) m -> runs (enter st ;; m) (fun _ => stepped w.(groups)) w.
Proof.
  intros Hs Hm. unfold enter. apply runs_bind, runs_upd, Hm. split; [|done]. apply (spins_upd _ _ Hs); reflexivity.
Qed.

Lemma Step_spins w : spins w.(sm) -> runs (sm_WPA_PTK_Step conf) (fun _ => stepped w.(groups)) w.
Proof.
  intros Hs. unfold sm_WPA_PTK_Step. apply runs_bind, runs_the_id. rewrite (sp_init _ Hs).
  destruct (Disconnect (sm w)).
  { unfold sm_WPA_PTK_DISCONNECT_Enter. apply runs_bind, runs_the_id, enter_stays; [exact Hs|].
    apply stays_bind; [apply stays_upd; assigns|intros _; apply disconnect_stays]. }
  assert (Hd : forall w', spins w'.(sm) -> w'.(groups) = w.(groups) ->
    runs sm_WPA_PTK_DISCONNECTED_Enter (fun _ => stepped w.(groups)) w').
  { intros w' Hs' <-. apply enter_stays; [exact Hs'|]. apply stays_upd. assigns. }
  destruct (DeauthenticationRequest (sm w)); [by apply Hd|].
  rewrite (sp_auth _ Hs), (sp_reauth _ Hs), (sp_request _ Hs).
  unfold wpa_auth_sm_ptk_update, new_anonce, random_get_bytes. apply runs_bind, runs_bind, runs_bind, runs_ask.
  rewrite Hrandom. apply runs_bind, runs_upd, runs_ret, runs_ret. cbn [Z.ltb Z.compare].
  apply Hd; [|done]. apply (spins_upd _ _ Hs); reflexivity.
Qed.

Lemma pass_spins w :
  spins w.(sm) -> group_rests w.(groups) ->
  runs (step_pass conf) (fun again w' => again = true /\ spins w'.(sm) /\ group_rests w'.(groups)) w.
Proof.
  intros Hs (g & Hg & Hi & Hst & Hk). unfold step_pass. apply runs_bind, runs_the_id. rewrite (sp_deinit _ Hs).
  apply runs_bind, runs_upd, runs_bind. set (g1 := g <| g_changed := false |>).
  exists tt, (w <| sm := (sm w) <| changed := false |> |> <| groups := <[0 := g1]> (groups w) |>).
  split. { unfold upd_group. change (groups (w <| sm := (sm w) <| changed := false |> |>)) with (groups w). by rewrite Hg. }
  set (w1 := _ <| groups := _ |>).
  assert (Hw1 : spins (sm w1) /\ groups w1 !! 0 = Some g1).
  { split; [apply (spins_upd _ _ Hs); reflexivity|].
    change (<[0 := g1]> (groups w) !! 0 = Some g1). by rewrite lookup_insert, decide_True. }
  clearbody w1. destruct Hw1 as [Hs1 Hg1]. apply runs_bind.
  destruct (Step_spins w1 Hs1) as ([] & w2 & E2 & Hs2 & Hc2 & Hgs2). exists tt, w2. split; [exact E2|].
  apply runs_bind, runs_the_id. rewrite (sp_deinit _ Hs2). apply runs_bind.
  exists tt, w2. split.
  { unfold sm_WPA_PTK_GROUP_Step, mbind, M_bind, the, gets, id. cbn [cbind].
    by rewrite (sp_init _ Hs2), (sp_group_init _ Hs2), (sp_group _ Hs2), (sp_keys _ Hs2), (sp_pair _ Hs2), andb_false_r. }
  apply runs_bind, runs_the_id. rewrite (sp_deinit _ Hs2). apply runs_bind. exists tt, w2. split.
  { unfold wpa_group_sm_step, mbind, M_bind, get_group. rewrite Hgs2, Hg1.
    change (GInit g1) with (GInit g). change (wpa_group_state g1) with (wpa_group_state g).
    change (GTKReKey g1) with (GTKReKey g). by rewrite Hi, Hst, Hk. }
  apply runs_bind, runs_the_id, runs_bind. exists g1, w2. split; [unfold get_group; by rewrite Hgs2, Hg1|].
  apply runs_ret. rewrite Hc2. split_and!; [done|exact Hs2|]. rewrite Hgs2. by exists g1.
Qed.

(** C22: A random generator that fails hangs the daemon.  When new pairwise keys are
    requested for a station and no random bytes can be had for the nonce, the
    request stays, so every pass of the do-while loop of [wpa_sm_step] changes a
    state again: the loop runs past any bound. *)
Theorem random_failure_spins w fuel :
  spins w.(sm) -> group_rests w.(groups) -> exists w', step_loop conf fuel w = Ok (false, w').
Proof.
  revert w. induction fuel as [|fuel IH]; intros w Hs Hg; cbn [step_loop]; [by exists w|].
  destruct (pass_spins w Hs Hg) as (again & w1 & E & -> & Hs1 & Hg1).
  destruct (IH w1 Hs1 Hg1) as [w' E']. exists w'. unfold mbind, M_bind. by rewrite E.
Qed.

End spin.
(** *** Witnesses *)

(** The demonstration station in its loop, with a request for new keys. *)
Definition demo_looping : world :=
  WpaAuthSafety.demo_start <| sm := WpaAuthSafety.demo_start.(sm) <| in_step_loop := true |> <| PTKRequest := true |> |>.

#[local] Existing Instance WpaAuthSafety.demo_hostapd.

Lemma step_loop_ends_witness : exists w', step_loop WpaAuthSafety.demo_conf step_fuel demo_looping = Ok (true, w').
Proof.
  destruct (step_loop WpaAuthSafety.demo_conf step_fuel demo_looping) as [[d w']|] eqn:E.
  - exists w'. f_equal. f_equal. revert E. apply step_loop_ends; [by intros; eexists|done| |reflexivity].
    intros n gs. change (option_Forall2 (rtc group_turn) (gs !! 0) (gs !! 0)). destruct (gs !! 0); by constructor.
  - exfalso. revert E. vm_compute. discriminate.
Defined.

Definition dry_hostapd : Hostapd := {|
  ask_random _ _ := None;
  ask_random_pool_ready _ := true;
  ask_malloc _ := true;
  ask_ntp _ := replicate 8 0;
  ask_group_pointer := replicate 8 0;
  ask_eapol _ _ := 0;
  ask_psks _ := [];
  ask_msk _ := None;
  ask_set_key _ := 0;
  ask_seqnum _ _ := None;
  ask_update_vlan _ := 0;
  ask_sta_count _ := 1;
  ask_mic_failure _ := 0;
  ask_station_known _ := true;
  ask_others _ g := g;
  rc4_skip _ _ x := x |}.

Lemma random_failure_spins_witness :
  exists w', step_loop (HO := dry_hostapd) WpaAuthSafety.demo_conf step_fuel demo_looping = Ok (false, w').
Proof.
  apply (random_failure_spins (HO := dry_hostapd)); [done|by constructor|]. exists WpaAuthSafety.demo_group. by split_and!.
Defined.

End WpaAuthLoop.
