(* ===== verification/WpaAuthFaults.v ===== *)
(** * Where the WPA authenticator goes wrong

    A late answer of the RADIUS server that is taken for message 4/4, and a run
    that ends in a read through [NULL], a [Fault] of the model. *)

From Stdlib Require Import Ascii String.
From stdpp Require Import gmap.
From S2P Require Import Prelude WpaDefs Aes AesModes WpaKey Kde WpaAuth WpaAuthSafety WpaAuthLoop.

Module WpaAuthFaults.
Import WpaDefs AesModes WpaKey Kde WpaAuth WpaAuthSafety WpaAuthLoop.

#[local] Open Scope Z_scope.
#[local] Open Scope list_scope.

(** Message 2/4 in answer to the second message 1/4, with another nonce. *)
Definition other_nonce : list Z :=
  demo_sealed 0x010a [0; 0; 0; 0; 0; 0; 0; 2] (replicate 32 5) [48; 2; 1; 0].

Definition demo_starts : list call := take 2 demo_calls.

(** An allocator that fails when the frame [other_nonce] is copied. *)
Definition short_of_memory : Hostapd := {|
  ask_random := ask_random (Hostapd := demo_hostapd);
  ask_random_pool_ready := ask_random_pool_ready (Hostapd := demo_hostapd);
  ask_malloc n := negb (n =? 21)%nat;
  ask_ntp := ask_ntp (Hostapd := demo_hostapd);
  ask_group_pointer := ask_group_pointer (Hostapd := demo_hostapd);
  ask_eapol := ask_eapol (Hostapd := demo_hostapd);
  ask_psks := ask_psks (Hostapd := demo_hostapd);
  ask_msk := ask_msk (Hostapd := demo_hostapd);
  ask_set_key := ask_set_key (Hostapd := demo_hostapd);
  ask_seqnum := ask_seqnum (Hostapd := demo_hostapd);
  ask_update_vlan := ask_update_vlan (Hostapd := demo_hostapd);
  ask_sta_count := ask_sta_count (Hostapd := demo_hostapd);
  ask_mic_failure := ask_mic_failure (Hostapd := demo_hostapd);
  ask_station_known := ask_station_known (Hostapd := demo_hostapd);
  ask_others := ask_others (Hostapd := demo_hostapd);
  rc4_skip := rc4_skip (Hostapd := demo_hostapd) |}.

Notation demo_reaches HO := (reachable (HO := HO) demo_conf (fun k => k = demo_pmk) demo_spa).

(** A run that returns, from the calls of an example. *)
Lemma reached `{HO : !Hostapd} cs :
  Forall (call_ok (fun k => k = demo_pmk)) cs ->
  match run_calls demo_conf cs demo_start with Ok _ => true | Fault => false end = true ->
  exists w, run_calls demo_conf cs demo_start = Ok w /\ demo_reaches HO w.
Proof.
  intros Hc E. destruct (run_calls demo_conf cs demo_start) as [w|] eqn:Er; [|done]. exists w. split; [done|].
  eapply reachable_run; [apply reach_start|exact Hc|exact Er].
Qed.

(** A fault of the call after a run, by evaluation of the whole. *)
Lemma faults_after `{HO : !Hostapd} cs c w :
  run_calls demo_conf cs demo_start = Ok w ->
  match run_calls demo_conf (cs ++ [c]) demo_start with Ok _ => true | Fault => false end = false ->
  run_call demo_conf c w = Fault.
Proof.
  intros Er. assert (Happ : forall cs w0 w1, run_calls demo_conf cs w0 = Ok w1 ->
    run_calls demo_conf (cs ++ [c]) w0 = run_calls demo_conf [c] w1).
  { clear. induction cs as [|c' cs IH]; intros w0 w1 E; [by injection E as ->|].
    cbn [run_calls app] in *. destruct (run_call demo_conf c' w0) as [[[] w']|]; [by apply IH|done]. }
  rewrite (Happ _ _ _ Er). cbn [run_calls]. by destruct (run_call demo_conf c w) as [[[] w']|].
Qed.

(** A failed copy of a frame leaves [last_rx_eapol_key] [NULL] with the length of
    the frame before it.  When the frame was an answer with another nonce, the next
    step checks the code of the last frame and reads through [NULL]: here it is the
    retransmission timer's. *)
Theorem failed_copy_reads_null :
  exists w, demo_reaches short_of_memory w /\ w.(sm).(last_rx_eapol_key) = None /\
    mic_off <= w.(sm).(last_rx_eapol_key_len) /\ run_call (HO := short_of_memory) demo_conf SendEapolTimer w = Fault.
Proof.
  set (cs := demo_starts ++ [SendEapolTimer; Receive demo_msg_2; Receive other_nonce]).
  destruct (reached (HO := short_of_memory) cs) as (w & Er & Hr).
  - repeat constructor; try discriminate; reflexivity.
  - vm_compute. reflexivity.
  - exists w. split; [exact Hr|].
    assert (H : match run_calls (HO := short_of_memory) demo_conf cs demo_start with
                | Ok w => match w.(sm).(last_rx_eapol_key) with None => mic_off <=? w.(sm).(last_rx_eapol_key_len) | Some _ => false end
                | Fault => false end = true) by (vm_compute; reflexivity).
    rewrite Er in H. destruct (last_rx_eapol_key (sm w)); [done|]. split; [done|]. split; [by apply Z.leb_le|].
    apply (faults_after (HO := short_of_memory) cs _ w Er). vm_compute. reflexivity.
Qed.

(** ** A late answer of the RADIUS server *)

Section late.
Context `{HM : !Hmac} {ctx : Type} `{BC : !BlockCipher ctx} `{HO : !Hostapd} (conf : wpa_auth_config).

(** A machine that has accepted message 2/4 and sent message 3/4 while an answer
    of the RADIUS server, asked for an earlier message 2/4, is still to come. *)
Record overtaken (s : wpa_state_machine) : Prop := {
  o_state : s.(wpa_ptk_state) = WPA_PTK_PTKINITNEGOTIATING;
  o_waiting : s.(waiting_radius_psk) = true;
  o_verified : s.(MICVerified) = true;
  o_pairwise : s.(EAPOLKeyPairwise) = true;
  o_request : s.(EAPOLKeyRequest) = false;
  o_snonce : s.(update_snonce) = false;
  o_quiet : s.(Init) || s.(Disconnect) || s.(DeauthenticationRequest) || s.(AuthenticationRequest) ||
            s.(ReAuthenticationRequest) || s.(PTKRequest) = false;
  o_pair : s.(Pair) = true;
  o_index : s.(use_ext_key_id) = false
}.

(** The machine after the answer. *)
Definition answered (s : wpa_state_machine) : wpa_state_machine :=
  s <| waiting_radius_psk := false |> <| EAPOLKeyReceived := true |>.

Lemma answer_runs w :
  (sm w).(waiting_radius_psk) = true ->
  runs (run_call conf (RadiusPsk true))
    (fun _ w1 => w1 = w <| sm := answered w.(sm) |> <| log := w.(log) ++ [EvRegister CallStep 0 0] |>) w.
Proof.
  intros H. cbn [run_call]. unfold wpa_auth_sta_radius_psk_resp, eloop_register. apply runs_bind, runs_the_id.
  rewrite H. cbn [negb]. apply runs_bind, runs_upd, runs_bind, runs_upd, runs_emit. reflexivity.
Qed.

(** The machine is done and the events [es] were seen since [w0]. *)
Definition seen (es : list event) (w0 w : world) : Prop :=
  w.(sm).(wpa_ptk_state) = WPA_PTK_PTKINITDONE /\ exists l, w.(log) = w0.(log) ++ l /\ forall e, e ∈ es -> e ∈ l.

Lemma seen_upd es f w0 w :
  (forall s, wpa_ptk_state (f s) = wpa_ptk_state s) -> seen es w0 w -> runs (upd f) (fun _ => seen es w0) w.
Proof. intros Hf [Hd H]. apply runs_upd. split; [|exact H]. exact (eq_trans (Hf _) Hd). Qed.

Lemma seen_emit es e w0 w : seen es w0 w -> runs (emit e) (fun _ => seen (e :: es) w0) w.
Proof.
  intros [Hd (l & E & H)]. apply runs_emit. split; [exact Hd|]. exists (l ++ [e]). split.
  - by rewrite (assoc_L (++)), <- E.
  - intros e' [-> |He]%elem_of_cons; set_solver.
Qed.

Lemma seen_when es b m w0 w :
  seen es w0 w -> (forall w, seen es w0 w -> runs m (fun _ => seen es w0) w) -> runs (when b m) (fun _ => seen es w0) w.
Proof. intros H Hm. destruct b; [by apply Hm|by apply runs_ret]. Qed.

Lemma seen_fewer {A} es es' (m : M A) w0 w :
  (forall e, e ∈ es' -> e ∈ es) -> runs m (fun _ => seen es w0) w -> runs m (fun _ => seen es' w0) w.
Proof.
  intros Hes (a & w1 & E & Hd & l & El & H). exists a, w1. split; [exact E|]. split; [exact Hd|].
  exists l. split; [exact El|]. intros e He. by apply H, Hes.
Qed.

Lemma runs_seq {A B} (m : M A) (f : A -> M B) (P : world -> Prop) Q w :
  runs m (fun _ => P) w -> (forall a w, P w -> runs (f a) Q w) -> runs (mbind f m) Q w.
Proof. intros (a & w1 & E & H) Hf. apply runs_bind. exists a, w1. split; [exact E|by apply Hf]. Qed.

(** The machine takes the key and opens the port. *)
Lemma done_runs w :
  let s := w.(sm) in s.(Pair) = true -> s.(use_ext_key_id) = false -> ask_set_key w.(asked) = 0 ->
  runs (sm_WPA_PTK_PTKINITDONE_Enter conf) (fun _ => seen
    [EvSetEapol WPA_EAPOL_portValid 1;
     EvSetKey 0 (wpa_cipher_to_alg s.(pairwise)) s.(addr) 0 (tk_bytes s.(pairwise) s.(PTK)) KEY_FLAG_PAIRWISE_RX_TX] w) w.
Proof.
  cbv zeta. intros Hp Hx Hk. unfold sm_WPA_PTK_PTKINITDONE_Enter, enter, wpa_auth_set_key.
  apply runs_bind, runs_upd, runs_bind, runs_upd, runs_bind, runs_the_id.
  match goal with |- runs (mbind ?f (if Pair ?x then _ else _)) _ ?v => set (s := x); set (w1 := v) end.
  change (Pair s) with (Pair (sm w)). change (use_ext_key_id s) with (use_ext_key_id (sm w)).
  change (pairwise s) with (pairwise (sm w)). change (addr s) with (addr (sm w)). change (PTK s) with (PTK (sm w)).
  rewrite Hp, Hx. clearbody s. set (key := EvSetKey _ _ _ _ _ _).
  assert (Ha : asked w1 = asked w) by reflexivity.
  assert (H1 : seen [] w w1) by (split; [reflexivity|]; exists []; split; [by rewrite app_nil_r|done]).
  clearbody w1. destruct (seen_emit [] key w w1 H1) as (? & w2 & [= <- <-] & H2). apply runs_bind, runs_bind, runs_emit, runs_ask.
  set (w2 := _ <| asked := _ |>).
  change (ask_set_key (asked (w1 <| log := log w1 ++ [key] |>))) with (ask_set_key (asked w1)). rewrite Ha, Hk. cbn [Z.eqb negb].
  assert (H3 : seen [key] w w2) by exact H2. clear H2. rename H3 into H2. clearbody w2. clear H1 Ha Hp Hx Hk. cbn [when].
  apply (runs_seq _ _ (seen [key] w)).
  { apply (runs_seq _ _ (seen [key] w)); [by apply seen_upd|]. intros _ w3 H3.
    apply (runs_seq _ _ (seen [key] w)).
    { apply seen_when; [exact H3|]. intros w4 H4. apply (runs_seq _ _ (seen [EvCancel RekeyPtk; key] w)); [by apply seen_emit|].
      intros _ w5 H5. eapply seen_fewer; [|by apply seen_emit]. set_solver. }
    intros _ w4 H4. apply (runs_seq _ _ (seen [key] w)); [eapply seen_fewer; [|by apply seen_emit]; set_solver|].
    intros _ w5 H5. apply seen_when; [exact H5|]. intros w6 H6. eapply seen_fewer; [|by apply seen_emit]. set_solver. }
  intros _ w3 H3. apply (runs_seq _ _ (seen [EvSetEapol WPA_EAPOL_portValid 1; key] w)); [by apply seen_emit|].
  intros _ w4 H4. set (es := [EvSetEapol WPA_EAPOL_portValid 1; key]) in *.
  assert (He : forall e w', seen es w w' -> runs (emit e) (fun _ => seen es w) w').
  { intros e w' H'. eapply seen_fewer; [|by apply seen_emit]. set_solver. }
  apply (runs_seq _ _ (seen es w)); [by apply He|]. intros _ w5 H5.
  apply (runs_seq _ _ (seen es w)); [by apply He|]. intros _ w6 H6.
  apply (runs_seq _ _ (seen es w)); [destruct (_ =? _); by apply seen_upd|]. intros _ w7 H7.
  apply (runs_seq _ _ (seen es w)); [by apply He|]. intros _ w8 H8. by apply seen_upd.
Qed.

(** The answer is taken for message 4/4. *)
Lemma answered_step s w :
  overtaken s -> w.(sm) = answered s -> sm_WPA_PTK_Step conf w = sm_WPA_PTK_PTKINITDONE_Enter conf w.
Proof.
  intros [] E. unfold sm_WPA_PTK_Step, mbind, M_bind, the, gets, id. cbn [cbind]. rewrite E.
  repeat (apply orb_false_elim in o_quiet0 as [o_quiet0 ?]).
  change (Init (answered s)) with (Init s). change (Disconnect (answered s)) with (Disconnect s).
  change (DeauthenticationRequest (answered s)) with (DeauthenticationRequest s).
  change (AuthenticationRequest (answered s)) with (AuthenticationRequest s).
  change (ReAuthenticationRequest (answered s)) with (ReAuthenticationRequest s).
  change (PTKRequest (answered s)) with (PTKRequest s). repeat match goal with H : ?f s = false |- context [?f s] => rewrite H end.
  unfold sm_WPA_PTK_Step_state, reply_waiting. cbv zeta. change (wpa_ptk_state (answered s)) with (wpa_ptk_state s). rewrite o_state0.
  change (update_snonce (answered s)) with (update_snonce s). rewrite o_snonce0.
  change (EAPOLKeyRequest (answered s)) with (EAPOLKeyRequest s). change (EAPOLKeyPairwise (answered s)) with (EAPOLKeyPairwise s).
  change (MICVerified (answered s)) with (MICVerified s). by rewrite o_request0, o_pairwise0, o_verified0.
Qed.

(** C21: An answer of the RADIUS server opens the port without message 4/4.  When
    PSKs are asked of the server during handshakes and the station has gone on with
    another message 2/4 while an answer was awaited, an accepting answer marks the
    stored message 2/4 as a new frame.  The next step of the machine, in
    PTKINITNEGOTIATING, takes it for message 4/4: it enters PTKINITDONE, gives the
    driver the pairwise key for sending and, where the driver takes it, opens the
    port; whether the key kept is valid is not looked at. *)
Theorem late_psk_answer_opens w :
  overtaken w.(sm) -> ask_set_key w.(asked) = 0 ->
  exists w1 w2 (l : list event),
    run_call conf (RadiusPsk true) w = Ok (tt, w1) /\ sm_WPA_PTK_Step conf w1 = Ok (tt, w2) /\
    w2.(sm).(wpa_ptk_state) = WPA_PTK_PTKINITDONE /\ w2.(log) = w.(log) ++ l /\
    EvSetKey 0 (wpa_cipher_to_alg w.(sm).(pairwise)) w.(sm).(addr) 0 (tk_bytes w.(sm).(pairwise) w.(sm).(PTK))
      KEY_FLAG_PAIRWISE_RX_TX ∈ l /\
    EvSetEapol WPA_EAPOL_portValid 1 ∈ l.
Proof.
  intros Ho Hk. destruct (answer_runs w (o_waiting _ Ho)) as ([] & w1 & E1 & ->).
  set (w1 := _ <| log := _ |>) in E1.
  assert (E : sm_WPA_PTK_Step conf w1 = sm_WPA_PTK_PTKINITDONE_Enter conf w1) by exact (answered_step _ w1 Ho eq_refl).
  destruct (done_runs w1 (o_pair _ Ho) (o_index _ Ho) Hk) as ([] & w2 & E2 & Hd & l & El & Hl).
  exists w1, w2, (EvRegister CallStep 0 0 :: l). split_and!; [exact E1|by rewrite E, E2|exact Hd| | |].
  - rewrite El. exact (eq_sym (assoc_L (++) (log w) [EvRegister CallStep 0 0] l)).
  - apply list_elem_of_further, Hl. set_solver.
  - apply list_elem_of_further, Hl. set_solver.
Qed.

End late.

(** *** A reachable case *)

Definition radius_conf : wpa_auth_config :=
  mkConf WPA_PROTO_RSN WPA_CIPHER_CCMP 0 false 0 0 false 4 4 false 2 false false false 0 false 0 0 0 false false
    true false [] demo_aa [48; 2; 1; 0].

(** Message 2/4 under a PSK hostapd does not hold yet; after the reassociation,
    message 2/4 under the PSK it holds, in answer to the nonce of that handshake. *)
Definition foreign_msg_2 : list Z := put mic_off (replicate 16 0) demo_msg_2.
Definition second_msg_2 : list Z :=
  let f := eapol_key_frame 2 2 0x010a 16 [0; 0; 0; 0; 0; 0; 0; 1] demo_snonce (replicate 16 0) (replicate 8 0) 16 4 [48; 2; 1; 0] in
  let p := match wpa_pmk_to_ptk demo_pmk "Pairwise key expansion" demo_aa demo_spa (replicate 32 15) demo_snonce
                   WPA_KEY_MGMT_PSK WPA_CIPHER_CCMP [] 0 with Ok (Some p) => p | _ => zero_ptk end in
  match wpa_eapol_key_mic p.(kck) WPA_KEY_MGMT_PSK 2 f with Ok (Some m) => put mic_off m f | _ => f end.

(** Then the station authenticates anew, which takes the key back. *)
Definition overtaking : list call :=
  demo_starts ++ [Receive foreign_msg_2; Associated; Receive second_msg_2; Event WPA_AUTH].
Definition overtaken_world : world :=
  match run_calls radius_conf overtaking demo_start with Ok w => w | Fault => demo_start end.

Lemma overtaken_reachable : reachable radius_conf (fun k => k = demo_pmk) demo_spa overtaken_world.
Proof.
  apply (reachable_run radius_conf _ _ overtaking demo_start); [apply reach_start| |].
  - repeat constructor; try discriminate; reflexivity.
  - assert (H : match run_calls radius_conf overtaking demo_start with Ok _ => true | Fault => false end = true)
      by (vm_compute; reflexivity).
    unfold overtaken_world. by destruct (run_calls radius_conf overtaking demo_start).
Qed.

(** The driver gets a key of zeros. *)
Lemma late_psk_answer_opens_witness :
  reachable radius_conf (fun k => k = demo_pmk) demo_spa overtaken_world /\ overtaken_world.(sm).(PTK_valid) = false /\
  exists w1 w2 (l : list event),
    run_call radius_conf (RadiusPsk true) overtaken_world = Ok (tt, w1) /\ sm_WPA_PTK_Step radius_conf w1 = Ok (tt, w2) /\
    EvSetKey 0 WPA_ALG_CCMP demo_spa 0 (replicate 16 0) KEY_FLAG_PAIRWISE_RX_TX ∈ l.
Proof.
  split; [exact overtaken_reachable|]. split; [vm_compute; reflexivity|].
  destruct (late_psk_answer_opens radius_conf overtaken_world) as (w1 & w2 & l & E1 & E2 & _ & _ & Hk & _).
  - constructor; vm_compute; reflexivity.
  - reflexivity.
  - exists w1, w2, l. split_and!; [exact E1|exact E2|]. revert Hk.
    assert (Ek : EvSetKey 0 (wpa_cipher_to_alg overtaken_world.(sm).(pairwise)) overtaken_world.(sm).(addr) 0
        (tk_bytes overtaken_world.(sm).(pairwise) overtaken_world.(sm).(PTK)) KEY_FLAG_PAIRWISE_RX_TX =
      EvSetKey 0 WPA_ALG_CCMP demo_spa 0 (replicate 16 0) KEY_FLAG_PAIRWISE_RX_TX) by (vm_compute; reflexivity).
    by rewrite Ek.
Defined.

End WpaAuthFaults.
