(* ===== verification/Wpabuf.v ===== *)
(** * Growing byte buffers

    utils/wpabuf.c and utils/wpabuf.h.  A buffer is the memory it owns and the
    number of bytes in use; an access outside the memory is a [Fault], and so is
    the [abort] of [wpabuf_overflow].  What an allocation returns is decided by a
    list of outcomes, which the monad [M] threads through the calls; when the list
    is used up, allocations succeed.  Any finite number of failures, in any places,
    is expressed; an allocator that fails for ever is not.  The one loop of the
    modelled code that this concerns is [propose_loop] of [EapServer]. *)

From S2P Require Import Prelude WpaDefs.

Module Wpabuf.
Import WpaDefs.

#[local] Open Scope Z_scope.
#[local] Open Scope list_scope.

(** *** Allocation *)

(** A computation that allocates: it is given the outcomes to come. *)
Definition M (A : Type) : Type := list bool -> cres (A * list bool).

Definition ret {A} (a : A) : M A := fun mem => Ok (a, mem).
Definition bind {A B} (m : M A) (k : A -> M B) : M B :=
  fun mem => cbind (m mem) (fun r => k r.1 r.2).

Notation "'let!' x ':=' m 'in' k" := (bind m (fun x => k))
  (at level 10, x pattern, m at level 100, k at level 200, format "'let!'  x  ':='  m  'in' '//' k").

(** A computation that does not allocate. *)
Definition lift {A} (m : cres A) : M A := fun mem => cbind m (fun a => Ok (a, mem)).

(** [os_malloc(...) != NULL] *)
Definition os_malloc : M bool :=
  fun mem => match mem with [] => Ok (true, []) | ok :: mem => Ok (ok, mem) end.

(** [memcpy(buf + off, bs, n)], checked. *)
Definition wr (l : list Z) (off : Z) (bs : list Z) : cres (list Z) :=
  if (0 <=? off) && (off + zlen bs <=? zlen l) then Ok (put off bs l) else Fault.

(** *** The buffer *)

(** [struct wpabuf]: [size] is the length of [mem]. *)
Record wpabuf := mkBuf { mem : list Z; used : Z }.

#[export] Instance settable_wpabuf : Settable wpabuf := fun b => mkBuf b.(mem) b.(used).

Definition size (b : wpabuf) : Z := zlen b.(mem).
Definition wpabuf_size (b : wpabuf) : Z := size b.
Definition wpabuf_len (b : wpabuf) : Z := b.(used).
Definition wpabuf_tailroom (b : wpabuf) : Z := size b - b.(used).

(** The bytes in use: [wpabuf_head(buf), wpabuf_len(buf)]. *)
Definition wpabuf_head (b : wpabuf) : list Z := take (Z.to_nat b.(used)) b.(mem).

Definition zeros (n : Z) : list Z := replicate (Z.to_nat n) 0.

Definition wpabuf_alloc (len : Z) : M (option wpabuf) :=
  let! ok := os_malloc in
  ret (if ok then Some (mkBuf (zeros len) 0) else None).

(** [data] becomes the buffer's memory. *)
Definition wpabuf_alloc_ext_data (data : list Z) : M (option wpabuf) :=
  let! ok := os_malloc in
  ret (if ok then Some (mkBuf data (zlen data)) else None).

(** The new bytes are at the old [wpabuf_len(buf)]. *)
Definition wpabuf_put (b : wpabuf) (len : Z) : cres wpabuf :=
  let b' := b <| used := b.(used) + len |> in
  if size b <? b'.(used) then Fault (* wpabuf_overflow *) else Ok b'.

Definition wpabuf_put_data (b : wpabuf) (data : list Z) : cres wpabuf :=
  (b' <-- wpabuf_put b (zlen data);;
   l <-- wr b.(mem) (wpabuf_len b) data;;
   Ok (b' <| mem := l |>))%c.

Definition wpabuf_put_u8 (b : wpabuf) (data : Z) : cres wpabuf := wpabuf_put_data b [u8 data].
Definition wpabuf_put_be16 (b : wpabuf) (data : Z) : cres wpabuf := wpabuf_put_data b (WPA_PUT_BE16 data).
Definition wpabuf_put_be24 (b : wpabuf) (data : Z) : cres wpabuf := wpabuf_put_data b (WPA_PUT_BE24 data).
Definition wpabuf_put_be32 (b : wpabuf) (data : Z) : cres wpabuf := wpabuf_put_data b (WPA_PUT_BE32 data).
(** The wider integers, byte by byte. *)
Definition le_bytes (n : nat) (v : Z) : list Z := reverse (be_bytes n v).
Definition wpabuf_put_be64 (b : wpabuf) (data : Z) : cres wpabuf := wpabuf_put_data b (be_bytes 8 data).
Definition wpabuf_put_le24 (b : wpabuf) (data : Z) : cres wpabuf := wpabuf_put_data b (le_bytes 3 data).
Definition wpabuf_put_le32 (b : wpabuf) (data : Z) : cres wpabuf := wpabuf_put_data b (le_bytes 4 data).
Definition wpabuf_put_le64 (b : wpabuf) (data : Z) : cres wpabuf := wpabuf_put_data b (le_bytes 8 data).
Definition wpabuf_put_str (b : wpabuf) (str : list Z) : cres wpabuf := wpabuf_put_data b str.

(** [text] is what [vsnprintf] makes; it writes a terminating zero too. *)
Definition wpabuf_printf (b : wpabuf) (text : list Z) : cres wpabuf :=
  if size b - b.(used) <=? zlen text then Fault (* wpabuf_overflow *)
  else (l <-- wr b.(mem) b.(used) (text ++ [0]);; Ok (mkBuf l (b.(used) + zlen text)))%c.
Definition wpabuf_put_le16 (b : wpabuf) (data : Z) : cres wpabuf := wpabuf_put_data b (WPA_PUT_LE16 data).
Definition wpabuf_put_buf (dst src : wpabuf) : cres wpabuf := wpabuf_put_data dst (wpabuf_head src).

(** The buffer of [*_buf] afterwards; [false] is the result -1, which leaves it
    as it was. *)
Definition wpabuf_resize (b : option wpabuf) (add_len : Z) : M (option wpabuf * bool) :=
  match b with
  | None =>
      let! b := wpabuf_alloc add_len in
      ret (b, match b with Some _ => true | None => false end)
  | Some b =>
      if size b <? b.(used) + add_len then
        let! ok := os_malloc in
        ret (if ok then (Some (b <| mem := wpabuf_head b ++ zeros add_len |>), true) else (Some b, false))
      else ret (Some b, true)
  end.

Definition wpabuf_alloc_copy (data : list Z) : M (option wpabuf) :=
  let! b := wpabuf_alloc (zlen data) in
  match b with
  | None => ret None
  | Some b => let! b := lift (wpabuf_put_data b data) in ret (Some b)
  end.

Definition wpabuf_dup (src : wpabuf) : M (option wpabuf) :=
  let! b := wpabuf_alloc (wpabuf_len src) in
  match b with
  | None => ret None
  | Some b => let! b := lift (wpabuf_put_buf b src) in ret (Some b)
  end.

Definition wpabuf_concat (a b : option wpabuf) : M (option wpabuf) :=
  match b with
  | None => ret a
  | Some b =>
      let! n := wpabuf_alloc (match a with Some a => wpabuf_len a | None => 0 end + wpabuf_len b) in
      match n with
      | None => ret None
      | Some n =>
          let! n := match a with Some a => lift (wpabuf_put_buf n a) | None => ret n end in
          let! n := lift (wpabuf_put_buf n b) in
          ret (Some n)
      end
  end.

Definition wpabuf_zeropad (b : option wpabuf) (len : Z) : M (option wpabuf) :=
  match b with
  | None => ret None
  | Some b =>
      let blen := wpabuf_len b in
      if len <=? blen then ret (Some b)
      else
        let! r := wpabuf_alloc len in
        match r with
        | None => ret None
        | Some r =>
            let! r := lift (wpabuf_put_data r (zeros (len - blen))) in
            let! r := lift (wpabuf_put_buf r b) in
            ret (Some r)
        end
  end.

(** The result 0: [os_memcmp] of the whole memory of both. *)
Definition wpabuf_cmp_equal (a b : option wpabuf) : bool :=
  match a, b with
  | None, None => true
  | Some a, Some b => (wpabuf_size a =? wpabuf_size b) && bool_decide (a.(mem) = b.(mem))
  | _, _ => false
  end.

(** [wpabuf_set]: the buffer [data], in use from end to end. *)
Definition wpabuf_set (data : list Z) : wpabuf := mkBuf data (zlen data).

(** ** Lemmas *)

Lemma bind_ext {A B} (m : M A) (k k' : A -> M B) mem_ :
  (forall a mem_, k a mem_ = k' a mem_) -> bind m k mem_ = bind m k' mem_.
Proof. intros H. unfold bind. destruct (m mem_) as [[a mem']|]; cbn; auto. Qed.

Lemma bind_assoc {A B C} (m : M A) (k : A -> M B) (k' : B -> M C) mem_ :
  bind (bind m k) k' mem_ = bind m (fun a => bind (k a) k') mem_.
Proof. unfold bind. by destruct (m mem_) as [[a mem']|]. Qed.

(** A computation that has returned. *)
Lemma bind_ok {A B} (m : M A) (k : A -> M B) mem_ a mem' :
  m mem_ = Ok (a, mem') -> bind m k mem_ = k a mem'.
Proof. unfold bind. by intros ->. Qed.

Lemma bind_lift {A B} (m : cres A) (k : A -> M B) mem_ a :
  m = Ok a -> bind (lift m) k mem_ = k a mem_.
Proof. unfold bind, lift. by intros ->. Qed.

(** [b] holds the bytes [l]. *)
Definition holds (b : wpabuf) (l : list Z) : Prop :=
  wpabuf_head b = l /\ b.(used) = zlen l.

Lemma holds_room b l : holds b l -> zlen l <= size b.
Proof.
  intros [H Hu]. unfold wpabuf_head in H. apply (f_equal length) in H.
  rewrite length_take in H. unfold size. lia.
Qed.

Lemma holds_tailroom b l : holds b l -> wpabuf_tailroom b = size b - zlen l.
Proof. intros [_ H]. unfold wpabuf_tailroom. by rewrite H. Qed.

Lemma holds_alloc len mem_ :
  0 <= len -> wpabuf_alloc len mem_ =
    match mem_ with
    | [] => Ok (Some (mkBuf (zeros len) 0), [])
    | ok :: mem_ => Ok (if ok then Some (mkBuf (zeros len) 0) else None, mem_)
    end.
Proof. by destruct mem_. Qed.

Lemma holds_empty len : holds (mkBuf (zeros len) 0) [].
Proof. by split. Qed.

Lemma length_zeros n : 0 <= n -> zlen (zeros n) = n.
Proof. intros. unfold zeros. rewrite length_replicate. lia. Qed.

Lemma bytes_zeros n : bytes (zeros n).
Proof. apply bytes_replicate. lia. Qed.

Lemma put_data_ok b l data :
  holds b l -> zlen l + zlen data <= size b ->
  exists b', wpabuf_put_data b data = Ok b' /\ holds b' (l ++ data) /\ size b' = size b.
Proof.
  intros [H Hu] Hs. unfold wpabuf_put_data, wpabuf_put. cbn.
  destruct (Z.ltb_spec (size b) (used b + zlen data)); [lia|]. cbn.
  unfold wr, wpabuf_len. destruct (Z.leb_spec 0 (used b)); [|lia].
  unfold size in *. destruct (Z.leb_spec (used b + zlen data) (zlen (mem b))); [|lia]. cbn.
  eexists. split; [reflexivity|]. unfold holds, wpabuf_head, size in *. cbn.
  assert (Ht : length l = Z.to_nat (used b)) by lia.
  split; [split|].
  - unfold put. rewrite H. rewrite app_assoc. rewrite take_app_length'; [done|]. rewrite length_app. lia.
  - rewrite length_app. lia.
  - by rewrite length_put by lia.
Qed.

(** A put that does not fit ends the program. *)
Lemma put_data_overflow b l data :
  holds b l -> size b < zlen l + zlen data -> wpabuf_put_data b data = Fault.
Proof.
  intros [H Hu] Hs. unfold wpabuf_put_data, wpabuf_put. cbn.
  by destruct (Z.ltb_spec (size b) (used b + zlen data)); [|lia].
Qed.

Lemma resize_ok b l add mem_ :
  holds b l -> 0 <= add -> exists r mem', wpabuf_resize (Some b) add mem_ = Ok (r, mem') /\
    (r = (Some b, false) \/ exists b', r = (Some b', true) /\ holds b' l /\ zlen l + add <= size b').
Proof.
  intros Hh Ha. pose proof (holds_room _ _ Hh) as Hr. destruct Hh as [H Hu]. cbn [wpabuf_resize].
  destruct (Z.ltb_spec (size b) (used b + add)).
  - assert (Hg : exists b', (Some (b <| mem := wpabuf_head b ++ zeros add |>), true) = (Some b', true) /\
                   holds b' l /\ zlen l + add <= size b').
    { eexists. split; [reflexivity|]. unfold holds, size. cbn. unfold wpabuf_head at 1. cbn.
      rewrite H. split_and!; [by rewrite take_app_length' by lia|done|].
      rewrite length_app, Nat2Z.inj_add, length_zeros by done. lia. }
    destruct mem_ as [|[] mem_]; cbn; eauto 8.
  - do 2 eexists. split; [reflexivity|]. right. exists b. unfold holds. repeat split; [done|done|lia].
Qed.

(** With memory to spare the buffer grows. *)
Lemma resize_grows b l add :
  holds b l -> 0 <= add -> exists b', wpabuf_resize (Some b) add [] = Ok ((Some b', true), []) /\
    holds b' l /\ zlen l + add <= size b'.
Proof.
  intros Hh Ha. destruct (resize_ok b l add [] Hh Ha) as (r & mem' & E & [->|(b' & -> & H1 & H2)]).
  - revert E. cbn. by destruct (Z.ltb_spec (size b) (used b + add)).
  - exists b'. split; [|done]. rewrite E. revert E. cbn.
    destruct (Z.ltb_spec (size b) (used b + add)); cbn; intros [= <- <-]; done.
Qed.

Lemma alloc_copy_ok data mem_ : exists r mem', wpabuf_alloc_copy data mem_ = Ok (r, mem') /\
  match r with Some b => holds b data /\ size b = zlen data | None => True end.
Proof.
  unfold wpabuf_alloc_copy, bind. rewrite holds_alloc by lia.
  destruct (put_data_ok (mkBuf (zeros (zlen data)) 0) [] data) as (b' & E & Hh & Hs).
  { apply holds_empty. }
  { unfold size. cbn [mem]. rewrite length_zeros by lia. cbn. lia. }
  unfold size in Hs at 2. cbn [mem] in Hs. rewrite length_zeros in Hs by lia.
  destruct mem_ as [|[] mem_]; cbn -[wpabuf_put_data]; unfold lift; rewrite ?E; cbn;
    (do 2 eexists; split; [reflexivity|]); cbn; auto.
Qed.

Lemma alloc_copy_copies data : exists b, wpabuf_alloc_copy data [] = Ok (Some b, []) /\
  holds b data /\ size b = zlen data.
Proof.
  unfold wpabuf_alloc_copy, bind. rewrite holds_alloc by lia. cbn -[wpabuf_put_data].
  destruct (put_data_ok (mkBuf (zeros (zlen data)) 0) [] data) as (b' & E & Hh & Hs).
  { apply holds_empty. }
  { unfold size. cbn [mem]. rewrite length_zeros by lia. cbn. lia. }
  unfold lift. rewrite E. cbn. exists b'. split_and!; [done|done|].
  rewrite Hs. unfold size. cbn. by rewrite length_zeros by lia.
Qed.

End Wpabuf.
