(* ===== verification/Radius.v ===== *)
(** * RADIUS messages

    radius/radius.c and radius/radius.h: building, signing, parsing and checking
    RADIUS messages, and the attributes hidden with the shared secret.  A message
    is its buffer with the offsets of its attributes; a pointer into the message
    is an offset; an access outside the buffer's memory is a [Fault].  The digest
    MD5 and HMAC-MD5 are computed by the TLS library: the classes [Md5] and
    [WpaKey.Hmac]. *)

From Stdlib Require Import String.
From stdpp Require Import sorting.
From S2P Require Import Prelude WpaDefs AesModes WpaKey Kde Wpabuf.

Module Radius.
Import WpaDefs WpaKey Wpabuf.

#[local] Open Scope Z_scope.
#[local] Open Scope list_scope.

(** *** Constants (radius/radius.h) *)

Definition RADIUS_CODE_ACCESS_REQUEST : Z := 1.
Definition RADIUS_CODE_ACCESS_ACCEPT : Z := 2.
Definition RADIUS_CODE_ACCESS_REJECT : Z := 3.
Definition RADIUS_CODE_ACCOUNTING_REQUEST : Z := 4.
Definition RADIUS_CODE_ACCOUNTING_RESPONSE : Z := 5.
Definition RADIUS_CODE_ACCESS_CHALLENGE : Z := 11.
Definition RADIUS_CODE_DISCONNECT_REQUEST : Z := 40.
Definition RADIUS_CODE_DISCONNECT_ACK : Z := 41.
Definition RADIUS_CODE_DISCONNECT_NAK : Z := 42.
Definition RADIUS_CODE_COA_REQUEST : Z := 43.
Definition RADIUS_CODE_COA_ACK : Z := 44.
Definition RADIUS_CODE_COA_NAK : Z := 45.

Definition RADIUS_ATTR_USER_NAME : Z := 1.
Definition RADIUS_ATTR_USER_PASSWORD : Z := 2.
Definition RADIUS_ATTR_VENDOR_SPECIFIC : Z := 26.
Definition RADIUS_ATTR_EGRESS_VLANID : Z := 56.
Definition RADIUS_ATTR_TUNNEL_TYPE : Z := 64.
Definition RADIUS_ATTR_TUNNEL_MEDIUM_TYPE : Z := 65.
Definition RADIUS_ATTR_TUNNEL_PASSWORD : Z := 69.
Definition RADIUS_ATTR_EAP_MESSAGE : Z := 79.
Definition RADIUS_ATTR_MESSAGE_AUTHENTICATOR : Z := 80.
Definition RADIUS_ATTR_TUNNEL_PRIVATE_GROUP_ID : Z := 81.
Definition RADIUS_ATTR_EXT_TYPE_1 : Z := 241.
Definition RADIUS_ATTR_LONG_EXT_TYPE_1 : Z := 245.
Definition RADIUS_ATTR_LONG_EXT_TYPE_2 : Z := 246.
Definition RADIUS_ATTR_EXT_VENDOR_SPECIFIC_5 : Z := Z.lor (Z.shiftl 245 8) 26.

Definition RADIUS_TUNNEL_TAGS : Z := 32.
Definition RADIUS_TUNNEL_TYPE_VLAN : Z := 13.
Definition RADIUS_TUNNEL_MEDIUM_TYPE_802 : Z := 6.
Definition RADIUS_VENDOR_ID_CISCO : Z := 9.
Definition RADIUS_CISCO_AV_PAIR : Z := 1.
Definition RADIUS_VENDOR_ID_MICROSOFT : Z := 311.
Definition RADIUS_VENDOR_ATTR_MS_MPPE_SEND_KEY : Z := 16.
Definition RADIUS_VENDOR_ATTR_MS_MPPE_RECV_KEY : Z := 17.
Definition RADIUS_VENDOR_ID_WFA : Z := 40808.

Definition RADIUS_DEFAULT_MSG_SIZE : Z := 1024.
Definition RADIUS_DEFAULT_ATTR_COUNT : Z := 16.
Definition MD5_MAC_LEN : Z := 16.

(** The packed headers. *)
Definition sizeof_radius_hdr : Z := 20.
Definition sizeof_radius_attr_hdr : Z := 2.
Definition sizeof_radius_attr_hdr_ext : Z := 3.
Definition sizeof_radius_attr_vendor : Z := 2.
Definition RADIUS_MAX_ATTR_LEN : Z := 255 - sizeof_radius_attr_hdr.
Definition RADIUS_MAX_EXT_ATTR_LEN : Z := 255 - sizeof_radius_attr_hdr_ext.

(** *** The digest *)

(** [md5_vector] of the concatenation; [None] is a failure of the library. *)
Class Md5 := { md5 : list Z -> option (list Z) }.

Class Md5Laws `{!Md5} := {
  md5_output data h : md5 data = Some h -> zlen h = MD5_MAC_LEN /\ bytes h
}.

(** *** Messages *)

(** [struct radius_msg].  [hdr] is the head of [buf]; [attr_pos] holds the
    [attr_used] offsets in use. *)
Record radius_msg := mkMsg { buf : wpabuf; attr_pos : list Z; attr_size : Z }.

#[export] Instance settable_msg : Settable radius_msg :=
  fun m => mkMsg m.(buf) m.(attr_pos) m.(attr_size).

Definition attr_used (m : radius_msg) : Z := zlen m.(attr_pos).

(** The memory of the message, and a write to it. *)
Definition mem_of (m : radius_msg) : list Z := m.(buf).(mem).
Definition store (m : radius_msg) (off : Z) (bs : list Z) : cres radius_msg :=
  (l <-- wr (mem_of m) off bs;; Ok (m <| buf := m.(buf) <| mem := l |> |>))%c.

(** [wpabuf_head(msg->buf), wpabuf_len(msg->buf)]: what is sent. *)
Definition message (m : radius_msg) : list Z := wpabuf_head m.(buf).
Definition msg_len (m : radius_msg) : Z := wpabuf_len m.(buf).

(** Fields of [struct radius_hdr] and [struct radius_attr_hdr]. *)
Definition hdr_code (m : radius_msg) : Z := at_ (mem_of m) 0.
Definition hdr_identifier (m : radius_msg) : Z := at_ (mem_of m) 1.
Definition authenticator (m : radius_msg) : cres (list Z) := rdn (mem_of m) 4 MD5_MAC_LEN.
Definition set_authenticator (m : radius_msg) (a : list Z) : cres radius_msg := store m 4 a.
Definition set_length (m : radius_msg) : cres radius_msg := store m 2 (WPA_PUT_BE16 (u16 (msg_len m))).
Definition attr_type (m : radius_msg) (pos : Z) : cres Z := rd (mem_of m) pos.
Definition attr_length (m : radius_msg) (pos : Z) : cres Z := rd (mem_of m) (pos + 1).

Definition radius_msg_set_hdr (m : radius_msg) (code identifier : Z) : cres radius_msg :=
  store m 0 [u8 code; u8 identifier].

Definition radius_msg_initialize (b : wpabuf) : M (option radius_msg) :=
  let! ok := os_malloc in
  ret (if ok then Some (mkMsg b [] RADIUS_DEFAULT_ATTR_COUNT) else None).

Definition radius_msg_new (code identifier : Z) : M (option radius_msg) :=
  let! ok := os_malloc in
  if negb ok then ret None else
  let! b := wpabuf_alloc RADIUS_DEFAULT_MSG_SIZE in
  match b with
  | None => ret None
  | Some b =>
      let! m := radius_msg_initialize b in
      match m with
      | None => ret None
      | Some m =>
          let! b := lift (wpabuf_put b sizeof_radius_hdr) in
          let! m := lift (radius_msg_set_hdr (m <| buf := b |>) code identifier) in
          ret (Some m)
      end
  end.

(** *** Adding attributes *)

Definition radius_is_long_ext_type (type : Z) : bool :=
  (type =? RADIUS_ATTR_LONG_EXT_TYPE_1) || (type =? RADIUS_ATTR_LONG_EXT_TYPE_2).

Definition radius_is_ext_type (type : Z) : bool :=
  (RADIUS_ATTR_EXT_TYPE_1 <=? type) && (type <=? RADIUS_ATTR_LONG_EXT_TYPE_2).

(** [false] is the result -1. *)
Definition radius_msg_add_attr_to_array (m : radius_msg) (attr : Z) : M (radius_msg * bool) :=
  if m.(attr_size) <=? attr_used m then
    let! ok := os_malloc in
    ret (if ok then (m <| attr_size := m.(attr_size) * 2 |> <| attr_pos := m.(attr_pos) ++ [attr] |>, true)
         else (m, false))
  else ret (m <| attr_pos := m.(attr_pos) ++ [attr] |>, true).

(** [wpabuf_put] of a header [hdr] and [wpabuf_put_data] of [data]. *)
Definition put_attr (m : radius_msg) (hdr data : list Z) : cres radius_msg :=
  (b <-- wpabuf_put_data m.(buf) hdr;;
   b <-- wpabuf_put_data b data;;
   Ok (m <| buf := b |>))%c.

(** The fragments of a long extended attribute; [attr] is the first one's
    offset.  As the code has it, every fragment is followed by all the data
    left, not by the [alen] bytes its length announces. *)
Fixpoint add_long_ext (fuel : nat) (m : radius_msg) (attr : option Z) (type ext_type : Z) (data : list Z) :
    M (radius_msg * option Z) :=
  match fuel with
  | O => lift Fault
  | S fuel =>
      let plen := 255 - sizeof_radius_attr_hdr_ext - 1 in
      let alen := if plen <? zlen data then plen else zlen data in
      let ext := msg_len m in
      let attr := match attr with None => Some ext | Some a => Some a end in
      let! m := lift (put_attr m [type; u8 (sizeof_radius_attr_hdr_ext + 1 + alen); ext_type;
                                  if alen <? zlen data then 0x80 else 0] data) in
      let data := drop (Z.to_nat alen) data in
      let! r := radius_msg_add_attr_to_array m ext in
      if negb r.2 then ret (r.1, None)
      else if 0 <? zlen data then add_long_ext fuel r.1 attr type ext_type data
      else ret (r.1, attr)
  end.

(** The message afterwards and the offset of the attribute, [None] for NULL. *)
Definition radius_msg_add_attr (m : radius_msg) (type : Z) (data : list Z) : M (radius_msg * option Z) :=
  if (255 <? type) && negb (radius_is_ext_type (u8 (Z.shiftr type 8))) then ret (m, None) else
  let ext_type := if 255 <? type then Z.land type 0xff else 0 in
  let type := if 255 <? type then Z.shiftr type 8 else type in
  let data_len := zlen data in
  let '(max_len, buf_needed) :=
    if radius_is_long_ext_type type then
      let hdr_len := sizeof_radius_attr_hdr_ext + 1 in
      let plen := 255 - hdr_len in
      let num := (data_len + plen - 1) / plen in
      let num := if num =? 0 then 1 else num in
      (4096, num * hdr_len + data_len)
    else if radius_is_ext_type type then (RADIUS_MAX_EXT_ATTR_LEN, sizeof_radius_attr_hdr_ext + data_len)
    else (RADIUS_MAX_ATTR_LEN, sizeof_radius_attr_hdr + data_len) in
  if max_len <? data_len then ret (m, None) else
  let! r := (if wpabuf_tailroom m.(buf) <? buf_needed
             then wpabuf_resize (Some m.(buf)) buf_needed
             else ret (Some m.(buf), true)) in
  match r with
  | (Some b, true) =>
      let m := m <| buf := b |> in
      if radius_is_long_ext_type type then add_long_ext (S (length data)) m None type ext_type data
      else
        let attr := msg_len m in
        let! m := lift (if radius_is_ext_type type
                        then put_attr m [type; u8 (sizeof_radius_attr_hdr_ext + data_len); ext_type] data
                        else put_attr m [type; u8 (sizeof_radius_attr_hdr + data_len)] data) in
        let! r := radius_msg_add_attr_to_array m attr in
        ret (r.1, if r.2 : bool then Some attr else None)
  | _ => ret (m, None)
  end.

Definition radius_msg_add_attr_int32 (m : radius_msg) (type value : Z) : M (radius_msg * bool) :=
  let! r := radius_msg_add_attr m type (WPA_PUT_BE32 value) in
  ret (r.1, match r.2 with Some _ => true | None => false end).

(** The offset of the authenticator's bytes. *)
Definition radius_msg_add_msg_auth (m : radius_msg) : M (radius_msg * option Z) :=
  let! r := radius_msg_add_attr m RADIUS_ATTR_MESSAGE_AUTHENTICATOR (zeros MD5_MAC_LEN) in
  ret (r.1, match r.2 with Some attr => Some (attr + sizeof_radius_attr_hdr) | None => None end).

(** [false] is the result 0. *)
Fixpoint add_eap_loop (fuel : nat) (m : radius_msg) (left : list Z) : M (radius_msg * bool) :=
  match fuel with
  | O => lift Fault
  | S fuel =>
      if 0 <? zlen left then
        let len := if RADIUS_MAX_ATTR_LEN <? zlen left then RADIUS_MAX_ATTR_LEN else zlen left in
        let! r := radius_msg_add_attr m RADIUS_ATTR_EAP_MESSAGE (take (Z.to_nat len) left) in
        match r with
        | (m, None) => ret (m, false)
        | (m, Some _) => add_eap_loop fuel m (drop (Z.to_nat len) left)
        end
      else ret (m, true)
  end.

Definition radius_msg_add_eap (m : radius_msg) (data : list Z) : M (radius_msg * bool) :=
  add_eap_loop (S (length data)) m data.

(** *** Looking at attributes *)

(** The first attribute of a type after [start], and the attribute's bytes. *)
Fixpoint find_attr (m : radius_msg) (type : Z) (start : option Z) (l : list Z) : cres (option Z) :=
  match l with
  | [] => Ok None
  | tmp :: l =>
      (t <-- attr_type m tmp;;
       if (t =? type) && (match start with None => true | Some s => s <? tmp end) then Ok (Some tmp)
       else find_attr m type start l)%c
  end.

(** [None] is the result -1; else the offset and length of the value. *)
Definition radius_msg_get_attr_ptr (m : radius_msg) (type : Z) (start : option Z) : cres (option (Z * Z)) :=
  (attr <-- find_attr m type start m.(attr_pos);;
   match attr with
   | None => Ok None
   | Some attr =>
       len <-- attr_length m attr;;
       if len <? sizeof_radius_attr_hdr then Ok None
       else Ok (Some (attr + sizeof_radius_attr_hdr, len - sizeof_radius_attr_hdr))
   end)%c.

(** The result and, for a buffer of [len] bytes, what is copied to it. *)
Definition radius_msg_get_attr (m : radius_msg) (type : Z) (len : option Z) : cres (Z * list Z) :=
  (attr <-- find_attr m type None m.(attr_pos);;
   match attr with
   | None => Ok (-1, [])
   | Some attr =>
       alen <-- attr_length m attr;;
       if alen <? sizeof_radius_attr_hdr then Ok (-1, [])
       else
         let dlen := alen - sizeof_radius_attr_hdr in
         match len with
         | None => Ok (dlen, [])
         | Some len =>
             bs <-- rdn (mem_of m) (attr + sizeof_radius_attr_hdr) (if len <? dlen then len else dlen);;
             Ok (dlen, bs)
         end
   end)%c.

Definition radius_msg_get_attr_int32 (m : radius_msg) (type : Z) : cres (option Z) :=
  (r <-- radius_msg_get_attr m type (Some 4);;
   if negb (r.1 =? 4) then Ok None else v <-- WPA_GET_BE32 r.2;; Ok (Some v))%c.

Fixpoint count_attr (m : radius_msg) (type min_len : Z) (l : list Z) (count : Z) : cres Z :=
  match l with
  | [] => Ok count
  | attr :: l =>
      (t <-- attr_type m attr;; len <-- attr_length m attr;;
       count_attr m type min_len l
         (if (t =? type) && (sizeof_radius_attr_hdr + min_len <=? len) then count + 1 else count))%c
  end.

Definition radius_msg_count_attr (m : radius_msg) (type min_len : Z) : cres Z :=
  count_attr m type min_len m.(attr_pos) 0.

Fixpoint copy_attr_loop (dst src : radius_msg) (type : Z) (l : list Z) (count : Z) : M (radius_msg * Z) :=
  match l with
  | [] => ret (dst, count)
  | attr :: l =>
      let! t := lift (attr_type src attr) in
      let! len := lift (attr_length src attr) in
      if (t =? type) && (sizeof_radius_attr_hdr <=? len) then
        let! data := lift (rdn (mem_of src) (attr + sizeof_radius_attr_hdr) (len - sizeof_radius_attr_hdr)) in
        let! r := radius_msg_add_attr dst type data in
        match r with
        | (dst, None) => ret (dst, -1)
        | (dst, Some _) => copy_attr_loop dst src type l (count + 1)
        end
      else copy_attr_loop dst src type l count
  end.

Definition radius_msg_copy_attr (dst src : radius_msg) (type : Z) : M (radius_msg * Z) :=
  copy_attr_loop dst src type src.(attr_pos) 0.

(** The first attribute whose type is not in the zero-terminated list [attrs]. *)
Fixpoint listed (type : Z) (attrs : list Z) : cres bool :=
  match attrs with
  | [] => Fault
  | a :: attrs => if a =? 0 then Ok false else if type =? a then Ok true else listed type attrs
  end.

Fixpoint find_unlisted (m : radius_msg) (attrs l : list Z) : cres Z :=
  match l with
  | [] => Ok 0
  | attr :: l =>
      (t <-- attr_type m attr;; known <-- listed t attrs;;
       if known : bool then find_unlisted m attrs l else Ok t)%c
  end.

Definition radius_msg_find_unlisted_attr (m : radius_msg) (attrs : list Z) : cres Z :=
  find_unlisted m attrs m.(attr_pos).

(** *** EAP packets *)

Fixpoint eap_length (m : radius_msg) (l : list Z) (len : Z) : cres Z :=
  match l with
  | [] => Ok len
  | attr :: l =>
      (t <-- attr_type m attr;; alen <-- attr_length m attr;;
       eap_length m l
         (if (t =? RADIUS_ATTR_EAP_MESSAGE) && (sizeof_radius_attr_hdr <? alen)
          then len + (alen - sizeof_radius_attr_hdr) else len))%c
  end.

Fixpoint eap_copy (m : radius_msg) (l : list Z) (eap : wpabuf) : cres wpabuf :=
  match l with
  | [] => Ok eap
  | attr :: l =>
      (t <-- attr_type m attr;; alen <-- attr_length m attr;;
       if (t =? RADIUS_ATTR_EAP_MESSAGE) && (sizeof_radius_attr_hdr <? alen) then
         data <-- rdn (mem_of m) (attr + sizeof_radius_attr_hdr) (alen - sizeof_radius_attr_hdr);;
         eap <-- wpabuf_put_data eap data;;
         eap_copy m l eap
       else eap_copy m l eap)%c
  end.

Definition radius_msg_get_eap (m : option radius_msg) : M (option wpabuf) :=
  match m with
  | None => ret None
  | Some m =>
      let! len := lift (eap_length m m.(attr_pos) 0) in
      if len =? 0 then ret None else
      let! eap := wpabuf_alloc len in
      match eap with
      | None => ret None
      | Some eap => let! eap := lift (eap_copy m m.(attr_pos) eap) in ret (Some eap)
      end
  end.

(** *** Parsing *)

Fixpoint parse_attrs (fuel : nat) (m : radius_msg) (pos : Z) : M (option radius_msg) :=
  match fuel with
  | O => lift Fault
  | S fuel =>
      let end_ := msg_len m in
      if pos <? end_ then
        if end_ - pos <? sizeof_radius_attr_hdr then ret None else
        let! len := lift (attr_length m pos) in
        if (end_ - pos <? len) || (len <? sizeof_radius_attr_hdr) then ret None else
        let! r := radius_msg_add_attr_to_array m pos in
        if r.2 : bool then parse_attrs fuel r.1 (pos + len) else ret None
      else ret (Some m)
  end.

Definition radius_msg_parse (data : option (list Z)) : M (option radius_msg) :=
  match data with
  | None => ret None
  | Some data =>
      if zlen data <? sizeof_radius_hdr then ret None else
      let! msg_len := lift (WPA_GET_BE16 (drop 2 data)) in
      if (msg_len <? sizeof_radius_hdr) || (zlen data <? msg_len) then ret None else
      let! ok := os_malloc in
      if negb ok then ret None else
      let! b := wpabuf_alloc_copy (take (Z.to_nat msg_len) data) in
      match b with
      | None => ret None
      | Some b =>
          let! m := radius_msg_initialize b in
          match m with
          | None => ret None
          | Some m => parse_attrs (S (length data)) m sizeof_radius_hdr
          end
      end
  end.

(** *** Signing and checking *)

Section signed.
Context `{HM : !Hmac} `{MD : !Md5}.

(** [md5_vector(..., hash)] with its result ignored: on failure [hash] keeps what
    it held, [None] when that is nothing, which the code then reads. *)
Definition md5_into (old : option (list Z)) (data : list Z) : cres (list Z) :=
  match md5 data, old with
  | Some h, _ => Ok h
  | None, Some h => Ok h
  | None, None => Fault
  end.

Definition radius_msg_auth_pos (m : radius_msg) : M (radius_msg * option Z) :=
  let! r := lift (radius_msg_get_attr_ptr m RADIUS_ATTR_MESSAGE_AUTHENTICATOR None) in
  match r with
  | Some (pos, alen) => if alen =? MD5_MAC_LEN then ret (m, Some pos) else radius_msg_add_msg_auth m
  | None => radius_msg_add_msg_auth m
  end.

(** [hmac_md5] of the message into the message; the result -1 is [false]. *)
Definition hmac_message (m : radius_msg) (secret : list Z) (pos : Z) : cres (radius_msg * bool) :=
  match hmac MD5 secret (message m) with
  | None => Ok (m, false)
  | Some mac => (m <-- store m pos mac;; Ok (m, true))%c
  end.

(** The final check of the functions that finish a message. *)
Definition length_ok (m : radius_msg) : bool := negb (0xffff <? msg_len m).

Definition radius_msg_finish (m : radius_msg) (secret : option (list Z)) : M (radius_msg * Z) :=
  match secret with
  | Some secret =>
      let! r := radius_msg_auth_pos m in
      match r with
      | (m, None) => ret (m, -1)
      | (m, Some pos) =>
          let! m := lift (set_length m) in
          let! r := lift (hmac_message m secret pos) in
          if negb r.2 then ret (r.1, -1)
          else ret (r.1, if length_ok r.1 then 0 else -1)
      end
  | None =>
      let! m := lift (set_length m) in
      ret (m, if length_ok m then 0 else -1)
  end.

(** The attributes, [wpabuf_head_u8(msg->buf) + sizeof(struct radius_hdr)]. *)
Definition attributes (m : radius_msg) : cres (list Z) :=
  rdn (mem_of m) sizeof_radius_hdr (msg_len m - sizeof_radius_hdr).

(** [md5_vector] over the header up to [a], [a], the attributes and the secret. *)
Definition response_data (m : radius_msg) (a secret : list Z) : cres (list Z) :=
  (h <-- rdn (mem_of m) 0 4;; l <-- attributes m;; Ok (h ++ a ++ l ++ secret))%c.

Definition radius_msg_finish_srv (m : radius_msg) (secret req_authenticator : list Z) : M (radius_msg * Z) :=
  let! r := radius_msg_auth_pos m in
  match r with
  | (m, None) => ret (m, -1)
  | (m, Some pos) =>
      let! m := lift (set_length m) in
      let! m := lift (set_authenticator m req_authenticator) in
      let! r := lift (hmac_message m secret pos) in
      if negb r.2 then ret (r.1, -1) else
      let m := r.1 in
      let! data := lift (response_data m req_authenticator secret) in
      let! old := lift (authenticator m) in
      let! h := lift (md5_into (Some old) data) in
      let! m := lift (set_authenticator m h) in
      ret (m, if length_ok m then 0 else -1)
  end.

(** [req_hdr] gives only its authenticator. *)
Definition radius_msg_finish_das_resp (m : radius_msg) (secret req_authenticator : list Z) : M (radius_msg * Z) :=
  let! r := radius_msg_auth_pos m in
  match r with
  | (m, None) => ret (m, -1)
  | (m, Some pos) =>
      let! m := lift (set_length m) in
      let! m := lift (set_authenticator m req_authenticator) in
      let! r := lift (hmac_message m secret pos) in
      if negb r.2 then ret (r.1, -1) else
      let m := r.1 in
      match md5 (message m ++ secret) with
      | None => ret (m, -1)
      | Some h =>
          let! m := lift (set_authenticator m h) in
          ret (m, if length_ok m then 0 else -1)
      end
  end.

(** An accounting request is signed over a zero authenticator, its response
    over the request's. *)
Definition finish_with (m : radius_msg) (secret a : list Z) : cres radius_msg :=
  (m <-- set_length m;;
   m <-- set_authenticator m a;;
   h <-- md5_into (Some a) (message m ++ secret);;
   set_authenticator m h)%c.

Definition radius_msg_finish_acct (m : radius_msg) (secret : list Z) : cres radius_msg :=
  finish_with m secret (zeros MD5_MAC_LEN).

Definition radius_msg_finish_acct_resp (m : radius_msg) (secret req_authenticator : list Z) : cres radius_msg :=
  finish_with m secret req_authenticator.

(** The results of the checks: 0 is accepted, 1 is not. *)
Definition checked (b : bool) : Z := if b then 0 else 1.

Definition radius_msg_verify_acct_req (m : radius_msg) (secret : list Z) : cres Z :=
  (data <-- response_data m (zeros MD5_MAC_LEN) secret;;
   h <-- md5_into None data;;
   a <-- authenticator m;;
   Ok (checked (bool_decide (a = h))))%c.

(** The only Message-Authenticator: [None] when there are several, [Some None]
    when there is none. *)
Fixpoint only_msg_auth (m : radius_msg) (attr : option Z) (l : list Z) : cres (option (option Z)) :=
  match l with
  | [] => Ok (Some attr)
  | tmp :: l =>
      (t <-- attr_type m tmp;;
       if t =? RADIUS_ATTR_MESSAGE_AUTHENTICATOR then
         match attr with Some _ => Ok None | None => only_msg_auth m (Some tmp) l end
       else only_msg_auth m attr l)%c
  end.

Definition radius_msg_verify_das_req (m : radius_msg) (secret : list Z) (require : bool) : cres (radius_msg * Z) :=
  (data <-- response_data m (zeros MD5_MAC_LEN) secret;;
   h <-- md5_into None data;;
   a <-- authenticator m;;
   if negb (bool_decide (a = h)) then Ok (m, 1) else
   attr <-- only_msg_auth m None m.(attr_pos);;
   match attr with
   | None => Ok (m, 1)
   | Some None => Ok (m, if require then 1 else 0)
   | Some (Some attr) =>
       orig <-- rdn (mem_of m) (attr + sizeof_radius_attr_hdr) MD5_MAC_LEN;;
       m <-- store m (attr + sizeof_radius_attr_hdr) (zeros MD5_MAC_LEN);;
       orig_authenticator <-- authenticator m;;
       m <-- set_authenticator m (zeros 16);;
       match hmac MD5 secret (message m) with
       | None => Fault (* [auth] is read without having been set *)
       | Some auth =>
           m <-- store m (attr + sizeof_radius_attr_hdr) orig;;
           m <-- set_authenticator m orig_authenticator;;
           Ok (m, checked (bool_decide (orig = auth)))
       end
   end)%c.

Definition radius_msg_verify_msg_auth (m : radius_msg) (secret : list Z) (req_auth : option (list Z)) :
    cres (radius_msg * Z) :=
  (attr <-- only_msg_auth m None m.(attr_pos);;
   match attr with
   | None => Ok (m, 1)
   | Some None => Ok (m, 1)
   | Some (Some attr) =>
       orig <-- rdn (mem_of m) (attr + sizeof_radius_attr_hdr) MD5_MAC_LEN;;
       m <-- store m (attr + sizeof_radius_attr_hdr) (zeros MD5_MAC_LEN);;
       orig_authenticator <-- authenticator m;;
       m <-- match req_auth with Some a => set_authenticator m a | None => Ok m end;;
       match hmac MD5 secret (message m) with
       | None => Ok (m, 1)
       | Some auth =>
           m <-- store m (attr + sizeof_radius_attr_hdr) orig;;
           m <-- match req_auth with Some _ => set_authenticator m orig_authenticator | None => Ok m end;;
           Ok (m, checked (bool_decide (orig = auth)))
       end
   end)%c.

(** [sent_msg] gives only its authenticator. *)
Definition radius_msg_verify (m : radius_msg) (secret : list Z) (sent : option (list Z)) (auth : bool) :
    cres (radius_msg * Z) :=
  match sent with
  | None => Ok (m, 1)
  | Some sent =>
      (auth <-- (if auth then Ok true else
                   r <-- radius_msg_get_attr_ptr m RADIUS_ATTR_MESSAGE_AUTHENTICATOR None;;
                   Ok (match r with Some _ => true | None => false end));;
       r <-- (if auth : bool then radius_msg_verify_msg_auth m secret (Some sent) else Ok (m, 0));;
       let m := r.1 in
       if negb (r.2 =? 0) then Ok (m, 1) else
       data <-- response_data m sent secret;;
       match md5 data with
       | None => Ok (m, 1)
       | Some h => a <-- authenticator m;; Ok (m, checked (bool_decide (h = a)))
       end)%c
  end.

(** [rnd] is what [os_get_random] gives, [None] when it fails. *)
Definition radius_msg_make_authenticator (m : radius_msg) (rnd : option (list Z)) : cres (radius_msg * Z) :=
  match rnd with
  | None => Ok (m, -1)
  | Some a => (m <-- set_authenticator m a;; Ok (m, 0))%c
  end.

(** *** Vendor attributes and hidden keys *)

(** The value of the first vendor attribute [subtype] among the [left] bytes at
    [pos]: [None] to go on with the next attribute. *)
Fixpoint find_vendor (fuel : nat) (m : radius_msg) (subtype pos left : Z) : cres (option (list Z)) :=
  match fuel with
  | O => Fault
  | S fuel =>
      if left <? sizeof_radius_attr_vendor then Ok None else
      (vendor_type <-- rd (mem_of m) pos;;
       vendor_length <-- rd (mem_of m) (pos + 1);;
       if (left <? vendor_length) || (vendor_length <? sizeof_radius_attr_vendor) then Ok None
       else if negb (vendor_type =? subtype) then
         find_vendor fuel m subtype (pos + vendor_length) (left - vendor_length)
       else
         data <-- rdn (mem_of m) (pos + sizeof_radius_attr_vendor) (vendor_length - sizeof_radius_attr_vendor);;
         Ok (Some data))%c
  end.

Fixpoint get_vendor_attr (m : radius_msg) (vendor subtype : Z) (l : list Z) : M (option (list Z)) :=
  match l with
  | [] => ret None
  | attr :: l =>
      let! t := lift (attr_type m attr) in
      let! len := lift (attr_length m attr) in
      if negb (t =? RADIUS_ATTR_VENDOR_SPECIFIC) || (len <? sizeof_radius_attr_hdr) then
        get_vendor_attr m vendor subtype l
      else
        let left := len - sizeof_radius_attr_hdr in
        if left <? 4 then get_vendor_attr m vendor subtype l else
        let pos := attr + sizeof_radius_attr_hdr in
        let! id := lift (rdn (mem_of m) pos 4) in
        let! vendor_id := lift (WPA_GET_BE32 id) in
        if negb (vendor_id =? vendor) then get_vendor_attr m vendor subtype l else
        let! data := lift (find_vendor (S (Z.to_nat left)) m subtype (pos + 4) (left - 4)) in
        match data with
        | None => get_vendor_attr m vendor subtype l
        | Some data => let! ok := os_malloc in ret (if ok then Some data else None)
        end
  end.

Definition radius_msg_get_vendor_attr (m : option radius_msg) (vendor subtype : Z) : M (option (list Z)) :=
  match m with None => ret None | Some m => get_vendor_attr m vendor subtype m.(attr_pos) end.

Definition xor_block (a b : list Z) : list Z := zip_with Z.lxor a b.

(** The blocks of [pos], each combined with the digest of the secret and the
    ciphertext before it. *)
Fixpoint decrypt_blocks (fuel : nat) (secret before pos : list Z) : cres (option (list Z)) :=
  match fuel with
  | O => Fault
  | S fuel =>
      if 0 <? zlen pos then
        match md5 (secret ++ before) with
        | None => Ok None
        | Some hash =>
            (block <-- rdn pos 0 MD5_MAC_LEN;;
             rest <-- decrypt_blocks fuel secret block (drop 16 pos);;
             Ok (match rest with None => None | Some rest => Some (xor_block block hash ++ rest) end))%c
        end
      else Ok (Some [])
  end.

Definition decrypt_ms_key (key req_authenticator secret : list Z) : M (option (list Z)) :=
  if zlen key <? 2 + 16 then ret None else
  let pos := drop 2 key in
  if negb (zlen pos mod 16 =? 0) then ret None else
  let! ok := os_malloc in
  if negb ok then ret None else
  let! plain := lift (decrypt_blocks (S (length pos)) secret (req_authenticator ++ take 2 key) pos) in
  match plain with
  | None => ret None
  | Some plain =>
      let! n := lift (rd plain 0) in
      if (n =? 0) || (zlen plain - 1 <? n) then ret None else
      let! res := lift (rdn plain 1 n) in
      let! ok := os_malloc in
      ret (if ok then Some res else None)
  end.

(** [hash] is what the digest's buffer holds. *)
Fixpoint encrypt_blocks (fuel : nat) (secret before : list Z) (hash : option (list Z)) (pos : list Z) :
    cres (list Z) :=
  match fuel with
  | O => Fault
  | S fuel =>
      if 0 <? zlen pos then
        (hash <-- md5_into hash (secret ++ before);;
         block <-- rdn pos 0 MD5_MAC_LEN;;
         let block := xor_block block hash in
         rest <-- encrypt_blocks fuel secret block (Some hash) (drop 16 pos);;
         Ok (block ++ rest))%c
      else Ok []
  end.

(** The length of the ciphertext, as the code rounds it. *)
Definition ms_key_len (key_len : Z) : Z :=
  let len := 1 + key_len in
  if negb (Z.land len 0x0f =? 0) then Z.land len 0xf0 + 16 else len.

(** The key is written to [ebuf], which has room for it, over [len] zeros; only
    [len] bytes are encrypted and used. *)
Definition encrypt_ms_key (key : list Z) (salt : Z) (req_authenticator secret : list Z) : cres (list Z) :=
  let len := ms_key_len (zlen key) in
  let ebuf := take (Z.to_nat len) (u8 (zlen key) :: key ++ zeros 16) in
  encrypt_blocks (S (length ebuf)) secret (req_authenticator ++ WPA_PUT_BE16 salt) None ebuf.

(** [struct radius_ms_mppe_keys] *)
Record radius_ms_mppe_keys := mkKeys { send : option (list Z); recv : option (list Z) }.

(** [sent] is the authenticator of the request. *)
Definition get_ms_key (m : option radius_msg) (subtype : Z) (sent secret : list Z) : M (option (list Z)) :=
  let! key := radius_msg_get_vendor_attr m RADIUS_VENDOR_ID_MICROSOFT subtype in
  match key with None => ret None | Some key => decrypt_ms_key key sent secret end.

Definition radius_msg_get_ms_keys (m : option radius_msg) (sent : option (list Z)) (secret : list Z) :
    M (option radius_ms_mppe_keys) :=
  match m, sent with
  | Some _, Some sent =>
      let! ok := os_malloc in
      if negb ok then ret None else
      let! s := get_ms_key m RADIUS_VENDOR_ATTR_MS_MPPE_SEND_KEY sent secret in
      let! r := get_ms_key m RADIUS_VENDOR_ATTR_MS_MPPE_RECV_KEY sent secret in
      ret (Some (mkKeys s r))
  | _, _ => ret None
  end.

Definition radius_msg_get_cisco_keys (m : option radius_msg) (sent : option (list Z)) (secret : list Z) :
    M (option radius_ms_mppe_keys) :=
  match m, sent with
  | Some _, Some sent =>
      let! ok := os_malloc in
      if negb ok then ret None else
      let! key := radius_msg_get_vendor_attr m RADIUS_VENDOR_ID_CISCO RADIUS_CISCO_AV_PAIR in
      match key with
      | Some key =>
          if (zlen key =? 51) && bool_decide (take 17 key = str "leap:session-key=") then
            let! r := decrypt_ms_key (drop 17 key) sent secret in
            ret (Some (mkKeys None r))
          else ret (Some (mkKeys None None))
      | None => ret (Some (mkKeys None None))
      end
  | _, _ => ret None
  end.

(** A vendor attribute of a message: the vendor, and one attribute of it. *)
Definition vendor_value (vendor type len : Z) (data : list Z) : list Z :=
  WPA_PUT_BE32 vendor ++ [u8 type; u8 len] ++ data.

Definition add_mppe_key (m : radius_msg) (type salt : Z) (req_authenticator secret key : list Z) :
    M (radius_msg * bool) :=
  let hlen := 4 + sizeof_radius_attr_vendor + 2 in
  let! e := lift (encrypt_ms_key key salt req_authenticator secret) in
  let! r := radius_msg_add_attr m RADIUS_ATTR_VENDOR_SPECIFIC
              (vendor_value RADIUS_VENDOR_ID_MICROSOFT type (hlen + zlen e - 4) (WPA_PUT_BE16 salt ++ e)) in
  ret (r.1, match r.2 with Some _ => true | None => false end).

(** [rnd] is the random salt, [None] when there is none; [false] is the
    result 0. *)
Definition radius_msg_add_mppe_keys (m : radius_msg) (req_authenticator secret send_key recv_key : list Z)
    (rnd : option Z) : M (radius_msg * bool) :=
  let! ok := os_malloc in
  if negb ok then ret (m, false) else
  match rnd with
  | None => ret (m, false)
  | Some salt =>
      let salt := Z.lor salt 0x8000 in
      let! r := add_mppe_key m RADIUS_VENDOR_ATTR_MS_MPPE_SEND_KEY salt req_authenticator secret send_key in
      if negb r.2 then ret (r.1, false) else
      let! ok := os_malloc in
      if negb ok then ret (r.1, false) else
      let salt := Z.lxor salt 1 in
      add_mppe_key r.1 RADIUS_VENDOR_ATTR_MS_MPPE_RECV_KEY salt req_authenticator secret recv_key
  end.

Definition radius_msg_add_wfa (m : radius_msg) (subtype : Z) (data : list Z) : M (radius_msg * bool) :=
  let! ok := os_malloc in
  if negb ok then ret (m, false) else
  let! r := radius_msg_add_attr m RADIUS_ATTR_VENDOR_SPECIFIC
              (vendor_value RADIUS_VENDOR_ID_WFA subtype (2 + zlen data) data) in
  ret (r.1, match r.2 with Some _ => true | None => false end).

Definition radius_msg_add_ext_vs (m : radius_msg) (type vendor_id vendor_type : Z) (data : list Z) :
    M (radius_msg * bool) :=
  let! ok := os_malloc in
  if negb ok then ret (m, false) else
  let! r := radius_msg_add_attr m type (WPA_PUT_BE32 vendor_id ++ [u8 vendor_type] ++ data) in
  ret (r.1, match r.2 with Some _ => true | None => false end).

(** *** Passwords *)

(** [buf[pos + i] ^= hash[i]] for the 16 bytes of a block. *)
Definition xor_at (buf : list Z) (pos : Z) (hash : list Z) : cres (list Z) :=
  (block <-- rdn buf pos 16;; wr buf pos (xor_block block hash))%c.

Fixpoint hide_loop (fuel : nat) (buf secret hash : list Z) (pos buf_len : Z) : cres (list Z) :=
  match fuel with
  | O => Fault
  | S fuel =>
      if pos <? buf_len then
        (before <-- rdn buf (pos - 16) 16;;
         hash <-- md5_into (Some hash) (secret ++ before);;
         buf <-- xor_at buf pos hash;;
         hide_loop fuel buf secret hash (pos + 16) buf_len)%c
      else Ok buf
  end.

(** The result, -1 when the buffer is too small, and the buffer. *)
Definition radius_user_password_hide (m : radius_msg) (data secret buf : list Z) : cres (Z * list Z) :=
  let data_len := zlen data in
  if zlen buf <? data_len + 16 then Ok (-1, buf) else
  (buf1 <-- wr buf 0 data;;
   let padlen := data_len mod 16 in
   r <-- (if negb (padlen =? 0) && (data_len <? zlen buf) then
            let padlen := 16 - padlen in
            buf2 <-- wr buf1 data_len (zeros padlen);;
            Ok (buf2, data_len + padlen)
          else Ok (buf1, data_len));;
   a <-- authenticator m;;
   hash <-- md5_into None (secret ++ a);;
   buf3 <-- xor_at r.1 0 hash;;
   buf4 <-- hide_loop (S (Z.to_nat r.2)) buf3 secret hash 16 r.2;;
   Ok (r.2, buf4))%c.

(** The buffer on the stack holds zeros here; what it held does not reach the
    attribute. *)
Definition radius_msg_add_attr_user_password (m : radius_msg) (data secret : list Z) :
    M (radius_msg * option Z) :=
  let! r := lift (radius_user_password_hide m data secret (zeros 128)) in
  if r.1 <? 0 then ret (m, None)
  else radius_msg_add_attr m RADIUS_ATTR_USER_PASSWORD (take (Z.to_nat r.1) r.2).

(** The value of the [n]-th valid Tunnel-Password attribute after [j] of them. *)
Fixpoint find_tunnel_password (m : radius_msg) (n j : Z) (l : list Z) : cres (option (list Z)) :=
  match l with
  | [] => Ok None
  | attr :: l =>
      (t <-- attr_type m attr;;
       len <-- attr_length m attr;;
       let dlen := len - sizeof_radius_attr_hdr in
       if negb (t =? RADIUS_ATTR_TUNNEL_PASSWORD) || (len <=? 5) || (dlen <=? 3) || negb (dlen mod 16 =? 3) then
         find_tunnel_password m n j l
       else if j + 1 <=? n then find_tunnel_password m n (j + 1) l
       else data <-- rdn (mem_of m) (attr + sizeof_radius_attr_hdr) dlen;; Ok (Some data))%c
  end.

(** The blocks but the first, from the last one at [pos] back; the position
    where the loop ends. *)
Fixpoint unhide_loop (fuel : nat) (buf secret : list Z) (hash : option (list Z)) (pos : Z) :
    cres (list Z * option (list Z) * Z) :=
  match fuel with
  | O => Fault
  | S fuel =>
      if 3 + 16 <=? pos then
        (before <-- rdn buf (pos - 16) 16;;
         hash <-- md5_into hash (secret ++ before);;
         buf <-- xor_at buf pos hash;;
         unhide_loop fuel buf secret (Some hash) (pos - 16))%c
      else Ok (buf, hash, pos)
  end.

(** The password; [sent] is the authenticator of the request. *)
Definition radius_msg_get_tunnel_password (m : radius_msg) (secret sent : list Z) (n : Z) :
    M (option (list Z)) :=
  let! fdata := lift (find_tunnel_password m n 0 m.(attr_pos)) in
  match fdata with
  | None => ret None
  | Some fdata =>
      let! ok := os_malloc in
      if negb ok then ret None else
      let buflen := zlen fdata in
      let! r := lift (unhide_loop (S (length fdata)) fdata secret None (buflen - 16)) in
      let '(b, hash, pos) := r in
      if negb (pos =? 3) then ret None else
      let! salt := lift (rdn b 1 2) in
      let! hash := lift (md5_into hash (secret ++ sent ++ salt)) in
      let! b := lift (xor_at b pos hash) in
      let! keylen := lift (rd b 3) in
      if buflen <=? 3 + keylen then ret None
      else if keylen =? 0 then ret None else
      let! ok := os_malloc in
      if negb ok then ret None else
      let! s := lift (rdn b (3 + 1) keylen) in
      ret (Some s)
  end.

End signed.

(** *** VLANs *)

(** [struct radius_tunnel_attrs] *)
Record radius_tunnel_attrs := mkTunnel { tag_used : Z; type : Z; medium_type : Z; vlanid : Z }.

#[export] Instance settable_tunnel : Settable radius_tunnel_attrs :=
  fun t => mkTunnel t.(tag_used) t.(type) t.(medium_type) t.(vlanid).

#[export] Instance tunnel_inhabited : Inhabited radius_tunnel_attrs := populate (mkTunnel 0 0 0 0).

(** [atoi] of a terminated string of fewer than ten characters. *)
Definition isspace (c : Z) : bool := (c =? 32) || ((9 <=? c) && (c <=? 13)).

Fixpoint digits (v : Z) (s : list Z) : Z :=
  match s with
  | c :: s => if (48 <=? c) && (c <=? 57) then digits (10 * v + (c - 48)) s else v
  | [] => v
  end.

Fixpoint atoi (s : list Z) : Z :=
  match s with
  | c :: s' =>
      if isspace c then atoi s'
      else if c =? 45 then - digits 0 s'
      else if c =? 43 then digits 0 s'
      else digits 0 s
  | [] => 0
  end.

(** The state of the walk over the attributes. *)
Record vlan_state := mkVlan { tunnel : list radius_tunnel_attrs; untagged : Z; tagged : list Z; taggedidx : Z }.

#[export] Instance settable_vlan : Settable vlan_state :=
  fun s => mkVlan s.(tunnel) s.(untagged) s.(tagged) s.(taggedidx).

Definition set_tunnel (s : vlan_state) (i : nat) (f : radius_tunnel_attrs -> radius_tunnel_attrs) : vlan_state :=
  s <| tunnel := <[i := f (s.(tunnel) !!! i)]> s.(tunnel) |>.

(** One attribute of type [t] with value [data], of at least one byte;
    [numtagged] is the size of the caller's array, [None] for NULL. *)
Definition vlan_attr (numtagged : option Z) (s : vlan_state) (t : Z) (data : list Z) : cres vlan_state :=
  let tag := at_ data 0 in
  let tun := if RADIUS_TUNNEL_TAGS <=? tag then O else Z.to_nat tag in
  let used tr := tr <| tag_used := tr.(tag_used) + 1 |> in
  if t =? RADIUS_ATTR_TUNNEL_TYPE then
    if negb (zlen data =? 4) then Ok s
    else (v <-- Kde.WPA_GET_BE24 (drop 1 data);; Ok (set_tunnel s tun (fun tr => used tr <| type := v |>)))%c
  else if t =? RADIUS_ATTR_TUNNEL_MEDIUM_TYPE then
    if negb (zlen data =? 4) then Ok s
    else (v <-- Kde.WPA_GET_BE24 (drop 1 data);; Ok (set_tunnel s tun (fun tr => used tr <| medium_type := v |>)))%c
  else if t =? RADIUS_ATTR_TUNNEL_PRIVATE_GROUP_ID then
    let data := if tag <? RADIUS_TUNNEL_TAGS then drop 1 data else data in
    if 10 <=? zlen data then Ok s else
    let vlan_id := atoi data in
    if vlan_id <=? 0 then Ok s else Ok (set_tunnel s tun (fun tr => used tr <| vlanid := vlan_id |>))
  else if t =? RADIUS_ATTR_EGRESS_VLANID then
    if negb (zlen data =? 4) then Ok s else
    (vlan_id <-- Kde.WPA_GET_BE24 (drop 1 data);;
     if vlan_id <=? 0 then Ok s
     else if tag =? 0x32 then Ok (s <| untagged := vlan_id |>)
     else match numtagged with
          | Some n =>
              if (tag =? 0x31) && (s.(taggedidx) <? n) then
                Ok (s <| tagged := <[Z.to_nat s.(taggedidx) := vlan_id]> s.(tagged) |>
                      <| taggedidx := s.(taggedidx) + 1 |>)
              else Ok s
          | None => Ok s
          end)%c
  else Ok s.

(** [false] is the result -1. *)
Fixpoint vlan_loop (m : radius_msg) (numtagged : option Z) (s : vlan_state) (l : list Z) : cres (vlan_state * bool) :=
  match l with
  | [] => Ok (s, true)
  | attr :: l =>
      (len <-- attr_length m attr;;
       if len <? sizeof_radius_attr_hdr then Ok (s, false)
       else if len <? 3 then vlan_loop m numtagged s l
       else
         t <-- attr_type m attr;;
         data <-- rdn (mem_of m) (attr + sizeof_radius_attr_hdr) (len - sizeof_radius_attr_hdr);;
         s <-- vlan_attr numtagged s t data;;
         vlan_loop m numtagged s l)%c
  end.

(** The tunnel with the lowest tag that names a VLAN. *)
Definition vlan_tunnel (t : radius_tunnel_attrs) : bool :=
  negb (t.(tag_used) =? 0) && (t.(type) =? RADIUS_TUNNEL_TYPE_VLAN) &&
  (t.(medium_type) =? RADIUS_TUNNEL_MEDIUM_TYPE_802) && (0 <? t.(vlanid)).

Definition lowest_tunnel (l : list radius_tunnel_attrs) (untagged : Z) : Z :=
  match List.find vlan_tunnel l with Some t => t.(vlanid) | None => untagged end.

(** The result, the untagged VLAN and the array; the VLANs found are sorted, as
    [qsort] with [cmp_int] sorts them. *)
Definition radius_msg_get_vlanid (m : radius_msg) (numtagged : option Z) : cres (Z * Z * list Z) :=
  let n := default 0 numtagged in
  (r <-- vlan_loop m numtagged (mkVlan (replicate 32 (mkTunnel 0 0 0 0)) 0 (zeros n) 0) m.(attr_pos);;
   let s := r.1 in
   if negb r.2 then Ok (-1, s.(untagged), s.(tagged)) else
   let untagged := lowest_tunnel s.(tunnel) s.(untagged) in
   let k := Z.to_nat s.(taggedidx) in
   let tagged := if s.(taggedidx) =? 0 then s.(tagged)
                 else merge_sort Z.le (take k s.(tagged)) ++ drop k s.(tagged) in
   Ok (if (0 <? untagged) || negb (s.(taggedidx) =? 0) then 1 else 0, untagged, tagged))%c.

End Radius.
