(* ===== verification/RadiusMsg.v ===== *)
(** * What RADIUS messages hold

    A message represents a header and a list of attributes, each a type and a
    value ([rep]).  Every operation of [Radius] is related to that list: building
    appends to it, parsing recovers it, the accessors search it. *)

From S2P Require Import Prelude WpaDefs WpaKey Wpabuf Radius.

Module RadiusMsg.
Import WpaDefs WpaKey Wpabuf Radius.

#[local] Open Scope Z_scope.
#[local] Open Scope list_scope.

(** ** The attributes of a message *)

Definition attr : Type := Z * list Z.

(** An attribute on the wire. *)
Definition tlv (a : attr) : list Z := a.1 :: (2 + zlen a.2) :: a.2.
Definition enc (l : list attr) : list Z := concat (map tlv l).

Definition good (a : attr) : Prop := is_byte a.1 /\ bytes a.2 /\ zlen a.2 <= RADIUS_MAX_ATTR_LEN.

Definition attr_size_of (a : attr) : Z := 2 + zlen a.2.

Fixpoint offsets (o : Z) (l : list attr) : list Z :=
  match l with [] => [] | a :: l => o :: offsets (o + attr_size_of a) l end.

(** [m] is the message with header [h] and attributes [l]. *)
Record rep (m : radius_msg) (h : list Z) (l : list attr) : Prop := mkRep {
  rep_holds : holds m.(buf) (h ++ enc l);
  rep_length : zlen h = sizeof_radius_hdr;
  rep_bytes : bytes h;
  rep_good : Forall good l;
  rep_pos : m.(attr_pos) = offsets sizeof_radius_hdr l
}.

Lemma enc_app l k : enc (l ++ k) = enc l ++ enc k.
Proof. unfold enc. by rewrite map_app, concat_app. Qed.

Lemma enc_cons a l : enc (a :: l) = tlv a ++ enc l.
Proof. done. Qed.

Lemma length_tlv a : zlen (tlv a) = attr_size_of a.
Proof. unfold tlv, attr_size_of. cbn [length]. lia. Qed.

Lemma attr_size_pos a : 2 <= attr_size_of a.
Proof. unfold attr_size_of. lia. Qed.

Lemma length_enc_cons a l : zlen (enc (a :: l)) = attr_size_of a + zlen (enc l).
Proof. rewrite enc_cons, length_app, Nat2Z.inj_add, length_tlv. done. Qed.

Lemma bytes_tlv a : good a -> bytes (tlv a).
Proof.
  intros (Ht & Hv & Hl). unfold RADIUS_MAX_ATTR_LEN, sizeof_radius_attr_hdr in Hl.
  unfold tlv. rewrite !bytes_cons. split_and!; try lia; done.
Qed.

Lemma bytes_enc l : Forall good l -> bytes (enc l).
Proof. induction 1; [constructor|]. rewrite enc_cons, bytes_app. auto using bytes_tlv. Qed.

Lemma offsets_app o l k : offsets o (l ++ k) = offsets o l ++ offsets (o + zlen (enc l)) k.
Proof.
  revert o. induction l as [|a l IH]; intros o; cbn [offsets app].
  - f_equal. cbn. lia.
  - rewrite IH, length_enc_cons. do 2 f_equal. f_equal. lia.
Qed.

Lemma length_offsets o l : length (offsets o l) = length l.
Proof. revert o. induction l; intros; cbn; auto. Qed.

(** ** Reading attributes *)

Lemma rd_mid (pre : list Z) x post o : zlen pre = o -> rd (pre ++ x :: post) o = Ok x.
Proof.
  intros <-. rewrite rd_ok.
  - f_equal. unfold at_. rewrite app_nth2 by lia. rewrite Nat2Z.id, Nat.sub_diag. done.
  - rewrite length_app. cbn. lia.
Qed.

Lemma rdn_mid (pre bs post : list Z) o n : zlen pre = o -> zlen bs = n -> rdn (pre ++ bs ++ post) o n = Ok bs.
Proof.
  intros <- <-. rewrite rdn_ok by (rewrite ?length_app; lia). f_equal. unfold slice.
  rewrite drop_app_length' by lia. by rewrite take_app_length' by lia.
Qed.

Lemma wr_mid (pre bs cs post : list Z) o :
  zlen pre = o -> length bs = length cs -> wr (pre ++ bs ++ post) o cs = Ok (pre ++ cs ++ post).
Proof.
  intros <- Hl. unfold wr.
  destruct (Z.leb_spec 0 (zlen pre)); [|lia].
  destruct (Z.leb_spec (zlen pre + zlen cs) (zlen (pre ++ bs ++ post))); [|rewrite !length_app in *; lia].
  cbn. f_equal. unfold put. rewrite Nat2Z.id, <- Hl.
  rewrite take_app_length, <- drop_drop, drop_app_length, drop_app_length. done.
Qed.

(** The memory [l] has the attributes [k] at [o]. *)
Definition placed (l : list Z) (o : Z) (k : list attr) : Prop :=
  exists pre post, l = pre ++ enc k ++ post /\ zlen pre = o.

Lemma placed_read (m : radius_msg) o a k :
  placed (mem_of m) o (a :: k) ->
  attr_type m o = Ok a.1 /\ attr_length m o = Ok (attr_size_of a) /\
  rdn (mem_of m) (o + 2) (attr_size_of a - 2) = Ok a.2 /\ placed (mem_of m) (o + attr_size_of a) k.
Proof.
  intros (pre & post & E & Ho). unfold attr_type, attr_length. rewrite E, enc_cons. clear E.
  unfold tlv, attr_size_of. split_and!.
  - by apply rd_mid.
  - change (pre ++ (a.1 :: 2 + zlen a.2 :: a.2) ++ enc k) with (pre ++ [a.1] ++ (2 + zlen a.2 :: a.2) ++ enc k).
    replace (pre ++ ((a.1 :: 2 + zlen a.2 :: a.2) ++ enc k) ++ post)
      with ((pre ++ [a.1]) ++ (2 + zlen a.2) :: (a.2 ++ enc k) ++ post)
      by (rewrite <- !app_assoc; done).
    apply rd_mid. rewrite length_app. cbn. lia.
  - replace (pre ++ ((a.1 :: 2 + zlen a.2 :: a.2) ++ enc k) ++ post)
      with ((pre ++ [a.1; 2 + zlen a.2]) ++ a.2 ++ enc k ++ post)
      by (rewrite <- !app_assoc; done).
    apply rdn_mid; [rewrite length_app; cbn; lia|lia].
  - exists (pre ++ a.1 :: 2 + zlen a.2 :: a.2), post. split; [by rewrite <- !app_assoc|].
    rewrite length_app. cbn [length]. lia.
Qed.

Lemma holds_mem b l : holds b l -> exists post, b.(mem) = l ++ post.
Proof.
  intros [H _]. exists (drop (Z.to_nat b.(used)) b.(mem)).
  unfold wpabuf_head in H. by rewrite <- H, take_drop.
Qed.

Lemma rep_placed m h l : rep m h l -> placed (mem_of m) sizeof_radius_hdr l.
Proof.
  intros []. destruct (holds_mem _ _ rep_holds0) as [post E]. exists h, post.
  split; [|done]. unfold mem_of. by rewrite E, <- app_assoc.
Qed.

Lemma rep_header m h l : rep m h l -> exists post, mem_of m = h ++ post.
Proof.
  intros []. destruct (holds_mem _ _ rep_holds0) as [post E]. exists (enc l ++ post).
  unfold mem_of. by rewrite E, <- app_assoc.
Qed.

(** A pass of a loop over the attributes: reads of the attribute at hand become
    its type, length and value. *)
Ltac read_attr H :=
  let Ht := fresh "Ht" in let Hl := fresh "Hl" in let Hv := fresh "Hv" in
  apply placed_read in H as (Ht & Hl & Hv & H);
  rewrite ?Ht, ?Hl; cbn [cbind].

(** The first attribute of a type behind [start], with its offset. *)
Fixpoint first_from (o : Z) (type : Z) (start : option Z) (l : list attr) : option (Z * attr) :=
  match l with
  | [] => None
  | a :: l =>
      if (a.1 =? type) && (match start with None => true | Some s => s <? o end) then Some (o, a)
      else first_from (o + attr_size_of a) type start l
  end.

(** The first value of a type. *)
Definition lookup_attr (type : Z) (l : list attr) : option (list Z) :=
  snd <$> List.find (fun a => a.1 =? type) l.

Lemma first_from_lookup o type l :
  snd <$> (snd <$> first_from o type None l) = lookup_attr type l.
Proof.
  unfold lookup_attr. revert o. induction l as [|a l IH]; intros o; cbn; [done|].
  rewrite andb_true_r. by destruct (a.1 =? type); cbn.
Qed.

Lemma first_from_in o type start l p a : first_from o type start l = Some (p, a) ->
  a ∈ l /\ a.1 = type /\ o <= p /\ exists l1 l2, l = l1 ++ a :: l2 /\ p = o + zlen (enc l1).
Proof.
  revert o. induction l as [|b l IH]; intros o; cbn; [done|].
  destruct (b.1 =? type) eqn:Eb; cbn; [destruct (match start with None => true | Some s => s <? o end)|].
  - intros [= <- <-]. apply Z.eqb_eq in Eb. split_and!; [apply elem_of_cons; auto|done|lia|].
    exists [], l. cbn. split; [done|lia].
  - intros H. destruct (IH _ H) as (? & ? & ? & l1 & l2 & -> & ->). pose proof (attr_size_pos b).
    split_and!; [apply elem_of_cons; auto|done|lia|]. exists (b :: l1), l2.
    split; [done|]. rewrite length_enc_cons. lia.
  - intros H. destruct (IH _ H) as (? & ? & ? & l1 & l2 & -> & ->). pose proof (attr_size_pos b).
    split_and!; [apply elem_of_cons; auto|done|lia|]. exists (b :: l1), l2.
    split; [done|]. rewrite length_enc_cons. lia.
Qed.

Lemma find_attr_first m type start o l : placed (mem_of m) o l ->
  find_attr m type start (offsets o l) = Ok (fst <$> first_from o type start l).
Proof.
  revert o. induction l as [|a l IH]; intros o H; cbn [offsets find_attr first_from]; [done|].
  read_attr H. destruct (_ && _); [done|auto].
Qed.

(** Reading the value found. *)
Lemma first_from_read m type start o l p a : placed (mem_of m) o l ->
  first_from o type start l = Some (p, a) ->
  attr_length m p = Ok (attr_size_of a) /\ rdn (mem_of m) (p + 2) (attr_size_of a - 2) = Ok a.2.
Proof.
  revert o. induction l as [|b l IH]; intros o H; cbn [first_from]; [done|]. read_attr H.
  destruct (_ && _); [|eauto]. intros [= <- <-]. done.
Qed.

Lemma get_attr_ptr_rep m h l type start : rep m h l ->
  radius_msg_get_attr_ptr m type start =
    Ok ((fun pa => (pa.1 + 2, zlen pa.2.2)) <$> first_from sizeof_radius_hdr type start l).
Proof.
  intros H. pose proof (rep_placed _ _ _ H) as Hp. unfold radius_msg_get_attr_ptr.
  rewrite (rep_pos _ _ _ H), find_attr_first by done. cbn [cbind].
  destruct (first_from _ _ _ _) as [[p a]|] eqn:E; cbn [fmap option_fmap option_map fst snd]; [|done].
  destruct (first_from_read _ _ _ _ _ _ _ Hp E) as [-> _]. cbn [cbind].
  pose proof (attr_size_pos a). unfold sizeof_radius_attr_hdr in *.
  destruct (Z.ltb_spec (attr_size_of a) 2); [lia|]. do 3 f_equal. unfold attr_size_of. lia.
Qed.

Lemma take_min {A} n (v : list A) : 0 <= n -> take (Z.to_nat (if n <? zlen v then n else zlen v)) v = take (Z.to_nat n) v.
Proof. intros. destruct (Z.ltb_spec n (zlen v)); [done|]. by rewrite !take_ge by lia. Qed.

Lemma rdn_prefix l o n k bs : rdn l o n = Ok bs -> 0 <= k <= n -> rdn l o k = Ok (take (Z.to_nat k) bs).
Proof.
  unfold rdn. destruct (Z.leb_spec 0 o), (Z.leb_spec 0 n), (Z.leb_spec (o + n) (zlen l)); cbn; try done.
  intros [= <-] Hk. destruct (Z.leb_spec 0 k), (Z.leb_spec (o + k) (zlen l)); cbn; try lia.
  f_equal. unfold slice. rewrite take_take. by rewrite Nat.min_l by lia.
Qed.

(** The accessor copies the first value of the type, cut to the buffer. *)
Lemma get_attr_rep m h l type n : rep m h l -> 0 <= n ->
  radius_msg_get_attr m type (Some n) =
    Ok (match lookup_attr type l with Some v => (zlen v, take (Z.to_nat n) v) | None => (-1, []) end).
Proof.
  intros H Hn. pose proof (rep_placed _ _ _ H) as Hp. unfold radius_msg_get_attr.
  rewrite (rep_pos _ _ _ H), find_attr_first by done. cbn [cbind].
  rewrite <- (first_from_lookup sizeof_radius_hdr).
  destruct (first_from _ _ _ _) as [[p a]|] eqn:E; cbn [fmap option_fmap option_map fst snd]; [|done].
  destruct (first_from_read _ _ _ _ _ _ _ Hp E) as [-> Hv]. cbn [cbind].
  pose proof (attr_size_pos a) as Hs. unfold sizeof_radius_attr_hdr.
  destruct (Z.ltb_spec (attr_size_of a) 2); [lia|].
  replace (attr_size_of a - 2) with (zlen a.2) in * by (unfold attr_size_of; lia).
  rewrite (rdn_prefix _ _ _ _ _ Hv) by (destruct (Z.ltb_spec n (zlen a.2)); lia). cbn [cbind].
  by rewrite take_min.
Qed.

Lemma count_attr_from m type min_len o l count : placed (mem_of m) o l ->
  count_attr m type min_len (offsets o l) count =
    Ok (count + zlen (List.filter (fun a => (a.1 =? type) && (min_len <=? zlen a.2)) l)).
Proof.
  revert o count. induction l as [|a l IH]; intros o count H; cbn [offsets count_attr].
  - f_equal. cbn. lia.
  - read_attr H. rewrite IH by done. cbn [List.filter]. unfold sizeof_radius_attr_hdr, attr_size_of.
    destruct (Z.eqb_spec a.1 type), (Z.leb_spec (2 + min_len) (2 + zlen a.2)),
      (Z.leb_spec min_len (zlen a.2)); cbn [andb length]; f_equal; lia.
Qed.

Lemma count_attr_rep m h l type min_len : rep m h l ->
  radius_msg_count_attr m type min_len =
    Ok (zlen (List.filter (fun a => (a.1 =? type) && (min_len <=? zlen a.2)) l)).
Proof.
  intros H. unfold radius_msg_count_attr. rewrite (rep_pos _ _ _ H).
  rewrite count_attr_from by eauto using rep_placed. f_equal.
Qed.

Lemma listed_spec type attrs rest : 0 ∉ attrs -> listed type (attrs ++ 0 :: rest) = Ok (bool_decide (type ∈ attrs)).
Proof.
  induction attrs as [|a attrs IH]; intros H0; cbn [listed app].
  - cbn. by rewrite bool_decide_eq_false_2 by apply not_elem_of_nil.
  - apply not_elem_of_cons in H0 as [Ha H0]. destruct (Z.eqb_spec a 0); [congruence|].
    destruct (Z.eqb_spec type a) as [->|].
    + by rewrite bool_decide_eq_true_2 by (apply elem_of_cons; auto).
    + rewrite IH by done. f_equal. apply bool_decide_ext. rewrite elem_of_cons. tauto.
Qed.

(** The search for an attribute that is not allowed finds the first one, or 0. *)
Lemma find_unlisted_rep m h l attrs rest : rep m h l -> 0 ∉ attrs ->
  radius_msg_find_unlisted_attr m (attrs ++ 0 :: rest) =
    Ok (default 0 (fst <$> List.find (fun a => negb (bool_decide (a.1 ∈ attrs))) l)).
Proof.
  intros H H0. unfold radius_msg_find_unlisted_attr. rewrite (rep_pos _ _ _ H).
  pose proof (rep_placed _ _ _ H) as Hp. clear H. revert Hp. generalize sizeof_radius_hdr.
  induction l as [|a l IH]; intros o Hp; cbn [offsets find_unlisted List.find]; [done|].
  read_attr Hp. rewrite listed_spec by done. cbn [cbind].
  destruct (bool_decide _); cbn; [auto|done].
Qed.

(** ** The EAP packet of a message *)

(** The values of a type, one after the other. *)
Definition payload (type : Z) (l : list attr) : list Z :=
  concat (map snd (List.filter (fun a => a.1 =? type) l)).

Lemma payload_app type l k : payload type (l ++ k) = payload type l ++ payload type k.
Proof. unfold payload. by rewrite List.filter_app, map_app, concat_app. Qed.

Lemma payload_cons type a l :
  payload type (a :: l) = (if a.1 =? type then a.2 else []) ++ payload type l.
Proof. unfold payload. cbn [List.filter]. by destruct (a.1 =? type). Qed.

Lemma eap_length_payload m o l len : placed (mem_of m) o l ->
  eap_length m (offsets o l) len = Ok (len + zlen (payload RADIUS_ATTR_EAP_MESSAGE l)).
Proof.
  revert o len. induction l as [|a l IH]; intros o len H; cbn [offsets eap_length].
  - f_equal. cbn. lia.
  - read_attr H. rewrite IH by done. rewrite payload_cons, length_app.
    unfold sizeof_radius_attr_hdr, attr_size_of. f_equal.
    destruct (a.1 =? _), (Z.ltb_spec 2 (2 + zlen a.2)); cbn [andb length]; lia.
Qed.

Lemma eap_copy_payload m o l b bs : placed (mem_of m) o l -> holds b bs ->
  zlen bs + zlen (payload RADIUS_ATTR_EAP_MESSAGE l) <= size b ->
  exists b', eap_copy m (offsets o l) b = Ok b' /\ holds b' (bs ++ payload RADIUS_ATTR_EAP_MESSAGE l).
Proof.
  revert o b bs. induction l as [|a l IH]; intros o b bs H Hb Hs; cbn [offsets eap_copy].
  - exists b. by rewrite app_nil_r.
  - read_attr H. rewrite payload_cons in *. unfold sizeof_radius_attr_hdr. rewrite length_app in Hs.
    destruct (a.1 =? _); cbn [andb app]; [|apply (IH _ _ _ H Hb); cbn [length] in Hs; lia].
    destruct (Z.ltb_spec 2 (attr_size_of a)) as [Hlt|Hle].
    + rewrite Hv. cbn [cbind].
      destruct (put_data_ok b bs a.2 Hb) as (b' & -> & Hb' & Hs'); [lia|]. cbn [cbind].
      destruct (IH _ b' _ H Hb') as (b'' & -> & Hb''); [rewrite length_app; lia|].
      exists b''. by rewrite app_assoc.
    + unfold attr_size_of in Hle. destruct a.2 as [|x v]; [|cbn [length] in Hle; lia].
      apply (IH _ _ _ H Hb). cbn [length] in Hs. lia.
Qed.

(** The EAP packet is the concatenation of the EAP-Message attributes; there is
    none when it is empty. *)
Lemma get_eap_payload m h l mem_ : rep m h l ->
  exists r mem', radius_msg_get_eap (Some m) mem_ = Ok (r, mem') /\
    match r with
    | Some b => holds b (payload RADIUS_ATTR_EAP_MESSAGE l) /\ payload RADIUS_ATTR_EAP_MESSAGE l <> []
    | None => mem_ = [] -> payload RADIUS_ATTR_EAP_MESSAGE l = []
    end.
Proof.
  intros H. pose proof (rep_placed _ _ _ H) as Hp. set (p := payload RADIUS_ATTR_EAP_MESSAGE l).
  unfold radius_msg_get_eap, bind at 1, lift at 1.
  rewrite (rep_pos _ _ _ H), eap_length_payload by done. cbn [cbind fst snd]. fold p. rewrite Z.add_0_l.
  destruct (Z.eqb_spec (zlen p) 0) as [E|E].
  { do 2 eexists. split; [reflexivity|]. intros _. destruct p; [done|discriminate]. }
  unfold bind at 1. rewrite holds_alloc by lia.
  destruct (eap_copy_payload m sizeof_radius_hdr l (mkBuf (zeros (zlen p)) 0) [] Hp) as (b & E1 & Hb).
  { apply holds_empty. }
  { unfold size. cbn [mem]. rewrite length_zeros by lia. cbn [length]. fold p. lia. }
  assert (Hne : p <> []) by (intros ->; done). cbn [app] in Hb. fold p in Hb.
  destruct mem_ as [|[] mem_]; cbn [cbind fst snd]; unfold bind, lift; rewrite ?E1; cbn;
    (do 2 eexists; split; [reflexivity|]); cbn; done.
Qed.

(** ** Building *)

(** The allocations that are still to fail, if any. *)
Definition plenty (mem_ : list bool) : Prop := mem_ = [].

Lemma put_attr_rep m h l hdr data (a : attr) : rep m h l -> good a -> hdr ++ data = tlv a ->
  attr_size_of a <= wpabuf_tailroom m.(buf) ->
  exists m', put_attr m hdr data = Ok m' /\ holds m'.(buf) (h ++ enc (l ++ [a])) /\
    m'.(attr_pos) = m.(attr_pos) /\ m'.(Radius.attr_size) = m.(Radius.attr_size).
Proof.
  intros H Ha Et Hr. unfold put_attr. pose proof (rep_holds _ _ _ H) as Hh.
  rewrite (holds_tailroom _ _ Hh), <- length_tlv, <- Et, length_app in Hr.
  destruct (put_data_ok _ _ hdr Hh) as (b1 & -> & Hb1 & Hs1); [lia|]. cbn [cbind].
  destruct (put_data_ok _ _ data Hb1) as (b2 & -> & Hb2 & Hs2); [rewrite length_app; lia|]. cbn [cbind].
  eexists. split; [reflexivity|]. cbn. split_and!; [|done|done].
  rewrite enc_app, enc_cons, <- Et. change (enc []) with (@nil Z). rewrite app_nil_r.
  by rewrite <- !app_assoc in Hb2.
Qed.

Lemma add_to_array_rep m attr mem_ : exists m' ok mem',
  radius_msg_add_attr_to_array m attr mem_ = Ok ((m', ok), mem') /\ m'.(buf) = m.(buf) /\
  (ok = true -> m'.(attr_pos) = m.(attr_pos) ++ [attr]) /\ (mem_ = [] -> ok = true /\ mem' = []).
Proof.
  unfold radius_msg_add_attr_to_array, bind, ret.
  destruct (_ <=? _); [destruct mem_ as [|[] mem_]|]; cbn;
    (do 3 eexists; split; [reflexivity|]); cbn; split_and!; try done; auto.
Qed.

(** What an attribute of type [type] with data [data] looks like on the wire,
    where the type is one the code writes in a single attribute. *)
Definition wire_attr (type : Z) (data : list Z) : attr :=
  if 255 <? type then
    (Z.shiftr type 8,
     if radius_is_long_ext_type (Z.shiftr type 8) then Z.land type 0xff :: 0 :: data
     else Z.land type 0xff :: data)
  else (type, data).

(** The types a caller may use: plain ones, and extended ones with their
    extended type. *)
Definition plain_type (type : Z) : Prop := 0 <= type <= 240 \/ 247 <= type <= 255.
Definition ext_type (type : Z) : Prop := 255 < type < 2 ^ 16 /\ radius_is_ext_type (Z.shiftr type 8) = true.

Lemma wire_attr_good type data :
  plain_type type \/ ext_type type -> bytes data -> zlen (wire_attr type data).2 <= RADIUS_MAX_ATTR_LEN ->
  good (wire_attr type data).
Proof.
  intros Ht Hb Hl. unfold good. split; [|split; [|done]]; unfold wire_attr, plain_type, ext_type in *.
  - destruct (Z.ltb_spec 255 type); cbn; [|lia]. rewrite shiftr_div by lia. dlia.
  - assert (is_byte (Z.land type 0xff)) by (change 0xff with (Z.ones 8); rewrite land_mask by lia; dlia).
    destruct (255 <? type); cbn; [|done].
    destruct (radius_is_long_ext_type _); rewrite ?bytes_cons; split_and!; try done; lia.
Qed.

(** The header and the data written for an attribute, once there is room. *)
Lemma put_and_note m h l b (a : attr) hdr data mem_ :
  rep m h l -> holds b (h ++ enc l) -> good a -> hdr ++ data = tlv a -> zlen (h ++ enc l) + attr_size_of a <= size b ->
  exists m1 m' ok mem', put_attr (m <| buf := b |>) hdr data = Ok m1 /\
    radius_msg_add_attr_to_array m1 (20 + zlen (enc l)) mem_ = Ok ((m', ok), mem') /\
    (ok = true -> rep m' h (l ++ [a])) /\ (mem_ = [] -> ok = true /\ mem' = []).
Proof.
  intros H Hb Ha Et Hs.
  assert (H' : rep (m <| buf := b |>) h l) by (destruct H; constructor; done).
  destruct (put_attr_rep _ _ _ hdr data a H' Ha Et) as (m1 & -> & Hb1 & Hp1 & Hs1).
  { cbn. rewrite (holds_tailroom _ _ Hb). lia. }
  destruct (add_to_array_rep m1 (20 + zlen (enc l)) mem_) as (m' & ok & mem' & E & Eb & Ep & Hm).
  exists m1, m', ok, mem'. split_and!; [done|done| |done]. intros ->. destruct H. constructor; try done.
  - by rewrite Eb.
  - apply Forall_app. auto.
  - rewrite Ep, Hp1 by done. cbn. rewrite rep_pos0, offsets_app. done.
Qed.

Lemma rep_used m h l : rep m h l -> msg_len m = 20 + zlen (enc l).
Proof.
  intros []. destruct rep_holds0 as [_ E]. unfold msg_len, wpabuf_len.
  rewrite E, length_app. unfold sizeof_radius_hdr in *. lia.
Qed.

(** The outcome of an addition: the attribute is at the end, or an allocation
    failed. *)
Definition appended (h : list Z) (l : list attr) (a : attr) (mem_ : list bool)
    (res : cres (radius_msg * option Z * list bool)) : Prop :=
  exists m' r mem', res = Ok ((m', r), mem') /\
    (forall p, r = Some p -> p = 20 + zlen (enc l) /\ rep m' h (l ++ [a])) /\
    (mem_ = [] -> r <> None /\ mem' = []).

Lemma add_attr_wire m type data :
  plain_type type \/ ext_type type -> zlen (wire_attr type data).2 <= RADIUS_MAX_ATTR_LEN ->
  exists hdr, hdr ++ data = tlv (wire_attr type data) /\
  forall mem_, radius_msg_add_attr m type data mem_ =
    bind (if wpabuf_tailroom m.(buf) <? attr_size_of (wire_attr type data)
          then wpabuf_resize (Some m.(buf)) (attr_size_of (wire_attr type data))
          else ret (Some m.(buf), true))
      (fun r => match r with
       | (Some b, true) =>
           let m := m <| buf := b |> in
           let! m1 := lift (put_attr m hdr data) in
           let! r := radius_msg_add_attr_to_array m1 (msg_len m) in
           ret (r.1, if r.2 : bool then Some (msg_len m) else None)
       | _ => ret (m, None)
       end) mem_.
Proof.
  intros Ht Hl. unfold RADIUS_MAX_ATTR_LEN, sizeof_radius_attr_hdr in Hl.
  assert (Hx : plain_type type -> (255 <? type) = false /\ radius_is_long_ext_type type = false /\
                 radius_is_ext_type type = false).
  { unfold plain_type, radius_is_long_ext_type, radius_is_ext_type, RADIUS_ATTR_LONG_EXT_TYPE_1,
      RADIUS_ATTR_LONG_EXT_TYPE_2, RADIUS_ATTR_EXT_TYPE_1. lia. }
  unfold wire_attr, attr_size_of, tlv in *. unfold radius_msg_add_attr.
  destruct Ht as [Ht|[Hr Ht]].
  - destruct (Hx Ht) as (E1 & E2 & E3). rewrite E1, E2, E3 in *. cbn [negb andb fst snd] in *.
    unfold RADIUS_MAX_ATTR_LEN, sizeof_radius_attr_hdr.
    destruct (Z.ltb_spec (255 - 2) (zlen data)); [lia|].
    exists [type; u8 (2 + zlen data)]. split; [|done].
    unfold u8. rewrite Z.mod_small by lia. done.
  - assert (E1 : (255 <? type) = true) by lia. rewrite E1 in *. clear Hx.
    assert (E8 : u8 (Z.shiftr type 8) = Z.shiftr type 8).
    { unfold u8. apply Z.mod_small. rewrite shiftr_div by lia. dlia. }
    rewrite E8, Ht. cbn [negb andb fst snd] in *.
    unfold sizeof_radius_attr_hdr_ext, RADIUS_MAX_EXT_ATTR_LEN, sizeof_radius_attr_hdr_ext.
    destruct (radius_is_long_ext_type _) eqn:El; cbn [length] in Hl |- *.
    + set (n := zlen data) in *.
      assert (En : (if (n + (255 - (3 + 1)) - 1) / (255 - (3 + 1)) =? 0 then 1
                    else (n + (255 - (3 + 1)) - 1) / (255 - (3 + 1))) = 1).
      { destruct (Z.eqb_spec ((n + (255 - (3 + 1)) - 1) / (255 - (3 + 1))) 0); [done|]. dlia. }
      rewrite En. destruct (Z.ltb_spec 4096 n); [lia|].
      replace (1 * (3 + 1) + n) with (2 + Z.of_nat (S (S (length data)))) by lia.
      exists [Z.shiftr type 8; u8 (3 + 1 + n); Z.land type 0xff; 0]. split.
      { unfold u8. rewrite Z.mod_small by lia. cbn. do 2 f_equal. lia. }
      intros mem_.
      apply bind_ext. intros [[b|] []] mem1; try done. cbn [add_long_ext]. unfold sizeof_radius_attr_hdr_ext.
      destruct (Z.ltb_spec (255 - 3 - 1) (zlen data)); [lia|]. fold n.
      destruct (Z.ltb_spec n n); [lia|].
      apply bind_ext. intros m1 mem2. apply bind_ext. intros [m2 []] mem3; [|done]. cbn [negb fst snd].
      rewrite drop_ge by lia. done.
    + destruct (Z.ltb_spec (255 - 3) (zlen data)); [lia|].
      replace (3 + zlen data) with (2 + Z.of_nat (S (length data))) by lia.
      exists [Z.shiftr type 8; u8 (2 + Z.of_nat (S (length data))); Z.land type 0xff]. split; [|done].
      unfold u8. rewrite Z.mod_small by lia. done.
Qed.

Lemma add_attr_rep m h l type data mem_ :
  rep m h l -> plain_type type \/ ext_type type -> bytes data ->
  zlen (wire_attr type data).2 <= RADIUS_MAX_ATTR_LEN ->
  appended h l (wire_attr type data) mem_ (radius_msg_add_attr m type data mem_).
Proof.
  intros H Ht Hb Hl. pose proof (wire_attr_good _ _ Ht Hb Hl) as Hg.
  destruct (add_attr_wire m type data Ht Hl) as (hdr & Et & Heq). rewrite Heq. clear Heq Hb Hl Ht.
  set (a := wire_attr type data) in *. pose proof (rep_holds _ _ _ H) as Hh.
  pose proof (attr_size_pos a).
  (* the room *)
  assert (Hroom : exists r mem1, (if wpabuf_tailroom (buf m) <? attr_size_of a
              then wpabuf_resize (Some (buf m)) (attr_size_of a) else ret (Some (buf m), true)) mem_ = Ok (r, mem1) /\
            (r = (Some (buf m), false) \/
             exists b, r = (Some b, true) /\ holds b (h ++ enc l) /\ zlen (h ++ enc l) + attr_size_of a <= size b) /\
            (mem_ = [] -> mem1 = [] /\ r <> (Some (buf m), false))).
  { rewrite (holds_tailroom _ _ Hh). destruct (Z.ltb_spec (size (buf m) - zlen (h ++ enc l)) (attr_size_of a)).
    - destruct (resize_ok _ _ (attr_size_of a) mem_ Hh) as (r & mem1 & E & Hr); [lia|].
      exists r, mem1. split_and!; [done|done|]. intros ->.
      destruct (resize_grows _ _ (attr_size_of a) Hh) as (b' & E' & _); [lia|].
      rewrite E' in E. injection E as <- <-. done.
    - do 2 eexists. split_and!; [reflexivity| |done]. right. eexists. split_and!; [done|done|lia]. }
  destruct Hroom as (r & mem1 & E & Hr & Hm). rewrite (bind_ok _ _ _ _ _ E). clear E.
  destruct Hr as [->|(b & -> & Hbh & Hs)].
  { do 3 eexists. split; [reflexivity|]. split; [done|]. intros E. by destruct (Hm E). }
  cbv beta iota zeta.
  destruct (put_and_note m h l b a hdr data mem1 H Hbh Hg Et Hs) as (m1 & m' & ok & mem' & E1 & E2 & Hrep & Hok).
  rewrite (bind_lift _ _ _ _ E1).
  assert (Hu : msg_len (m <| buf := b |>) = 20 + zlen (enc l)).
  { apply (rep_used _ h). destruct H; constructor; done. }
  rewrite Hu, (bind_ok _ _ _ _ _ E2). cbn [fst snd]. do 3 eexists. split; [reflexivity|]. split.
  - intros p. destruct ok; [|done]. intros [= <-]. auto.
  - intros Em. destruct (Hm Em) as [-> _]. destruct (Hok eq_refl) as [-> ->]. done.
Qed.

(** A plain attribute. *)
Lemma add_plain_rep m h l type data mem_ :
  rep m h l -> plain_type type -> bytes data -> zlen data <= RADIUS_MAX_ATTR_LEN ->
  appended h l (type, data) mem_ (radius_msg_add_attr m type data mem_).
Proof.
  intros H Ht Hb Hl. assert (E : wire_attr type data = (type, data)).
  { unfold wire_attr, plain_type in *. destruct (Z.ltb_spec 255 type); [lia|done]. }
  rewrite <- E. apply add_attr_rep; [done|by left|done|by rewrite E].
Qed.

(** Data that does not fit is refused, and the message stays. *)
Lemma add_attr_too_long m type data mem_ :
  plain_type type -> RADIUS_MAX_ATTR_LEN < zlen data ->
  radius_msg_add_attr m type data mem_ = Ok ((m, None), mem_).
Proof.
  intros Ht Hl. unfold radius_msg_add_attr, plain_type in *.
  assert (E1 : (255 <? type) = false) by lia.
  assert (E2 : radius_is_long_ext_type type = false).
  { unfold radius_is_long_ext_type, RADIUS_ATTR_LONG_EXT_TYPE_1, RADIUS_ATTR_LONG_EXT_TYPE_2. lia. }
  assert (E3 : radius_is_ext_type type = false).
  { unfold radius_is_ext_type, RADIUS_ATTR_LONG_EXT_TYPE_2, RADIUS_ATTR_EXT_TYPE_1. lia. }
  rewrite E1, E2, E3. cbn [andb]. destruct (Z.ltb_spec RADIUS_MAX_ATTR_LEN (zlen data)); [done|lia].
Qed.

(** ** New messages *)

Lemma new_rep code identifier mem_ : exists r mem', radius_msg_new code identifier mem_ = Ok (r, mem') /\
  match r with
  | Some m => rep m (u8 code :: u8 identifier :: zeros 18) []
  | None => mem_ <> []
  end.
Proof.
  set (m1 := mkMsg (mkBuf (u8 code :: u8 identifier :: zeros 1022) 20) [] RADIUS_DEFAULT_ATTR_COUNT).
  assert (Hrep : rep m1 (u8 code :: u8 identifier :: zeros 18) []).
  { constructor; try done. rewrite !bytes_cons. unfold u8. split_and!; try (dlia); apply bytes_zeros. }
  destruct mem_ as [|[] [|[] [|[] mem_]]]; try (do 2 eexists; split; [reflexivity|done]);
    (exists (Some m1); eexists; split; [|exact Hrep]); reflexivity.
Qed.

(** ** Adding an EAP packet *)

Lemma add_eap_loop_rep fuel m h l data mem_ :
  rep m h l -> bytes data -> (length data < fuel)%nat ->
  exists m' ok mem', add_eap_loop fuel m data mem_ = Ok ((m', ok), mem') /\
    (ok = true -> exists k, rep m' h (l ++ k) /\ payload RADIUS_ATTR_EAP_MESSAGE k = data /\
       Forall (fun a => a.1 = RADIUS_ATTR_EAP_MESSAGE) k) /\
    (mem_ = [] -> ok = true /\ mem' = []).
Proof.
  revert m l data mem_. induction fuel as [|fuel IH]; intros m l data mem_ H Hb Hf; [lia|].
  cbn [add_eap_loop]. destruct (Z.ltb_spec 0 (zlen data)) as [Hd|Hd].
  2:{ assert (data = []) as -> by (destruct data; [done|cbn in Hd; lia]).
      do 3 eexists. split; [reflexivity|]. split; [|done]. intros _. exists [].
      rewrite app_nil_r. done. }
  set (len := if RADIUS_MAX_ATTR_LEN <? zlen data then RADIUS_MAX_ATTR_LEN else zlen data).
  assert (Hlen : 0 < len <= zlen data /\ len <= 253).
  { unfold len, RADIUS_MAX_ATTR_LEN, sizeof_radius_attr_hdr in *. destruct (Z.ltb_spec (255 - 2) (zlen data)); lia. }
  destruct (add_plain_rep m h l RADIUS_ATTR_EAP_MESSAGE (take (Z.to_nat len) data) mem_ H) as (m1 & r & mem1 & E & Hr & Hm).
  { unfold plain_type, RADIUS_ATTR_EAP_MESSAGE. lia. }
  { by apply bytes_take. }
  { rewrite length_take. unfold RADIUS_MAX_ATTR_LEN, sizeof_radius_attr_hdr. lia. }
  rewrite (bind_ok _ _ _ _ _ E). destruct r as [p|].
  2:{ do 3 eexists. split; [reflexivity|]. split; [done|]. intros E0. by destruct (Hm E0). }
  destruct (Hr p eq_refl) as [_ H1]. clear Hr.
  destruct (IH m1 _ (drop (Z.to_nat len) data) mem1 H1) as (m' & ok & mem' & E' & Hok & Hm').
  { by apply bytes_drop. }
  { rewrite length_drop. lia. }
  rewrite E'. do 3 eexists. split; [reflexivity|]. split.
  - intros Ht. destruct (Hok Ht) as (k & Hk & Hp & Ha).
    exists ((RADIUS_ATTR_EAP_MESSAGE, take (Z.to_nat len) data) :: k). split_and!.
    + by rewrite <- app_assoc in Hk.
    + rewrite payload_cons, Hp. cbn. by rewrite take_drop.
    + by constructor.
  - intros E0. destruct (Hm E0) as [_ ->]. auto.
Qed.

Lemma add_eap_rep m h l data mem_ :
  rep m h l -> bytes data ->
  exists m' ok mem', radius_msg_add_eap m data mem_ = Ok ((m', ok), mem') /\
    (ok = true -> exists k, rep m' h (l ++ k) /\ payload RADIUS_ATTR_EAP_MESSAGE k = data /\
       Forall (fun a => a.1 = RADIUS_ATTR_EAP_MESSAGE) k) /\
    (mem_ = [] -> ok = true /\ mem' = []).
Proof. intros. unfold radius_msg_add_eap. apply add_eap_loop_rep; [done|done|lia]. Qed.

(** ** Parsing *)

(** A message whose attributes up to [l] are noted, with the bytes [rest] to
    come. *)
Record noted (m : radius_msg) (h : list Z) (l : list attr) (rest : list Z) : Prop := mkNoted {
  noted_holds : holds m.(buf) (h ++ enc l ++ rest);
  noted_length : zlen h = sizeof_radius_hdr;
  noted_bytes : bytes h;
  noted_good : Forall good l;
  noted_pos : m.(attr_pos) = offsets sizeof_radius_hdr l
}.

Lemma noted_rep m h l : noted m h l [] <-> rep m h l.
Proof. split; intros []; constructor; rewrite ?app_nil_r in *; done. Qed.

(** The length of the next attribute. *)
Lemma noted_attr_length m h l t n rest :
  noted m h l (t :: n :: rest) -> attr_length m (20 + zlen (enc l)) = Ok n.
Proof.
  intros [Hh Hl ? ? ?]. destruct (holds_mem _ _ Hh) as [post E]. unfold attr_length, mem_of. rewrite E.
  replace ((h ++ enc l ++ t :: n :: rest) ++ post) with ((h ++ enc l ++ [t]) ++ n :: rest ++ post)
    by (rewrite <- !app_assoc; done).
  apply rd_mid. rewrite !length_app. unfold sizeof_radius_hdr in Hl. cbn. lia.
Qed.

Lemma noted_used m h l rest : noted m h l rest -> msg_len m = 20 + zlen (enc l) + zlen rest.
Proof.
  intros [[_ E] ? ? ? ?]. unfold msg_len, wpabuf_len, sizeof_radius_hdr in *. rewrite E, !length_app. lia.
Qed.

(** The bytes start with an attribute when its length is in range. *)
Lemma enc_split t n rest :
  bytes (t :: n :: rest) -> 2 <= n <= zlen (t :: n :: rest) ->
  exists v rest', rest = v ++ rest' /\ zlen v = n - 2 /\ good (t, v) /\ t :: n :: rest = tlv (t, v) ++ rest'.
Proof.
  rewrite !bytes_cons. intros (Ht & Hn & Hb) Hl. cbn [length] in Hl.
  exists (take (Z.to_nat (n - 2)) rest), (drop (Z.to_nat (n - 2)) rest). rewrite take_drop.
  assert (Ev : zlen (take (Z.to_nat (n - 2)) rest) = n - 2) by (rewrite length_take; lia).
  split_and!; [done|done| |].
  - unfold good, RADIUS_MAX_ATTR_LEN, sizeof_radius_attr_hdr. cbn [fst snd].
    split; [done|]. split; [by apply bytes_take|lia].
  - unfold tlv. cbn [fst snd app]. rewrite Ev, take_drop. do 2 f_equal. lia.
Qed.

(** ... and only then. *)
Lemma enc_length_range t n rest k : t :: n :: rest = enc k -> 2 <= n <= zlen (t :: n :: rest).
Proof.
  destruct k as [|[t' v'] k]; [done|]. rewrite enc_cons. unfold tlv. cbn [fst snd app].
  intros [= -> -> ->]. cbn [length]. rewrite length_app. lia.
Qed.

Lemma enc_tlv_inj a rest k : tlv a ++ rest = enc k -> Forall good k -> exists k', k = a :: k' /\ rest = enc k' /\ Forall good k'.
Proof.
  destruct k as [|[t' v'] k], a as [t v]; [done|]. rewrite enc_cons. unfold tlv. cbn [fst snd app].
  intros [= -> El Ek] Hg. apply app_inj_1 in Ek as [-> ->]; [|lia]. exists k. by inversion Hg.
Qed.

(** Noting the next attribute. *)
Lemma note_next m h l a rest mem_ : noted m h l (tlv a ++ rest) -> good a ->
  exists m' ok mem', radius_msg_add_attr_to_array m (20 + zlen (enc l)) mem_ = Ok ((m', ok), mem') /\
    (ok = true -> noted m' h (l ++ [a]) rest) /\ (mem_ = [] -> ok = true /\ mem' = []).
Proof.
  intros [Hh Hl Hb Hg Hpos] Ha.
  destruct (add_to_array_rep m (20 + zlen (enc l)) mem_) as (m' & ok & mem' & E & Eb & Ep & Hm).
  exists m', ok, mem'. split_and!; [done| |done]. intros ->. constructor; try done.
  - rewrite Eb, enc_app, enc_cons. change (enc []) with (@nil Z). by rewrite app_nil_r, <- app_assoc.
  - apply Forall_app. auto.
  - rewrite Ep, Hpos, offsets_app by done. done.
Qed.

Lemma length_enc_snoc l a : zlen (enc (l ++ [a])) = zlen (enc l) + attr_size_of a.
Proof. rewrite enc_app, length_app, Nat2Z.inj_add, length_enc_cons. cbn. lia. Qed.

(** The loop finds the attributes of the bytes, when they are a list of
    attributes; it never reads past them. *)
Lemma parse_attrs_noted fuel m h l rest mem_ :
  noted m h l rest -> bytes rest -> (length rest < fuel)%nat ->
  exists r mem', parse_attrs fuel m (20 + zlen (enc l)) mem_ = Ok (r, mem') /\
    (forall m', r = Some m' -> exists k, rest = enc k /\ rep m' h (l ++ k)) /\
    (forall k, rest = enc k -> Forall good k -> mem_ = [] -> r <> None /\ mem' = []).
Proof.
  revert m l rest mem_. induction fuel as [|fuel IH]; intros m l rest mem_ H Hb Hf; [lia|].
  cbn [parse_attrs]. rewrite (noted_used _ _ _ _ H). set (o := 20 + zlen (enc l)).
  replace (o + zlen rest - o) with (zlen rest) by lia. unfold sizeof_radius_attr_hdr.
  assert (Hno : forall P : radius_msg -> Prop, (forall k, rest <> enc k) ->
     exists r mem', ret (@None radius_msg) mem_ = Ok (r, mem') /\
     (forall m', r = Some m' -> P m') /\ (forall k, rest = enc k -> Forall good k -> mem_ = [] -> r <> None /\ mem' = [])).
  { intros P Hk. do 2 eexists. split; [reflexivity|]. split; [done|]. intros k E. by destruct (Hk k). }
  destruct (Z.ltb_spec o (o + zlen rest)).
  2:{ assert (rest = []) as -> by (destruct rest; [done|cbn in *; lia]).
      do 2 eexists. split; [reflexivity|]. split; [|done]. intros m' [= <-]. exists [].
      rewrite app_nil_r. split; [done|by apply noted_rep]. }
  destruct rest as [|t [|n rest]]; [cbn in *; lia|apply Hno; by intros [|[] ?]|].
  destruct (Z.ltb_spec (zlen (t :: n :: rest)) 2); [cbn [length] in *; lia|].
  rewrite (bind_lift _ _ _ _ (noted_attr_length _ _ _ _ _ _ H)).
  destruct (Z.ltb_spec (zlen (t :: n :: rest)) n) as [Hn|Hn];
    [apply Hno; intros k Ek; apply enc_length_range in Ek; lia|].
  destruct (Z.ltb_spec n 2) as [Hn2|Hn2];
    [apply Hno; intros k Ek; apply enc_length_range in Ek; lia|].
  cbn [orb]. destruct (enc_split t n rest Hb) as (v & rest' & -> & Ev & Hg & Et); [lia|].
  rewrite Et in *. clear Hno.
  destruct (note_next _ _ _ _ _ mem_ H Hg) as (m1 & ok & mem1 & E & Hok & Hm). fold o in E.
  rewrite (bind_ok _ _ _ _ _ E). cbn [fst snd]. clear E.
  destruct ok.
  2:{ do 2 eexists. split; [reflexivity|]. split; [done|]. intros k _ _ E0. by destruct (Hm E0). }
  apply bytes_app in Hb as [_ Hb]. rewrite length_app in Hf.
  destruct (IH m1 _ rest' mem1 (Hok eq_refl) Hb) as (r & mem' & E & Hr & Hc); [cbn [tlv length] in Hf; lia|].
  rewrite length_enc_snoc, Z.add_assoc in E. fold o in E.
  replace (attr_size_of (t, v)) with n in E by (unfold attr_size_of; cbn [snd]; lia).
  rewrite E. do 2 eexists. split; [reflexivity|]. split.
  - intros m' Er. destruct (Hr m' Er) as (k & -> & Hk). exists ((t, v) :: k).
    split; [by rewrite enc_cons|]. by rewrite <- app_assoc in Hk.
  - intros k Ek Hgk E0. destruct (Hm E0) as [_ ->].
    destruct (enc_tlv_inj _ _ _ Ek Hgk) as (k' & -> & Ek' & Hk'). by apply (Hc k').
Qed.

(** The length a header announces. *)
Definition hdr_length (h : list Z) : Z := at_ h 2 * 256 + at_ h 3.

Lemma get_be16_at data : bytes data -> 4 <= zlen data -> WPA_GET_BE16 (drop 2 data) = Ok (hdr_length data).
Proof.
  intros Hb Hl. unfold WPA_GET_BE16, hdr_length.
  rewrite rd_ok by (rewrite length_drop; lia). cbn [cbind].
  rewrite rd_ok by (rewrite length_drop; lia). cbn [cbind]. f_equal.
  rewrite lor_shiftl by (try lia; apply at_byte, bytes_drop; done).
  unfold at_. rewrite !nth_lookup, !lookup_drop. done.
Qed.

Lemma hdr_length_take n (l : list Z) : 4 <= n -> hdr_length (take (Z.to_nat n) l) = hdr_length l.
Proof. intros. unfold hdr_length. rewrite !at_lookup, !lookup_take_lt by lia. done. Qed.

Lemma hdr_length_app h l : 4 <= zlen h -> hdr_length (h ++ l) = hdr_length h.
Proof. intros. unfold hdr_length. rewrite !at_lookup, !lookup_app_l by lia. done. Qed.

(** The bytes of a message: a header that announces its length, attributes, and
    perhaps more bytes, which are ignored. *)
Definition framed (data h : list Z) (l : list attr) : Prop :=
  zlen h = sizeof_radius_hdr /\ Forall good l /\ hdr_length h = 20 + zlen (enc l) /\
  exists rest, data = h ++ enc l ++ rest.

(** The copy of a message, before its attributes are noted. *)
Lemma parse_start data n (K : radius_msg -> M (option radius_msg)) mem_ : bytes data -> 20 <= n <= zlen data ->
  let run := (let! b := wpabuf_alloc_copy (take (Z.to_nat n) data) in
    match b with
    | None => ret None
    | Some b => let! m := radius_msg_initialize b in match m with None => ret None | Some m => K m end
    end) mem_ in
  (exists mem', run = Ok (None, mem') /\ mem_ <> []) \/
  (exists m mem', run = K m mem' /\ noted m (take 20 data) [] (drop 20 (take (Z.to_nat n) data)) /\
     (mem_ = [] -> mem' = [])).
Proof.
  intros Hb Hn run. set (c := take (Z.to_nat n) data) in *.
  assert (Hc : take 20 data ++ enc [] ++ drop 20 c = c).
  { unfold c. cbn [enc map concat app]. rewrite <- (take_drop 20 (take (Z.to_nat n) data)) at 2.
    rewrite take_take. by rewrite Nat.min_l by lia. }
  assert (H : forall b, holds b c -> noted (mkMsg b [] RADIUS_DEFAULT_ATTR_COUNT) (take 20 data) [] (drop 20 c)).
  { intros b Hh. constructor; cbn [buf attr_pos]; [by rewrite Hc| |by apply bytes_take|done|done].
    rewrite length_take. unfold sizeof_radius_hdr. lia. }
  destruct (alloc_copy_ok c mem_) as (r & mem1 & E & Hr).
  assert (Hm : mem_ = [] -> r <> None /\ mem1 = []).
  { intros ->. destruct (alloc_copy_copies c) as (b' & E' & _). rewrite E' in E. by injection E as <- <-. }
  unfold run. rewrite (bind_ok _ _ _ _ _ E). destruct r as [b|].
  2:{ left. eexists. split; [reflexivity|]. intros E0. by destruct (Hm E0). }
  destruct mem1 as [|[] mem1].
  - right. do 2 eexists. split; [reflexivity|]. split; [by apply H, Hr|done].
  - right. do 2 eexists. split; [reflexivity|]. split; [by apply H, Hr|]. intros E0. by destruct (Hm E0).
  - left. eexists. split; [reflexivity|]. intros E0. by destruct (Hm E0).
Qed.

Lemma framed_parts data h l : framed data h l ->
  hdr_length data = 20 + zlen (enc l) /\ take 20 data = h /\ 20 <= hdr_length data <= zlen data /\
  drop 20 (take (Z.to_nat (hdr_length data)) data) = enc l.
Proof.
  intros (Hh & _ & En & rest & ->). unfold sizeof_radius_hdr in Hh. rewrite hdr_length_app, En by lia.
  split_and!; [done|by rewrite take_app_length' by lia|lia|rewrite !length_app; lia|].
  rewrite app_assoc, take_app_length' by (rewrite length_app; lia). by rewrite drop_app_length' by lia.
Qed.

(** Parsing stays inside the bytes, whatever they are and whatever allocations
    fail; what it returns represents a message the bytes start with. *)
Lemma parse_represents data mem_ : bytes data ->
  exists r mem', radius_msg_parse (Some data) mem_ = Ok (r, mem') /\
    (forall m, r = Some m -> exists h l, framed data h l /\ rep m h l) /\
    (forall h l, framed data h l -> mem_ = [] -> r <> None /\ mem' = []).
Proof.
  intros Hb. unfold radius_msg_parse.
  assert (Hno : forall (P : radius_msg -> Prop) (mem' : list bool), (forall h l, framed data h l -> mem_ <> []) ->
     exists r mem'', Ok (@None radius_msg, mem') = Ok (r, mem'') /\
     (forall m', r = Some m' -> P m') /\
     (forall h l, framed data h l -> mem_ = [] -> r <> None /\ mem'' = [])).
  { intros P mem' Hk. do 2 eexists. split; [reflexivity|]. split; [done|]. intros h l Hf E0. by destruct (Hk h l Hf). }
  unfold sizeof_radius_hdr. destruct (Z.ltb_spec (zlen data) 20) as [Hl|Hl].
  { apply Hno. intros h l Hf. destruct (framed_parts _ _ _ Hf). lia. }
  rewrite (bind_lift _ _ _ _ (get_be16_at data Hb ltac:(lia))).
  set (n := hdr_length data).
  destruct (Z.ltb_spec n 20); [apply Hno; intros h l Hf; destruct (framed_parts _ _ _ Hf); lia|].
  destruct (Z.ltb_spec (zlen data) n); [apply Hno; intros h l Hf; destruct (framed_parts _ _ _ Hf); lia|].
  cbn [orb].
  destruct (os_malloc mem_) as [[[] mem1]|] eqn:Em; [| |by destruct mem_];
    rewrite (bind_ok _ _ _ _ _ Em); cbn [negb]; [|apply Hno; intros h l _ ->; discriminate].
  assert (Hm1 : mem_ = [] -> mem1 = []) by (intros ->; by injection Em). clear Em.
  destruct (parse_start data n (fun m => parse_attrs (S (length data)) m 20) mem1 Hb) as
    [(mem' & -> & Hne)|(m & mem' & -> & Hm & Hm')]; [lia|apply Hno; auto|].
  destruct (parse_attrs_noted (S (length data)) m _ [] _ mem' Hm) as (r & mem'' & E & Hr & Hc).
  { by apply bytes_drop, bytes_take. }
  { rewrite length_drop, length_take. lia. }
  change (20 + zlen (enc [])) with 20 in E. cbv beta. rewrite E.
  do 2 eexists. split; [reflexivity|]. split.
  - intros m' Em'. destruct (Hr m' Em') as (k & Ek & Hk). exists (take 20 data), k. split; [|done].
    unfold framed. pose proof (rep_good _ _ _ Hk). pose proof (rep_length _ _ _ Hk) as Hh. split_and!; [done|done| |].
    + change 20%nat with (Z.to_nat 20). rewrite hdr_length_take by lia. fold n. rewrite <- Ek.
      rewrite length_drop, length_take. lia.
    + exists (drop (Z.to_nat n) data). rewrite <- Ek.
      rewrite <- (take_drop (Z.to_nat n) data) at 1. rewrite app_assoc. f_equal.
      rewrite <- (take_drop 20 (take (Z.to_nat n) data)) at 1. rewrite take_take. by rewrite Nat.min_l by lia.
  - intros h l Hf E0. destruct (framed_parts _ _ _ Hf) as (_ & _ & _ & Ek). fold n in Ek.
    destruct Hf as (_ & Hg & _). apply (Hc l); auto.
Qed.

Lemma enc_inj l k : enc l = enc k -> Forall good k -> l = k.
Proof.
  revert k. induction l as [|a l IH]; intros k E Hk.
  - destruct k as [|[t v] k]; [done|]. discriminate.
  - rewrite enc_cons in E. destruct (enc_tlv_inj _ _ _ E Hk) as (k' & -> & Ek & Hk'). f_equal. auto.
Qed.

(** Bytes hold at most one message. *)
Lemma framed_inj data h l h' l' : framed data h l -> framed data h' l' -> h = h' /\ l = l'.
Proof.
  intros H H'. destruct (framed_parts _ _ _ H) as (_ & <- & _ & E).
  destruct (framed_parts _ _ _ H') as (_ & <- & _ & E'). split; [done|].
  apply enc_inj; [congruence|]. by destruct H' as (_ & ? & _).
Qed.

(** With memory to spare, the parser returns the message the bytes hold. *)
Lemma parse_framed data h l : bytes data -> framed data h l ->
  exists m, radius_msg_parse (Some data) [] = Ok (Some m, []) /\ rep m h l.
Proof.
  intros Hb Hf. destruct (parse_represents data [] Hb) as (r & mem' & E & Hr & Hc).
  destruct (Hc h l Hf eq_refl) as [Hn ->]. destruct r as [m|]; [|done].
  destruct (Hr m eq_refl) as (h' & l' & Hf' & Hm).
  destruct (framed_inj _ _ _ _ _ Hf Hf') as [-> ->]. eauto.
Qed.

End RadiusMsg.
