(* ===== verification/RadiusSign.v ===== *)
(** * Signed RADIUS messages

    What the functions that finish a message put in it, and that the checks of
    the receiver accept exactly that. *)

From S2P Require Import Prelude WpaDefs AesModes WpaKey Wpabuf Radius RadiusMsg.

Module RadiusSign.
Import WpaDefs WpaKey Wpabuf Radius RadiusMsg.

#[local] Open Scope Z_scope.
#[local] Open Scope list_scope.

(** ** Writing into a message *)

(** A header: code and identifier, length, authenticator. *)
Record header := mkHeader { h_code : list Z; h_length : list Z; h_auth : list Z }.
Definition hdr (x : header) : list Z := x.(h_code) ++ x.(h_length) ++ x.(h_auth).
Definition header_ok (x : header) : Prop :=
  zlen x.(h_code) = 2 /\ zlen x.(h_length) = 2 /\ zlen x.(h_auth) = 16.

#[export] Instance settable_header : Settable header := fun x => mkHeader x.(h_code) x.(h_length) x.(h_auth).

(** [m] has header [x] and attributes [l]. *)
Definition msg (m : radius_msg) (x : header) (l : list attr) : Prop := rep m (hdr x) l /\ header_ok x.

Lemma rep_msg m h l : rep m h l -> exists x, hdr x = h /\ msg m x l.
Proof.
  intros H. pose proof (rep_length _ _ _ H) as Hl. unfold sizeof_radius_hdr in Hl.
  exists (mkHeader (take 2 h) (take 2 (drop 2 h)) (drop 4 h)).
  assert (E : hdr (mkHeader (take 2 h) (take 2 (drop 2 h)) (drop 4 h)) = h).
  { unfold hdr. cbn. change 4%nat with (2 + 2)%nat. by rewrite <- drop_drop, !take_drop. }
  split; [done|]. split; [by rewrite E|]. unfold header_ok. cbn.
  rewrite !length_take, !length_drop. lia.
Qed.

Lemma wr_holds b p x s bs : holds b (p ++ x ++ s) -> zlen bs = zlen x ->
  exists l, wr b.(mem) (zlen p) bs = Ok l /\ holds (b <| mem := l |>) (p ++ bs ++ s).
Proof.
  intros Hh Hl. destruct (holds_mem _ _ Hh) as [post E]. rewrite E.
  replace ((p ++ x ++ s) ++ post) with (p ++ x ++ (s ++ post)) by (rewrite <- !app_assoc; done).
  rewrite wr_mid by lia. eexists. split; [reflexivity|]. destruct Hh as [_ Hu].
  unfold holds, wpabuf_head. cbn. rewrite Hu.
  replace (p ++ bs ++ s ++ post) with ((p ++ bs ++ s) ++ post) by (rewrite <- !app_assoc; done).
  split; [|rewrite !length_app; lia]. rewrite take_app_length'; [done|]. rewrite !length_app. lia.
Qed.

Lemma bytes_hdr x : bytes (hdr x) <-> bytes x.(h_code) /\ bytes x.(h_length) /\ bytes x.(h_auth).
Proof. unfold hdr. by rewrite !bytes_app. Qed.

Lemma set_authenticator_msg m x l a : msg m x l -> zlen a = 16 -> bytes a ->
  exists m', set_authenticator m a = Ok m' /\ msg m' (x <| h_auth := a |>) l.
Proof.
  intros [H Hx] Ha Hb. destruct H as [Hh Hl Hbh Hg Hp]. apply bytes_hdr in Hbh as (B1 & B2 & B3).
  destruct Hx as (X1 & X2 & X3). unfold hdr in Hh.
  rewrite <- !app_assoc in Hh. rewrite app_assoc in Hh.
  destruct (wr_holds _ _ _ _ a Hh) as (l' & E & Hh'); [lia|].
  replace (zlen (h_code x ++ h_length x)) with 4 in E by (rewrite length_app; lia).
  unfold set_authenticator, store. unfold mem_of. rewrite E. eexists. split; [reflexivity|].
  split; [|by unfold header_ok; cbn]. constructor; cbn [buf attr_pos]; try done.
  - unfold hdr. rewrite <- !app_assoc in Hh'. rewrite <- !app_assoc. exact Hh'.
  - unfold hdr, sizeof_radius_hdr. cbn. rewrite !length_app. lia.
  - apply bytes_hdr. done.
Qed.

Lemma set_length_msg m x l : msg m x l ->
  exists m', set_length m = Ok m' /\ msg m' (x <| h_length := WPA_PUT_BE16 (u16 (20 + zlen (enc l))) |>) l.
Proof.
  intros [H Hx]. pose proof (rep_used _ _ _ H) as Hu. destruct H as [Hh Hl Hbh Hg Hp].
  apply bytes_hdr in Hbh as (B1 & B2 & B3). destruct Hx as (X1 & X2 & X3). unfold hdr in Hh.
  rewrite <- !app_assoc in Hh.
  destruct (wr_holds _ _ _ _ (WPA_PUT_BE16 (u16 (20 + zlen (enc l)))) Hh) as (l' & E & Hh'); [done|].
  rewrite X1 in E. unfold set_length, store, mem_of. rewrite Hu, E. eexists. split; [reflexivity|].
  split; [|by unfold header_ok; cbn]. constructor; cbn [buf attr_pos]; try done.
  - unfold hdr. rewrite <- !app_assoc. exact Hh'.
  - unfold hdr, sizeof_radius_hdr. cbn. rewrite !length_app. cbn. lia.
  - apply bytes_hdr. split_and!; [done| |done]. cbn. unfold WPA_PUT_BE16. rewrite !bytes_cons.
    change 0xff with (Z.ones 8). rewrite land_mask by lia. unfold u8. split_and!; try dlia. constructor.
Qed.

Lemma store_value_msg m x l1 a l2 v : msg m x (l1 ++ a :: l2) -> zlen v = zlen a.2 -> bytes v ->
  exists m', store m (20 + zlen (enc l1) + 2) v = Ok m' /\ msg m' x (l1 ++ (a.1, v) :: l2).
Proof.
  intros [H Hx] Hv Hb. destruct H as [Hh Hl Hbh Hg Hp].
  rewrite enc_app, enc_cons in Hh. unfold tlv in Hh.
  replace (hdr x ++ enc l1 ++ (a.1 :: 2 + zlen a.2 :: a.2) ++ enc l2)
    with ((hdr x ++ enc l1 ++ [a.1; 2 + zlen a.2]) ++ a.2 ++ enc l2) in Hh by (rewrite <- !app_assoc; done).
  destruct (wr_holds _ _ _ _ v Hh) as (l' & E & Hh'); [lia|].
  replace (zlen (hdr x ++ enc l1 ++ [a.1; 2 + zlen a.2])) with (20 + zlen (enc l1) + 2) in E
    by (rewrite !length_app; unfold sizeof_radius_hdr in Hl; cbn; lia).
  unfold store, mem_of. rewrite E. eexists. split; [reflexivity|].
  split; [|done]. constructor; cbn [buf attr_pos]; try done.
  - rewrite enc_app, enc_cons. unfold tlv. cbn [fst snd]. rewrite Hv. rewrite <- !app_assoc in Hh'.
    exact Hh'.
  - apply Forall_app in Hg as [G1 G2]. apply Forall_app. split; [done|].
    inversion G2 as [|? ? (T1 & T2 & T3) G3]; subst. constructor; [|done].
    unfold good. cbn [fst snd]. rewrite Hv. done.
  - etransitivity; [exact Hp|]. rewrite !offsets_app. cbn [offsets]. unfold attr_size_of. cbn [snd]. by rewrite Hv.
Qed.

Lemma msg_message m x l : msg m x l -> message m = hdr x ++ enc l.
Proof. intros [[[H _] ? ? ? ?] _]. exact H. Qed.

Lemma msg_authenticator m x l : msg m x l -> authenticator m = Ok x.(h_auth).
Proof.
  intros [H (X1 & X2 & X3)]. destruct (rep_header _ _ _ H) as [post E].
  unfold authenticator. rewrite E. unfold hdr. rewrite <- !app_assoc.
  rewrite (app_assoc (h_code x)). apply rdn_mid; [rewrite length_app; lia|done].
Qed.

Lemma msg_response_data m x l a secret : msg m x l ->
  response_data m a secret = Ok (x.(h_code) ++ x.(h_length) ++ a ++ enc l ++ secret).
Proof.
  intros [H (X1 & X2 & X3)]. pose proof (rep_used _ _ _ H) as Hu.
  destruct (rep_placed _ _ _ H) as (pre & post & E & Hpre).
  destruct (rep_header _ _ _ H) as [post' E'].
  unfold response_data, attributes. rewrite Hu.
  replace (rdn (mem_of m) 0 4) with (Ok (h_code x ++ h_length x)).
  2:{ rewrite E'. unfold hdr. rewrite <- !app_assoc, (app_assoc (h_code x)). symmetry.
      apply (rdn_mid []); [done|rewrite length_app; lia]. }
  cbn [cbind]. rewrite E, (rdn_mid _ _ _ _ _ Hpre) by (unfold sizeof_radius_hdr; lia).
  cbn [cbind]. by rewrite <- !app_assoc.
Qed.

Lemma msg_length_ok m x l : msg m x l -> length_ok m = true <-> 20 + zlen (enc l) <= 0xffff.
Proof. intros [H _]. unfold length_ok. rewrite (rep_used _ _ _ H). lia. Qed.

(** ** The Message-Authenticator attribute *)

Notation MA := RADIUS_ATTR_MESSAGE_AUTHENTICATOR.

(** No attribute of [l] is a Message-Authenticator. *)
Definition no_auth (l : list attr) : Prop := Forall (fun a => a.1 <> MA) l.

Lemma find_no_auth m o l k : placed (mem_of m) o (l ++ k) -> no_auth l ->
  find_attr m MA None (offsets o (l ++ k)) = find_attr m MA None (offsets (o + zlen (enc l)) k).
Proof.
  intros H Hl. revert o H. induction Hl as [|a l Ha Hl IH]; intros o H; cbn [app].
  - cbn. by rewrite Z.add_0_r.
  - cbn [offsets find_attr]. cbn [app] in H. read_attr H.
    destruct (Z.eqb_spec a.1 MA); [done|]. cbn [andb]. rewrite IH, length_enc_cons by done. do 2 f_equal. lia.
Qed.

Lemma placed_skip l o k1 k2 : placed l o (k1 ++ k2) -> placed l (o + zlen (enc k1)) k2.
Proof.
  intros (pre & post & -> & <-). exists (pre ++ enc k1), post.
  rewrite enc_app, <- !app_assoc, length_app. split; [done|lia].
Qed.

(** The first Message-Authenticator is found. *)
Lemma get_auth_ptr m x l1 v l2 : msg m x (l1 ++ (MA, v) :: l2) -> no_auth l1 ->
  radius_msg_get_attr_ptr m MA None = Ok (Some (20 + zlen (enc l1) + 2, zlen v)).
Proof.
  intros [H _] Hl. pose proof (rep_placed _ _ _ H) as Hp.
  unfold radius_msg_get_attr_ptr. rewrite (rep_pos _ _ _ H), find_no_auth by done.
  apply placed_skip in Hp. cbn [offsets find_attr]. read_attr Hp. cbn [fst].
  rewrite Z.eqb_refl. cbn [andb cbind]. unfold sizeof_radius_hdr in *. rewrite Hl0. cbn [cbind].
  pose proof (attr_size_pos (MA, v)). unfold sizeof_radius_attr_hdr.
  destruct (Z.ltb_spec (attr_size_of (MA, v)) 2); [lia|]. do 3 f_equal. unfold attr_size_of. cbn. lia.
Qed.

Lemma get_auth_none m x l : msg m x l -> no_auth l -> radius_msg_get_attr_ptr m MA None = Ok None.
Proof.
  intros [H _] Hl. pose proof (rep_placed _ _ _ H) as Hp.
  unfold radius_msg_get_attr_ptr. rewrite (rep_pos _ _ _ H). rewrite <- (app_nil_r l) in Hp |- *.
  by rewrite find_no_auth.
Qed.

(** Where the Message-Authenticator of a message goes: an attribute of zeros
    that is there, or else the end. *)
Definition slot (l l1 l2 : list attr) : Prop :=
  (l = l1 /\ l2 = [] \/ l = l1 ++ (MA, zeros 16) :: l2) /\ no_auth l1 /\ no_auth l2.

Definition with_auth (l1 l2 : list attr) (v : list Z) : list attr := l1 ++ (MA, v) :: l2.

Lemma auth_pos_msg m x l l1 l2 mem_ : msg m x l -> slot l l1 l2 ->
  exists m' r mem', radius_msg_auth_pos m mem_ = Ok ((m', r), mem') /\
    (forall p, r = Some p -> p = 20 + zlen (enc l1) + 2 /\ msg m' x (with_auth l1 l2 (zeros 16))) /\
    (mem_ = [] -> r <> None /\ mem' = []).
Proof.
  intros [H Hx] [[[-> ->]| ->] [H1 H2]]; unfold radius_msg_auth_pos.
  - rewrite (bind_lift _ _ _ _ (get_auth_none m x l1 (conj H Hx) H1)).
    unfold radius_msg_add_msg_auth.
    destruct (add_plain_rep m _ l1 MA (zeros MD5_MAC_LEN) mem_ H) as (m' & r & mem' & E & Hr & Hm).
    { unfold plain_type, MA. lia. }
    { apply bytes_zeros. }
    { done. }
    rewrite (bind_ok _ _ _ _ _ E). cbn [fst snd]. do 3 eexists. split; [reflexivity|]. split.
    + intros p. destruct r as [q|]; [|done]. intros [= <-]. destruct (Hr q eq_refl) as [-> Hrep].
      split; [done|]. by split.
    + intros E0. destruct (Hm E0) as [? ->]. by destruct r.
  - rewrite (bind_lift _ _ _ _ (get_auth_ptr m x l1 (zeros 16) l2 (conj H Hx) H1)). cbn [Z.eqb].
    change (zlen (zeros 16) =? MD5_MAC_LEN) with true. cbv iota.
    do 3 eexists. split; [reflexivity|]. split; [|done]. intros p [= <-]. done.
Qed.

(** The only Message-Authenticator of a message. *)
Lemma only_no_auth m o a l k : placed (mem_of m) o (l ++ k) -> no_auth l ->
  only_msg_auth m a (offsets o (l ++ k)) = only_msg_auth m a (offsets (o + zlen (enc l)) k).
Proof.
  intros H Hl. revert o H. induction Hl as [|b l Hb Hl IH]; intros o H; cbn [app].
  - cbn. by rewrite Z.add_0_r.
  - cbn [offsets only_msg_auth]. cbn [app] in H. read_attr H.
    destruct (Z.eqb_spec b.1 MA); [done|]. rewrite IH, length_enc_cons by done. do 2 f_equal. lia.
Qed.

Lemma only_auth m x l1 v l2 : msg m x (with_auth l1 l2 v) -> no_auth l1 -> no_auth l2 ->
  only_msg_auth m None m.(attr_pos) = Ok (Some (Some (20 + zlen (enc l1)))).
Proof.
  intros [H _] H1 H2. pose proof (rep_placed _ _ _ H) as Hp. unfold with_auth in *.
  rewrite (rep_pos _ _ _ H), only_no_auth by done. apply placed_skip in Hp.
  cbn [offsets only_msg_auth]. read_attr Hp. cbn [fst]. rewrite Z.eqb_refl.
  rewrite <- (app_nil_r l2) in Hp |- *. by rewrite only_no_auth.
Qed.

Lemma only_auth_none m x l : msg m x l -> no_auth l -> only_msg_auth m None m.(attr_pos) = Ok (Some None).
Proof.
  intros [H _] Hl. pose proof (rep_placed _ _ _ H) as Hp. rewrite (rep_pos _ _ _ H).
  rewrite <- (app_nil_r l) in Hp |- *. by rewrite only_no_auth.
Qed.

(** Every list of attributes has no Message-Authenticator, one, or more. *)
Lemma split_auth l : no_auth l \/ exists l1 v l2, l = with_auth l1 l2 v /\ no_auth l1.
Proof.
  induction l as [|[t v] l IH]; [by left; constructor|].
  destruct (decide (t = MA)) as [->|Ht].
  - right. exists [], v, l. split; [done|constructor].
  - destruct IH as [IH|(l1 & w & l2 & -> & H1)].
    + left. by constructor.
    + right. exists ((t, v) :: l1), w, l2. split; [done|by constructor].
Qed.

Lemma only_auth_more m x l1 v l2 w l3 : msg m x (with_auth l1 (with_auth l2 l3 w) v) -> no_auth l1 -> no_auth l2 ->
  only_msg_auth m None m.(attr_pos) = Ok None.
Proof.
  intros [H _] H1 H2. pose proof (rep_placed _ _ _ H) as Hp. unfold with_auth in *.
  rewrite (rep_pos _ _ _ H), only_no_auth by done. apply placed_skip in Hp.
  cbn [offsets only_msg_auth]. read_attr Hp. cbn [fst]. rewrite Z.eqb_refl.
  rewrite only_no_auth by done. apply placed_skip in Hp.
  cbn [offsets only_msg_auth]. read_attr Hp. cbn [fst]. by rewrite Z.eqb_refl.
Qed.

Lemma with_auth_inj l1 l2 v k1 k2 w : no_auth l1 -> no_auth k1 -> with_auth l1 l2 v = with_auth k1 k2 w ->
  l1 = k1 /\ v = w /\ l2 = k2.
Proof.
  unfold with_auth. intros H1. revert k1. induction H1 as [|a l1 Ha H1 IH]; intros k1 H2 E.
  - destruct k1 as [|b k1]; cbn in E; [by injection E|]. exfalso.
    injection E as E _. inversion H2 as [|? ? Hb]; subst. by cbn in Hb.
  - destruct k1 as [|b k1]; cbn in E.
    + exfalso. injection E as E _. subst a. by cbn in Ha.
    + injection E as -> E. inversion H2; subst. destruct (IH k1) as (-> & -> & ->); done.
Qed.

Lemma no_auth_with l1 l2 v : ~ no_auth (with_auth l1 l2 v).
Proof. unfold no_auth, with_auth. rewrite Forall_app, Forall_cons. cbn. tauto. Qed.

(** Reading the only Message-Authenticator, and zeros put in its place. *)
Lemma read_auth m x l1 v l2 : msg m x (with_auth l1 l2 v) ->
  rdn (mem_of m) (20 + zlen (enc l1) + 2) (zlen v) = Ok v.
Proof.
  intros [H _]. pose proof (rep_placed _ _ _ H) as Hp. apply placed_skip in Hp.
  apply placed_read in Hp as (_ & _ & Hv & _). unfold sizeof_radius_hdr in Hv.
  by replace (attr_size_of (MA, v) - 2) with (zlen v) in Hv by (unfold attr_size_of; cbn; lia).
Qed.

Lemma msg_auth_length l1 l2 v m x : msg m x (with_auth l1 l2 v) -> bytes v.
Proof.
  intros [H _]. pose proof (rep_good _ _ _ H) as Hg. apply Forall_app in Hg as [_ Hg].
  by inversion Hg as [|? ? (_ & Hb & _)].
Qed.

(** ** Finishing *)

Section checks.
Context `{HM : !Hmac} `{HL : !HmacLaws} `{MD : !Md5} `{ML : !Md5Laws}.

(** What the integrity codes of a message are taken over: the authenticator [a]
    in the header, and zeros for the Message-Authenticator. *)
Definition mac_data (x : header) (a : list Z) (l1 l2 : list attr) : list Z :=
  x.(h_code) ++ x.(h_length) ++ a ++ enc (with_auth l1 l2 (zeros 16)).
Definition md5_data (x : header) (a : list Z) (l : list attr) (secret : list Z) : list Z :=
  x.(h_code) ++ x.(h_length) ++ a ++ enc l ++ secret.

Lemma message_data m x l : msg m x l -> message m = x.(h_code) ++ x.(h_length) ++ x.(h_auth) ++ enc l.
Proof. intros H. rewrite (msg_message _ _ _ H). unfold hdr. by rewrite <- !app_assoc. Qed.

Lemma hmac_message_msg m x l1 l2 secret : msg m x (with_auth l1 l2 (zeros 16)) ->
  exists m' ok, hmac_message m secret (20 + zlen (enc l1) + 2) = Ok (m', ok) /\
    (ok = true -> exists mac, hmac MD5 secret (mac_data x x.(h_auth) l1 l2) = Some mac /\ msg m' x (with_auth l1 l2 mac)).
Proof.
  intros H. unfold hmac_message. rewrite (message_data _ _ _ H). fold (mac_data x (h_auth x) l1 l2).
  destruct (hmac MD5 secret _) as [mac|] eqn:E; [|do 2 eexists; done].
  destruct (hmac_output _ _ _ _ E) as [Hl Hb].
  destruct (store_value_msg m x l1 (MA, zeros 16) l2 mac H) as (m' & E' & H'); [done|done|].
  rewrite E'. do 2 eexists. split; [reflexivity|]. eauto.
Qed.

Lemma length_with_auth l1 l2 v w : zlen v = zlen w -> zlen (enc (with_auth l1 l2 v)) = zlen (enc (with_auth l1 l2 w)).
Proof. intros E. unfold with_auth. rewrite !enc_app, !length_app, !Nat2Z.inj_add, !length_enc_cons. unfold attr_size_of. cbn. lia. Qed.

(** The length a finished message announces. *)
Definition put_len (l1 l2 : list attr) : list Z := WPA_PUT_BE16 (u16 (20 + zlen (enc (with_auth l1 l2 (zeros 16))))).

(** The message [x'], [l'] is the response with code [x], attributes [l1] and
    [l2] to a request with authenticator [ra], signed with [secret]. *)
Definition signed_response (x : header) (l1 l2 : list attr) (ra secret : list Z) (x' : header) (l' : list attr) : Prop :=
  exists mac a, x' = mkHeader x.(h_code) (put_len l1 l2) a /\ l' = with_auth l1 l2 mac /\
    hmac MD5 secret (mac_data x' ra l1 l2) = Some mac /\ md5 (md5_data x' ra l' secret) = Some a.

Lemma length_zeros16 : zlen (zeros 16) = 16. Proof. done. Qed.

Lemma finish_srv_msg m x l l1 l2 secret ra mem_ :
  msg m x l -> slot l l1 l2 -> zlen ra = 16 -> bytes ra -> (forall d, md5 d <> None) ->
  exists m' r mem', radius_msg_finish_srv m secret ra mem_ = Ok ((m', r), mem') /\
    (r = 0 -> exists x' l', msg m' x' l' /\ signed_response x l1 l2 ra secret x' l' /\
       20 + zlen (enc l') <= 0xffff).
Proof.
  intros H Hs Hra Hb Hmd. unfold radius_msg_finish_srv.
  destruct (auth_pos_msg m x l l1 l2 mem_ H Hs) as (m1 & r & mem1 & E & Hr & _).
  rewrite (bind_ok _ _ _ _ _ E). destruct r as [p|]; [|do 3 eexists; split; [reflexivity|done]].
  destruct (Hr p eq_refl) as [-> H1]. clear Hr E.
  destruct (set_length_msg _ _ _ H1) as (m2 & E2 & H2). rewrite (bind_lift _ _ _ _ E2).
  destruct (set_authenticator_msg _ _ _ ra H2 Hra Hb) as (m3 & E3 & H3). rewrite (bind_lift _ _ _ _ E3).
  destruct (hmac_message_msg _ _ _ _ secret H3) as (m4 & ok & E4 & H4). rewrite (bind_lift _ _ _ _ E4).
  destruct ok; [|do 3 eexists; split; [reflexivity|done]]. cbn [negb fst snd]. cbv zeta.
  destruct (H4 eq_refl) as (mac & Em & H5). clear H4.
  rewrite (bind_lift _ _ _ _ (msg_response_data _ _ _ ra secret H5)), (bind_lift _ _ _ _ (msg_authenticator _ _ _ H5)).
  unfold md5_into. destruct (md5 _) as [a|] eqn:Ea; [|by destruct (Hmd _ Ea)].
  destruct (md5_output _ _ Ea) as [La Ba].
  destruct (set_authenticator_msg _ _ _ a H5 La Ba) as (m6 & E6 & H6).
  rewrite (bind_lift _ _ _ _ (eq_refl (Ok a))), (bind_lift _ _ _ _ E6).
  do 3 eexists. split; [reflexivity|]. destruct (length_ok m6) eqn:El; [|done]. intros _.
  apply (msg_length_ok _ _ _ H6) in El. do 2 eexists. split; [exact H6|]. split; [|done].
  exists mac, a. done.
Qed.

Lemma finish_das_resp_msg m x l l1 l2 secret ra mem_ :
  msg m x l -> slot l l1 l2 -> zlen ra = 16 -> bytes ra ->
  exists m' r mem', radius_msg_finish_das_resp m secret ra mem_ = Ok ((m', r), mem') /\
    (r = 0 -> exists x' l', msg m' x' l' /\ signed_response x l1 l2 ra secret x' l' /\
       20 + zlen (enc l') <= 0xffff).
Proof.
  intros H Hs Hra Hb. unfold radius_msg_finish_das_resp.
  destruct (auth_pos_msg m x l l1 l2 mem_ H Hs) as (m1 & r & mem1 & E & Hr & _).
  rewrite (bind_ok _ _ _ _ _ E). destruct r as [p|]; [|do 3 eexists; split; [reflexivity|done]].
  destruct (Hr p eq_refl) as [-> H1]. clear Hr E.
  destruct (set_length_msg _ _ _ H1) as (m2 & E2 & H2). rewrite (bind_lift _ _ _ _ E2).
  destruct (set_authenticator_msg _ _ _ ra H2 Hra Hb) as (m3 & E3 & H3). rewrite (bind_lift _ _ _ _ E3).
  destruct (hmac_message_msg _ _ _ _ secret H3) as (m4 & ok & E4 & H4). rewrite (bind_lift _ _ _ _ E4).
  destruct ok; [|do 3 eexists; split; [reflexivity|done]]. cbn [negb fst snd]. cbv zeta.
  destruct (H4 eq_refl) as (mac & Em & H5). clear H4. rewrite (message_data _ _ _ H5), <- !app_assoc.
  destruct (md5 _) as [a|] eqn:Ea; [|do 3 eexists; split; [reflexivity|done]].
  destruct (md5_output _ _ Ea) as [La Ba].
  destruct (set_authenticator_msg _ _ _ a H5 La Ba) as (m6 & E6 & H6). rewrite (bind_lift _ _ _ _ E6).
  do 3 eexists. split; [reflexivity|]. destruct (length_ok m6) eqn:El; [|done]. intros _.
  apply (msg_length_ok _ _ _ H6) in El. do 2 eexists. split; [exact H6|]. split; [|done].
  exists mac, a. done.
Qed.

(** ** Checking *)

(** The check of the Message-Authenticator of a message that has one. *)
Lemma verify_msg_auth_msg m x l1 v l2 secret ra :
  msg m x (with_auth l1 l2 v) -> no_auth l1 -> no_auth l2 -> zlen v = 16 -> zlen ra = 16 -> bytes ra ->
  exists m' r, radius_msg_verify_msg_auth m secret (Some ra) = Ok (m', r) /\
    (r = 0 <-> hmac MD5 secret (mac_data x ra l1 l2) = Some v) /\
    (r = 0 -> msg m' x (with_auth l1 l2 v)).
Proof.
  intros H H1 H2 Hv Hra Hb. unfold radius_msg_verify_msg_auth.
  rewrite (only_auth _ _ _ _ _ H H1 H2). cbn [cbind]. unfold sizeof_radius_attr_hdr, MD5_MAC_LEN.
  pose proof (read_auth _ _ _ _ _ H) as Er. rewrite Hv in Er. rewrite Er. cbn [cbind].
  destruct (store_value_msg m x l1 (MA, v) l2 (zeros 16) H) as (m1 & -> & Hm1); [cbn [snd]; by rewrite Hv|apply bytes_zeros|].
  cbn [cbind fst]. rewrite (msg_authenticator _ _ _ Hm1). cbn [cbind].
  destruct (set_authenticator_msg _ _ _ ra Hm1 Hra Hb) as (m2 & -> & Hm2). cbn [cbind].
  rewrite (message_data _ _ _ Hm2).
  change (hmac MD5 secret _) with (hmac MD5 secret (mac_data x ra l1 l2)).
  destruct (hmac MD5 secret _) as [mac|]; [|do 2 eexists; split; [reflexivity|done]].
  pose proof (msg_auth_length _ _ _ _ _ H) as Bv.
  destruct (store_value_msg m2 _ l1 (MA, zeros 16) l2 v Hm2) as (m3 & -> & Hm3); [by rewrite Hv|done|].
  cbn [cbind fst].
  assert (Ha : zlen x.(h_auth) = 16 /\ bytes x.(h_auth)).
  { destruct H as [H (_ & _ & ?)]. split; [done|]. pose proof (rep_bytes _ _ _ H) as B. by apply bytes_hdr in B as (_ & _ & B). }
  destruct Ha as [La Ba].
  destruct (set_authenticator_msg _ _ _ x.(h_auth) Hm3 La Ba) as (m4 & -> & Hm4). cbn [cbind].
  do 2 eexists. split; [reflexivity|]. unfold checked. split.
  - case_bool_decide as Ev; [subst; done|]. split; [done|congruence].
  - intros _. by destruct x.
Qed.

(** The receiver's rule: the response authenticator is right, and so is the only
    Message-Authenticator, which must be there when it is required. *)
Definition accepted (x : header) (l : list attr) (secret ra : list Z) (required : bool) : Prop :=
  md5 (md5_data x ra l secret) = Some x.(h_auth) /\
  (no_auth l /\ required = false \/
   exists l1 v l2, l = with_auth l1 l2 v /\ no_auth l1 /\ no_auth l2 /\
     hmac MD5 secret (mac_data x ra l1 l2) = Some v).

(** Message-Authenticators of the right length. *)
Definition auth_lengths (l : list attr) : Prop := Forall (fun a => a.1 = MA -> zlen a.2 = 16) l.

(** The second check of [radius_msg_verify]. *)
Lemma verify_md5_msg m x l secret ra : msg m x l ->
  exists r, (data <-- response_data m ra secret;;
             match md5 data with
             | None => Ok (m, 1)
             | Some h => a <-- authenticator m;; Ok (m, checked (bool_decide (h = a)))
             end)%c = Ok (m, r) /\ (r = 0 <-> md5 (md5_data x ra l secret) = Some x.(h_auth)).
Proof.
  intros H. rewrite (msg_response_data _ _ _ ra secret H). cbn [cbind]. fold (md5_data x ra l secret).
  destruct (md5 _) as [h|]; [|by eexists].
  rewrite (msg_authenticator _ _ _ H). cbn [cbind]. eexists. split; [reflexivity|].
  unfold checked. case_bool_decide as E; [by subst|]. split; [done|congruence].
Qed.

(** The first check of [radius_msg_verify]. *)
Lemma verify_auth_step m x l secret ra auth :
  msg m x l -> auth_lengths l -> zlen ra = 16 -> bytes ra ->
  exists m' r,
    (auth <-- (if auth : bool then Ok true else
                 r <-- radius_msg_get_attr_ptr m MA None;;
                 Ok (match r with Some _ => true | None => false end));;
     (if auth : bool then radius_msg_verify_msg_auth m secret (Some ra) else Ok (m, 0)))%c = Ok (m', r) /\
    (r = 0 -> msg m' x l) /\
    (r = 0 <-> (no_auth l /\ auth = false \/
       exists l1 v l2, l = with_auth l1 l2 v /\ no_auth l1 /\ no_auth l2 /\
         hmac MD5 secret (mac_data x ra l1 l2) = Some v)).
Proof.
  intros H Hl Hra Hb. destruct (split_auth l) as [Hn|(l1 & v & l2 & -> & H1)].
  - assert (Hno : forall P : Prop, (exists l1 v l2, l = with_auth l1 l2 v /\ P) -> False).
    { intros P (l1 & v & l2 & -> & _). by eapply no_auth_with. }
    destruct auth; cbn [cbind].
    + unfold radius_msg_verify_msg_auth. rewrite (only_auth_none _ _ _ H Hn). cbn [cbind].
      do 2 eexists. split; [reflexivity|]. split; [done|]. split; [done|].
      intros [[_ ?]|(l1 & v & l2 & -> & _)]; [done|]. by apply no_auth_with in Hn.
    + rewrite (get_auth_none _ _ _ H Hn). cbn [cbind]. do 2 eexists. split; [reflexivity|]. split; [done|]. tauto.
  - assert (Eauth : (if auth then Ok true else (r <-- radius_msg_get_attr_ptr m MA None;;
                 Ok (match r with Some _ => true | None => false end))%c) = Ok true).
    { destruct auth; [done|]. by rewrite (get_auth_ptr _ _ _ _ _ H H1). }
    rewrite Eauth. cbn [cbind].
    assert (Hv : zlen v = 16).
    { apply Forall_app in Hl as [_ Hl]. inversion Hl as [|? ? Hx]; subst. by apply Hx. }
    destruct (split_auth l2) as [H2|(l3 & w & l4 & -> & H3)].
    + destruct (verify_msg_auth_msg _ _ _ _ _ secret ra H H1 H2 Hv Hra Hb) as (m' & r & E & Hr & Hm).
      exists m', r. split; [done|]. split; [done|]. rewrite Hr. split.
      * intros E'. right. exists l1, v, l2. done.
      * intros [[Hn _]|(k1 & w & k2 & E' & K1 & _ & Hh)]; [by apply no_auth_with in Hn|].
        destruct (with_auth_inj _ _ _ _ _ _ H1 K1 E') as (-> & -> & ->). done.
    + unfold radius_msg_verify_msg_auth. rewrite (only_auth_more _ _ _ _ _ _ _ H H1 H3). cbn [cbind].
      do 2 eexists. split; [reflexivity|]. split; [done|]. split; [done|].
      intros [[Hn _]|(k1 & u & k2 & E' & K1 & K2 & _)]; [by apply no_auth_with in Hn|].
      destruct (with_auth_inj _ _ _ _ _ _ H1 K1 E') as (_ & _ & <-). by apply no_auth_with in K2.
Qed.

Lemma verify_msg m x l secret ra auth :
  msg m x l -> auth_lengths l -> zlen ra = 16 -> bytes ra ->
  exists m' r, radius_msg_verify m secret (Some ra) auth = Ok (m', r) /\
    (r = 0 <-> accepted x l secret ra auth) /\ (r = 0 -> msg m' x l).
Proof.
  intros H Hl Hra Hb. unfold radius_msg_verify.
  destruct (verify_auth_step m x l secret ra auth H Hl Hra Hb) as (m1 & r & E & Hm & Hr).
  destruct (if auth then Ok true else _) as [b|] eqn:Eb; [|done]. cbn [cbind] in E |- *.
  rewrite E. cbn [cbind fst snd]. unfold accepted. destruct (Z.eqb_spec r 0) as [->|Hne]; cbn [negb].
  - destruct (verify_md5_msg m1 x l secret ra) as (r' & -> & Hr'); [auto|].
    do 2 eexists. split; [reflexivity|]. split; [|auto]. rewrite Hr'. tauto.
  - do 2 eexists. split; [reflexivity|]. split; [|done]. split; [done|]. tauto.
Qed.

(** What was signed is accepted. *)
Lemma signed_accepted x l1 l2 ra secret x' l' auth :
  signed_response x l1 l2 ra secret x' l' -> no_auth l1 -> no_auth l2 -> accepted x' l' secret ra auth.
Proof.
  intros (mac & a & -> & -> & Hm & Ha) H1 H2. split; [done|]. right. exists l1, mac, l2. done.
Qed.

(** A request: with a secret, its Message-Authenticator covers it as sent. *)
Lemma finish_msg m x l l1 l2 secret mem_ :
  msg m x l -> slot l l1 l2 ->
  exists m' r mem', radius_msg_finish m secret mem_ = Ok ((m', r), mem') /\
    (r = 0 -> exists x' l', msg m' x' l' /\ h_length x' = WPA_PUT_BE16 (u16 (20 + zlen (enc l'))) /\
       h_code x' = h_code x /\ h_auth x' = h_auth x /\ 20 + zlen (enc l') <= 0xffff /\
       match secret with
       | None => l' = l
       | Some s => exists mac, l' = with_auth l1 l2 mac /\ hmac MD5 s (mac_data x' (h_auth x) l1 l2) = Some mac
       end).
Proof.
  intros H Hs. unfold radius_msg_finish. destruct secret as [s|].
  - destruct (auth_pos_msg m x l l1 l2 mem_ H Hs) as (m1 & r & mem1 & E & Hr & _).
    rewrite (bind_ok _ _ _ _ _ E). destruct r as [p|]; [|do 3 eexists; split; [reflexivity|done]].
    destruct (Hr p eq_refl) as [-> H1]. clear Hr E.
    destruct (set_length_msg _ _ _ H1) as (m2 & E2 & H2). rewrite (bind_lift _ _ _ _ E2).
    destruct (hmac_message_msg _ _ _ _ s H2) as (m4 & ok & E4 & H4). rewrite (bind_lift _ _ _ _ E4).
    destruct ok; [|do 3 eexists; split; [reflexivity|done]]. cbn [negb fst snd].
    destruct (H4 eq_refl) as (mac & Em & H5). destruct (hmac_output _ _ _ _ Em) as [Lm _].
    do 3 eexists. split; [reflexivity|]. destruct (length_ok m4) eqn:El; [|done]. intros _.
    apply (msg_length_ok _ _ _ H5) in El. do 2 eexists. split; [exact H5|].
    split_and!; [by rewrite (length_with_auth l1 l2 mac (zeros 16))|done|done|done|].
    exists mac. done.
  - destruct (set_length_msg _ _ _ H) as (m2 & E2 & H2). rewrite (bind_lift _ _ _ _ E2).
    do 3 eexists. split; [reflexivity|]. destruct (length_ok m2) eqn:El; [|done]. intros _.
    apply (msg_length_ok _ _ _ H2) in El. do 2 eexists. split; [exact H2|]. done.
Qed.

End checks.
End RadiusSign.
