(* ===== verification/RadiusWire.v ===== *)
(** * RADIUS messages on the wire

    What one end builds, the other end reads: responses, EAP packets; what a
    receiver accepts, for any bytes; and a message that makes it read past the
    end of its memory. *)

From S2P Require Import Prelude WpaDefs AesModes WpaKey Wpabuf Radius RadiusMsg RadiusSign.

Module RadiusWire.
Import WpaDefs WpaKey Wpabuf Radius RadiusMsg RadiusSign.

#[local] Open Scope Z_scope.
#[local] Open Scope list_scope.

(** A message that announces its length is framed by its own bytes. *)
Lemma hdr_length_hdr x n : header_ok x -> x.(h_length) = WPA_PUT_BE16 (u16 n) -> 0 <= n <= 0xffff ->
  hdr_length (hdr x) = n.
Proof.
  intros (X1 & X2 & X3) E Hn. unfold hdr. rewrite E. assert (X : length (h_code x) = 2%nat) by lia.
  destruct (h_code x) as [|c [|i [|? ?]]]; try discriminate X.
  unfold hdr_length, WPA_PUT_BE16. at_simpl. cbn [app nth]. change 0xff with (Z.ones 8).
  rewrite land_mask, shiftr_div by lia. unfold u16, u8. dlia.
Qed.

Lemma msg_framed m x l extra : msg m x l -> x.(h_length) = WPA_PUT_BE16 (u16 (20 + zlen (enc l))) ->
  20 + zlen (enc l) <= 0xffff -> framed (message m ++ extra) (hdr x) l.
Proof.
  intros [H Hx] E Hn. split; [exact (rep_length _ _ _ H)|]. split; [exact (rep_good _ _ _ H)|].
  split; [apply hdr_length_hdr; [done|done|lia]|].
  exists extra. rewrite (msg_message m x l (conj H Hx)). by rewrite <- app_assoc.
Qed.

Lemma msg_bytes m x l : msg m x l -> bytes (message m).
Proof.
  intros H. rewrite (msg_message _ _ _ H). destruct H as [H _]. apply bytes_app. split.
  - exact (rep_bytes _ _ _ H).
  - apply bytes_enc. exact (rep_good _ _ _ H).
Qed.

(** The receiver's copy. *)
Lemma delivered m x l extra : msg m x l -> x.(h_length) = WPA_PUT_BE16 (u16 (20 + zlen (enc l))) ->
  20 + zlen (enc l) <= 0xffff -> bytes extra ->
  exists m', radius_msg_parse (Some (message m ++ extra)) [] = Ok (Some m', []) /\ msg m' x l.
Proof.
  intros H E Hn Hb.
  destruct (parse_framed (message m ++ extra) (hdr x) l) as (m' & Em & Hm).
  { apply bytes_app. split; [by eapply msg_bytes|done]. }
  { by apply msg_framed. }
  exists m'. split; [done|]. split; [done|]. by destruct H.
Qed.

Lemma auth_lengths_with l1 l2 v : no_auth l1 -> no_auth l2 -> zlen v = 16 -> auth_lengths (with_auth l1 l2 v).
Proof.
  intros H1 H2 Hv. apply Forall_app. split; [|constructor; [done|]];
    (eapply Forall_impl; [eassumption|]); cbn; intros a Ha ?; by destruct Ha.
Qed.

Section wire.
Context `{HM : !Hmac} `{HL : !HmacLaws} `{MD : !Md5} `{ML : !Md5Laws}.

(** C14: A response that a server finishes with the shared secret, for a request
    with authenticator [ra], is delivered whole: the client parses the bytes (and
    ignores what follows them) and its check against the same request and secret
    accepts, whether or not it requires a Message-Authenticator; the check leaves
    the message as it was sent. *)
Theorem response_crosses m x l l1 l2 secret ra mem_ m' mem' extra auth :
  msg m x l -> slot l l1 l2 -> zlen ra = 16 -> bytes ra -> (forall d, md5 d <> None) ->
  radius_msg_finish_srv m secret ra mem_ = Ok ((m', 0), mem') -> bytes extra ->
  exists mc mc', radius_msg_parse (Some (message m' ++ extra)) [] = Ok (Some mc, []) /\
    radius_msg_verify mc secret (Some ra) auth = Ok (mc', 0) /\ message mc' = message m'.
Proof.
  intros H Hs Hra Hb Hmd E He.
  destruct (finish_srv_msg m x l l1 l2 secret ra mem_ H Hs Hra Hb Hmd) as (m1 & r & mem1 & E' & Hr).
  rewrite E' in E. injection E as -> -> _. destruct (Hr eq_refl) as (x' & l' & H' & Hsig & Hn). clear Hr E'.
  pose proof (signed_accepted _ _ _ _ _ _ _ auth Hsig) as Hacc.
  destruct Hs as [_ [N1 N2]]. destruct Hsig as (mac & a & Ex & El & Eh & _).
  destruct (hmac_output _ _ _ _ Eh) as [Lm _]. change (mac_len MD5) with 16 in Lm.
  destruct (delivered m' x' l' extra H') as (mc & Ep & Hc); [|done|done|].
  { rewrite Ex, El. cbn. unfold put_len. by rewrite (length_with_auth l1 l2 mac (zeros 16)). }
  destruct (verify_msg mc x' l' secret ra auth Hc) as (mc' & r & Ev & Hr & Hm).
  { rewrite El. by apply auth_lengths_with. } { done. } { done. }
  exists mc, mc'. assert (r = 0) as -> by (apply Hr, Hacc; done).
  split_and!; [done|done|]. by rewrite (msg_message _ _ _ H'), (msg_message _ _ _ (Hm eq_refl)).
Qed.

(** A header's bytes determine its parts. *)
Lemma hdr_inj x y : header_ok x -> header_ok y -> hdr x = hdr y -> x = y.
Proof.
  destruct x as [c n a], y as [c' n' a']. unfold header_ok, hdr. cbn. intros (C & N & _) (C' & N' & _) E.
  apply app_inj_1 in E as [-> E]; [|lia]. by apply app_inj_1 in E as [-> ->]; [|lia].
Qed.

(** C13: A response whose Message-Authenticators have their proper length of 16
    bytes, and which is otherwise any bytes, is accepted once parsed exactly
    when its response authenticator is the digest of the message under the
    request's authenticator and the secret and, when there is a
    Message-Authenticator or one is required, there is just one and it is the
    keyed digest of the message with zeros in its place.  Of another length, the
    code would take the 16 bytes that start there, see
    [short_authenticator_overruns]. *)
Theorem verify_exact data x l mem_ m mem' secret ra auth :
  bytes data -> header_ok x -> framed data (hdr x) l -> auth_lengths l -> zlen ra = 16 -> bytes ra ->
  radius_msg_parse (Some data) mem_ = Ok (Some m, mem') ->
  exists m' r, radius_msg_verify m secret (Some ra) auth = Ok (m', r) /\ (r = 0 <-> accepted x l secret ra auth).
Proof.
  intros Hb Hx Hf Hl Hra Hrb E. destruct (parse_represents data mem_ Hb) as (r & mem1 & E' & Hr & _).
  rewrite E' in E. injection E as -> _. destruct (Hr m eq_refl) as (h & k & Hf' & Hm).
  destruct (framed_inj _ _ _ _ _ Hf Hf') as [<- <-].
  destruct (rep_msg _ _ _ Hm) as (y & Ey & Hy). assert (y = x) as -> by (apply hdr_inj; [by destruct Hy|done|done]).
  destruct (verify_msg m x l secret ra auth Hy Hl Hra Hrb) as (m' & r' & Ev & Hacc & _). eauto.
Qed.

(** C23: A response that ends in a Message-Authenticator without a value makes the
    client read and write past the end of the message's memory, before anything
    has been authenticated. *)
Theorem short_authenticator_overruns h : bytes h -> zlen h = 20 -> hdr_length h = 22 ->
  exists m, radius_msg_parse (Some (h ++ [RADIUS_ATTR_MESSAGE_AUTHENTICATOR; 2])) [] = Ok (Some m, []) /\
    forall secret ra auth, radius_msg_verify m secret (Some ra) auth = Fault.
Proof.
  intros Hb Hl Hn. assert (H20 : length h = 20%nat) by lia. clear Hl.
  do 20 (destruct h as [|? h]; [discriminate|]). destruct h; [|discriminate]. clear H20.
  rewrite !bytes_cons in Hb. unfold hdr_length in Hn. revert Hn. at_simpl. intros Hn.
  match type of Hn with ?x * 256 + ?y = _ => assert (x = 0 /\ y = 22) as [-> ->] by lia end.
  clear Hb Hn. eexists. split; [vm_compute; reflexivity|]. intros secret ra []; reflexivity.
Qed.

Lemma slot_add l l1 l2 k : slot l l1 l2 -> no_auth k -> exists k1 k2, slot (l ++ k) k1 k2.
Proof.
  intros [[[-> ->]| ->] [H1 H2]] Hk.
  - exists (l1 ++ k), []. split; [by left|]. split; [by apply Forall_app|constructor].
  - exists l1, (l2 ++ k). split; [right; by rewrite <- app_assoc|]. split; [done|by apply Forall_app].
Qed.

Lemma payload_auth type l l1 l2 v : type <> RADIUS_ATTR_MESSAGE_AUTHENTICATOR -> slot l l1 l2 ->
  payload type (with_auth l1 l2 v) = payload type l.
Proof.
  intros Ht [Hl _]. unfold with_auth. rewrite payload_app, payload_cons. cbn [fst].
  destruct (Z.eqb_spec RADIUS_ATTR_MESSAGE_AUTHENTICATOR type); [congruence|]. cbn [app].
  destruct Hl as [[-> ->]| ->]; [by rewrite app_nil_r|].
  rewrite payload_app, payload_cons. cbn [fst]. by destruct (Z.eqb_spec RADIUS_ATTR_MESSAGE_AUTHENTICATOR type).
Qed.

(** C24: An EAP packet put into a request, cut into attributes as long as needed,
    comes out of the request whole at the server. *)
Theorem eap_crosses m x l l1 l2 data secret m1 mem_ mem1 m2 mem2 extra :
  msg m x l -> slot l l1 l2 -> payload RADIUS_ATTR_EAP_MESSAGE l = [] -> bytes data -> data <> [] ->
  radius_msg_add_eap m data mem_ = Ok ((m1, true), mem1) ->
  radius_msg_finish m1 secret mem1 = Ok ((m2, 0), mem2) -> bytes extra ->
  exists mc b mem3, radius_msg_parse (Some (message m2 ++ extra)) [] = Ok (Some mc, []) /\
    radius_msg_get_eap (Some mc) [] = Ok (Some b, mem3) /\ holds b data.
Proof.
  intros [H Hx] Hs Hp Hb Hd E1 E2 He.
  destruct (add_eap_rep m (hdr x) l data mem_ H Hb) as (m1' & ok & mem1' & E1' & Hok & _).
  rewrite E1' in E1. injection E1 as -> -> ->. destruct (Hok eq_refl) as (k & Hk & Hpk & Ha).
  destruct (slot_add l l1 l2 k Hs) as (k1 & k2 & Hs').
  { eapply Forall_impl; [exact Ha|]. cbn. intros a ->. discriminate. }
  destruct (finish_msg m1 x (l ++ k) k1 k2 secret mem1 (conj Hk Hx) Hs') as (m2' & r & mem2' & E2' & Hr).
  rewrite E2' in E2. injection E2 as -> -> _. destruct (Hr eq_refl) as (x' & l' & H' & El & _ & _ & Hn & Hl').
  destruct (delivered m2 x' l' extra H' El Hn He) as (mc & Ep & [Hc _]).
  assert (Hpl : payload RADIUS_ATTR_EAP_MESSAGE l' = data).
  { transitivity (payload RADIUS_ATTR_EAP_MESSAGE (l ++ k)).
    - destruct secret as [s|]; [|by subst]. destruct Hl' as (mac & -> & _). by apply payload_auth.
    - by rewrite payload_app, Hp, Hpk. }
  destruct (get_eap_payload mc _ l' [] Hc) as ([b|] & mem3 & Eg & Hg); rewrite Hpl in Hg.
  - exists mc, b, mem3. by destruct Hg.
  - by destruct (Hd (Hg eq_refl)).
Qed.

End wire.

(** ** Concrete messages *)

(** Stand-ins for the digests, to run the model with. *)
Definition toy_digest (n : Z) (d : list Z) : list Z :=
  replicate (Z.to_nat n) (u8 (foldl (fun a b => 3 * a + b) 7 d)).
Definition toy_hmac : Hmac := {| hmac h k d := Some (toy_digest (mac_len h) (k ++ d)) |}.
Definition toy_md5 : Md5 := {| md5 d := Some (toy_digest 16 d) |}.

Lemma toy_hmac_laws : @HmacLaws toy_hmac.
Proof.
  constructor. intros h k d m [= <-]. split; [unfold toy_digest; rewrite length_replicate; by destruct h|].
  apply bytes_replicate, u8_range.
Qed.

Lemma toy_md5_laws : @Md5Laws toy_md5.
Proof. constructor. intros d h [= <-]. split; [done|]. apply bytes_replicate, u8_range. Qed.

Lemma toy_md5_total d : @md5 toy_md5 d <> None.
Proof. done. Qed.

(** The message of [radius_msg_new(code, id)]. *)
Definition fresh (code id : Z) : radius_msg :=
  mkMsg (mkBuf (code :: id :: zeros 1022) 20) [] RADIUS_DEFAULT_ATTR_COUNT.

Lemma fresh_msg code id : is_byte code -> is_byte id ->
  msg (fresh code id) (mkHeader [code; id] [0; 0] (zeros 16)) [].
Proof.
  intros. split; [|done]. constructor; try done.
  apply bytes_hdr. split_and!; [repeat (apply bytes_cons; split; [done|]); constructor| |apply bytes_zeros].
  by_deciding.
Qed.

Lemma slot_nil : slot [] [] [].
Proof. split; [by left|]. split; constructor. Qed.

Definition toy_secret : list Z := [115; 51].
Definition toy_auth : list Z := replicate 16 9.

Lemma response_crosses_witness :
  exists m' mc mc', radius_msg_parse (Some (message m' ++ [1])) [] = Ok (Some mc, []) /\
    @radius_msg_verify toy_hmac toy_md5 mc toy_secret (Some toy_auth) true = Ok (mc', 0) /\ message mc' = message m'.
Proof.
  eexists. refine (@response_crosses toy_hmac toy_hmac_laws toy_md5 toy_md5_laws (fresh 2 7) _ _ _ _
    toy_secret toy_auth [] _ _ [1] true (fresh_msg 2 7 _ _) slot_nil eq_refl _ toy_md5_total _ _).
  1, 2: lia. 1: by_deciding. 1: vm_compute; reflexivity. by_deciding.
Defined.

(** A response with a class and a Message-Authenticator. *)
Definition toy_mac : list Z := replicate 16 5.
Definition toy_response : list Z :=
  [2; 7; 0; 41] ++ zeros 16 ++ [25; 3; 1] ++ [RADIUS_ATTR_MESSAGE_AUTHENTICATOR; 18] ++ toy_mac.
Definition toy_header : header := mkHeader [2; 7] [0; 41] (zeros 16).

Lemma verify_exact_witness :
  auth_lengths [(25, [1]); (RADIUS_ATTR_MESSAGE_AUTHENTICATOR, toy_mac)] /\
  exists m m' r, @radius_msg_verify toy_hmac toy_md5 m toy_secret (Some toy_auth) true = Ok (m', r) /\
    (r = 0 <-> @accepted toy_hmac toy_md5 toy_header [(25, [1]); (RADIUS_ATTR_MESSAGE_AUTHENTICATOR, toy_mac)]
       toy_secret toy_auth true).
Proof.
  assert (Ha : auth_lengths [(25, [1]); (RADIUS_ATTR_MESSAGE_AUTHENTICATOR, toy_mac)])
    by (constructor; [intros E; discriminate E|constructor; [intros _; reflexivity|constructor]]).
  split; [exact Ha|]. eexists.
  refine (@verify_exact toy_hmac toy_md5 toy_response toy_header _ [] _ _ toy_secret toy_auth true _ _ _ Ha eq_refl _ _).
  - by_deciding.
  - split_and!; reflexivity.
  - split_and!; [reflexivity| |reflexivity|exists []; reflexivity].
    repeat constructor; first [by_deciding|unfold RADIUS_MAX_ATTR_LEN; cbn; lia].
  - by_deciding.
  - vm_compute. reflexivity.
Defined.

Lemma short_authenticator_overruns_witness : exists m,
  radius_msg_parse (Some (([2; 7; 0; 22] ++ zeros 16) ++ [RADIUS_ATTR_MESSAGE_AUTHENTICATOR; 2])) [] = Ok (Some m, []) /\
  forall secret ra auth, @radius_msg_verify toy_hmac toy_md5 m secret (Some ra) auth = Fault.
Proof.
  apply (@short_authenticator_overruns toy_hmac toy_md5 ([2; 7; 0; 22] ++ zeros 16)); [by_deciding|done|done].
Defined.

Lemma eap_crosses_witness : exists m2 mc b mem3,
  radius_msg_parse (Some (message m2 ++ [1; 2])) [] = Ok (Some mc, []) /\
  radius_msg_get_eap (Some mc) [] = Ok (Some b, mem3) /\ holds b (replicate 300 3).
Proof.
  eexists. refine (@eap_crosses toy_hmac toy_hmac_laws (fresh 1 5) _ [] [] []
    (replicate 300 3) (Some toy_secret) _ [] _ _ _ [1; 2] (fresh_msg 1 5 _ _) slot_nil eq_refl _ _ _ _ _).
  1, 2: lia. 1: by_deciding. 1: discriminate. 1, 2: vm_compute; reflexivity. by_deciding.
Defined.

End RadiusWire.
