(* ===== verification/RadiusKeys.v ===== *)
(** * Keys in RADIUS messages

    The keys an authentication server hands to the access point, hidden with the
    shared secret (RFC 2548), come out as they went in; the password of a request
    is hidden over whole blocks; and a long attribute does not survive. *)

From S2P Require Import Prelude WpaDefs AesModes WpaKey Wpabuf Radius RadiusMsg RadiusSign RadiusWire.

Module RadiusKeys.
Import WpaDefs WpaKey Wpabuf Radius RadiusMsg RadiusSign RadiusWire.

#[local] Open Scope Z_scope.
#[local] Open Scope list_scope.

(** ** Reads inside a value *)

Lemma rd_inside l o n bs i : rdn l o n = Ok bs -> 0 <= i < n -> rd l (o + i) = Ok (at_ bs i).
Proof.
  unfold rdn. destruct (Z.leb_spec 0 o), (Z.leb_spec 0 n), (Z.leb_spec (o + n) (zlen l)); cbn; try done.
  intros [= <-] Hi. rewrite rd_ok by lia. f_equal. rewrite !at_lookup. unfold slice.
  rewrite lookup_take_lt, lookup_drop by lia. do 2 f_equal. lia.
Qed.

Lemma rdn_inside l o n bs i k : rdn l o n = Ok bs -> 0 <= i -> 0 <= k -> i + k <= n ->
  rdn l (o + i) k = Ok (slice i k bs).
Proof.
  unfold rdn. destruct (Z.leb_spec 0 o), (Z.leb_spec 0 n), (Z.leb_spec (o + n) (zlen l)); cbn; try done.
  intros [= <-] Hi Hk Hik. destruct (Z.leb_spec 0 (o + i)), (Z.leb_spec 0 k), (Z.leb_spec (o + i + k) (zlen l)); cbn; try lia.
  f_equal. unfold slice. rewrite skipn_firstn_comm, take_take, drop_drop. f_equal; [lia|]. f_equal. lia.
Qed.

Lemma xor_block_cancel a b : length a = length b -> xor_block (xor_block a b) b = a.
Proof.
  unfold xor_block. revert b. induction a as [|x a IH]; intros [|y b]; cbn; try done.
  intros [= H]. rewrite lxor_cancel. f_equal. auto.
Qed.

Lemma length_xor_block a b : length a = length b -> length (xor_block a b) = length a.
Proof. intros H. unfold xor_block. rewrite length_zip_with. lia. Qed.

Lemma bytes_xor_block a b : bytes a -> bytes b -> bytes (xor_block a b).
Proof.
  unfold xor_block. intros Ha. revert b. induction Ha as [|x a Hx Ha IH]; intros b Hb; [constructor|].
  destruct Hb as [|y b Hy Hb]; cbn; [constructor|]. rewrite bytes_cons. auto using lxor_byte.
Qed.

Section keys.
Context `{HM : !Hmac} `{HL : !HmacLaws} `{MD : !Md5} `{ML : !Md5Laws}.

(** ** The hidden form of a key *)

(** Encryption of whole blocks keeps the length, and decryption undoes it. *)
Lemma encrypt_blocks_decrypt fuel secret before hash plain : (forall d, md5 d <> None) ->
  zlen plain mod 16 = 0 -> (length plain < fuel)%nat ->
  exists c, encrypt_blocks fuel secret before hash plain = Ok c /\ length c = length plain /\
    decrypt_blocks fuel secret before c = Ok (Some plain) /\ (bytes plain -> bytes c).
Proof.
  intros Hmd. revert before hash plain. induction fuel as [|fuel IH]; intros before hash plain Hp Hf; [lia|].
  cbn [encrypt_blocks]. destruct (Z.ltb_spec 0 (zlen plain)) as [H0|H0].
  2:{ assert (plain = []) as -> by (destruct plain; [done|cbn in H0; lia]). by exists []. }
  assert (H16 : 16 <= zlen plain) by dlia.
  unfold md5_into. destruct (md5 (secret ++ before)) as [h|] eqn:Eh; [|by destruct (Hmd _ Eh)].
  destruct (md5_output _ _ Eh) as [Lh Bh]. unfold MD5_MAC_LEN in *. cbn [cbind].
  rewrite rdn_ok by lia. cbn [cbind].
  assert (Lb : length (slice 0 16 plain) = length h) by (rewrite length_slice by lia; lia).
  set (b := xor_block (slice 0 16 plain) h).
  assert (Lb' : length b = 16%nat) by (unfold b; rewrite length_xor_block by done; rewrite length_slice by lia; lia).
  destruct (IH b (Some h) (drop 16 plain)) as (c & E & Lc & Ed & Bc).
  { rewrite length_drop. dlia. }
  { rewrite length_drop. lia. }
  rewrite E. cbn [cbind]. exists (b ++ c). split; [done|]. split.
  { rewrite length_app, Lb', Lc, length_drop. lia. }
  assert (Lbc : zlen (b ++ c) = zlen plain) by (rewrite length_app, Lb', Lc, length_drop; lia).
  cbn [decrypt_blocks]. destruct (Z.ltb_spec 0 (zlen (b ++ c))); [|lia].
  rewrite Eh. unfold MD5_MAC_LEN. rewrite rdn_ok by lia. cbn [cbind].
  rewrite slice_app_l by lia. rewrite drop_app_length' by lia. rewrite Ed. cbn [cbind].
  split; [|intros Bp; apply bytes_app; split; [apply bytes_xor_block; auto using bytes_slice|auto using bytes_drop]].
  unfold b. rewrite xor_block_cancel by done. do 2 f_equal.
  unfold slice. rewrite drop_0. change (Z.to_nat 16) with 16%nat. apply take_drop.
Qed.

(** The rounding is to whole blocks, for keys of up to 254 bytes. *)
Lemma ms_key_len_blocks n : 0 <= n <= 254 ->
  ms_key_len n mod 16 = 0 /\ 1 + n <= ms_key_len n <= n + 16.
Proof.
  intros Hn.
  pose proof (byte_forall (fun n => (254 <? n) || ((ms_key_len n mod 16 =? 0) && (1 + n <=? ms_key_len n) &&
                                      (ms_key_len n <=? n + 16))) n eq_refl) as H.
  cbv beta in H. lia.
Qed.

(** A hidden key is the salt and the ciphertext; the reader recovers the key. *)
Lemma hidden_key key salt ra secret : (forall d, md5 d <> None) -> 1 <= zlen key <= 254 ->
  exists e, encrypt_ms_key key salt ra secret = Ok e /\ zlen e = ms_key_len (zlen key) /\
    decrypt_ms_key (WPA_PUT_BE16 salt ++ e) ra secret [] = Ok (Some key, []) /\ (bytes key -> bytes e).
Proof.
  intros Hmd Hk. destruct (ms_key_len_blocks (zlen key)) as [Hm Hn]; [lia|]. unfold encrypt_ms_key.
  set (n := ms_key_len (zlen key)) in *.
  set (plain := take (Z.to_nat n) (u8 (zlen key) :: key ++ zeros 16)).
  assert (Lz : length (zeros 16) = 16%nat) by done.
  assert (Lp : zlen plain = n).
  { unfold plain. rewrite length_take. cbn [length]. rewrite length_app, Lz. lia. }
  destruct (encrypt_blocks_decrypt (S (length plain)) secret (ra ++ WPA_PUT_BE16 salt) None plain Hmd) as (e & E & Le & Ed & Be);
    [by rewrite Lp|lia|].
  exists e. split; [done|]. split; [lia|]. split.
  2:{ intros Bk. apply Be, bytes_take, bytes_cons. split; [unfold u8; dlia|]. apply bytes_app. auto using bytes_zeros. }
  unfold decrypt_ms_key.
  assert (Ls : length (WPA_PUT_BE16 salt) = 2%nat) by done.
  rewrite length_app, Ls. destruct (Z.ltb_spec (Z.of_nat (2 + length e)) (2 + 16)); [dlia|].
  rewrite drop_app_length' by done. rewrite Le, Lp, Hm. cbn [Z.eqb negb].
  rewrite (bind_ok os_malloc _ [] true []) by done. cbn [negb].
  rewrite take_app_length' by done.
  replace (S (length e)) with (S (length plain)) by lia.
  rewrite (bind_lift _ _ _ _ Ed).
  assert (Ep : exists r, plain = zlen key :: key ++ r).
  { set (k := (Z.to_nat n - 1 - length key)%nat). exists (take k (zeros 16)). unfold plain.
    replace (Z.to_nat n) with (S (length key + k)) by lia.
    cbn [take]. rewrite take_app_add. unfold u8. rewrite Z.mod_small by lia. done. }
  destruct Ep as [r Ep]. rewrite Ep.
  rewrite (bind_lift _ _ _ (zlen key)) by (apply (rd_mid []); done).
  destruct (Z.eqb_spec (zlen key) 0); [lia|].
  destruct (Z.ltb_spec (zlen (zlen key :: key ++ r) - 1) (zlen key)) as [Hlt|_].
  { cbn [length] in Hlt. rewrite length_app in Hlt. lia. }
  cbn [orb]. rewrite (bind_lift _ _ _ key) by (apply (rdn_mid [_]); done). done.
Qed.

(** ** Vendor attributes *)

(** The value that [vendor_value] writes. *)
Lemma vendor_value_parts vendor type d : 0 <= vendor < 2 ^ 32 -> is_byte type -> zlen d <= 247 ->
  zlen (vendor_value vendor type (2 + zlen d) d) = 6 + zlen d /\
  WPA_GET_BE32 (slice 0 4 (vendor_value vendor type (2 + zlen d) d)) = Ok vendor /\
  at_ (vendor_value vendor type (2 + zlen d) d) 4 = type /\
  at_ (vendor_value vendor type (2 + zlen d) d) 5 = 2 + zlen d /\
  slice 6 (zlen d) (vendor_value vendor type (2 + zlen d) d) = d.
Proof.
  intros Hv Ht Hd. unfold vendor_value. assert (L4 : zlen (WPA_PUT_BE32 vendor) = 4) by done. split_and!.
  - rewrite !length_app, !Nat2Z.inj_add, L4. cbn [length]. lia.
  - rewrite slice_app_l by done. rewrite <- (app_nil_r (WPA_PUT_BE32 vendor)). by apply get_put_be32.
  - unfold WPA_PUT_BE32, at_. cbn [app nth Z.to_nat]. change (Z.to_nat 4) with 4%nat. cbn. unfold u8. by rewrite Z.mod_small by lia.
  - unfold WPA_PUT_BE32, at_. cbn [app]. change (Z.to_nat 5) with 5%nat. cbn [nth]. unfold u8. by rewrite Z.mod_small by lia.
  - rewrite app_assoc. by rewrite slice_app_r.
Qed.

Lemma bytes_be16 v : bytes (WPA_PUT_BE16 v).
Proof.
  unfold WPA_PUT_BE16. rewrite <- u8_land, !bytes_cons. split_and!; try apply u8_range. constructor.
Qed.

Lemma bytes_vendor_value vendor type n d : bytes d -> bytes (vendor_value vendor type n d).
Proof.
  intros Hd. unfold vendor_value, WPA_PUT_BE32. cbn [app]. rewrite <- ?u8_land, !bytes_cons.
  split_and!; try apply u8_range. done.
Qed.

(** An attribute that holds one vendor attribute, of vendor [vendor]. *)
Definition holds_vendor (a : attr) (vendor type : Z) (d : list Z) : Prop :=
  a = (RADIUS_ATTR_VENDOR_SPECIFIC, vendor_value vendor type (2 + zlen d) d) /\
  0 <= vendor < 2 ^ 32 /\ is_byte type /\ zlen d <= 247.

Lemma find_vendor_one m o v vendor type d subtype fuel :
  rdn (mem_of m) o (6 + zlen d) = Ok v -> v = vendor_value vendor type (2 + zlen d) d ->
  0 <= vendor < 2 ^ 32 -> is_byte type -> zlen d <= 247 ->
  find_vendor (S (S fuel)) m subtype (o + 4) (2 + zlen d) = Ok (if type =? subtype then Some d else None).
Proof.
  intros Hr -> Hv Ht Hd. destruct (vendor_value_parts vendor type d Hv Ht Hd) as (L & _ & E4 & E5 & E6).
  set (v := vendor_value vendor type (2 + zlen d) d) in *.
  cbn [find_vendor]. unfold sizeof_radius_attr_vendor. destruct (Z.ltb_spec (2 + zlen d) 2); [lia|].
  rewrite (rd_inside _ _ _ _ 4 Hr) by lia. cbn [cbind].
  replace (o + 4 + 1) with (o + 5) by lia. rewrite (rd_inside _ _ _ _ 5 Hr) by lia. cbn [cbind].
  rewrite E4, E5. destruct (Z.ltb_spec (2 + zlen d) (2 + zlen d)); [lia|].
  destruct (Z.ltb_spec (2 + zlen d) 2); [lia|]. cbn [orb].
  destruct (Z.eqb_spec type subtype) as [->|Hne]; cbn [negb].
  - replace (o + 4 + 2) with (o + 6) by lia. replace (2 + zlen d - 2) with (zlen d) by lia.
    rewrite (rdn_inside _ _ _ _ 6 _ Hr) by lia. cbn [cbind]. by rewrite E6.
  - rewrite Z.sub_diag. done.
Qed.

(** The search passes by attributes that are not vendor attributes. *)
Definition no_vendor (l : list attr) : Prop := Forall (fun a => a.1 <> RADIUS_ATTR_VENDOR_SPECIFIC) l.

Lemma get_vendor_skip m vendor subtype o l k mem_ : placed (mem_of m) o (l ++ k) -> no_vendor l ->
  get_vendor_attr m vendor subtype (offsets o (l ++ k)) mem_ =
  get_vendor_attr m vendor subtype (offsets (o + zlen (enc l)) k) mem_.
Proof.
  intros H Hl. revert o H. induction Hl as [|a l Ha Hl IH]; intros o H; cbn [app].
  - cbn. by rewrite Z.add_0_r.
  - cbn [offsets get_vendor_attr]. cbn [app] in H. apply placed_read in H as (Et & El & _ & H).
    rewrite (bind_lift _ _ _ _ Et), (bind_lift _ _ _ _ El).
    destruct (Z.eqb_spec a.1 RADIUS_ATTR_VENDOR_SPECIFIC); [done|]. cbn [negb orb].
    rewrite IH, length_enc_cons by done. do 2 f_equal. lia.
Qed.

(** The search finds the attribute of the subtype, and passes by another of the
    vendor. *)
Lemma get_vendor_step m vendor type d subtype o a k : placed (mem_of m) o (a :: k) ->
  holds_vendor a vendor type d ->
  get_vendor_attr m vendor subtype (offsets o (a :: k)) [] =
    if type =? subtype then Ok (Some d, [])
    else get_vendor_attr m vendor subtype (offsets (o + attr_size_of a) k) [].
Proof.
  intros H (-> & Hv & Ht & Hd). destruct (vendor_value_parts vendor type d Hv Ht Hd) as (L & E0 & _).
  apply placed_read in H as (Et & El & Er & _).
  assert (Ea : attr_size_of (RADIUS_ATTR_VENDOR_SPECIFIC, vendor_value vendor type (2 + zlen d) d) = 8 + zlen d)
    by (unfold attr_size_of; cbn [snd]; lia).
  rewrite Ea in *. replace (8 + zlen d - 2) with (6 + zlen d) in Er by lia.
  cbn [offsets get_vendor_attr fst]. rewrite (bind_lift _ _ _ _ Et), (bind_lift _ _ _ _ El), Ea. cbn [fst].
  unfold sizeof_radius_attr_hdr. rewrite Z.eqb_refl. cbn [negb orb].
  destruct (Z.ltb_spec (8 + zlen d) 2); [lia|]. destruct (Z.ltb_spec (8 + zlen d - 2) 4); [lia|].
  pose proof (rdn_inside _ _ _ _ 0 4 Er ltac:(lia) ltac:(lia) ltac:(lia)) as Ei.
  rewrite Z.add_0_r in Ei. rewrite (bind_lift _ _ _ _ Ei), (bind_lift _ _ _ _ E0), Z.eqb_refl. cbn [negb].
  replace (8 + zlen d - 2 - 4) with (2 + zlen d) by lia.
  replace (S (Z.to_nat (8 + zlen d - 2))) with (S (S (5 + length d))) by lia.
  rewrite (bind_lift _ _ _ _ (find_vendor_one m (o + 2) _ vendor type d subtype _ Er eq_refl Hv Ht Hd)).
  destruct (type =? subtype); done.
Qed.

(** ** Keys in a message *)

Notation VS := RADIUS_ATTR_VENDOR_SPECIFIC.

(** The attribute a key is sent in. *)
Definition key_attr (type : Z) (d : list Z) : attr := (VS, vendor_value RADIUS_VENDOR_ID_MICROSOFT type (2 + zlen d) d).

Lemma add_mppe_key_rep m h l type salt ra secret key mem_ : rep m h l -> (forall d, md5 d <> None) ->
  is_byte type -> bytes key -> 1 <= zlen key <= 239 ->
  exists d, zlen d <= 247 /\ decrypt_ms_key d ra secret [] = Ok (Some key, []) /\
  exists m' ok mem', add_mppe_key m type salt ra secret key mem_ = Ok ((m', ok), mem') /\
    (ok = true -> rep m' h (l ++ [key_attr type d])) /\ (mem_ = [] -> ok = true /\ mem' = []).
Proof.
  intros H Hmd Ht Hb Hk. destruct (hidden_key key salt ra secret Hmd) as (e & Ee & Le & Ed & Be); [lia|].
  destruct (ms_key_len_blocks (zlen key)) as [Hm Hn]; [lia|].
  assert (He : zlen e <= 240) by dlia.
  set (d := WPA_PUT_BE16 salt ++ e) in *. assert (Ld : zlen d = 2 + zlen e) by (unfold d; rewrite length_app; cbn; lia).
  exists d. split; [lia|]. split; [done|]. unfold add_mppe_key. rewrite (bind_lift _ _ _ _ Ee).
  fold d. replace (4 + sizeof_radius_attr_vendor + 2 + zlen e - 4) with (2 + zlen d) by (unfold sizeof_radius_attr_vendor; lia).
  destruct (vendor_value_parts RADIUS_VENDOR_ID_MICROSOFT type d) as (Lv & _); [done|done|lia|].
  destruct (add_plain_rep m h l VS (vendor_value RADIUS_VENDOR_ID_MICROSOFT type (2 + zlen d) d) mem_ H) as (m' & r & mem' & E & Hr & Hok).
  { unfold plain_type, VS. lia. }
  { apply bytes_vendor_value. apply bytes_app. auto using bytes_be16. }
  { unfold RADIUS_MAX_ATTR_LEN, sizeof_radius_attr_hdr. lia. }
  rewrite (bind_ok _ _ _ _ _ E). cbn [fst snd]. do 3 eexists. split; [reflexivity|]. split.
  - destruct r as [p|]; [|done]. intros _. by destruct (Hr p eq_refl).
  - intros E0. destruct (Hok E0) as [? ->]. by destruct r.
Qed.

Lemma add_mppe_keys_rep m h l ra secret send_key recv_key salt mem_ : rep m h l -> (forall d, md5 d <> None) ->
  bytes send_key -> bytes recv_key -> 1 <= zlen send_key <= 239 -> 1 <= zlen recv_key <= 239 ->
  exists m' ok mem', radius_msg_add_mppe_keys m ra secret send_key recv_key (Some salt) mem_ = Ok ((m', ok), mem') /\
    (ok = true -> exists ds dr, zlen ds <= 247 /\ zlen dr <= 247 /\
       decrypt_ms_key ds ra secret [] = Ok (Some send_key, []) /\
       decrypt_ms_key dr ra secret [] = Ok (Some recv_key, []) /\
       rep m' h (l ++ [key_attr RADIUS_VENDOR_ATTR_MS_MPPE_SEND_KEY ds; key_attr RADIUS_VENDOR_ATTR_MS_MPPE_RECV_KEY dr])).
Proof.
  intros H Hmd Bs Br Ls Lr. unfold radius_msg_add_mppe_keys.
  destruct (os_malloc mem_) as [[[] mem1]|] eqn:Em; [| |by destruct mem_];
    rewrite (bind_ok _ _ _ _ _ Em); cbn [negb]; [|do 3 eexists; split; [reflexivity|done]].
  set (s := Z.lor salt 0x8000).
  destruct (add_mppe_key_rep m h l RADIUS_VENDOR_ATTR_MS_MPPE_SEND_KEY s ra secret send_key mem1 H Hmd) as
    (ds & Ld & Ed & m1 & ok & mem2 & E & Hok & _); [done|done|done|].
  rewrite (bind_ok _ _ _ _ _ E). cbn [fst snd]. destruct ok; cbn [negb]; [|do 3 eexists; split; [reflexivity|done]].
  specialize (Hok eq_refl).
  destruct (os_malloc mem2) as [[[] mem3]|] eqn:Em3; [| |by destruct mem2];
    rewrite (bind_ok _ _ _ _ _ Em3); cbn [negb]; [|do 3 eexists; split; [reflexivity|done]].
  destruct (add_mppe_key_rep m1 h _ RADIUS_VENDOR_ATTR_MS_MPPE_RECV_KEY (Z.lxor s 1) ra secret recv_key mem3 Hok Hmd) as
    (dr & Lr' & Er & m2 & ok & mem4 & E' & Hok' & _); [done|done|done|].
  rewrite E'. do 3 eexists. split; [reflexivity|]. intros ->.
  exists ds, dr. split_and!; try done. rewrite <- app_assoc in Hok'. by apply Hok'.
Qed.

(** The keys are read from the first vendor attributes of a message. *)
Lemma get_ms_keys_rep m h l1 l2 ds dr ra secret send_key recv_key :
  rep m h (l1 ++ key_attr RADIUS_VENDOR_ATTR_MS_MPPE_SEND_KEY ds :: key_attr RADIUS_VENDOR_ATTR_MS_MPPE_RECV_KEY dr :: l2) ->
  no_vendor l1 -> zlen ds <= 247 -> zlen dr <= 247 ->
  decrypt_ms_key ds ra secret [] = Ok (Some send_key, []) -> decrypt_ms_key dr ra secret [] = Ok (Some recv_key, []) ->
  radius_msg_get_ms_keys (Some m) (Some ra) secret [] = Ok (Some (mkKeys (Some send_key) (Some recv_key)), []).
Proof.
  intros H Hl Ls Lr Es Er. pose proof (rep_placed _ _ _ H) as Hp.
  assert (Hs : holds_vendor (key_attr RADIUS_VENDOR_ATTR_MS_MPPE_SEND_KEY ds) RADIUS_VENDOR_ID_MICROSOFT
                 RADIUS_VENDOR_ATTR_MS_MPPE_SEND_KEY ds) by done.
  assert (Hr : holds_vendor (key_attr RADIUS_VENDOR_ATTR_MS_MPPE_RECV_KEY dr) RADIUS_VENDOR_ID_MICROSOFT
                 RADIUS_VENDOR_ATTR_MS_MPPE_RECV_KEY dr) by done.
  unfold radius_msg_get_ms_keys. rewrite (bind_ok os_malloc _ [] true []) by done. cbn [negb].
  assert (Gs : get_ms_key (Some m) RADIUS_VENDOR_ATTR_MS_MPPE_SEND_KEY ra secret [] = Ok (Some send_key, [])).
  { unfold get_ms_key, radius_msg_get_vendor_attr. rewrite (rep_pos _ _ _ H).
    rewrite (bind_ok _ _ _ (Some ds) []); [exact Es|].
    rewrite get_vendor_skip by done. apply placed_skip in Hp.
    rewrite (get_vendor_step _ _ _ _ _ _ _ _ Hp Hs). done. }
  assert (Gr : get_ms_key (Some m) RADIUS_VENDOR_ATTR_MS_MPPE_RECV_KEY ra secret [] = Ok (Some recv_key, [])).
  { unfold get_ms_key, radius_msg_get_vendor_attr. rewrite (rep_pos _ _ _ H).
    rewrite (bind_ok _ _ _ (Some dr) []); [exact Er|].
    rewrite get_vendor_skip by done. apply placed_skip in Hp.
    rewrite (get_vendor_step _ _ _ _ _ _ _ _ Hp Hs). cbn [Z.eqb]. apply placed_read in Hp as (_ & _ & _ & Hp).
    change (RADIUS_VENDOR_ATTR_MS_MPPE_SEND_KEY =? RADIUS_VENDOR_ATTR_MS_MPPE_RECV_KEY) with false.
    rewrite (get_vendor_step _ _ _ _ _ _ _ _ Hp Hr). done. }
  rewrite (bind_ok _ _ _ _ _ Gs), (bind_ok _ _ _ _ _ Gr). done.
Qed.

(** The attributes that follow those of a message are together in what is sent. *)
Lemma slot_add_inside l l1 l2 k : slot l l1 l2 -> no_auth k ->
  exists k1 k2, slot (l ++ k) k1 k2 /\
    forall v, exists l0 t, with_auth k1 k2 v = l0 ++ k ++ t /\ (no_vendor l -> no_vendor l0).
Proof.
  intros [[[-> ->]| ->] [H1 H2]] Hk.
  - exists (l1 ++ k), []. split.
    + split; [by left|]. split; [by apply Forall_app|constructor].
    + intros v. exists l1, [(MA, v)]. unfold with_auth. by rewrite <- app_assoc.
  - exists l1, (l2 ++ k). split.
    + split; [right; by rewrite <- app_assoc|]. split; [done|by apply Forall_app].
    + intros v. exists (l1 ++ (MA, v) :: l2), []. unfold with_auth. rewrite app_nil_r, <- app_assoc. split; [done|].
      unfold no_vendor. rewrite !Forall_app, !Forall_cons. cbn. intuition done.
Qed.

(** C15: Two keys of 1 to 239 bytes that a server adds to a response without a
    vendor attribute, hidden under the shared secret and the request's
    authenticator, are the keys the access point reads from the bytes it
    receives: both come out as they went in. *)
Theorem ms_keys_cross m x l l1 l2 ra secret send_key recv_key salt mem_ m1 mem1 m2 mem2 extra :
  msg m x l -> slot l l1 l2 -> no_vendor l -> (forall d, md5 d <> None) -> zlen ra = 16 -> bytes ra ->
  bytes send_key -> bytes recv_key -> 1 <= zlen send_key <= 239 -> 1 <= zlen recv_key <= 239 ->
  radius_msg_add_mppe_keys m ra secret send_key recv_key (Some salt) mem_ = Ok ((m1, true), mem1) ->
  radius_msg_finish_srv m1 secret ra mem1 = Ok ((m2, 0), mem2) -> bytes extra ->
  exists mc, radius_msg_parse (Some (message m2 ++ extra)) [] = Ok (Some mc, []) /\
    radius_msg_get_ms_keys (Some mc) (Some ra) secret [] = Ok (Some (mkKeys (Some send_key) (Some recv_key)), []).
Proof.
  intros [H Hx] Hs Hv Hmd Hra Bra Bs Br Ls Lr E1 E2 He.
  destruct (add_mppe_keys_rep m (hdr x) l ra secret send_key recv_key salt mem_ H Hmd Bs Br Ls Lr) as (m1' & ok & mem1' & E1' & Hok).
  rewrite E1' in E1. injection E1 as -> -> ->.
  destruct (Hok eq_refl) as (ds & dr & Lds & Ldr & Es & Er & Hk). clear Hok.
  set (k := [key_attr RADIUS_VENDOR_ATTR_MS_MPPE_SEND_KEY ds; key_attr RADIUS_VENDOR_ATTR_MS_MPPE_RECV_KEY dr]) in *.
  destruct (slot_add_inside l l1 l2 k Hs) as (k1 & k2 & Hs' & Hin); [by repeat constructor|].
  destruct (finish_srv_msg m1 x (l ++ k) k1 k2 secret ra mem1 (conj Hk Hx) Hs' Hra Bra Hmd) as (m2' & r & mem2' & E2' & Hr).
  rewrite E2' in E2. injection E2 as -> -> _. destruct (Hr eq_refl) as (x' & l' & H' & Hsig & Hn).
  destruct Hsig as (mac & a & Ex & El & Eh & _).
  destruct (hmac_output _ _ _ _ Eh) as [Lm _]. change (mac_len MD5) with 16 in Lm.
  destruct (delivered m2 x' l' extra H') as (mc & Ep & Hc & _); [|done|done|].
  { rewrite Ex, El. cbn. unfold put_len. by rewrite (length_with_auth k1 k2 mac (zeros 16)). }
  exists mc. split; [done|]. destruct (Hin mac) as (l0 & t & El' & Hl0). rewrite El, El' in Hc.
  by eapply get_ms_keys_rep; [exact Hc|auto|..].
Qed.

(** ** A long attribute *)

Lemma enc_prefix l r k : enc l ++ r = enc k -> Forall good k -> exists k', r = enc k' /\ Forall good k'.
Proof.
  revert k. induction l as [|a l IH]; intros k E Hk; [by exists k|].
  rewrite enc_cons, <- app_assoc in E. destruct (enc_tlv_inj _ _ _ E Hk) as (k' & _ & E' & Hk'). eauto.
Qed.

Lemma put_attr_bytes m p hdr data : holds m.(buf) p -> zlen p + zlen hdr + zlen data <= size m.(buf) ->
  exists m', put_attr m hdr data = Ok m' /\ holds m'.(buf) (p ++ hdr ++ data) /\ size m'.(buf) = size m.(buf).
Proof.
  intros Hh Hr. unfold put_attr.
  destruct (put_data_ok _ _ hdr Hh) as (b1 & -> & Hb1 & Hs1); [lia|]. cbn [cbind].
  destruct (put_data_ok _ _ data Hb1) as (b2 & -> & Hb2 & Hs2); [rewrite length_app; lia|]. cbn [cbind].
  eexists. split; [reflexivity|]. cbn. rewrite <- app_assoc in Hb2. split; [done|]. congruence.
Qed.

(** What [radius_msg_add_attr] writes for a long attribute of two fragments. *)
Definition long_bytes (ext_type : Z) (data : list Z) : list Z :=
  [RADIUS_ATTR_LONG_EXT_TYPE_1; 255; ext_type; 0x80] ++ data ++
  [RADIUS_ATTR_LONG_EXT_TYPE_1; zlen data - 247; ext_type; 0] ++ drop 251 data.

Lemma add_long_two m p ext_type data : holds m.(buf) p -> 252 <= zlen data <= 502 ->
  zlen p + 2 * zlen data - 243 <= size m.(buf) ->
  exists m' a, add_long_ext (S (length data)) m None RADIUS_ATTR_LONG_EXT_TYPE_1 ext_type data [] = Ok ((m', Some a), []) /\
    holds m'.(buf) (p ++ long_bytes ext_type data).
Proof.
  intros Hh Hd Hs. destruct data as [|x data']; [cbn in Hd; lia|]. set (data := x :: data') in *.
  replace (length data) with (S (length data')) by done. cbn [add_long_ext].
  unfold sizeof_radius_attr_hdr_ext. change (255 - 3 - 1) with 251. change (u8 (3 + 1 + 251)) with 255.
  destruct (Z.ltb_spec 251 (zlen data)) as [_|]; [|lia]. destruct (Z.ltb_spec 251 (zlen data)) as [_|]; [|lia].
  change (u8 (3 + 1 + 251)) with 255.
  destruct (put_attr_bytes m p [RADIUS_ATTR_LONG_EXT_TYPE_1; 255; ext_type; 128] data Hh) as (m1 & E1 & H1 & S1); [cbn [length]; lia|].
  rewrite (bind_lift _ _ _ _ E1). clear E1.
  destruct (add_to_array_rep m1 (msg_len m) []) as (m2 & ok & mem2 & E2 & Eb2 & _ & Hok).
  destruct (Hok eq_refl) as [-> ->]. rewrite (bind_ok _ _ _ _ _ E2). cbn [fst snd negb]. clear E2.
  change (Z.to_nat 251) with 251%nat.
  assert (Lr : zlen (drop 251 data) = zlen data - 251) by (rewrite length_drop; lia).
  destruct (Z.ltb_spec 0 (zlen (drop 251 data))); [|lia].
  assert (E251 : (251 <? zlen (drop 251 data)) = false) by lia. rewrite E251.
  destruct (Z.ltb_spec (zlen (drop 251 data)) (zlen (drop 251 data))); [lia|].
  replace (u8 (3 + 1 + zlen (drop 251 data))) with (zlen data - 247) by (rewrite u8_small by lia; lia).
  rewrite <- Eb2 in H1, S1.
  destruct (put_attr_bytes m2 _ [RADIUS_ATTR_LONG_EXT_TYPE_1; zlen data - 247; ext_type; 0] (drop 251 data) H1) as (m3 & E3 & H3 & _).
  { rewrite !length_app. cbn [length]. rewrite S1. lia. }
  rewrite (bind_lift _ _ _ _ E3). clear E3.
  destruct (add_to_array_rep m3 (msg_len m2) []) as (m4 & ok & mem4 & E4 & Eb4 & _ & Hok4).
  destruct (Hok4 eq_refl) as [-> ->]. rewrite (bind_ok _ _ _ _ _ E4). cbn [fst snd negb].
  rewrite (drop_ge (drop 251 data)) by lia. cbn [length]. change (0 <? Z.of_nat 0) with false. cbv iota.
  do 2 eexists. split; [reflexivity|]. rewrite Eb4. rewrite <- !app_assoc in H3. exact H3.
Qed.

Lemma app_cons4 (a b c d : Z) l r : [a; b; c; d] ++ l ++ r = (a :: b :: c :: d :: l) ++ r.
Proof. done. Qed.

(** The bytes of a long attribute are attributes only when the data left over
    after the first fragment happen to start one. *)
Lemma long_bytes_parse l ext_type data k : 253 <= zlen data <= 502 ->
  enc l ++ long_bytes ext_type data = enc k -> Forall good k -> 2 <= at_ data 252.
Proof.
  intros Hd E Hk. destruct (enc_prefix _ _ _ E Hk) as (k1 & E1 & Hk1). clear E Hk.
  set (f := (RADIUS_ATTR_LONG_EXT_TYPE_1, ext_type :: 0x80 :: take 251 data) : attr).
  assert (Et : long_bytes ext_type data = tlv f ++ drop 251 data ++
             [RADIUS_ATTR_LONG_EXT_TYPE_1; zlen data - 247; ext_type; 0] ++ drop 251 data).
  { unfold long_bytes, tlv, f. cbn [fst snd length app].
    replace (2 + Z.of_nat (S (S (length (take 251 data))))) with 255 by (rewrite length_take; lia).
    do 4 f_equal. rewrite (app_assoc (take 251 data)), take_drop. done. }
  rewrite Et in E1. destruct (enc_tlv_inj _ _ _ E1 Hk1) as (k2 & _ & E2 & _).
  assert (Ed : exists t n r, drop 251 data = t :: n :: r /\ n = at_ data 252).
  { unfold at_. change (Z.to_nat 252) with (251 + 1)%nat. rewrite nth_lookup, <- lookup_drop.
    assert (2 <= zlen (drop 251 data)) by (rewrite length_drop; lia).
    destruct (drop 251 data) as [|t [|n r]]; cbn [length] in *; [lia|lia|]. exists t, n, r. done. }
  destruct Ed as (t & n & r & Ed & ->). rewrite Ed in E2. cbn [app] in E2.
  apply enc_length_range in E2. lia.
Qed.

(** The announced length of any message in the making. *)
Lemma set_length_holds m x r : holds m.(buf) (hdr x ++ r) -> header_ok x ->
  exists m', set_length m = Ok m' /\
    holds m'.(buf) (hdr (x <| h_length := WPA_PUT_BE16 (u16 (20 + zlen r)) |>) ++ r).
Proof.
  intros Hh (X1 & X2 & X3). destruct Hh as [Hh Hu].
  assert (Hl : msg_len m = 20 + zlen r).
  { unfold msg_len, wpabuf_len. rewrite Hu. unfold hdr. rewrite !length_app. lia. }
  unfold hdr in Hh, Hu. rewrite <- !app_assoc in Hh, Hu.
  destruct (wr_holds _ _ _ _ (WPA_PUT_BE16 (u16 (20 + zlen r))) (conj Hh Hu)) as (l' & E & Hh'); [done|].
  unfold set_length, store, mem_of. rewrite X1 in E. rewrite Hl, E. eexists. split; [reflexivity|].
  unfold hdr. rewrite <- !app_assoc. exact Hh'.
Qed.

(** A message whose bytes after the header are no list of attributes is refused. *)
Lemma parse_refuses x r : header_ok x -> bytes (hdr x ++ r) -> 20 + zlen r <= 0xffff ->
  x.(h_length) = WPA_PUT_BE16 (u16 (20 + zlen r)) -> (forall k, r = enc k -> Forall good k -> False) ->
  exists mem', radius_msg_parse (Some (hdr x ++ r)) [] = Ok (None, mem').
Proof.
  intros Hx Hb Hr El Hno. destruct (parse_represents _ [] Hb) as ([m|] & mem' & E & H & _); [|by exists mem'].
  exfalso. destruct (H m eq_refl) as (h & k & Hf & _). destruct (framed_parts _ _ _ Hf) as (En & _ & _ & Ek).
  assert (L20 : zlen (hdr x) = 20) by (destruct Hx as (?&?&?); unfold hdr; rewrite !length_app; lia).
  rewrite hdr_length_app, (hdr_length_hdr x (20 + zlen r)) in * by (try done; lia).
  rewrite take_ge, drop_app_length' in Ek by (rewrite ?length_app; lia).
  apply (Hno k); [done|]. by destruct Hf as (_ & ? & _).
Qed.

Lemma bytes_long_bytes ext_type data : is_byte ext_type -> bytes data -> 252 <= zlen data <= 502 ->
  bytes (long_bytes ext_type data).
Proof.
  intros Ht Hb Hd. unfold long_bytes, RADIUS_ATTR_LONG_EXT_TYPE_1. rewrite !bytes_app, !bytes_cons.
  split_and!; try lia; try done; try constructor. by apply bytes_drop.
Qed.

(** A long extended attribute of two fragments is not what its receiver needs:
    the first fragment is followed by all the data, so that, unless the data left
    over look like an attribute, the receiver refuses the whole message, which the
    sender built and finished without an error. *)
Theorem long_attribute_garbles m x l data : msg m x l ->
  253 <= zlen data <= 502 -> bytes data -> at_ data 252 < 2 ->
  2 * zlen data - 243 <= wpabuf_tailroom m.(buf) -> zlen (enc l) + 2 * zlen data <= 0xffff ->
  exists m1 p m2 mem2 mem3,
    radius_msg_add_attr m RADIUS_ATTR_EXT_VENDOR_SPECIFIC_5 data [] = Ok ((m1, Some p), []) /\
    radius_msg_finish m1 None [] = Ok ((m2, 0), mem2) /\
    radius_msg_parse (Some (message m2)) [] = Ok (None, mem3).
Proof.
  intros [H Hx] Hd Hb H2 Hroom Hmax. pose proof (rep_holds _ _ _ H) as Hh.
  rewrite (holds_tailroom _ _ Hh) in Hroom.
  destruct (add_long_two m _ 26 data Hh) as (m1 & p & E1 & H1); [lia|lia|].
  assert (Ea : radius_msg_add_attr m RADIUS_ATTR_EXT_VENDOR_SPECIFIC_5 data [] = Ok ((m1, Some p), [])).
  { rewrite <- E1. unfold radius_msg_add_attr. change (255 <? RADIUS_ATTR_EXT_VENDOR_SPECIFIC_5) with true.
    change (u8 (Z.shiftr RADIUS_ATTR_EXT_VENDOR_SPECIFIC_5 8)) with 245.
    change (Z.shiftr RADIUS_ATTR_EXT_VENDOR_SPECIFIC_5 8) with 245.
    change (Z.land RADIUS_ATTR_EXT_VENDOR_SPECIFIC_5 0xff) with 26.
    change (radius_is_ext_type 245) with true. cbn [negb andb].
    change (255 - (sizeof_radius_attr_hdr_ext + 1)) with 251.
    change (radius_is_long_ext_type 245) with true.
    assert (En : (zlen data + 251 - 1) / 251 = 2) by dlia. rewrite En.
    change (if 2 =? 0 then 1 else 2) with 2. cbv iota beta zeta.
    destruct (Z.ltb_spec 4096 (zlen data)); [lia|]. rewrite (holds_tailroom _ _ Hh).
    destruct (Z.ltb_spec (size (buf m) - zlen (hdr x ++ enc l)) (2 * (sizeof_radius_attr_hdr_ext + 1) + zlen data));
      [unfold sizeof_radius_attr_hdr_ext in *; lia|].
    rewrite (bind_ok _ _ _ (Some (buf m), true) []) by done. cbv beta iota zeta. by destruct m. }
  assert (Ll : zlen (long_bytes 26 data) = 2 * zlen data - 243).
  { unfold long_bytes. rewrite !length_app, length_drop. cbn [length]. lia. }
  rewrite <- app_assoc in H1.
  destruct (set_length_holds m1 x _ H1 Hx) as (m2 & E2 & Hh2).
  assert (Lr : 20 + zlen (enc l ++ long_bytes 26 data) <= 0xffff) by (rewrite length_app; lia).
  set (x' := x <| h_length := _ |>) in Hh2.
  assert (Ef : radius_msg_finish m1 None [] = Ok ((m2, 0), [])).
  { unfold radius_msg_finish. rewrite (bind_lift _ _ _ _ E2). unfold length_ok, msg_len, wpabuf_len.
    destruct Hh2 as [_ ->]. destruct Hx as (X1 & X2 & X3). unfold hdr, x'. cbn [set_field h_code h_length h_auth].
    assert (E20 : (0xffff <? zlen ((h_code x ++ WPA_PUT_BE16 (u16 (20 + zlen (enc l ++ long_bytes 26 data))) ++ h_auth x)
                     ++ enc l ++ long_bytes 26 data)) = false).
    { set (w := WPA_PUT_BE16 _). assert (Lw : zlen w = 2) by done. rewrite length_app, !(length_app _ (w ++ _)), (length_app w).
      apply Z.ltb_ge. rewrite !Nat2Z.inj_add, Lw, X1, X3. lia. }
    by rewrite E20. }
  destruct (parse_refuses x' (enc l ++ long_bytes 26 data)) as (mem3 & E3).
  - by destruct Hx as (? & ? & ?).
  - pose proof (rep_bytes _ _ _ H) as B. apply bytes_hdr in B as (B1 & _ & B3).
    apply bytes_app. split; [apply bytes_hdr; split_and!; [done|apply bytes_be16|done]|].
    apply bytes_app. split; [apply bytes_enc, (rep_good _ _ _ H)|apply bytes_long_bytes; [lia|done|lia]].
  - done.
  - done.
  - intros k Ek Hk. pose proof (long_bytes_parse l 26 data k Hd Ek Hk). lia.
  - do 5 eexists. split_and!; [exact Ea|exact Ef|].
    destruct Hh2 as [Hm _]. unfold message. by rewrite Hm.
Qed.

End keys.

Lemma ms_keys_cross_witness : exists m2 mc,
  radius_msg_parse (Some (message m2 ++ [])) [] = Ok (Some mc, []) /\
  @radius_msg_get_ms_keys toy_md5 (Some mc) (Some toy_auth) toy_secret [] =
    Ok (Some (mkKeys (Some (replicate 32 5)) (Some (replicate 31 6))), []).
Proof.
  eexists. refine (@ms_keys_cross toy_hmac toy_hmac_laws toy_md5 toy_md5_laws (fresh 2 7) _ [] [] [] toy_auth toy_secret
    (replicate 32 5) (replicate 31 6) 77 [] _ _ _ _ [] (fresh_msg 2 7 _ _) slot_nil _ toy_md5_total eq_refl _ _ _ _ _ _ _ _).
  1, 2: lia. 1: constructor. 1, 2, 3: by_deciding. 1, 2: by_deciding. 1, 2: vm_compute; reflexivity. constructor.
Defined.

Lemma long_attribute_garbles_witness : exists m1 p m2 mem2 mem3,
  radius_msg_add_attr (fresh 2 7) RADIUS_ATTR_EXT_VENDOR_SPECIFIC_5 (replicate 300 1) [] = Ok ((m1, Some p), []) /\
  @radius_msg_finish toy_hmac m1 None [] = Ok ((m2, 0), mem2) /\
  radius_msg_parse (Some (message m2)) [] = Ok (None, mem3).
Proof.
  apply (@long_attribute_garbles toy_hmac (fresh 2 7) (mkHeader [2; 7] [0; 0] (zeros 16)) [] (replicate 300 1));
    [by apply fresh_msg|by_deciding|by_deciding|done|by_deciding|by_deciding].
Defined.

End RadiusKeys.
