(* ===== verification/Codec.v ===== *)
(** * Text codecs

    utils/common.c: hexadecimal text, MAC addresses, escaped strings, the values
    of the configuration file and SSIDs.

    A C string is the list of its characters before the NUL.  A pointer into it
    is the list of the characters left: [char_at] reads NUL at the end, and the
    code moves a pointer only past a character it found to be another one.  A
    buffer that is written is a list of its length, and a write outside it is a
    [Fault]. *)

From S2P Require Import Prelude Wpabuf.

Module Codec.
Import Wpabuf.

#[local] Open Scope Z_scope.
#[local] Open Scope list_scope.

(** [*str] *)
Definition char_at (str : list Z) : Z := match str with [] => 0 | c :: _ => c end.

Definition ETH_ALEN : Z := 6.
Definition SSID_MAX_LEN : Z := 32.

(** ** Printing *)

(** [os_snprintf(buf + pos, size, ...)], when the format makes [text]. *)
Definition os_snprintf (buf : list Z) (pos size : Z) (text : list Z) : cres (list Z * Z) :=
  if size =? 0 then Ok (buf, zlen text)
  else (buf <-- wr buf pos (take (Z.to_nat (size - 1)) text ++ [0]);; Ok (buf, zlen text))%c.

(** utils/os.h *)
Definition os_snprintf_error (size res : Z) : bool := (res <? 0) || (size <=? res).

(** What [vsnprintf] returned becomes what was written. *)
Definition wpa_scnprintf (buf : list Z) (pos size : Z) (text : list Z) : cres (list Z * Z) :=
  if size =? 0 then Ok (buf, 0)
  else
    (r <-- os_snprintf buf pos size text;;
     let ret := r.2 in
     if ret <? 0 then Ok (r.1, 0)
     else if size <=? ret then Ok (r.1, size - 1)
     else Ok (r.1, ret))%c.

(** "%02x", "%02X" *)
Definition hex_digit (uppercase : bool) (v : Z) : Z :=
  if v <? 10 then 48 + v else (if uppercase then 65 else 97) + (v - 10).
Definition fmt_02x (uppercase : bool) (b : Z) : list Z :=
  [hex_digit uppercase (b / 16); hex_digit uppercase (b mod 16)].

(** The loop of the hexadecimal printers, [fmt] being the text of a byte: the
    buffer, [pos], and whether it ended in an error. *)
Fixpoint hex_loop (fmt : Z -> list Z) (buf : list Z) (pos : Z) (data : list Z)
    : cres (list Z * Z * bool) :=
  match data with
  | [] => Ok (buf, pos, false)
  | b :: data =>
      (r <-- os_snprintf buf pos (zlen buf - pos) (fmt b);;
       if os_snprintf_error (zlen buf - pos) r.2
       then l <-- wr r.1 (zlen buf - 1) [0];; Ok (l, pos, true)
       else hex_loop fmt r.1 (pos + r.2) data)%c
  end.

(** [buf_size] is the length of [buf]. *)
Definition wpa_snprintf_hex_sep (buf data : list Z) (sep : Z) : cres (list Z * Z) :=
  if zlen buf =? 0 then Ok (buf, 0)
  else
    (r <-- hex_loop (fun b => fmt_02x false b ++ [sep]) buf 0 data;;
     let '(buf, pos, err) := r in
     if err then Ok (buf, pos) else l <-- wr buf (pos - 1) [0];; Ok (l, pos))%c.

Definition wpa_snprintf_hex_case (buf data : list Z) (uppercase : bool) : cres (list Z * Z) :=
  if zlen buf =? 0 then Ok (buf, 0)
  else
    (r <-- hex_loop (fmt_02x uppercase) buf 0 data;;
     let '(buf, pos, err) := r in
     if err then Ok (buf, pos) else l <-- wr buf (zlen buf - 1) [0];; Ok (l, pos))%c.

Definition wpa_snprintf_hex (buf data : list Z) : cres (list Z * Z) :=
  wpa_snprintf_hex_case buf data false.
Definition wpa_snprintf_hex_uppercase (buf data : list Z) : cres (list Z * Z) :=
  wpa_snprintf_hex_case buf data true.

(** ** Hexadecimal text *)

Definition hex2num (c : Z) : Z :=
  if (48 <=? c) && (c <=? 57) then c - 48
  else if (97 <=? c) && (c <=? 102) then c - 97 + 10
  else if (65 <=? c) && (c <=? 70) then c - 65 + 10
  else -1.

Definition hex2byte (hex : list Z) : Z :=
  let a := hex2num (char_at hex) in
  if a <? 0 then -1
  else
    let b := hex2num (char_at (tail hex)) in
    if b <? 0 then -1 else Z.lor (Z.shiftl a 4) b.

(** The bytes stored at [buf], and the result. *)
Fixpoint hexstr2bin (hex : list Z) (len : nat) : list Z * Z :=
  match len with
  | O => ([], 0)
  | S len =>
      let a := hex2byte hex in
      if a <? 0 then ([], -1)
      else let r := hexstr2bin (drop 2 hex) len in (a :: r.1, r.2)
  end.

(** ** MAC addresses *)

(** The bytes stored at [addr], and where the text goes on; [None] is NULL.
    [n] bytes are still to be read. *)
Fixpoint hwaddr_parse_loop (n : nat) (txt : list Z) : list Z * option (list Z) :=
  match n with
  | O => ([], Some txt)
  | S n =>
      let a := hex2byte txt in
      if a <? 0 then ([], None)
      else
        let txt := drop 2 txt in
        match n with
        | O => ([a], Some txt)
        | S _ =>
            if negb (char_at txt =? 58 (* : *)) then ([a], None)
            else let r := hwaddr_parse_loop n (tail txt) in (a :: r.1, r.2)
        end
  end.

Definition hwaddr_parse (txt : list Z) : list Z * option (list Z) := hwaddr_parse_loop 6 txt.

Definition hwaddr_aton (txt : list Z) : list Z * Z :=
  let r := hwaddr_parse txt in (r.1, match r.2 with Some _ => 0 | None => -1 end).

(** The C locale's. *)
Definition isspace (c : Z) : bool := (c =? 32) || ((9 <=? c) && (c <=? 13)).

(** The bytes stored at [addr] and at [mask], and the result. *)
Definition hwaddr_masked_aton (txt : list Z) (maskable : bool) : list Z * list Z * Z :=
  match hwaddr_parse txt with
  | (addr, None) => (addr, [], -1)
  | (addr, Some r) =>
      if (char_at r =? 0) || isspace (char_at r) then (addr, replicate 6 0xff, 0)
      else if maskable && (char_at r =? 47 (* / *)) then
        match hwaddr_parse (tail r) with
        | (mask, Some _) => (addr, mask, 0)
        | (mask, None) => (addr, mask, -1)
        end
      else (addr, [], -1)
  end.

Fixpoint hwaddr_compact_loop (n : nat) (txt : list Z) : list Z * Z :=
  match n with
  | O => ([], 0)
  | S n =>
      let a := hex2num (char_at txt) in
      if a <? 0 then ([], -1)
      else
        let b := hex2num (char_at (tail txt)) in
        if b <? 0 then ([], -1)
        else
          let r := hwaddr_compact_loop n (tail (tail txt)) in (Z.lor (Z.shiftl a 4) b :: r.1, r.2)
  end.

Definition hwaddr_compact_aton (txt : list Z) : list Z * Z := hwaddr_compact_loop 6 txt.

(** The loop over the delimiters: colon, dot and dash. *)
Fixpoint skip_delimiters (pos : list Z) : list Z :=
  match pos with
  | c :: pos' => if (c =? 58) || (c =? 46) || (c =? 45) then skip_delimiters pos' else pos
  | [] => []
  end.

Fixpoint hwaddr_aton2_loop (n : nat) (pos : list Z) : list Z * option (list Z) :=
  match n with
  | O => ([], Some pos)
  | S n =>
      let pos := skip_delimiters pos in
      let a := hex2num (char_at pos) in
      if a <? 0 then ([], None)
      else
        let b := hex2num (char_at (tail pos)) in
        if b <? 0 then ([], None)
        else
          let r := hwaddr_aton2_loop n (tail (tail pos)) in (Z.lor (Z.shiftl a 4) b :: r.1, r.2)
  end.

Definition hwaddr_aton2 (txt : list Z) : list Z * Z :=
  let r := hwaddr_aton2_loop 6 txt in
  (r.1, match r.2 with Some pos => zlen txt - zlen pos | None => -1 end).

(** MACSTR, of six bytes. *)
Fixpoint MACSTR (addr : list Z) : list Z :=
  match addr with
  | [] => []
  | [a] => fmt_02x false a
  | a :: addr => fmt_02x false a ++ [58] ++ MACSTR addr
  end.

(** The text is written to a buffer of [len] bytes at [buf]. *)
Definition hwaddr_mask_txt (buf addr mask : list Z) : cres (list Z * Z) :=
  let print_mask := existsb (fun m => negb (m =? 0xff)) (take 6 mask) in
  (r <-- os_snprintf buf 0 (zlen buf)
           (if print_mask then MACSTR addr ++ [47] ++ MACSTR mask else MACSTR addr);;
   if os_snprintf_error (zlen buf) r.2 then Ok (r.1, -1) else Ok (r.1, r.2))%c.

(** ** Escaped strings *)

(** What is written for a byte. *)
Definition printf_char (b : Z) : list Z :=
  if b =? 34 then [92; 34]
  else if b =? 92 then [92; 92]
  else if b =? 27 then [92; 101]
  else if b =? 10 then [92; 110]
  else if b =? 13 then [92; 114]
  else if b =? 9 then [92; 116]
  else if (32 <=? b) && (b <=? 126) then [b]
  else [92; 120] ++ fmt_02x false b.

(** Whether the byte is written by [os_snprintf], with a NUL behind it. *)
Definition printf_formatted (b : Z) : bool :=
  negb (existsb (Z.eqb b) [34; 92; 27; 10; 13; 9]) && negb ((32 <=? b) && (b <=? 126)).

Fixpoint printf_encode_loop (txt : list Z) (pos : Z) (data : list Z) : cres (list Z * Z) :=
  match data with
  | [] => Ok (txt, pos)
  | b :: data =>
      if zlen txt <=? pos + 4 then Ok (txt, pos)
      else
        (r <-- (if printf_formatted b then os_snprintf txt pos (zlen txt - pos) (printf_char b)
                else l <-- wr txt pos (printf_char b);; Ok (l, zlen (printf_char b)));;
         printf_encode_loop r.1 (pos + r.2) data)%c
  end.

(** [maxlen] is the length of [txt]. *)
Definition printf_encode (txt data : list Z) : cres (list Z) :=
  (r <-- printf_encode_loop txt 0 data;; wr r.1 r.2 [0])%c.

Definition is_octal (c : Z) : bool := (48 <=? c) && (c <=? 55).

(** A turn of the decoder's loop: the value it stores, if any, and where it
    goes on. *)
Definition printf_decode_one (pos : list Z) : option Z * list Z :=
  if char_at pos =? 92 then
    let pos := tail pos in
    let c := char_at pos in
    if c =? 92 then (Some 92, tail pos)
    else if c =? 34 then (Some 34, tail pos)
    else if c =? 110 then (Some 10, tail pos)
    else if c =? 114 then (Some 13, tail pos)
    else if c =? 116 then (Some 9, tail pos)
    else if c =? 101 then (Some 27, tail pos)
    else if c =? 120 then
      let pos := tail pos in
      let val := hex2byte pos in
      if val <? 0 then
        let val := hex2num (char_at pos) in
        if val <? 0 then (None, pos) else (Some val, tail pos)
      else (Some val, drop 2 pos)
    else if is_octal c then
      let val := c - 48 in
      let pos := tail pos in
      let '(val, pos) :=
        if is_octal (char_at pos) then (val * 8 + (char_at pos - 48), tail pos) else (val, pos) in
      let '(val, pos) :=
        if is_octal (char_at pos) then (val * 8 + (char_at pos - 48), tail pos) else (val, pos) in
      (Some val, pos)
    else (None, pos)
  else (Some (char_at pos), tail pos).

(** The loop; a turn shortens the text, so that its length is enough fuel. *)
Fixpoint printf_decode_loop (fuel : nat) (buf : list Z) (len : Z) (pos : list Z)
    : cres (list Z * Z) :=
  if char_at pos =? 0 then Ok (buf, len)
  else if zlen buf <=? len + 1 then Ok (buf, len)
  else
    match fuel with
    | O => Fault
    | S fuel =>
        let '(val, pos) := printf_decode_one pos in
        match val with
        | Some val => (buf <-- wr buf len [u8 val];; printf_decode_loop fuel buf (len + 1) pos)%c
        | None => printf_decode_loop fuel buf len pos
        end
    end.

(** [maxlen] is the length of [buf]. *)
Definition printf_decode (buf str : list Z) : cres (list Z * Z) :=
  (r <-- printf_decode_loop (length str) buf 0 str;;
   let '(buf, len) := r in
   if len <? zlen buf then l <-- wr buf len [0];; Ok (l, len) else Ok (buf, len))%c.

(** The characters of the string in a buffer. *)
Fixpoint c_str (buf : list Z) : list Z :=
  match buf with
  | [] => []
  | c :: buf => if c =? 0 then [] else c :: c_str buf
  end.

(** The static buffer is given, as an earlier call left it. *)
Definition wpa_ssid_txt (ssid_txt : list Z) (ssid : option (list Z)) : cres (list Z) :=
  match ssid with
  | None => wr ssid_txt 0 [0]
  | Some ssid => printf_encode ssid_txt ssid
  end.

(** *** utf8 *)

(** [in_size] bytes at [inp], or when [in_size] is zero the string there; the
    buffer [outp] has [out_size] bytes. *)
Fixpoint utf8_unescape_loop (inp outp : list Z) (res_size : Z) : cres (list Z * Z * bool) :=
  match inp with
  | [] => Ok (outp, res_size, true)
  | c :: inp =>
      if zlen outp <=? res_size then Ok (outp, 0, false)
      else if c =? 39 then (l <-- wr outp res_size [0];; Ok (l, res_size, false))%c
      else if c =? 92 then
        match inp with
        | [] => Ok (outp, 0, false)
        | c :: inp => (l <-- wr outp res_size [c];; utf8_unescape_loop inp l (res_size + 1))%c
        end
      else (l <-- wr outp res_size [c];; utf8_unescape_loop inp l (res_size + 1))%c
  end.

(** The NUL behind the text, when the loop ran to its end and there is room. *)
Definition utf8_end (r : list Z * Z * bool) : cres (list Z * Z) :=
  let '(outp, res_size, ended) := r in
  if ended && (res_size <? zlen outp) then (l <-- wr outp res_size [0];; Ok (l, res_size))%c
  else Ok (outp, res_size).

Definition utf8_unescape (inp outp : list Z) : cres (list Z * Z) :=
  let inp := match inp with c :: inp' => if c =? 39 then inp' else inp | [] => [] end in
  (r <-- utf8_unescape_loop inp outp 0;; utf8_end r)%c.

Fixpoint utf8_escape_loop (inp outp : list Z) (res_size : Z) : cres (list Z * Z * bool) :=
  match inp with
  | [] => Ok (outp, res_size, true)
  | c :: inp =>
      if zlen outp <=? res_size then Ok (outp, 0, false)
      else
        let res_size := res_size + 1 in
        if (c =? 92) || (c =? 39) then
          if zlen outp <=? res_size then Ok (outp, 0, false)
          else
            (l <-- wr outp (res_size - 1) [92];;
             l <-- wr l res_size [c];;
             utf8_escape_loop inp l (res_size + 1))%c
        else (l <-- wr outp (res_size - 1) [c];; utf8_escape_loop inp l res_size)%c
  end.

Definition utf8_escape (inp outp : list Z) : cres (list Z * Z) :=
  (r <-- utf8_escape_loop inp outp 0;; utf8_end r)%c.

(** ** Values of the configuration *)

(** A copy with a NUL behind it. *)
Definition dup_binstr (src : option (list Z)) : M (option (list Z)) :=
  match src with
  | None => ret None
  | Some src => let! ok := os_malloc in ret (if ok then Some (src ++ [0]) else None)
  end.

(** [os_strrchr(value, c)]: the characters before the last one before the NUL
    that is [c], and those from there on. *)
Definition os_strrchr (str : list Z) (c : Z) : option (list Z * list Z) :=
  let str := c_str str in
  match list_find (Z.eqb c) (reverse str) with
  | Some (i, _) =>
      let n := (length str - 1 - i)%nat in Some (take n str, drop n str)
  | None => None
  end.

(** A quoted value up to its closing quote, which must be the last character. *)
Definition quoted (value : list Z) : option (list Z) :=
  match os_strrchr value 34 with
  | Some (text, pos) => if negb (char_at (tail pos) =? 0) then None else Some text
  | None => None
  end.

(** The memory of the value, and its length.  What [os_malloc] gives holds
    zeros here; every byte that is read is written before. *)
Definition wpa_config_parse_string (value : list Z) : M (option (list Z * Z)) :=
  if char_at value =? 34 then
    match quoted (tail value) with
    | None => ret None
    | Some text =>
        let! str := dup_binstr (Some text) in
        ret (match str with Some str => Some (str, zlen text) | None => None end)
    end
  else if (char_at value =? 80) && (char_at (tail value) =? 34) then
    match quoted (tail (tail value)) with
    | None => ret None
    | Some text =>
        let! tstr := dup_binstr (Some text) in
        match tstr with
        | None => ret None
        | Some tstr =>
            let! ok := os_malloc in
            if negb ok then ret None
            else
              let! r := lift (printf_decode (zeros (zlen text + 1)) (c_str tstr)) in
              ret (Some r)
        end
    end
  else
    let hlen := zlen (c_str value) in
    if negb (Z.land hlen 1 =? 0) then ret None
    else
      let tlen := hlen / 2 in
      let! ok := os_malloc in
      if negb ok then ret None
      else
        let (bs, res) := hexstr2bin value (Z.to_nat tlen) in
        if negb (res =? 0) then ret None
        else
          let! str := lift (wr (zeros (tlen + 1)) 0 bs) in
          let! str := lift (wr str tlen [0]) in
          ret (Some (str, tlen)).

Definition os_strdup (str : list Z) : M (option (list Z)) :=
  let! ok := os_malloc in ret (if ok then Some (c_str str) else None).

(** [os_strchr]: the position of the character, before the NUL. *)
Definition os_strchr (str : list Z) (c : Z) : option Z :=
  match list_find (Z.eqb c) (c_str str) with Some (i, _) => Some (Z.of_nat i) | None => None end.

(** The text of the SSID in [tmp]: cut at the space, or behind the closing
    quote; [None] is the early return. *)
Definition ssid_text (tmp : list Z) : option (list Z) :=
  if negb (char_at tmp =? 34) then
    Some (match os_strchr tmp 32 with Some i => take (Z.to_nat i) tmp | None => tmp end)
  else
    match os_strchr (tail tmp) 34 with
    | None => None
    | Some i => Some (take (Z.to_nat (i + 2)) tmp)
    end.

(** [ssid], when its length is not zero, and the result. *)
Definition ssid_parse (buf : list Z) : M (list Z * Z) :=
  let! tmp := os_strdup buf in
  match tmp with
  | None => ret ([], -1)
  | Some tmp =>
      match ssid_text tmp with
      | None => ret ([], -1)
      | Some tmp =>
          let! res := wpa_config_parse_string tmp in
          let ssid :=
            match res with
            | Some (str, len) => if len <=? SSID_MAX_LEN then take (Z.to_nat len) str else []
            | None => []
            end in
          ret (ssid, if zlen ssid =? 0 then -1 else 0)
      end
  end.

(** ** Kinds of text *)

Definition is_hex (data : list Z) : bool := existsb (fun c => (c <? 32) || (127 <=? c)) data.
Definition has_ctrl_char (data : list Z) : bool := existsb (fun c => (c <? 32) || (c =? 127)) data.
Definition has_newline (str : list Z) : bool := existsb (fun c => (c =? 10) || (c =? 13)) (c_str str).

Definition is_ctrl_char (c : Z) : bool := (0 <? c) && (c <? 32).

Definition str_starts (str start : list Z) : bool :=
  bool_decide (take (length start) str = start).

(** ** Lemmas on buffers and strings *)

(** [buf] is what was written, and the rest of it. *)
Lemma wr_at w rest pos bs :
  pos = zlen w -> zlen bs <= zlen rest ->
  wr (w ++ rest) pos bs = Ok ((w ++ bs) ++ drop (length bs) rest).
Proof.
  intros -> Hl. unfold wr. rewrite length_app.
  rewrite (proj2 (Z.leb_le 0 (zlen w))) by lia.
  rewrite (proj2 (Z.leb_le _ _)) by lia. cbn [andb]. unfold put.
  rewrite Nat2Z.id, take_app_length, <- app_assoc. f_equal. f_equal. f_equal.
  by rewrite drop_app_ge, Nat.add_comm, Nat.add_sub by lia.
Qed.

Lemma wr_length buf pos bs buf' : wr buf pos bs = Ok buf' -> zlen buf' = zlen buf.
Proof.
  unfold wr. destruct (Z.leb_spec 0 pos); [|done].
  destruct (Z.leb_spec (pos + zlen bs) (zlen buf)); [|done]. cbn [andb]. intros [= <-].
  by rewrite length_put.
Qed.

Lemma wr_in buf pos bs : 0 <= pos -> pos + zlen bs <= zlen buf -> wr buf pos bs = Ok (put pos bs buf).
Proof.
  intros. unfold wr. rewrite (proj2 (Z.leb_le 0 pos)) by lia. by rewrite (proj2 (Z.leb_le _ _)) by lia.
Qed.

(** [snprintf] of a text that fits, and of one that does not. *)
Lemma snprintf_fits w rest pos size text :
  pos = zlen w -> size = zlen rest -> zlen text < size ->
  os_snprintf (w ++ rest) pos size text =
    Ok ((w ++ text) ++ 0 :: drop (S (length text)) rest, zlen text).
Proof.
  intros -> -> Hl. unfold os_snprintf. rewrite (proj2 (Z.eqb_neq _ 0)) by lia.
  rewrite take_ge by lia. rewrite wr_at by (rewrite ?length_app; cbn [length]; lia).
  cbn [cbind]. rewrite length_app. cbn [length].
  by rewrite <- !app_assoc, Nat.add_1_r.
Qed.

Lemma snprintf_cut w rest pos size text :
  pos = zlen w -> size = zlen rest -> 0 < size <= zlen text ->
  os_snprintf (w ++ rest) pos size text =
    Ok (w ++ take (length rest - 1) text ++ [0], zlen text).
Proof.
  intros -> -> Hl. unfold os_snprintf. rewrite (proj2 (Z.eqb_neq _ 0)) by lia.
  replace (Z.to_nat (zlen rest - 1)) with (length rest - 1)%nat by lia.
  assert (E : length (take (length rest - 1) text ++ [0]) = length rest)
    by (rewrite length_app, length_take; cbn [length]; lia).
  rewrite wr_at by lia. rewrite E, drop_ge, app_nil_r by lia. done.
Qed.

Lemma snprintf_error_no size res : 0 <= res < size -> os_snprintf_error size res = false.
Proof.
  intros. unfold os_snprintf_error. rewrite (proj2 (Z.ltb_ge res 0)) by lia.
  by rewrite (proj2 (Z.leb_gt size res)) by lia.
Qed.

Lemma snprintf_error_yes size res : size <= res -> os_snprintf_error size res = true.
Proof.
  intros. unfold os_snprintf_error. rewrite (proj2 (Z.leb_le size res)) by lia. by rewrite orb_true_r.
Qed.

(** Text: no NUL in it. *)
Definition text (s : list Z) : Prop := Forall (fun c => c <> 0) s.

Lemma c_str_end s rest : text s -> c_str (s ++ 0 :: rest) = s.
Proof.
  induction 1 as [|c s Hc Hs IH]; [done|]. cbn. by rewrite (proj2 (Z.eqb_neq c 0)), IH by done.
Qed.

Lemma c_str_app s rest : text s -> c_str (s ++ rest) = s ++ c_str rest.
Proof.
  induction 1 as [|c s Hc Hs IH]; [done|]. cbn. by rewrite (proj2 (Z.eqb_neq c 0)), IH by done.
Qed.

Lemma text_app a b : text (a ++ b) <-> text a /\ text b.
Proof. apply Forall_app. Qed.

Lemma text_flat_map {A} (f : A -> list Z) l : (forall a, text (f a)) -> text (flat_map f l).
Proof. intros H. induction l; cbn; [constructor|]. apply text_app. auto. Qed.

(** ** Hexadecimal digits *)

Lemma hex2byte_pair c d rest : hex2byte (c :: d :: rest) = hex2byte [c; d].
Proof. done. Qed.

Lemma hex2byte_fmt up b rest : is_byte b -> hex2byte (fmt_02x up b ++ rest) = b.
Proof.
  intros Hb. unfold fmt_02x. cbn [app]. rewrite hex2byte_pair. apply Z.eqb_eq.
  refine (byte_forall (fun b => hex2byte (fmt_02x up b) =? b) b _ Hb). by destruct up; vm_compute.
Qed.

Lemma hex2num_range c : -1 <= hex2num c < 16.
Proof.
  unfold hex2num.
  destruct (Z.leb_spec 48 c), (Z.leb_spec c 57); cbn [andb]; try lia;
    destruct (Z.leb_spec 97 c), (Z.leb_spec c 102); cbn [andb]; try lia;
    destruct (Z.leb_spec 65 c), (Z.leb_spec c 70); cbn [andb]; lia.
Qed.

Lemma hex_pair_value a b : 0 <= a < 16 -> 0 <= b < 16 -> Z.lor (Z.shiftl a 4) b = a * 16 + b.
Proof. intros. by rewrite lor_shiftl by lia. Qed.

Lemma hex2byte_range s : -1 <= hex2byte s < 256.
Proof.
  unfold hex2byte. pose proof (hex2num_range (char_at s)). pose proof (hex2num_range (char_at (tail s))).
  destruct (Z.ltb_spec (hex2num (char_at s)) 0); [lia|].
  destruct (Z.ltb_spec (hex2num (char_at (tail s))) 0); [lia|]. rewrite hex_pair_value by lia. lia.
Qed.

(** A small letter for a capital one. *)
Definition lower (c : Z) : Z := if (65 <=? c) && (c <=? 90) then c + 32 else c.

Lemma hex2num_digit c : 0 <= hex2num c -> hex_digit false (hex2num c) = lower c.
Proof.
  unfold hex2num, hex_digit, lower. intros H.
  destruct (Z.leb_spec 48 c), (Z.leb_spec c 57); cbn [andb] in *;
    destruct (Z.leb_spec 97 c), (Z.leb_spec c 102); cbn [andb] in *;
    destruct (Z.leb_spec 65 c), (Z.leb_spec c 70); cbn [andb] in *; try lia;
    destruct (Z.leb_spec c 90); cbn [andb]; try lia;
    match goal with |- context [?a <? 10] => destruct (Z.ltb_spec a 10) end; lia.
Qed.

(** What [hex2byte] accepts is the text of the byte, up to the case. *)
Lemma hex2byte_exact s :
  0 <= hex2byte s -> exists c d rest, s = c :: d :: rest /\ fmt_02x false (hex2byte s) = [lower c; lower d].
Proof.
  unfold hex2byte. intros H.
  pose proof (hex2num_range (char_at s)) as Ra. pose proof (hex2num_range (char_at (tail s))) as Rb.
  destruct (Z.ltb_spec (hex2num (char_at s)) 0) as [|Ha]; [lia|].
  destruct (Z.ltb_spec (hex2num (char_at (tail s))) 0) as [|Hb]; [lia|].
  destruct s as [|c [|d rest]]; cbn [char_at tail] in *; [done|done|].
  exists c, d, rest. split; [done|]. rewrite hex_pair_value by lia. unfold fmt_02x.
  rewrite Z.div_add_l, Z.div_small, Z.add_0_r by lia.
  replace ((hex2num c * 16 + hex2num d) mod 16) with (hex2num d) by dlia.
  by rewrite !hex2num_digit by lia.
Qed.

Lemma drop_fmt up b rest : drop 2 (fmt_02x up b ++ rest) = rest.
Proof. done. Qed.

Lemma hexstr2bin_flat up data rest :
  bytes data -> hexstr2bin (flat_map (fmt_02x up) data ++ rest) (length data) = (data, 0).
Proof.
  induction data as [|b data IH]; intros Hd; [done|]. apply bytes_cons in Hd as [Hb Hd].
  cbn [length flat_map hexstr2bin]. rewrite <- app_assoc, hex2byte_fmt by done.
  rewrite (proj2 (Z.ltb_ge b 0)) by lia. rewrite drop_fmt. by rewrite IH.
Qed.

Lemma text_fmt_02x up b : is_byte b -> text (fmt_02x up b).
Proof.
  intros Hb. unfold fmt_02x, hex_digit.
  assert (0 <= b / 16 < 16 /\ 0 <= b mod 16 < 16) as [H1 H2] by (split; dlia).
  repeat constructor; destruct (_ <? 10), up; lia.
Qed.

(** ** The hexadecimal printers *)

(** What the loop leaves: the bytes that fit, [n] of them, and the rest of the
    buffer, which starts with a NUL when a byte was written. *)
Lemma hex_loop_spec fmt k data : 0 < k -> (forall b, zlen (fmt b) = k) ->
  forall w rest, 0 < zlen rest ->
  exists n rest',
    let w' := w ++ flat_map fmt (take n data) in
    hex_loop fmt (w ++ rest) (zlen w) data = Ok (w' ++ rest', zlen w', bool_decide (n < length data)%nat) /\
    n = Nat.min (length data) (Z.to_nat ((zlen rest - 1) / k)) /\
    zlen (w' ++ rest') = zlen (w ++ rest) /\ 0 < zlen rest' /\
    (n = length data -> n <> O -> char_at rest' = 0).
Proof.
  intros Hk Hf. induction data as [|b data IH]; intros w rest Hr.
  { exists O, rest. cbn. rewrite app_nil_r. repeat split; try lia. }
  cbn [hex_loop]. rewrite length_app, Nat2Z.inj_add, Z.add_simpl_l.
  destruct (Z.lt_ge_cases (zlen (fmt b)) (zlen rest)) as [Hlt|Hge]; rewrite Hf in *.
  - rewrite snprintf_fits by (rewrite ?Hf; lia). cbn [cbind fst snd].
    rewrite Hf, snprintf_error_no by lia.
    set (rest1 := 0 :: drop (S (length (fmt b))) rest).
    assert (Hr1 : zlen rest1 = zlen rest - k).
    { unfold rest1. cbn [length]. rewrite length_drop. pose proof (Hf b). lia. }
    destruct (IH (w ++ fmt b) rest1) as (n & rest' & E & Hn & Hl & Hp & H0); [lia|].
    cbn zeta in *. exists (S n), rest'. cbn [take flat_map length].
    replace (zlen w + k) with (zlen (w ++ fmt b)) by (rewrite length_app, Nat2Z.inj_add, Hf; lia).
    rewrite E, <- app_assoc. repeat split.
    + rewrite (bool_decide_ext (S n < S (length data))%nat (n < length data)%nat) by lia.
      by rewrite <- !app_assoc.
    + rewrite Hn, Hr1. replace (zlen rest - k - 1) with (zlen rest - 1 + -1 * k) by lia.
      rewrite Z.div_add by lia. assert (0 < (zlen rest - 1) / k) by (apply Z.div_str_pos; lia). lia.
    + pose proof (Hf b). rewrite !length_app in Hl. rewrite !length_app. lia.
    + done.
    + intros Hx _. destruct n as [|n]; [|apply H0; lia].
      destruct data; [|done]. cbn in E. injection E as E.
      rewrite app_nil_r in E. apply app_inv_head in E. by subst rest'.
  - rewrite snprintf_cut by (rewrite ?Hf; lia). cbn [cbind fst snd].
    rewrite Hf, snprintf_error_yes by lia.
    set (t := take (length rest - 1) (fmt b)).
    assert (Ht : zlen t = zlen rest - 1).
    { unfold t. rewrite length_take. pose proof (Hf b). lia. }
    rewrite (app_assoc w t [0]), wr_at by (rewrite ?length_app; cbn [length]; lia). cbn [cbind length drop].
    exists O, (t ++ [0]). cbn [take flat_map]. rewrite app_nil_r. repeat split.
    + by rewrite app_nil_r, <- app_assoc.
    + rewrite Z.div_small by lia. done.
    + rewrite ?length_app in *. cbn [length]. lia.
    + rewrite length_app. cbn [length]. lia.
    + cbn. lia.
Qed.

(** [take n] of a flat text, as the printers of single bytes leave it. *)
Lemma text_hex up data : bytes data -> text (flat_map (fmt_02x up) data).
Proof.
  induction 1 as [|b data Hb Hd IH]; cbn; [constructor|].
  pose proof (text_fmt_02x up b Hb) as H. inversion H as [|? ? H1 H2]; subst.
  inversion H2; subst. by repeat constructor.
Qed.

(** The string in the buffer starts with the bytes that fit, all of them when
    all fit. *)
Lemma hex_case_spec up buf data : bytes data -> 0 < zlen buf ->
  exists n buf', let hex := flat_map (fmt_02x up) (take n data) in
    wpa_snprintf_hex_case buf data up = Ok (buf', 2 * Z.of_nat n) /\ zlen buf' = zlen buf /\
    n = Nat.min (length data) (Z.to_nat ((zlen buf - 1) / 2)) /\
    take (length hex) (c_str buf') = hex /\
    (n = length data -> n <> O -> c_str buf' = hex).
Proof.
  intros Hd Hb. unfold wpa_snprintf_hex_case. rewrite (proj2 (Z.eqb_neq _ 0)) by lia.
  destruct (hex_loop_spec (fmt_02x up) 2 data ltac:(lia) ltac:(done) [] buf Hb)
    as (n & rest & E & Hn & Hl & Hp & H0). cbn [app length] in *.
  set (hex := flat_map (fmt_02x up) (take n data)) in *.
  assert (Hhex : text hex) by (apply text_hex; auto with cint).
  assert (Hlen : zlen hex = 2 * Z.of_nat n).
  { subst hex. clear -Hn. assert (length (take n data) = n) as L by (rewrite length_take; lia).
    revert L. generalize (take n data). clear. intros l <-. induction l; cbn [flat_map length] in *; [done|].
    rewrite length_app. cbn [length fmt_02x]. lia. }
  change (Z.of_nat 0) with 0 in E. rewrite E, Hlen. cbn [cbind].
  destruct (bool_decide (n < length data)%nat) eqn:B.
  - exists n, (hex ++ rest). rewrite c_str_app, take_app_length by done. repeat split; try done.
    apply bool_decide_eq_true in B. lia.
  - apply bool_decide_eq_false in B. rewrite length_app in Hl. rewrite length_app.
    rewrite wr_in by (rewrite ?length_app; cbn [length]; lia). cbn [cbind].
    exists n, (hex ++ put (zlen rest - 1) [0] rest).
    assert (Hput : put (zlen (hex ++ rest) - 1) [0] (hex ++ rest) = hex ++ put (zlen rest - 1) [0] rest).
    { unfold put. rewrite length_app. cbn [length].
      replace (Z.to_nat (Z.of_nat (length hex + length rest) - 1)) with (length hex + Z.to_nat (zlen rest - 1))%nat by lia.
      rewrite take_app_add, drop_ge, (drop_ge rest) by (rewrite ?length_app; lia). by rewrite <- app_assoc. }
    rewrite <- Hput. rewrite length_app in *. rewrite Hput. repeat split.
    + rewrite length_app, length_put by (cbn [length]; lia). lia.
    + done.
    + by rewrite c_str_app, take_app_length by done.
    + intros Hx Hy. specialize (H0 Hx Hy). rewrite c_str_app by done.
      destruct rest as [|c rest]; [cbn in Hp; lia|]. cbn in H0. subst c.
      unfold put. destruct rest as [|c rest]; [cbn; by rewrite app_nil_r|].
      replace (Z.to_nat (zlen (0 :: c :: rest) - 1)) with (S (length rest)) by (cbn [length]; lia).
      cbn. by rewrite app_nil_r.
Qed.

(** ** MAC addresses *)

Lemma hex2num_lower c v : 0 <= v < 16 -> lower c = hex_digit false v -> hex2num c = v.
Proof.
  unfold lower, hex_digit, hex2num. intros Hv.
  destruct (Z.leb_spec 65 c), (Z.leb_spec c 90); cbn [andb]; intros E;
    destruct (Z.ltb_spec v 10); try lia;
    destruct (Z.leb_spec 48 c), (Z.leb_spec c 57); cbn [andb]; try lia;
    destruct (Z.leb_spec 97 c), (Z.leb_spec c 102); cbn [andb]; try lia;
    destruct (Z.leb_spec c 70); cbn [andb]; lia.
Qed.

Lemma hex2byte_lower c d b rest : is_byte b -> [lower c; lower d] = fmt_02x false b ->
  hex2byte (c :: d :: rest) = b.
Proof.
  intros Hb [= Hc Hd]. apply hex2num_lower in Hc; [|dlia]. apply hex2num_lower in Hd; [|dlia].
  unfold hex2byte. cbn [char_at tail]. rewrite Hc, Hd.
  rewrite !(proj2 (Z.ltb_ge _ 0)) by dlia. rewrite hex_pair_value by dlia. dlia.
Qed.

Lemma hwaddr_loop_text n : forall a pre rest, length a = S n -> bytes a -> map lower pre = MACSTR a ->
  hwaddr_parse_loop (S n) (pre ++ rest) = (a, Some rest).
Proof.
  induction n as [|n IH]; intros [|b a] pre rest Hl Hb Hp; cbn [length] in Hl; try lia;
    apply bytes_cons in Hb as [Hb Ha].
  - destruct a; [|cbn in Hl; lia]. cbn [MACSTR] in Hp.
    destruct pre as [|c [|d [|? ?]]]; try done. cbn [map] in Hp. cbn [app].
    cbn [hwaddr_parse_loop]. rewrite (hex2byte_lower c d b) by done.
    by rewrite (proj2 (Z.ltb_ge b 0)) by lia.
  - destruct a as [|b' a]; [cbn in Hl; lia|].
    change (MACSTR (b :: b' :: a)) with (fmt_02x false b ++ 58 :: MACSTR (b' :: a)) in Hp.
    destruct pre as [|c [|d [|e pre]]]; try done. injection Hp as Hc Hd He Hp.
    assert (e = 58) as -> by (unfold lower in He; destruct (Z.leb_spec 65 e), (Z.leb_spec e 90); cbn [andb] in He; lia).
    cbn [app].
    remember (S n) as m. cbn [hwaddr_parse_loop].
    rewrite (hex2byte_lower c d b) by (done || (unfold fmt_02x; congruence)).
    rewrite (proj2 (Z.ltb_ge b 0)) by lia. cbn [drop char_at tail]. rewrite Z.eqb_refl. cbn [negb].
    subst m. rewrite (IH (b' :: a) pre rest) by (done || (cbn [length] in *; lia)). done.
Qed.

Lemma hwaddr_loop_exact n : forall txt a rest, hwaddr_parse_loop (S n) txt = (a, Some rest) ->
  length a = S n /\ bytes a /\ exists pre, txt = pre ++ rest /\ map lower pre = MACSTR a.
Proof.
  induction n as [|n IH]; intros txt a rest H.
  - cbn [hwaddr_parse_loop] in H. pose proof (hex2byte_range txt).
    destruct (Z.ltb_spec (hex2byte txt) 0); [done|]. injection H as <- <-.
    destruct (hex2byte_exact txt) as (c & d & r & -> & E); [lia|]. cbn [drop].
    repeat split; [constructor; [lia|constructor]|]. exists [c; d]. split; [done|]. cbn [MACSTR]; by rewrite E.
  - remember (S n) as m. cbn [hwaddr_parse_loop] in H. pose proof (hex2byte_range txt).
    destruct (Z.ltb_spec (hex2byte txt) 0); [done|].
    destruct (hex2byte_exact txt) as (c & d & r & Et & E); [lia|].
    assert (Ed : drop 2 txt = r) by (by rewrite Et). rewrite Ed in H. destruct m; [lia|].
    destruct (Z.eqb_spec (char_at r) 58) as [Hc|]; cbn [negb] in H; [|done].
    destruct (hwaddr_parse_loop (S m) (tail r)) as [a' o] eqn:El. cbn [fst snd] in H.
    injection H as <- ->. injection Heqm as ->.
    destruct (IH _ _ _ El) as (Hl & Hb & pre & Hp & Hm).
    destruct r as [|c' r]; [done|]. cbn in Hc. subst c'. cbn [tail] in Hp. subst r.
    cbn [length]. repeat split; [lia|constructor; [lia|done]|].
    exists (c :: d :: 58 :: pre). split; [done|].
    destruct a' as [|b' a']; [done|].
    change (MACSTR (hex2byte txt :: b' :: a')) with (fmt_02x false (hex2byte txt) ++ 58 :: MACSTR (b' :: a')).
    rewrite E, <- Hm. done.
Qed.

Lemma hex2byte_skip txt : 0 <= hex2byte txt -> skip_delimiters txt = txt.
Proof.
  destruct txt as [|c txt]; [done|]. unfold hex2byte. cbn [char_at skip_delimiters].
  destruct (Z.eqb_spec c 58) as [->|]; [done|]. destruct (Z.eqb_spec c 46) as [->|]; [done|].
  destruct (Z.eqb_spec c 45) as [->|]; [done|]. done.
Qed.

(** The reader of any format reads what the other one reads. *)
Lemma hwaddr_aton2_parse n : forall txt a rest,
  hwaddr_parse_loop n txt = (a, Some rest) -> hwaddr_aton2_loop n txt = (a, Some rest).
Proof.
  induction n as [|n IH]; intros txt a rest H; [done|].
  cbn [hwaddr_parse_loop] in H. destruct (Z.ltb_spec (hex2byte txt) 0) as [|Hx]; [done|].
  cbn [hwaddr_aton2_loop]. rewrite hex2byte_skip by done. revert H Hx. unfold hex2byte.
  destruct (Z.ltb_spec (hex2num (char_at txt)) 0) as [|Ha]; [lia|].
  destruct (Z.ltb_spec (hex2num (char_at (tail txt))) 0) as [|Hb]; [lia|]. intros H Hx.
  assert (Ed : drop 2 txt = tail (tail txt)) by (by destruct txt as [|? [|? ?]]).
  rewrite Ed in H. destruct n as [|n]; [by injection H as <- <-|].
  destruct (Z.eqb_spec (char_at (tail (tail txt))) 58) as [Hc|]; cbn [negb] in H; [|done].
  destruct (hwaddr_parse_loop (S n) (tail (tail (tail txt)))) as [a' o] eqn:El. cbn [fst snd] in H.
  injection H as <- ->. apply IH in El.
  destruct (tail (tail txt)) as [|c r]; [done|]. cbn in Hc. subst c. cbn [tail] in El.
  change (hwaddr_aton2_loop (S n) (58 :: r)) with (hwaddr_aton2_loop (S n) r). by rewrite El.
Qed.

Lemma length_MACSTR a : a <> [] -> zlen (MACSTR a) = 3 * zlen a - 1.
Proof.
  induction a as [|b [|b' a] IH]; intros; [done|done|].
  change (MACSTR (b :: b' :: a)) with (fmt_02x false b ++ 58 :: MACSTR (b' :: a)).
  rewrite length_app. cbn [length fmt_02x]. cbn [length] in *. specialize (IH ltac:(done)). lia.
Qed.

Lemma lower_MACSTR a : bytes a -> map lower (MACSTR a) = MACSTR a.
Proof.
  assert (Hf : forall b, is_byte b -> map lower (fmt_02x false b) = fmt_02x false b).
  { intros b Hb. unfold fmt_02x, hex_digit, lower. cbn [map].
    repeat match goal with |- context [?a <? 10] => destruct (Z.ltb_spec a 10) end;
      repeat match goal with |- context [65 <=? ?a] => destruct (Z.leb_spec 65 a) end;
      repeat match goal with |- context [?a <=? 90] => destruct (Z.leb_spec a 90) end;
      cbn [andb]; try done; exfalso; dlia. }
  induction 1 as [|b [|b' a] Hb Ha IH]; [done|by apply Hf|].
  change (MACSTR (b :: b' :: a)) with (fmt_02x false b ++ 58 :: MACSTR (b' :: a)).
  rewrite map_app. rewrite Hf by done. f_equal. cbn [map]. by rewrite IH.
Qed.

Lemma hwaddr_MACSTR a rest : length a = 6%nat -> bytes a ->
  hwaddr_parse (MACSTR a ++ rest) = (a, Some rest).
Proof. intros Hl Hb. apply hwaddr_loop_text; [done|done|by apply lower_MACSTR]. Qed.

(** ** Escaped strings *)

(** The cases of [printf_char]. *)
Lemma printf_char_cases b : is_byte b ->
  (exists e, printf_char b = [92; e] /\ printf_formatted b = false /\
     In (b, e) [(34, 34); (92, 92); (27, 101); (10, 110); (13, 114); (9, 116)]) \/
  (printf_char b = [b] /\ printf_formatted b = false /\ 32 <= b <= 126 /\ b <> 92) \/
  (printf_char b = [92; 120] ++ fmt_02x false b /\ printf_formatted b = true).
Proof.
  intros Hb. unfold printf_char, printf_formatted. cbn [existsb].
  destruct (Z.eqb_spec b 34) as [->|]; [left; exists 34; cbn; tauto|].
  destruct (Z.eqb_spec b 92) as [->|]; [left; exists 92; cbn; tauto|].
  destruct (Z.eqb_spec b 27) as [->|]; [left; exists 101; cbn; tauto|].
  destruct (Z.eqb_spec b 10) as [->|]; [left; exists 110; cbn; tauto|].
  destruct (Z.eqb_spec b 13) as [->|]; [left; exists 114; cbn; tauto|].
  destruct (Z.eqb_spec b 9) as [->|]; [left; exists 116; cbn; tauto|].
  destruct (Z.leb_spec 32 b), (Z.leb_spec b 126); cbn [andb orb negb];
    [right; left; repeat split; lia|right; right; by split..].
Qed.

Lemma printf_char_length b : is_byte b -> 1 <= zlen (printf_char b) <= 4.
Proof.
  intros Hb. destruct (printf_char_cases b Hb) as [(e & -> & _)|[(-> & _)|(-> & _)]]; cbn; lia.
Qed.

Lemma printf_char_text b : is_byte b -> text (printf_char b).
Proof.
  intros Hb. destruct (printf_char_cases b Hb) as [(e & -> & _ & H)|[(-> & _ & H)|(-> & _)]].
  - cbn in H. repeat constructor; [done|]. destruct_or?; simplify_eq; done.
  - repeat constructor. lia.
  - apply text_app. split; [by repeat constructor|]. by apply text_fmt_02x.
Qed.

Lemma text_printf data : bytes data -> text (flat_map printf_char data).
Proof.
  induction 1 as [|b data Hb Hd IH]; cbn; [constructor|]. apply text_app. auto using printf_char_text.
Qed.

(** A turn of the decoder undoes one of the encoder. *)
Lemma printf_decode_char b rest : is_byte b ->
  printf_decode_one (printf_char b ++ rest) = (Some b, rest).
Proof.
  intros Hb. destruct (printf_char_cases b Hb) as [(e & -> & _ & H)|[(-> & _ & H & Hn)|(-> & _)]].
  - cbn in H. destruct_or?; simplify_eq; reflexivity.
  - unfold printf_decode_one. cbn [app char_at tail]. by rewrite (proj2 (Z.eqb_neq b 92)).
  - unfold printf_decode_one. cbn [app char_at tail]. rewrite Z.eqb_refl.
    change (120 =? 92) with false. change (120 =? 34) with false. change (120 =? 110) with false.
    change (120 =? 114) with false. change (120 =? 116) with false. change (120 =? 101) with false.
    change (120 =? 120) with true. cbv iota zeta. rewrite hex2byte_fmt by done.
    by rewrite (proj2 (Z.ltb_ge b 0)) by lia.
Qed.

Lemma printf_char_at b rest : is_byte b -> char_at (printf_char b ++ rest) <> 0.
Proof.
  intros Hb. pose proof (printf_char_text b Hb) as Ht. pose proof (printf_char_length b Hb).
  destruct (printf_char b); [cbn in *; lia|]. by inversion Ht.
Qed.

(** The encoder writes the escapes of a prefix of the data: of all of it, or up
    to the last four bytes of the buffer. *)
Lemma printf_encode_loop_spec data : bytes data -> forall w rest, 0 < zlen rest ->
  exists p q rest', data = p ++ q /\
    printf_encode_loop (w ++ rest) (zlen w) data =
      Ok ((w ++ flat_map printf_char p) ++ rest', zlen (w ++ flat_map printf_char p)) /\
    zlen ((w ++ flat_map printf_char p) ++ rest') = zlen (w ++ rest) /\ 0 < zlen rest' /\
    (q = [] \/ zlen rest' <= 4).
Proof.
  induction 1 as [|b data Hb Hd IH]; intros w rest Hr.
  { exists [], [], rest. cbn. rewrite app_nil_r. split_and!; auto. }
  cbn [printf_encode_loop]. rewrite length_app.
  destruct (Z.leb_spec (Z.of_nat (length w + length rest)) (zlen w + 4)) as [Hle|Hgt].
  { exists [], (b :: data), rest. cbn [flat_map]. rewrite app_nil_r.
    split_and!; [done|done|by rewrite length_app|lia|lia]. }
  pose proof (printf_char_length b Hb) as Hl.
  assert (Hone : exists rest1,
    (if printf_formatted b
     then os_snprintf (w ++ rest) (zlen w) (Z.of_nat (length w + length rest) - zlen w) (printf_char b)
     else l <-- wr (w ++ rest) (zlen w) (printf_char b);; Ok (l, zlen (printf_char b)))%c =
    Ok ((w ++ printf_char b) ++ rest1, zlen (printf_char b)) /\
    zlen (printf_char b) + zlen rest1 = zlen rest).
  { destruct (printf_formatted b).
    - rewrite snprintf_fits by lia. eexists. split; [reflexivity|]. cbn [length]. rewrite length_drop. lia.
    - rewrite wr_at by lia. cbn [cbind]. eexists. split; [reflexivity|]. rewrite length_drop. lia. }
  destruct Hone as (rest1 & E & Hr1). rewrite E. cbn [cbind fst snd].
  destruct (IH (w ++ printf_char b) rest1) as (p & q & rest' & -> & E' & Hlen & Hp & Hq); [lia|].
  exists (b :: p), q, rest'. cbn [flat_map].
  replace (zlen w + zlen (printf_char b)) with (zlen (w ++ printf_char b)) by (rewrite length_app; lia).
  rewrite E', !app_assoc. split_and!; [done|done| |done|done].
  rewrite Hlen, !length_app. lia.
Qed.

Lemma printf_encode_spec txt data : bytes data -> 0 < zlen txt ->
  exists p q txt', data = p ++ q /\ printf_encode txt data = Ok txt' /\ zlen txt' = zlen txt /\
    c_str txt' = flat_map printf_char p /\ (q = [] \/ zlen txt <= zlen (c_str txt') + 4).
Proof.
  intros Hd Ht. destruct (printf_encode_loop_spec data Hd [] txt Ht)
    as (p & q & rest & -> & E & Hl & Hr & Hq). cbn [app] in *. apply bytes_app in Hd as [Hp _].
  unfold printf_encode. change (zlen []) with 0 in E. rewrite E. cbn [cbind fst snd].
  rewrite wr_at by (cbn [length]; lia).
  exists p, q, ((flat_map printf_char p ++ [0]) ++ drop 1 rest).
  assert (Ec : c_str ((flat_map printf_char p ++ [0]) ++ drop 1 rest) = flat_map printf_char p)
    by (rewrite <- app_assoc; by apply c_str_end, text_printf).
  rewrite Ec.
  rewrite !length_app in *. cbn [length] in *. rewrite length_drop.
  split_and!; try done; [lia|]. destruct Hq; [by left|right; lia].
Qed.

(** ** The decoder *)

(** A turn leaves less of the text. *)
Lemma printf_decode_shorter s : char_at s <> 0 -> (length (printf_decode_one s).2 < length s)%nat.
Proof.
  destruct s as [|c s]; [done|]. intros _. unfold printf_decode_one. cbn [char_at tail].
  assert (Ht : forall l : list Z, (length (tail l) <= length l)%nat) by (intros [|? ?]; cbn; lia).
  assert (Hd : forall n (l : list Z), (length (drop n l) <= length l)%nat) by (intros; rewrite length_drop; lia).
  pose proof (Ht s) as H1. pose proof (Ht (tail s)) as H2. pose proof (Ht (tail (tail s))) as H3.
  pose proof (Hd 2%nat (tail s)) as H4.
  repeat match goal with
  | |- context [if ?b then _ else _] => destruct b
  end; cbn [fst snd length]; lia.
Qed.

(** Any text, any buffer: the decoder ends, and stores inside the buffer. *)
Lemma printf_decode_loop_total fuel : forall buf len pos,
  (length pos <= fuel)%nat -> 0 <= len -> (len < zlen buf \/ buf = [] /\ len = 0) ->
  exists buf' len', printf_decode_loop fuel buf len pos = Ok (buf', len') /\
    zlen buf' = zlen buf /\ len <= len' /\ (len' < zlen buf \/ buf = [] /\ len' = 0).
Proof.
  induction fuel as [|fuel IH]; intros buf len pos Hf Hl Hb.
  { destruct pos; [|cbn in Hf; lia]. exists buf, len. cbn. split_and!; auto; lia. }
  cbn [printf_decode_loop]. destruct (Z.eqb_spec (char_at pos) 0) as [|Hc];
    [exists buf, len; split_and!; auto; lia|].
  destruct (Z.leb_spec (zlen buf) (len + 1)); [exists buf, len; split_and!; auto; lia|].
  pose proof (printf_decode_shorter pos Hc) as Hs.
  destruct (printf_decode_one pos) as [[val|] pos'] eqn:E; cbn [snd] in Hs.
  - rewrite wr_in by (cbn [length]; lia). cbn [cbind].
    assert (Hp : zlen (put len [u8 val] buf) = zlen buf) by (rewrite length_put; cbn [length]; lia).
    destruct (IH (put len [u8 val] buf) (len + 1) pos') as (buf' & len' & E' & H1 & H2 & H3); [lia|lia|lia|].
    exists buf', len'. split_and!; [done|lia|lia|].
    left. destruct H3 as [H3|[H3 H4]]; [lia|]. rewrite H3 in Hp. cbn in Hp. lia.
  - apply IH; [lia|lia|done].
Qed.

Lemma printf_decode_loop_text data : bytes data -> forall fuel w rest,
  (length (flat_map printf_char data) <= fuel)%nat -> zlen data < zlen rest ->
  printf_decode_loop fuel (w ++ rest) (zlen w) (flat_map printf_char data) =
    Ok ((w ++ data) ++ drop (length data) rest, zlen (w ++ data)).
Proof.
  induction 1 as [|b data Hb Hd IH]; intros fuel w rest Hf Hr; cbn [flat_map].
  { rewrite app_nil_r. by destruct fuel. }
  cbn [flat_map] in Hf. rewrite length_app in Hf. pose proof (printf_char_length b Hb).
  cbn [length] in Hr. destruct fuel as [|fuel]; [lia|]. cbn [printf_decode_loop].
  rewrite (proj2 (Z.eqb_neq _ 0)) by by apply printf_char_at.
  rewrite (proj2 (Z.leb_gt _ _)) by (rewrite length_app; lia).
  rewrite printf_decode_char by done. rewrite wr_at by (cbn [length]; lia). cbn [cbind length].
  replace (zlen w + 1) with (zlen (w ++ [u8 b])) by (rewrite length_app; cbn [length]; lia).
  rewrite IH by (rewrite ?length_drop; lia). rewrite u8_small by lia.
  rewrite drop_drop, <- !app_assoc. done.
Qed.

Lemma printf_decode_text buf data : bytes data -> zlen data < zlen buf ->
  printf_decode buf (flat_map printf_char data) =
    Ok (data ++ 0 :: drop (S (length data)) buf, zlen data).
Proof.
  intros Hd Hl. unfold printf_decode.
  pose proof (printf_decode_loop_text data Hd (length (flat_map printf_char data)) [] buf) as E.
  cbn [app] in E. change (zlen (@nil Z)) with 0 in E. rewrite E by (done || lia). cbn [cbind].
  rewrite length_app, length_drop. rewrite (proj2 (Z.ltb_lt _ _)) by lia.
  rewrite wr_at by (rewrite ?length_drop; cbn [length]; lia). cbn [cbind length].
  rewrite drop_drop, <- app_assoc, Nat.add_1_r. done.
Qed.

(** ** Values of the configuration *)

(** [value] is read as the bytes [s], unless an allocation fails. *)
Definition read_as (s : list Z) (r : option (list Z * Z)) (mem : list bool) : Prop :=
  match r with
  | Some (str, len) => len = zlen s /\ take (length s) str = s
  | None => In false mem
  end.
Definition config_value (value s : list Z) : Prop :=
  forall mem, exists r mem', wpa_config_parse_string value mem = Ok (r, mem') /\ read_as s r mem.

(** Running [os_malloc]. *)
Lemma malloc_cases mem : os_malloc mem = Ok (true, tail mem) \/ os_malloc mem = Ok (false, tail mem) /\ In false mem.
Proof. destruct mem as [|[] mem]; cbn; auto. Qed.

Lemma in_false_tail mem : In false (tail mem) -> In false mem.
Proof. destruct mem; cbn; auto. Qed.

(** A text is a string without its NUL. *)
Lemma c_str_text s : text s -> c_str s = s.
Proof. intros H. rewrite <- (app_nil_r s) at 1. rewrite c_str_app by done. apply app_nil_r. Qed.

Lemma quoted_text s : text s -> quoted (s ++ [34]) = Some s.
Proof.
  intros Hs. unfold quoted, os_strrchr. rewrite c_str_text by (apply text_app; split; [done|by repeat constructor]).
  cbv zeta. rewrite reverse_app. cbn [reverse rev_append app list_find].
  change (reverse [34] ++ reverse s) with (34 :: reverse s). cbn [list_find].
  destruct (decide (Is_true (34 =? 34))) as [|n]; [|by exfalso; apply n].
  rewrite length_app. cbn [length]. replace (length s + 1 - 1 - 0)%nat with (length s) by lia.
  by rewrite take_app_length, drop_app_length.
Qed.

Lemma length_flat_printf s : bytes s -> zlen s <= zlen (flat_map printf_char s).
Proof.
  induction 1 as [|b s Hb Hs IH]; cbn [flat_map length]; [lia|]. rewrite length_app.
  pose proof (printf_char_length b Hb). lia.
Qed.

Lemma length_flat_hex up s : zlen (flat_map (fmt_02x up) s) = 2 * zlen s.
Proof. induction s; cbn [flat_map length fmt_02x app]; lia. Qed.

Lemma text_flat_hex up s : bytes s -> text (flat_map (fmt_02x up) s).
Proof. induction 1; cbn [flat_map]; [constructor|]. apply text_app. split; [by apply text_fmt_02x|done]. Qed.

Lemma config_quoted s : text s -> config_value ([34] ++ s ++ [34]) s.
Proof.
  intros Hs mem. unfold wpa_config_parse_string. cbn [app char_at tail]. rewrite Z.eqb_refl, quoted_text by done.
  cbv iota. unfold dup_binstr. rewrite bind_assoc.
  destruct (malloc_cases mem) as [E|[E Hf]]; rewrite (bind_ok _ _ _ _ _ E).
  - do 2 eexists. split; [reflexivity|]. split; [done|]. by rewrite take_app_length.
  - do 2 eexists. by split.
Qed.

Lemma config_escaped s : bytes s -> config_value ([80; 34] ++ flat_map printf_char s ++ [34]) s.
Proof.
  intros Hs mem. unfold wpa_config_parse_string. cbn [app char_at tail]. change (80 =? 34) with false.
  change ((80 =? 80) && (34 =? 34)) with true. cbv iota. rewrite quoted_text by by apply text_printf. unfold dup_binstr. rewrite bind_assoc.
  destruct (malloc_cases mem) as [E|[E Hf]]; rewrite (bind_ok _ _ _ _ _ E); [|do 2 eexists; by split].
  change (bind (ret (Some (flat_map printf_char s ++ [0]))) ?k (tail mem))
    with (k (Some (flat_map printf_char s ++ [0])) (tail mem)). cbv beta iota.
  destruct (malloc_cases (tail mem)) as [E2|[E2 Hf]]; rewrite (bind_ok _ _ _ _ _ E2); cbn [negb];
    [|do 2 eexists; split; [reflexivity|by apply in_false_tail]].
  rewrite c_str_end by by apply text_printf. pose proof (length_flat_printf s Hs).
  erewrite bind_lift by (apply printf_decode_text; [done|]; unfold zeros; rewrite length_replicate; lia).
  do 2 eexists. split; [reflexivity|]. split; [done|]. by rewrite take_app_length.
Qed.

Lemma hex_not_quote up s : bytes s -> char_at (flat_map (fmt_02x up) s) <> 34 /\ char_at (flat_map (fmt_02x up) s) <> 80.
Proof.
  destruct 1 as [|b s Hb Hs]; [done|]. cbn. unfold hex_digit.
  destruct (Z.ltb_spec (b / 16) 10), up; split; dlia.
Qed.

Lemma config_hex up s : bytes s -> config_value (flat_map (fmt_02x up) s) s.
Proof.
  intros Hs mem. unfold wpa_config_parse_string. destruct (hex_not_quote up s Hs) as [H1 H2].
  rewrite (proj2 (Z.eqb_neq _ 34) H1), (proj2 (Z.eqb_neq _ 80) H2). cbn [andb]. cbv iota zeta.
  rewrite c_str_text by (apply text_flat_hex, Hs). rewrite length_flat_hex. change 1 with (Z.ones 1) at 1. rewrite land_mask by lia.
  replace (2 * zlen s) with (zlen s * 2) by lia. rewrite Z.mod_mul, Z.div_mul by lia.
  change (0 =? 0) with true. cbn [negb].
  destruct (malloc_cases mem) as [E|[E Hf]]; rewrite (bind_ok _ _ _ _ _ E); cbn [negb]; [|do 2 eexists; by split].
  rewrite Nat2Z.id. pose proof (hexstr2bin_flat up s [] Hs) as Hx. rewrite app_nil_r in Hx. rewrite Hx.
  change (0 =? 0) with true. cbn [negb].
  assert (Hz : length (zeros (zlen s + 1)) = S (length s)) by (unfold zeros; rewrite length_replicate; lia).
  pose proof (wr_at [] (zeros (zlen s + 1)) 0 s ltac:(done) ltac:(lia)) as W. cbn [app] in W.
  rewrite (bind_lift _ _ _ _ W).
  erewrite bind_lift by (apply wr_at; [done|rewrite length_drop; cbn [length]; lia]).
  do 2 eexists. split; [reflexivity|]. split; [done|]. by rewrite <- app_assoc, take_app_length.
Qed.

(** *** SSIDs *)

Lemma strchr_first s rest c : text s -> c <> 0 -> ~ In c s -> os_strchr (s ++ c :: rest) c = Some (zlen s).
Proof.
  intros Hs Hc Hn. unfold os_strchr. rewrite c_str_app by done. cbn [c_str].
  rewrite (proj2 (Z.eqb_neq c 0) Hc).
  rewrite (proj2 (list_find_Some (fun x => Is_true (c =? x)) (s ++ c :: c_str rest) (length s) c)); [done|].
  rewrite list_lookup_middle by done. split_and!; [done|by apply Is_true_true, Z.eqb_refl|].
  intros j y Hj Hlt Hy. apply Is_true_true, Z.eqb_eq in Hy. subst y.
  rewrite lookup_app_l in Hj by done. apply Hn. by apply list_elem_of_In, list_elem_of_lookup; exists j.
Qed.

Lemma strchr_none s c : text s -> ~ In c s -> os_strchr s c = None.
Proof.
  intros Hs Hn. unfold os_strchr. rewrite c_str_text by done. rewrite (proj2 (list_find_None _ s)); [done|].
  apply Forall_forall. intros x Hx Ht. apply Is_true_true, Z.eqb_eq in Ht. subst x.
  by apply Hn, list_elem_of_In.
Qed.

(** What is read when [tmp] is cut to a value of the SSID. *)
Lemma ssid_parse_value buf value s : ssid_text (c_str buf) = Some value -> config_value value s ->
  1 <= zlen s <= SSID_MAX_LEN ->
  forall mem, exists r mem', ssid_parse buf mem = Ok (r, mem') /\
    (r = (s, 0) \/ r = ([], -1) /\ In false mem).
Proof.
  intros Ht Hv Hl mem. unfold ssid_parse, os_strdup. rewrite bind_assoc.
  destruct (malloc_cases mem) as [E|[E Hf]]; rewrite (bind_ok _ _ _ _ _ E); [|do 2 eexists; split; [reflexivity|auto]].
  change (bind (ret ?a) ?k (tail mem)) with (k a (tail mem)). cbv beta iota. rewrite Ht.
  destruct (Hv (tail mem)) as (r & mem' & Er & Hr). rewrite (bind_ok _ _ _ _ _ Er).
  unfold read_as in Hr. destruct r as [[str len]|].
  - destruct Hr as [-> Hr]. rewrite (proj2 (Z.leb_le _ _)) by lia. rewrite Nat2Z.id, Hr.
    rewrite (proj2 (Z.eqb_neq _ 0)) by lia. do 2 eexists. split; [reflexivity|auto].
  - do 2 eexists. split; [reflexivity|]. right. split; [done|by apply in_false_tail].
Qed.

Lemma ssid_text_quoted s args : text s -> ~ In 34 s -> ssid_text (c_str ([34] ++ s ++ [34] ++ args)) = Some ([34] ++ s ++ [34]).
Proof.
  intros Hs Hn. change ([34] ++ s ++ [34] ++ args) with ([34] ++ (s ++ 34 :: args)).
  rewrite c_str_app, c_str_app by (done || by repeat constructor). change (c_str (34 :: args)) with (34 :: c_str args).
  generalize (c_str args). clear args. intros args.
  unfold ssid_text. cbn [app char_at tail]. rewrite Z.eqb_refl. cbn [negb].
  rewrite strchr_first by done. f_equal.
  replace (Z.to_nat (zlen s + 2)) with (S (length (s ++ [34]))) by (rewrite length_app; cbn [length]; lia).
  cbn [take]. f_equal. replace (s ++ 34 :: args) with ((s ++ [34]) ++ args) by by rewrite <- app_assoc.
  by rewrite take_app_length.
Qed.

Lemma hex_no_space up s : bytes s -> ~ In 32 (flat_map (fmt_02x up) s).
Proof.
  induction 1 as [|b s Hb Hs IH]; cbn [flat_map]; [intros []|]. rewrite in_app_iff.
  intros [H|H]; [|done]. unfold fmt_02x, hex_digit in H. cbn in H.
  destruct H as [H|[H|H]]; [| |destruct H]; destruct (_ <? 10), up in H; dlia.
Qed.

Lemma ssid_text_hex up s args : bytes s -> (args = [] \/ exists more, args = 32 :: more) ->
  ssid_text (c_str (flat_map (fmt_02x up) s ++ args)) = Some (flat_map (fmt_02x up) s).
Proof.
  intros Hs Ha. rewrite c_str_app by by apply text_flat_hex.
  assert (Ha' : c_str args = [] \/ exists more, c_str args = 32 :: more) by (destruct Ha as [->|[more ->]]; cbn; eauto).
  revert Ha'. generalize (c_str args). clear args Ha. intros args Ha. destruct (hex_not_quote up s Hs) as [Hq _]. pose proof (hex_no_space up s Hs) as Hn.
  assert (Hc : char_at (flat_map (fmt_02x up) s ++ args) <> 34).
  { destruct s; [|exact Hq]. cbn. by destruct Ha as [->|[more ->]]. }
  unfold ssid_text. rewrite (proj2 (Z.eqb_neq _ _) Hc). cbn [negb]. f_equal.
  destruct Ha as [->|[more ->]].
  - rewrite app_nil_r, strchr_none by (done || by apply text_flat_hex). done.
  - by rewrite strchr_first, Nat2Z.id, take_app_length by (done || by apply text_flat_hex).
Qed.

(** ** utf8 *)

Definition utf8_char (c : Z) : list Z := if (c =? 92) || (c =? 39) then [92; c] else [c].

Lemma utf8_escape_loop_spec inp : forall w rest,
  zlen (flat_map utf8_char inp) <= zlen rest ->
  utf8_escape_loop inp (w ++ rest) (zlen w) =
    Ok ((w ++ flat_map utf8_char inp) ++ drop (length (flat_map utf8_char inp)) rest,
        zlen (w ++ flat_map utf8_char inp), true).
Proof.
  induction inp as [|c inp IH]; intros w rest Hl; cbn [flat_map utf8_escape_loop].
  { by rewrite app_nil_r. }
  cbn [flat_map] in Hl. rewrite length_app in Hl.
  assert (1 <= zlen (utf8_char c)) by (unfold utf8_char; destruct (_ || _); cbn; lia).
  rewrite (proj2 (Z.leb_gt _ _)) by (rewrite length_app; lia). cbv zeta.
  rewrite Z.add_simpl_r. unfold utf8_char in Hl at 1. unfold utf8_char at 1 3 5.
  destruct ((c =? 92) || (c =? 39)); cbn [length] in Hl.
  - rewrite (proj2 (Z.leb_gt _ _)) by (rewrite length_app; lia).
    rewrite wr_at by (cbn [length]; lia). cbn [cbind].
    rewrite wr_at by (rewrite ?length_app, ?length_drop; cbn [length]; lia). cbn [cbind].
    replace (zlen w + 1 + 1) with (zlen ((w ++ [92]) ++ [c])) by (rewrite !length_app; cbn [length]; lia).
    rewrite IH by (rewrite !length_drop; cbn [length]; lia).
    rewrite !drop_drop, <- !app_assoc. done.
  - rewrite wr_at by (cbn [length]; lia). cbn [cbind].
    replace (zlen w + 1) with (zlen (w ++ [c])) by (rewrite length_app; cbn [length]; lia).
    rewrite IH by (rewrite !length_drop; cbn [length]; lia).
    rewrite !drop_drop, <- !app_assoc. done.
Qed.

Lemma utf8_unescape_loop_spec inp : forall w rest, zlen inp <= zlen rest ->
  utf8_unescape_loop (flat_map utf8_char inp) (w ++ rest) (zlen w) =
    Ok ((w ++ inp) ++ drop (length inp) rest, zlen (w ++ inp), true).
Proof.
  induction inp as [|c inp IH]; intros w rest Hl; cbn [flat_map].
  { cbn. by rewrite app_nil_r. }
  cbn [length] in Hl. unfold utf8_char at 1.
  assert (Hstep : (l <-- wr (w ++ rest) (zlen w) [c];;
      utf8_unescape_loop (flat_map utf8_char inp) l (zlen w + 1))%c =
    Ok ((w ++ c :: inp) ++ drop (length (c :: inp)) rest, zlen (w ++ c :: inp), true)).
  { rewrite wr_at by (cbn [length]; lia). cbn [cbind].
    replace (zlen w + 1) with (zlen (w ++ [c])) by (rewrite length_app; cbn [length]; lia).
    rewrite IH by (rewrite !length_drop; cbn [length]; lia).
    rewrite !drop_drop, <- !app_assoc. done. }
  destruct (Z.eqb_spec c 92) as [->|H1]; [|destruct (Z.eqb_spec c 39) as [->|H2]]; cbn [orb app utf8_unescape_loop];
    rewrite (proj2 (Z.leb_gt _ _)) by (rewrite length_app; lia).
  - exact Hstep.
  - exact Hstep.
  - rewrite (proj2 (Z.eqb_neq c 39)), (proj2 (Z.eqb_neq c 92)) by done. exact Hstep.
Qed.

Lemma utf8_end_ok w rest : exists buf, utf8_end (w ++ rest, zlen w, true) = Ok (buf, zlen w) /\
  take (length w) buf = w /\ zlen buf = zlen (w ++ rest).
Proof.
  unfold utf8_end. cbn [andb]. rewrite length_app.
  destruct (Z.ltb_spec (zlen w) (Z.of_nat (length w + length rest))).
  - rewrite wr_at by (cbn [length]; lia). cbn [cbind]. eexists. split; [reflexivity|].
    rewrite <- app_assoc, take_app_length. split; [done|]. rewrite !length_app, length_drop. cbn [length]. lia.
  - eexists. split; [reflexivity|]. rewrite take_app_length, length_app. done.
Qed.

(** The escaped text does not start with a bare quote. *)
Lemma utf8_no_quote inp : match flat_map utf8_char inp with c :: s => if c =? 39 then s else flat_map utf8_char inp | [] => [] end =
  flat_map utf8_char inp.
Proof.
  destruct inp as [|c inp]; [done|]. assert (E : flat_map utf8_char (c :: inp) = utf8_char c ++ flat_map utf8_char inp) by done.
  rewrite E. clear E. generalize (flat_map utf8_char inp). intros l. unfold utf8_char.
  destruct (Z.eqb_spec c 92) as [->|]; [done|]. destruct (Z.eqb_spec c 39) as [->|H]; cbn [orb app]; [done|].
  by rewrite (proj2 (Z.eqb_neq c 39)).
Qed.

(** ** Theorems *)

(** The hexadecimal printers print as many bytes as fit, the whole data when the
    buffer has twice its length and one more, and [hexstr2bin] reads the printed
    bytes back; the result is twice their number. *)
Theorem hex_crosses up buf data : bytes data ->
  let n := Nat.min (length data) (Z.to_nat ((zlen buf - 1) / 2)) in
  exists buf', wpa_snprintf_hex_case buf data up = Ok (buf', 2 * Z.of_nat n) /\ zlen buf' = zlen buf /\
    hexstr2bin (c_str buf') n = (take n data, 0) /\
    (n = length data -> data <> [] -> c_str buf' = flat_map (fmt_02x up) data).
Proof.
  intros Hd n. destruct (decide (buf = [])) as [->|Hb].
  { assert (n = O) as -> by (subst n; apply Nat.min_0_r).
    exists []. cbn. split_and!; [done|done|done|]. by destruct data. }
  destruct (hex_case_spec up buf data Hd) as (m & buf' & E & Hl & Hm & Ht & Hf); [by destruct buf|].
  fold n in Hm. subst m. exists buf'. split_and!; [done|done| |].
  - rewrite <- (take_drop (length (flat_map (fmt_02x up) (take n data))) (c_str buf')), Ht.
    assert (length (take n data) = n) as Hn by (rewrite length_take; lia).
    rewrite <- Hn at 3. apply hexstr2bin_flat. auto with cint.
  - intros Hn Hne. rewrite Hf; [by rewrite Hn, firstn_all|done|destruct data; [done|cbn in *; lia]].
Qed.

(** With separators, no data and a buffer that is not empty make the printer
    write in front of the buffer; nothing else makes it leave the buffer. *)
Theorem hex_sep_faults buf data sep :
  wpa_snprintf_hex_sep buf data sep = Fault <-> buf <> [] /\ data = [].
Proof.
  unfold wpa_snprintf_hex_sep. destruct (Z.eqb_spec (zlen buf) 0) as [Hz|Hz].
  { split; [done|]. intros [Hb _]. by destruct buf. }
  destruct (hex_loop_spec (fun b => fmt_02x false b ++ [sep]) 3 data ltac:(lia) ltac:(done) [] buf)
    as (n & rest & E & Hn & Hl & Hp & _); [lia|]. cbn [app length] in *. change (Z.of_nat 0) with 0 in E.
  rewrite E. cbn [cbind]. destruct (bool_decide (n < length data)%nat) eqn:B.
  - apply bool_decide_eq_true in B. split; [done|]. intros [_ ->]. cbn in B. lia.
  - apply bool_decide_eq_false in B. destruct data as [|b data].
    + destruct n; [|cbn in Hn; lia]. cbn. split; [|done]. intros _. split; [|done]. by intros ->.
    + destruct n as [|n]; [cbn in B; lia|]. cbn [take flat_map] in *.
      rewrite wr_in; [by split; [|intros [_ ?]]|..]; rewrite ?length_app in *; cbn [length fmt_02x app] in *; lia.
Qed.

(** [hwaddr_aton] accepts a text exactly when it starts with six bytes in
    hexadecimal between colons, in letters of any case, whatever follows; it
    stores these bytes, and [hwaddr_aton2] reads the same ones and 17
    characters. *)
Theorem hwaddr_exact txt a :
  (hwaddr_aton txt = (a, 0) <->
   length a = 6%nat /\ bytes a /\ exists pre rest, txt = pre ++ rest /\ map lower pre = MACSTR a) /\
  (hwaddr_aton txt = (a, 0) -> hwaddr_aton2 txt = (a, 17)).
Proof.
  unfold hwaddr_aton, hwaddr_aton2.
  assert (Hx : forall b o, hwaddr_parse txt = (b, o) -> (b, match o with Some _ => 0 | None => -1 end) = (a, 0) ->
    b = a /\ exists rest, o = Some rest) by (intros b [rest|] _ [= ->]; eauto).
  destruct (hwaddr_parse txt) as [b o] eqn:E. cbn [fst snd]. split; [split|].
  - intros H. destruct (Hx b o eq_refl H) as [-> [rest ->]].
    destruct (hwaddr_loop_exact 5 _ _ _ E) as (H1 & H2 & pre & -> & H3). split_and!; eauto.
  - intros (H1 & H2 & pre & rest & -> & H3). unfold hwaddr_parse in E.
    rewrite (hwaddr_loop_text 5 a pre rest H1 H2 H3) in E. by injection E as <- <-.
  - intros H. destruct (Hx b o eq_refl H) as [-> [rest ->]].
    rewrite (hwaddr_aton2_parse _ _ _ _ E). cbn [fst snd].
    destruct (hwaddr_loop_exact 5 _ _ _ E) as (H1 & H2 & pre & -> & H3). f_equal.
    apply (f_equal length) in H3. rewrite length_map in H3.
    rewrite length_app, Nat2Z.inj_add, Z.add_simpl_r, H3, length_MACSTR by (by destruct a). lia.
Qed.

(** An address and its mask are read back from their text, from a buffer of at
    least 36 bytes. *)
Theorem hwaddr_mask_crosses buf addr mask :
  length addr = 6%nat -> length mask = 6%nat -> bytes addr -> bytes mask -> 36 <= zlen buf ->
  exists buf' res, hwaddr_mask_txt buf addr mask = Ok (buf', res) /\ res = zlen (c_str buf') /\
    hwaddr_masked_aton (c_str buf') true = (addr, mask, 0).
Proof.
  intros Ha Hm Ba Bm Hb. unfold hwaddr_mask_txt. rewrite take_ge by lia.
  assert (Htext : forall l, bytes l -> text (MACSTR l)).
  { induction 1 as [|b [|b' l] Hc Hl IH]; [constructor|by apply text_fmt_02x|].
    change (MACSTR (b :: b' :: l)) with (fmt_02x false b ++ [58] ++ MACSTR (b' :: l)).
    rewrite !text_app. split_and!; [by apply text_fmt_02x|by repeat constructor|done]. }
  assert (La : zlen (MACSTR addr) = 17) by (rewrite length_MACSTR by (by destruct addr); lia).
  assert (Lm : zlen (MACSTR mask) = 17) by (rewrite length_MACSTR by (by destruct mask); lia).
  set (t := if existsb _ mask then _ else _).
  assert (Ht : text t /\ zlen t < 36 /\ hwaddr_masked_aton t true = (addr, mask, 0)).
  { subst t. unfold hwaddr_masked_aton. destruct (existsb _ mask) eqn:Ex.
    - rewrite hwaddr_MACSTR by done. cbn [char_at app tail].
      pose proof (hwaddr_MACSTR mask [] Hm Bm) as E2. rewrite app_nil_r in E2. rewrite E2.
      split_and!; [|rewrite length_app; cbn [length]; lia|done].
      apply text_app. split; [auto|]. constructor; [done|]. by apply Htext.
    - pose proof (hwaddr_MACSTR addr [] Ha Ba) as E1. rewrite app_nil_r in E1. rewrite E1.
      split_and!; [auto|lia|]. cbn [char_at]. change (0 =? 0) with true. cbn [orb]. do 2 f_equal.
      rewrite <- Hm. clear -Ex. induction mask as [|m mask IH]; [done|]. cbn in Ex.
      apply orb_false_iff in Ex as [E Ex]. apply negb_false_iff, Z.eqb_eq in E as ->. cbn. by rewrite IH. }
  destruct Ht as (H1 & H2 & H3).
  change buf with ([] ++ buf) at 1. rewrite snprintf_fits by (done || lia). cbn [cbind fst snd app].
  rewrite snprintf_error_no by lia. do 2 eexists. split; [reflexivity|].
  by rewrite c_str_end by done.
Qed.

(** [printf_encode] never leaves its buffer, and what it writes is the text
    of a prefix of the data: of all of it unless the last four bytes of the
    buffer are reached.  [printf_decode] reads this prefix back, of any bytes. *)
Theorem printf_crosses txt data : bytes data -> txt <> [] ->
  exists p q txt', data = p ++ q /\ printf_encode txt data = Ok txt' /\ zlen txt' = zlen txt /\
    (q = [] \/ zlen txt - 4 <= zlen (c_str txt')) /\
    (forall buf, zlen p < zlen buf ->
       exists rest, printf_decode buf (c_str txt') = Ok (p ++ 0 :: rest, zlen p)).
Proof.
  intros Hd Ht. destruct (printf_encode_spec txt data Hd) as (p & q & txt' & -> & E & Hl & Hc & Hq);
    [by destruct txt|].
  exists p, q, txt'. apply bytes_app in Hd as [Hp _]. split_and!; [done|done|done|destruct Hq; [by left|right; lia]|].
  intros buf Hb. rewrite Hc, printf_decode_text by done. eauto.
Qed.

(** [printf_decode] ends on any text, and stores inside its buffer. *)
Theorem printf_decode_total buf str :
  exists buf' len, printf_decode buf str = Ok (buf', len) /\ zlen buf' = zlen buf /\ 0 <= len /\
    (buf <> [] -> len < zlen buf).
Proof.
  destruct (printf_decode_loop_total (length str) buf 0 str) as (buf' & len & E & Hl & H0 & Hb);
    [lia|lia|destruct buf; [by right|left; cbn; lia]|].
  unfold printf_decode. rewrite E. cbn [cbind]. destruct (Z.ltb_spec len (zlen buf')).
  - rewrite wr_in by (cbn [length]; lia). cbn [cbind]. exists (put len [0] buf'), len.
    split_and!; [done| |done|lia]. rewrite length_put by (cbn [length]; lia). done.
  - exists buf', len. split_and!; [done|done|done|]. intros Hn. destruct Hb as [Hb|[Hb _]]; [lia|done].
Qed.

(** C40: The three forms of a value in the configuration, between quotes, escaped
    after a P, and in hexadecimal, are read as the bytes they were made from;
    only a failed allocation prevents it.  Between quotes the bytes have no NUL
    among them, which would end the string; the other two forms carry any
    bytes. *)
Theorem config_string_roundtrip s :
  (text s -> config_value ([34] ++ s ++ [34]) s) /\
  (bytes s -> config_value ([80; 34] ++ flat_map printf_char s ++ [34]) s) /\
  (bytes s -> forall up, config_value (flat_map (fmt_02x up) s) s).
Proof. split_and!; auto using config_quoted, config_escaped, config_hex. Qed.

(** An SSID between quotes, with no quote and no NUL in it, or in hexadecimal is read by
    [ssid_parse], whatever arguments follow; only a failed allocation prevents
    it. *)
Theorem ssid_parse_roundtrip s buf : bytes s -> 1 <= zlen s <= SSID_MAX_LEN ->
  (text s /\ ~ In 34 s /\ (exists args, buf = [34] ++ s ++ [34] ++ args) \/
   exists up args, buf = flat_map (fmt_02x up) s ++ args /\ (args = [] \/ exists more, args = 32 :: more)) ->
  forall mem, exists r mem', ssid_parse buf mem = Ok (r, mem') /\
    (r = (s, 0) \/ r = ([], -1) /\ In false mem).
Proof.
  intros Hs Hl [(Hx & Hn & args & ->)|(up & args & -> & Ha)].
  - exact (ssid_parse_value _ _ _ (ssid_text_quoted s args Hx Hn) (config_quoted s Hx) Hl).
  - exact (ssid_parse_value _ _ _ (ssid_text_hex up s args Hs Ha) (config_hex up s Hs) Hl).
Qed.

(** [utf8_unescape] undoes [utf8_escape] when the buffers have room. *)
Theorem utf8_roundtrip inp outp outp2 : zlen (flat_map utf8_char inp) <= zlen outp -> zlen inp <= zlen outp2 ->
  exists buf n buf2, utf8_escape inp outp = Ok (buf, n) /\
    utf8_unescape (take (Z.to_nat n) buf) outp2 = Ok (buf2, zlen inp) /\ take (length inp) buf2 = inp.
Proof.
  intros H1 H2. unfold utf8_escape, utf8_unescape.
  pose proof (utf8_escape_loop_spec inp [] outp H1) as E1. cbn [app length] in E1.
  change (Z.of_nat 0) with 0 in E1. rewrite E1. cbn [cbind].
  destruct (utf8_end_ok (flat_map utf8_char inp) (drop (length (flat_map utf8_char inp)) outp))
    as (buf & E2 & Ht & _). rewrite E2.
  exists buf, (zlen (flat_map utf8_char inp)). rewrite Nat2Z.id, Ht, utf8_no_quote.
  pose proof (utf8_unescape_loop_spec inp [] outp2 H2) as E3. cbn [app length] in E3.
  change (Z.of_nat 0) with 0 in E3. rewrite E3. cbn [cbind].
  destruct (utf8_end_ok inp (drop (length inp) outp2)) as (buf2 & E4 & Ht2 & _). rewrite E4. eauto.
Qed.

(** ** Witnesses *)

(** Both addresses are 00:1a:FF:..., and the data holds a quote, a NUL and a
    letter. *)
Lemma hwaddr_exact_witness :
  hwaddr_aton2 [48;48;58;49;97;58;70;70;58;48;48;58;48;48;58;48;49;32;120] = ([0; 26; 255; 0; 0; 1], 17).
Proof.
  refine (proj2 (hwaddr_exact [48;48;58;49;97;58;70;70;58;48;48;58;48;48;58;48;49;32;120]
    [0; 26; 255; 0; 0; 1]) _).
  vm_compute. reflexivity.
Defined.

Lemma printf_crosses_witness :
  exists p q txt', [34; 0; 97] = p ++ q /\ printf_encode (repeat 7 13) [34; 0; 97] = Ok txt' /\
    zlen txt' = 13 /\ (q = [] \/ 13 - 4 <= zlen (c_str txt')) /\
    (forall buf, zlen p < zlen buf ->
       exists rest, printf_decode buf (c_str txt') = Ok (p ++ 0 :: rest, zlen p)).
Proof.
  refine (printf_crosses (repeat 7 13) [34; 0; 97] _ _); [|discriminate].
  repeat (constructor; [lia|]). constructor.
Defined.

Lemma config_string_roundtrip_witness :
  config_value [34; 34; 97; 34] [34; 97] /\
  config_value [80; 34; 92; 34; 92; 120; 48; 48; 97; 34] [34; 0; 97].
Proof.
  split; [refine (proj1 (config_string_roundtrip [34; 97]) _)|refine (proj1 (proj2 (config_string_roundtrip [34; 0; 97])) _)];
    repeat (constructor; [lia|]); constructor.
Defined.

Lemma hex_crosses_witness :
  exists buf', wpa_snprintf_hex_case [9; 9; 9; 9] [1; 254] false = Ok (buf', 2) /\ zlen buf' = 4 /\
    hexstr2bin (c_str buf') 1 = ([1], 0) /\ (1%nat = 2%nat -> [1; 254] <> [] -> c_str buf' = [48; 49; 102; 101]).
Proof.
  refine (hex_crosses false [9; 9; 9; 9] [1; 254] _). repeat (constructor; [lia|]). constructor.
Defined.

End Codec.
