(* ===== verification/Common.v ===== *)
(** * Common helpers

    utils/common.c, but for the codecs, which are in [Codec]: counters and bit
    strings, lists of frequency ranges, zero-terminated arrays of integers, and
    tokens. *)

From S2P Require Import Prelude WpaDefs Wpabuf Codec.
From stdpp Require Import sorting.

Module Common.
Import WpaDefs Wpabuf Codec.

#[local] Open Scope Z_scope.
#[local] Open Scope list_scope.

(** ** Bytes *)

(** The loop of [inc_byte_array] from the byte [pos] down. *)
Fixpoint inc_loop (pos : nat) (counter : list Z) : list Z :=
  let b := u8 (at_ counter (Z.of_nat pos) + 1) in
  let counter := <[pos := b]> counter in
  if negb (b =? 0) then counter
  else match pos with O => counter | S pos => inc_loop pos counter end.

(** [len] is the length of the counter, and fits an [int]. *)
Definition inc_byte_array (counter : list Z) : list Z :=
  match length counter with O => counter | S pos => inc_loop pos counter end.

(** The bytes but for the first, from the last one: each takes in the low bits
    of the one before. *)
Definition shift_step (bits i : Z) (buf : list Z) : list Z :=
  <[Z.to_nat i := u8 (Z.lor (Z.shiftl (at_ buf (i - 1)) (8 - bits)) (Z.shiftr (at_ buf i) bits))]> buf.

(** With no bytes, [len - 1] wraps around and the loop leaves the buffer. *)
Definition buf_shift_right (buf : list Z) (bits : Z) : cres (list Z) :=
  if zlen buf =? 0 then Fault
  else
    let buf := for_down (zlen buf - 1) 1 (shift_step bits) buf in
    Ok (<[0%nat := Z.shiftr (at_ buf 0) bits]> buf).

(** [now] is the time, in seconds and microseconds. *)
Definition wpa_get_ntp_timestamp (now_sec now_usec : Z) : list Z :=
  let sec := u32 (now_sec + 2208988800) in
  let usec := u32 now_usec in
  let usec := u32 (4295 * usec - Z.shiftr usec 5 - Z.shiftr usec 9) in
  be_bytes 4 sec ++ be_bytes 4 usec.

(** The result, and the number of its bytes that come from the sources. *)
Definition merge_byte_arrays (res_len : Z) (src1 src2 : option (list Z)) : list Z * Z :=
  let res := zeros res_len in
  let after (res : list Z) (len : Z) :=
    match src2 with
    | Some src2 =>
        if res_len <=? len + zlen src2 then (put len (take (Z.to_nat (res_len - len)) src2) res, res_len)
        else (put len src2 res, len + zlen src2)
    | None => (res, len)
    end in
  match src1 with
  | Some src1 =>
      if res_len <=? zlen src1 then (put 0 (take (Z.to_nat res_len) src1) res, res_len)
      else after (put 0 src1 res) (zlen src1)
  | None => after res 0
  end.

(** The random bytes, if there are any, become the address or its last half. *)
Definition local_unicast (addr : list Z) : list Z :=
  <[0%nat := Z.lor (Z.land (at_ addr 0) 0xfe) 0x02]> addr.
Definition random_mac_addr (random : option (list Z)) (addr : list Z) : list Z * Z :=
  match random with
  | Some r => (local_unicast (put 0 (take 6 r) addr), 0)
  | None => (addr, -1)
  end.
Definition random_mac_addr_keep_oui (random : option (list Z)) (addr : list Z) : list Z * Z :=
  match random with
  | Some r => (local_unicast (put 3 (take 3 r) addr), 0)
  | None => (addr, -1)
  end.

Definition rssi_to_rcpi (rssi : Z) : Z :=
  if rssi =? 0 then 255
  else if rssi <? -110 then 0
  else if 0 <? rssi then 220
  else u8 ((rssi + 110) * 2).

(** ** Numbers in text *)

Definition is_digit (c : Z) : bool := (48 <=? c) && (c <=? 57).

(** The value of the digits at the start of the text, after [v]. *)
Fixpoint digits_value (v : Z) (s : list Z) : Z :=
  match s with
  | c :: s' => if is_digit c then digits_value (10 * v + (c - 48)) s' else v
  | [] => v
  end.

Fixpoint skip_space (s : list Z) : list Z :=
  match s with c :: s' => if isspace c then skip_space s' else s | [] => [] end.

(** A value that is no [int] is undefined. *)
Definition atoi (s : list Z) : cres Z :=
  let s := skip_space s in
  let v :=
    if char_at s =? 45 then - digits_value 0 (tail s)
    else if char_at s =? 43 then digits_value 0 (tail s)
    else digits_value 0 s in
  if (- 2 ^ 31 <=? v) && (v <? 2 ^ 31) then Ok v else Fault.

(** "%u": ten digits are enough for 32 bits. *)
Fixpoint decimal (fuel : nat) (v : Z) : list Z :=
  match fuel with
  | O => []
  | S fuel => (if v <? 10 then [] else decimal fuel (v / 10)) ++ [48 + v mod 10]
  end.
Definition fmt_u (v : Z) : list Z := decimal 10 v.

(** ** Frequency ranges *)

(** [struct wpa_freq_range]: unsigned integers. *)
Record wpa_freq_range := mkRange { min : Z; max : Z }.

(** The part of the list at [pos]. *)
Definition freq_range_at (pos : list Z) : cres wpa_freq_range :=
  (mn <-- atoi pos;;
   let pos2 := os_strchr pos 45 in
   let pos3 := os_strchr pos 44 in
   let before :=
     match pos2, pos3 with
     | Some p2, Some p3 => p2 <? p3
     | Some _, None => true
     | None, _ => false
     end in
   match pos2 with
   | Some p2 =>
       if before then mx <-- atoi (drop (Z.to_nat (p2 + 1)) pos);; Ok (mkRange (u32 mn) (u32 mx))
       else Ok (mkRange (u32 mn) (u32 mn))
   | None => Ok (mkRange (u32 mn) (u32 mn))
   end)%c.

(** The loop; a turn shortens the text, so that its length and one more are
    enough fuel. [None] is the result -1. *)
Fixpoint freq_range_loop (fuel : nat) (pos : option (list Z)) (freq : list wpa_freq_range)
    : M (option (list wpa_freq_range)) :=
  match pos with
  | None | Some [] => ret (Some freq)
  | Some pos =>
      match fuel with
      | O => lift Fault
      | S fuel =>
          if zlen freq =? 2 ^ 32 - 1 then ret None
          else
            let! ok := os_malloc in
            if negb ok then ret None
            else
              let! r := lift (freq_range_at pos) in
              freq_range_loop fuel
                (match os_strchr pos 44 with
                 | Some p3 => Some (drop (Z.to_nat (p3 + 1)) pos)
                 | None => None
                 end) (freq ++ [r])
      end
  end.

(** The list, or the old one and the result -1. *)
Definition freq_range_list_parse (res : list wpa_freq_range) (value : option (list Z))
    : M (list wpa_freq_range * Z) :=
  let! r := freq_range_loop (match value with Some v => S (length v) | None => 1%nat end) value [] in
  ret (match r with Some freq => (freq, 0) | None => (res, -1) end).

Definition freq_range_list_includes (l : option (list wpa_freq_range)) (freq : Z) : bool :=
  match l with
  | None => false
  | Some l => existsb (fun r => (r.(min) <=? freq) && (freq <=? r.(max))) l
  end.

(** The text of one range, behind a comma but for the first. *)
Definition freq_range_fmt (first : bool) (r : wpa_freq_range) : list Z :=
  (if first then [] else [44]) ++
  (if r.(min) =? r.(max) then fmt_u r.(min) else fmt_u r.(min) ++ [45] ++ fmt_u r.(max)).

Fixpoint freq_str_loop (buf : list Z) (pos : Z) (first : bool) (l : list wpa_freq_range)
    : cres (option (list Z)) :=
  match l with
  | [] => Ok (Some buf)
  | r :: l =>
      (res <-- os_snprintf buf pos (zlen buf - pos) (freq_range_fmt first r);;
       if os_snprintf_error (zlen buf - pos) res.2 then Ok None
       else freq_str_loop res.1 (pos + res.2) false l)%c
  end.

(** What [os_malloc] gives holds zeros here; what is read of it is written. *)
Definition freq_range_list_str (l : list wpa_freq_range) : M (option (list Z)) :=
  if zlen l =? 0 then ret None
  else
    let maxlen := u32 (zlen l * 30) in
    let! ok := os_malloc in
    if negb ok then ret None
    else lift (freq_str_loop (zeros maxlen) 0 true l).

(** ** Arrays of integers that end in a zero *)

Fixpoint zero_at (a : list Z) : cres Z :=
  match a with
  | [] => Fault
  | x :: a => if x =? 0 then Ok 0 else (r <-- zero_at a;; Ok (1 + r))%c
  end.

(** The memory of an array, or NULL. *)
Definition int_array_len (a : option (list Z)) : cres Z :=
  match a with None => Ok 0 | Some a => zero_at a end.

(** [os_realloc_array]: [n] elements, the old ones first. *)
Definition realloc_ints (a : option (list Z)) (n : Z) : M (option (list Z)) :=
  if (2 ^ 64 - 1) / 4 <? n then ret None
  else
    let! ok := os_malloc in
    ret (if ok then Some (take (Z.to_nat n) (default [] a ++ zeros n)) else None).

(** The array at [res] afterwards. *)
Definition int_array_concat (res a : option (list Z)) : M (option (list Z)) :=
  let! reslen := lift (int_array_len res) in
  let! alen := lift (int_array_len a) in
  if 2 ^ 64 - 1 - reslen <=? alen then ret None
  else
    let! n := realloc_ints res (reslen + alen + 1) in
    match n with
    | None => ret None
    | Some n =>
        let! src := lift (match a with Some a => rdn a 0 (alen + 1) | None => Fault end) in
        let! n := lift (wr n reslen src) in
        ret (Some n)
    end.

(** [freq_cmp] subtracts, which is undefined when it overflows; which elements
    are compared is up to [qsort]. *)
Definition cmp_defined (l : list Z) : bool :=
  forallb (fun x => forallb (fun y => (- 2 ^ 31 <=? x - y) && (x - y <? 2 ^ 31)) l) l.
Definition qsort (l : list Z) : cres (list Z) :=
  if cmp_defined l then Ok (merge_sort Z.le l) else Fault.

(** The loop over the sorted array; [j] grows, so that the length is enough
    fuel. *)
Fixpoint unique_loop (fuel : nat) (a : list Z) (i j : Z) : cres (list Z * Z) :=
  (x <-- rd a i;;
   if x =? 0 then Ok (a, i)
   else
     y <-- rd a j;;
     if y =? 0 then Ok (a, i)
     else
       match fuel with
       | O => Fault
       | S fuel =>
           if x =? y then unique_loop fuel a i (j + 1)
           else a <-- wr a (i + 1) [y];; unique_loop fuel a (i + 1) (j + 1)
       end)%c.

Definition int_array_sort_unique (a : option (list Z)) : cres (option (list Z)) :=
  match a with
  | None => Ok None
  | Some a =>
      (alen <-- zero_at a;;
       sorted <-- qsort (take (Z.to_nat alen) a);;
       r <-- unique_loop (length a) (sorted ++ drop (Z.to_nat alen) a) 0 1;;
       let '(a, i) := r in
       x <-- rd a i;;
       a <-- wr a (if negb (x =? 0) then i + 1 else i) [0];;
       Ok (Some a))%c
  end.

(** The search of [int_array_add_unique]: the length, unless the value is
    found. *)
Fixpoint unique_at (a : list Z) (x : Z) : cres (option Z) :=
  match a with
  | [] => Fault
  | y :: a =>
      if y =? 0 then Ok (Some 0)
      else if y =? x then Ok None
      else (r <-- unique_at a x;; Ok (match r with Some n => Some (1 + n) | None => None end))%c
  end.

Definition int_array_add_unique (res : option (list Z)) (a : Z) : M (option (list Z)) :=
  let! found := lift (match res with None => Ok (Some 0) | Some l => unique_at l a end) in
  match found with
  | None => ret res
  | Some reslen =>
      if 2 ^ 64 - 1 - 2 <? reslen then ret None
      else
        let! n := realloc_ints res (reslen + 2) in
        match n with
        | None => ret None
        | Some n => let! n := lift (wr n reslen [a; 0]) in ret (Some n)
        end
  end.

Fixpoint int_array_includes (arr : list Z) (val : Z) : cres bool :=
  match arr with
  | [] => Fault
  | x :: arr => if x =? 0 then Ok false else if val =? x then Ok true else int_array_includes arr val
  end.

(** ** Tokens *)

Definition is_delim (delim : list Z) (c : Z) : bool := existsb (Z.eqb c) delim.

Fixpoint skip_delim (delim s : list Z) : list Z :=
  match s with c :: s' => if is_delim delim c then skip_delim delim s' else s | [] => [] end.

(** The characters up to the first delimiter, and the rest. *)
Fixpoint until_delim (delim s : list Z) : list Z * list Z :=
  match s with
  | c :: s' => if is_delim delim c then ([], s) else let r := until_delim delim s' in (c :: r.1, r.2)
  | [] => ([], [])
  end.

(** [last] is where the last token ended, if there was one: the token from there
    on, and where it ends. *)
Definition cstr_token (str delim : list Z) (last : option (list Z)) : option (list Z * list Z) :=
  let token := skip_delim delim (default str last) in
  match token with
  | [] => None
  | c :: s => let r := until_delim delim s in Some (c :: r.1, r.2)
  end.

(** The delimiter that ends the token becomes a NUL, and is left behind. *)
Definition str_token (str delim : list Z) (context : option (list Z)) : option (list Z * list Z) :=
  match cstr_token str delim context with
  | Some (token, context) => Some (token, tail context)
  | None => None
  end.

(** Calls until there is no token left; a token takes a character, so that the
    length and one more are enough fuel. *)
Fixpoint token_loop (fuel : nat) (str delim : list Z) (context : option (list Z)) : option (list (list Z)) :=
  match fuel with
  | O => None
  | S fuel =>
      match str_token str delim context with
      | Some (token, context) =>
          match token_loop fuel str delim (Some context) with
          | Some l => Some (token :: l)
          | None => None
          end
      | None => Some []
      end
  end.
Definition tokens (str delim : list Z) : option (list (list Z)) :=
  token_loop (S (length str)) str delim None.

(** [os_strstr]: what is behind the first occurrence of [param]. *)
Fixpoint after_param (cmd param : list Z) : option (list Z) :=
  if bool_decide (take (length param) cmd = param) then Some (drop (length param) cmd)
  else match cmd with [] => None | _ :: cmd => after_param cmd param end.

(** The characters up to a space. *)
Definition get_param (cmd param : list Z) : M (option (list Z)) :=
  match after_param cmd param with
  | None => ret None
  | Some pos =>
      let! ok := os_malloc in
      ret (if ok then Some (until_delim [32] pos).1 else None)
  end.

(** ** Counters and bit strings *)

Lemma at_middle (l0 : list Z) b r : at_ (l0 ++ b :: r) (zlen l0) = b.
Proof. unfold at_. by rewrite Nat2Z.id, app_nth2, Nat.sub_diag by lia. Qed.

Lemma insert_middle (l0 : list Z) b r v : <[length l0 := v]> (l0 ++ b :: r) = l0 ++ v :: r.
Proof. by rewrite insert_app_r_alt, Nat.sub_diag by lia. Qed.

Lemma inc_loop_at l0 b r :
  inc_loop (length l0) (l0 ++ b :: r) =
    if negb (u8 (b + 1) =? 0) then l0 ++ u8 (b + 1) :: r
    else match length l0 with O => l0 ++ u8 (b + 1) :: r | S pos => inc_loop pos (l0 ++ u8 (b + 1) :: r) end.
Proof.
  assert (U : forall pos counter, inc_loop pos counter =
    let b := u8 (at_ counter (Z.of_nat pos) + 1) in let counter := <[pos := b]> counter in
    if negb (b =? 0) then counter
    else match pos with O => counter | S pos => inc_loop pos counter end) by (by intros [|]).
  rewrite U. cbv zeta. by rewrite at_middle, insert_middle.
Qed.

Lemma inc_loop_spec l0 : forall b r, bytes l0 -> is_byte b ->
  exists l', inc_loop (length l0) (l0 ++ b :: r) = l' ++ r /\ length l' = S (length l0) /\ bytes l' /\
    be_val l' = (be_val (l0 ++ [b]) + 1) mod 256 ^ (zlen l0 + 1).
Proof.
  induction l0 as [|c l0 IH] using rev_ind; intros b r H0 Hb; rewrite inc_loop_at.
  { exists [u8 (b + 1)]. split; [by destruct (negb _)|].
    split_and!; [done|constructor; [apply u8_range|constructor]|]. done. }
  apply bytes_app in H0 as [H0 Hc]. apply bytes_cons in Hc as [Hc _].
  rewrite length_app, Nat.add_1_r. rewrite be_val_snoc.
  pose proof (be_val_range l0 H0) as Hr0.
  assert (Hr : 0 <= be_val (l0 ++ [c]) < 256 ^ (zlen l0 + 1)).
  { rewrite be_val_snoc, Z.pow_add_r by lia. lia. }
  assert (Hp : 256 ^ (Z.of_nat (S (length l0)) + 1) = 256 * 256 ^ (zlen l0 + 1)).
  { replace (Z.of_nat (S (length l0)) + 1) with (1 + (zlen l0 + 1)) by lia. by rewrite Z.pow_add_r by lia. }
  rewrite Hp. set (P := 256 ^ (zlen l0 + 1)) in *. set (v := be_val (l0 ++ [c])) in *.
  destruct (Z.eqb_spec (u8 (b + 1)) 0) as [Hz|Hz]; cbn [negb].
  - assert (b = 255) as -> by (unfold u8 in Hz; dlia). change (u8 (255 + 1)) with 0. rewrite <- app_assoc. cbn [app].
    destruct (IH c (0 :: r) H0 Hc) as (l' & E & Hl & Hb' & Hv). rewrite E. fold v P in Hv.
    exists (l' ++ [0]). rewrite <- app_assoc. split_and!; [done|rewrite length_app; cbn; lia|..].
    + apply bytes_app. split; [done|]. by repeat constructor.
    + rewrite be_val_snoc, Hv. replace (256 * v + 255 + 1) with (256 * (v + 1)) by lia.
      rewrite Zmult_mod_distr_l. lia.
  - assert (b <> 255) by (by intros ->).
    assert (u8 (b + 1) = b + 1) as E by (apply u8_small; lia). rewrite E.
    exists ((l0 ++ [c]) ++ [b + 1]). rewrite <- app_assoc.
    split_and!; [by rewrite <- !app_assoc|rewrite !length_app; cbn; lia|..].
    + rewrite !bytes_app. split_and!; [done|constructor; [done|constructor]|constructor; [dlia|constructor]].
    + rewrite be_val_snoc. fold v. rewrite Z.mod_small by lia. lia.
Qed.

(** *** Shifting right *)

(** The bytes shifted, but for the first. *)
Definition shift_rest (bits : Z) (buf : list Z) : list Z := for_down (zlen buf - 1) 1 (shift_step bits) buf.

Lemma shift_step_app bits i l r : 1 <= i < zlen l -> shift_step bits i (l ++ r) = shift_step bits i l ++ r.
Proof.
  intros Hi. unfold shift_step, at_. rewrite !app_nth1 by lia. by rewrite insert_app_l by lia.
Qed.

Lemma length_shift_step bits i l : length (shift_step bits i l) = length l.
Proof. apply length_insert. Qed.

Lemma foldl_shift_app bits js r : forall l, Forall (fun i => 1 <= i < zlen l) js ->
  foldl (fun s i => shift_step bits i s) (l ++ r) js = foldl (fun s i => shift_step bits i s) l js ++ r.
Proof.
  induction js as [|i js IH]; intros l H; [done|]. apply Forall_cons in H as [Hi H].
  cbn [foldl]. rewrite shift_step_app by done. apply IH. by rewrite length_shift_step.
Qed.

Lemma shift_rest_snoc bits l c b :
  shift_rest bits ((l ++ [c]) ++ [b]) =
    shift_rest bits (l ++ [c]) ++ [u8 (Z.lor (Z.shiftl c (8 - bits)) (Z.shiftr b bits))].
Proof.
  unfold shift_rest, for_down. rewrite length_app. cbn [length].
  replace (Z.of_nat (length (l ++ [c]) + 1) - 1 - 1 + 1) with (Z.of_nat (S (length l))) by (rewrite length_app; cbn; lia).
  rewrite seqZ_S, reverse_snoc. cbn [foldl].
  assert (E : shift_step bits (1 + zlen l) ((l ++ [c]) ++ [b]) =
    (l ++ [c]) ++ [u8 (Z.lor (Z.shiftl c (8 - bits)) (Z.shiftr b bits))]).
  { unfold shift_step. replace (1 + zlen l) with (zlen (l ++ [c])) by (rewrite length_app; cbn; lia).
    rewrite at_middle. rewrite Nat2Z.id, insert_middle.
    replace (zlen (l ++ [c]) - 1) with (zlen l) by (rewrite length_app; cbn; lia).
    assert (Ha : at_ ((l ++ [c]) ++ [b]) (zlen l) = c) by (rewrite <- app_assoc; apply at_middle). by rewrite Ha. }
  rewrite E, foldl_shift_app; [|apply Forall_reverse, Forall_forall; intros i Hi; apply elem_of_seqZ in Hi;
    rewrite length_app; cbn; lia].
  rewrite length_app. cbn [length]. do 4 f_equal. lia.
Qed.

Lemma div_shift v b m k : 0 <= v -> is_byte b -> m * k = 256 -> 0 < m -> 0 < k ->
  (256 * v + b) / m = 256 * (v / m) + ((v * k + b / m) mod 256).
Proof.
  intros Hv Hb Hmk Hm Hk. pose proof (Z.div_mod v m ltac:(lia)) as E.
  pose proof (Z.mod_pos_bound v m Hm). set (q := v / m) in *. set (r := v mod m) in *.
  assert (Hbm : b / m < k) by (apply Z.div_lt_upper_bound; lia).
  assert (0 <= b / m) by (apply Z.div_pos; lia).
  replace (256 * v + b) with (b + (256 * q + r * k) * m) by (rewrite E, <- Hmk; ring).
  rewrite Z.div_add by lia.
  replace (v * k + b / m) with (r * k + b / m + q * 256) by (rewrite E, <- Hmk; ring).
  rewrite Z.mod_add by lia. rewrite Z.mod_small by nia. lia.
Qed.

Lemma shift_rest_value bits l : 0 <= bits <= 8 -> forall b0, is_byte b0 -> bytes l ->
  be_val (<[0%nat := Z.shiftr b0 bits]> (shift_rest bits (b0 :: l))) = be_val (b0 :: l) / 2 ^ bits /\
  length (shift_rest bits (b0 :: l)) = S (length l) /\ char_at (shift_rest bits (b0 :: l)) = b0.
Proof.
  intros Hbits b0 H0. induction l as [|b l IH] using rev_ind; intros Hl.
  { cbn. rewrite shiftr_div by lia. done. }
  apply bytes_app in Hl as [Hl Hb]. apply bytes_cons in Hb as [Hb _].
  destruct (IH Hl) as (IHv & IHl & IHc). clear IH.
  destruct (exists_last (l := b0 :: l)) as (l0 & c & E); [done|].
  rewrite app_comm_cons, E, shift_rest_snoc, <- E.
  set (x := u8 _). set (s := shift_rest bits (b0 :: l)) in *.
  destruct s as [|s0 s]; [cbn in IHl; lia|]. cbn [length] in IHl.
  split_and!; [|rewrite !length_app; cbn [length]; lia|exact IHc].
  change (<[0%nat := Z.shiftr b0 bits]> ((s0 :: s) ++ [x])) with ((<[0%nat := Z.shiftr b0 bits]> (s0 :: s)) ++ [x]).
  rewrite !be_val_snoc, IHv.
  assert (Hv : 0 <= be_val (b0 :: l)) by (apply (be_val_range (b0 :: l)); by constructor).
  assert (Hc : be_val (b0 :: l) mod 256 = c /\ is_byte c).
  { assert (Hbl : bytes (l0 ++ [c])) by (rewrite <- E; by constructor).
    apply bytes_app in Hbl as [_ Hbc]. apply bytes_cons in Hbc as [Hbc _]. split; [|done].
    rewrite E, be_val_snoc, Z.add_comm, Z.mul_comm, Z.mod_add by lia. by apply Z.mod_small. }
  destruct Hc as [Hc Hcb].
  assert (Hp : 2 ^ bits * 2 ^ (8 - bits) = 256).
  { rewrite <- Z.pow_add_r by lia. by replace (bits + (8 - bits)) with 8 by lia. }
  rewrite (div_shift _ b (2 ^ bits) (2 ^ (8 - bits))) by (try done; try lia; apply Z.pow_pos_nonneg; lia).
  f_equal. subst x. unfold u8. rewrite shiftr_div by lia.
  rewrite lor_shiftl; [|lia|split; [apply Z.div_pos; [lia|apply Z.pow_pos_nonneg; lia]|
    apply Z.div_lt_upper_bound; [apply Z.pow_pos_nonneg; lia|lia]]].
  change (2 ^ 8) with 256. rewrite <- Hc, <- Zplus_mod_idemp_l, <- (Zplus_mod_idemp_l (be_val _ * _)).
  f_equal. f_equal. by rewrite Zmult_mod_idemp_l.
Qed.

(** ** Arrays *)

(** [a] holds the integers [l], none of them zero, and a zero behind them. *)
Definition array (a l : list Z) : Prop := text l /\ exists rest, a = l ++ 0 :: rest.

Lemma zero_at_array a l : array a l -> zero_at a = Ok (zlen l).
Proof.
  intros [Hl [rest ->]]. induction Hl as [|x l Hx Hl IH]; [done|]. cbn [app zero_at].
  rewrite (proj2 (Z.eqb_neq x 0)), IH by done. cbn [cbind length]. f_equal. lia.
Qed.

(** The list without what equals its neighbour, after [x]. *)
Fixpoint unique (x : Z) (l : list Z) : list Z :=
  match l with
  | [] => []
  | y :: l => if x =? y then unique x l else y :: unique y l
  end.

Lemma rd_middle (pre : list Z) x rest i : i = zlen pre -> rd (pre ++ x :: rest) i = Ok x.
Proof.
  intros ->. rewrite rd_ok by (rewrite length_app; cbn [length]; lia). by rewrite at_middle.
Qed.

(** The loop: [pre] and [x] are done, [gap] is free, [todo] is left. *)
Lemma unique_loop_spec fuel : forall pre x gap todo rest,
  (length todo < fuel)%nat -> x <> 0 -> text todo ->
  exists gap', unique_loop fuel (pre ++ x :: gap ++ todo ++ 0 :: rest) (zlen pre) (zlen pre + 1 + zlen gap) =
    Ok ((pre ++ x :: unique x todo) ++ gap' ++ 0 :: rest, zlen pre + zlen (unique x todo)) /\
    length (unique x todo ++ gap') = length (gap ++ todo).
Proof.
  induction fuel as [|fuel IH]; intros pre x gap todo rest Hf Hx Ht; [lia|].
  cbn [unique_loop]. rewrite rd_middle by done. cbn [cbind]. rewrite (proj2 (Z.eqb_neq x 0)) by done.
  assert (Hj : zlen pre + 1 + zlen gap = zlen (pre ++ x :: gap)) by (rewrite length_app; cbn [length]; lia).
  destruct todo as [|y todo].
  - cbn [app]. rewrite app_comm_cons, app_assoc, rd_middle by done. cbn [cbind].
    change (0 =? 0) with true. cbv iota. exists gap. cbn [unique app length]. rewrite Z.add_0_r, app_nil_r.
    split; [|done]. by rewrite <- !app_assoc.
  - inversion Ht as [|? ? Hy Ht']; subst. cbn [length] in Hf.
    replace (rd (pre ++ x :: gap ++ (y :: todo) ++ 0 :: rest) (zlen pre + 1 + zlen gap)) with (Ok y)
      by (rewrite Hj, (app_comm_cons gap), app_assoc; cbn [app]; symmetry; by apply rd_middle).
    cbn [cbind unique]. rewrite (proj2 (Z.eqb_neq y 0)) by done.
    destruct (Z.eqb_spec x y) as [<-|Hne].
    + destruct (IH pre x (gap ++ [x]) todo rest) as (gap' & E & Hl); [lia|done|done|].
      replace (zlen pre + 1 + zlen gap + 1) with (zlen pre + 1 + zlen (gap ++ [x])) by (rewrite length_app; cbn; lia).
      exists gap'. rewrite <- E. split; [by rewrite <- !app_assoc|].
      rewrite Hl, !length_app. cbn [length]. lia.
    + assert (Hg : exists g gs, gap ++ [y] = g :: gs /\ length gs = length gap).
      { destruct gap as [|g gs]; [by exists y, []|]. exists g, (gs ++ [y]). split; [done|]. rewrite length_app. cbn. lia. }
      destruct Hg as (g & gs & Eg & Hgs).
      replace (pre ++ x :: gap ++ (y :: todo) ++ 0 :: rest) with ((pre ++ [x]) ++ (g :: gs ++ todo ++ 0 :: rest)).
      2: { rewrite <- app_assoc, !app_comm_cons, <- Eg, <- !app_assoc. done. }
      rewrite wr_at by (rewrite ?length_app; cbn [length]; lia). cbn [cbind length drop].
      destruct (IH (pre ++ [x]) y gs todo rest) as (gap' & E & Hl); [lia|done|done|].
      replace (zlen pre + 1 + zlen gap + 1) with (zlen (pre ++ [x]) + 1 + zlen gs) by (rewrite length_app; cbn [length]; lia).
      replace (zlen pre + 1) with (zlen (pre ++ [x])) by (rewrite length_app; cbn [length]; lia).
      rewrite drop_0, <- (app_assoc (pre ++ [x]) [y]). cbn [app]. rewrite E. exists gap'. split.
      * cbn [length]. rewrite !length_app. cbn [length]. rewrite <- !app_assoc. cbn [app]. f_equal. f_equal. lia.
      * rewrite length_app in *. cbn [length]. rewrite ?length_app in *. lia.
Qed.

Lemma unique_in x l z : In z (x :: unique x l) <-> In z (x :: l).
Proof.
  revert x. induction l as [|y l IH]; intros x; [done|]. cbn [unique].
  destruct (Z.eqb_spec x y) as [<-|]; [rewrite IH; cbn; tauto|].
  specialize (IH y). cbn in *. tauto.
Qed.

Lemma unique_sorted x l : StronglySorted Z.le (x :: l) -> StronglySorted Z.lt (x :: unique x l).
Proof.
  revert x. induction l as [|y l IH]; intros x Hs; cbn [unique]; [by repeat constructor|].
  inversion Hs as [|? ? Hs' Hx]; subst. inversion Hx as [|? ? Hxy Hx']; subst.
  destruct (Z.eqb_spec x y) as [<-|Hne].
  - apply IH. done.
  - specialize (IH y Hs'). constructor; [done|]. inversion IH as [|? ? IH1 IH2]; subst.
    constructor; [lia|]. eapply Forall_impl; [exact IH2|]. intros. cbn in *. lia.
Qed.

Lemma merge_sort_le l : Permutation (merge_sort Z.le l) l /\ StronglySorted Z.le (merge_sort Z.le l).
Proof. split; [apply merge_sort_Permutation|]. apply StronglySorted_merge_sort; [intros ???; lia|intros ??; lia]. Qed.

Lemma text_perm l k : Permutation l k -> text l -> text k.
Proof. intros H Ht. unfold text. by rewrite <- H. Qed.

(** ** Numbers in text *)

Lemma decimal_value fuel : forall v v0 s, 0 <= v < 10 ^ Z.of_nat fuel ->
  digits_value v0 (decimal fuel v ++ s) = digits_value (v0 * 10 ^ zlen (decimal fuel v) + v) s.
Proof.
  induction fuel as [|fuel IH]; intros v v0 s Hv; [cbn in *; f_equal; lia|].
  rewrite Nat2Z.inj_succ, Z.pow_succ_r in Hv by lia. cbn [decimal].
  assert (Hd : forall w, digits_value w ([48 + v mod 10] ++ s) = digits_value (10 * w + v mod 10) s).
  { intros w. cbn [app digits_value]. unfold is_digit.
    rewrite (proj2 (Z.leb_le 48 _)), (proj2 (Z.leb_le _ 57)) by dlia. cbn [andb]. f_equal. lia. }
  destruct (Z.ltb_spec v 10).
  - rewrite app_nil_l, Hd. cbn [length app]. f_equal. rewrite Z.mod_small by lia. lia.
  - rewrite <- app_assoc, IH by dlia. rewrite Hd. rewrite length_app, Nat2Z.inj_add, Z.pow_add_r by lia.
    cbn [length]. f_equal. dlia.
Qed.

Lemma decimal_digits fuel : forall v, 0 <= v -> Forall (fun c => is_digit c = true) (decimal fuel v).
Proof.
  induction fuel as [|fuel IH]; intros v Hv; [constructor|]. cbn [decimal].
  apply Forall_app. split; [destruct (v <? 10); [constructor|apply IH; dlia]|].
  constructor; [|constructor]. unfold is_digit.
  by rewrite (proj2 (Z.leb_le 48 _)), (proj2 (Z.leb_le _ 57)) by dlia.
Qed.

Lemma decimal_length fuel v : (length (decimal fuel v) <= fuel)%nat.
Proof.
  revert v. induction fuel as [|fuel IH]; intros v; cbn [decimal]; [done|]. rewrite length_app. cbn [length].
  destruct (v <? 10); cbn [length]; [lia|]. specialize (IH (v / 10)). lia.
Qed.

Lemma fmt_u_head v : 0 <= v -> exists c s, fmt_u v = c :: s /\ is_digit c = true.
Proof.
  intros Hv. pose proof (decimal_digits 10 v Hv) as H. unfold fmt_u in *.
  destruct (decimal 10 v) as [|c s] eqn:E; [|inversion H; subst; eauto].
  exfalso. cbn [decimal] in E. by destruct (app_eq_nil _ _ E).
Qed.

Lemma digit_not c x : is_digit c = true -> is_digit x = false -> c <> x.
Proof. by intros H1 H2 ->; rewrite H1 in H2. Qed.

Lemma fmt_u_no v x : 0 <= v -> is_digit x = false -> ~ In x (fmt_u v).
Proof.
  intros Hv Hx Hin. pose proof (decimal_digits 10 v Hv) as H. rewrite List.Forall_forall in H.
  specialize (H _ Hin). by rewrite H in Hx.
Qed.

Lemma fmt_u_text v : 0 <= v -> text (fmt_u v).
Proof.
  intros Hv. apply Forall_forall. intros x Hx ->. by apply (fmt_u_no v 0 Hv eq_refl), list_elem_of_In.
Qed.

Lemma atoi_fmt_u v s : 0 <= v < 2 ^ 31 -> is_digit (char_at s) = false -> atoi (fmt_u v ++ s) = Ok v.
Proof.
  intros Hv Hs. unfold atoi. destruct (fmt_u_head v ltac:(lia)) as (c & t & E & Hc).
  assert (Hsp : skip_space (fmt_u v ++ s) = fmt_u v ++ s).
  { rewrite E. cbn [app skip_space]. unfold isspace.
    rewrite (proj2 (Z.eqb_neq c 32)) by by apply digit_not. cbn [orb].
    unfold is_digit in Hc. apply andb_true_iff in Hc as [Hc _]. apply Z.leb_le in Hc.
    by rewrite (proj2 (Z.leb_gt c 13)), andb_false_r by lia. }
  rewrite Hsp. clear Hsp.
  assert (Hh : char_at (fmt_u v ++ s) = c) by (by rewrite E). rewrite Hh.
  rewrite (proj2 (Z.eqb_neq c 45)), (proj2 (Z.eqb_neq c 43)) by by apply digit_not.
  unfold fmt_u. rewrite decimal_value by (cbn; lia). cbn [Z.mul Z.add].
  assert (Hv' : digits_value v s = v) by (destruct s as [|x s]; [done|]; cbn in *; by rewrite Hs).
  rewrite Z.mul_0_l, Z.add_0_l, Hv'. rewrite (proj2 (Z.leb_le _ v)), (proj2 (Z.ltb_lt v _)) by lia. done.
Qed.

(** ** Frequency ranges *)

Definition range_ok (r : wpa_freq_range) : Prop := 0 <= r.(min) < 2 ^ 31 /\ 0 <= r.(max) < 2 ^ 31.

(** The text of the ranges behind the first. *)
Definition ranges_tail (l : list wpa_freq_range) : list Z := flat_map (freq_range_fmt false) l.

Lemma range_fmt_comma r : freq_range_fmt false r = 44 :: freq_range_fmt true r.
Proof. done. Qed.

Lemma range_fmt_no_comma r : range_ok r -> ~ In 44 (freq_range_fmt true r).
Proof.
  intros [H1 H2]. unfold freq_range_fmt. cbn [app].
  destruct (_ =? _); [apply fmt_u_no; [lia|done]|]. rewrite in_app_iff. cbn [In].
  pose proof (fmt_u_no r.(min) 44 ltac:(lia) eq_refl). pose proof (fmt_u_no r.(max) 44 ltac:(lia) eq_refl).
  intros [H3|[H3|H3]]; done.
Qed.

Lemma range_fmt_text r first : range_ok r -> text (freq_range_fmt first r).
Proof.
  intros [H1 H2]. unfold freq_range_fmt. apply text_app. split; [destruct first; by repeat constructor|].
  destruct (_ =? _); [apply fmt_u_text; lia|]. apply text_app. split; [apply fmt_u_text; lia|].
  constructor; [done|]. apply fmt_u_text. lia.
Qed.

Lemma range_fmt_length r first : zlen (freq_range_fmt first r) <= 22.
Proof.
  unfold freq_range_fmt, fmt_u. pose proof (decimal_length 10 r.(min)). pose proof (decimal_length 10 r.(max)).
  rewrite length_app. destruct (_ =? _), first; rewrite ?length_app; cbn [length]; lia.
Qed.

Lemma strchr_behind s c d more : text s -> d <> 0 -> ~ In c s -> c <> d ->
  match os_strchr (s ++ d :: more) c with Some p => zlen s < p | None => True end.
Proof.
  intros Hs Hd Hn Hcd. unfold os_strchr. rewrite c_str_app by done. cbn [c_str]. rewrite (proj2 (Z.eqb_neq d 0) Hd).
  generalize (c_str more). clear more. intros more.
  destruct (list_find (fun x => Is_true (c =? x)) (s ++ d :: more)) as [[i x]|] eqn:E; [|done].
  apply list_find_Some in E as (Hi & Hx & _). apply Is_true_true, Z.eqb_eq in Hx. subst x.
  assert (~ (i < length s)%nat).
  { intros Hlt. rewrite lookup_app_l in Hi by done. apply Hn, list_elem_of_In, list_elem_of_lookup. eauto. }
  assert (i <> length s) by (intros ->; rewrite list_lookup_middle in Hi by done; by injection Hi). lia.
Qed.

(** The start of the text of a list is read as its first range. *)
Lemma freq_range_at_text r l : range_ok r -> freq_range_at (freq_range_fmt true r ++ ranges_tail l) = Ok r.
Proof.
  intros [H1 H2]. unfold freq_range_at, freq_range_fmt. cbn [app].
  assert (Hd : is_digit (char_at (ranges_tail l)) = false) by (by destruct l).
  pose proof (fmt_u_no r.(min) 45 ltac:(lia) eq_refl) as N1. pose proof (fmt_u_no r.(max) 45 ltac:(lia) eq_refl) as N2.
  pose proof (fmt_u_text r.(min) ltac:(lia)) as T1.
  destruct (Z.eqb_spec r.(min) r.(max)) as [He|Hne].
  - rewrite atoi_fmt_u by done. cbn [cbind]. rewrite (u32_small r.(min)) by lia.
    assert (Hr : Ok (mkRange r.(min) r.(min)) = Ok r) by (destruct r; cbn in *; by subst).
    destruct l as [|r2 l]; cbn [ranges_tail flat_map].
    + rewrite app_nil_r, strchr_none by done. exact Hr.
    + rewrite range_fmt_comma. cbn [app]. pose proof (fmt_u_no r.(min) 44 ltac:(lia) eq_refl) as N3.
      rewrite (strchr_first _ _ 44) by done.
      pose proof (strchr_behind (fmt_u r.(min)) 45 44 (freq_range_fmt true r2 ++ ranges_tail l) T1 ltac:(done) N1 ltac:(done)) as Hb.
      fold (ranges_tail l).
      destruct (os_strchr _ 45) as [p|]; [|exact Hr]. by rewrite (proj2 (Z.ltb_ge p _)) by lia.
  - rewrite <- app_assoc. cbn [app]. rewrite atoi_fmt_u by done. cbn [cbind].
    rewrite strchr_first by done.
    replace (Z.to_nat (zlen (fmt_u r.(min)) + 1)) with (length (fmt_u r.(min) ++ [45])) by (rewrite length_app; cbn; lia).
    change (45 :: fmt_u r.(max) ++ ranges_tail l) with ([45] ++ fmt_u r.(max) ++ ranges_tail l).
    rewrite (app_assoc (fmt_u r.(min))), drop_app_length, atoi_fmt_u by done. cbn [cbind].
    rewrite !u32_small by lia.
    assert (Hc : forall (b : bool) (x y : cres wpa_freq_range), b = true -> (if b then x else y) = x) by (by intros ? ? ? ->).
    rewrite Hc; [by destruct r|].
    destruct (os_strchr _ 44) as [p3|] eqn:E3; [|done].
    pose proof (strchr_behind (fmt_u r.(min)) 44 45 (fmt_u r.(max) ++ ranges_tail l)
      T1 ltac:(done) (fmt_u_no r.(min) 44 ltac:(lia) eq_refl) ltac:(done)) as Hb.
    rewrite <- app_assoc in E3. cbn [app] in E3. rewrite E3 in Hb. apply Z.ltb_lt. lia.
Qed.

Lemma freq_range_loop_text l : forall fuel done_ r, Forall range_ok (r :: l) -> (length l < fuel)%nat ->
  zlen done_ + zlen (r :: l) < 2 ^ 32 ->
  freq_range_loop fuel (Some (freq_range_fmt true r ++ ranges_tail l)) done_ [] = Ok (Some (done_ ++ r :: l), []).
Proof.
  induction l as [|r2 l IH]; intros fuel done_ r Hok Hf Hlen; apply Forall_cons in Hok as [Hr Hok];
    cbn [length] in *; (destruct fuel as [|fuel]; [lia|]);
    assert (Hne : exists c s, freq_range_fmt true r = c :: s)
      by (destruct Hr as [Hm _]; destruct (fmt_u_head r.(min) ltac:(lia)) as (c & s & E & _);
          unfold freq_range_fmt; cbn [app]; rewrite E; destruct (_ =? _); cbn [app]; eauto);
    destruct Hne as (c & s & Hne); pose proof (freq_range_at_text r) as Hat; cbn [freq_range_loop].
  - specialize (Hat [] Hr). rewrite Hne in *. cbn [app] in *. rewrite (proj2 (Z.eqb_neq _ _)) by lia.
    rewrite (bind_ok _ _ _ true []) by done. cbn [negb]. rewrite (bind_lift _ _ _ _ Hat).
    pose proof (range_fmt_no_comma r Hr) as Hn. rewrite Hne in Hn. cbn [ranges_tail flat_map]. rewrite app_nil_r.
    pose proof (range_fmt_text r true Hr) as Ht. rewrite Hne in Ht. rewrite strchr_none by done. by destruct fuel.
  - specialize (Hat (r2 :: l) Hr). pose proof (range_fmt_no_comma r Hr) as Hn.
    assert (Et : freq_range_fmt true r ++ ranges_tail (r2 :: l) =
      freq_range_fmt true r ++ 44 :: freq_range_fmt true r2 ++ ranges_tail l) by done.
    rewrite Et in *.
    assert (Hd : drop (Z.to_nat (zlen (freq_range_fmt true r) + 1))
      (freq_range_fmt true r ++ 44 :: freq_range_fmt true r2 ++ ranges_tail l) = freq_range_fmt true r2 ++ ranges_tail l).
    { replace (Z.to_nat (zlen (freq_range_fmt true r) + 1)) with (length (freq_range_fmt true r ++ [44]))
        by (rewrite length_app; cbn; lia).
      change (44 :: freq_range_fmt true r2 ++ ranges_tail l) with ([44] ++ freq_range_fmt true r2 ++ ranges_tail l).
      by rewrite app_assoc, drop_app_length. }
    pose proof (strchr_first (freq_range_fmt true r) (freq_range_fmt true r2 ++ ranges_tail l) 44
      (range_fmt_text r true Hr) ltac:(done) Hn) as Hs.
    remember (freq_range_fmt true r ++ 44 :: freq_range_fmt true r2 ++ ranges_tail l) as pos eqn:Ep.
    destruct pos as [|x pos]; [by rewrite Hne in Ep|].
    rewrite (proj2 (Z.eqb_neq _ _)) by lia. rewrite (bind_ok _ _ _ true []) by done. cbn [negb].
    rewrite (bind_lift _ _ _ _ Hat), Hs, Hd. rewrite IH; [by rewrite <- app_assoc|done|lia|].
    rewrite length_app. cbn [length]. lia.
Qed.

Lemma freq_str_loop_text l : forall w rest first, Forall range_ok l -> 30 * zlen l <= zlen rest ->
  exists rest', freq_str_loop (w ++ rest) (zlen w) first l =
    Ok (Some ((w ++ match l with [] => [] | r :: l => freq_range_fmt first r ++ ranges_tail l end) ++ rest')) /\
    (l <> [] -> char_at rest' = 0 /\ rest' <> []).
Proof.
  induction l as [|r l IH]; intros w rest first Hok Hr.
  { exists rest. cbn. by rewrite app_nil_r. }
  apply Forall_cons in Hok as [Hok1 Hok]. cbn [freq_str_loop length] in *. pose proof (range_fmt_length r first) as Hl.
  rewrite length_app, Nat2Z.inj_add, Z.add_simpl_l.
  rewrite snprintf_fits by lia. cbn [cbind fst snd]. rewrite snprintf_error_no by lia.
  set (rest1 := 0 :: drop (S (length (freq_range_fmt first r))) rest).
  assert (Hr1 : zlen rest1 = zlen rest - zlen (freq_range_fmt first r)) by (unfold rest1; cbn [length]; rewrite length_drop; lia).
  replace (zlen w + zlen (freq_range_fmt first r)) with (zlen (w ++ freq_range_fmt first r)) by (rewrite length_app; lia).
  destruct (IH (w ++ freq_range_fmt first r) rest1 false Hok) as (rest' & E & Hz); [lia|].
  exists rest'. rewrite E. split.
  - destruct l as [|r2 l]; cbn [ranges_tail flat_map]; rewrite <- ?app_assoc; done.
  - intros _. destruct l as [|r2 l]; [|by apply Hz].
    cbn [freq_str_loop] in E. rewrite app_nil_r in E. injection E as E. apply app_inv_head in E. by subst rest'.
Qed.

(** ** Tokens *)

(** The text cut at every delimiter. *)
Fixpoint fields (delim s : list Z) : list (list Z) :=
  match s with
  | [] => [[]]
  | c :: s =>
      if is_delim delim c then [] :: fields delim s
      else match fields delim s with f :: fs => (c :: f) :: fs | [] => [[c]] end
  end.

Definition not_empty (f : list Z) : bool := match f with [] => false | _ => true end.
Definition words (delim s : list Z) : list (list Z) := List.filter not_empty (fields delim s).

Lemma words_skip delim s : words delim (skip_delim delim s) = words delim s.
Proof.
  unfold words. induction s as [|c s IH]; [done|]. cbn [skip_delim].
  destruct (is_delim delim c) eqn:E; [|done]. rewrite IH. cbn [fields]. by rewrite E.
Qed.

Lemma fields_until delim s :
  fields delim s = (until_delim delim s).1 ::
    match (until_delim delim s).2 with [] => [] | _ :: r => fields delim r end.
Proof.
  induction s as [|c s IH]; [done|]. cbn [fields until_delim].
  destruct (is_delim delim c) eqn:E; [done|]. rewrite IH. by destruct (until_delim delim s).
Qed.

Lemma until_length delim s : (length (until_delim delim s).2 <= length s)%nat.
Proof. induction s as [|c s IH]; cbn [until_delim]; [done|]. destruct (is_delim delim c); cbn [length snd]; lia. Qed.

Lemma skip_head delim s : match skip_delim delim s with [] => True | c :: _ => is_delim delim c = false end.
Proof. induction s as [|c s IH]; cbn [skip_delim]; [done|]. by destruct (is_delim delim c) eqn:E. Qed.

Lemma skip_length delim s : (length (skip_delim delim s) <= length s)%nat.
Proof. induction s as [|c s IH]; cbn [skip_delim]; [done|]. destruct (is_delim delim c); cbn [length]; lia. Qed.

Lemma token_loop_words fuel : forall str delim context, (length (default str context) < fuel)%nat ->
  token_loop fuel str delim context = Some (words delim (default str context)).
Proof.
  induction fuel as [|fuel IH]; intros str delim context Hf; [lia|].
  cbn [token_loop]. unfold str_token, cstr_token.
  rewrite <- (words_skip delim (default str context)).
  pose proof (skip_head delim (default str context)) as Hh.
  pose proof (skip_length delim (default str context)) as Hl.
  destruct (skip_delim delim (default str context)) as [|c s]; [done|].
  pose proof (until_length delim s) as Hu. cbn [length] in Hl.
  rewrite IH.
  - unfold words. rewrite (fields_until delim (c :: s)). cbn [until_delim]. rewrite Hh. cbn [fst snd List.filter not_empty default].
    by destruct (until_delim delim s).2.
  - cbn [default]. revert Hu. destruct (until_delim delim s).2; cbn [tail length]; change (default str (Some (@nil Z))) with (@nil Z); cbn [length]; intros; cbn; lia.
Qed.

(** ** Theorems *)

(** [inc_byte_array] adds one to the number the bytes hold, most significant
    first, and wraps around to zero after the largest one. *)
Theorem inc_byte_array_exact counter : bytes counter -> counter <> [] ->
  bytes (inc_byte_array counter) /\ length (inc_byte_array counter) = length counter /\
  be_val (inc_byte_array counter) = (be_val counter + 1) mod 256 ^ zlen counter.
Proof.
  intros Hb Hn. destruct (exists_last Hn) as (l0 & b & ->). apply bytes_app in Hb as [H0 Hb].
  apply bytes_cons in Hb as [Hb _]. destruct (inc_loop_spec l0 b [] H0 Hb) as (l' & E & Hl & Hb' & Hv).
  unfold inc_byte_array. rewrite length_app, Nat.add_1_r, E, app_nil_r.
  split_and!; [done|done|]. rewrite Hv. do 2 f_equal. lia.
Qed.

(** [buf_shift_right] divides the number the bytes hold by a power of two, for
    at most eight bits; with no bytes it leaves its buffer. *)
Theorem buf_shift_right_exact buf bits : 0 <= bits <= 8 -> bytes buf ->
  match buf_shift_right buf bits with
  | Ok buf' => buf <> [] /\ length buf' = length buf /\ be_val buf' = be_val buf / 2 ^ bits
  | Fault => buf = []
  end.
Proof.
  intros Hbits Hb. unfold buf_shift_right. destruct (Z.eqb_spec (zlen buf) 0) as [Hz|Hz]; [by destruct buf|].
  destruct buf as [|b0 l]; [done|]. apply bytes_cons in Hb as [H0 Hl].
  destruct (shift_rest_value bits l Hbits b0 H0 Hl) as (Hv & Hlen & Hc).
  change (for_down (zlen (b0 :: l) - 1) 1 (shift_step bits) (b0 :: l)) with (shift_rest bits (b0 :: l)).
  assert (Ha : at_ (shift_rest bits (b0 :: l)) 0 = b0) by (by destruct (shift_rest bits (b0 :: l))).
  cbv zeta. rewrite Ha. split_and!; [done|by rewrite length_insert|done].
Qed.

(** [merge_byte_arrays] gives the first bytes of both sources, one after the
    other, with zeros behind them, and says how many there are. *)
Theorem merge_byte_arrays_exact res_len src1 src2 : 0 <= res_len ->
  let both := default [] src1 ++ default [] src2 in
  merge_byte_arrays res_len src1 src2 =
    (take (Z.to_nat res_len) (both ++ zeros res_len), Z.min res_len (zlen both)).
Proof.
  intros Hr both. subst both. unfold merge_byte_arrays.
  assert (Hz : length (zeros res_len) = Z.to_nat res_len) by (unfold zeros; apply length_replicate).
  assert (Hput : forall a s, zlen a + zlen s <= res_len ->
    put (zlen a) s (take (Z.to_nat res_len) (a ++ zeros res_len)) = take (Z.to_nat res_len) ((a ++ s) ++ zeros res_len)).
  { intros a s Hs. rewrite !take_app_ge by (rewrite ?length_app; lia). unfold put.
    rewrite Nat2Z.id, take_app_length, <- app_assoc. f_equal. f_equal.
    rewrite <- drop_drop, drop_app_length. unfold zeros. rewrite !take_replicate, drop_replicate.
    f_equal. rewrite length_app. lia. }
  assert (Hover : forall a s, zlen a <= res_len <= zlen a + zlen s ->
    put (zlen a) (take (Z.to_nat (res_len - zlen a)) s) (take (Z.to_nat res_len) (a ++ zeros res_len)) =
    take (Z.to_nat res_len) ((a ++ s) ++ zeros res_len)).
  { intros a s Hs. rewrite Hput by (rewrite length_take; lia).
    rewrite (take_app_le (a ++ s)) by (rewrite length_app; lia).
    rewrite take_app_le by (rewrite length_app, length_take; lia).
    rewrite !take_app_ge by lia. f_equal. rewrite take_take. f_equal. lia. }
  assert (H0 : forall s, put 0 s (zeros res_len) = put (zlen (@nil Z)) s (take (Z.to_nat res_len) ([] ++ zeros res_len)))
    by (intros s; cbn [app]; by rewrite take_ge by lia).
  assert (Hafter : forall a, zlen a <= res_len ->
    (match src2 with
     | Some s2 =>
         if res_len <=? zlen a + zlen s2
         then (put (zlen a) (take (Z.to_nat (res_len - zlen a)) s2) (take (Z.to_nat res_len) (a ++ zeros res_len)), res_len)
         else (put (zlen a) s2 (take (Z.to_nat res_len) (a ++ zeros res_len)), zlen a + zlen s2)
     | None => (take (Z.to_nat res_len) (a ++ zeros res_len), zlen a)
     end) = (take (Z.to_nat res_len) ((a ++ default [] src2) ++ zeros res_len), Z.min res_len (zlen (a ++ default [] src2)))).
  { intros a Ha. destruct src2 as [s2|].
    2: { change (default [] None) with (@nil Z). rewrite app_nil_r. f_equal. lia. }
    change (default [] (Some s2)) with s2. rewrite length_app. destruct (Z.leb_spec res_len (zlen a + zlen s2)).
    - rewrite Hover by lia. f_equal. lia.
    - rewrite Hput by lia. f_equal. lia. }
  destruct src1 as [s1|].
  - change (default [] (Some s1)) with s1. destruct (Z.leb_spec res_len (zlen s1)).
    + rewrite length_app. f_equal; [|lia].
      rewrite H0, <- (Z.sub_0_r res_len) at 1. change 0 with (zlen (@nil Z)) at 1.
      rewrite Hover by (cbn [length]; lia). cbn [app].
      rewrite (take_app_le s1) by lia. rewrite take_app_le by (rewrite length_app; lia). by rewrite take_app_le by lia.
    + rewrite H0, Hput by (cbn [length]; lia). cbn [app]. apply Hafter. lia.
  - change (default [] None) with (@nil Z) at 1 2. specialize (Hafter [] ltac:(cbn; lia)). cbn [app length] in *. rewrite (take_ge (zeros res_len)) in Hafter by lia. exact Hafter.
Qed.

(** [int_array_sort_unique] leaves, in the memory of the array, the same
    integers in increasing order, each once, and a zero behind them, when no
    two of them differ by more than an [int]. *)
Theorem int_array_sort_unique_exact a l : array a l -> cmp_defined l = true ->
  exists a' l', int_array_sort_unique (Some a) = Ok (Some a') /\ array a' l' /\ length a' = length a /\
    StronglySorted Z.lt l' /\ (forall x, In x l' <-> In x l).
Proof.
  intros Ha Hc. pose proof (zero_at_array a l Ha) as Hz. destruct Ha as [Hl [rest Ea]].
  unfold int_array_sort_unique. rewrite Hz. cbn [cbind]. rewrite Nat2Z.id. rewrite Ea, take_app_length, drop_app_length.
  unfold qsort. rewrite Hc. cbn [cbind]. destruct (merge_sort_le l) as [Hp Hs].
  assert (Hst : text (merge_sort Z.le l)) by (by apply (text_perm l)).
  destruct (merge_sort Z.le l) as [|x s] eqn:Es.
  - assert (l = []) as -> by (by apply Permutation_nil). clear Es.
    exists (0 :: rest), []. cbn [app length unique_loop].
    assert (R : rd (0 :: rest) 0 = Ok 0) by (by apply (rd_middle [] 0 rest)).
    assert (W : wr (0 :: rest) 0 [0] = Ok (0 :: rest)) by (by rewrite (wr_at [] (0 :: rest)) by (cbn [length]; lia)).
    rewrite R. cbn [cbind]. change (0 =? 0) with true. cbv iota. cbn [cbind]. rewrite R. cbn [cbind].
    change (negb (0 =? 0)) with false. cbv iota. rewrite W. split_and!; [done| |done|constructor|done].
    split; [constructor|by exists rest].
  - inversion Hst as [|? ? Hx Hst']; subst x0 l0.
    destruct (unique_loop_spec (length (l ++ 0 :: rest)) [] x [] s rest) as (gap & E & Hlen); [|done|done|].
    { apply Permutation_length in Hp. cbn [length] in Hp. rewrite length_app. cbn [length]. lia. }
    cbn [app length] in E. change (Z.of_nat 0) with 0 in E. change (0 + 1 + 0) with 1 in E. cbn [app].
    rewrite E. cbn [cbind].
    pose proof (unique_sorted x s Hs) as Hu. set (u := unique x s) in *.
    assert (Hut : text (x :: u)).
    { unfold text in *. rewrite List.Forall_forall in *. intros y Hy. apply Hst. by apply unique_in. }
    destruct (exists_last (l := x :: u)) as (u0 & z & Eu); [done|].
    assert (Hz0 : z <> 0) by (rewrite Eu in Hut; apply text_app in Hut as [_ Hut]; by inversion Hut).
    assert (Hi : 0 + zlen u = zlen u0).
    { apply (f_equal length) in Eu. rewrite length_app in Eu. cbn [length] in Eu. lia. }
    rewrite Hi, (app_comm_cons u), Eu, <- app_assoc. cbn [app]. rewrite rd_middle by done. cbn [cbind].
    rewrite (proj2 (Z.eqb_neq z 0)) by done. cbn [negb].
    change (u0 ++ z :: gap ++ 0 :: rest) with (u0 ++ [z] ++ gap ++ 0 :: rest). rewrite app_assoc.
    rewrite wr_at by (rewrite ?length_app; cbn [length]; lia). cbn [cbind].
    rewrite <- Eu.
    eexists _, (x :: u). split; [reflexivity|]. split_and!.
    + split; [done|]. rewrite <- app_assoc. by eexists.
    + rewrite !length_app, length_drop, length_app. apply Permutation_length in Hp. cbn [length app] in *.
      rewrite length_app in Hlen. lia.
    + done.
    + intros y. subst u. rewrite unique_in. by rewrite <- !list_elem_of_In, Hp.
Qed.

(** A list of frequency ranges is read back from its text. *)
Theorem freq_list_roundtrip l old : l <> [] -> Forall range_ok l -> zlen l * 30 < 2 ^ 32 ->
  exists buf, freq_range_list_str l [] = Ok (Some buf, []) /\
    freq_range_list_parse old (Some (c_str buf)) [] = Ok ((l, 0), []).
Proof.
  intros Hn Hok Hl. destruct l as [|r l]; [done|]. unfold freq_range_list_str.
  rewrite (proj2 (Z.eqb_neq _ 0)) by (cbn [length]; lia). rewrite (bind_ok _ _ _ true []) by done. cbn [negb].
  destruct (freq_str_loop_text (r :: l) [] (zeros (u32 (zlen (r :: l) * 30))) true Hok) as (rest & E & Hz).
  { unfold zeros. rewrite length_replicate, u32_small by lia. lia. }
  cbn [app] in E. change (zlen (@nil Z)) with 0 in E. unfold lift. rewrite E. cbn [cbind].
  eexists. split; [reflexivity|]. destruct Hz as [Hz1 Hz2]; [done|].
  destruct rest as [|c rest]; [done|]. cbn in Hz1. subst c.
  rewrite c_str_end.
  2: { apply Forall_cons in Hok as [H1 H2]. apply text_app. split; [by apply range_fmt_text|].
       clear -H2. induction H2; [constructor|]. cbn [ranges_tail flat_map]. apply text_app. split; [by apply range_fmt_text|done]. }
  unfold freq_range_list_parse. rewrite (bind_ok _ _ _ (Some (r :: l)) []); [reflexivity|].
  rewrite freq_range_loop_text; [done|done| |cbn [length] in *; lia].
  rewrite length_app. assert (length l <= length (ranges_tail l))%nat; [|lia].
  clear. induction l as [|r l IH]; [done|]. cbn [ranges_tail flat_map length]. rewrite range_fmt_comma, length_app. cbn [length].
  unfold ranges_tail in IH. lia.
Qed.

(** The calls of [str_token] on a text give its words: the parts between
    delimiters that are not empty, in order; then NULL. *)
Theorem tokens_are_words str delim : tokens str delim = Some (words delim str).
Proof. apply (token_loop_words _ str delim None). cbn [default]. lia. Qed.

(** ** Witnesses *)

Lemma int_array_sort_unique_exact_witness :
  exists a' l', int_array_sort_unique (Some [5; 3; 5; 0; 7]) = Ok (Some a') /\ array a' l' /\ length a' = 5%nat /\
    StronglySorted Z.lt l' /\ (forall x, In x l' <-> In x [5; 3; 5]).
Proof.
  refine (int_array_sort_unique_exact [5; 3; 5; 0; 7] [5; 3; 5] _ _); [|vm_compute; reflexivity].
  split; [|exists [7]; reflexivity]. repeat (constructor; [discriminate|]). constructor.
Defined.

(** "2412-2432,2462" *)
Lemma freq_list_roundtrip_witness :
  exists buf, freq_range_list_str [mkRange 2412 2432; mkRange 2462 2462] [] = Ok (Some buf, []) /\
    freq_range_list_parse [] (Some (c_str buf)) [] = Ok (([mkRange 2412 2432; mkRange 2462 2462], 0), []).
Proof.
  refine (freq_list_roundtrip [mkRange 2412 2432; mkRange 2462 2462] [] _ _ _); [discriminate| |reflexivity].
  repeat (constructor; [split; cbn; lia|]). constructor.
Defined.

End Common.
