(* ===== verification/EapCommon.v ===== *)
(** * EAP packets

    eap_common/eap_common.c and eap_common/eap_defs.h.  A received packet is the
    list of the bytes of its buffer, [None] being a NULL pointer; a packet that
    is built is a [Wpabuf.wpabuf]. *)

From S2P Require Import Prelude WpaDefs Wpabuf RsnIe EapolSm.

Module EapCommon.
Import WpaDefs Wpabuf EapolSm.

#[local] Open Scope Z_scope.
#[local] Open Scope list_scope.

(** ** eap_defs.h *)

Definition EAP_CODE_REQUEST : Z := 1.
Definition EAP_CODE_INITIATE : Z := 5.
Definition EAP_CODE_FINISH : Z := 6.
Definition EAP_ERP_TYPE_REAUTH_START : Z := 1.
Definition EAP_ERP_TYPE_REAUTH : Z := 2.
Definition EAP_ERP_TLV_KEYNAME_NAI : Z := 1.
Definition EAP_ERP_TV_RRK_LIFETIME : Z := 2.
Definition EAP_ERP_TV_RMSK_LIFETIME : Z := 3.
Definition EAP_ERP_TLV_DOMAIN_NAME : Z := 4.
Definition EAP_ERP_TLV_CRYPTOSUITES : Z := 5.
Definition EAP_ERP_TLV_AUTHORIZATION_INDICATION : Z := 6.
Definition EAP_ERP_TLV_CALLED_STATION_ID : Z := 128.
Definition EAP_ERP_TLV_CALLING_STATION_ID : Z := 129.
Definition EAP_ERP_TLV_NAS_IDENTIFIER : Z := 130.
Definition EAP_ERP_TLV_NAS_IP_ADDRESS : Z := 131.
Definition EAP_ERP_TLV_NAS_IPV6_ADDRESS : Z := 132.
Definition EAP_ERP_CS_HMAC_SHA256_128 : Z := 2.
Definition EAP_ERP_CS_HMAC_SHA256_256 : Z := 3.
Definition EAP_TYPE_NOTIFICATION : Z := 2.
Definition EAP_TYPE_NAK : Z := 3.
Definition EAP_TYPE_MD5 : Z := 4.
Definition EAP_TYPE_EXPANDED : Z := 254.
Definition EAP_VENDOR_IETF : Z := 0.
Definition EAP_EMSK_NAME_LEN : Z := 8.
Definition ERP_MAX_KEY_LEN : Z := 64.

(** ** The header *)

(** [struct eap_hdr] at the start of a packet of at least four bytes. *)
Definition eap_code (msg : list Z) : Z := at_ msg 0.
Definition eap_identifier (msg : list Z) : Z := at_ msg 1.
Definition eap_length (msg : list Z) : Z := Z.lor (Z.shiftl (at_ msg 2) 8) (at_ msg 3).

Definition eap_hdr_len_valid (msg : option (list Z)) (min_payload : Z) : bool :=
  match msg with
  | None => false
  | Some msg =>
      if zlen msg <? sizeof_eap_hdr then false
      else
        let len := eap_length msg in
        negb ((len <? sizeof_eap_hdr + min_payload) || (zlen msg <? len))
  end.

Definition WPA_GET_BE24 (a : list Z) : cres Z :=
  (x <-- rd a 0;; y <-- rd a 1;; z <-- rd a 2;;
   Ok (Z.lor (Z.lor (Z.shiftl x 16) (Z.shiftl y 8)) z))%c.

(** The payload: where it starts in the packet, and its length. *)
Definition eap_hdr_validate (vendor eap_type : Z) (msg : option (list Z)) : cres (option (Z * Z)) :=
  match msg with
  | Some m =>
      if negb (eap_hdr_len_valid msg 1) then Ok None
      else
        let len := eap_length m in
        (t <-- rd m sizeof_eap_hdr;;
         if t =? EAP_TYPE_EXPANDED then
           if len <? sizeof_eap_hdr + 8 then Ok None
           else
             exp_vendor <-- WPA_GET_BE24 (drop 5 m);;
             exp_type <-- WPA_GET_BE32 (drop 8 m);;
             if negb (exp_vendor =? vendor) || negb (exp_type =? u32 eap_type) then Ok None
             else Ok (Some (12, len - sizeof_eap_hdr - 8))
         else if negb (vendor =? EAP_VENDOR_IETF) || negb (t =? eap_type) then Ok None
         else Ok (Some (5, len - sizeof_eap_hdr - 1)))%c
  | None => Ok None
  end.

(** A buffer with the header and the type; [payload_len] more bytes fit. *)
Definition eap_msg_alloc (vendor type payload_len code identifier : Z) : M (option wpabuf) :=
  let len := sizeof_eap_hdr + (if vendor =? EAP_VENDOR_IETF then 1 else 8) + payload_len in
  let! buf := wpabuf_alloc len in
  match buf with
  | None => ret None
  | Some buf =>
      let! buf := lift (wpabuf_put_data buf ([u8 code; u8 identifier] ++ WPA_PUT_BE16 len)) in
      if vendor =? EAP_VENDOR_IETF then
        let! buf := lift (wpabuf_put_u8 buf type) in
        ret (Some buf)
      else
        let! buf := lift (wpabuf_put_u8 buf EAP_TYPE_EXPANDED) in
        let! buf := lift (wpabuf_put_be24 buf vendor) in
        let! buf := lift (wpabuf_put_be32 buf type) in
        ret (Some buf)
  end.

Definition eap_update_len (msg : wpabuf) : cres wpabuf :=
  if wpabuf_len msg <? sizeof_eap_hdr then Ok msg
  else (l <-- wr msg.(mem) 2 (WPA_PUT_BE16 (wpabuf_len msg));; Ok (msg <| mem := l |>))%c.

(** ** ERP *)

(** [struct erp_tlvs]: where in the packet, and the length. *)
Record erp_tlvs := mkTlvs { keyname : option (Z * Z); domain : option (Z * Z) }.
#[export] Instance settable_erp_tlvs : Settable erp_tlvs := fun t => mkTlvs t.(keyname) t.(domain).

Definition erp_known_tlv (t : Z) : bool :=
  existsb (Z.eqb t) [EAP_ERP_TLV_DOMAIN_NAME; EAP_ERP_TLV_KEYNAME_NAI; EAP_ERP_TLV_CRYPTOSUITES;
    EAP_ERP_TLV_AUTHORIZATION_INDICATION; EAP_ERP_TLV_CALLED_STATION_ID; EAP_ERP_TLV_CALLING_STATION_ID;
    EAP_ERP_TLV_NAS_IDENTIFIER; EAP_ERP_TLV_NAS_IP_ADDRESS; EAP_ERP_TLV_NAS_IPV6_ADDRESS].

(** What a turn of the parser does: go on at a place, or return. *)
Inductive erp_next := ErpGo (pos : Z) (tlvs : erp_tlvs) | ErpDone (res : Z) (tlvs : erp_tlvs).

Definition erp_tlv (buf : list Z) (pos end_ : Z) (tlvs : erp_tlvs) (stop_at_keyname : bool) : cres erp_next :=
  (tlv_type <-- rd buf pos;;
   let pos := pos + 1 in
   if (tlv_type =? EAP_ERP_TV_RRK_LIFETIME) || (tlv_type =? EAP_ERP_TV_RMSK_LIFETIME) then
     if end_ <? pos + 4 then Ok (ErpDone (-1) tlvs) else Ok (ErpGo (pos + 4) tlvs)
   else if erp_known_tlv tlv_type then
     if end_ <=? pos then Ok (ErpDone (-1) tlvs)
     else
       tlv_len <-- rd buf pos;;
       let pos := pos + 1 in
       if end_ - pos <? tlv_len then Ok (ErpDone (-1) tlvs)
       else if tlv_type =? EAP_ERP_TLV_KEYNAME_NAI then
         match tlvs.(keyname) with
         | Some _ => Ok (ErpDone (-1) tlvs)
         | None =>
             let tlvs := tlvs <| keyname := Some (pos, tlv_len) |> in
             if stop_at_keyname then Ok (ErpDone 0 tlvs) else Ok (ErpGo (pos + tlv_len) tlvs)
         end
       else if tlv_type =? EAP_ERP_TLV_DOMAIN_NAME then
         Ok (ErpGo (pos + tlv_len) (tlvs <| domain := Some (pos, tlv_len) |>))
       else Ok (ErpGo (pos + tlv_len) tlvs)
   else if (128 <=? tlv_type) && (tlv_type <=? 191) then
     if end_ <=? pos then Ok (ErpDone (-1) tlvs)
     else
       tlv_len <-- rd buf pos;;
       let pos := pos + 1 in
       if end_ - pos <? tlv_len then Ok (ErpDone (-1) tlvs) else Ok (ErpGo (pos + tlv_len) tlvs)
   else Ok (ErpGo end_ tlvs))%c.

(** A turn moves on by a byte at least: the number of bytes and one more are
    enough fuel. *)
Fixpoint erp_parse_loop (fuel : nat) (buf : list Z) (pos end_ : Z) (tlvs : erp_tlvs)
    (stop_at_keyname : bool) : cres (Z * erp_tlvs) :=
  if end_ <=? pos then Ok (0, tlvs)
  else
    match fuel with
    | O => Fault
    | S fuel =>
        (n <-- erp_tlv buf pos end_ tlvs stop_at_keyname;;
         match n with
         | ErpGo pos tlvs => erp_parse_loop fuel buf pos end_ tlvs stop_at_keyname
         | ErpDone res tlvs => Ok (res, tlvs)
         end)%c
    end.

(** From [pos] to [end_] in the packet [buf]. *)
Definition erp_parse_tlvs (buf : list Z) (pos end_ : Z) (stop_at_keyname : bool) : cres (Z * erp_tlvs) :=
  erp_parse_loop (Z.to_nat (end_ - pos)) buf pos end_ (mkTlvs None None) stop_at_keyname.

(** ** Lemmas: the header *)

Lemma eap_length_range msg : bytes msg -> 0 <= eap_length msg < 65536.
Proof.
  intros H. unfold eap_length. pose proof (at_byte msg 2 H) as H2. pose proof (at_byte msg 3 H) as H3.
  change 65536 with (2 ^ 16). apply lor_range; [lia| |lia].
  rewrite shiftl_mul by lia. lia.
Qed.

Lemma hdr_len_valid_spec msg min :
  eap_hdr_len_valid (Some msg) min = true -> sizeof_eap_hdr + min <= eap_length msg <= zlen msg /\ sizeof_eap_hdr <= zlen msg.
Proof.
  unfold eap_hdr_len_valid. destruct (Z.ltb_spec (zlen msg) sizeof_eap_hdr); [done|].
  destruct (Z.ltb_spec (eap_length msg) (sizeof_eap_hdr + min)); [done|].
  destruct (Z.ltb_spec (zlen msg) (eap_length msg)); [done|]. lia.
Qed.

Lemma get_be24_ok l : 3 <= zlen l -> exists v, WPA_GET_BE24 l = Ok v.
Proof. intros H. unfold WPA_GET_BE24. rewrite !rd_ok by lia. cbn. eauto. Qed.

(** What is found is the end of the packet, within the buffer. *)
Lemma hdr_validate_ok vendor t msg :
  yields (eap_hdr_validate vendor t (Some msg)) (fun r =>
    match r with
    | Some (pos, len) => 5 <= pos /\ 0 <= len /\ pos + len = eap_length msg /\ pos + len <= zlen msg
    | None => True
    end).
Proof.
  unfold eap_hdr_validate. destruct (eap_hdr_len_valid (Some msg) 1) eqn:Ev; [|by apply yields_ok].
  apply hdr_len_valid_spec in Ev as [Hl _]. unfold sizeof_eap_hdr in *. cbn [negb].
  apply yields_rd; [lia|]. destruct (_ =? EAP_TYPE_EXPANDED).
  - destruct (Z.ltb_spec (eap_length msg) (4 + 8)); [by apply yields_ok|].
    destruct (get_be24_ok (drop 5 msg)) as (v & ->); [rewrite length_drop; lia|]. cbn [cbind].
    destruct (RsnIe.get_be32_ok (drop 8 msg)) as (t' & ->); [rewrite length_drop; lia|]. cbn [cbind].
    destruct (_ || _); apply yields_ok; [done|lia].
  - destruct (_ || _); apply yields_ok; [done|lia].
Qed.

(** ** Lemmas: packets that are built *)

(** The computation returns, and its result is right. *)
Definition runs {A} (c : Wpabuf.M A) (Q : A -> Prop) : Prop :=
  forall mem, exists a mem', c mem = Ok (a, mem') /\ (length mem' <= length mem)%nat /\ Q a.

Lemma wruns_ret {A} (a : A) (Q : A -> Prop) : Q a -> runs (ret a) Q.
Proof. intros H mem. by exists a, mem. Qed.

Lemma wruns_bind {A B} (c : Wpabuf.M A) (k : A -> Wpabuf.M B) (P : A -> Prop) Q :
  runs c P -> (forall a, P a -> runs (k a) Q) -> runs (bind c k) Q.
Proof.
  intros Hc Hk mem. destruct (Hc mem) as (a & mem1 & E1 & L1 & Ha). destruct (Hk a Ha mem1) as (b & mem2 & E2 & L2 & Hb).
  exists b, mem2. split_and!; [by rewrite (bind_ok _ _ _ _ _ E1)|lia|done].
Qed.

Lemma wruns_mono {A} (c : Wpabuf.M A) (P Q : A -> Prop) : runs c P -> (forall a, P a -> Q a) -> runs c Q.
Proof. intros Hc H mem. destruct (Hc mem) as (a & mem1 & E1 & L1 & Ha). exists a, mem1. auto. Qed.

Lemma runs_malloc : runs Wpabuf.os_malloc (fun _ => True).
Proof. intros [|b mem]; do 2 eexists; (split; [reflexivity|cbn; split; [lia|done]]). Qed.

Lemma runs_put {B} b l data (k : wpabuf -> Wpabuf.M B) Q :
  holds b l -> zlen l + zlen data <= size b ->
  (forall b', holds b' (l ++ data) -> size b' = size b -> runs (k b') Q) ->
  runs (bind (Wpabuf.lift (wpabuf_put_data b data)) k) Q.
Proof.
  intros Hh Hs Hk mem. destruct (put_data_ok b l data Hh Hs) as (b' & E & Hh' & Hs').
  destruct (Hk b' Hh' Hs' mem) as (r & mem' & E' & H). exists r, mem'. by rewrite (bind_lift _ _ _ _ E).
Qed.

(** The header and the type of a packet with [payload_len] more bytes. *)
Definition eap_header (type payload_len code identifier : Z) : list Z :=
  [u8 code; u8 identifier] ++ WPA_PUT_BE16 (sizeof_eap_hdr + 1 + payload_len) ++ [u8 type].

Lemma wruns_msg_alloc type payload_len code identifier : 0 <= payload_len ->
  runs (eap_msg_alloc EAP_VENDOR_IETF type payload_len code identifier) (fun r =>
    match r with
    | Some b => holds b (eap_header type payload_len code identifier) /\ size b = 5 + payload_len
    | None => True
    end).
Proof.
  intros Hp. unfold eap_msg_alloc. cbv zeta. change (EAP_VENDOR_IETF =? EAP_VENDOR_IETF) with true. cbv iota.
  unfold sizeof_eap_hdr.
  eapply (wruns_bind _ _ (fun r => match r with Some b => holds b [] /\ size b = 5 + payload_len | None => True end)).
  - intros mem. rewrite holds_alloc by lia.
    assert (size (mkBuf (zeros (4 + 1 + payload_len)) 0) = 5 + payload_len).
    { unfold size. cbn [Wpabuf.mem]. rewrite length_zeros by lia. lia. }
    destruct mem as [|[] mem]; do 2 eexists; (split; [reflexivity|split; [cbn; lia|]]); [..|done];
      (split; [apply holds_empty|done]).
  - intros [b|] Hb; [|by apply wruns_ret]. destruct Hb as [Hh Hs].
    eapply runs_put; [exact Hh|cbn; lia|]. intros b1 H1 S1.
    eapply runs_put; [exact H1|cbn; lia|]. intros b2 H2 S2.
    apply wruns_ret. split; [|lia]. unfold eap_header, sizeof_eap_hdr. by rewrite <- !app_assoc in H2.
Qed.

(** ** Lemmas: the parser of ERP *)

Lemma erp_tlv_ok buf pos end_ tlvs stop : bytes buf -> 0 <= pos < end_ -> end_ <= zlen buf ->
  (forall k, tlvs.(keyname) = Some k -> 0 <= k.1 /\ 0 <= k.2 /\ k.1 + k.2 <= pos) ->
  yields (erp_tlv buf pos end_ tlvs stop) (fun n => match n with
    | ErpGo pos' tlvs' => pos < pos' <= end_ /\
        (forall k, tlvs'.(keyname) = Some k -> tlvs.(keyname) = Some k \/ (pos + 2 <= k.1 /\ 0 <= k.2 /\ k.1 + k.2 <= pos'))
    | ErpDone _ tlvs' =>
        forall k, tlvs'.(keyname) = Some k -> tlvs.(keyname) = Some k \/ (pos + 2 <= k.1 /\ 0 <= k.2 /\ k.1 + k.2 <= end_)
    end).
Proof.
  intros Hb Hp He Hk. unfold erp_tlv. cbv zeta. apply yields_rd; [lia|].
  assert (Hlen : 0 <= at_ buf (pos + 1)) by (pose proof (at_byte buf (pos + 1) Hb); lia).
  destruct (_ || _).
  { destruct (Z.ltb_spec end_ (pos + 1 + 4)); apply yields_ok; [auto|]. split; [lia|auto]. }
  destruct (erp_known_tlv _).
  { destruct (Z.leb_spec end_ (pos + 1)); [apply yields_ok; auto|]. apply yields_rd; [lia|].
    destruct (Z.ltb_spec (end_ - (pos + 1 + 1)) (at_ buf (pos + 1))); [apply yields_ok; auto|].
    destruct (_ =? EAP_ERP_TLV_KEYNAME_NAI).
    { destruct tlvs as [[k0|] dom]; [apply yields_ok; auto|].
      destruct stop; apply yields_ok; cbn; [intros k [= <-]; right; cbn; lia|].
      split; [lia|]. intros k [= <-]. right. cbn. lia. }
    destruct (_ =? EAP_ERP_TLV_DOMAIN_NAME); apply yields_ok; (split; [lia|auto]). }
  destruct (_ && _); [|apply yields_ok; split; [lia|auto]].
  destruct (Z.leb_spec end_ (pos + 1)); [apply yields_ok; auto|]. apply yields_rd; [lia|].
  destruct (Z.ltb_spec (end_ - (pos + 1 + 1)) (at_ buf (pos + 1))); [apply yields_ok; auto|].
  apply yields_ok. split; [lia|auto].
Qed.

Lemma erp_loop_ok fuel : forall buf start pos end_ tlvs stop, bytes buf -> 0 <= start <= pos -> end_ <= zlen buf ->
  end_ - pos <= Z.of_nat fuel ->
  (forall k, tlvs.(keyname) = Some k -> start + 2 <= k.1 /\ 0 <= k.2 /\ k.1 + k.2 <= pos) ->
  yields (erp_parse_loop fuel buf pos end_ tlvs stop) (fun r =>
    forall k, r.2.(keyname) = Some k -> start + 2 <= k.1 /\ 0 <= k.2 /\ k.1 + k.2 <= Z.max pos end_).
Proof.
  induction fuel as [|fuel IH]; intros buf start pos end_ tlvs stop Hb Hs He Hf Hk; cbn [erp_parse_loop];
    destruct (Z.leb_spec end_ pos).
  - apply yields_ok. intros k E. destruct (Hk k E). lia.
  - lia.
  - apply yields_ok. intros k E. destruct (Hk k E). lia.
  - eapply yields_bind; [apply (erp_tlv_ok buf pos end_ tlvs stop); [done|lia|done|]|].
    { intros k E. destruct (Hk k E). lia. }
    intros [pos' tlvs'|res tlvs'] Hn.
    + destruct Hn as [Hp Hn]. eapply yields_mono; [apply (IH buf start); [done|lia|done|lia|]|].
      { intros k E. destruct (Hn k E) as [E'|]; [destruct (Hk k E')|]; lia. }
      intros r Hr k E. destruct (Hr k E). lia.
    + apply yields_ok. intros k E. destruct (Hn k E) as [E'|]; [destruct (Hk k E')|]; lia.
Qed.

(** The parser returns on every input, and the name of the key it finds lies
    between its bounds. *)
Lemma erp_parse_ok buf pos end_ stop : bytes buf -> 0 <= pos -> end_ <= zlen buf ->
  yields (erp_parse_tlvs buf pos end_ stop) (fun r =>
    forall k, r.2.(keyname) = Some k -> pos + 2 <= k.1 /\ 0 <= k.2 /\ k.1 + k.2 <= Z.max pos end_).
Proof. intros Hb Hp He. unfold erp_parse_tlvs. apply erp_loop_ok; [done|lia|done|lia|done]. Qed.

End EapCommon.
