(* ===== verification/EapServer.v ===== *)
(** * The EAP server

    eap_server/eap_server.c and eap_server/eap_i.h: the full authenticator of
    RFC 4137, with its backend (pass-through) half and ERP.  The methods are
    records of operations, as in C, on private data of the type [P]; the
    callbacks into hostapd are the class [EapHost].  The interface shared with
    the 802.1X machines is that of [EapolSm]. *)

From Stdlib Require Import String.
From S2P Require Import Prelude WpaDefs Wpabuf Codec EapolSm EapCommon.

Module EapServer.
Import WpaDefs Wpabuf EapolSm EapCommon.

#[local] Open Scope Z_scope.
#[local] Open Scope list_scope.

(** ** Data *)

Inductive eap_st :=
| EAP_DISABLED | EAP_INITIALIZE | EAP_IDLE | EAP_RECEIVED | EAP_INTEGRITY_CHECK | EAP_METHOD_RESPONSE
| EAP_METHOD_REQUEST | EAP_PROPOSE_METHOD | EAP_SELECT_ACTION | EAP_SEND_REQUEST | EAP_DISCARD | EAP_NAK
| EAP_RETRANSMIT | EAP_SUCCESS | EAP_FAILURE | EAP_TIMEOUT_FAILURE | EAP_PICK_UP_METHOD
| EAP_INITIALIZE_PASSTHROUGH | EAP_IDLE2 | EAP_RETRANSMIT2 | EAP_RECEIVED2 | EAP_DISCARD2
| EAP_SEND_REQUEST2 | EAP_AAA_REQUEST | EAP_AAA_RESPONSE | EAP_AAA_IDLE | EAP_TIMEOUT_FAILURE2
| EAP_FAILURE2 | EAP_SUCCESS2 | EAP_INITIATE_REAUTH_START | EAP_INITIATE_RECEIVED.
#[export] Instance eap_st_eq_dec : EqDecision eap_st.
Proof. solve_decision. Defined.

Inductive method_st := METHOD_PROPOSED | METHOD_CONTINUE | METHOD_END.
#[export] Instance method_st_eq_dec : EqDecision method_st.
Proof. solve_decision. Defined.

Inductive decision_st :=
| DECISION_SUCCESS | DECISION_FAILURE | DECISION_CONTINUE | DECISION_PASSTHROUGH | DECISION_INITIATE_REAUTH_START.
#[export] Instance decision_st_eq_dec : EqDecision decision_st.
Proof. solve_decision. Defined.

Inductive pending_st := METHOD_PENDING_NONE | METHOD_PENDING_WAIT | METHOD_PENDING_CONT.
#[export] Instance pending_st_eq_dec : EqDecision pending_st.
Proof. solve_decision. Defined.

Definition EAP_MAX_METHODS : Z := 8.

(** [struct eap_user]: what the state machine and the methods modelled use. *)
Record eap_user := mkUser {
  methods : list (Z * Z);  (* vendor and method, EAP_MAX_METHODS of them *)
  password : option (list Z);
  password_hash : bool;
  phase2 : bool
}.
#[export] Instance settable_user : Settable eap_user := fun u =>
  mkUser u.(methods) u.(password) u.(password_hash) u.(phase2).

(** [struct eap_server_erp_key] *)
Record eap_server_erp_key := mkErp {
  rRK : list Z; rIK : list Z; recv_seq : Z; cryptosuite : Z; keyname_nai : list Z
}.
#[export] Instance settable_erp_key : Settable eap_server_erp_key := fun k =>
  mkErp k.(rRK) k.(rIK) k.(recv_seq) k.(cryptosuite) k.(keyname_nai).

(** [struct eap_config] *)
Record eap_config := mkConfig {
  backend_auth : bool; eap_server : bool; erp : bool;
  max_auth_rounds : Z; max_auth_rounds_short : Z
}.

(** The members of [struct eap_sm] the methods change. *)
Record shared := mkShared {
  identity : option (list Z);
  user : option eap_user;
  user_eap_method_index : Z;
  update_user : bool;
  method_pending : pending_st
}.
#[export] Instance settable_shared : Settable shared := fun s =>
  mkShared s.(identity) s.(user) s.(user_eap_method_index) s.(update_user) s.(method_pending).

(** The members of [struct eap_eapol_interface] that only the AAA interface and
    the keys use. *)
Record aaa_interface := mkAaa {
  eapKeyData : option (list Z);
  eapSessionId : option (list Z);
  aaaEapReq : bool;
  aaaEapNoReq : bool;
  aaaSuccess : bool;
  aaaFail : bool;
  aaaEapReqData : option (list Z);
  aaaEapKeyData : option (list Z);
  aaaEapKeyAvailable : bool;
  aaaMethodTimeout : Z;
  aaaTimeout : bool
}.
#[export] Instance settable_aaa : Settable aaa_interface := fun i =>
  mkAaa i.(eapKeyData) i.(eapSessionId) i.(aaaEapReq) i.(aaaEapNoReq) i.(aaaSuccess) i.(aaaFail)
    i.(aaaEapReqData) i.(aaaEapKeyData) i.(aaaEapKeyAvailable) i.(aaaMethodTimeout) i.(aaaTimeout).

(** The messages [wpa_msg] puts out. *)
Inductive message :=
| WPA_EVENT_EAP_STARTED
| WPA_EVENT_EAP_PROPOSED_METHOD (vendor method : Z)
| WPA_EVENT_EAP_RETRANSMIT
| WPA_EVENT_EAP_RETRANSMIT2
| WPA_EVENT_EAP_TIMEOUT_FAILURE
| WPA_EVENT_EAP_TIMEOUT_FAILURE2
| WPA_EVENT_EAP_FAILURE
| WPA_EVENT_EAP_FAILURE2
| WPA_EVENT_EAP_SUCCESS
| WPA_EVENT_EAP_SUCCESS2.

(** The callbacks of [struct eapol_callbacks], and the random generators.  An
    ERP key is found by its name and changed through its pointer
    ([erp_write_key]); a result [None] is the result -1. *)
Class EapHost (env : Type) := {
  get_eap_user : list Z -> bool -> env -> option eap_user * env;
  get_eap_req_id_text : env -> option (list Z);
  get_erp_send_reauth_start : env -> bool;
  get_erp_domain : env -> option (list Z);
  erp_get_key : list Z -> env -> option eap_server_erp_key;
  erp_write_key : eap_server_erp_key -> env -> env;
  erp_add_key : eap_server_erp_key -> env -> bool * env;
  rand : env -> Z * env;
  random_get_bytes : Z -> env -> option (list Z) * env
}.

(** crypto/sha256.h; a result [None] is a failure. *)
Class Sha256 := {
  hmac_sha256 : list Z -> list Z -> option (list Z);
  hmac_sha256_kdf : list Z -> string -> list Z -> Z -> option (list Z)
}.

(** ** Computations *)

(** What a method works on. *)
Record method_world (env : Type) := mkMethodWorld { sh : shared; msurr : env; mmem : list bool }.
Arguments mkMethodWorld {env} _ _ _.
Arguments sh {env} _.
Arguments msurr {env} _.
Arguments mmem {env} _.

Definition MM (env A : Type) : Type := method_world env -> cres (A * method_world env).

#[export] Instance MM_ret {env} : MRet (MM env) := fun A a w => Ok (a, w).
#[export] Instance MM_bind {env} : MBind (MM env) := fun A B f m w =>
  match m w with Ok (a, w) => f a w | Fault => Fault end.

(** [struct eap_method]; an operation that is NULL is [None]. *)
Record eap_method (env P : Type) := mkMethod {
  m_vendor : Z;
  m_method : Z;
  m_init : MM env (option P);
  m_initPickUp : option (MM env (option P));
  m_reset : P -> MM env unit;
  m_buildReq : P -> Z -> MM env (P * option (list Z));
  m_getTimeout : option (P -> Z);
  m_check : option (P -> option (list Z) -> cres bool);
  m_process : P -> option (list Z) -> MM env P;
  m_isDone : P -> bool;
  m_getKey : option (P -> MM env (option (list Z)));
  m_isSuccess : P -> bool;
  m_get_emsk : option (P -> MM env (option (list Z)));
  m_getSessionId : option (P -> MM env (option (list Z)))
}.
Arguments m_vendor {env P} _.
Arguments m_method {env P} _.
Arguments m_init {env P} _.
Arguments m_initPickUp {env P} _.
Arguments m_reset {env P} _ _.
Arguments m_buildReq {env P} _ _ _.
Arguments m_getTimeout {env P} _.
Arguments m_check {env P} _.
Arguments m_process {env P} _ _ _.
Arguments m_isDone {env P} _ _.
Arguments m_getKey {env P} _.
Arguments m_isSuccess {env P} _ _.
Arguments m_get_emsk {env P} _.
Arguments m_getSessionId {env P} _.

(** [struct eap_sm] *)
Record eap_sm (env P : Type) := mkEap {
  EAP_state : eap_st;
  MaxRetrans : Z;
  eap_if : eap_eapol_interface;
  aaa : aaa_interface;
  currentMethod : Z;
  currentId : Z;
  methodState : method_st;
  retransCount : Z;
  lastReqData : option (list Z);
  methodTimeout : Z;
  rxResp : bool;
  rxInitiate : bool;
  respId : Z;
  respMethod : Z;
  respVendor : Z;
  respVendorMethod : Z;
  ignore : bool;
  decision : decision_st;
  m : option (eap_method env P);
  changed : bool;
  eap_method_priv : option P;
  shr : shared;
  lastId : Z;
  num_rounds : Z;
  num_rounds_short : Z;
  start_reauth : bool;
  initiate_reauth_start_sent : bool;
  try_initiate_reauth : bool
}.
Arguments mkEap {env P}.
Arguments EAP_state {env P} _.
Arguments MaxRetrans {env P} _.
Arguments eap_if {env P} _.
Arguments aaa {env P} _.
Arguments currentMethod {env P} _.
Arguments currentId {env P} _.
Arguments methodState {env P} _.
Arguments retransCount {env P} _.
Arguments lastReqData {env P} _.
Arguments methodTimeout {env P} _.
Arguments rxResp {env P} _.
Arguments rxInitiate {env P} _.
Arguments respId {env P} _.
Arguments respMethod {env P} _.
Arguments respVendor {env P} _.
Arguments respVendorMethod {env P} _.
Arguments ignore {env P} _.
Arguments decision {env P} _.
Arguments m {env P} _.
Arguments changed {env P} _.
Arguments eap_method_priv {env P} _.
Arguments shr {env P} _.
Arguments lastId {env P} _.
Arguments num_rounds {env P} _.
Arguments num_rounds_short {env P} _.
Arguments start_reauth {env P} _.
Arguments initiate_reauth_start_sent {env P} _.
Arguments try_initiate_reauth {env P} _.

#[export] Instance settable_eap_sm {env P} : Settable (eap_sm env P) := fun s =>
  mkEap s.(EAP_state) s.(MaxRetrans) s.(eap_if) s.(aaa) s.(currentMethod) s.(currentId) s.(methodState)
    s.(retransCount) s.(lastReqData) s.(methodTimeout) s.(rxResp) s.(rxInitiate) s.(respId) s.(respMethod)
    s.(respVendor) s.(respVendorMethod) s.(ignore) s.(decision) s.(m) s.(changed) s.(eap_method_priv)
    s.(shr) s.(lastId) s.(num_rounds) s.(num_rounds_short) s.(start_reauth)
    s.(initiate_reauth_start_sent) s.(try_initiate_reauth).

(** The machine, its surroundings, the outcomes of the allocations to come, and
    the messages so far. *)
Record server (env P : Type) := mkServer {
  esm : eap_sm env P; host : env; mem : list bool; messages : list message
}.
Arguments mkServer {env P} _ _ _ _.
Arguments esm {env P} _.
Arguments host {env P} _.
Arguments mem {env P} _.
Arguments messages {env P} _.
#[export] Instance settable_server {env P} : Settable (server env P) := fun w =>
  mkServer w.(esm) w.(host) w.(mem) w.(messages).

Definition E (env P A : Type) : Type := server env P -> cres (A * server env P).

#[export] Instance E_ret {env P} : MRet (E env P) := fun A a w => Ok (a, w).
#[export] Instance E_bind {env P} : MBind (E env P) := fun A B f m w =>
  match m w with Ok (a, w) => f a w | Fault => Fault end.

Section machine.
Context {env P : Type} `{HH : !EapHost env} `{HS : !Sha256}.
(** [sm->cfg], and the list of the registered methods (eap_server_methods.c). *)
Context (cfg : eap_config) (eap_methods : list (eap_method env P)).

Abbreviation sm := (eap_sm env P).
Abbreviation E := (E env P).

Definition gets {A} (f : server env P -> A) : E A := fun w => Ok (f w, w).
Definition the {A} (f : sm -> A) : E A := gets (fun w => f w.(esm)).
Definition upd (f : sm -> sm) : E unit := fun w => Ok (tt, w <| esm := f w.(esm) |>).
Definition upd_if (f : eap_eapol_interface -> eap_eapol_interface) : E unit :=
  upd (fun s => s <| eap_if := f s.(eap_if) |>).
Definition upd_aaa (f : aaa_interface -> aaa_interface) : E unit := upd (fun s => s <| aaa := f s.(aaa) |>).
Definition upd_shr (f : shared -> shared) : E unit := upd (fun s => s <| shr := f s.(shr) |>).
Definition wpa_msg (e : message) : E unit := fun w => Ok (tt, w <| messages := w.(messages) ++ [e] |>).
Definition lift {A} (c : cres A) : E A := fun w => match c with Ok a => Ok (a, w) | Fault => Fault end.
Definition skip : E unit := mret tt.
Definition when (b : bool) (c : E unit) : E unit := if b then c else skip.

(** A computation that allocates. *)
Definition alloc {A} (c : Wpabuf.M A) : E A := fun w =>
  match c w.(mem) with Ok (a, mem') => Ok (a, w <| mem := mem' |>) | Fault => Fault end.
Definition malloc : E bool := alloc Wpabuf.os_malloc.

(** A callback, and one that changes what is behind it. *)
Definition ask {A} (f : env -> A * env) : E A := fun w =>
  let r := f w.(host) in Ok (r.1, w <| host := r.2 |>).

(** A method works on its part of the machine. *)
Definition run_method {A} (c : MM env A) : E A := fun w =>
  match c (mkMethodWorld w.(esm).(shr) w.(host) w.(mem)) with
  | Ok (a, mw) => Ok (a, w <| esm := w.(esm) <| shr := mw.(sh) |> |> <| host := mw.(msurr) |> <| mem := mw.(mmem) |>)
  | Fault => Fault
  end.

(** [sm->m], which is dereferenced, and [sm->eap_method_priv], which the method
    dereferences. *)
Definition the_method : E (eap_method env P) :=
  o ← the (fun s => s.(m)); match o with Some x => mret x | None => lift Fault end.
Definition the_priv : E P :=
  o ← the (fun s => s.(eap_method_priv)); match o with Some x => mret x | None => lift Fault end.

(** [SM_ENTRY] *)
Definition enter (st : eap_st) (global : bool) : E unit :=
  upd (fun s => (if negb global || negb (bool_decide (s.(EAP_state) = st)) then s <| changed := true |> else s)
                 <| EAP_state := st |>).

(** ** Helpers *)

(** [eap_copy_buf]: the destination afterwards, and whether the result is 0. *)
Definition eap_copy_buf (dst src : option (list Z)) : E (option (list Z) * bool) :=
  match src with
  | None => mret (dst, false)
  | Some d => ok ← malloc; mret (if (ok : bool) then (Some d, true) else (@None (list Z), false))
  end.
Definition eap_copy_data (dst src : option (list Z)) : E (option (list Z) * bool) := eap_copy_buf dst src.

(** [eap_user_get]: whether the result is 0. *)
Definition eap_user_get (ident : list Z) (ph2 : bool) : E bool :=
  upd_shr (fun s => s <| user := None |>) ;;
  ok ← malloc;
  if negb ok then mret false
  else
    u ← ask (get_eap_user ident ph2);
    match u with
    | None => mret false
    | Some u =>
        upd_shr (fun s => s <| user := Some u |> <| user_eap_method_index := 0 |>) ;; mret true
    end.

Definition eap_server_clear_identity : E unit := upd_shr (fun s => s <| identity := None |>).

Fixpoint rto_loop (n : nat) (rto : Z) : Z :=
  match n with
  | O => rto
  | S n => let rto := rto * 2 in if 20 <=? rto then 20 else rto_loop n rto
  end.

Definition eap_sm_calculateTimeout (s : sm) : Z :=
  if s.(try_initiate_reauth) then 1
  else if negb (s.(methodTimeout) =? 0) then s.(methodTimeout)
  else rto_loop (Z.to_nat s.(retransCount)) 3.

(** What the parser sets first. *)
Definition no_resp (s : sm) : sm :=
  s <| rxResp := false |> <| rxInitiate := false |> <| respId := -1 |> <| respMethod := EAP_TYPE_NONE |>
    <| respVendor := EAP_VENDOR_IETF |> <| respVendorMethod := EAP_TYPE_NONE |>.

Definition eap_sm_parseEapResp (resp : option (list Z)) : E unit :=
  upd no_resp ;;
  match resp with
  | None => skip
  | Some d =>
      if zlen d <? sizeof_eap_hdr then skip
      else
        let plen := eap_length d in
        if zlen d <? plen then skip
        else
          upd (fun s => s <| respId := eap_identifier d |>) ;;
          (if eap_code d =? EAP_CODE_RESPONSE then upd (fun s => s <| rxResp := true |>)
           else if eap_code d =? EAP_CODE_INITIATE then upd (fun s => s <| rxInitiate := true |>)
           else skip) ;;
          when (sizeof_eap_hdr <? plen)
            (t ← lift (rd d 4);
             upd (fun s => s <| respMethod := t |>) ;;
             when ((t =? EAP_TYPE_EXPANDED) && negb (plen <? sizeof_eap_hdr + 8))
               (v ← lift (WPA_GET_BE24 (drop 5 d));
                vm ← lift (WPA_GET_BE32 (drop 8 d));
                upd (fun s => s <| respVendor := v |> <| respVendorMethod := vm |>)))
  end.

Definition eap_sm_getId (data : option (list Z)) : Z :=
  match data with
  | Some d => if zlen d <? sizeof_eap_hdr then -1 else eap_identifier d
  | None => -1
  end.

(** [eap_sm_buildSuccess], [eap_sm_buildFailure] *)
Definition build_result (code id : Z) : E (option (list Z)) :=
  ok ← malloc;
  mret (if (ok : bool) then Some ([code; u8 id] ++ WPA_PUT_BE16 sizeof_eap_hdr) else None).
Definition eap_sm_buildSuccess (id : Z) : E (option (list Z)) := build_result EAP_CODE_SUCCESS id.
Definition eap_sm_buildFailure (id : Z) : E (option (list Z)) := build_result EAP_CODE_FAILURE id.

Definition eap_sm_nextId (id : Z) : E Z :=
  if id <? 0 then
    r ← ask rand;
    let id := Z.land r 0xff in
    last ← the (fun s => s.(lastId));
    mret (if negb (id =? last) then id else Z.land (id + 1) 0xff)
  else mret (Z.land (id + 1) 0xff).

(** The packet with the domain name; [None] when the allocation fails. *)
Definition reauth_start (dom : option (list Z)) (id : Z) : Wpabuf.M (option (list Z)) :=
  let plen := 1 + match dom with Some d => 2 + zlen d | None => 0 end in
  let! msg := eap_msg_alloc EAP_VENDOR_IETF EAP_ERP_TYPE_REAUTH_START plen EAP_CODE_INITIATE id in
  match msg with
  | None => ret None
  | Some msg =>
      let! msg := Wpabuf.lift (wpabuf_put_u8 msg 0) in
      match dom with
      | None => ret (Some (wpabuf_head msg))
      | Some d =>
          let! msg := Wpabuf.lift (wpabuf_put_u8 msg EAP_ERP_TLV_DOMAIN_NAME) in
          let! msg := Wpabuf.lift (wpabuf_put_u8 msg (zlen d)) in
          let! msg := Wpabuf.lift (wpabuf_put_data msg d) in
          ret (Some (wpabuf_head msg))
      end
  end.

Definition eap_sm_buildInitiateReauthStart (id : Z) : E (option (list Z)) :=
  dom ← gets (fun w => get_erp_domain w.(host));
  alloc (reauth_start dom id).

(** ** The policy *)

(** [methods[i]]: vendor and method. *)
Definition method_at (u : eap_user) (i : Z) : Z * Z := nth (Z.to_nat i) u.(methods) (0, 0).
Definition no_method (vm : Z * Z) : bool := (vm.1 =? EAP_VENDOR_IETF) && (vm.2 =? EAP_TYPE_NONE).

(** [os_memmove] of what is behind [i] to [i], and an empty last entry. *)
Definition remove_method (i : Z) (l : list (Z * Z)) : list (Z * Z) :=
  take (Z.to_nat i) l ++ drop (Z.to_nat i + 1) l ++ [(EAP_VENDOR_IETF, EAP_TYPE_NONE)].

(** The loop of [eap_sm_process_nak]; each turn is done with one of the entries,
    so that their number is enough fuel. *)
Fixpoint nak_loop (fuel : nat) (nak_list : list Z) (i : Z) (l : list (Z * Z)) : cres (list (Z * Z)) :=
  if (i <? EAP_MAX_METHODS) && negb (no_method (nth (Z.to_nat i) l (0, 0))) then
    match fuel with
    | O => Fault
    | S fuel =>
        let vm := nth (Z.to_nat i) l (0, 0) in
        if (vm.1 =? EAP_VENDOR_IETF) && existsb (fun n => n =? vm.2) nak_list
        then nak_loop fuel nak_list (i + 1) l
        else nak_loop fuel nak_list i (remove_method i l)
    end
  else Ok l.

Definition eap_sm_process_nak (nak_list : list Z) : E unit :=
  s ← the (fun s => s.(shr));
  match s.(user) with
  | None => skip
  | Some u =>
      l ← lift (nak_loop (Z.to_nat EAP_MAX_METHODS) nak_list s.(user_eap_method_index) u.(methods));
      upd_shr (fun s => s <| user := Some (u <| methods := l |>) |>)
  end.

Definition eap_sm_Policy_update (nak_list : option (list Z)) : E unit :=
  s ← the (fun s => s.(shr));
  match nak_list, s.(user) with
  | Some l, Some u =>
      if u.(phase2) then upd (fun s => s <| decision := DECISION_FAILURE |>) else eap_sm_process_nak l
  | _, _ => skip
  end.

(** Vendor and type. *)
Definition eap_sm_Policy_getNextMethod : E (Z * Z) :=
  s ← the id;
  let idx := s.(shr).(user_eap_method_index) in
  match s.(shr).(identity), s.(shr).(user) with
  | None, _ => upd_shr (fun s => s <| update_user := true |>) ;; mret (EAP_VENDOR_IETF, EAP_TYPE_IDENTITY)
  | Some _, user =>
      if s.(currentId) =? -1 then
        upd_shr (fun s => s <| update_user := true |>) ;; mret (EAP_VENDOR_IETF, EAP_TYPE_IDENTITY)
      else
        match user with
        | Some u =>
            if (idx <? EAP_MAX_METHODS) && negb (no_method (method_at u idx)) then
              upd_shr (fun s => s <| user_eap_method_index := idx + 1 |>) ;; mret (method_at u idx)
            else mret (EAP_VENDOR_IETF, EAP_TYPE_NONE)
        | None => mret (EAP_VENDOR_IETF, EAP_TYPE_NONE)
        end
  end.

(** The user asks for an identity first. *)
Definition wants_identity (u : option eap_user) : bool :=
  match u with
  | Some u => bool_decide (method_at u 0 = (EAP_VENDOR_IETF, EAP_TYPE_IDENTITY))
  | None => false
  end.

(** The part of the decision behind the look-up of the user. *)
Definition decide_next : E decision_st :=
  upd (fun s => s <| start_reauth := false |>) ;;
  s ← the id;
  let i := s.(shr) in
  if match i.(user) with
     | Some u => (i.(user_eap_method_index) <? EAP_MAX_METHODS) &&
                 negb (no_method (method_at u i.(user_eap_method_index)))
     | None => false
     end then mret DECISION_CONTINUE
  else
    start ← gets (fun w => get_erp_send_reauth_start w.(host));
    let known := bool_decide (is_Some i.(identity)) in
    if negb known && start && negb s.(initiate_reauth_start_sent) then mret DECISION_INITIATE_REAUTH_START
    else if negb known || (s.(currentId) =? -1) then mret DECISION_CONTINUE
    else mret DECISION_FAILURE.

(** The look-up of the user, when it is due: [false] is a failure. *)
Definition decide_user : E bool :=
  s ← the id;
  let i := s.(shr) in
  match i.(identity) with
  | Some ident =>
      if (bool_decide (i.(user) = None) || i.(update_user)) && negb s.(start_reauth) then
        let id_req := (s.(currentMethod) =? EAP_TYPE_IDENTITY) && wants_identity i.(user) in
        ok ← eap_user_get ident false;
        if negb ok then mret false
        else
          u ← the (fun s => s.(shr).(user));
          if id_req && wants_identity u then
            upd_shr (fun s => s <| update_user := true |>) ;; mret false
          else upd_shr (fun s => s <| update_user := false |>) ;; mret true
      else mret true
  | None => mret true
  end.

Definition eap_sm_Policy_getDecision : E decision_st :=
  s ← the id;
  if negb cfg.(eap_server) && bool_decide (is_Some s.(shr).(identity)) && negb s.(start_reauth)
  then mret DECISION_PASSTHROUGH
  else
    done ←
      match s.(m) with
      | None => mret None
      | Some x =>
          p ← the_priv;
          mret (if negb (s.(currentMethod) =? EAP_TYPE_IDENTITY) && m_isSuccess x p
                then Some DECISION_SUCCESS
                else if m_isDone x p && negb (m_isSuccess x p) then Some DECISION_FAILURE
                else None)
      end;
    match done with
    | Some d => upd_shr (fun s => s <| update_user := true |>) ;; mret d
    | None =>
        ok ← decide_user;
        if negb ok then mret DECISION_FAILURE else decide_next
    end.

Definition eap_sm_Policy_doPickUp (method : Z) : bool := method =? EAP_TYPE_IDENTITY.

(** eap_server_methods.c *)
Definition eap_server_get_eap_method (vendor method : Z) : option (eap_method env P) :=
  List.find (fun x => (m_vendor x =? vendor) && (m_method x =? method)) eap_methods.

(** [sm->m->reset(sm, sm->eap_method_priv)], when there is something to reset. *)
Definition reset_method : E unit :=
  s ← the id;
  match s.(m), s.(eap_method_priv) with
  | Some x, Some p => run_method (m_reset x p) ;; upd (fun s => s <| eap_method_priv := None |>)
  | _, _ => skip
  end.

(** ** ERP keys *)

Definition ERP_RRK_LABEL : string := "EAP Re-authentication Root Key@ietf.org".
Definition ERP_RIK_LABEL : string := "Re-authentication Integrity Key@ietf.org".
Definition ERP_RMSK_LABEL : string := "Re-authentication Master Session Key@ietf.org".

(** The name of the key: sixteen hexadecimal digits, an at sign and the domain. *)
Definition erp_keyname (emskname dom : list Z) : list Z :=
  flat_map (Codec.fmt_02x false) emskname ++ [64] ++ dom.

(** The keys derived from the EMSK; a result [None] is a failed derivation. *)
Definition erp_keys (emsk session_id dom : list Z) : option eap_server_erp_key :=
  match hmac_sha256_kdf session_id "EMSK" (WPA_PUT_BE16 EAP_EMSK_NAME_LEN) EAP_EMSK_NAME_LEN with
  | None => None
  | Some emskname =>
      match hmac_sha256_kdf emsk ERP_RRK_LABEL (WPA_PUT_BE16 (zlen emsk)) (zlen emsk) with
      | None => None
      | Some rrk =>
          match hmac_sha256_kdf rrk ERP_RIK_LABEL ([EAP_ERP_CS_HMAC_SHA256_128] ++ WPA_PUT_BE16 (zlen emsk)) (zlen emsk) with
          | None => None
          | Some rik => Some (mkErp rrk rik (2 ^ 32 - 1) 0 (erp_keyname emskname dom))
          end
      end
  end.

Definition eap_server_erp_init : E unit :=
  dom ← gets (fun w => get_erp_domain w.(host));
  match dom with
  | None => skip
  | Some dom =>
      if 253 <? 2 * EAP_EMSK_NAME_LEN + 1 + zlen dom then skip
      else
        ok ← malloc;
        if negb ok then skip
        else
          x ← the_method;
          p ← the_priv;
          match m_get_emsk x with
          | None => lift Fault
          | Some get =>
              emsk ← run_method (get p);
              sid ← the (fun s => s.(aaa).(eapSessionId));
              match emsk, sid with
              | Some emsk, Some sid =>
                  if (zlen emsk =? 0) || (ERP_MAX_KEY_LEN <? zlen emsk) then skip
                  else
                    match erp_keys emsk sid dom with
                    | Some k => _ ← ask (erp_add_key k); skip
                    | None => skip
                    end
              | _, _ => skip
              end
          end
  end.

(** ** States *)

Definition sm_EAP_DISABLED_Enter (global : bool) : E unit :=
  enter EAP_DISABLED global ;;
  upd (fun s => s <| num_rounds := 0 |> <| num_rounds_short := 0 |>).

Definition sm_EAP_INITIALIZE_Enter (global : bool) : E unit :=
  enter EAP_INITIALIZE global ;;
  s ← the id;
  when (s.(eap_if).(eapRestart) && negb cfg.(eap_server) && bool_decide (is_Some s.(shr).(identity)))
    eap_server_clear_identity ;;
  upd (fun s => s <| try_initiate_reauth := false |> <| currentId := -1 |>) ;;
  upd_if (fun i => i <| eapSuccess := false |> <| eapFail := false |> <| eapTimeout := false |>) ;;
  upd_aaa (fun a => a <| eapKeyData := None |> <| eapSessionId := None |>) ;;
  upd_if (fun i => i <| eapKeyAvailable := false |> <| eapRestart := false |>) ;;
  reset_method ;;
  upd (fun s => s <| m := None |>) ;;
  upd_shr (fun s => s <| user_eap_method_index := 0 |>) ;;
  when cfg.(backend_auth)
    (upd (fun s => s <| currentMethod := EAP_TYPE_NONE |>) ;;
     d ← the (fun s => s.(eap_if).(eapRespData));
     eap_sm_parseEapResp d ;;
     upd (fun s => if s.(rxResp) then s <| currentId := s.(respId) |> else s)) ;;
  upd (fun s => s <| num_rounds := 0 |> <| num_rounds_short := 0 |>) ;;
  upd_shr (fun s => s <| method_pending := METHOD_PENDING_NONE |>) ;;
  wpa_msg WPA_EVENT_EAP_STARTED.

Definition no_current_method : E unit := upd (fun s => s <| m := None |> <| currentMethod := EAP_TYPE_NONE |>).

Definition sm_EAP_PICK_UP_METHOD_Enter (global : bool) : E unit :=
  enter EAP_PICK_UP_METHOD global ;;
  resp ← the (fun s => s.(respMethod));
  when (eap_sm_Policy_doPickUp resp)
    (upd (fun s => s <| currentMethod := resp |>) ;;
     reset_method ;;
     let x := eap_server_get_eap_method EAP_VENDOR_IETF resp in
     upd (fun s => s <| m := x |>) ;;
     match x with
     | Some x =>
         match m_initPickUp x with
         | Some init =>
             p ← run_method init;
             upd (fun s => s <| eap_method_priv := p |>) ;;
             when (bool_decide (p = None :> option P)) no_current_method
         | None => no_current_method
         end
     | None => no_current_method
     end) ;;
  cur ← the (fun s => s.(currentMethod));
  wpa_msg (WPA_EVENT_EAP_PROPOSED_METHOD EAP_VENDOR_IETF cur).

Definition set_retransWhile : E unit :=
  upd (fun s => s <| eap_if := s.(eap_if) <| retransWhile := eap_sm_calculateTimeout s |> |>).

Definition sm_EAP_IDLE_Enter (global : bool) : E unit := enter EAP_IDLE global ;; set_retransWhile.

(** [RETRANSMIT] and [RETRANSMIT2]: the same but for the message. *)
Definition retransmit : E unit :=
  upd (fun s => s <| retransCount := s.(retransCount) + 1 |>) ;;
  s ← the id;
  when ((s.(retransCount) <=? s.(MaxRetrans)) && bool_decide (is_Some s.(lastReqData)))
    (r ← eap_copy_buf s.(eap_if).(eapReqData) s.(lastReqData);
     upd_if (fun i => i <| eapReqData := r.1 |>) ;;
     when r.2 (upd_if (fun i => i <| eapReq := true |>))).

Definition sm_EAP_RETRANSMIT_Enter (global : bool) : E unit :=
  enter EAP_RETRANSMIT global ;; retransmit ;; wpa_msg WPA_EVENT_EAP_RETRANSMIT.

Definition sm_EAP_RECEIVED_Enter (global : bool) : E unit :=
  enter EAP_RECEIVED global ;;
  d ← the (fun s => s.(eap_if).(eapRespData));
  eap_sm_parseEapResp d ;;
  upd (fun s => s <| num_rounds := u32 (s.(num_rounds) + 1) |>
                  <| num_rounds_short :=
                       (if match d with Some d => zlen d <? 20 | None => true end
                        then u32 (s.(num_rounds_short) + 1) else 0) |>).

Definition sm_EAP_DISCARD_Enter (global : bool) : E unit :=
  enter EAP_DISCARD global ;;
  upd_if (fun i => i <| eapResp := false |> <| eapNoReq := true |>).

(** The end of [SEND_REQUEST] and [SEND_REQUEST2]. *)
Definition send_request : E unit :=
  s ← the id;
  match s.(eap_if).(eapReqData) with
  | Some d =>
      r ← eap_copy_buf s.(lastReqData) (Some d);
      upd (fun s => s <| lastReqData := r.1 |>) ;;
      upd_if (fun i => i <| eapResp := false |> <| eapReq := r.2 |>)
  | None => upd_if (fun i => i <| eapResp := false |> <| eapReq := false |> <| eapNoReq := true |>)
  end.

Definition sm_EAP_SEND_REQUEST_Enter (global : bool) : E unit :=
  enter EAP_SEND_REQUEST global ;;
  upd (fun s => s <| retransCount := 0 |>) ;;
  d ← the (fun s => s.(eap_if).(eapReqData));
  when (match d with Some d => 20 <=? zlen d | None => false end)
    (upd (fun s => s <| num_rounds_short := 0 |>)) ;;
  send_request.

Definition sm_EAP_INTEGRITY_CHECK_Enter (global : bool) : E unit :=
  enter EAP_INTEGRITY_CHECK global ;;
  d ← the (fun s => s.(eap_if).(eapRespData));
  if negb (eap_hdr_len_valid d 1) then upd (fun s => s <| ignore := true |>)
  else
    x ← the_method;
    match m_check x with
    | Some check =>
        p ← the_priv;
        r ← lift (check p d);
        upd (fun s => s <| ignore := r |>)
    | None => skip
    end.

Definition sm_EAP_METHOD_REQUEST_Enter (global : bool) : E unit :=
  enter EAP_METHOD_REQUEST global ;;
  o ← the (fun s => s.(m));
  match o with
  | None => skip
  | Some x =>
      cur ← the (fun s => s.(currentId));
      id ← eap_sm_nextId cur;
      upd (fun s => s <| currentId := id |> <| lastId := id |>) ;;
      p ← the_priv;
      r ← run_method (m_buildReq x p (u8 id));
      upd (fun s => s <| eap_method_priv := Some r.1 |>) ;;
      upd_if (fun i => i <| eapReqData := r.2 |>) ;;
      upd (fun s => s <| methodTimeout := match m_getTimeout x with Some f => f r.1 | None => 0 end |>)
  end.

Definition sm_EAP_METHOD_RESPONSE_Enter (global : bool) : E unit :=
  enter EAP_METHOD_RESPONSE global ;;
  d ← the (fun s => s.(eap_if).(eapRespData));
  if negb (eap_hdr_len_valid d 1) then skip
  else
    x ← the_method;
    p ← the_priv;
    p ← run_method (m_process x p d);
    upd (fun s => s <| eap_method_priv := Some p |>) ;;
    if m_isDone x p then
      eap_sm_Policy_update None ;;
      key ← (match m_getKey x with Some f => run_method (f p) | None => mret None end);
      upd_aaa (fun a => a <| eapKeyData := key |> <| eapSessionId := None |>) ;;
      match m_getSessionId x with
      | Some f => sid ← run_method (f p); upd_aaa (fun a => a <| eapSessionId := sid |>)
      | None => skip
      end ;;
      sid ← the (fun s => s.(aaa).(eapSessionId));
      when (cfg.(erp) && bool_decide (is_Some (m_get_emsk x)) && bool_decide (is_Some sid)) eap_server_erp_init ;;
      upd (fun s => s <| methodState := METHOD_END |>)
    else upd (fun s => s <| methodState := METHOD_CONTINUE |>).

(** The proposal of a method that was found and initialised. *)
Definition proposed (vendor : Z) : E unit :=
  upd (fun s => s <| methodState :=
    (if (s.(currentMethod) =? EAP_TYPE_IDENTITY) || (s.(currentMethod) =? EAP_TYPE_NOTIFICATION)
     then METHOD_CONTINUE else METHOD_PROPOSED) |>) ;;
  cur ← the (fun s => s.(currentMethod));
  wpa_msg (WPA_EVENT_EAP_PROPOSED_METHOD vendor cur).

(** From the label [try_another_method].  A turn that comes back has used a
    method of the user, or failed to allocate a method's data.  The code's loop
    has no bound of its own: the fuel the caller gives it is enough because the
    failures the machine has in store are finitely many, and endless failures are
    an endless loop ([EapAuth.failing_allocations_spin]). *)
Fixpoint propose_loop (fuel : nat) : E unit :=
  match fuel with
  | O => lift Fault
  | S fuel =>
      vt ← eap_sm_Policy_getNextMethod;
      upd (fun s => s <| currentMethod := (if vt.1 =? EAP_VENDOR_IETF then vt.2 else EAP_TYPE_EXPANDED) |>) ;;
      reset_method ;;
      let x := eap_server_get_eap_method vt.1 vt.2 in
      upd (fun s => s <| m := x |>) ;;
      match x with
      | Some x =>
          p ← run_method (m_init x);
          upd (fun s => s <| eap_method_priv := p |>) ;;
          match p with
          | None => no_current_method ;; propose_loop fuel
          | Some _ => proposed vt.1
          end
      | None => upd (fun s => s <| decision := DECISION_FAILURE |>)
      end
  end.

Definition sm_EAP_PROPOSE_METHOD_Enter (global : bool) : E unit :=
  enter EAP_PROPOSE_METHOD global ;;
  upd (fun s => s <| try_initiate_reauth := false |>) ;;
  n ← gets (fun w => length w.(mem));
  propose_loop (n + 10).

(** The list in a Nak, [None] for an expanded one. *)
Definition nak_list (d : list Z) : cres (option (list Z)) :=
  let len := eap_length d in
  let len := if zlen d <? len then zlen d else len in
  (t <-- rd d sizeof_eap_hdr;;
   if t =? EAP_TYPE_NAK then l <-- rdn d 5 (len - sizeof_eap_hdr - 1);; Ok (Some l) else Ok None)%c.

Definition sm_EAP_NAK_Enter (global : bool) : E unit :=
  enter EAP_NAK global ;;
  p ← the (fun s => s.(eap_method_priv));
  match p with
  | Some p =>
      x ← the_method;
      run_method (m_reset x p) ;;
      upd (fun s => s <| eap_method_priv := None |>)
  | None => skip
  end ;;
  upd (fun s => s <| m := None |>) ;;
  d ← the (fun s => s.(eap_if).(eapRespData));
  if negb (eap_hdr_len_valid d 1) then skip
  else
    match d with
    | Some d =>
        if sizeof_eap_hdr <? zlen d then l ← lift (nak_list d); eap_sm_Policy_update l
        else eap_sm_Policy_update None
    | None => skip
    end.

Definition sm_EAP_SELECT_ACTION_Enter (global : bool) : E unit :=
  enter EAP_SELECT_ACTION global ;;
  d ← eap_sm_Policy_getDecision;
  upd (fun s => s <| decision := d |>).

Definition sm_EAP_TIMEOUT_FAILURE_Enter (global : bool) : E unit :=
  enter EAP_TIMEOUT_FAILURE global ;;
  upd_if (fun i => i <| eapTimeout := true |>) ;;
  wpa_msg WPA_EVENT_EAP_TIMEOUT_FAILURE.

Definition sm_EAP_FAILURE_Enter (global : bool) : E unit :=
  enter EAP_FAILURE global ;;
  id ← the (fun s => s.(currentId));
  r ← eap_sm_buildFailure (u8 id);
  upd_if (fun i => i <| eapReqData := r |>) ;;
  upd (fun s => s <| lastReqData := None |>) ;;
  upd_if (fun i => i <| eapFail := true |>) ;;
  wpa_msg WPA_EVENT_EAP_FAILURE.

Definition sm_EAP_SUCCESS_Enter (global : bool) : E unit :=
  enter EAP_SUCCESS global ;;
  id ← the (fun s => s.(currentId));
  r ← eap_sm_buildSuccess (u8 id);
  upd_if (fun i => i <| eapReqData := r |>) ;;
  upd (fun s => s <| lastReqData := None |>) ;;
  key ← the (fun s => s.(aaa).(eapKeyData));
  when (bool_decide (is_Some key)) (upd_if (fun i => i <| eapKeyAvailable := true |>)) ;;
  upd_if (fun i => i <| eapSuccess := true |>) ;;
  wpa_msg WPA_EVENT_EAP_SUCCESS.

Definition sm_EAP_INITIATE_REAUTH_START_Enter (global : bool) : E unit :=
  enter EAP_INITIATE_REAUTH_START global ;;
  upd (fun s => s <| initiate_reauth_start_sent := true |> <| try_initiate_reauth := true |>) ;;
  cur ← the (fun s => s.(currentId));
  id ← eap_sm_nextId cur;
  upd (fun s => s <| currentId := id |> <| lastId := id |>) ;;
  r ← eap_sm_buildInitiateReauthStart (u8 id);
  upd_if (fun i => i <| eapReqData := r |>) ;;
  upd (fun s => s <| lastReqData := None |>).

(** ** ERP exchange *)

(** The hash of a cryptosuite, in bytes; [None] for one that has none. *)
Definition suite_hash_len (cs : Z) : option Z :=
  if cs =? EAP_ERP_CS_HMAC_SHA256_256 then Some 32
  else if cs =? EAP_ERP_CS_HMAC_SHA256_128 then Some 16 else None.

(** The EAP-Finish packet up to its tag, and with the tag when there is a key:
    [None] when the allocation or the hash fails. *)
Definition finish_reauth (key : option eap_server_erp_key) (hash_len id flags seq : Z) (nai : list Z)
    : Wpabuf.M (option (list Z)) :=
  let plen := 1 + 2 + 2 + zlen nai + (if hash_len =? 0 then 0 else 1 + hash_len) in
  let! msg := eap_msg_alloc EAP_VENDOR_IETF EAP_ERP_TYPE_REAUTH plen EAP_CODE_FINISH id in
  match msg with
  | None => ret None
  | Some msg =>
      let! msg := Wpabuf.lift (wpabuf_put_u8 msg flags) in
      let! msg := Wpabuf.lift (wpabuf_put_be16 msg seq) in
      let! msg := Wpabuf.lift (wpabuf_put_u8 msg EAP_ERP_TLV_KEYNAME_NAI) in
      let! msg := Wpabuf.lift (wpabuf_put_u8 msg (zlen nai)) in
      let! msg := Wpabuf.lift (wpabuf_put_str msg nai) in
      match key with
      | None => ret (Some (wpabuf_head msg))
      | Some k =>
          let! msg := Wpabuf.lift (wpabuf_put_u8 msg k.(cryptosuite)) in
          match hmac_sha256 k.(rIK) (wpabuf_head msg) with
          | None => ret None
          | Some hash =>
              let! msg := Wpabuf.lift (wpabuf_put_data msg (take (Z.to_nat hash_len) hash)) in
              ret (Some (wpabuf_head msg))
          end
      end
  end.

Definition erp_send_finish_reauth (key : option eap_server_erp_key) (id flags seq : Z) (nai : list Z) : E unit :=
  match (match key with Some k => suite_hash_len k.(cryptosuite) | None => Some 0 end) with
  | None => skip
  | Some hash_len =>
      msg ← alloc (finish_reauth key hash_len id flags seq nai);
      match msg with
      | None => skip
      | Some msg =>
          upd (fun s => s <| lastId := s.(currentId) |> <| currentId := id |>) ;;
          upd_if (fun i => i <| eapReqData := Some msg |>) ;;
          upd (fun s => s <| lastReqData := None |>) ;;
          match key with
          | Some k =>
              if negb (Z.land flags 0x80 =? 0) then
                upd_if (fun i => i <| eapFail := true |>) ;; wpa_msg WPA_EVENT_EAP_FAILURE
              else
                upd_aaa (fun a => a <| eapKeyData := None |>) ;;
                ok ← malloc;
                if negb ok then skip
                else
                  match hmac_sha256_kdf k.(rRK) ERP_RMSK_LABEL (WPA_PUT_BE16 seq ++ WPA_PUT_BE16 (zlen k.(rRK)))
                          (zlen k.(rRK)) with
                  | None => skip
                  | Some rmsk =>
                      upd_aaa (fun a => a <| eapKeyData := Some rmsk |>) ;;
                      upd_if (fun i => i <| eapKeyAvailable := true |> <| eapSuccess := true |>) ;;
                      wpa_msg WPA_EVENT_EAP_SUCCESS
                  end
          | None => upd_if (fun i => i <| eapFail := true |>) ;; wpa_msg WPA_EVENT_EAP_FAILURE
          end
      end
  end.

(** The tag of [n] bytes at the end of the packet is that of what is before
    it: [None] when the hash fails. *)
Definition tag_matches (k : eap_server_erp_key) (d : list Z) (end_ n : Z) : cres (option bool) :=
  (body <-- rdn d 0 (end_ - n);;
   tag <-- rdn d (end_ - n) n;;
   Ok (match hmac_sha256 k.(rIK) body with
       | Some hash => Some (bool_decide (tag = take (Z.to_nat n) hash))
       | None => None
       end))%c.

(** The cryptosuite in front of a tag of [n] bytes is [cs], and the tag is
    right: the key has no cryptosuite yet. *)
Definition tries_suite (k : eap_server_erp_key) (d : list Z) (end_ max_len n cs : Z) : cres (option bool) :=
  if max_len <? 1 + n then Ok (Some false)
  else
    (c <-- rd d (end_ - (n + 1));;
     if negb (c =? cs) then Ok (Some false) else tag_matches k d end_ n)%c.

(** The check of the tag: its length when it is right, and the key with the
    cryptosuite it showed. *)
Definition check_tag (k : eap_server_erp_key) (d : list Z) (end_ max_len : Z) : cres (option (Z * eap_server_erp_key)) :=
  match suite_hash_len k.(cryptosuite) with
  | Some n =>
      (c <-- rd d (end_ - (n + 1));;
       if negb (c =? k.(cryptosuite)) then Ok None
       else
         r <-- tag_matches k d end_ n;;
         Ok (if r is Some true then Some (n, k) else None))%c
  | None =>
      (r <-- tries_suite k d end_ max_len 32 EAP_ERP_CS_HMAC_SHA256_256;;
       match r with
       | None => Ok None
       | Some true => Ok (Some (32, k <| cryptosuite := EAP_ERP_CS_HMAC_SHA256_256 |>))
       | Some false =>
           r <-- tries_suite k d end_ max_len 16 EAP_ERP_CS_HMAC_SHA256_128;;
           Ok (if r is Some true then Some (16, k <| cryptosuite := EAP_ERP_CS_HMAC_SHA256_128 |>) else None)
       end)%c
  end.

Definition erp_ignore : E unit := upd (fun s => s <| ignore := true |>).

(** From the look-up of the key on. *)
Definition erp_with_key (d : list Z) (tlvs end_ seq : Z) (kname : Z * Z) : E unit :=
  let nai := Codec.c_str (slice kname.1 kname.2 d) in
  k ← gets (fun w => erp_get_key nai w.(host));
  match k with
  | None => erp_send_finish_reauth None (eap_identifier d) 0x80 seq nai
  | Some k =>
      if negb (k.(recv_seq) =? 2 ^ 32 - 1) && (seq <=? k.(recv_seq)) then erp_ignore
      else
        let max_len := end_ - (kname.1 + kname.2) in
        if max_len <? 1 + (if k.(cryptosuite) =? EAP_ERP_CS_HMAC_SHA256_256 then 32 else 16) then erp_ignore
        else
          t ← lift (check_tag k d end_ max_len);
          match t with
          | None => erp_ignore
          | Some (hash_len, k) =>
              _ ← ask (fun e => (tt, erp_write_key k e));
              r ← lift (erp_parse_tlvs d tlvs (end_ - (1 + hash_len)) false);
              if r.1 <? 0 then erp_ignore
              else
                let k := k <| recv_seq := seq |> in
                _ ← ask (fun e => (tt, erp_write_key k e));
                erp_send_finish_reauth (Some k) (eap_identifier d) 0 seq nai
          end
  end.

(** From the name of the key on. *)
Definition erp_with_name (d : list Z) (tlvs end_ seq : Z) (kname : Z * Z) : E unit :=
  if 253 <? kname.2 then erp_ignore
  else if negb cfg.(eap_server) then
    eap_server_clear_identity ;;
    ok ← malloc;
    if negb ok then erp_ignore else upd_shr (fun s => s <| identity := Some (slice kname.1 kname.2 d) |>)
  else erp_with_key d tlvs end_ seq kname.

Definition sm_EAP_INITIATE_RECEIVED_Enter (global : bool) : E unit :=
  enter EAP_INITIATE_RECEIVED global ;;
  upd (fun s => s <| rxInitiate := false |>) ;;
  resp ← the (fun s => s.(eap_if).(eapRespData));
  v ← lift (eap_hdr_validate EAP_VENDOR_IETF EAP_ERP_TYPE_REAUTH resp);
  match v, resp with
  | Some (pos, len), Some d =>
      if len <? 4 then erp_ignore
      else
        let end_ := pos + len in
        seq ← lift (WPA_GET_BE16 (drop (Z.to_nat (pos + 1)) d));
        let tlvs := pos + 3 in
        r ← lift (erp_parse_tlvs d tlvs end_ true);
        if r.1 <? 0 then erp_ignore
        else
          match r.2.(keyname) with
          | None => erp_ignore
          | Some kname => erp_with_name d tlvs end_ seq kname
          end
  | _, _ => erp_ignore
  end.

(** ** Pass-through *)

Definition sm_EAP_INITIALIZE_PASSTHROUGH_Enter (global : bool) : E unit :=
  enter EAP_INITIALIZE_PASSTHROUGH global ;;
  upd_if (fun i => i <| aaaEapRespData := None |>) ;;
  upd (fun s => s <| try_initiate_reauth := false |>).

Definition sm_EAP_IDLE2_Enter (global : bool) : E unit := enter EAP_IDLE2 global ;; set_retransWhile.

Definition sm_EAP_RETRANSMIT2_Enter (global : bool) : E unit :=
  enter EAP_RETRANSMIT2 global ;; retransmit ;; wpa_msg WPA_EVENT_EAP_RETRANSMIT2.

Definition sm_EAP_RECEIVED2_Enter (global : bool) : E unit :=
  enter EAP_RECEIVED2 global ;;
  d ← the (fun s => s.(eap_if).(eapRespData));
  eap_sm_parseEapResp d.

Definition sm_EAP_DISCARD2_Enter (global : bool) : E unit :=
  enter EAP_DISCARD2 global ;;
  upd_if (fun i => i <| eapResp := false |> <| eapNoReq := true |>).

Definition sm_EAP_SEND_REQUEST2_Enter (global : bool) : E unit :=
  enter EAP_SEND_REQUEST2 global ;;
  upd (fun s => s <| retransCount := 0 |>) ;;
  send_request.

Definition sm_EAP_AAA_REQUEST_Enter (global : bool) : E unit :=
  enter EAP_AAA_REQUEST global ;;
  i ← the (fun s => s.(eap_if));
  when (bool_decide (is_Some i.(eapRespData)))
    (r ← eap_copy_buf i.(aaaEapRespData) i.(eapRespData);
     upd_if (fun i => i <| aaaEapRespData := r.1 |>)).

(** [eap_copy_buf(&eapReqData, aaaEapReqData)] *)
Definition copy_aaa_request : E unit :=
  s ← the id;
  r ← eap_copy_buf s.(eap_if).(eapReqData) s.(aaa).(aaaEapReqData);
  upd_if (fun i => i <| eapReqData := r.1 |>).

Definition sm_EAP_AAA_RESPONSE_Enter (global : bool) : E unit :=
  enter EAP_AAA_RESPONSE global ;;
  copy_aaa_request ;;
  upd (fun s => s <| currentId := eap_sm_getId s.(eap_if).(eapReqData) |>
                  <| methodTimeout := s.(aaa).(aaaMethodTimeout) |>).

Definition sm_EAP_AAA_IDLE_Enter (global : bool) : E unit :=
  enter EAP_AAA_IDLE global ;;
  upd_aaa (fun a => a <| aaaFail := false |> <| aaaSuccess := false |> <| aaaEapReq := false |> <| aaaEapNoReq := false |>) ;;
  upd_if (fun i => i <| aaaEapResp := true |>).

Definition sm_EAP_TIMEOUT_FAILURE2_Enter (global : bool) : E unit :=
  enter EAP_TIMEOUT_FAILURE2 global ;;
  upd_if (fun i => i <| eapTimeout := true |>) ;;
  wpa_msg WPA_EVENT_EAP_TIMEOUT_FAILURE2.

Definition sm_EAP_FAILURE2_Enter (global : bool) : E unit :=
  enter EAP_FAILURE2 global ;;
  copy_aaa_request ;;
  upd_if (fun i => i <| eapFail := true |>) ;;
  wpa_msg WPA_EVENT_EAP_FAILURE2.

Definition sm_EAP_SUCCESS2_Enter (global : bool) : E unit :=
  enter EAP_SUCCESS2 global ;;
  copy_aaa_request ;;
  a ← the (fun s => s.(aaa));
  upd_if (fun i => i <| eapKeyAvailable := a.(aaaEapKeyAvailable) |>) ;;
  (if a.(aaaEapKeyAvailable) then
     r ← eap_copy_data a.(eapKeyData) a.(aaaEapKeyData);
     upd_aaa (fun a => a <| eapKeyData := r.1 |>)
   else upd_aaa (fun a => a <| eapKeyData := None |>)) ;;
  upd_if (fun i => i <| eapSuccess := true |>) ;;
  upd (fun s => s <| start_reauth := true |>) ;;
  wpa_msg WPA_EVENT_EAP_SUCCESS2.

(** ** The step *)

(** A Nak, also in its expanded form. *)
Definition is_nak (s : sm) : bool :=
  (s.(respMethod) =? EAP_TYPE_NAK) ||
  ((s.(respMethod) =? EAP_TYPE_EXPANDED) && (s.(respVendor) =? EAP_VENDOR_IETF) && (s.(respVendorMethod) =? EAP_TYPE_NAK)).

(** A response of the current method, also in its expanded form. *)
Definition is_current (s : sm) : bool :=
  (s.(respMethod) =? s.(currentMethod)) ||
  ((s.(respMethod) =? EAP_TYPE_EXPANDED) && (s.(respVendor) =? EAP_VENDOR_IETF) &&
   (s.(respVendorMethod) =? s.(currentMethod))).

Definition sm_EAP_Step : E unit :=
  s ← the id;
  let i := s.(eap_if) in
  if i.(eapRestart) && i.(portEnabled) then sm_EAP_INITIALIZE_Enter true
  else if negb i.(portEnabled) then sm_EAP_DISABLED_Enter true
  else if cfg.(max_auth_rounds) <? s.(num_rounds) then
    when (s.(num_rounds) =? u32 (cfg.(max_auth_rounds) + 1))
      (upd (fun s => s <| num_rounds := u32 (s.(num_rounds) + 1) |>) ;; sm_EAP_FAILURE_Enter true)
  else if cfg.(max_auth_rounds_short) <? s.(num_rounds_short) then
    when (s.(num_rounds_short) =? u32 (cfg.(max_auth_rounds_short) + 1))
      (upd (fun s => s <| num_rounds_short := u32 (s.(num_rounds_short) + 1) |>) ;; sm_EAP_FAILURE_Enter true)
  else
    match s.(EAP_state) with
    | EAP_INITIALIZE =>
        if cfg.(backend_auth) then
          if negb s.(rxResp) then sm_EAP_SELECT_ACTION_Enter false
          else if is_nak s then sm_EAP_NAK_Enter false
          else sm_EAP_PICK_UP_METHOD_Enter false
        else sm_EAP_SELECT_ACTION_Enter false
    | EAP_PICK_UP_METHOD =>
        if s.(currentMethod) =? EAP_TYPE_NONE then sm_EAP_SELECT_ACTION_Enter false
        else sm_EAP_METHOD_RESPONSE_Enter false
    | EAP_DISABLED => when i.(portEnabled) (sm_EAP_INITIALIZE_Enter false)
    | EAP_IDLE =>
        if i.(retransWhile) =? 0 then
          if s.(try_initiate_reauth) then
            upd (fun s => s <| try_initiate_reauth := false |>) ;; sm_EAP_SELECT_ACTION_Enter false
          else sm_EAP_RETRANSMIT_Enter false
        else when i.(eapResp) (sm_EAP_RECEIVED_Enter false)
    | EAP_RETRANSMIT =>
        if s.(MaxRetrans) <? s.(retransCount) then sm_EAP_TIMEOUT_FAILURE_Enter false else sm_EAP_IDLE_Enter false
    | EAP_RECEIVED =>
        if s.(rxResp) && (s.(respId) =? s.(currentId)) && is_nak s && bool_decide (s.(methodState) = METHOD_PROPOSED)
        then sm_EAP_NAK_Enter false
        else if s.(rxResp) && (s.(respId) =? s.(currentId)) && is_current s then sm_EAP_INTEGRITY_CHECK_Enter false
        else if s.(rxInitiate) then sm_EAP_INITIATE_RECEIVED_Enter false
        else sm_EAP_DISCARD_Enter false
    | EAP_DISCARD => sm_EAP_IDLE_Enter false
    | EAP_SEND_REQUEST => sm_EAP_IDLE_Enter false
    | EAP_INTEGRITY_CHECK =>
        if s.(ignore) then sm_EAP_DISCARD_Enter false else sm_EAP_METHOD_RESPONSE_Enter false
    | EAP_METHOD_REQUEST =>
        match s.(m) with
        | None => sm_EAP_FAILURE_Enter false
        | Some _ =>
            sm_EAP_SEND_REQUEST_Enter false ;;
            i ← the (fun s => s.(eap_if));
            when (i.(eapNoReq) && negb i.(eapReq)) (sm_EAP_FAILURE_Enter false)
        end
    | EAP_METHOD_RESPONSE =>
        if bool_decide (s.(methodState) = METHOD_END) then sm_EAP_SELECT_ACTION_Enter false
        else
          match s.(shr).(method_pending) with
          | METHOD_PENDING_WAIT => skip
          | METHOD_PENDING_CONT =>
              upd_shr (fun s => s <| method_pending := METHOD_PENDING_NONE |>) ;; sm_EAP_METHOD_RESPONSE_Enter false
          | METHOD_PENDING_NONE => sm_EAP_METHOD_REQUEST_Enter false
          end
    | EAP_PROPOSE_METHOD =>
        match s.(shr).(method_pending) with
        | METHOD_PENDING_WAIT =>
            when (0 <? s.(shr).(user_eap_method_index))
              (upd_shr (fun s => s <| user_eap_method_index := s.(user_eap_method_index) - 1 |>))
        | METHOD_PENDING_CONT =>
            upd_shr (fun s => s <| method_pending := METHOD_PENDING_NONE |>) ;; sm_EAP_PROPOSE_METHOD_Enter false
        | METHOD_PENDING_NONE => sm_EAP_METHOD_REQUEST_Enter false
        end
    | EAP_NAK => sm_EAP_SELECT_ACTION_Enter false
    | EAP_SELECT_ACTION =>
        match s.(decision) with
        | DECISION_FAILURE => sm_EAP_FAILURE_Enter false
        | DECISION_SUCCESS => sm_EAP_SUCCESS_Enter false
        | DECISION_PASSTHROUGH => sm_EAP_INITIALIZE_PASSTHROUGH_Enter false
        | DECISION_INITIATE_REAUTH_START => sm_EAP_INITIATE_REAUTH_START_Enter false
        | DECISION_CONTINUE =>
            if cfg.(eap_server) && cfg.(erp) && s.(rxInitiate) then sm_EAP_INITIATE_RECEIVED_Enter false
            else sm_EAP_PROPOSE_METHOD_Enter false
        end
    | EAP_INITIATE_REAUTH_START => sm_EAP_SEND_REQUEST_Enter false
    | EAP_INITIATE_RECEIVED => when (negb cfg.(eap_server)) (sm_EAP_SELECT_ACTION_Enter false)
    | EAP_INITIALIZE_PASSTHROUGH =>
        if s.(currentId) =? -1 then sm_EAP_AAA_IDLE_Enter false else sm_EAP_AAA_REQUEST_Enter false
    | EAP_IDLE2 =>
        if i.(eapResp) then sm_EAP_RECEIVED2_Enter false
        else when (i.(retransWhile) =? 0) (sm_EAP_RETRANSMIT2_Enter false)
    | EAP_RETRANSMIT2 =>
        if s.(MaxRetrans) <? s.(retransCount) then sm_EAP_TIMEOUT_FAILURE2_Enter false else sm_EAP_IDLE2_Enter false
    | EAP_RECEIVED2 =>
        if s.(rxResp) && (s.(respId) =? s.(currentId)) then sm_EAP_AAA_REQUEST_Enter false
        else sm_EAP_DISCARD2_Enter false
    | EAP_DISCARD2 => sm_EAP_IDLE2_Enter false
    | EAP_SEND_REQUEST2 => sm_EAP_IDLE2_Enter false
    | EAP_AAA_REQUEST => sm_EAP_AAA_IDLE_Enter false
    | EAP_AAA_RESPONSE => sm_EAP_SEND_REQUEST2_Enter false
    | EAP_AAA_IDLE =>
        if s.(aaa).(aaaFail) then sm_EAP_FAILURE2_Enter false
        else if s.(aaa).(aaaSuccess) then sm_EAP_SUCCESS2_Enter false
        else if s.(aaa).(aaaEapReq) then sm_EAP_AAA_RESPONSE_Enter false
        else when s.(aaa).(aaaTimeout) (sm_EAP_TIMEOUT_FAILURE2_Enter false)
    | EAP_TIMEOUT_FAILURE | EAP_FAILURE | EAP_SUCCESS | EAP_TIMEOUT_FAILURE2 | EAP_FAILURE2 | EAP_SUCCESS2 => skip
    end.

(** The loop of [eap_server_sm_step]; [EapServerSafety] shows that [step_fuel]
    turns are enough. *)
Fixpoint step_loop (fuel : nat) (res : bool) : E bool :=
  match fuel with
  | O => lift Fault
  | S fuel =>
      upd (fun s => s <| changed := false |>) ;;
      sm_EAP_Step ;;
      c ← the (fun s => s.(changed));
      if (c : bool) then step_loop fuel true else mret res
  end.
Definition step_fuel : nat := 60.
Definition eap_server_sm_step : E bool := step_loop step_fuel false.

(** ** The interface *)

Definition empty_if : eap_eapol_interface :=
  mkIf false None false 0 false false false false false false None false false None.
Definition empty_aaa : aaa_interface := mkAaa None None false false false false None None false 0 false.

(** [os_zalloc] and what [eap_server_sm_init] sets. *)
Definition fresh_eap : sm :=
  mkEap EAP_DISABLED 5 empty_if empty_aaa EAP_TYPE_NONE 0 METHOD_PROPOSED 0 None 0 false false 0 EAP_TYPE_NONE
    EAP_VENDOR_IETF EAP_TYPE_NONE false DECISION_SUCCESS None false None
    (mkShared None None 0 false METHOD_PENDING_NONE) 0 0 0 false false false.

Definition eap_server_sm_init (e : env) (mem : list bool) : option (server env P) :=
  match mem with
  | [] => Some (mkServer fresh_eap e [] [])
  | true :: mem => Some (mkServer fresh_eap e mem [])
  | false :: _ => None
  end.

Definition eap_sm_notify_cached : E unit := upd (fun s => s <| EAP_state := EAP_SUCCESS |>).

Definition eap_sm_pending_cb : E unit :=
  upd_shr (fun s => if bool_decide (s.(method_pending) = METHOD_PENDING_WAIT)
                    then s <| method_pending := METHOD_PENDING_CONT |> else s).

Definition eap_sm_method_pending : E bool :=
  the (fun s => bool_decide (s.(shr).(method_pending) = METHOD_PENDING_WAIT)).

Definition eap_get_identity (s : sm) : option (list Z) := s.(shr).(identity).

(** A packet EAP-Initiate/Re-auth names the identity. *)
Definition eap_erp_update_identity (eap : list Z) : E unit :=
  if zlen eap <? sizeof_eap_hdr + 1 then skip
  else if negb (eap_code eap =? EAP_CODE_INITIATE) || negb (at_ eap 4 =? EAP_ERP_TYPE_REAUTH) then skip
  else if zlen eap <? 5 + 3 then skip
  else
    r ← lift (erp_parse_tlvs eap 8 (zlen eap) true);
    match r.2.(keyname) with
    | Some kname =>
        if r.1 <? 0 then skip
        else
          ok ← malloc;
          upd_shr (fun s => s <| identity := (if (ok : bool) then Some (slice kname.1 kname.2 eap) else None) |>)
    | None => skip
    end.

End machine.
End EapServer.
