(* ===== verification/EapMethods.v ===== *)
(** * EAP methods

    eap_server/eap_server_identity.c and eap_server/eap_server_md5.c, the method
    every authentication starts with and the simplest one that proves a
    password, and the hash of eap_common/chap.c; both as records of operations
    for [EapServer]. *)

From S2P Require Import Prelude WpaDefs Wpabuf EapolSm EapCommon EapServer Radius.

Module EapMethods.
Import WpaDefs Wpabuf EapolSm EapCommon EapServer.

#[local] Open Scope Z_scope.
#[local] Open Scope list_scope.

Inductive method_state := CONTINUE | SUCCESS | FAILURE.
#[export] Instance method_state_eq_dec : EqDecision method_state.
Proof. solve_decision. Defined.

(** [struct eap_identity_data], [struct eap_md5_data] *)
Record eap_identity_data := mkIdentity { i_state : method_state; pick_up : bool }.
#[export] Instance settable_identity : Settable eap_identity_data := fun d => mkIdentity d.(i_state) d.(pick_up).
Record eap_md5_data := mkMd5 { challenge : list Z; md5_state : method_state }.
#[export] Instance settable_md5 : Settable eap_md5_data := fun d => mkMd5 d.(challenge) d.(md5_state).

(** The private data of a method: what its [priv] points to. *)
Inductive eap_priv := PrivIdentity (d : eap_identity_data) | PrivMd5 (d : eap_md5_data).

Definition CHALLENGE_LEN : Z := 16.
Definition CHAP_MD5_LEN : Z := 16.

Section methods.
Context {env : Type} `{HH : !EapHost env} `{HM : !Radius.Md5}.

Definition mm_shared : MM env shared := fun w => Ok (w.(sh), w).
Definition mm_upd (f : shared -> shared) : MM env unit := fun w => Ok (tt, mkMethodWorld (f w.(sh)) w.(msurr) w.(mmem)).
Definition mm_lift {A} (c : cres A) : MM env A := fun w => match c with Ok a => Ok (a, w) | Fault => Fault end.
Definition mm_gets {A} (f : env -> A) : MM env A := fun w => Ok (f w.(msurr), w).
Definition mm_ask {A} (f : env -> A * env) : MM env A := fun w =>
  let r := f w.(msurr) in Ok (r.1, mkMethodWorld w.(sh) r.2 w.(mmem)).
Definition mm_alloc {A} (c : Wpabuf.M A) : MM env A := fun w =>
  match c w.(mmem) with Ok (a, mem) => Ok (a, mkMethodWorld w.(sh) w.(msurr) mem) | Fault => Fault end.
Definition mm_malloc : MM env bool := mm_alloc Wpabuf.os_malloc.

(** ** Identity *)

Definition the_identity (p : eap_priv) : cres eap_identity_data :=
  match p with PrivIdentity d => Ok d | _ => Fault end.

Definition eap_identity_init : MM env (option eap_priv) :=
  ok ← mm_malloc;
  mret (if (ok : bool) then Some (PrivIdentity (mkIdentity CONTINUE false)) else None).

Definition eap_identity_initPickUp : MM env (option eap_priv) :=
  d ← eap_identity_init;
  mret (match d with Some (PrivIdentity d) => Some (PrivIdentity (d <| pick_up := true |>)) | d => d end).

(** A packet with a header and [data]; [None] when the allocation fails. *)
Definition request (type : Z) (data : list Z) (id : Z) : Wpabuf.M (option (list Z)) :=
  let! req := eap_msg_alloc EAP_VENDOR_IETF type (zlen data) EAP_CODE_REQUEST id in
  match req with
  | None => ret None
  | Some req => let! req := Wpabuf.lift (wpabuf_put_data req data) in ret (Some (wpabuf_head req))
  end.

Definition eap_identity_buildReq (p : eap_priv) (id : Z) : MM env (eap_priv * option (list Z)) :=
  d ← mm_lift (the_identity p);
  text ← mm_gets get_eap_req_id_text;
  req ← mm_alloc (request EAP_TYPE_IDENTITY (default [] text) id);
  mret (match req with
        | None => (PrivIdentity (d <| i_state := FAILURE |>), None)
        | Some req => (PrivIdentity d, Some req)
        end).

(** Whether the response is to be ignored. *)
Definition eap_identity_check (p : eap_priv) (respData : option (list Z)) : cres bool :=
  (v <-- eap_hdr_validate EAP_VENDOR_IETF EAP_TYPE_IDENTITY respData;;
   Ok (match v with None => true | Some _ => false end))%c.

Definition eap_identity_process (p : eap_priv) (respData : option (list Z)) : MM env eap_priv :=
  d ← mm_lift (the_identity p);
  bad ← (if d.(pick_up) then mm_lift (eap_identity_check p respData) else mret false);
  if bad : bool then mret (PrivIdentity (d <| i_state := FAILURE |>))
  else
    let d := d <| pick_up := false |> in
    v ← mm_lift (eap_hdr_validate EAP_VENDOR_IETF EAP_TYPE_IDENTITY respData);
    match v, respData with
    | Some (pos, len), Some msg =>
        mm_upd (fun s => if bool_decide (is_Some s.(identity)) then s <| update_user := true |> else s) ;;
        ok ← mm_malloc;
        if negb ok then
          mm_upd (fun s => s <| identity := None |>) ;; mret (PrivIdentity (d <| i_state := FAILURE |>))
        else
          name ← mm_lift (rdn msg pos len);
          mm_upd (fun s => s <| identity := Some name |>) ;; mret (PrivIdentity (d <| i_state := SUCCESS |>))
    | _, _ => mret (PrivIdentity d)
    end.

Definition is_state (st : method_state) (p : eap_priv) : bool :=
  match p with
  | PrivIdentity d => bool_decide (d.(i_state) = st)
  | PrivMd5 d => bool_decide (d.(md5_state) = st)
  end.

Definition eap_identity_isDone (p : eap_priv) : bool := negb (is_state CONTINUE p).
Definition eap_identity_isSuccess (p : eap_priv) : bool := is_state SUCCESS p.

(** The data is freed, which has no effect here. *)
Definition eap_identity_reset (p : eap_priv) : MM env unit := mret tt.

Definition eap_server_identity : eap_method env eap_priv :=
  mkMethod env eap_priv EAP_VENDOR_IETF EAP_TYPE_IDENTITY eap_identity_init (Some eap_identity_initPickUp)
    eap_identity_reset eap_identity_buildReq None (Some eap_identity_check) eap_identity_process
    eap_identity_isDone None eap_identity_isSuccess None None.

(** ** MD5 *)

Definition the_md5 (p : eap_priv) : cres eap_md5_data :=
  match p with PrivMd5 d => Ok d | _ => Fault end.

(** [chap_md5]; a result [None] is a failure. *)
Definition chap_md5 (id : Z) (secret challenge : list Z) : option (list Z) := Radius.md5 ([id] ++ secret ++ challenge).

Definition eap_md5_init : MM env (option eap_priv) :=
  ok ← mm_malloc;
  mret (if (ok : bool) then Some (PrivMd5 (mkMd5 (replicate 16 0) CONTINUE)) else None).

Definition eap_md5_reset (p : eap_priv) : MM env unit := mret tt.

Definition eap_md5_buildReq (p : eap_priv) (id : Z) : MM env (eap_priv * option (list Z)) :=
  d ← mm_lift (the_md5 p);
  r ← mm_ask (random_get_bytes CHALLENGE_LEN);
  match r with
  | None => mret (PrivMd5 (d <| md5_state := FAILURE |>), None)
  | Some c =>
      let d := d <| challenge := c |> in
      req ← mm_alloc (request EAP_TYPE_MD5 ([CHALLENGE_LEN] ++ c) id);
      mret (match req with
            | None => (PrivMd5 (d <| md5_state := FAILURE |>), None)
            | Some req => (PrivMd5 (d <| md5_state := CONTINUE |>), Some req)
            end)
  end.

Definition eap_md5_check (p : eap_priv) (respData : option (list Z)) : cres bool :=
  (v <-- eap_hdr_validate EAP_VENDOR_IETF EAP_TYPE_MD5 respData;;
   match v, respData with
   | Some (pos, len), Some msg =>
       if len <? 1 then Ok true
       else c <-- rd msg pos;; Ok (negb (c =? CHAP_MD5_LEN) || (len <? 1 + CHAP_MD5_LEN))
   | _, _ => Ok true
   end)%c.

(** The password of the user, when it is known in plain text. *)
Definition plain_password (u : option eap_user) : option (list Z) :=
  match u with
  | Some u => if u.(password_hash) then None else u.(password)
  | None => None
  end.

Definition eap_md5_process (p : eap_priv) (respData : option (list Z)) : MM env eap_priv :=
  d ← mm_lift (the_md5 p);
  s ← mm_shared;
  match plain_password s.(user) with
  | None => mret (PrivMd5 (d <| md5_state := FAILURE |>))
  | Some pw =>
      v ← mm_lift (eap_hdr_validate EAP_VENDOR_IETF EAP_TYPE_MD5 respData);
      match v, respData with
      | Some (pos, plen), Some msg =>
          c ← mm_lift (rd msg pos);
          if negb (c =? CHAP_MD5_LEN) || (plen <? 1 + CHAP_MD5_LEN) then mret (PrivMd5 d)
          else
            resp ← mm_lift (rdn msg (pos + 1) CHAP_MD5_LEN);
            match chap_md5 (eap_get_id msg) pw d.(challenge) with
            | None => mret (PrivMd5 (d <| md5_state := FAILURE |>))
            | Some hash =>
                mret (PrivMd5 (d <| md5_state := (if bool_decide (hash = resp) then SUCCESS else FAILURE) |>))
            end
      | _, _ => mret (PrivMd5 d)
      end
  end.

Definition eap_md5_isDone (p : eap_priv) : bool := negb (is_state CONTINUE p).
Definition eap_md5_isSuccess (p : eap_priv) : bool := is_state SUCCESS p.

Definition eap_server_md5 : eap_method env eap_priv :=
  mkMethod env eap_priv EAP_VENDOR_IETF EAP_TYPE_MD5 eap_md5_init None
    eap_md5_reset eap_md5_buildReq None (Some eap_md5_check) eap_md5_process
    eap_md5_isDone None eap_md5_isSuccess None None.

(** The two, in the order in which they are registered. *)
Definition base_methods : list (eap_method env eap_priv) := [eap_server_identity; eap_server_md5].

End methods.
End EapMethods.
