(* ===== verification/EapServerFrame.v ===== *)
(** * What the EAP server leaves alone

    The server reads [portEnabled] and never writes it: no operation of
    [EapServer] changes it, whatever the methods do. *)

From S2P Require Import Prelude Wpabuf EapolSm EapCommon EapServer.

Module EapServerFrame.
Import EapolSm EapCommon EapServer.

Section frame.
Context {env P : Type} `{HH : !EapHost env} `{HS : !Sha256}.
Context (cfg : eap_config) (eap_methods : list (eap_method env P)).
Abbreviation server := (server env P).
Implicit Types w : server.

Definition port_of w : bool := portEnabled (eap_if w.(esm)).

(** [c] ends, where it ends, with the port as it was. *)
Definition keeps {A} (c : E env P A) : Prop := forall w a w', c w = Ok (a, w') -> port_of w' = port_of w.

Lemma kept_ret {A} (a : A) : keeps (mret a).
Proof. by intros w b w' [= <- <-]. Qed.

Lemma kept_bind {A B} (c : E env P A) (f : A -> E env P B) : keeps c -> (forall a, keeps (f a)) -> keeps (c ≫= f).
Proof.
  intros Hc Hf w b w' H. unfold mbind, E_bind in H. destruct (c w) as [[a v]|] eqn:E; [|done].
  rewrite (Hf a v b w' H). by apply (Hc w a v).
Qed.

Lemma kept_gets {A} (f : server -> A) : keeps (gets f).
Proof. by intros w b w' [= <- <-]. Qed.

Lemma kept_the {A} (f : eap_sm env P -> A) : keeps (the f).
Proof. apply kept_gets. Qed.

Lemma kept_upd f : (forall s, portEnabled (eap_if (f s)) = portEnabled (eap_if s)) -> keeps (upd f).
Proof. intros Hf w b w' [= <- <-]. apply Hf. Qed.

Lemma kept_upd_if f : (forall i, portEnabled (f i) = portEnabled i) -> keeps (upd_if f).
Proof. intros Hf. apply kept_upd. intros s. apply Hf. Qed.

Lemma kept_upd_aaa f : keeps (upd_aaa f).
Proof. by apply kept_upd. Qed.

Lemma kept_upd_shr f : keeps (upd_shr f).
Proof. by apply kept_upd. Qed.

Lemma kept_msg e : keeps (wpa_msg e).
Proof. by intros w b w' [= <- <-]. Qed.

Lemma kept_lift {A} (c : cres A) : keeps (lift c).
Proof. intros w b w'. unfold lift. destruct c; [by intros [= <- <-]|done]. Qed.

Lemma kept_alloc {A} (c : Wpabuf.M A) : keeps (alloc c).
Proof. intros w b w'. unfold alloc. destruct (c _) as [[]|]; [by intros [= <- <-]|done]. Qed.

Lemma kept_ask {A} (f : env -> A * env) : keeps (ask f).
Proof. by intros w b w' [= <- <-]. Qed.

Lemma kept_run {A} (c : MM env A) : keeps (run_method c).
Proof. intros w b w'. unfold run_method. destruct (c _) as [[]|]; [by intros [= <- <-]|done]. Qed.

Lemma kept_when (b : bool) c : keeps c -> keeps (when b c).
Proof. by destruct b; [|intros; apply kept_ret]. Qed.

Lemma kept_malloc : keeps malloc.
Proof. apply kept_alloc. Qed.

Lemma kept_skip : keeps skip.
Proof. apply kept_ret. Qed.

End frame.

Create HintDb keeps.
#[export] Hint Resolve kept_ret kept_gets kept_the kept_upd_aaa kept_upd_shr kept_msg kept_lift kept_alloc kept_ask kept_run
  kept_malloc kept_skip : keeps.

Ltac head_of c := lazymatch c with ?f _ => head_of f | _ => c end.

(** One operator of a computation, or one definition. *)
Ltac keep :=
  intros; cbv zeta;
  lazymatch goal with
  | |- keeps (mbind _ _) => apply kept_bind
  | |- keeps (when _ _) => apply kept_when
  | |- keeps (upd _) => apply kept_upd; intros [] ; cbn; repeat case_match; reflexivity
  | |- keeps (upd_if _) => apply kept_upd_if; intros []; reflexivity
  | |- keeps (if ?b then _ else _) => destruct b
  | |- keeps (match ?x with _ => _ end) => destruct x
  | |- keeps (propose_loop _ _) => solve [auto with keeps]
  | |- keeps ?c => first [solve [auto with keeps] | let h := head_of c in unfold h]
  end.
Ltac keeps := repeat keep.

Section frame.
Context {env P : Type} `{HH : !EapHost env} `{HS : !Sha256}.
Context (cfg : eap_config) (eap_methods : list (eap_method env P)).
Abbreviation keeps := (@keeps env P).

(** Each operation on its own, the loops by induction. *)
Lemma kept_next_method : keeps eap_sm_Policy_getNextMethod.
Proof. keeps. Qed.

Lemma kept_propose_loop fuel : keeps (propose_loop eap_methods fuel).
Proof.
  induction fuel as [|fuel IH]; cbn [propose_loop]; [keeps|].
  apply kept_bind; [apply kept_next_method|]. intros vt. keeps.
Qed.
#[local] Hint Resolve kept_propose_loop : keeps.

Lemma kept_decision : keeps (eap_sm_Policy_getDecision cfg).
Proof. keeps. Qed.
Lemma kept_method_response g : keeps (sm_EAP_METHOD_RESPONSE_Enter cfg g).
Proof. keeps. Qed.
#[local] Hint Resolve kept_decision kept_method_response : keeps.

Lemma kept_step : keeps (sm_EAP_Step cfg eap_methods).
Proof. keeps. Qed.

Lemma kept_step_loop fuel res : keeps (step_loop cfg eap_methods fuel res).
Proof.
  revert res. induction fuel as [|fuel IH]; intros res; cbn [step_loop]; [keeps|].
  apply kept_bind; [keeps|]. intros _. apply kept_bind; [apply kept_step|]. intros _. keeps.
Qed.

(** The server's step leaves the port as it is. *)
Lemma server_step_keeps w b w' : eap_server_sm_step cfg eap_methods w = Ok (b, w') -> port_of w' = port_of w.
Proof. apply kept_step_loop. Qed.
End frame.
End EapServerFrame.
