(* ===== verification/EapServerLogic.v ===== *)
(** * Reasoning on the EAP server

    A weakest precondition for the computations of [EapServer], what the methods
    and the host promise, the part of the machine its control depends on
    ([view]), and what each state does to it on entry. *)

From Stdlib Require Import String.
From S2P Require Import Prelude WpaDefs Wpabuf Codec RsnIe EapolSm EapCommon EapServer.

Module EapServerLogic.
Import WpaDefs Wpabuf EapolSm EapCommon EapServer.

#[local] Open Scope Z_scope.
#[local] Open Scope list_scope.

(** ** What the methods and the host promise *)

Definition wf_shared (s : shared) : Prop :=
  0 <= s.(user_eap_method_index) /\
  match s.(user) with Some u => zlen u.(methods) = EAP_MAX_METHODS | None => True end.

(** What a method may do to its part: keep it well formed, and leave the wait
    for an asynchronous result alone. *)
Definition calm (a b : shared) : Prop :=
  (wf_shared a -> wf_shared b) /\ b.(method_pending) = a.(method_pending).

(** The computation returns, and its result is right. *)
Definition total {env A} (c : MM env A) (Q : method_world env -> A -> method_world env -> Prop) : Prop :=
  forall w, exists a w', c w = Ok (a, w') /\ Q w a w' /\ (length w'.(mmem) <= length w.(mmem))%nat.
Definition total_calm {env A} (c : MM env A) (Q : A -> Prop) : Prop :=
  total c (fun w a w' => Q a /\ calm w.(sh) w'.(sh)).

(** No method has the type none.  Each operation of a method returns when it is given the method's own data
    ([valid]), and [process] when besides the packet passed the method's check,
    or needs none ([ready]).  [init] and [reset] change nothing else, and the
    Identity method can only fail to start for want of memory.  [process] may
    begin a wait when it is not done; it is then ready for any packet. *)
Class MethodsLaws {env P : Type} (eap_methods : list (eap_method env P)) := {
  valid : eap_method env P -> P -> Prop;
  ready : eap_method env P -> P -> option (list Z) -> Prop;
  some_type x : List.In x eap_methods -> m_vendor x = EAP_VENDOR_IETF -> m_method x <> EAP_TYPE_NONE;
  init_ok x : List.In x eap_methods -> total (m_init x) (fun w r w' => w'.(sh) = w.(sh) /\
    match r with
    | Some p => valid x p
    | None => m_vendor x = EAP_VENDOR_IETF -> m_method x = EAP_TYPE_IDENTITY ->
              (length w'.(mmem) < length w.(mmem))%nat
    end);
  pick_up_ok x f : List.In x eap_methods -> m_initPickUp x = Some f ->
    total_calm f (fun r => match r with Some p => valid x p /\ forall d, ready x p d | None => True end);
  reset_ok x p : List.In x eap_methods -> valid x p -> total (m_reset x p) (fun w _ w' => w'.(sh) = w.(sh));
  build_ok x p id : List.In x eap_methods -> valid x p -> total_calm (m_buildReq x p id) (fun r => valid x r.1);
  check_ok x p f d : List.In x eap_methods -> valid x p -> m_check x = Some f ->
    exists b, f p d = Ok b /\ (b = false -> ready x p d);
  no_check_ok x p d : List.In x eap_methods -> valid x p -> m_check x = None -> ready x p d;
  process_ok x p d : List.In x eap_methods -> valid x p -> ready x p d ->
    total (m_process x p d) (fun w p' w' => valid x p' /\ (wf_shared w.(sh) -> wf_shared w'.(sh)) /\
      (w.(sh).(method_pending) = METHOD_PENDING_NONE ->
       w'.(sh).(method_pending) = METHOD_PENDING_NONE \/
       (w'.(sh).(method_pending) = METHOD_PENDING_WAIT /\ m_isDone x p' = false /\ forall d, ready x p' d)));
  key_ok x p f : List.In x eap_methods -> valid x p -> m_getKey x = Some f -> total_calm (f p) (fun _ => True);
  session_ok x p f : List.In x eap_methods -> valid x p -> m_getSessionId x = Some f -> total_calm (f p) (fun _ => True);
  emsk_ok x p f : List.In x eap_methods -> valid x p -> m_get_emsk x = Some f -> total_calm (f p) (fun _ => True)
}.

(** A user has room for eight methods. *)
Class EapHostLaws (env : Type) `{!EapHost env} :=
  user_methods i p e u e' : get_eap_user i p e = (Some u, e') -> zlen u.(methods) = EAP_MAX_METHODS.

(** ** The view *)

(** What the transitions, the proofs of success and the end of the loop depend
    on. *)
Record view (env P : Type) := mkView {
  v_state : eap_st; v_changed : bool; v_port : bool; v_restart : bool; v_resp : bool; v_data : option (list Z);
  v_idle : bool; v_success : bool; v_rounds : Z; v_short : Z; v_try : bool;
  v_aaa : bool * bool * bool * bool; v_shared : shared;
  v_method : option (eap_method env P); v_priv : option P; v_current : Z; v_decision : decision_st;
  v_ignore : bool; v_end : bool
}.
Arguments mkView {env P}.
Arguments v_state {env P} _.
Arguments v_changed {env P} _.
Arguments v_port {env P} _.
Arguments v_restart {env P} _.
Arguments v_resp {env P} _.
Arguments v_data {env P} _.
Arguments v_idle {env P} _.
Arguments v_success {env P} _.
Arguments v_rounds {env P} _.
Arguments v_short {env P} _.
Arguments v_try {env P} _.
Arguments v_aaa {env P} _.
Arguments v_shared {env P} _.
Arguments v_method {env P} _.
Arguments v_priv {env P} _.
Arguments v_current {env P} _.
Arguments v_decision {env P} _.
Arguments v_ignore {env P} _.
Arguments v_end {env P} _.
#[export] Instance settable_view {env P} : Settable (view env P) := fun v =>
  mkView v.(v_state) v.(v_changed) v.(v_port) v.(v_restart) v.(v_resp) v.(v_data) v.(v_idle) v.(v_success)
    v.(v_rounds) v.(v_short) v.(v_try) v.(v_aaa) v.(v_shared) v.(v_method) v.(v_priv) v.(v_current) v.(v_decision) v.(v_ignore) v.(v_end).

Definition view_of {env P} (w : server env P) : view env P :=
  let s := w.(esm) in let i := s.(eap_if) in let a := s.(aaa) in
  mkView s.(EAP_state) s.(changed) i.(portEnabled) i.(eapRestart) i.(eapResp) i.(eapRespData)
    (i.(retransWhile) =? 0) i.(eapSuccess) s.(num_rounds) s.(num_rounds_short) s.(try_initiate_reauth)
    (a.(aaaFail), a.(aaaSuccess), a.(aaaEapReq), a.(aaaTimeout)) s.(shr) s.(m) s.(eap_method_priv)
    s.(currentMethod) s.(decision) s.(ignore) (bool_decide (s.(methodState) = METHOD_END)).

Section logic.
Context {env P : Type} `{HH : !EapHost env} `{HHL : !EapHostLaws env} `{HS : !Sha256}.
Context (cfg : eap_config) (eap_methods : list (eap_method env P)) `{HML : !MethodsLaws eap_methods}.
(** Whether a fault is excluded. *)
Context (strict : bool).

Abbreviation server := (server env P).
Abbreviation E := (E env P).
Abbreviation view := (view env P).
Implicit Types w : server.

(** ** Weakest preconditions *)

(** [Q] holds of the result; a fault has none, and is excluded when [strict]. *)
Definition wp {A} (c : E A) (Q : A -> server -> Prop) w : Prop :=
  match c w with Ok (a, w') => Q a w' | Fault => strict = false end.

Lemma ewp_ret {A} (a : A) Q w : Q a w -> wp (mret a) Q w.
Proof. done. Qed.

Lemma ewp_bind {A B} (c : E A) (f : A -> E B) Q w : wp c (fun a => wp (f a) Q) w -> wp (mbind f c) Q w.
Proof. unfold wp, mbind, E_bind. by destruct (c w) as [[a w']|]. Qed.

Lemma ewp_mono {A} (c : E A) (Q Q' : A -> server -> Prop) w :
  wp c Q w -> (forall a w', Q a w' -> Q' a w') -> wp c Q' w.
Proof. unfold wp. destruct (c w) as [[a w']|]; auto. Qed.

Lemma ewp_and {A} (c : E A) (Q Q' : A -> server -> Prop) w : wp c Q w -> wp c Q' w -> wp c (fun a w' => Q a w' /\ Q' a w') w.
Proof. unfold wp. destruct (c w) as [[a w']|]; auto. Qed.

Lemma ewp_gets {A} (f : server -> A) Q w : Q (f w) w -> wp (gets f) Q w.
Proof. done. Qed.

Lemma ewp_the {A} (f : eap_sm env P -> A) Q w : Q (f w.(esm)) w -> wp (the f) Q w.
Proof. done. Qed.

Lemma ewp_the_id Q w : Q w.(esm) w -> wp (the id) Q w.
Proof. done. Qed.

Lemma ewp_upd f Q w : Q tt (w <| esm := f w.(esm) |>) -> wp (upd f) Q w.
Proof. done. Qed.

Lemma ewp_wpa_msg e Q w : Q tt (w <| messages := w.(messages) ++ [e] |>) -> wp (wpa_msg e) Q w.
Proof. done. Qed.

Lemma ewp_lift {A} (c : cres A) Q w : yields c (fun a => Q a w) -> wp (lift c) Q w.
Proof. by intros (a & -> & H). Qed.

Lemma ewp_ask {A} (f : env -> A * env) Q w : (forall a e, f w.(host) = (a, e) -> Q a (w <| host := e |>)) -> wp (ask f) Q w.
Proof. unfold wp, ask. intros H. destruct (f (host w)) as [a e]. by apply H. Qed.

Lemma ewp_when b c Q w : (b = true -> wp c Q w) -> (b = false -> Q tt w) -> wp (when b c) Q w.
Proof. destruct b; cbn; auto. Qed.

Lemma ewp_alloc {A} (c : Wpabuf.M A) R Q w : runs c R ->
  (forall a mem', (length mem' <= length w.(mem))%nat -> R a -> Q a (w <| mem := mem' |>)) -> wp (alloc c) Q w.
Proof. intros Hc H. unfold wp, alloc. destruct (Hc w.(mem)) as (a & mem' & -> & Hl & Ha). auto. Qed.

Lemma ewp_malloc Q w : (forall (b : bool) mem', (length mem' <= length w.(mem))%nat -> Q b (w <| mem := mem' |>)) -> wp malloc Q w.
Proof. intros H. eapply ewp_alloc; [apply runs_malloc|auto]. Qed.

Lemma ewp_run_method {A} (c : MM env A) R Q w : total c R ->
  (forall a s e mem', R (mkMethodWorld w.(esm).(shr) w.(host) w.(mem)) a (mkMethodWorld s e mem') ->
     (length mem' <= length w.(mem))%nat ->
     Q a (w <| esm := w.(esm) <| shr := s |> |> <| host := e |> <| mem := mem' |>)) ->
  wp (run_method c) Q w.
Proof.
  intros Hc H. unfold wp, run_method.
  destruct (Hc (mkMethodWorld w.(esm).(shr) w.(host) w.(mem))) as (a & [s e mem'] & -> & HR & Hl).
  cbn. by apply H.
Qed.

Lemma ewp_the_method Q w : (forall x, w.(esm).(m) = Some x -> Q x w) -> (w.(esm).(m) = None -> strict = false) ->
  wp the_method Q w.
Proof.
  intros H1 H2. apply ewp_bind, ewp_the. destruct (m (esm w)) as [x|] eqn:Em; [apply ewp_ret; auto|by apply H2].
Qed.

Lemma ewp_the_priv Q w p : w.(esm).(eap_method_priv) = Some p -> Q p w -> wp the_priv Q w.
Proof. intros Ep H. apply ewp_bind, ewp_the. by rewrite Ep. Qed.

Lemma ewp_copy_buf dst src Q w :
  (forall r mem', (length mem' <= length w.(mem))%nat -> Q r (w <| mem := mem' |>)) -> Q (dst, false) w -> wp (eap_copy_buf dst src) Q w.
Proof.
  intros H1 H2. unfold eap_copy_buf. destruct src as [d|]; [|done].
  apply ewp_bind, ewp_malloc. intros b mem' Hl. apply ewp_ret. auto.
Qed.

(** Every computation through the rules. *)
Ltac ewp_step :=
  lazymatch goal with
  | |- wp (mbind _ _) _ _ => apply ewp_bind
  | |- wp (mret _) _ _ => apply ewp_ret
  | |- wp skip _ _ => apply ewp_ret
  | |- wp (gets _) _ _ => apply ewp_gets
  | |- wp (the id) _ _ => apply ewp_the_id
  | |- wp (the _) _ _ => apply ewp_the
  | |- wp (upd _) _ _ => apply ewp_upd
  | |- wp (upd_if _) _ _ => apply ewp_upd
  | |- wp (upd_aaa _) _ _ => apply ewp_upd
  | |- wp (upd_shr _) _ _ => apply ewp_upd
  | |- wp (wpa_msg _) _ _ => apply ewp_wpa_msg
  | |- wp (ask _) _ _ => apply ewp_ask; intros ? ? ?
  | |- wp malloc _ _ => apply ewp_malloc; intros ? ? ?
  | |- wp (eap_copy_buf _ _) _ _ => apply ewp_copy_buf; [intros ? ? ?|]
  | |- wp (eap_copy_data _ _) _ _ => apply ewp_copy_buf; [intros ? ? ?|]
  | |- wp (when _ _) _ _ => apply ewp_when; intros ?
  | |- wp (if ?b then _ else _) _ _ => destruct b eqn:?
  | |- wp (match ?x with _ => _ end) _ _ => destruct x eqn:?
  | |- wp (let x := _ in _) _ _ => cbv zeta
  end; cbv beta.

(** The view on entering a state. *)
Definition ent (st : eap_st) (g : bool) (v : view) : view :=
  v <| v_state := st |> <| v_changed := v.(v_changed) || negb g || negb (bool_decide (v.(v_state) = st)) |>.

Lemma view_eta (v : view) : v = mkView v.(v_state) v.(v_changed) v.(v_port) v.(v_restart) v.(v_resp) v.(v_data) v.(v_idle) v.(v_success)
    v.(v_rounds) v.(v_short) v.(v_try) v.(v_aaa) v.(v_shared) v.(v_method) v.(v_priv) v.(v_current) v.(v_decision)
    v.(v_ignore) v.(v_end).
Proof. by destruct v. Qed.

Lemma ewp_enter st g Q w :
  (forall w', view_of w' = ent st g (view_of w) -> w'.(host) = w.(host) -> w'.(mem) = w.(mem) -> Q tt w') -> wp (enter st g) Q w.
Proof.
  intros H. apply ewp_upd, H; [|done..]. destruct g; unfold ent, view_of; cbn; [|by rewrite orb_true_r].
  rewrite orb_false_r. destruct (bool_decide (EAP_state (esm w) = st)); cbn; by rewrite ?orb_false_r, ?orb_true_r.
Qed.

Ltac entering := intros w <-; apply ewp_bind, ewp_enter; let w1 := fresh "w1" in let Hv := fresh "Hv" in let Hh := fresh "Hh" in
  let Hm := fresh "Hm" in intros w1 Hv Hh Hm; rewrite <- Hv.
Ltac plain := entering; repeat ewp_step; reflexivity.

(** A computation that leaves the view as it is. *)
Definition unseen {A} (c : E A) : Prop := forall w, wp c (fun _ w' => view_of w' = view_of w) w.

Lemma ewp_unseen {A} (c : E A) Q w : unseen c -> (forall a w', view_of w' = view_of w -> Q a w') -> wp c Q w.
Proof. intros Hc H. eapply ewp_mono; [apply Hc|auto]. Qed.

Ltac unseen_tac := intros ?; repeat ewp_step; reflexivity.

Lemma unseen_build_result code id : unseen (build_result code id).
Proof. unfold build_result. unseen_tac. Qed.

Lemma unseen_nextId id : unseen (eap_sm_nextId id).
Proof. unfold eap_sm_nextId. unseen_tac. Qed.

Lemma unseen_copy_aaa : unseen copy_aaa_request.
Proof. unfold copy_aaa_request. unseen_tac. Qed.

Lemma unseen_retransmit : unseen retransmit.
Proof. unfold retransmit. unseen_tac. Qed.

Lemma unseen_parse d : unseen (eap_sm_parseEapResp d).
Proof.
  intros w. unfold eap_sm_parseEapResp. do 2 ewp_step. destruct d as [d|]; [|by apply ewp_ret].
  destruct (Z.ltb_spec (zlen d) sizeof_eap_hdr); [by apply ewp_ret|]. cbv zeta.
  destruct (Z.ltb_spec (zlen d) (eap_length d)); [by apply ewp_ret|]. unfold sizeof_eap_hdr in *.
  do 2 ewp_step. apply ewp_bind.
  match goal with |- wp ?c _ _ => assert (Hu : unseen c) by (unfold unseen; intros ?; repeat ewp_step; reflexivity); apply (ewp_unseen _ _ _ Hu); clear Hu end.
  intros _ w' Hv. ewp_step; [|exact Hv]. ewp_step. apply ewp_lift. exists (at_ d 4). split; [apply rd_ok; lia|].
  do 3 ewp_step; [|exact Hv].
  match goal with H : _ && _ = true |- _ => apply andb_true_iff in H as [_ H]; apply negb_true_iff, Z.ltb_ge in H end.
  ewp_step. apply ewp_lift.
  destruct (get_be24_ok (drop 5 d)) as (v & Ev); [rewrite length_drop; lia|]. exists v. split; [done|]. ewp_step. apply ewp_lift.
  destruct (RsnIe.get_be32_ok (drop 8 d)) as (t & Et); [rewrite length_drop; lia|]. exists t. split; [done|]. ewp_step.
  exact Hv.
Qed.

Lemma rto_loop_pos n rto : 0 < rto -> 0 < rto_loop n rto.
Proof.
  revert rto. induction n as [|n IH]; intros rto H; cbn; [done|]. destruct (Z.leb_spec 20 (rto * 2)); [done|]. apply IH. lia.
Qed.

Lemma timeout_nonzero (s : eap_sm env P) : (eap_sm_calculateTimeout s =? 0) = false.
Proof.
  unfold eap_sm_calculateTimeout. destruct (try_initiate_reauth s); [done|].
  destruct (Z.eqb_spec (methodTimeout s) 0); cbn; [|by apply Z.eqb_neq].
  pose proof (rto_loop_pos (Z.to_nat (retransCount s)) 3). by destruct (Z.eqb_spec (rto_loop (Z.to_nat (retransCount s)) 3) 0); [lia|].
Qed.

Lemma ewp_retransWhile Q w : (forall w', view_of w' = (view_of w) <| v_idle := false |> -> Q tt w') -> wp set_retransWhile Q w.
Proof. intros H. apply ewp_upd, H. unfold view_of. cbn -[eap_sm_calculateTimeout]. by rewrite timeout_nonzero. Qed.

(** ** Views and methods *)

(** The method and its data: both or none, the data the method's own. *)
Definition methods_ok (v : view) : Prop :=
  match v.(v_method), v.(v_priv) with
  | None, None => True
  | Some x, Some p => List.In x eap_methods /\ valid x p
  | _, _ => False
  end.

Lemma methods_ok_some v x : methods_ok v -> v.(v_method) = Some x ->
  exists p, v.(v_priv) = Some p /\ List.In x eap_methods /\ valid x p.
Proof. unfold methods_ok. intros H E. rewrite E in H. destruct (v_priv v) as [p|]; [|done]. by exists p. Qed.

Lemma calm_refl s : calm s s.
Proof. by split. Qed.

Lemma calm_trans a b c : calm a b -> calm b c -> calm a c.
Proof. intros [H1 H2] [H3 H4]. split; [auto|congruence]. Qed.

Lemma ewp_run {A} (c : MM env A) R Q w : total_calm c R ->
  (forall a s w', R a -> calm (view_of w).(v_shared) s -> view_of w' = (view_of w) <| v_shared := s |> -> Q a w') ->
  wp (run_method c) Q w.
Proof. intros Hc H. eapply ewp_run_method; [apply Hc|]. intros a s e mem' [Ha Hs] _. by apply (H a s). Qed.

Lemma ewp_reset_method Q w : methods_ok (view_of w) ->
  (forall w', view_of w' = (view_of w) <| v_priv := None |> -> (length w'.(mem) <= length w.(mem))%nat -> Q tt w') ->
  wp reset_method Q w.
Proof.
  intros Hok H. unfold reset_method. do 2 ewp_step. unfold methods_ok, view_of in Hok. cbn in Hok.
  destruct (m (esm w)) as [x|] eqn:Em, (eap_method_priv (esm w)) as [p|] eqn:Ep; try done.
  - destruct Hok as [Hx Hp]. ewp_step. eapply ewp_run_method; [by apply reset_ok|].
    intros [] s e mem' Hs Hl. cbn in Hs. subst s. ewp_step. apply H; [done|done].
  - ewp_step. apply H; [|done]. unfold view_of. by rewrite Ep.
Qed.

(** The same rules on views: the computation, from any machine with the view
    [v], ends with a result and a view of [R]. *)
Definition vwp {A} (c : E A) (R : A -> view -> Prop) (v : view) : Prop :=
  forall w, view_of w = v -> wp c (fun a w' => R a (view_of w')) w.

Lemma vwp_wp {A} (c : E A) R w : vwp c R (view_of w) -> wp c (fun a w' => R a (view_of w')) w.
Proof. intros H. by apply H. Qed.

Lemma ewp_vwp {A} (c : E A) (R : view -> A -> view -> Prop) Q v : (forall w, wp c (fun a w' => R (view_of w) a (view_of w')) w) ->
  (forall a v', R v a v' -> Q a v') -> vwp c Q v.
Proof. intros Hc H w <-. eapply ewp_mono; [apply Hc|auto]. Qed.

Lemma vwp_ret {A} (a : A) (R : A -> view -> Prop) v : R a v -> vwp (mret a) R v.
Proof. by intros H w <-. Qed.

Lemma vwp_bind {A B} (c : E A) (f : A -> E B) R v : vwp c (fun a => vwp (f a) R) v -> vwp (mbind f c) R v.
Proof. intros H w Hw. apply ewp_bind. eapply ewp_mono; [by apply H|]. intros a w' Hf. by apply Hf. Qed.

Lemma vwp_mono {A} (c : E A) (R R' : A -> view -> Prop) v : vwp c R v -> (forall a v', R a v' -> R' a v') -> vwp c R' v.
Proof. intros H HR w Hw. eapply ewp_mono; [by apply H|auto]. Qed.

Lemma vwp_upd (F : view -> view) f (R : unit -> view -> Prop) v :
  (forall w, view_of (w <| esm := f w.(esm) |>) = F (view_of w)) -> R tt (F v) -> vwp (upd f) R v.
Proof. intros HF H w <-. apply ewp_upd. by rewrite HF. Qed.

Lemma vwp_unseen {A} (c : E A) (R : A -> view -> Prop) v : unseen c -> (forall a, R a v) -> vwp c R v.
Proof. intros Hc H w <-. apply (ewp_unseen _ _ _ Hc). intros a w' ->. apply H. Qed.

Lemma vwp_the {A} f (F : view -> A) (R : A -> view -> Prop) v :
  (forall w, f w.(esm) = F (view_of w)) -> R (F v) v -> vwp (the f) R v.
Proof. intros HF H w <-. apply ewp_the. by rewrite HF. Qed.

Lemma vwp_the_any {A} f (R : A -> view -> Prop) v : (forall a, R a v) -> vwp (the f) R v.
Proof. intros H w <-. apply ewp_the, H. Qed.

Lemma vwp_the_id (R : eap_sm env P -> view -> Prop) v : (forall w, view_of w = v -> R w.(esm) v) -> vwp (the id) R v.
Proof. intros H w Hw. apply ewp_the_id. rewrite Hw. by apply H. Qed.

Lemma vwp_when b c (R : unit -> view -> Prop) v : (b = true -> vwp c R v) -> (b = false -> R tt v) -> vwp (when b c) R v.
Proof. destruct b; cbn; [auto|]. intros _ H. by apply vwp_ret, H. Qed.

Lemma vwp_enter st g (R : unit -> view -> Prop) v : R tt (ent st g v) -> vwp (enter st g) R v.
Proof. intros H w <-. apply ewp_enter. by intros w' -> _ _. Qed.

Lemma vwp_run_total {A} (c : MM env A) R Q v : total c R ->
  (forall a s e m e' m', R (mkMethodWorld v.(v_shared) e m) a (mkMethodWorld s e' m') -> Q a (v <| v_shared := s |>)) ->
  vwp (run_method c) Q v.
Proof.
  intros Hc H w <-. eapply ewp_run_method; [done|]. intros a s e mem' Ha _. by eapply (H a s).
Qed.

Lemma vwp_run {A} (c : MM env A) R Q v : total_calm c R ->
  (forall a s, R a -> calm v.(v_shared) s -> Q a (v <| v_shared := s |>)) -> vwp (run_method c) Q v.
Proof. intros Hc H w <-. eapply ewp_run; [done|]. intros a s w' Ha Hs ->. auto. Qed.

Lemma vwp_reset_method Q v : methods_ok v -> Q tt (v <| v_priv := None |>) -> vwp reset_method Q v.
Proof. intros Hok H w <-. apply ewp_reset_method; [done|]. by intros w' -> _. Qed.

Lemma vwp_the_method Q v : (forall x, v.(v_method) = Some x -> Q x v) -> (v.(v_method) = None -> strict = false) -> vwp the_method Q v.
Proof. intros H1 H2 w <-. by apply ewp_the_method. Qed.

Lemma vwp_the_priv Q v p : v.(v_priv) = Some p -> Q p v -> vwp the_priv Q v.
Proof. intros Hp H w <-. by apply (ewp_the_priv _ _ p). Qed.

Ltac vstep :=
  lazymatch goal with
  | |- vwp (mbind _ _) _ _ => apply vwp_bind
  | |- vwp (mret _) _ _ => apply vwp_ret
  | |- vwp skip _ _ => apply vwp_ret
  | |- vwp (enter _ _) _ _ => apply vwp_enter
  | |- vwp (wpa_msg _) _ _ => apply vwp_unseen; [by intros ?|intros _]
  | |- vwp malloc _ _ => apply vwp_unseen; [unseen_tac|intros ?]
  | |- vwp (ask _) _ _ => apply vwp_unseen; [unseen_tac|intros ?]
  | |- vwp (gets _) _ _ => apply vwp_unseen; [unseen_tac|intros ?]
  | |- vwp (when _ _) _ _ => apply vwp_when; intros ?
  | |- vwp (if ?b then _ else _) _ _ => destruct b eqn:?
  | |- vwp (match ?x with _ => _ end) _ _ => destruct x eqn:?
  | |- vwp (let x := _ in _) _ _ => cbv zeta
  end; cbv beta.
(** An update that does [F] to the view. *)
Ltac vupd F := first [apply vwp_bind; vupd F | apply (vwp_upd F); [by intros ?|]; cbv beta].
Ltac vkeep := first [apply vwp_bind; vkeep | apply vwp_unseen; [by intros ?|intros _; cbv beta]].
Ltac vget F := first [apply vwp_bind; vget F | apply (vwp_the _ F); [by intros ?|]; cbv beta].
Ltac vany := first [apply vwp_bind; vany | apply vwp_the_any; intros ?; cbv beta].

(** ** Entries that only touch the machine's own members *)

Section entries.
Context (g : bool) (v : view).
Abbreviation enters c st f := (vwp c (fun _ v' => v' = f (ent st g v)) v) (only parsing).

Lemma enter_disabled : enters (sm_EAP_DISABLED_Enter g) EAP_DISABLED (fun v => v <| v_rounds := 0 |> <| v_short := 0 |>).
Proof. plain. Qed.

Lemma enter_idle : enters (sm_EAP_IDLE_Enter g) EAP_IDLE (fun v => v <| v_idle := false |>).
Proof. entering. by apply ewp_retransWhile. Qed.

Lemma enter_idle2 : enters (sm_EAP_IDLE2_Enter g) EAP_IDLE2 (fun v => v <| v_idle := false |>).
Proof. entering. by apply ewp_retransWhile. Qed.

Lemma enter_retransmit : enters (sm_EAP_RETRANSMIT_Enter g) EAP_RETRANSMIT id.
Proof. entering. ewp_step. apply (ewp_unseen _ _ _ unseen_retransmit). intros _ w' <-. by ewp_step. Qed.

Lemma enter_retransmit2 : enters (sm_EAP_RETRANSMIT2_Enter g) EAP_RETRANSMIT2 id.
Proof. entering. ewp_step. apply (ewp_unseen _ _ _ unseen_retransmit). intros _ w' <-. by ewp_step. Qed.

Lemma enter_received : vwp (sm_EAP_RECEIVED_Enter g) (fun _ v' => exists r k,
  v' = (ent EAP_RECEIVED g v) <| v_rounds := r |> <| v_short := k |>) v.
Proof. entering. do 3 ewp_step. apply (ewp_unseen _ _ _ (unseen_parse _)). intros _ w' <-. ewp_step. by do 2 eexists. Qed.

Lemma enter_received2 : enters (sm_EAP_RECEIVED2_Enter g) EAP_RECEIVED2 id.
Proof. entering. do 2 ewp_step. apply (ewp_unseen _ _ _ (unseen_parse _)). by intros _ w' ->. Qed.

Lemma enter_discard : enters (sm_EAP_DISCARD_Enter g) EAP_DISCARD (fun v => v <| v_resp := false |>).
Proof. plain. Qed.

Lemma enter_discard2 : enters (sm_EAP_DISCARD2_Enter g) EAP_DISCARD2 (fun v => v <| v_resp := false |>).
Proof. plain. Qed.

Lemma enter_send_request : vwp (sm_EAP_SEND_REQUEST_Enter g) (fun _ v' => exists k,
  v' = (ent EAP_SEND_REQUEST g v) <| v_resp := false |> <| v_short := k |>) v.
Proof.
  entering. do 4 ewp_step. apply ewp_bind, ewp_when; intros _; unfold send_request; repeat ewp_step; eexists; reflexivity.
Qed.

Lemma enter_send_request2 : enters (sm_EAP_SEND_REQUEST2_Enter g) EAP_SEND_REQUEST2 (fun v => v <| v_resp := false |>).
Proof. unfold sm_EAP_SEND_REQUEST2_Enter, send_request. plain. Qed.

Lemma enter_timeout_failure : enters (sm_EAP_TIMEOUT_FAILURE_Enter g) EAP_TIMEOUT_FAILURE id.
Proof. plain. Qed.

Lemma enter_timeout_failure2 : enters (sm_EAP_TIMEOUT_FAILURE2_Enter g) EAP_TIMEOUT_FAILURE2 id.
Proof. plain. Qed.

Lemma enter_failure : enters (sm_EAP_FAILURE_Enter g) EAP_FAILURE id.
Proof. entering. do 3 ewp_step. apply (ewp_unseen _ _ _ (unseen_build_result _ _)). intros r w' <-. repeat ewp_step. reflexivity. Qed.

Lemma enter_failure2 : enters (sm_EAP_FAILURE2_Enter g) EAP_FAILURE2 id.
Proof. entering. ewp_step. apply (ewp_unseen _ _ _ unseen_copy_aaa). intros r w' <-. repeat ewp_step. reflexivity. Qed.

Lemma enter_success : enters (sm_EAP_SUCCESS_Enter g) EAP_SUCCESS (fun v => v <| v_success := true |>).
Proof. entering. do 3 ewp_step. apply (ewp_unseen _ _ _ (unseen_build_result _ _)). intros r w' <-. repeat ewp_step; reflexivity. Qed.

Lemma enter_success2 : enters (sm_EAP_SUCCESS2_Enter g) EAP_SUCCESS2 (fun v => v <| v_success := true |>).
Proof. entering. ewp_step. apply (ewp_unseen _ _ _ unseen_copy_aaa). intros r w' <-. repeat ewp_step; reflexivity. Qed.

Lemma enter_initialize_passthrough :
  enters (sm_EAP_INITIALIZE_PASSTHROUGH_Enter g) EAP_INITIALIZE_PASSTHROUGH (fun v => v <| v_try := false |>).
Proof. plain. Qed.

Lemma enter_aaa_request : enters (sm_EAP_AAA_REQUEST_Enter g) EAP_AAA_REQUEST id.
Proof. plain. Qed.

Lemma enter_aaa_response : enters (sm_EAP_AAA_RESPONSE_Enter g) EAP_AAA_RESPONSE id.
Proof. entering. ewp_step. apply (ewp_unseen _ _ _ unseen_copy_aaa). intros r w' <-. by ewp_step. Qed.

Lemma enter_aaa_idle : enters (sm_EAP_AAA_IDLE_Enter g) EAP_AAA_IDLE
  (fun v => v <| v_aaa := (false, false, false, v.(v_aaa).2) |>).
Proof. plain. Qed.

End entries.


(** ** Entries that run a method *)

Lemma enter_initialize g v : methods_ok v -> vwp (sm_EAP_INITIALIZE_Enter cfg g) (fun _ v' => exists ident,
  let s := v.(v_shared) in v' = (ent EAP_INITIALIZE g v) <| v_success := false |> <| v_restart := false |> <| v_try := false |>
    <| v_shared := mkShared ident s.(user) 0 s.(update_user) METHOD_PENDING_NONE |>
    <| v_method := None |> <| v_priv := None |>
    <| v_current := (if cfg.(backend_auth) then EAP_TYPE_NONE else v.(v_current)) |>
    <| v_rounds := 0 |> <| v_short := 0 |>) v.
Proof.
  intros Hok.
  unfold sm_EAP_INITIALIZE_Enter. do 2 vstep. vany.
  eapply vwp_bind, (vwp_mono _ (fun _ v' => exists ident, v' = (ent EAP_INITIALIZE g v) <| v_shared := v.(v_shared) <| identity := ident |> |>)).
  { vstep; [vupd (fun v : view => v <| v_shared := v.(v_shared) <| identity := None |> |>)|]; [by eexists|].
    exists (identity (v_shared v)). destruct v as [? ? ? ? ? ? ? ? ? ? ? ? []]. reflexivity. }
  intros _ v1 (ident & ->).
  vupd (fun v : view => v <| v_try := false |>).
  vupd (fun v : view => v <| v_success := false |>). vkeep.
  vupd (fun v : view => v <| v_restart := false |>).
  apply vwp_bind, vwp_reset_method; [exact Hok|].
  vupd (fun v : view => v <| v_method := None |>).
  vupd (fun v : view => v <| v_shared := v.(v_shared) <| user_eap_method_index := 0 |> |>).
  match goal with |- vwp _ _ ?v0 => eapply vwp_bind, (vwp_mono _ (fun _ v' =>
    v' = v0 <| v_current := (if backend_auth cfg then EAP_TYPE_NONE else v.(v_current)) |>)) end.
  { apply vwp_when; intros ->; [|done].
    vupd (fun v : view => v <| v_current := EAP_TYPE_NONE |>). vany.
    apply vwp_bind, vwp_unseen; [apply unseen_parse|intros _]. cbv beta. 
    apply vwp_unseen; [|intros _; reflexivity]. intros w. apply ewp_upd. by destruct (rxResp (esm w)). }
  intros _ v1 ->.
  vupd (fun v : view => v <| v_rounds := 0 |> <| v_short := 0 |>).
  vupd (fun v : view => v <| v_shared := v.(v_shared) <| method_pending := METHOD_PENDING_NONE |> |>).
  vkeep. exists ident. reflexivity.
Qed.

Lemma find_in vendor t x : eap_server_get_eap_method eap_methods vendor t = Some x ->
  List.In x eap_methods /\ m_vendor x = vendor /\ m_method x = t.
Proof. intros H. apply List.find_some in H as [Hi H]. apply andb_true_iff in H as [H1 H2]. split_and!; [done|lia|lia]. Qed.

(** What has become of the method on its pick-up. *)
Definition picked_up (v v' : view) : Prop := exists c x p s,
  v' = v <| v_current := c |> <| v_method := x |> <| v_priv := p |> <| v_shared := s |> /\ calm v.(v_shared) s /\
  ((c = v.(v_current) /\ x = v.(v_method) /\ p = v.(v_priv)) \/ (c = EAP_TYPE_NONE /\ x = None /\ p = None) \/
   (c = EAP_TYPE_IDENTITY /\ exists x' p', x = Some x' /\ p = Some p' /\ List.In x' eap_methods /\ valid x' p' /\
      forall d, ready x' p' d)).

Lemma enter_pick_up g v : methods_ok v -> vwp (sm_EAP_PICK_UP_METHOD_Enter eap_methods g) (fun _ v' =>
  picked_up (ent EAP_PICK_UP_METHOD g v) v') v.
Proof.
  intros Hok. unfold sm_EAP_PICK_UP_METHOD_Enter. do 2 vstep. vany.
  match goal with |- vwp _ ?R ?v0 => eapply vwp_bind, (vwp_mono _ R); [|intros _ v' Hv'; vany; vkeep; exact Hv'] end.
  unfold eap_sm_Policy_doPickUp. vstep; [|exists v.(v_current), v.(v_method), v.(v_priv), v.(v_shared); split_and!; [by destruct v|apply calm_refl|auto]].
  assert (a = EAP_TYPE_IDENTITY) as -> by lia.
  vupd (fun v : view => v <| v_current := EAP_TYPE_IDENTITY |>).
  apply vwp_bind, vwp_reset_method; [done|]. cbv zeta.
  destruct (eap_server_get_eap_method _ _ _) as [x|] eqn:Ex.
  2: { vupd (fun v : view => v <| v_method := None |>).
       vupd (fun v : view => v <| v_method := None |> <| v_current := EAP_TYPE_NONE |>).
       exists EAP_TYPE_NONE, None, None, v.(v_shared). split_and!; [by destruct v|apply calm_refl|auto]. }
  vupd (fun v : view => v <| v_method := Some x |>). destruct (m_initPickUp x) as [f|] eqn:Ef.
  2: { vupd (fun v : view => v <| v_method := None |> <| v_current := EAP_TYPE_NONE |>).
       exists EAP_TYPE_NONE, None, None, v.(v_shared). split_and!; [by destruct v|apply calm_refl|auto]. }
  apply find_in in Ex as (Hx & _ & _).
  eapply vwp_bind, vwp_run; [by apply (pick_up_ok x)|]. intros p s Hp Hs.
  vupd (fun v : view => v <| v_priv := p |>). destruct p as [p|]; vstep; try done.
  - exists EAP_TYPE_IDENTITY, (Some x), (Some p), s. split_and!; [done|done|]. right; right. split; [done|]. exists x, p.
    destruct Hp. auto.
  - vupd (fun v : view => v <| v_method := None |> <| v_current := EAP_TYPE_NONE |>).
    exists EAP_TYPE_NONE, None, None, s. split_and!; [done|done|auto].
Qed.

(** The data of the method that is there. *)
Definition on_method (v : view) (R : eap_method env P -> P -> Prop) : Prop :=
  forall x p, v.(v_method) = Some x -> v.(v_priv) = Some p -> R x p.

Lemma vwp_lift {A} (c : cres A) (R : A -> view -> Prop) v : yields c (fun a => R a v) -> vwp (lift c) R v.
Proof. intros H w <-. by apply ewp_lift. Qed.

Lemma enter_integrity g v : methods_ok v -> (strict = true -> v.(v_method) <> None) ->
  vwp (sm_EAP_INTEGRITY_CHECK_Enter g) (fun _ v' => exists b,
    v' = (ent EAP_INTEGRITY_CHECK g v) <| v_ignore := b |> /\ (b = false -> on_method v (fun x p => ready x p v.(v_data)))) v.
Proof.
  intros Hok Hs. unfold sm_EAP_INTEGRITY_CHECK_Enter. do 2 vstep. vget (fun v : view => v.(v_data)). vstep.
  { vupd (fun v : view => v <| v_ignore := true |>). by exists true. }
  apply vwp_bind, vwp_the_method; [|intros E; destruct strict; [by destruct Hs|done]]. intros x Ex. cbn in Ex.
  destruct (methods_ok_some _ _ Hok Ex) as (p & Ep & Hx & Hp).
  destruct (m_check x) as [check|] eqn:Ec.
  - apply vwp_bind, (vwp_the_priv _ _ p); [done|].
    destruct (check_ok x p check (v_data v) Hx Hp Ec) as (b & Eb & Hb).
    apply vwp_bind, vwp_lift. exists b. split; [done|].
    vupd (fun v : view => v <| v_ignore := b |>). exists b. split; [done|]. intros -> x' p' E1 E2. simplify_eq. auto.
  - vstep. exists v.(v_ignore). split; [by destruct v|]. intros _ x' p' E1 E2. simplify_eq. by apply no_check_ok.
Qed.

Lemma enter_method_request g v : methods_ok v ->
  vwp (sm_EAP_METHOD_REQUEST_Enter g) (fun _ v' => exists p s,
    v' = (ent EAP_METHOD_REQUEST g v) <| v_priv := p |> <| v_shared := s |> /\ calm v.(v_shared) s /\ methods_ok v') v.
Proof.
  intros Hok. unfold sm_EAP_METHOD_REQUEST_Enter. do 2 vstep. vget (fun v : view => v.(v_method)).
  destruct (v_method _) as [x|] eqn:Ex; cbn in Ex.
  2: { vstep. exists v.(v_priv), v.(v_shared). split_and!; [by destruct v|apply calm_refl|exact Hok]. }
  destruct (methods_ok_some _ _ Hok Ex) as (p & Ep & Hx & Hp). vany.
  apply vwp_bind, vwp_unseen; [apply unseen_nextId|intros i]. cbv beta. vkeep.
  apply vwp_bind, (vwp_the_priv _ _ p); [done|].
  eapply vwp_bind, vwp_run; [by apply build_ok|]. intros r s Hr Hs. cbn in Hs. cbv beta.
  vupd (fun v : view => v <| v_priv := Some r.1 |>). vkeep. apply vwp_unseen; [by intros ?|intros _].
  exists (Some r.1), s. split_and!; [done|done|]. unfold methods_ok. cbn. by rewrite Ex.
Qed.

(** A computation that at most runs operations of the method [x] on [p]. *)
Definition calm_on x p {A} (c : E A) : Prop := forall v, v.(v_method) = Some x -> v.(v_priv) = Some p ->
  List.In x eap_methods -> valid x p ->
  vwp c (fun _ v' => exists s, v' = v <| v_shared := s |> /\ calm v.(v_shared) s) v.

Lemma calm_unseen x p {A} (c : E A) : unseen c -> calm_on x p c.
Proof. intros Hc v _ _ _ _. apply vwp_unseen; [done|]. intros a. exists v.(v_shared). split; [by destruct v|apply calm_refl]. Qed.

Lemma calm_run x p {A} (c : MM env A) : (List.In x eap_methods -> valid x p -> total_calm c (fun _ => True)) -> calm_on x p (run_method c).
Proof. intros Hc v _ _ Hx Hp. eapply vwp_run; [by apply Hc|]. intros a s _ Hs. by exists s. Qed.

(** After it: the shared part is all that may have changed since [s0]. *)
Lemma calm_then x p {A B} (c : E A) (f : A -> E B) Q v s0 : calm_on x p c -> v.(v_method) = Some x -> v.(v_priv) = Some p ->
  List.In x eap_methods -> valid x p -> calm s0 v.(v_shared) ->
  (forall a s, calm s0 s -> vwp (f a) Q (v <| v_shared := s |>)) -> vwp (mbind f c) Q v.
Proof.
  intros Hc Ex Ep Hx Hp Hs H. eapply vwp_bind, vwp_mono; [by apply Hc|]. intros a v' (s & -> & Hs'). cbv beta. apply H.
  by eapply calm_trans.
Qed.

(** The derivation of the ERP keys of a method that is done. *)
Lemma erp_init_calm x p : is_Some (m_get_emsk x) -> calm_on x p eap_server_erp_init.
Proof.
  intros [f Ef] v Ex Ep Hx Hp.
  assert (Hsame : exists s, v = v <| v_shared := s |> /\ calm v.(v_shared) s).
  { exists v.(v_shared). split; [by destruct v|apply calm_refl]. }
  unfold eap_server_erp_init. do 2 vstep. destruct a as [dom|]; [|by vstep]. do 2 vstep; [done|]. do 3 vstep; [done|].
  apply vwp_the_method; [|by rewrite Ex]. intros x' Ex'. rewrite Ex in Ex'. injection Ex' as <-.
  apply vwp_bind, (vwp_the_priv _ _ p); [done|]. rewrite Ef.
  eapply vwp_bind, vwp_run; [by apply (emsk_ok x)|]. intros emsk s _ Hs. cbv beta. vany.
  assert (Hgo : exists s', v <| v_shared := s |> = v <| v_shared := s' |> /\ calm v.(v_shared) s') by (by exists s).
  destruct emsk as [emsk|]; [|by vstep]. destruct a0 as [sid|]; [|by vstep]. vstep; [by vstep|].
  destruct (erp_keys emsk sid dom); repeat vstep; done.
Qed.

(** What a response does: the method's data, its part of the machine, and
    whether the method is done; a wait only begins when it is not. *)
Definition responded (v v' : view) : Prop := exists p s e,
  v' = v <| v_priv := p |> <| v_shared := s |> <| v_end := e |> /\
  (wf_shared v.(v_shared) -> wf_shared s) /\ methods_ok v' /\
  (s.(method_pending) = METHOD_PENDING_NONE \/
   (s.(method_pending) = METHOD_PENDING_WAIT /\ e = false /\ on_method v' (fun x p => forall d, ready x p d))).

Lemma enter_method_response g v : methods_ok v -> (strict = true -> v.(v_method) <> None) ->
  on_method v (fun x p => ready x p v.(v_data)) -> v.(v_shared).(method_pending) = METHOD_PENDING_NONE ->
  vwp (sm_EAP_METHOD_RESPONSE_Enter cfg g) (fun _ v' => responded (ent EAP_METHOD_RESPONSE g v) v') v.
Proof.
  intros Hok Hs Hr Hp. unfold sm_EAP_METHOD_RESPONSE_Enter. do 2 vstep. vget (fun v : view => v.(v_data)). vstep.
  { vstep. exists v.(v_priv), v.(v_shared), v.(v_end). split_and!; [by destruct v|done|exact Hok|auto]. }
  apply vwp_bind, vwp_the_method; [|intros E; destruct strict; [by destruct Hs|done]]. intros x Ex. cbn in Ex.
  destruct (methods_ok_some _ _ Hok Ex) as (p & Ep & Hx & Hv).
  apply vwp_bind, (vwp_the_priv _ _ p); [done|].
  eapply vwp_bind, vwp_run_total; [exact (process_ok x p v.(v_data) Hx Hv (Hr x p Ex Ep))|].
  cbn. intros p' s e m e' m' (Hv' & Hwf & Hpend). specialize (Hpend Hp).
  vupd (fun v : view => v <| v_priv := Some p' |>). set (v1 := _ <| v_priv := _ |>).
  assert (Hend : forall s' b, calm s s' -> (b = true -> m_isDone x p' = true) ->
    responded (ent EAP_METHOD_RESPONSE g v) (v1 <| v_shared := s' |> <| v_end := b |>)).
  { intros s' b [Hs1 Hs2] Hb. exists (Some p'), s', b. split_and!; [done|auto| |].
    - unfold methods_ok. cbn. by rewrite Ex.
    - rewrite Hs2. destruct Hpend as [|(H1 & H2 & H3)]; [by left|right]. split_and!; [done| |].
      + destruct b; [|done]. specialize (Hb eq_refl). congruence.
      + intros x' p2 E1 E2. cbn in E1, E2. by simplify_eq. }
  assert (Hthen : forall A B (c : E A) (f : A -> E B) Q s0, calm_on x p' c -> calm s s0 ->
    (forall a s', calm s s' -> vwp (f a) Q (v1 <| v_shared := s' |>)) -> vwp (mbind f c) Q (v1 <| v_shared := s0 |>)).
  { intros A B c f Q s0 Hc H0 H1. by eapply (calm_then x p' c f Q (v1 <| v_shared := s0 |>) s). }
  destruct (m_isDone x p') eqn:Ed.
  2: { vupd (fun v : view => v <| v_end := false |>). apply (Hend s false); [apply calm_refl|done]. }
  change v1 with (v1 <| v_shared := s |>).
  apply Hthen; [by apply calm_unseen; intros ?|apply calm_refl|]. intros _ s1 H1.
  apply (Hthen _ _ _ _ _ s1); [|done|].
  { destruct (m_getKey x) as [f|] eqn:Ef; [|by apply calm_unseen; intros ?]. apply calm_run. intros. by apply (key_ok x). }
  intros key s2 H2. apply (Hthen _ _ _ _ _ s2); [by apply calm_unseen; intros ?|done|]. intros _ s3 H3.
  apply (Hthen _ _ _ _ _ s3); [|done|].
  { destruct (m_getSessionId x) as [f|] eqn:Ef; [|by apply calm_unseen; intros ?]. intros v2 E1 E2 _ _.
    eapply vwp_bind, vwp_run; [by apply (session_ok x p' f)|]. intros sid s' _ Hs'. cbv beta. 
    apply vwp_unseen; [by intros ?|]. intros _. by exists s'. }
  intros _ s4 H4. vany. apply (Hthen _ _ _ _ _ s4); [|done|].
  { unfold when. destruct (_ && _) eqn:Eb; [|by apply calm_unseen; intros ?]. apply erp_init_calm.
    apply andb_true_iff in Eb as [Eb _]. apply andb_true_iff in Eb as [_ Eb]. by apply bool_decide_eq_true in Eb. }
  intros _ s5 H5. vupd (fun v : view => v <| v_end := true |>). by apply (Hend s5 true).
Qed.

(** ** Entries that choose *)

(** The turns the search for a method may still take. *)
Definition turns (w : server) : nat :=
  (length w.(mem) + Z.to_nat (EAP_MAX_METHODS - w.(esm).(shr).(user_eap_method_index)))%nat.

Lemma next_method_ok w : 0 <= w.(esm).(shr).(user_eap_method_index) ->
  wp eap_sm_Policy_getNextMethod (fun vt w' => exists s,
    view_of w' = (view_of w) <| v_shared := s |> /\ calm (view_of w).(v_shared) s /\ w'.(mem) = w.(mem) /\
    0 <= s.(user_eap_method_index) /\
    (vt = (EAP_VENDOR_IETF, EAP_TYPE_NONE) \/ (turns w' < turns w)%nat \/
     (vt = (EAP_VENDOR_IETF, EAP_TYPE_IDENTITY) /\ turns w' = turns w))) w.
Proof.
  intros Hi. unfold eap_sm_Policy_getNextMethod. do 2 ewp_step.
  assert (Hid : wp (upd_shr (fun s => s <| update_user := true |>) ;; mret (EAP_VENDOR_IETF, EAP_TYPE_IDENTITY))
    (fun vt w' => exists s,
    view_of w' = (view_of w) <| v_shared := s |> /\ calm (view_of w).(v_shared) s /\ w'.(mem) = w.(mem) /\
    0 <= s.(user_eap_method_index) /\
    (vt = (EAP_VENDOR_IETF, EAP_TYPE_NONE) \/ (turns w' < turns w)%nat \/
     (vt = (EAP_VENDOR_IETF, EAP_TYPE_IDENTITY) /\ turns w' = turns w))) w).
  { repeat ewp_step. eexists. split; [reflexivity|]. split_and!; [by split|done|done|auto]. }
  assert (Hno : forall vt w', w' = w -> vt = (EAP_VENDOR_IETF, EAP_TYPE_NONE) -> exists s,
    view_of w' = (view_of w) <| v_shared := s |> /\ calm (view_of w).(v_shared) s /\ w'.(mem) = w.(mem) /\
    0 <= s.(user_eap_method_index) /\
    (vt = (EAP_VENDOR_IETF, EAP_TYPE_NONE) \/ (turns w' < turns w)%nat \/
     (vt = (EAP_VENDOR_IETF, EAP_TYPE_IDENTITY) /\ turns w' = turns w))).
  { intros vt w' -> ->. exists (shr (esm w)). split_and!; [done|apply calm_refl|done|done|auto]. }
  destruct (identity _); [|done]. cbn [id]. destruct (currentId _ =? -1); [done|].
  destruct (user _) as [u|] eqn:Eu; [|apply ewp_ret; by apply Hno].
  destruct (_ && _) eqn:Eb; [|apply ewp_ret; by apply Hno].
  apply andb_true_iff in Eb as [Eb _]. apply Z.ltb_lt in Eb. unfold EAP_MAX_METHODS in Eb.
  repeat ewp_step. eexists. split; [reflexivity|]. unfold turns, EAP_MAX_METHODS. cbn.
  split_and!; [split; [|done]|done|lia|right; left; lia]. unfold wf_shared. cbn. intros [_ H]. split; [lia|done].
Qed.

(** What a proposal does. *)
Definition proposes (v v' : view) : Prop := exists c x p s d e,
  v' = v <| v_current := c |> <| v_method := x |> <| v_priv := p |> <| v_shared := s |> <| v_decision := d |> <| v_end := e |> /\
  calm v.(v_shared) s /\ methods_ok v'.

Lemma proposes_trans a b c : proposes a b -> proposes b c -> proposes a c.
Proof.
  intros (c1 & x1 & p1 & s1 & d1 & e1 & -> & H1 & _) (c2 & x2 & p2 & s2 & d2 & e2 & -> & H2 & H3).
  exists c2, x2, p2, s2, d2, e2. split_and!; [done|by eapply calm_trans|done].
Qed.

Lemma propose_ok fuel : forall w, methods_ok (view_of w) -> 0 <= w.(esm).(shr).(user_eap_method_index) -> (turns w < fuel)%nat ->
  wp (propose_loop eap_methods fuel) (fun _ w' => proposes (view_of w) (view_of w')) w.
Proof.
  induction fuel as [|fuel IH]; intros w Hok Hi Ht; [lia|]. cbn [propose_loop].
  apply ewp_bind. eapply ewp_mono; [by apply next_method_ok|]. cbv beta. intros vt w1 (s & Hv1 & Hs & Hmem & Hi' & Hturn).
  do 2 ewp_step. apply ewp_bind, ewp_reset_method; [unfold methods_ok in *; change (methods_ok (view_of w1)); by rewrite Hv1|].
  intros w2 Hv2 Hl. change ((view_of _) <| v_priv := None |>) with ((view_of w1) <| v_current := (if vt.1 =? EAP_VENDOR_IETF then vt.2 else EAP_TYPE_EXPANDED) |> <| v_priv := None |>) in Hv2.
  rewrite Hv1 in Hv2. change (length w2.(mem) <= length w1.(mem))%nat in Hl. generalize dependent (if vt.1 =? EAP_VENDOR_IETF then vt.2 else EAP_TYPE_EXPANDED).
  intros c Hv2. destruct (eap_server_get_eap_method eap_methods vt.1 vt.2) as [x|] eqn:Ex.
  2: { repeat ewp_step. exists c, None, None, s, DECISION_FAILURE, (view_of w).(v_end). split_and!; [|done|].
       - transitivity ((view_of w2) <| v_method := None |> <| v_decision := DECISION_FAILURE |>); [done|]. by rewrite Hv2.
       - change (methods_ok ((view_of w2) <| v_method := None |> <| v_decision := DECISION_FAILURE |>)). by rewrite Hv2. }
  destruct (find_in _ _ _ Ex) as (Hx & Hven & Hty). do 3 ewp_step. eapply ewp_run_method; [by apply init_ok|].
  intros p s' e mem' [Hs' Hp] Hl'. cbn in Hs', Hp, Hl'. subst s'. ewp_step. ewp_step.
  set (w3 := w2 <| esm := _ |> <| esm := _ |> <| host := _ |> <| mem := _ |> <| esm := _ |>).
  assert (Hv3 : view_of w3 = (view_of w) <| v_shared := s |> <| v_current := c |> <| v_method := Some x |> <| v_priv := p |>).
  { transitivity ((view_of w2) <| v_method := Some x |> <| v_priv := p |>); [done|]. by rewrite Hv2. }
  assert (Hl3 : length w3.(mem) = length mem') by done. clearbody w3. destruct p as [p|].
  - unfold proposed. repeat ewp_step. exists c, (Some x), (Some p), s, (view_of w).(v_decision). eexists. split_and!; [|done|].
    + transitivity ((view_of w3) <| v_end := false |>); [|rewrite Hv3; reflexivity]. unfold view_of; cbn. by destruct (_ || _).
    + change (methods_ok ((view_of w3) <| v_end := false |>)). rewrite Hv3. unfold methods_ok. cbn. auto.
  - unfold no_current_method. do 2 ewp_step. eapply ewp_mono; [apply IH|].
    + change (methods_ok ((view_of w3) <| v_method := None |> <| v_current := EAP_TYPE_NONE |>)). by rewrite Hv3.
    + change (0 <= (view_of w3).(v_shared).(user_eap_method_index)). by rewrite Hv3.
    + assert (Et : forall u : server, turns u = (length u.(mem) + Z.to_nat (EAP_MAX_METHODS - (view_of u).(v_shared).(user_eap_method_index)))%nat) by done.
      rewrite Et in Hturn. rewrite Et. change (length w3.(mem) + Z.to_nat (EAP_MAX_METHODS - (view_of w3).(v_shared).(user_eap_method_index)) < fuel)%nat.
      rewrite Hv1, Hmem in Hturn. rewrite Hv3.
      rewrite Hmem in Hl. cbn in Hturn |- *. destruct Hturn as [->|[H|[-> H]]]; [by destruct (some_type x Hx Hven)|lia|].
      specialize (Hp Hven Hty). lia.
    + cbv beta. intros _ w4 H4. eapply proposes_trans; [|exact H4].
      exists EAP_TYPE_NONE, None, None, s, (view_of w).(v_decision), (view_of w).(v_end). split_and!; [|done|].
      * transitivity ((view_of w3) <| v_method := None |> <| v_current := EAP_TYPE_NONE |>); [done|]. by rewrite Hv3.
      * change (methods_ok ((view_of w3) <| v_method := None |> <| v_current := EAP_TYPE_NONE |>)). by rewrite Hv3.
Qed.

Lemma enter_propose g v : methods_ok v -> wf_shared v.(v_shared) ->
  vwp (sm_EAP_PROPOSE_METHOD_Enter eap_methods g) (fun _ v' => proposes ((ent EAP_PROPOSE_METHOD g v) <| v_try := false |>) v') v.
Proof.
  intros Hok [Hwf _]. unfold sm_EAP_PROPOSE_METHOD_Enter. do 2 vstep. vupd (fun v : view => v <| v_try := false |>).
  intros w Hw. do 2 ewp_step. eapply ewp_mono; [apply propose_ok|].
  - by rewrite Hw.
  - change (0 <= (view_of w).(v_shared).(user_eap_method_index)). by rewrite Hw.
  - unfold turns. change (shr (esm w)) with (view_of w).(v_shared). rewrite Hw. cbn. unfold EAP_MAX_METHODS. lia.
  - cbv beta. intros _ w' H. by rewrite Hw in H.
Qed.

(** *** The Nak *)

Lemma length_remove_method i l : 0 <= i < zlen l -> zlen (remove_method i l) = zlen l.
Proof. intros H. unfold remove_method. rewrite !length_app, length_take, length_drop. cbn. lia. Qed.

(** The entries from [i] on that still name a method. *)
Definition named (i : Z) (l : list (Z * Z)) : nat := length (filter (fun vm => no_method vm = false) (drop (Z.to_nat i) l)).

Lemma named_step i l : 0 <= i < zlen l -> no_method (nth (Z.to_nat i) l (0, 0)) = false ->
  named i l = S (named (i + 1) l) /\ named i (remove_method i l) = named (i + 1) l.
Proof.
  intros Hi Hn. unfold named. assert (Hlt : (Z.to_nat i < length l)%nat) by lia.
  destruct (lookup_lt_is_Some_2 l (Z.to_nat i) Hlt) as [y Hy]. rewrite (drop_S l y (Z.to_nat i) Hy).
  rewrite (nth_lookup_Some _ _ _ _ Hy) in Hn. rewrite filter_cons_True by done.
  replace (Z.to_nat (i + 1)) with (S (Z.to_nat i)) by lia. split; [done|].
  unfold remove_method. rewrite drop_app_length' by (rewrite length_take; lia).
  replace (Z.to_nat i + 1)%nat with (S (Z.to_nat i)) by lia.
  by rewrite filter_app, app_nil_r.
Qed.

Lemma nak_loop_ok fuel : forall nak i l, 0 <= i -> zlen l = EAP_MAX_METHODS -> (named i l <= fuel)%nat ->
  yields (nak_loop fuel nak i l) (fun l' => zlen l' = EAP_MAX_METHODS).
Proof.
  unfold EAP_MAX_METHODS. induction fuel as [|fuel IH]; intros nak i l Hi Hl Hf; cbn [nak_loop];
    destruct (_ && _) eqn:Eb; try by apply yields_ok.
  all: apply andb_true_iff in Eb as [Hlt Hn]; apply Z.ltb_lt in Hlt; apply negb_true_iff in Hn; unfold EAP_MAX_METHODS in Hlt.
  all: destruct (named_step i l) as [E1 E2]; [lia|done|].
  - lia.
  - cbv zeta. destruct (_ && _); apply IH; try lia. rewrite length_remove_method by lia. done.
Qed.

Lemma policy_update_ok nak v : wf_shared v.(v_shared) ->
  vwp (eap_sm_Policy_update nak) (fun _ v' => exists s d, v' = v <| v_shared := s |> <| v_decision := d |> /\
    wf_shared s /\ s.(method_pending) = v.(v_shared).(method_pending)) v.
Proof.
  intros Hwf.
  assert (Hsame : exists s d, v = v <| v_shared := s |> <| v_decision := d |> /\ wf_shared s /\
    s.(method_pending) = v.(v_shared).(method_pending)).
  { exists v.(v_shared), v.(v_decision). split_and!; [by destruct v|done|done]. }
  unfold eap_sm_Policy_update. vget (fun v : view => v.(v_shared)).
  destruct nak as [nak|], (user (v_shared v)) as [u|] eqn:Eu; try by vstep. vstep.
  { vupd (fun v : view => v <| v_decision := DECISION_FAILURE |>). exists v.(v_shared), DECISION_FAILURE.
    split_and!; [by destruct v|done|done]. }
  unfold eap_sm_process_nak. vget (fun v : view => v.(v_shared)). rewrite Eu. vstep. apply vwp_lift.
  destruct Hwf as [Hi Hu]. rewrite Eu in Hu. eapply yields_mono; [apply nak_loop_ok; [done|done|]|].
  { unfold named. etransitivity; [apply length_filter|]. rewrite length_drop. unfold EAP_MAX_METHODS in *. lia. }
  intros l Hl. cbv beta.
  vupd (fun v : view => v <| v_shared := v.(v_shared) <| user := Some (u <| methods := l |>) |> |>).
  exists (v.(v_shared) <| user := Some (u <| methods := l |>) |>), v.(v_decision). split_and!; [by destruct v|by split|done].
Qed.

Lemma enter_nak g v : methods_ok v -> wf_shared v.(v_shared) ->
  vwp (sm_EAP_NAK_Enter g) (fun _ v' => exists s d,
    v' = (ent EAP_NAK g v) <| v_method := None |> <| v_priv := None |> <| v_shared := s |> <| v_decision := d |> /\
    wf_shared s /\ s.(method_pending) = v.(v_shared).(method_pending)) v.
Proof.
  intros Hok Hwf. unfold sm_EAP_NAK_Enter. do 2 vstep. vget (fun v : view => v.(v_priv)).
  match goal with |- vwp _ _ ?v0 => eapply vwp_bind, (vwp_mono _ (fun _ v' => v' = v0 <| v_priv := None |>)) end.
  { unfold methods_ok in Hok. change (v_priv (ent EAP_NAK g v)) with (v_priv v). destruct (v_priv v) as [p|] eqn:Ep.
    - apply vwp_bind, vwp_the_method; [|intros E; cbn in E; by rewrite E in Hok]. intros x Ex. cbn in Ex. rewrite Ex in Hok.
      destruct Hok as [Hx Hp]. eapply vwp_bind, vwp_run_total; [by apply reset_ok|]. cbn. intros _ s e m e' m' ->.
      vupd (fun v : view => v <| v_priv := None |>). by destruct v.
    - vstep. cbn. by rewrite <- Ep; destruct v. }
  intros _ v1 ->. vupd (fun v : view => v <| v_method := None |>). vget (fun v : view => v.(v_data)). cbn.
  set (v1 := (ent EAP_NAK g v) <| v_priv := None |> <| v_method := None |>).
  assert (Hsame : exists s d,
    v1 = (ent EAP_NAK g v) <| v_method := None |> <| v_priv := None |> <| v_shared := s |> <| v_decision := d |> /\
    wf_shared s /\ s.(method_pending) = v.(v_shared).(method_pending)).
  { exists v.(v_shared), v.(v_decision). by split_and!. }
  vstep; [by vstep|]. destruct (v_data v) as [d|]; [|by vstep].
  match goal with H : negb _ = false |- _ => apply negb_false_iff, hdr_len_valid_spec in H as [Hl1 Hl2]; unfold sizeof_eap_hdr in * end.
  assert (Hpu : forall nak, vwp (eap_sm_Policy_update nak) (fun _ v' => exists s d,
    v' = (ent EAP_NAK g v) <| v_method := None |> <| v_priv := None |> <| v_shared := s |> <| v_decision := d |> /\
    wf_shared s /\ s.(method_pending) = v.(v_shared).(method_pending)) v1).
  { intros nak. eapply vwp_mono; [by apply policy_update_ok|]. intros _ v' (s & d' & -> & H1 & H2).
    exists s, d'. by split_and!. }
  vstep; [|done]. apply vwp_bind, vwp_lift. unfold nak_list. cbv zeta. apply yields_rd; [unfold sizeof_eap_hdr; lia|].
  destruct (_ =? _); [|by apply yields_ok].
  apply yields_rdn; [lia| | |apply yields_ok, Hpu]; unfold sizeof_eap_hdr; destruct (Z.ltb_spec (zlen d) (eap_length d)); lia.
Qed.

(** *** The decision *)

(** The method has run its course and is content: what [SUCCESS] rests on. *)
Definition succeeded (v : view) : Prop := exists x p, v.(v_method) = Some x /\ v.(v_priv) = Some p /\
  v.(v_current) <> EAP_TYPE_IDENTITY /\ m_isSuccess x p = true.

(** A computation that may change the user and the index. *)
Definition looks_up {A} (c : E A) (Q : A -> Prop) : Prop := forall v, wf_shared v.(v_shared) ->
  vwp c (fun a v' => Q a /\ exists s, v' = v <| v_shared := s |> /\ wf_shared s /\
    s.(method_pending) = v.(v_shared).(method_pending)) v.

Lemma looks_up_bind {A B} (c : E A) (f : A -> E B) P1 Q : looks_up c P1 -> (forall a, P1 a -> looks_up (f a) Q) -> looks_up (mbind f c) Q.
Proof.
  intros Hc Hf v Hwf. eapply vwp_bind, vwp_mono; [by apply Hc|]. intros a v1 (Ha & s & -> & H1 & H2). cbv beta.
  eapply vwp_mono; [by apply Hf|]. intros b v2 (Hb & s' & -> & H3 & H4). split; [done|]. exists s'. split_and!; [done|done|].
  by rewrite H4.
Qed.

Lemma looks_up_unseen {A} (c : E A) (Q : A -> Prop) : (forall w, wp c (fun a w' => Q a /\ view_of w' = view_of w) w) -> looks_up c Q.
Proof.
  intros Hc v Hwf w <-. eapply ewp_mono; [apply Hc|]. intros a w' [Ha ->]. split; [done|].
  exists (view_of w).(v_shared). by split_and!.
Qed.

Lemma looks_up_mono {A} (c : E A) (Q Q' : A -> Prop) : looks_up c Q -> (forall a, Q a -> Q' a) -> looks_up c Q'.
Proof. intros Hc H v Hwf. eapply vwp_mono; [by apply Hc|]. intros a v' (Ha & s). auto. Qed.

Lemma looks_up_shr f : (forall s, wf_shared s -> wf_shared (f s) /\ (f s).(method_pending) = s.(method_pending)) ->
  looks_up (upd_shr f) (fun _ => True).
Proof.
  intros Hf v Hwf. vupd (fun v : view => v <| v_shared := f v.(v_shared) |>). split; [done|]. exists (f v.(v_shared)).
  destruct (Hf _ Hwf). by split_and!.
Qed.

Lemma looks_up_ret {A} (a : A) (Q : A -> Prop) : Q a -> looks_up (mret a) Q.
Proof. intros H. by apply looks_up_unseen; intros w. Qed.

Lemma looks_up_if {A} (b : bool) (c1 c2 : E A) Q : looks_up c1 Q -> looks_up c2 Q -> looks_up (if b then c1 else c2) Q.
Proof. by destruct b. Qed.

Lemma looks_up_the {A} (f : eap_sm env P -> A) : looks_up (the f) (fun _ => True).
Proof. by apply looks_up_unseen; intros w. Qed.

Lemma user_get_ok ident ph2 : looks_up (eap_user_get ident ph2) (fun _ => True).
Proof.
  unfold eap_user_get. eapply looks_up_bind; [apply looks_up_shr|].
  { intros s [H1 H2]. by repeat split. }
  intros _ _. eapply looks_up_bind; [apply (looks_up_unseen _ (fun _ => True)); intros w; by apply ewp_malloc|].
  intros b _. apply looks_up_if; [by apply looks_up_ret|].
  eapply (looks_up_bind _ _ (fun r => match r with Some u => zlen u.(methods) = EAP_MAX_METHODS | None => True end)).
  - apply looks_up_unseen. intros w. apply ewp_ask. intros r e Er. split; [|done]. destruct r; [|done]. by eapply user_methods.
  - intros [u|] Hu; [|by apply looks_up_ret]. eapply looks_up_bind; [|by intros; apply looks_up_ret].
    apply looks_up_shr. intros s Hs. by repeat split.
Qed.

Lemma decide_user_ok : looks_up decide_user (fun _ => True).
Proof.
  unfold decide_user. eapply looks_up_bind; [apply looks_up_the|]. intros s _. cbv zeta.
  assert (Hupd : forall b c, looks_up (upd_shr (fun s => s <| update_user := b |>) ;; mret c : E bool) (fun _ => True)).
  { intros b c. eapply looks_up_bind; [|by intros; apply looks_up_ret]. by apply looks_up_shr; intros []. }
  destruct (identity _) as [ident|]; [|by apply looks_up_ret]. apply looks_up_if; [|by apply looks_up_ret].
  eapply looks_up_bind; [apply user_get_ok|]. intros b _. apply looks_up_if; [by apply looks_up_ret|].
  eapply looks_up_bind; [apply looks_up_the|]. intros u _. apply looks_up_if; apply Hupd.
Qed.

(** A decision other than success, and one for the start of ERP only when that
    is asked for. *)
Definition fair (d : decision_st) : Prop :=
  d <> DECISION_SUCCESS /\ (d = DECISION_INITIATE_REAUTH_START -> exists e, get_erp_send_reauth_start e = true).

Lemma decide_next_ok : looks_up decide_next fair.
Proof.
  apply looks_up_unseen. intros w. unfold decide_next. do 5 ewp_step; [by ewp_step|]. do 3 ewp_step.
  - ewp_step. split; [|done]. split; [done|]. intros _. exists (host w).
    match goal with H : _ && _ = true |- _ => apply andb_true_iff in H as [H _]; by apply andb_true_iff in H as [_ H] end.
  - repeat ewp_step; done.
Qed.

Lemma enter_select g v : methods_ok v -> wf_shared v.(v_shared) ->
  vwp (sm_EAP_SELECT_ACTION_Enter cfg g) (fun _ v' => exists s d,
    v' = (ent EAP_SELECT_ACTION g v) <| v_shared := s |> <| v_decision := d |> /\
    wf_shared s /\ s.(method_pending) = v.(v_shared).(method_pending) /\ (d = DECISION_SUCCESS -> succeeded v) /\
    (d = DECISION_INITIATE_REAUTH_START -> exists e, get_erp_send_reauth_start e = true)) v.
Proof.
  intros Hok Hwf. unfold sm_EAP_SELECT_ACTION_Enter. do 2 vstep.
  match goal with |- vwp _ _ ?v0 => eapply vwp_bind, (vwp_mono _ (fun d v' => exists s, v' = v0 <| v_shared := s |> /\
    wf_shared s /\ s.(method_pending) = v.(v_shared).(method_pending) /\ (d = DECISION_SUCCESS -> succeeded v) /\
    (d = DECISION_INITIATE_REAUTH_START -> exists e, get_erp_send_reauth_start e = true))) end.
  2: { intros d v' (s & -> & H). vupd (fun v : view => v <| v_decision := d |>). by exists s, d. }
  unfold eap_sm_Policy_getDecision. vstep. apply vwp_the_id. intros w Hw. cbv beta. vstep.
  { vstep. exists v.(v_shared). by split_and!. }
  assert (Em : m (esm w) = v.(v_method)) by (change (m (esm w)) with (view_of w).(v_method); by rewrite Hw).
  assert (Ec : currentMethod (esm w) = v.(v_current)) by (change (currentMethod (esm w)) with (view_of w).(v_current); by rewrite Hw).
  rewrite Em, Ec. clear Hw Em Ec Heqb.
  match goal with |- vwp _ _ ?v0 => eapply vwp_bind, (vwp_mono _ (fun o v' => v' = v0 /\
    match o with Some DECISION_SUCCESS => succeeded v | Some d => d = DECISION_FAILURE | None => True end)) end.
  { destruct (v_method v) as [x|] eqn:Ex; [|by vstep]. destruct (methods_ok_some _ _ Hok Ex) as (p & Ep & _ & _).
    apply vwp_bind, (vwp_the_priv _ _ p); [done|]. vstep. split; [done|]. destruct (_ && _) eqn:Eb.
    - apply andb_true_iff in Eb as [E1 E2]. apply negb_true_iff, Z.eqb_neq in E1. by exists x, p.
    - by destruct (m_isDone x p && _). }
  intros o v1 [-> Ho]. destruct o as [d|].
  - apply vwp_bind, (vwp_upd (fun v : view => v <| v_shared := v.(v_shared) <| update_user := true |> |>)); [by intros ?|].
    cbv beta. vstep. exists (v.(v_shared) <| update_user := true |>). split_and!; [done|done|done| |].
    + by intros ->.
    + intros ->. discriminate Ho.
  - match goal with |- vwp ?c _ ?v0 => assert (Hl : looks_up c fair) end.
    { eapply looks_up_bind; [apply decide_user_ok|]. intros b _. apply looks_up_if; [by apply looks_up_ret|apply decide_next_ok]. }
    eapply vwp_mono; [by apply Hl|]. cbv beta. intros d v' ([H1 H2] & s & -> & H3 & H4). exists s. by split_and!.
Qed.

Lemma runs_wp_unseen {A} (c : Wpabuf.M A) R : runs c R -> unseen (alloc c).
Proof. intros Hc w. eapply ewp_alloc; [done|]. by intros. Qed.

Lemma reauth_start_runs dom id : runs (reauth_start dom id) (fun _ => True).
Proof.
  unfold reauth_start. cbv zeta. eapply wruns_bind; [apply wruns_msg_alloc; destruct dom; lia|].
  intros [b|] Hb; [|by apply wruns_ret]. destruct Hb as [Hh Hs].
  assert (Hl : forall p, zlen (eap_header EAP_ERP_TYPE_REAUTH_START p EAP_CODE_INITIATE id) = 5) by done.
  eapply runs_put; [exact Hh|rewrite Hl; cbn; destruct dom; lia|]. intros b1 H1 S1. destruct dom as [d|]; [|by apply wruns_ret].
  eapply runs_put; [exact H1|rewrite length_app; cbn; lia|]. intros b2 H2 S2.
  eapply runs_put; [exact H2|rewrite !length_app; cbn; lia|]. intros b3 H3 S3.
  eapply runs_put; [exact H3|rewrite !length_app; cbn; lia|]. intros b4 H4 S4. by apply wruns_ret.
Qed.

Lemma enter_initiate_reauth_start g v :
  vwp (sm_EAP_INITIATE_REAUTH_START_Enter g) (fun _ v' => v' = (ent EAP_INITIATE_REAUTH_START g v) <| v_try := true |>) v.
Proof.
  unfold sm_EAP_INITIATE_REAUTH_START_Enter. do 2 vstep. vupd (fun v : view => v <| v_try := true |>). vany.
  apply vwp_bind, vwp_unseen; [apply unseen_nextId|intros i]. cbv beta. vkeep.
  apply vwp_bind, vwp_unseen; [|intros r].
  { unfold eap_sm_buildInitiateReauthStart. intros w. do 2 ewp_step. eapply runs_wp_unseen, reauth_start_runs. }
  cbv beta. vkeep. by apply vwp_unseen; [by intros ?|intros _].
Qed.

(** *** The ERP exchange *)

(** The end of the packet is the hash, under the key [k], of what is before it. *)
Definition tagged (k : eap_server_erp_key) (d : list Z) (end_ n : Z) : Prop := exists hash,
  hmac_sha256 k.(rIK) (slice 0 (end_ - n) d) = Some hash /\ slice (end_ - n) n d = take (Z.to_nat n) hash.

(** The packet [d] is an EAP-Initiate/Re-auth under a stored key, which it names,
    with a fresh sequence number. *)
Definition erp_proof (e : env) (d : list Z) : Prop := exists pos len seq tlvs kname k n,
  eap_hdr_validate EAP_VENDOR_IETF EAP_ERP_TYPE_REAUTH (Some d) = Ok (Some (pos, len)) /\
  WPA_GET_BE16 (drop (Z.to_nat (pos + 1)) d) = Ok seq /\
  erp_parse_tlvs d (pos + 3) (pos + len) true = Ok tlvs /\ tlvs.2.(keyname) = Some kname /\
  erp_get_key (Codec.c_str (slice kname.1 kname.2 d)) e = Some k /\
  (k.(recv_seq) = 2 ^ 32 - 1 \/ k.(recv_seq) < seq) /\ (n = 16 \/ n = 32) /\ tagged k d (pos + len) n.

Lemma tag_matches_ok k d end_ n : 0 <= n <= end_ -> end_ <= zlen d ->
  yields (tag_matches k d end_ n) (fun r => r = Some true -> tagged k d end_ n).
Proof.
  intros Hn He. unfold tag_matches. apply yields_rdn; [lia|lia|lia|]. apply yields_rdn; [lia|lia|lia|]. apply yields_ok.
  destruct (hmac_sha256 _ _) as [hash|] eqn:Eh; [|done]. intros [= E]. exists hash. split; [done|].
  by apply bool_decide_eq_true in E.
Qed.

Lemma tries_suite_ok k d end_ max_len n cs : 0 <= n -> max_len <= end_ -> end_ <= zlen d ->
  yields (tries_suite k d end_ max_len n cs) (fun r => r = Some true -> 1 + n <= max_len /\ tagged k d end_ n).
Proof.
  intros Hn Hm He. unfold tries_suite. destruct (Z.ltb_spec max_len (1 + n)); [by apply yields_ok|].
  apply yields_rd; [lia|]. destruct (negb _); [by apply yields_ok|].
  eapply yields_mono; [apply tag_matches_ok; lia|]. intros r Hr E. split; [lia|auto].
Qed.

(** The length of a hash is that of its cryptosuite. *)
Lemma suite_len cs n : suite_hash_len cs = Some n ->
  (n = 16 \/ n = 32) /\ n = (if cs =? EAP_ERP_CS_HMAC_SHA256_256 then 32 else 16).
Proof.
  unfold suite_hash_len. destruct (cs =? EAP_ERP_CS_HMAC_SHA256_256); [intros [= <-]; auto|].
  destruct (cs =? EAP_ERP_CS_HMAC_SHA256_128); [intros [= <-]; auto|done].
Qed.

Lemma check_tag_ok k d end_ max_len : max_len <= end_ -> end_ <= zlen d ->
  1 + (if k.(cryptosuite) =? EAP_ERP_CS_HMAC_SHA256_256 then 32 else 16) <= max_len ->
  yields (check_tag k d end_ max_len) (fun r => match r with
    | Some (n, k') => (n = 16 \/ n = 32) /\ 1 + n <= max_len /\ tagged k d end_ n
    | None => True
    end).
Proof.
  intros Hm He Hl. unfold check_tag. destruct (suite_hash_len _) as [n|] eqn:En.
  - destruct (suite_len _ _ En) as [Hn El]. rewrite <- El in Hl. apply yields_rd; [lia|]. destruct (negb _); [by apply yields_ok|].
    eapply yields_bind; [apply (tag_matches_ok k d end_ n); lia|]. intros r Hr. apply yields_ok.
    destruct r as [[]|]; [|done..]. split_and!; [done|lia|by apply Hr].
  - eapply yields_bind; [apply (tries_suite_ok k d end_ max_len 32); lia|]. intros [[]|] Hr; [| |by apply yields_ok].
    + apply yields_ok. destruct (Hr eq_refl). split_and!; [by right|lia|done].
    + eapply yields_bind; [apply (tries_suite_ok k d end_ max_len 16); lia|]. intros [[]|] Hr'; apply yields_ok; [|done..].
      destruct (Hr' eq_refl). split_and!; [by left|lia|done].
Qed.

Lemma finish_runs key hash_len id flags seq nai :
  (match key with Some k => suite_hash_len k.(cryptosuite) | None => Some 0 end) = Some hash_len ->
  runs (finish_reauth key hash_len id flags seq nai) (fun _ => True).
Proof.
  intros Hk. unfold finish_reauth. cbv zeta.
  assert (Hn : 0 <= hash_len /\ (key = None <-> hash_len = 0)).
  { destruct key; [destruct (suite_len _ _ Hk) as [[-> | ->] _]|injection Hk as <-]; (split; [lia|split; [done|lia]]) || (split; [lia|done]). }
  eapply wruns_bind; [apply wruns_msg_alloc; destruct (hash_len =? 0); lia|].
  intros [b|] Hb; [|by apply wruns_ret]. destruct Hb as [Hh Hs].
  assert (Hl : forall p, zlen (eap_header EAP_ERP_TYPE_REAUTH p EAP_CODE_FINISH id) = 5) by done.
  assert (Hz : (hash_len =? 0) = true \/ 1 <= hash_len) by (destruct (Z.eqb_spec hash_len 0); [by left|right; lia]).
  eapply runs_put; [exact Hh|rewrite Hl; cbn; destruct (hash_len =? 0); lia|]. intros b1 H1 S1.
  eapply runs_put; [exact H1|rewrite !length_app; cbn; destruct (hash_len =? 0); lia|]. intros b2 H2 S2.
  eapply runs_put; [exact H2|rewrite !length_app; cbn; destruct (hash_len =? 0); lia|]. intros b3 H3 S3.
  eapply runs_put; [exact H3|rewrite !length_app; cbn; destruct (hash_len =? 0); lia|]. intros b4 H4 S4.
  eapply runs_put; [exact H4|rewrite !length_app; cbn; destruct (hash_len =? 0); lia|]. intros b5 H5 S5.
  destruct key as [k|]; [|by apply wruns_ret].
  assert (hash_len <> 0) by (intros E; apply Hn in E; done). destruct (Z.eqb_spec hash_len 0); [done|].
  eapply runs_put; [exact H5|rewrite !length_app; cbn; lia|]. intros b6 H6 S6.
  destruct (hmac_sha256 _ _) as [hash|]; [|by apply wruns_ret].
  eapply runs_put; [exact H6|rewrite !length_app, length_take; cbn; lia|]. intros b7 H7 S7. by apply wruns_ret.
Qed.

(** What an EAP-Initiate packet does to the view; [ok] says it was accepted. *)
Definition initiated (ok : Prop) (v v' : view) : Prop := exists s i b,
  v' = v <| v_shared := s |> <| v_ignore := i |> <| v_success := b |> /\
  (wf_shared v.(v_shared) -> wf_shared s) /\ s.(method_pending) = v.(v_shared).(method_pending) /\
  (b = v.(v_success) \/ ok).

Lemma initiated_same ok v : initiated ok v v.
Proof. exists v.(v_shared), v.(v_ignore), v.(v_success). split_and!; [by destruct v|done|done|by left]. Qed.

Lemma erp_ignore_ok ok v : vwp erp_ignore (fun _ v' => initiated ok v v') v.
Proof.
  unfold erp_ignore. vupd (fun v : view => v <| v_ignore := true |>). exists v.(v_shared), true, v.(v_success).
  split_and!; [by destruct v|done|done|by left].
Qed.

Lemma send_finish_ok key id flags seq nai v :
  vwp (erp_send_finish_reauth key id flags seq nai) (fun _ v' => initiated (key <> None) v v') v.
Proof.
  unfold erp_send_finish_reauth.
  match goal with |- context [match ?x with _ => _ end] => destruct x as [hash_len|] eqn:Ek end; [|vstep; apply initiated_same].
  apply vwp_bind, vwp_unseen; [eapply runs_wp_unseen, finish_runs, Ek|]. intros [msg|]; [|vstep; apply initiated_same].
  cbv beta iota. do 3 vkeep. destruct key as [k|].
  - vstep; [vkeep; by apply vwp_unseen; [by intros ?|intros _; apply initiated_same]|]. vkeep. do 3 vstep; [vstep; apply initiated_same|].
    destruct (hmac_sha256_kdf _ _ _ _); [|vstep; apply initiated_same]. vkeep.
    vupd (fun v : view => v <| v_success := true |>). vkeep. exists v.(v_shared), v.(v_ignore), true.
    split_and!; [by destruct v|done|done|by right].
  - vkeep. apply vwp_unseen; [by intros ?|intros _; apply initiated_same].
Qed.

Lemma initiated_mono (P1 P2 : Prop) v v' : (P1 -> P2) -> initiated P1 v v' -> initiated P2 v v'.
Proof. intros H (s & i & b & E & H1 & H2 & H3). exists s, i, b. split_and!; [done|done|done|]. destruct H3; auto. Qed.

(** [erp_with_key] keeps to the packet, and accepts a tagged one only. *)
Lemma erp_with_key_ok d tlvs end_ seq kname w : bytes d -> 0 <= tlvs -> tlvs <= kname.1 + kname.2 -> 0 <= kname.1 + kname.2 -> end_ <= zlen d ->
  wp (erp_with_key d tlvs end_ seq kname) (fun _ w' => initiated (exists k n,
    erp_get_key (Codec.c_str (slice kname.1 kname.2 d)) w.(host) = Some k /\
    (k.(recv_seq) = 2 ^ 32 - 1 \/ k.(recv_seq) < seq) /\ (n = 16 \/ n = 32) /\ tagged k d end_ n) (view_of w) (view_of w')) w.
Proof.
  intros Hb Ht Hk1 Hk2 He. unfold erp_with_key. cbv zeta. do 2 ewp_step.
  destruct (erp_get_key _ _) as [k|] eqn:Ek.
  2: { eapply ewp_mono; [by apply send_finish_ok|]. cbv beta. intros _ w'. by apply initiated_mono. }
  set (ok := exists k' n, _).
  destruct (_ && _) eqn:Eb; [by apply erp_ignore_ok|].
  assert (Hseq : k.(recv_seq) = 2 ^ 32 - 1 \/ k.(recv_seq) < seq) by lia.
  destruct (Z.ltb_spec (end_ - (kname.1 + kname.2)) (1 + (if cryptosuite k =? EAP_ERP_CS_HMAC_SHA256_256 then 32 else 16)));
    [by apply erp_ignore_ok|].
  apply ewp_bind, ewp_lift. eapply yields_mono; [apply check_tag_ok; [lia|lia|done]|].
  intros [[n k']|] Hr; [|by apply erp_ignore_ok]. destruct Hr as (Hn & Hl & Htag).
  assert (Hok : ok) by (exists k, n; by split_and!).
  ewp_step. apply ewp_ask. intros _ e1 _. ewp_step. apply ewp_lift.
  eapply yields_mono; [apply erp_parse_ok; [done|lia|lia]|]. intros r _. cbv beta.
  destruct (r.1 <? 0); [by apply erp_ignore_ok|]. ewp_step. apply ewp_ask. intros _ e2 _.
  eapply ewp_mono; [by apply send_finish_ok|]. cbv beta. intros _ w'. by apply initiated_mono.
Qed.

(** Without a server of its own the machine keeps the name of the key as the
    identity. *)
Lemma keep_name_ok name ok v : vwp (eap_server_clear_identity ;; b ← malloc;
  (if negb b then erp_ignore else upd_shr (fun s => s <| identity := Some name |>))) (fun _ v' => initiated ok v v') v.
Proof.
  unfold eap_server_clear_identity. vupd (fun v : view => v <| v_shared := v.(v_shared) <| identity := None |> |>).
  do 3 vstep.
  - unfold erp_ignore. vupd (fun v : view => v <| v_ignore := true |>). exists (v.(v_shared) <| identity := None |>), true, v.(v_success).
    split_and!; [done|done|done|by left].
  - vupd (fun v : view => v <| v_shared := v.(v_shared) <| identity := Some name |> |>).
    exists (v.(v_shared) <| identity := Some name |>), v.(v_ignore), v.(v_success). split_and!; [by destruct v|done|done|by left].
Qed.

Lemma enter_initiate_received g w d : (view_of w).(v_data) = d -> (forall d', d = Some d' -> bytes d') ->
  wp (sm_EAP_INITIATE_RECEIVED_Enter cfg g) (fun _ w' =>
    initiated (exists d', d = Some d' /\ cfg.(eap_server) = true /\ erp_proof w.(host) d') (ent EAP_INITIATE_RECEIVED g (view_of w)) (view_of w')) w.
Proof.
  intros Ed Hb. unfold sm_EAP_INITIATE_RECEIVED_Enter. apply ewp_bind, ewp_enter. intros w1 Hv Hh _. rewrite <- Hv, <- Hh.
  do 2 ewp_step. set (w2 := w1 <| esm := _ |>). change (view_of w1) with (view_of w2). change (host w1) with (host w2).
  assert (Ed2 : eapRespData (eap_if (esm w2)) = d).
  { change ((view_of w1).(v_data) = d). by rewrite Hv. }
  clearbody w2. clear w1 Hv Hh Ed. rename w2 into w1. do 2 ewp_step. rewrite Ed2.
  apply ewp_bind, ewp_lift. destruct d as [d|].
  2: { exists None. split; [done|]. by apply erp_ignore_ok. }
  specialize (Hb d eq_refl). destruct (hdr_validate_ok EAP_VENDOR_IETF EAP_ERP_TYPE_REAUTH d) as (v & Ev & Hvl).
  exists v. split; [done|]. destruct v as [[pos len]|]; [|by apply erp_ignore_ok]. destruct Hvl as (H1 & H2 & H3 & H4).
  destruct (Z.ltb_spec len 4); [by apply erp_ignore_ok|]. cbv zeta. apply ewp_bind, ewp_lift.
  assert (Hs : exists s, WPA_GET_BE16 (drop (Z.to_nat (pos + 1)) d) = Ok s).
  { unfold WPA_GET_BE16. rewrite !rd_ok by (rewrite length_drop; lia). cbn. eauto. }
  destruct Hs as (seq & Eseq). exists seq. split; [done|]. apply ewp_bind, ewp_lift.
  destruct (erp_parse_ok d (pos + 3) (pos + len) true Hb) as (r & Er & Hr); [lia|lia|]. exists r. split; [done|].
  destruct (r.1 <? 0); [by apply erp_ignore_ok|]. destruct (keyname r.2) as [kname|] eqn:Ekn; [|by apply erp_ignore_ok].
  destruct (Hr kname eq_refl) as (K1 & K2 & K3). unfold erp_with_name.
  destruct (253 <? kname.2); [by apply erp_ignore_ok|]. destruct (eap_server cfg) eqn:Ecfg; cbn [negb].
  - eapply ewp_mono; [apply erp_with_key_ok; [done|lia|lia|lia|lia]|]. cbv beta. intros _ w'. apply initiated_mono.
    intros (k & n & E1 & E2 & E3 & E4). exists d. split_and!; [done|done|]. exists pos, len, seq, r, kname, k, n. by split_and!.
  - by apply keep_name_ok.
Qed.

End logic.
End EapServerLogic.
