(* ===== verification/EapServerSafety.v ===== *)
(** * The EAP server does not fault, and its steps end

    An invariant of the machine of [EapServer], kept by every state's entry; a
    weight that falls with every transition, which bounds the loop of
    [eap_server_sm_step]; and what a success rests on. *)

From Stdlib Require Import String.
From S2P Require Import Prelude WpaDefs Wpabuf Codec RsnIe EapolSm EapCommon EapServer EapServerLogic.

Module EapServerSafety.
Import WpaDefs Wpabuf EapolSm EapCommon EapServer EapServerLogic.

#[local] Open Scope Z_scope.
#[local] Open Scope list_scope.

Section safety.
Context {env P : Type} `{HH : !EapHost env} `{HHL : !EapHostLaws env} `{HS : !Sha256}.
Context (cfg : eap_config) (eap_methods : list (eap_method env P)) `{HML : !MethodsLaws eap_methods}.
(** Whether the start of ERP by the server is excluded, and with it a fault. *)
Context (strict : bool) (Hstrict : strict = true -> forall e, get_erp_send_reauth_start e = false).

Abbreviation server := (server env P).
Abbreviation view := (view env P).
Abbreviation vwp := (vwp strict).
Implicit Types (w : server) (v : view).

(** ** The invariant *)

(** The states between which a method is running. *)
Definition needs_method (st : eap_st) : bool :=
  match st with
  | EAP_IDLE | EAP_RETRANSMIT | EAP_RECEIVED | EAP_INTEGRITY_CHECK | EAP_METHOD_RESPONSE | EAP_DISCARD | EAP_SEND_REQUEST => true
  | _ => false
  end.

(** Where a wait for an asynchronous result can be found: in the response of a
    method, or where the machine has been taken from there. *)
Definition waits v : Prop :=
  v.(v_state) = EAP_DISABLED \/ v.(v_state) = EAP_FAILURE \/ v.(v_state) = EAP_SUCCESS \/
  (v.(v_state) = EAP_METHOD_RESPONSE /\ v.(v_end) = false /\ on_method v (fun x p => forall d, ready x p d)).

(** No transition from any state is due. *)
Definition base v : Prop := v.(v_restart) && v.(v_port) = false /\ v.(v_port) = true /\
  v.(v_rounds) <= cfg.(max_auth_rounds) /\ v.(v_short) <= cfg.(max_auth_rounds_short).

Record inv v : Prop := {
  inv_data d : v.(v_data) = Some d -> bytes d;
  inv_wf : wf_shared v.(v_shared);
  inv_methods : methods_ok eap_methods v;
  inv_has : strict = true -> needs_method v.(v_state) = true -> v.(v_method) <> None;
  inv_start : strict = true -> v.(v_state) <> EAP_INITIATE_REAUTH_START;
  inv_decide : strict = true -> v.(v_state) = EAP_SELECT_ACTION -> v.(v_decision) <> DECISION_INITIATE_REAUTH_START;
  inv_init : v.(v_state) = EAP_INITIALIZE -> cfg.(backend_auth) = true -> v.(v_current) = EAP_TYPE_NONE;
  inv_pick : v.(v_state) = EAP_PICK_UP_METHOD -> v.(v_current) <> EAP_TYPE_NONE ->
    v.(v_method) <> None /\ on_method v (fun x p => forall d, ready x p d);
  inv_check : v.(v_state) = EAP_INTEGRITY_CHECK -> v.(v_ignore) = false -> on_method v (fun x p => ready x p v.(v_data));
  inv_wait : v.(v_shared).(method_pending) <> METHOD_PENDING_NONE -> waits v;
  inv_success : v.(v_state) = EAP_SELECT_ACTION -> v.(v_decision) = DECISION_SUCCESS -> succeeded v;
  inv_base : v.(v_state) = EAP_INTEGRITY_CHECK -> base v
}.

(** ** The weight *)

(** A bound on the transitions to come, by the state. *)
Definition base_weight v : Z :=
  match v.(v_state) with
  | EAP_DISABLED => 14
  | EAP_INITIALIZE => 13
  | EAP_PICK_UP_METHOD | EAP_INTEGRITY_CHECK => 12
  | EAP_IDLE => if v.(v_idle) then 16 else if v.(v_resp) then 14 else 0
  | EAP_RETRANSMIT => 15
  | EAP_RECEIVED => 13
  | EAP_METHOD_RESPONSE => if bool_decide (v.(v_shared).(method_pending) = METHOD_PENDING_CONT) then 11 else 10
  | EAP_NAK => 10
  | EAP_SELECT_ACTION => 9
  | EAP_PROPOSE_METHOD => 7
  | EAP_METHOD_REQUEST => 6
  | EAP_SEND_REQUEST | EAP_DISCARD => if v.(v_resp) then 15 else 1
  | EAP_INITIATE_REAUTH_START => 5
  | EAP_INITIATE_RECEIVED => if cfg.(eap_server) then 0 else 10
  | EAP_INITIALIZE_PASSTHROUGH => 8
  | EAP_AAA_REQUEST => 7
  | EAP_AAA_IDLE =>
      if v.(v_aaa).1.1.1 || v.(v_aaa).1.1.2 then 1 else if v.(v_aaa).1.2 then 5 else if v.(v_aaa).2 then 1 else 0
  | EAP_AAA_RESPONSE => 4
  | EAP_SEND_REQUEST2 | EAP_DISCARD2 => if v.(v_resp) then 11 else 1
  | EAP_IDLE2 => if v.(v_resp) then 10 else if v.(v_idle) then 3 else 0
  | EAP_RETRANSMIT2 => if v.(v_resp) then 11 else 2
  | EAP_RECEIVED2 => 9
  | EAP_SUCCESS | EAP_FAILURE | EAP_TIMEOUT_FAILURE | EAP_SUCCESS2 | EAP_FAILURE2 | EAP_TIMEOUT_FAILURE2 => 0
  end.

Definition weight v : Z :=
  if v.(v_restart) && v.(v_port) then 30
  else if negb v.(v_port) then (if bool_decide (v.(v_state) = EAP_DISABLED) then 0 else 1)
  else if cfg.(max_auth_rounds) <? v.(v_rounds) then (if v.(v_rounds) =? u32 (cfg.(max_auth_rounds) + 1) then 2 else 0)
  else if cfg.(max_auth_rounds_short) <? v.(v_short) then
    (if v.(v_short) =? u32 (cfg.(max_auth_rounds_short) + 1) then 1 else 0)
  else base_weight v.

Lemma base_weight_range v : 0 <= base_weight v <= 16.
Proof.
  unfold base_weight. destruct (v_state v), (v_resp v), (v_idle v), (eap_server cfg), (v_aaa v) as [[[[] []] []] []];
    cbn; try lia; destruct (bool_decide _); lia.
Qed.

Lemma weight_range v : 0 <= weight v <= 30.
Proof.
  unfold weight. pose proof (base_weight_range v). destruct (_ && _); [lia|]. destruct (negb _); [by destruct (bool_decide _)|].
  destruct (_ <? _); [by destruct (_ =? _)|]. destruct (_ <? _); [by destruct (_ =? _)|]. lia.
Qed.

Lemma weight_le v : v.(v_restart) = false -> weight v <= Z.max 2 (base_weight v).
Proof.
  intros Hr. unfold weight. rewrite Hr. cbn [andb]. destruct (negb _); [destruct (bool_decide _); lia|].
  destruct (_ <? _); [destruct (_ =? _); lia|]. destruct (_ <? _); [destruct (_ =? _); lia|]. lia.
Qed.

Lemma base_weight_of v : base v -> weight v = base_weight v.
Proof.
  intros (H1 & H2 & H3 & H4). unfold weight. rewrite H1, H2. cbn [negb].
  destruct (Z.ltb_spec (max_auth_rounds cfg) (v_rounds v)); [lia|].
  by destruct (Z.ltb_spec (max_auth_rounds_short cfg) (v_short v)); [lia|].
Qed.

(** A transition falls when the weight by the state does. *)
Lemma weight_falls v v' : base v -> v'.(v_restart) = v.(v_restart) -> v'.(v_port) = v.(v_port) ->
  base_weight v' < base_weight v -> 2 < base_weight v \/ (v'.(v_rounds) = v.(v_rounds) /\ v'.(v_short) = v.(v_short)) ->
  weight v' < weight v.
Proof.
  intros Hb Hr Hp Hw Hor. rewrite (base_weight_of v Hb). destruct Hb as (H1 & H2 & H3 & H4). unfold weight. rewrite Hr, Hp, H1, H2.
  cbn [negb]. destruct (Z.ltb_spec (max_auth_rounds cfg) (v_rounds v')).
  - destruct Hor; [|lia]. destruct (_ =? _); lia.
  - destruct (Z.ltb_spec (max_auth_rounds_short cfg) (v_short v')); [|done]. destruct Hor; [|lia]. destruct (_ =? _); lia.
Qed.

(** ** What a success rests on *)

(** The AAA server has said so, the method has, or an EAP-Initiate packet was
    proved to be under a stored key. *)
Definition evidence v : Prop :=
  (v.(v_state) = EAP_SUCCESS /\ succeeded v) \/
  (v.(v_state) = EAP_SUCCESS2 /\ v.(v_aaa).1.1.2 = true) \/
  (v.(v_state) = EAP_INITIATE_RECEIVED /\ cfg.(eap_server) = true /\
   exists d e, v.(v_data) = Some d /\ erp_proof e d).

(** One transition. *)
Record moved v v' : Prop := {
  moved_inv : inv v';
  moved_weight : v'.(v_changed) = true -> weight v' < weight v;
  moved_success : v'.(v_success) = true -> v.(v_success) = true \/ (evidence v' /\ base v');
  moved_rest : v'.(v_state) = EAP_INTEGRITY_CHECK -> v'.(v_changed) = true
}.

(** ** The transitions *)

(** The states the invariant says nothing special of. *)
Definition easy (st : eap_st) : bool :=
  match st with
  | EAP_INITIATE_REAUTH_START | EAP_SELECT_ACTION | EAP_INITIALIZE | EAP_PICK_UP_METHOD | EAP_INTEGRITY_CHECK => false
  | _ => true
  end.

Lemma inv_easy v v' : inv v -> easy v'.(v_state) = true -> v'.(v_data) = v.(v_data) -> wf_shared v'.(v_shared) ->
  methods_ok eap_methods v' -> (strict = true -> needs_method v'.(v_state) = true -> v'.(v_method) <> None) ->
  (v'.(v_shared).(method_pending) <> METHOD_PENDING_NONE -> waits v') -> inv v'.
Proof.
  intros Hi He Hd Hwf Hm Hn Hp. constructor; try done; try (intros; destruct (v_state v'); done).
  rewrite Hd. apply Hi.
Qed.

(** No wait is under way outside these states. *)
Lemma no_wait v : inv v -> v.(v_state) <> EAP_DISABLED -> v.(v_state) <> EAP_FAILURE -> v.(v_state) <> EAP_SUCCESS ->
  (v.(v_state) = EAP_METHOD_RESPONSE -> v.(v_end) = true) -> v.(v_shared).(method_pending) = METHOD_PENDING_NONE.
Proof.
  intros Hi H1 H2 H3 H4. destruct (decide (v.(v_shared).(method_pending) = METHOD_PENDING_NONE)) as [|Hn]; [done|].
  destruct (inv_wait _ Hi Hn) as [|[|[|(E & E' & _)]]]; try done. by rewrite (H4 E) in E'.
Qed.

(** What a transition leaves. *)
Record kept v v' : Prop := {
  kept_data : v'.(v_data) = v.(v_data);
  kept_restart : v'.(v_restart) = v.(v_restart);
  kept_port : v'.(v_port) = v.(v_port);
  kept_success : v'.(v_success) = v.(v_success);
  kept_rest : v'.(v_state) = EAP_INTEGRITY_CHECK -> v'.(v_changed) = true;
  kept_rounds : 2 < base_weight v \/ (v'.(v_rounds) = v.(v_rounds) /\ v'.(v_short) = v.(v_short))
}.

Lemma moved_kept v v' : base v -> kept v v' -> base_weight v' < base_weight v -> inv v' -> moved v v'.
Proof.
  intros Hb [Hd Hr Hp Hs Ht Ho] Hw Hi. split; [done|intros _; by apply weight_falls| |done]. rewrite Hs. by left.
Qed.

(** A transition that leaves the method and its part as well. *)
Lemma moved_plain v v' : inv v -> base v -> kept v v' -> base_weight v' < base_weight v ->
  v.(v_shared).(method_pending) = METHOD_PENDING_NONE -> easy v'.(v_state) = true ->
  v'.(v_shared) = v.(v_shared) -> v'.(v_method) = v.(v_method) -> v'.(v_priv) = v.(v_priv) ->
  (strict = true -> needs_method v'.(v_state) = true -> v.(v_method) <> None) -> moved v v'.
Proof.
  intros Hi Hb Hk Hw Hp He Es Em Ep Hn. apply moved_kept; [done..|]. apply (inv_easy v); [done|done|apply Hk| | | |].
  - rewrite Es. apply Hi.
  - unfold methods_ok. rewrite Em, Ep. apply Hi.
  - by rewrite Em.
  - rewrite Es. by intros [].
Qed.

Section step.
Context (v : view) (Hi : inv v) (Hb : base v).
Abbreviation steps c := (vwp c (fun _ v' => moved v v') v) (only parsing).

(** A call of an entry whose effect is a lemma. *)
Tactic Notation "entry" uconstr(H) := eapply (vwp_mono strict); [eapply H|]; cbv beta.

Ltac weigh :=
  repeat match goal with H : ?t = true |- context [?t] => rewrite H | H : ?t = false |- context [?t] => rewrite H end; cbn;
  repeat match goal with |- context [if ?b then _ else _] => destruct b eqn:? end; first [lia|exfalso; congruence].
Ltac plain Est := let E := fresh in
  apply moved_plain; [exact Hi|exact Hb|constructor; try done; first [by right|left; unfold base_weight; rewrite Est; weigh]
    |unfold base_weight; rewrite Est; cbn; weigh|apply no_wait; rewrite ?Est; done|done|done|done|done|
     first [by intros _ [=]|intros Hst _; apply (inv_has v Hi Hst); by rewrite Est]].

Lemma to_idle : v.(v_state) = EAP_RETRANSMIT \/ v.(v_state) = EAP_DISCARD \/ v.(v_state) = EAP_SEND_REQUEST ->
  steps (sm_EAP_IDLE_Enter false).
Proof. intros [Est|[Est|Est]]; entry enter_idle; intros _ v' ->; plain Est. Qed.

Lemma to_idle2 : v.(v_state) = EAP_RETRANSMIT2 \/ v.(v_state) = EAP_DISCARD2 \/ v.(v_state) = EAP_SEND_REQUEST2 ->
  steps (sm_EAP_IDLE2_Enter false).
Proof. intros [Est|[Est|Est]]; entry enter_idle2; intros _ v' ->; plain Est. Qed.

Lemma to_retransmit : v.(v_state) = EAP_IDLE -> v.(v_idle) = true -> steps (sm_EAP_RETRANSMIT_Enter false).
Proof. intros Est Hid. entry enter_retransmit; intros _ v' ->. plain Est. Qed.

Lemma to_retransmit2 : v.(v_state) = EAP_IDLE2 -> v.(v_resp) = false -> v.(v_idle) = true -> steps (sm_EAP_RETRANSMIT2_Enter false).
Proof. intros Est Hr Hid. entry enter_retransmit2; intros _ v' ->. plain Est. Qed.

Lemma to_received : v.(v_state) = EAP_IDLE -> v.(v_idle) = false -> v.(v_resp) = true -> steps (sm_EAP_RECEIVED_Enter false).
Proof.
  intros Est Hid Hr. entry enter_received; intros _ v' (r & k & ->).
  plain Est.
Qed.

Lemma to_received2 : v.(v_state) = EAP_IDLE2 -> v.(v_resp) = true -> steps (sm_EAP_RECEIVED2_Enter false).
Proof. intros Est Hr. entry enter_received2; intros _ v' ->. plain Est. Qed.

Lemma to_discard : v.(v_state) = EAP_RECEIVED \/ v.(v_state) = EAP_INTEGRITY_CHECK -> steps (sm_EAP_DISCARD_Enter false).
Proof. intros [Est|Est]; entry enter_discard; intros _ v' ->; plain Est. Qed.

Lemma to_discard2 : v.(v_state) = EAP_RECEIVED2 -> steps (sm_EAP_DISCARD2_Enter false).
Proof. intros Est; entry enter_discard2; intros _ v' ->; plain Est. Qed.

Lemma to_send_request2 : v.(v_state) = EAP_AAA_RESPONSE -> steps (sm_EAP_SEND_REQUEST2_Enter false).
Proof. intros Est; entry enter_send_request2; intros _ v' ->; plain Est. Qed.

Lemma to_timeout_failure : v.(v_state) = EAP_RETRANSMIT -> steps (sm_EAP_TIMEOUT_FAILURE_Enter false).
Proof. intros Est; entry enter_timeout_failure; intros _ v' ->; plain Est. Qed.

Lemma to_timeout_failure2 : v.(v_state) = EAP_RETRANSMIT2 \/ (v.(v_state) = EAP_AAA_IDLE /\ v.(v_aaa).2 = true) ->
  steps (sm_EAP_TIMEOUT_FAILURE2_Enter false).
Proof. intros [Est|[Est Ht]]; entry enter_timeout_failure2; intros _ v' ->; plain Est. Qed.

Lemma to_failure : v.(v_state) = EAP_METHOD_REQUEST \/ v.(v_state) = EAP_SELECT_ACTION -> steps (sm_EAP_FAILURE_Enter false).
Proof. intros [Est|Est]; entry enter_failure; intros _ v' ->; plain Est. Qed.

Lemma to_failure2 : v.(v_state) = EAP_AAA_IDLE -> v.(v_aaa).1.1.1 = true -> steps (sm_EAP_FAILURE2_Enter false).
Proof. intros Est Hf; entry enter_failure2; intros _ v' ->; plain Est. Qed.

Lemma to_initialize_passthrough : v.(v_state) = EAP_SELECT_ACTION -> steps (sm_EAP_INITIALIZE_PASSTHROUGH_Enter false).
Proof. intros Est; entry enter_initialize_passthrough; intros _ v' ->; plain Est. Qed.

Lemma to_aaa_request : v.(v_state) = EAP_INITIALIZE_PASSTHROUGH \/ v.(v_state) = EAP_RECEIVED2 -> steps (sm_EAP_AAA_REQUEST_Enter false).
Proof. intros [Est|Est]; entry enter_aaa_request; intros _ v' ->; plain Est. Qed.

Lemma to_aaa_idle : v.(v_state) = EAP_INITIALIZE_PASSTHROUGH \/ v.(v_state) = EAP_AAA_REQUEST -> steps (sm_EAP_AAA_IDLE_Enter false).
Proof. intros [Est|Est]; entry enter_aaa_idle; intros _ v' ->; plain Est. Qed.

Lemma to_aaa_response : v.(v_state) = EAP_AAA_IDLE -> v.(v_aaa).1.1.1 = false -> v.(v_aaa).1.1.2 = false -> v.(v_aaa).1.2 = true ->
  steps (sm_EAP_AAA_RESPONSE_Enter false).
Proof. intros Est H1 H2 H3; entry enter_aaa_response; intros _ v' ->; plain Est. Qed.

(** The request goes out, or there is none. *)
Lemma to_send_request : v.(v_state) = EAP_METHOD_REQUEST -> v.(v_method) <> None ->
  steps (sm_EAP_SEND_REQUEST_Enter false ;; i ← the (fun s => s.(eap_if));
         when (i.(eapNoReq) && negb i.(eapReq)) (sm_EAP_FAILURE_Enter false)).
Proof.
  intros Est Hm. apply vwp_bind. entry enter_send_request; intros _ v1 (k & ->). apply vwp_bind, vwp_the_any. intros i.
  assert (Hn : method_pending (v_shared v) = METHOD_PENDING_NONE) by (apply no_wait; rewrite ?Est; done).
  apply vwp_when; intros _; [entry enter_failure; intros _ v' ->|];
    (apply moved_plain; [exact Hi|exact Hb|constructor; try done; left; unfold base_weight; rewrite Est; lia
      |unfold base_weight; rewrite Est; cbn; lia|done..]).
Qed.

Lemma to_send_reauth : v.(v_state) = EAP_INITIATE_REAUTH_START -> steps (sm_EAP_SEND_REQUEST_Enter false).
Proof.
  intros Est. entry enter_send_request; intros _ v1 (k & ->).
  assert (Hn : method_pending (v_shared v) = METHOD_PENDING_NONE) by (apply no_wait; rewrite ?Est; done).
  apply moved_plain; [exact Hi|exact Hb|constructor; try done; left; unfold base_weight; rewrite Est; lia
      |unfold base_weight; rewrite Est; cbn; lia|done..|].
  intros Hs _. by destruct (inv_start v Hi Hs).
Qed.

(** A success, and what it rests on. *)
Lemma moved_evidence v' : inv v' -> v'.(v_restart) = v.(v_restart) -> v'.(v_port) = v.(v_port) ->
  v'.(v_rounds) = v.(v_rounds) -> v'.(v_short) = v.(v_short) -> base_weight v' < base_weight v ->
  v'.(v_state) <> EAP_INTEGRITY_CHECK ->
  (v'.(v_success) = v.(v_success) \/ evidence v') -> moved v v'.
Proof.
  intros Hi' Hr Hp H1 H2 Hw Ht He. split; [done|intros _; apply weight_falls; auto| |done].
  destruct He as [->|He]; [by left|right; split; [done|]]. unfold base in *. by rewrite Hr, Hp, H1, H2.
Qed.

Lemma to_success : v.(v_state) = EAP_SELECT_ACTION -> v.(v_decision) = DECISION_SUCCESS -> steps (sm_EAP_SUCCESS_Enter false).
Proof.
  intros Est Ed. entry enter_success; intros _ v' ->.
  assert (Hn : method_pending (v_shared v) = METHOD_PENDING_NONE) by (apply no_wait; rewrite ?Est; done).
  apply moved_evidence; [|done..|unfold base_weight; rewrite Est; cbn; lia|done|].
  - apply (inv_easy v); [done|done|done|apply Hi|apply Hi|done|]. by intros [].
  - right. left. split; [done|]. exact (inv_success v Hi Est Ed).
Qed.

Lemma to_success2 : v.(v_state) = EAP_AAA_IDLE -> v.(v_aaa).1.1.1 = false -> v.(v_aaa).1.1.2 = true -> steps (sm_EAP_SUCCESS2_Enter false).
Proof.
  intros Est Hf Hs. entry enter_success2; intros _ v' ->.
  assert (Hn : method_pending (v_shared v) = METHOD_PENDING_NONE) by (apply no_wait; rewrite ?Est; done).
  apply moved_evidence; [|done..|unfold base_weight; rewrite Est; cbn; weigh|done|].
  - apply (inv_easy v); [done|done|done|apply Hi|apply Hi|done|]. by intros [].
  - right. right. by left.
Qed.

(** ** The transitions that run a method, or choose one *)

Lemma to_nak : v.(v_state) = EAP_INITIALIZE \/ v.(v_state) = EAP_RECEIVED -> steps (sm_EAP_NAK_Enter false).
Proof.
  intros Est. assert (Hn : method_pending (v_shared v) = METHOD_PENDING_NONE) by (apply no_wait; [exact Hi|..]; by destruct Est as [-> | ->]).
  entry enter_nak; [apply Hi|apply Hi|]. intros _ v' (s & d & -> & Hwf & Hp). cbn in Hp.
  apply moved_kept; [exact Hb|constructor; try done; by right|unfold base_weight; destruct Est as [-> | ->]; cbn; lia|].
  apply (inv_easy v); try done. cbn. by rewrite Hp.
Qed.

Lemma to_select v0 : (v.(v_state) = EAP_INITIALIZE \/ (v.(v_state) = EAP_PICK_UP_METHOD) \/ (v.(v_state) = EAP_IDLE /\ v.(v_idle) = true) \/
    (v.(v_state) = EAP_METHOD_RESPONSE /\ v.(v_end) = true) \/ v.(v_state) = EAP_NAK \/
    (v.(v_state) = EAP_INITIATE_RECEIVED /\ cfg.(eap_server) = false)) ->
  (exists b, v0 = v <| v_try := b |>) -> vwp (sm_EAP_SELECT_ACTION_Enter cfg false) (fun _ v' => moved v v') v0.
Proof.
  intros Est [b ->]. 
  assert (Hn : method_pending (v_shared v) = METHOD_PENDING_NONE).
  { apply no_wait; [exact Hi|..]; destruct Est as [Est|[Est|[[Est _]|[[Est ?]|[Est|[Est _]]]]]]; by rewrite ?Est. }
  entry enter_select; [apply Hi|apply Hi|]. intros _ v' (s & d & -> & Hwf & Hp & Hs & Ha). cbn in Hp.
  apply moved_kept; [exact Hb|constructor; try done; by right| |].
  - unfold base_weight. destruct Est as [Est|[Est|[[Est ?]|[[Est ?]|[Est|[Est ?]]]]]]; rewrite Est; cbn; weigh.
  - constructor; try done; cbn.
    + apply Hi.
    + apply Hi.
    + intros Hst _ ->. destruct (Ha eq_refl) as [e He]. by rewrite Hstrict in He.
    + by rewrite Hp.
Qed.

Lemma to_integrity : v.(v_state) = EAP_RECEIVED -> steps (sm_EAP_INTEGRITY_CHECK_Enter false).
Proof.
  intros Est. assert (Hn : method_pending (v_shared v) = METHOD_PENDING_NONE) by (apply no_wait; rewrite ?Est; done).
  assert (Hm : strict = true -> v.(v_method) <> None) by (intros Hst; apply (inv_has v Hi Hst); by rewrite Est).
  entry enter_integrity; [apply Hi|done|]. intros _ v' (b & -> & Hready).
  apply moved_kept; [exact Hb|constructor; try done; [intros _; cbn; by rewrite orb_true_r|by right]|unfold base_weight; rewrite Est; cbn; lia|].
  constructor; try done; try apply Hi; cbn; auto.
Qed.

(** After a response the machine waits, or not. *)
Lemma inv_responded v' : responded eap_methods (ent EAP_METHOD_RESPONSE false v) v' ->
  (strict = true -> v.(v_method) <> None) -> inv v' /\ v'.(v_shared).(method_pending) <> METHOD_PENDING_CONT.
Proof.
  intros (p & s & e & -> & Hwf & Hok & Hpend) Hm. cbn in *. split; [|destruct Hpend as [->|(-> & _)]; done].
  apply (inv_easy v); try done.
  - apply Hwf, Hi.
  - cbn. auto.
  - cbn. intros Hp. destruct Hpend as [Hz|(H1 & H2 & H3)]; [by destruct Hp|]. unfold waits. cbn. auto 10.
Qed.

Lemma to_method_response v0 : (v.(v_state) = EAP_PICK_UP_METHOD /\ v.(v_current) <> EAP_TYPE_NONE) \/
    (v.(v_state) = EAP_INTEGRITY_CHECK /\ v.(v_ignore) = false) \/
    (v.(v_state) = EAP_METHOD_RESPONSE /\ v.(v_shared).(method_pending) = METHOD_PENDING_CONT) ->
  v0 = v <| v_shared := v.(v_shared) <| method_pending := METHOD_PENDING_NONE |> |> ->
  vwp (sm_EAP_METHOD_RESPONSE_Enter cfg false) (fun _ v' => moved v v') v0.
Proof.
  intros Est ->.
  assert (Hm : strict = true -> v.(v_method) <> None).
  { intros Hst. destruct Est as [[E H]|[[E _]|[E _]]]; [by apply (inv_pick v Hi)|apply (inv_has v Hi Hst); by rewrite E..]. }
  assert (Hr : on_method v (fun x p => ready x p v.(v_data))).
  { destruct Est as [[E H]|[[E H]|[E H]]]; [|by apply inv_check|].
    - intros x p E1 E2. by destruct (inv_pick v Hi E H) as [_ Hall]; apply Hall.
    - destruct (inv_wait v Hi) as [Ed|[Ed|[Ed|(_ & _ & Hall)]]]; [by rewrite H|by rewrite E in Ed..|]. intros x p E1 E2. by apply Hall. }
  entry enter_method_response; [apply Hi|done|done|done|]. intros _ v' Hv'.
  assert (H0 : responded eap_methods (ent EAP_METHOD_RESPONSE false v) v').
  { destruct Hv' as (p & s & e & -> & H1 & H2 & H3). exists p, s, e. split_and!; [done|intros _; apply H1; cbn|done|done].
    destruct (inv_wf v Hi). by split. }
  destruct (inv_responded v' H0 Hm) as [Hi' Hc]. clear Hv'. destruct H0 as (p & s & e & -> & _). cbn in Hc.
  apply moved_kept; [exact Hb|constructor; try done; by right| |done].
  unfold base_weight. cbn. rewrite (bool_decide_eq_false_2 (method_pending s = _)) by done.
  destruct Est as [[-> _]|[[-> _]|[-> ->]]]; rewrite ?bool_decide_eq_true_2 by done; lia.
Qed.

Lemma to_method_request : (v.(v_state) = EAP_METHOD_RESPONSE /\ v.(v_shared).(method_pending) = METHOD_PENDING_NONE) \/
    v.(v_state) = EAP_PROPOSE_METHOD -> steps (sm_EAP_METHOD_REQUEST_Enter false).
Proof.
  intros Est. assert (Hn : method_pending (v_shared v) = METHOD_PENDING_NONE).
  { destruct Est as [[_ E]|E]; [done|]. apply no_wait; [exact Hi|..]; by rewrite E. }
  entry enter_method_request; [apply Hi|]. intros _ v' (p & s & -> & [Hc1 Hc2] & Hok). cbn in *.
  apply moved_kept; [exact Hb|constructor; try done; by right| |].
  - unfold base_weight. destruct Est as [[-> ->]| ->]; cbn; rewrite ?bool_decide_eq_false_2 by done; lia.
  - apply (inv_easy v); try done; [apply Hc1, Hi|cbn; by rewrite Hc2].
Qed.

Lemma to_propose : v.(v_state) = EAP_SELECT_ACTION -> steps (sm_EAP_PROPOSE_METHOD_Enter eap_methods false).
Proof.
  intros Est. assert (Hn : method_pending (v_shared v) = METHOD_PENDING_NONE) by (apply no_wait; rewrite ?Est; done).
  entry enter_propose; [apply Hi|apply Hi|]. intros _ v' (c & x & p & s & d & e & -> & [Hc1 Hc2] & Hok). cbn in *.
  apply moved_kept; [exact Hb|constructor; try done; by right|unfold base_weight; rewrite Est; cbn; lia|].
  apply (inv_easy v); try done; [apply Hc1, Hi|cbn; by rewrite Hc2].
Qed.

Lemma to_pick_up : v.(v_state) = EAP_INITIALIZE -> cfg.(backend_auth) = true -> steps (sm_EAP_PICK_UP_METHOD_Enter eap_methods false).
Proof.
  intros Est Hba. assert (Hn : method_pending (v_shared v) = METHOD_PENDING_NONE) by (apply no_wait; rewrite ?Est; done).
  entry enter_pick_up; [apply Hi|]. intros _ v' (c & x & p & s & -> & [Hc1 Hc2] & Hor). cbn in *.
  apply moved_kept; [exact Hb|constructor; try done; by right|unfold base_weight; rewrite Est; cbn; lia|].
  constructor; try done; cbn.
  - apply Hi.
  - apply Hc1, Hi.
  - destruct Hor as [(_ & -> & ->)|[(_ & -> & ->)|(_ & x' & p' & -> & -> & H)]]; [apply Hi|done|unfold methods_ok; cbn; tauto].
  - intros _ H. destruct Hor as [(-> & _)|[(-> & _)|(_ & x' & p' & -> & -> & _ & _ & H')]]; [by destruct H; apply inv_init|done|].
    split; [done|]. intros x2 p2 E1 E2. cbn in E1, E2. by simplify_eq.
  - by rewrite Hc2.
Qed.

Lemma to_reauth_start : v.(v_state) = EAP_SELECT_ACTION -> v.(v_decision) = DECISION_INITIATE_REAUTH_START ->
  steps (sm_EAP_INITIATE_REAUTH_START_Enter false).
Proof.
  intros Est Ed. assert (Hn : method_pending (v_shared v) = METHOD_PENDING_NONE) by (apply no_wait; rewrite ?Est; done).
  entry enter_initiate_reauth_start. intros _ v' ->.
  apply moved_kept; [exact Hb|constructor; try done; by right|unfold base_weight; rewrite Est; cbn; lia|].
  constructor; try done; try apply Hi; cbn.
  - intros Hst. by destruct (inv_decide v Hi Hst Est).
Qed.

Lemma to_initiate_received : v.(v_state) = EAP_RECEIVED \/ (v.(v_state) = EAP_SELECT_ACTION /\ cfg.(eap_server) = true) ->
  steps (sm_EAP_INITIATE_RECEIVED_Enter cfg false).
Proof.
  intros Est. assert (Hn : method_pending (v_shared v) = METHOD_PENDING_NONE).
  { apply no_wait; [exact Hi|..]; destruct Est as [-> | [-> _]]; done. }
  intros w Hw. eapply ewp_mono; [apply (enter_initiate_received cfg strict false w v.(v_data))|].
  { by rewrite Hw. }
  { apply Hi. }
  cbv beta. rewrite Hw. intros _ w' (s & i & b & -> & Hwf & Hp & Hor). cbn in *.
  apply moved_evidence; [|done..| |done|].
  - apply (inv_easy v); try done; [apply Hwf, Hi|apply Hi|cbn; by rewrite Hp].
  - unfold base_weight. destruct Est as [-> | [-> ->]]; cbn; weigh.
  - destruct Hor as [->|(d & Ed & Hc & Hpr)]; [by left|right]. right; right. split_and!; [done|done|]. by exists d, (host w).
Qed.

End step.

(** ** The transitions from any state *)

Lemma moved_same v : inv v -> v.(v_changed) = false -> v.(v_state) <> EAP_INTEGRITY_CHECK -> moved v v.
Proof. intros Hi Hc Ht. split; [done|by rewrite Hc|by left|done]. Qed.

(** A fresh start leaves nothing to wait for. *)
Lemma inv_initialized g v ident : inv v -> let s := v.(v_shared) in
  inv ((ent EAP_INITIALIZE g v) <| v_success := false |> <| v_restart := false |> <| v_try := false |>
    <| v_shared := mkShared ident s.(user) 0 s.(update_user) METHOD_PENDING_NONE |>
    <| v_method := None |> <| v_priv := None |>
    <| v_current := (if cfg.(backend_auth) then EAP_TYPE_NONE else v.(v_current)) |> <| v_rounds := 0 |> <| v_short := 0 |>).
Proof.
  intros Hi. constructor; try done; cbn; [apply Hi|split; [done|apply (inv_wf v Hi)]|by intros _ ->].
Qed.

Lemma restart_moves v : inv v -> v.(v_restart) && v.(v_port) = true -> vwp (sm_EAP_INITIALIZE_Enter cfg true) (fun _ v' => moved v v') v.
Proof.
  intros Hi Hr. eapply (vwp_mono strict); [eapply enter_initialize, Hi|]. cbv beta zeta. intros _ v' (ident & ->).
  split; [by apply inv_initialized| |by left|done].
  intros _. unfold weight at 2. rewrite Hr. match goal with |- weight ?x < _ => pose proof (base_weight_range x) as Hx;
    pose proof (weight_le x eq_refl) as Hy end. lia.
Qed.

Lemma enabled_moves v : inv v -> base v -> v.(v_state) = EAP_DISABLED -> vwp (sm_EAP_INITIALIZE_Enter cfg false) (fun _ v' => moved v v') v.
Proof.
  intros Hi Hb Est. eapply (vwp_mono strict); [eapply enter_initialize, Hi|]. cbv beta zeta. intros _ v' (ident & ->).
  split; [by apply inv_initialized| |by left|done].
  intros _. rewrite (base_weight_of v Hb). unfold base_weight. rewrite Est. match goal with |- weight ?x < _ =>
    pose proof (weight_le x eq_refl) as Hy end. cbn in *. lia.
Qed.

Lemma disabled_moves v : inv v -> v.(v_port) = false -> v.(v_changed) = false -> vwp (sm_EAP_DISABLED_Enter true) (fun _ v' => moved v v') v.
Proof.
  intros Hi Hp Hc. eapply (vwp_mono strict); [eapply enter_disabled|]. cbv beta. intros _ v' ->.
  split; [|unfold weight; cbn|by left|done].
  - apply (inv_easy v); try done; try apply Hi. by left.
  - rewrite Hp, Hc, !andb_false_r. cbn. destruct (bool_decide _); [done|]. intros _. by rewrite bool_decide_eq_true_2.
Qed.

(** Too many rounds: the counter steps past its limit, and the machine fails. *)
Lemma rounds_fail v r k : inv v -> v.(v_changed) = false -> v.(v_restart) && v.(v_port) = false -> v.(v_port) = true ->
  (let v1 := v <| v_state := EAP_FAILURE |> <| v_rounds := r |> <| v_short := k |> in weight v1 < weight v) ->
  vwp (sm_EAP_FAILURE_Enter true) (fun _ v' => moved v v') (v <| v_rounds := r |> <| v_short := k |>).
Proof.
  intros Hi Hc Hr Hp Hw. eapply (vwp_mono strict); [eapply enter_failure|]. cbv beta. intros _ v' ->.
  split; [|intros _; exact Hw|by left|done].
  apply (inv_easy v); try done; try apply Hi. intros _. by right; left.
Qed.

Lemma u32_next m : u32 (u32 (m + 1) + 1) <> u32 (m + 1).
Proof. unfold u32. dlia. Qed.

Lemma step_rounds v : inv v -> v.(v_changed) = false -> v.(v_restart) && v.(v_port) = false -> v.(v_port) = true ->
  cfg.(max_auth_rounds) < v.(v_rounds) ->
  vwp (when (v.(v_rounds) =? u32 (cfg.(max_auth_rounds) + 1))
    (upd (fun s => s <| num_rounds := u32 (s.(num_rounds) + 1) |>) ;; sm_EAP_FAILURE_Enter true)) (fun _ v' => moved v v') v.
Proof.
  intros Hi Hc Hr Hp Hl. apply vwp_when; intros Er; [|apply moved_same; [done..|]; intros E; destruct (inv_base v Hi E); lia]. apply Z.eqb_eq in Er.
  apply vwp_bind, (vwp_upd _ (fun v : view => v <| v_rounds := u32 (v.(v_rounds) + 1) |>)); [by intros ?|]. cbv beta.
  replace (v <| v_rounds := u32 (v_rounds v + 1) |>) with (v <| v_rounds := u32 (v_rounds v + 1) |> <| v_short := v_short v |>) by (by destruct v).
  apply rounds_fail; try done. cbv zeta. unfold weight, base_weight. cbn. rewrite Hr, Hp, Er. cbn.
  rewrite Er in Hl. destruct (Z.ltb_spec (max_auth_rounds cfg) (u32 (max_auth_rounds cfg + 1))); [|lia]. rewrite Z.eqb_refl.
  destruct (_ <? _); [destruct (Z.eqb_spec (u32 (u32 (max_auth_rounds cfg + 1) + 1)) (u32 (max_auth_rounds cfg + 1))) as [E|]; [by apply u32_next in E|lia]|].
  destruct (_ <? _); [destruct (_ =? _)|]; lia.
Qed.

Lemma step_short v : inv v -> v.(v_changed) = false -> v.(v_restart) && v.(v_port) = false -> v.(v_port) = true ->
  v.(v_rounds) <= cfg.(max_auth_rounds) -> cfg.(max_auth_rounds_short) < v.(v_short) ->
  vwp (when (v.(v_short) =? u32 (cfg.(max_auth_rounds_short) + 1))
    (upd (fun s => s <| num_rounds_short := u32 (s.(num_rounds_short) + 1) |>) ;; sm_EAP_FAILURE_Enter true)) (fun _ v' => moved v v') v.
Proof.
  intros Hi Hc Hr Hp Hle Hl. apply vwp_when; intros Er; [|apply moved_same; [done..|]; intros E; destruct (inv_base v Hi E); lia]. apply Z.eqb_eq in Er.
  apply vwp_bind, (vwp_upd _ (fun v : view => v <| v_short := u32 (v.(v_short) + 1) |>)); [by intros ?|]. cbv beta.
  replace (v <| v_short := u32 (v_short v + 1) |>) with (v <| v_rounds := v_rounds v |> <| v_short := u32 (v_short v + 1) |>) by (by destruct v).
  apply rounds_fail; try done. cbv zeta. unfold weight, base_weight. cbn. rewrite Hr, Hp, Er. cbn.
  rewrite Er in Hl. destruct (Z.ltb_spec (max_auth_rounds cfg) (v_rounds v)); [lia|].
  destruct (Z.ltb_spec (max_auth_rounds_short cfg) (u32 (max_auth_rounds_short cfg + 1))); [|lia]. rewrite Z.eqb_refl.
  destruct (_ <? _); [destruct (Z.eqb_spec (u32 (u32 (max_auth_rounds_short cfg + 1) + 1)) (u32 (max_auth_rounds_short cfg + 1))) as [E|]; [by apply u32_next in E|lia]|].
  lia.
Qed.

(** The side conditions of a transition, and the transition. *)
Ltac cond := solve [assumption | split; cond | left; cond | right; cond].
Tactic Notation "go" uconstr(H) := match goal with
  | Hi : inv _, Hb : base _ |- wp _ _ _ ?w => refine (H _ Hi Hb _ w eq_refl); cond
  | Hi : inv _, Hb : base _ |- wp _ _ _ ?w => refine (H _ Hi Hb _ _ w eq_refl); cond
  | Hi : inv _, Hb : base _ |- wp _ _ _ ?w => refine (H _ Hi Hb _ _ _ w eq_refl); cond
  | Hi : inv _, Hb : base _ |- wp _ _ _ ?w => refine (H _ Hi Hb _ _ _ _ w eq_refl); cond
  end.

Lemma none_waits v : v.(v_shared).(method_pending) = METHOD_PENDING_NONE ->
  v = v <| v_shared := v.(v_shared) <| method_pending := METHOD_PENDING_NONE |> |>.
Proof. destruct v as [? ? ? ? ? ? ? ? ? ? ? ? []]. cbn. by intros ->. Qed.

(** The transition from a state, when none from any state is due. *)
Lemma step_state w : let v := view_of w in inv v -> v.(v_changed) = false -> base v ->
  wp strict (sm_EAP_Step cfg eap_methods) (fun _ w' => moved v (view_of w')) w.
Proof.
  cbv zeta. intros Hi Hc Hb. pose proof Hb as (Hr & Hp & H1 & H2). unfold sm_EAP_Step.
  apply ewp_bind, ewp_the_id. cbv zeta.
  change (eapRestart (eap_if (esm w)) && portEnabled (eap_if (esm w)) = false) in Hr.
  change (portEnabled (eap_if (esm w)) = true) in Hp.
  change (num_rounds (esm w) <= max_auth_rounds cfg) in H1. change (num_rounds_short (esm w) <= max_auth_rounds_short cfg) in H2.
  rewrite Hr, Hp. cbn [negb].
  destruct (Z.ltb_spec (max_auth_rounds cfg) (num_rounds (esm w))); [lia|].
  destruct (Z.ltb_spec (max_auth_rounds_short cfg) (num_rounds_short (esm w))); [lia|]. clear H H0 H1 H2 Hr Hp.
  assert (Hsame : EAP_state (esm w) <> EAP_INTEGRITY_CHECK -> wp strict skip (fun _ w' => moved (view_of w) (view_of w')) w)
    by (intros; by apply moved_same).
  assert (Hsel : (view_of w).(v_state) = EAP_INITIALIZE \/ (view_of w).(v_state) = EAP_PICK_UP_METHOD \/
    ((view_of w).(v_state) = EAP_IDLE /\ (view_of w).(v_idle) = true) \/
    ((view_of w).(v_state) = EAP_METHOD_RESPONSE /\ (view_of w).(v_end) = true) \/ (view_of w).(v_state) = EAP_NAK \/
    ((view_of w).(v_state) = EAP_INITIATE_RECEIVED /\ cfg.(eap_server) = false) ->
    wp strict (sm_EAP_SELECT_ACTION_Enter cfg false) (fun _ w' => moved (view_of w) (view_of w')) w).
  { intros H. eapply (to_select _ Hi Hb _ H); [|reflexivity]. exists (view_of w).(v_try). by destruct (view_of w). }
  destruct (EAP_state (esm w)) eqn:Est; try by apply Hsame.
  all: pose proof (Est : v_state (view_of w) = _) as E.
  all: repeat match goal with
    | |- wp _ (when _ _) _ _ => apply ewp_when; intros ?
    | |- wp _ (if ?b then _ else _) _ _ => destruct b eqn:?
    | |- wp _ (match ?x with _ => _ end) _ _ => destruct x eqn:?
    end.
  all: first [by apply Hsame | apply Hsel; cond | go enabled_moves | go to_nak | go to_pick_up | go to_retransmit | go to_received
    | go to_integrity | go to_initiate_received | go to_discard | go to_method_request | go to_failure | go to_success
    | go to_propose | go to_initialize_passthrough | go to_reauth_start | go to_idle | go to_timeout_failure
    | go to_aaa_idle | go to_aaa_request | go to_received2 | go to_retransmit2 | go to_timeout_failure2 | go to_idle2
    | go to_discard2 | go to_send_request2 | go to_failure2 | go to_success2 | go to_aaa_response | go to_send_reauth | idtac].
  { apply ewp_bind, ewp_upd. eapply (to_select _ Hi Hb ((view_of w) <| v_try := false |>)); [cond|by exists false|done]. }
  { eapply (to_method_response _ Hi Hb (view_of w)); [cond|apply none_waits, no_wait; by rewrite ?E|done]. }
  { apply ewp_bind, ewp_upd. by eapply (to_method_response _ Hi Hb _); [cond|..]. }
  { refine (to_send_request _ Hi Hb Est _ w eq_refl). intros En. change (m (esm w) = None) in En. congruence. }
  1, 2: exfalso; assert (method_pending (shr (esm w)) = METHOD_PENDING_NONE) by (apply (no_wait (view_of w) Hi); by rewrite E); congruence.
  { refine (to_initiate_received _ Hi Hb _ w eq_refl). right. split; [done|].
    match goal with H : _ && _ = true |- _ => apply andb_true_iff in H as [H _]; by apply andb_true_iff in H as [H _] end. }
  { eapply (to_method_response _ Hi Hb (view_of w)); [|apply none_waits, no_wait; by rewrite ?E|done].
    left. split; [done|]. match goal with H : (_ =? EAP_TYPE_NONE) = false |- _ => by apply Z.eqb_neq in H end. }
  { apply Hsel. do 5 right. split; [done|]. by apply negb_true_iff. }
Qed.

Lemma step_ok w : let v := view_of w in inv v -> v.(v_changed) = false ->
  wp strict (sm_EAP_Step cfg eap_methods) (fun _ w' => moved v (view_of w')) w.
Proof.
  cbv zeta. intros Hi Hc.
  destruct (eapRestart (eap_if (esm w)) && portEnabled (eap_if (esm w))) eqn:Er.
  { unfold sm_EAP_Step. apply ewp_bind, ewp_the_id. cbv zeta. rewrite Er. by apply (restart_moves (view_of w)). }
  destruct (portEnabled (eap_if (esm w))) eqn:Ep.
  2: { unfold sm_EAP_Step. apply ewp_bind, ewp_the_id. cbv zeta. rewrite Ep, andb_false_r. by apply (disabled_moves (view_of w)). }
  assert (Er' : v_restart (view_of w) && v_port (view_of w) = false) by (cbn; by rewrite Ep).
  destruct (Z.ltb_spec (max_auth_rounds cfg) (num_rounds (esm w))) as [Hl|Hl].
  { unfold sm_EAP_Step. apply ewp_bind, ewp_the_id. cbv zeta. rewrite Ep, Er. cbn [negb].
    destruct (Z.ltb_spec (max_auth_rounds cfg) (num_rounds (esm w))); [|lia]. by apply (step_rounds (view_of w)). }
  destruct (Z.ltb_spec (max_auth_rounds_short cfg) (num_rounds_short (esm w))) as [Hs|Hs]; [|by apply step_state].
  unfold sm_EAP_Step. apply ewp_bind, ewp_the_id. cbv zeta. rewrite Ep, Er. cbn [negb].
  destruct (Z.ltb_spec (max_auth_rounds cfg) (num_rounds (esm w))); [lia|].
  destruct (Z.ltb_spec (max_auth_rounds_short cfg) (num_rounds_short (esm w))); [|lia]. by apply (step_short (view_of w)).
Qed.

(** Where a success was reached nothing more happens. *)
Lemma step_rests w : evidence (view_of w) -> base (view_of w) ->
  wp strict (sm_EAP_Step cfg eap_methods) (fun _ w' => w' = w) w.
Proof.
  intros He (Hr & Hp & H1 & H2). unfold sm_EAP_Step. apply ewp_bind, ewp_the_id. cbv zeta.
  change (eapRestart (eap_if (esm w)) && portEnabled (eap_if (esm w)) = false) in Hr.
  change (portEnabled (eap_if (esm w)) = true) in Hp.
  change (num_rounds (esm w) <= max_auth_rounds cfg) in H1. change (num_rounds_short (esm w) <= max_auth_rounds_short cfg) in H2.
  rewrite Hr, Hp. cbn [negb].
  destruct (Z.ltb_spec (max_auth_rounds cfg) (num_rounds (esm w))); [lia|].
  destruct (Z.ltb_spec (max_auth_rounds_short cfg) (num_rounds_short (esm w))); [lia|].
  destruct He as [[Est _]|[[Est _]|(Est & Hc & _)]]; cbn in Est; rewrite Est.
  - done.
  - done.
  - by rewrite Hc.
Qed.

(** ** The loop *)

Lemma inv_changed v b : inv v -> inv (v <| v_changed := b |>).
Proof. intros []. by constructor. Qed.

Lemma loop_ok started fuel : forall w res, inv (view_of w) -> weight (view_of w) < Z.of_nat fuel ->
  ((view_of w).(v_success) = true -> started = true \/ (evidence (view_of w) /\ base (view_of w))) ->
  wp strict (step_loop cfg eap_methods fuel res) (fun _ w' => inv (view_of w') /\
    (view_of w').(v_state) <> EAP_INTEGRITY_CHECK /\
    ((view_of w').(v_success) = true -> started = true \/ evidence (view_of w'))) w.
Proof.
  induction fuel as [|fuel IH]; intros w res Hi Hw Hs; [pose proof (weight_range (view_of w)); lia|]. cbn [step_loop].
  apply ewp_bind, ewp_upd. set (w1 := w <| esm := _ |>). 
  assert (Hv1 : view_of w1 = (view_of w) <| v_changed := false |>) by done.
  assert (Hok : wp strict (sm_EAP_Step cfg eap_methods) (fun _ w' => moved (view_of w1) (view_of w')) w1).
  { apply step_ok; rewrite Hv1; [by apply inv_changed|done]. }
  assert (Hrest : evidence (view_of w1) -> base (view_of w1) -> wp strict (sm_EAP_Step cfg eap_methods) (fun _ w' => w' = w1) w1).
  { apply step_rests. }
  clearbody w1. apply ewp_bind.
  assert (Hboth : wp strict (sm_EAP_Step cfg eap_methods) (fun _ w' => moved (view_of w1) (view_of w') /\
    ((view_of w').(v_success) = true -> started = true \/ (evidence (view_of w') /\ base (view_of w')))) w1).
  { destruct (v_success (view_of w1)) eqn:E1.
    - assert (E : v_success (view_of w) = true) by (by rewrite Hv1 in E1). destruct (Hs E) as [->|[He Hb]].
      + eapply ewp_mono; [exact Hok|]. auto.
      + assert (He1 : evidence (view_of w1)) by (by rewrite Hv1). assert (Hb1 : base (view_of w1)) by (by rewrite Hv1).
        eapply ewp_mono; [apply (ewp_and _ _ _ _ _ Hok (Hrest He1 Hb1))|]. cbv beta. intros _ w' [H ->]. auto.
    - eapply ewp_mono; [exact Hok|]. cbv beta. intros _ w' Hm. split; [done|]. intros Hs'. destruct (moved_success _ _ Hm Hs'); [congruence|auto]. }
  eapply ewp_mono; [exact Hboth|]. cbv beta. intros _ w' [Hm Hs']. apply ewp_bind, ewp_the.
  destruct (changed (esm w')) eqn:Ec.
  - apply IH; [apply Hm| |done]. pose proof (moved_weight _ _ Hm Ec) as Hf.
    assert (weight (view_of w1) = weight (view_of w)) by (by rewrite Hv1). lia.
  - apply ewp_ret. split_and!; [apply Hm| |].
    + intros E. apply (moved_rest _ _ Hm) in E. change (changed (esm w') = true) in E. congruence.
    + intros E. destruct (Hs' E) as [|[]]; auto.
Qed.

Lemma server_step_ok w : inv (view_of w) ->
  wp strict (eap_server_sm_step cfg eap_methods) (fun _ w' => inv (view_of w') /\
    (view_of w').(v_state) <> EAP_INTEGRITY_CHECK /\
    ((view_of w').(v_success) = true -> (view_of w).(v_success) = true \/ evidence (view_of w'))) w.
Proof.
  intros Hi. apply loop_ok; [done| |auto]. pose proof (weight_range (view_of w)). change (Z.of_nat step_fuel) with 60. lia.
Qed.

End safety.

(** ** Reachable machines *)

Section reachable.
Context {env P : Type} `{HH : !EapHost env} `{HHL : !EapHostLaws env} `{HS : !Sha256}.
Context (cfg : eap_config) (eap_methods : list (eap_method env P)) `{HML : !MethodsLaws eap_methods}.
Abbreviation server := (server env P).
Implicit Types w : server.

(** A machine as the 802.1X authenticator uses it: it is made, stepped, told of
    a cached key, of the end of a wait and of the name in an ERP packet, and to
    forget the name; its interface is written between the steps, a packet being bytes; and the world
    goes on. *)
Inductive reachable : server -> Prop :=
| reach_init e outcomes w : eap_server_sm_init e outcomes = Some w -> reachable w
| reach_step w b w' : reachable w -> eap_server_sm_step cfg eap_methods w = Ok (b, w') -> reachable w'
| reach_input w i a : reachable w -> (forall d, i.(eapRespData) = Some d -> bytes d) ->
    reachable (w <| esm := w.(esm) <| eap_if := i |> <| aaa := a |> |>)
| reach_cached w w' : reachable w -> eap_sm_notify_cached w = Ok (tt, w') -> reachable w'
| reach_pending w w' : reachable w -> eap_sm_pending_cb w = Ok (tt, w') -> reachable w'
| reach_erp w eap w' : reachable w -> bytes eap -> eap_erp_update_identity eap w = Ok (tt, w') -> reachable w'
| reach_clear w w' : reachable w -> eap_server_clear_identity w = Ok (tt, w') -> reachable w'
| reach_world w e outcomes : reachable w -> reachable (w <| host := e |> <| mem := outcomes |>).

Section any.
Context (strict : bool) (Hstrict : strict = true -> forall e, get_erp_send_reauth_start e = false).

(** What holds of a machine between its steps. *)
Definition settled w : Prop := inv cfg eap_methods strict (view_of w) /\ (view_of w).(v_state) <> EAP_INTEGRITY_CHECK.

Lemma settled_init e outcomes w : eap_server_sm_init e outcomes = Some w -> settled w.
Proof.
  unfold eap_server_sm_init. intros H. assert (E : w.(esm) = fresh_eap) by (by destruct outcomes as [|[]]; simplify_eq).
  split; unfold view_of; rewrite E; [|done]. constructor; try done.
Qed.

Lemma settled_step w b w' : settled w -> eap_server_sm_step cfg eap_methods w = Ok (b, w') -> settled w'.
Proof.
  intros [Hi _] E. pose proof (server_step_ok cfg eap_methods strict Hstrict w Hi) as H. unfold wp in H. rewrite E in H.
  by destruct H as (H1 & H2 & _).
Qed.

Lemma settled_input w i a : settled w -> (forall d, i.(eapRespData) = Some d -> bytes d) ->
  settled (w <| esm := w.(esm) <| eap_if := i |> <| aaa := a |> |>).
Proof. intros [[] Ht] Hd. split; [|done]. by constructor. Qed.

Lemma settled_erp w eap w' : settled w -> bytes eap -> eap_erp_update_identity eap w = Ok (tt, w') -> settled w'.
Proof.
  intros [Hi Ht] Hb E.
  assert (H : wp strict (eap_erp_update_identity eap) (fun _ w' => exists ident, 
    view_of w' = (view_of w) <| v_shared := (view_of w).(v_shared) <| identity := ident |> |>) w).
  { assert (Hsame : exists ident, view_of w = (view_of w) <| v_shared := (view_of w).(v_shared) <| identity := ident |> |>).
    { exists (view_of w).(v_shared).(identity). destruct (view_of w) as [? ? ? ? ? ? ? ? ? ? ? ? []]. reflexivity. }
    unfold eap_erp_update_identity. destruct (zlen eap <? sizeof_eap_hdr + 1); [exact Hsame|].
    destruct (_ || _); [exact Hsame|]. destruct (Z.ltb_spec (zlen eap) (5 + 3)); [exact Hsame|]. 
    apply ewp_bind, ewp_lift. eapply yields_mono; [apply erp_parse_ok; [done|lia|lia]|]. intros r _. cbv beta.
    destruct (keyname _); [|exact Hsame]. destruct (_ <? 0); [exact Hsame|].
    apply ewp_bind, ewp_malloc. intros b mem' _. apply ewp_upd. eexists. reflexivity. }
  unfold wp in H. rewrite E in H. destruct H as [ident Hv]. split; [|by rewrite Hv].
  rewrite Hv. destruct Hi. by constructor.
Qed.

Lemma settled_pending w w' : settled w -> eap_sm_pending_cb w = Ok (tt, w') -> settled w'.
Proof.
  intros [Hi Ht] H. injection H as <-. unfold view_of. cbn.
  destruct (bool_decide_reflect (method_pending (shr (esm w)) = METHOD_PENDING_WAIT)) as [Ew|Ew]; [|by split].
  split; [|done]. pose proof (inv_wait _ _ _ _ Hi) as Hw. cbn in Hw. rewrite Ew in Hw. specialize (Hw ltac:(done)).
  destruct Hi. by constructor.
Qed.

Lemma reachable_settled w : reachable w -> settled w.
Proof.
  induction 1 as [e l w H|w b w' _ IH H|w i a _ IH Hd|w w' _ [Hi Ht] H|w w' _ IH H|w eap w' _ IH Hb H|w w' _ [Hi Ht] H|w e l _ IH].
  - by eapply settled_init.
  - by eapply settled_step.
  - by apply settled_input.
  - injection H as <-. split; [|done]. destruct Hi. constructor; try done. intros H. by right; right; left.
  - by eapply settled_pending.
  - by eapply settled_erp.
  - injection H as <-. split; [|done]. destruct Hi. by constructor.
  - exact IH.
Qed.
End any.

End reachable.
End EapServerSafety.
