(* ===== verification/EapAuth.v ===== *)
(** * Authentication by the EAP server

    The methods of [EapMethods] keep the laws [EapServerLogic] asks for, so that
    the machine with them is safe; what MD5 accepts, what a Nak leaves, and the
    fault the start of ERP opens; and an authentication from end to end. *)

From Stdlib Require Import String.
From S2P Require Import Prelude WpaDefs Wpabuf Codec EapolSm EapCommon EapServer Radius EapMethods EapServerLogic EapServerSafety.

Module EapAuth.
Import WpaDefs Wpabuf EapolSm EapCommon EapServer EapMethods EapServerLogic EapServerSafety.

#[local] Open Scope Z_scope.
#[local] Open Scope list_scope.

(** ** The methods keep their laws *)

Section laws.
Context {env : Type} `{HH : !EapHost env} `{HM : !Radius.Md5}.
Implicit Types (p : eap_priv) (d : option (list Z)).

(** The private data is the method's own. *)
Definition own_data (x : eap_method env eap_priv) p : Prop :=
  if m_method x =? EAP_TYPE_IDENTITY then exists i, p = PrivIdentity i else exists i, p = PrivMd5 i.

(** An MD5 response has a length byte. *)
Definition md5_ready d : Prop := forall pos len,
  eap_hdr_validate EAP_VENDOR_IETF EAP_TYPE_MD5 d = Ok (Some (pos, len)) -> 1 <= len.
Definition may_process (x : eap_method env eap_priv) p d : Prop :=
  if m_method x =? EAP_TYPE_IDENTITY then True else md5_ready d.

Lemma total_ret {A} (a : A) (Q : method_world env -> A -> method_world env -> Prop) : (forall w, Q w a w) -> total (mret a) Q.
Proof. intros H w. exists a, w. split_and!; [done|auto|lia]. Qed.

Lemma request_runs type data id : runs (request type data id) (fun r => match r with
  | Some pkt => pkt = eap_header type (zlen data) EAP_CODE_REQUEST id ++ data
  | None => True
  end).
Proof.
  unfold request. eapply wruns_bind; [apply wruns_msg_alloc; lia|]. intros [b|] Hb; [|by apply wruns_ret]. destruct Hb as [Hh Hs].
  eapply runs_put; [exact Hh|cbn; lia|]. intros b' [Hh' _] _. by apply wruns_ret.
Qed.

(** Validation returns for any packet. *)
Lemma validate_total vendor t d : exists v, eap_hdr_validate vendor t d = Ok v /\
  match v, d with Some (pos, len), Some msg => 5 <= pos /\ 0 <= len /\ pos + len <= zlen msg | Some _, None => False | None, _ => True end.
Proof.
  destruct d as [msg|]; [|by exists None]. destruct (hdr_validate_ok vendor t msg) as (v & E & H). exists v. split; [done|].
  destruct v as [[pos len]|]; [|done]. tauto.
Qed.

Lemma identity_init_ok : total eap_identity_init (fun (w : method_world env) r (w' : method_world env) => w'.(sh) = w.(sh) /\
  match r with Some p => exists i, p = PrivIdentity i | None => (length w'.(mmem) < length w.(mmem))%nat end).
Proof.
  intros [s e [|[] l]]; do 2 eexists; (split; [reflexivity|]); cbn; (split; [split; [done|]|lia]); [by eexists..|lia].
Qed.

Lemma md5_init_ok : total eap_md5_init (fun (w : method_world env) r (w' : method_world env) => w'.(sh) = w.(sh) /\
  match r with Some p => exists i, p = PrivMd5 i | None => True end).
Proof. intros [s e [|[] l]]; do 2 eexists; (split; [reflexivity|]); cbn; (split; [split; [done|]|lia]); by try eexists. Qed.

Lemma identity_build_ok i id : total_calm (eap_identity_buildReq (PrivIdentity i) id) (fun r => exists i', r.1 = PrivIdentity i').
Proof.
  intros [s e l]. destruct (request_runs EAP_TYPE_IDENTITY (default [] (get_eap_req_id_text e)) id l) as (r & l' & E & Hl & _).
  unfold eap_identity_buildReq, mbind, MM_bind, mm_lift, mm_gets, mm_alloc. cbn -[request]. rewrite E. cbn.
  do 2 eexists. split; [reflexivity|]. split; [|done]. destruct r; (split; [by eexists|apply calm_refl]).
Qed.

Lemma md5_build_ok i id : total_calm (eap_md5_buildReq (PrivMd5 i) id) (fun r => exists i', r.1 = PrivMd5 i').
Proof.
  intros [s e l]. unfold eap_md5_buildReq, mbind, MM_bind, mm_lift, mm_ask, mm_alloc. cbn -[request].
  destruct (random_get_bytes CHALLENGE_LEN e) as [[c|] e'].
  - destruct (request_runs EAP_TYPE_MD5 ([CHALLENGE_LEN] ++ c) id l) as (r & l' & E & Hl & _). cbn -[request] in *. rewrite E. cbn.
    do 2 eexists. split; [reflexivity|]. split; [|done]. destruct r; (split; [by eexists|apply calm_refl]).
  - cbn. do 2 eexists. split; [reflexivity|]. cbn. split; [|lia]. split; [by eexists|apply calm_refl].
Qed.

(** A response is processed without a wait. *)
Definition processed (Q : eap_priv -> Prop) (w : method_world env) (p' : eap_priv) (w' : method_world env) : Prop :=
  (Q p' /\ (wf_shared w.(sh) -> wf_shared w'.(sh)) /\ w'.(sh).(method_pending) = w.(sh).(method_pending)) /\
  (length w'.(mmem) <= length w.(mmem))%nat.
Definition processes (c : MM env eap_priv) (Q : eap_priv -> Prop) : Prop :=
  forall w, exists p' w', c w = Ok (p', w') /\ processed Q w p' w'.

(** The computation returns from [w], with a result of [Q]. *)
Definition mtot {A} (c : MM env A) (Q : A -> method_world env -> Prop) (w : method_world env) : Prop :=
  exists a w', c w = Ok (a, w') /\ Q a w'.

Lemma mtot_bind {A B} (c : MM env A) (f : A -> MM env B) Q w : mtot c (fun a => mtot (f a) Q) w -> mtot (mbind f c) Q w.
Proof. intros (a & w1 & E1 & b & w2 & E2 & H). exists b, w2. split; [|done]. unfold mbind, MM_bind. by rewrite E1. Qed.

Lemma mtot_mono {A} (c : MM env A) (Q Q' : A -> method_world env -> Prop) w :
  mtot c Q w -> (forall a w', Q a w' -> Q' a w') -> mtot c Q' w.
Proof. intros (a & w' & E & H) HQ. exists a, w'. auto. Qed.

Lemma mtot_ret {A} (a : A) (Q : A -> method_world env -> Prop) w : Q a w -> mtot (mret a) Q w.
Proof. by exists a, w. Qed.

Lemma mtot_lift {A} (c : cres A) (Q : A -> method_world env -> Prop) w : yields c (fun a => Q a w) -> mtot (mm_lift c) Q w.
Proof. intros (a & -> & H). by exists a, w. Qed.

Lemma mtot_upd f (Q : unit -> method_world env -> Prop) w : Q tt (mkMethodWorld (f w.(sh)) w.(msurr) w.(mmem)) -> mtot (mm_upd f) Q w.
Proof. intros H. do 2 eexists. by split. Qed.

Lemma mtot_malloc (Q : bool -> method_world env -> Prop) w :
  (forall b l, (length l <= length w.(mmem))%nat -> Q b (mkMethodWorld w.(sh) w.(msurr) l)) -> mtot mm_malloc Q w.
Proof.
  intros H. destruct w as [s e l]. destruct (runs_malloc l) as (b & l' & E & Hl & _).
  exists b, (mkMethodWorld s e l'). unfold mm_malloc, mm_alloc. cbn -[os_malloc]. rewrite E. auto.
Qed.

Lemma identity_process_ok i d : processes (eap_identity_process (PrivIdentity i) d) (fun p' => exists i', p' = PrivIdentity i').
Proof.
  intros w. change (mtot (eap_identity_process (PrivIdentity i) d) (processed (fun p' => exists i', p' = PrivIdentity i') w) w).
  destruct (validate_total EAP_VENDOR_IETF EAP_TYPE_IDENTITY d) as (v & Ev & Hv).
  unfold eap_identity_process. apply mtot_bind, mtot_lift, yields_ok, mtot_bind.
  eapply (mtot_mono _ (fun _ w' => w' = w)).
  { destruct (pick_up i); [apply mtot_lift; unfold eap_identity_check; rewrite Ev; by apply yields_ok|by apply mtot_ret]. }
  intros [|] w' ->; [apply mtot_ret; split_and!; [by eexists|done|done|lia]|]. cbv zeta.
  rewrite Ev. apply mtot_bind, mtot_lift, yields_ok.
  destruct v as [[pos len]|], d as [msg|]; try done; try (apply mtot_ret; split_and!; [by eexists|done|done|lia]).
  destruct Hv as (H1 & H2 & H3). apply mtot_bind, mtot_upd, mtot_bind, mtot_malloc. intros [|] l Hl; cbn [negb].
  - apply mtot_bind, mtot_lift. rewrite rdn_ok by lia. apply yields_ok, mtot_bind, mtot_upd, mtot_ret. cbn in *.
    unfold processed. cbn. destruct (bool_decide _); (split_and!; [by eexists|done|done|done]).
  - apply mtot_bind, mtot_upd, mtot_ret. unfold processed. cbn in *. destruct (bool_decide _); (split_and!; [by eexists|done|done|done]).
Qed.

Lemma md5_process_ok i d : md5_ready d -> processes (eap_md5_process (PrivMd5 i) d) (fun p' => exists i', p' = PrivMd5 i').
Proof.
  intros Hr w. change (mtot (eap_md5_process (PrivMd5 i) d) (processed (fun p' => exists i', p' = PrivMd5 i') w) w).
  assert (Hret : forall j, mtot (mret (PrivMd5 j)) (processed (fun p' => exists i', p' = PrivMd5 i') w) w).
  { intros j. apply mtot_ret. split_and!; [by eexists|done|done|lia]. }
  destruct (validate_total EAP_VENDOR_IETF EAP_TYPE_MD5 d) as (v & Ev & Hv).
  unfold eap_md5_process. apply mtot_bind, mtot_lift, yields_ok, mtot_bind. exists (sh w), w. split; [done|].
  destruct (plain_password _) as [pw|]; [|apply Hret]. rewrite Ev. apply mtot_bind, mtot_lift, yields_ok.
  destruct v as [[pos len]|], d as [msg|]; try done; try apply Hret. destruct Hv as (H1 & H2 & H3). pose proof (Hr pos len Ev).
  apply mtot_bind, mtot_lift. rewrite rd_ok by lia. apply yields_ok.
  destruct (negb _); cbn [orb]; [apply Hret|]. destruct (Z.ltb_spec len (1 + CHAP_MD5_LEN)); [apply Hret|]. unfold CHAP_MD5_LEN in *.
  apply mtot_bind, mtot_lift. rewrite rdn_ok by lia. apply yields_ok. destruct (chap_md5 _ _ _); apply Hret.
Qed.

Lemma md5_check_ok i d : exists b, eap_md5_check (PrivMd5 i) d = Ok b /\ (b = false -> md5_ready d).
Proof.
  destruct (validate_total EAP_VENDOR_IETF EAP_TYPE_MD5 d) as (v & Ev & Hv). unfold eap_md5_check. rewrite Ev. cbn [cbind].
  destruct v as [[pos len]|], d as [msg|]; try done; try (by exists true). destruct Hv as (H1 & H2 & H3).
  destruct (Z.ltb_spec len 1); [by exists true|]. rewrite rd_ok by lia. cbn [cbind]. eexists. split; [reflexivity|]. intros _ pos' len' E.
  rewrite E in Ev. by simplify_eq.
Qed.

#[export] Instance base_methods_laws : MethodsLaws (base_methods (env := env)).
Proof.
  refine {| valid := own_data; ready := may_process |}.
  - by intros x [<-|[<-|[]]].
  - intros x [<-|[<-|[]]] w; [destruct (identity_init_ok w) as (r & w' & E & (H1 & H2) & H3)|destruct (md5_init_ok w) as (r & w' & E & (H1 & H2) & H3)];
      exists r, w'; (split; [exact E|]); (split; [split; [done|]|done]); by destruct r.
  - intros x f [<-|[<-|[]]] [= <-] w. destruct (identity_init_ok w) as (r & w' & E & (H1 & H2) & H3).
    unfold eap_identity_initPickUp, mbind, MM_bind. rewrite E. cbn. do 2 eexists. split; [reflexivity|]. split; [|done].
    unfold calm. rewrite H1. split; [|done]. destruct r as [p|]; [|done]. destruct H2 as [i ->]. split; [by eexists|done].
  - intros x p [<-|[<-|[]]] _; by apply total_ret.
  - intros x p id [<-|[<-|[]]] [i ->]; [apply identity_build_ok|apply md5_build_ok].
  - intros x p f d [<-|[<-|[]]] [i ->] [= <-]; [|apply md5_check_ok].
    destruct (validate_total EAP_VENDOR_IETF EAP_TYPE_IDENTITY d) as (v & Ev & _). cbn. unfold eap_identity_check. rewrite Ev. by eexists.
  - by intros x p d [<-|[<-|[]]].
  - intros x p d [<-|[<-|[]]] [i ->] Hr w.
    + destruct (identity_process_ok i d w) as (p' & w' & E & (H1 & H2 & H3) & H4).
      exists p', w'. split_and!; [exact E|exact H1|done|rewrite H3; auto|done].
    + destruct (md5_process_ok i d Hr w) as (p' & w' & E & (H1 & H2 & H3) & H4).
      exists p', w'. split_and!; [exact E|exact H1|done|rewrite H3; auto|done].
  - by intros x p f [<-|[<-|[]]].
  - by intros x p f [<-|[<-|[]]].
  - by intros x p f [<-|[<-|[]]].
Defined.
End laws.

(** ** The machine with any methods that keep the laws *)

Section machine.
Context {env P : Type} `{HH : !EapHost env} `{HHL : !EapHostLaws env} `{HS : !Sha256}.
Context (cfg : eap_config) (eap_methods : list (eap_method env P)) `{HML : !MethodsLaws eap_methods}.
Implicit Types w : server env P.

(** C7: unless the server is set to start ERP by itself, [eap_server_sm_step] returns from every reachable machine:
    no NULL pointer is followed, nothing outside a packet is read, and its loop ends.  Any allocations may fail, but not
    without end: the machine's [mem] lists finitely many outcomes, and those behind it succeed; while allocations go on
    failing, the search for a method does not end, see [failing_allocations_spin]. *)
Theorem eap_server_returns : (forall e : env, get_erp_send_reauth_start e = false) ->
  forall w, reachable cfg eap_methods w ->
  exists b w', eap_server_sm_step cfg eap_methods w = Ok (b, w') /\ reachable cfg eap_methods w'.
Proof.
  intros Hno w Hw. destruct (reachable_settled cfg eap_methods true (fun _ => Hno) w Hw) as [Hi _].
  pose proof (server_step_ok cfg eap_methods true (fun _ => Hno) w Hi) as H. unfold wp in H.
  destruct (eap_server_sm_step cfg eap_methods w) as [[b w']|] eqn:E; [|done]. exists b, w'. split; [done|by eapply reach_step].
Qed.

(** C6: when a step reports a success, either a method other than Identity has run to success, or the AAA server has
    reported one, or the packet was an EAP-Initiate/Re-auth tagged with a stored key; also where faults are possible. *)
Theorem eap_success_earned w b w' : reachable cfg eap_methods w -> w.(esm).(eap_if).(eapSuccess) = false ->
  eap_server_sm_step cfg eap_methods w = Ok (b, w') -> w'.(esm).(eap_if).(eapSuccess) = true ->
  let s := w'.(esm) in
  (s.(EAP_state) = EAP_SUCCESS /\ exists x p, s.(m) = Some x /\ s.(eap_method_priv) = Some p /\
     s.(currentMethod) <> EAP_TYPE_IDENTITY /\ m_isSuccess x p = true) \/
  (s.(EAP_state) = EAP_SUCCESS2 /\ s.(aaa).(aaaSuccess) = true) \/
  (s.(EAP_state) = EAP_INITIATE_RECEIVED /\ cfg.(eap_server) = true /\
   exists d e, s.(eap_if).(eapRespData) = Some d /\ erp_proof e d).
Proof.
  intros Hw Hs E Hs'. destruct (reachable_settled cfg eap_methods false (fun H => match Bool.diff_false_true H with end) w Hw) as [Hi _].
  pose proof (server_step_ok cfg eap_methods false (fun H => match Bool.diff_false_true H with end) w Hi) as H. unfold wp in H. rewrite E in H.
  destruct H as (_ & _ & H). destruct (H Hs') as [H'|H']; [|exact H']. change (eapSuccess (eap_if (esm w)) = true) in H'. congruence.
Qed.
End machine.

(** C17: the private data is always that of the method: each cast of [priv] in the Identity and MD5 methods is right. *)
Theorem private_data_typed {env : Type} `{HH : !EapHost env} `{HHL : !EapHostLaws env} `{HS : !Sha256} `{HM : !Radius.Md5} cfg
    (w : server env eap_priv) : reachable cfg base_methods w ->
  match w.(esm).(m), w.(esm).(eap_method_priv) with
  | None, None => True
  | Some x, Some p => List.In x base_methods /\ own_data x p
  | _, _ => False
  end.
Proof.
  intros Hw. destruct (reachable_settled cfg base_methods false (fun H => match Bool.diff_false_true H with end) w Hw) as [Hi _].
  exact (inv_methods _ _ _ _ Hi).
Qed.
(** ** The start of ERP, and the NULL method *)

#[local] Arguments mbind _ _ _ _ _ _ /.
#[local] Arguments mret _ _ _ _ /.
Section fault.
Context {env P : Type} `{HH : !EapHost env} `{HS : !Sha256} (cfg : eap_config) (eap_methods : list (eap_method env P)).
Implicit Types w : server env P.

(** The EAP-Response of type 0 with the identifier [id]. *)
Definition empty_response (id : Z) : list Z := [EAP_CODE_RESPONSE; id; 0; 5; EAP_TYPE_NONE].

Lemma loop_unfold n res w : step_loop cfg eap_methods (S n) res w =
  match sm_EAP_Step cfg eap_methods (w <| esm := w.(esm) <| changed := false |> |>) with
  | Ok (_, w') => if w'.(esm).(changed) then step_loop cfg eap_methods n true w' else Ok (res, w')
  | Fault => Fault
  end.
Proof.
  cbn [step_loop]. unfold mbind, E_bind. cbn -[sm_EAP_Step step_loop]. destruct (sm_EAP_Step _ _ _) as [[? w']|]; [|done].
  by destruct (changed (esm w')).
Qed.

(** C10: in IDLE without a method, where the start of ERP leaves the machine, an EAP-Response of type 0 with the current
    identifier takes it to INTEGRITY_CHECK, which follows [sm->m], a NULL pointer. *)
Theorem null_method_faults w id : 
  w.(esm).(EAP_state) = EAP_IDLE -> w.(esm).(m) = None -> w.(esm).(currentMethod) = EAP_TYPE_NONE ->
  w.(esm).(currentId) = id ->
  let i := w.(esm).(eap_if) in i.(portEnabled) = true -> i.(eapRestart) = false -> i.(retransWhile) <> 0 -> i.(eapResp) = true ->
  i.(eapRespData) = Some (empty_response id) ->
  w.(esm).(num_rounds) <= cfg.(max_auth_rounds) -> u32 (w.(esm).(num_rounds) + 1) <= cfg.(max_auth_rounds) ->
  w.(esm).(num_rounds_short) <= cfg.(max_auth_rounds_short) -> u32 (w.(esm).(num_rounds_short) + 1) <= cfg.(max_auth_rounds_short) ->
  eap_server_sm_step cfg eap_methods w = Fault.
Proof.
  destruct w as [s e l msgs]. destruct s as [st mr i a cm ci ms rc lr mt rr ri rid rm rv rvm ig de mm ch pr sh0 li nr ns sr irs tir].
  cbn [esm EAP_state m currentMethod currentId num_rounds num_rounds_short methodState eap_if].
  intros -> -> -> ->. cbv zeta. intros Hp Hr Hw He Hd H1 H2 H3 H4.
  destruct i as [a1 a2 a3 a4 a5 a6 a7 a8 a9 a10 a11 a12 a13 a14]. cbn in Hp, Hr, Hw, He, Hd. subst.
  apply Z.ltb_ge in H1, H2, H3, H4. apply Z.eqb_neq in Hw.
  unfold eap_server_sm_step, step_fuel. change 60%nat with (S (S 58)). rewrite loop_unfold.
  set (w1 := _ <| esm := _ |>). assert (E1 : exists w2, sm_EAP_Step cfg eap_methods w1 = Ok (tt, w2) /\ w2.(esm).(changed) = true /\
    w2.(esm).(EAP_state) = EAP_RECEIVED /\ w2.(esm).(m) = None /\ w2.(esm).(eap_if).(portEnabled) = true /\
    w2.(esm).(eap_if).(eapRestart) = false /\ w2.(esm).(rxResp) = true /\ w2.(esm).(respId) = w2.(esm).(currentId) /\
    w2.(esm).(respMethod) = 0 /\ w2.(esm).(currentMethod) = 0 /\ w2.(esm).(eap_if).(eapRespData) = Some (empty_response id) /\
    (max_auth_rounds cfg <? w2.(esm).(num_rounds)) = false /\ (max_auth_rounds_short cfg <? w2.(esm).(num_rounds_short)) = false).
  { eexists. split; [|split].
    - unfold sm_EAP_Step, w1. cbn -[Z.ltb Z.eqb u32]. rewrite H1. cbn -[Z.ltb Z.eqb u32]. rewrite H3, Hw. cbn -[u32]. reflexivity.
    - done.
    - cbn. split_and!; done. }
  destruct E1 as (w2 & -> & -> & G1 & G2 & G3 & G4 & G5 & G6 & G7 & G8 & G9 & G10 & G11). clearbody w1. rewrite loop_unfold.
  assert (E2 : sm_EAP_Step cfg eap_methods (w2 <| esm := w2.(esm) <| changed := false |> |>) = Fault); [|by rewrite E2].
  unfold sm_EAP_Step. cbn -[Z.ltb Z.eqb u32 sm_EAP_INTEGRITY_CHECK_Enter is_nak is_current].
  rewrite G1, G3, G4, G10. cbn -[Z.ltb Z.eqb u32 sm_EAP_INTEGRITY_CHECK_Enter is_nak is_current].
  rewrite G11, G5, G6, Z.eqb_refl. unfold is_nak, is_current. cbn -[Z.eqb sm_EAP_INTEGRITY_CHECK_Enter].
  rewrite G7, G8. cbn -[sm_EAP_INTEGRITY_CHECK_Enter]. unfold sm_EAP_INTEGRITY_CHECK_Enter.
  cbn -[eap_hdr_len_valid]. rewrite G9. change (eap_hdr_len_valid (Some (empty_response id)) 1) with true. cbn. unfold E_bind, the_method. cbn. unfold E_bind. cbn. by rewrite G2.
Qed.
End fault.

(** ** Allocations that fail without end *)

Section spin.
Context {env : Type} `{HH : !EapHost env} `{HS : !Sha256} `{HM : !Radius.Md5}.
Implicit Types w : server env eap_priv.

(** A proposal of the Identity method, before which there is no method. *)
Definition asks_identity w : Prop :=
  w.(esm).(m) = None /\ (w.(esm).(shr).(identity) = None \/ w.(esm).(currentId) = -1).

(** A turn of the search whose allocation fails. *)
Lemma failed_turn w more : asks_identity w -> w.(mem) = false :: more ->
  exists w', asks_identity w' /\ w'.(mem) = more /\
    forall fuel, propose_loop base_methods (S fuel) w = propose_loop base_methods fuel w'.
Proof.
  destruct w as [s e l msgs]. destruct s as [st mr i a cm ci ms rc lr mt rr ri rid rm rv rvm ig de mm ch pr sh0 li nr ns sr irs tir].
  destruct sh0 as [ident u k up pe]. unfold asks_identity. cbn. intros [-> Hi] ->.
  destruct ident as [x|].
  - destruct Hi as [Hi| ->]; [discriminate Hi|]. eexists. split; [|split; [|intros fuel; reflexivity]]; cbn; auto.
  - eexists. split; [|split; [|intros fuel; reflexivity]]; cbn; auto.
Qed.

(** While allocations fail, the search for a method to propose does not end: it
    tries Identity again, once for each that fails. *)
Theorem failing_allocations_spin n w more : asks_identity w -> w.(mem) = replicate n false ++ more ->
  exists w', asks_identity w' /\ w'.(mem) = more /\
    forall fuel, propose_loop base_methods (n + fuel) w = propose_loop base_methods fuel w'.
Proof.
  revert w. induction n as [|n IH]; intros w Hw Hm; [by exists w|].
  destruct (failed_turn w (replicate n false ++ more) Hw Hm) as (w1 & H1 & Hm1 & E1).
  destruct (IH w1 H1 Hm1) as (w' & H' & Hm' & E'). exists w'. split_and!; [done|done|].
  intros fuel. cbn [Nat.add]. by rewrite E1, E'.
Qed.
End spin.

(** ** What a Nak leaves *)

Section nak.
Context {env P : Type} `{HH : !EapHost env} `{HS : !Sha256}.
Implicit Types w : server env P.

(** The peer asks for the method. *)
Definition listed (nak : list Z) (vm : Z * Z) : bool := (vm.1 =? EAP_VENDOR_IETF) && existsb (fun n => n =? vm.2) nak.
Definition no_methods (n : nat) : list (Z * Z) := replicate n (EAP_VENDOR_IETF, EAP_TYPE_NONE).

Lemma nak_loop_filters nak : forall some pre k fuel, Forall (fun vm => no_method vm = false) some ->
  zlen (pre ++ some) + Z.of_nat k = EAP_MAX_METHODS -> (length some <= fuel)%nat ->
  nak_loop fuel nak (zlen pre) (pre ++ some ++ no_methods k) =
  Ok (pre ++ filter (fun vm => listed nak vm = true) some ++ no_methods (k + length (filter (fun vm => listed nak vm = false) some))).
Proof.
  induction some as [|vm some IH]; intros pre k fuel Hs Hl Hf.
  - assert (Hstop : (zlen pre <? EAP_MAX_METHODS) && negb (no_method (nth (Z.to_nat (zlen pre)) (pre ++ no_methods k) (0, 0))) = false).
    { rewrite app_nil_r in Hl. rewrite Nat2Z.id, app_nth2, Nat.sub_diag by lia. destruct k; [|by rewrite andb_false_r].
      destruct (Z.ltb_spec (zlen pre) EAP_MAX_METHODS); [lia|done]. }
    destruct fuel; cbn [nak_loop app]; rewrite Hstop; cbn; by rewrite Nat.add_0_r.
  - apply Forall_cons in Hs as [Hvm Hs]. rewrite length_app in Hl. cbn [length] in *.
    assert (Hnth : nth (Z.to_nat (zlen pre)) (pre ++ (vm :: some) ++ no_methods k) (0, 0) = vm).
    { by rewrite Nat2Z.id, app_nth2, Nat.sub_diag by lia. }
    destruct fuel as [|fuel]; [lia|]. cbn [nak_loop]. rewrite Hnth, Hvm.
    destruct (Z.ltb_spec (zlen pre) EAP_MAX_METHODS); [|lia]. cbn [negb andb]. cbv zeta.
    change ((vm.1 =? EAP_VENDOR_IETF) && existsb (fun n => n =? vm.2) nak) with (listed nak vm).
    destruct (listed nak vm) eqn:El.
    + rewrite filter_cons_True, (filter_cons_False (fun vm => listed nak vm = false)) by (rewrite El; done).
      replace (zlen pre + 1) with (zlen (pre ++ [vm])) by (rewrite length_app; cbn; lia).
      change ((vm :: some) ++ no_methods k) with ([vm] ++ some ++ no_methods k). rewrite (app_assoc pre).
      rewrite (IH (pre ++ [vm]) k fuel Hs); [by rewrite <- app_assoc|rewrite !length_app; cbn [length]; lia|lia].
    + rewrite filter_cons_False, (filter_cons_True (fun vm => listed nak vm = false)) by (rewrite El; done). cbn [length].
      replace (remove_method (zlen pre) (pre ++ (vm :: some) ++ no_methods k)) with (pre ++ some ++ no_methods (S k)).
      { rewrite (IH pre (S k) fuel Hs); [by rewrite Nat.add_succ_r|rewrite length_app; lia|lia]. }
      unfold remove_method. rewrite Nat2Z.id, take_app_length. f_equal.
      replace (pre ++ (vm :: some) ++ no_methods k) with ((pre ++ [vm]) ++ some ++ no_methods k) by (by rewrite <- app_assoc).
      rewrite drop_app_length' by (rewrite length_app; cbn; lia). rewrite <- app_assoc. f_equal.
      unfold no_methods. by rewrite replicate_S_end.
Qed.

(** C18: a Nak keeps, of the methods not tried yet, exactly those that the peer lists, in their order, and clears the rest. *)
Theorem nak_keeps_listed w nak u pre some k : w.(esm).(shr).(user) = Some u -> u.(methods) = pre ++ some ++ no_methods k ->
  w.(esm).(shr).(user_eap_method_index) = zlen pre -> zlen u.(methods) = EAP_MAX_METHODS ->
  Forall (fun vm => no_method vm = false) some ->
  exists n, eap_sm_process_nak nak w = Ok (tt, w <| esm := w.(esm) <| shr := w.(esm).(shr) <| user :=
    Some (u <| methods := pre ++ filter (fun vm => listed nak vm = true) some ++ no_methods n |>) |> |> |>).
Proof.
  intros Hu Hm Hi Hl Hs. eexists. unfold eap_sm_process_nak, mbind, E_bind. cbn. rewrite Hu. rewrite Hm, Hi.
  rewrite nak_loop_filters; [reflexivity|done|rewrite Hm, !length_app in Hl; unfold no_methods in Hl; rewrite length_replicate in Hl;
    rewrite length_app; lia|rewrite Hm, !length_app in Hl; unfold EAP_MAX_METHODS in *; cbn; lia].
Qed.
End nak.

(** A new identifier is a byte, and not the one before it: that of the request before, or, when there was none since
    the machine was started, that of the last request of the session before. *)
Theorem identifier_fresh {env P : Type} `{HH : !EapHost env} (w : server env P) id i w' :
  eap_sm_nextId id w = Ok (i, w') -> 0 <= i <= 255 /\ (0 <= id -> i <> id) /\ (id < 0 -> i <> w.(esm).(lastId)).
Proof.
  assert (Hr : forall x, 0 <= Z.land x 255 <= 255).
  { intros x. change 255 with (Z.ones 8). rewrite Z.land_ones by lia. change (2 ^ 8) with 256. change (Z.ones 8) with 255. dlia. }
  assert (Hn : forall x, Z.land x 255 = x -> Z.land (x + 1) 255 <> x).
  { intros x E. change 255 with (Z.ones 8) in *. rewrite Z.land_ones in * by lia. dlia. }
  unfold eap_sm_nextId, mbind, E_bind. destruct (Z.ltb_spec id 0); cbn -[Z.land].
  - destruct (Z.eqb_spec (Z.land (rand (host w)).1 255) (lastId (esm w))) as [E|E]; cbn -[Z.land]; intros [= <- <-].
    + split; [apply Hr|split; [lia|]]. intros _. rewrite E. apply Hn. rewrite <- E. change 255 with (Z.ones 8).
      rewrite !Z.land_ones by lia. apply Zmod_mod.
    + split; [apply Hr|split; [lia|done]].
  - intros [= <- <-]. split; [apply Hr|split; [|lia]]. intros _ E. pose proof (Hr (id + 1)). apply (Hn id); [|done].
    change 255 with (Z.ones 8). rewrite Z.land_ones by lia. apply Z.mod_small. lia.
Qed.

(** ** What MD5 accepts, and the packets *)

Section packets.
Context {env : Type} `{HH : !EapHost env} `{HM : !Radius.Md5}.

(** C16: a response makes the MD5 method succeed just when it is well formed and its value is the hash of the identifier,
    the password of the user, known in plain text, and the challenge sent. *)
Theorem md5_verdict c msg (w : method_world env) p' w' :
  eap_md5_process (PrivMd5 (mkMd5 c CONTINUE)) (Some msg) w = Ok (p', w') ->
  eap_md5_isSuccess p' = true <-> exists pw pos len,
    plain_password w.(sh).(user) = Some pw /\
    eap_hdr_validate EAP_VENDOR_IETF EAP_TYPE_MD5 (Some msg) = Ok (Some (pos, len)) /\
    at_ msg pos = CHAP_MD5_LEN /\ 1 + CHAP_MD5_LEN <= len /\
    Radius.md5 ([eap_get_id msg] ++ pw ++ c) = Some (slice (pos + 1) CHAP_MD5_LEN msg).
Proof.
  destruct (validate_total EAP_VENDOR_IETF EAP_TYPE_MD5 (Some msg)) as (v & Ev & Hv).
  unfold eap_md5_process, mbind, MM_bind, mm_lift, mm_shared. cbn -[eap_hdr_validate app eap_get_id].
  destruct (plain_password (user (sh w))) as [pw|]; [|intros [= <- <-]; split; [done|by intros (? & ? & ? & ? & _)]].
  rewrite Ev. destruct v as [[pos len]|].
  2: { intros [= <- <-]. split; [done|]. intros (? & ? & ? & _ & ? & _). congruence. }
  destruct Hv as (H1 & H2 & H3). unfold rd. destruct ((0 <=? pos) && (pos <? zlen msg)); [|done].
  destruct (Z.eqb_spec (at_ msg pos) CHAP_MD5_LEN) as [Ec|Ec]; cbn [negb orb].
  2: { intros [= <- <-]. split; [done|]. intros (? & ? & ? & _ & ? & ? & _). congruence. }
  destruct (Z.ltb_spec len (1 + CHAP_MD5_LEN)).
  { intros [= <- <-]. split; [done|]. intros (? & ? & ? & _ & ? & _ & ? & _). simplify_eq. lia. }
  unfold CHAP_MD5_LEN in *. rewrite rdn_ok by lia. unfold chap_md5.
  destruct (Radius.md5 _) as [hash|] eqn:Eh; intros [= <- <-]; cbn [app] in *.
  - destruct (bool_decide_reflect (hash = slice (pos + 1) 16 msg)) as [Es|Es]; cbn; (split; [|intros (? & ? & ? & E1 & E2 & _ & _ & E3)]).
    + intros _. exists pw, pos, len. split_and!; [done|done|done|lia|by rewrite Eh, Es].
    + done.
    + done.
    + by simplify_eq.
  - split; [done|]. intros (? & ? & ? & ? & ? & _ & _ & ?). by simplify_eq.
Qed.

(** A request built for a method is one that the peer's, and the server's, validation takes apart again: its code,
    its identifier and its payload are those it was built from. *)
Theorem request_roundtrip type data id : 0 <= type < 254 -> 0 <= id < 256 -> 5 + zlen data < 65536 ->
  forall mem pkt mem', request type data id mem = Ok (Some pkt, mem') ->
  eap_code pkt = EAP_CODE_REQUEST /\ eap_identifier pkt = id /\
  eap_hdr_validate EAP_VENDOR_IETF type (Some pkt) = Ok (Some (5, zlen data)) /\ slice 5 (zlen data) pkt = data.
Proof.
  intros Ht Hid Hl mem pkt mem' E. destruct (request_runs type data id mem) as (r & m & E' & _ & Hr).
  rewrite E in E'. injection E' as <- <-. subst pkt.
  assert (El : eap_length (eap_header type (zlen data) EAP_CODE_REQUEST id ++ data) = 5 + zlen data).
  { change (Z.lor (Z.shiftl (u8 (Z.shiftr (4 + 1 + zlen data) 8)) 8) (Z.land (4 + 1 + zlen data) 0xff) = 5 + zlen data).
    change 0xff with (Z.ones 8). rewrite land_mask, shiftr_div by lia. change (2 ^ 8) with 256.
    rewrite lor_shiftl by (change (2 ^ 8) with 256; dlia). change (2 ^ 8) with 256. unfold u8. dlia. }
  assert (Hz : zlen (eap_header type (zlen data) EAP_CODE_REQUEST id ++ data) = 5 + zlen data) by (rewrite length_app; cbn; lia).
  split; [done|]. split; [by apply u8_small|]. split.
  - unfold eap_hdr_validate, eap_hdr_len_valid. rewrite El, Hz. unfold sizeof_eap_hdr.
    destruct (Z.ltb_spec (5 + zlen data) 4); [lia|]. destruct (Z.ltb_spec (5 + zlen data) (4 + 1)); [lia|].
    destruct (Z.ltb_spec (5 + zlen data) (5 + zlen data)); [lia|]. cbn [negb orb]. rewrite rd_ok by lia. cbn [cbind].
    change (at_ (eap_header type (zlen data) EAP_CODE_REQUEST id ++ data) 4) with (u8 type). rewrite u8_small by lia.
    destruct (Z.eqb_spec type EAP_TYPE_EXPANDED) as [->|]; [unfold EAP_TYPE_EXPANDED in *; lia|]. rewrite !Z.eqb_refl. cbn [negb orb].
    replace (5 + zlen data - 4 - 1) with (zlen data) by lia. done.
  - by apply slice_app_r.
Qed.
End packets.

(** ** Runs *)

Module Runs.

(** Hash functions that are functions of the sum of the bytes. *)
Definition byte_sum (l : list Z) : Z := fold_right Z.add 0 l.
#[local] Instance demo_md5 : Radius.Md5 := {| Radius.md5 d := Some (replicate 16 (u8 (byte_sum d))) |}.
#[local] Instance demo_sha256 : Sha256 := {|
  hmac_sha256 k d := Some (replicate 32 (u8 (byte_sum (k ++ d))));
  hmac_sha256_kdf k l s n := Some (replicate (Z.to_nat n) (u8 (byte_sum (k ++ s))))
|}.

(** One user, with MD5 and the password pw; [start] says whether the server
    starts ERP. *)
Definition bob : eap_user := mkUser ((EAP_VENDOR_IETF, EAP_TYPE_MD5) :: no_methods 7) (Some [112; 119]) false false.
Definition demo_host (start : bool) : EapHost unit := {|
  get_eap_user _ _ e := (Some bob, e);
  get_eap_req_id_text _ := None;
  get_erp_send_reauth_start _ := start;
  get_erp_domain _ := None;
  erp_get_key _ _ := None;
  erp_write_key _ e := e;
  erp_add_key _ e := (false, e);
  rand e := (7, e);
  random_get_bytes n e := (Some (replicate (Z.to_nat n) 5), e)
|}.
Lemma demo_eap_host_laws start : @EapHostLaws unit (demo_host start).
Proof. intros i p [] u e' [= <- _]. reflexivity. Qed.
Definition demo_config : eap_config := mkConfig false true false 100 50.
Abbreviation demo_methods start := (@base_methods unit (demo_host start) demo_md5).
Abbreviation demo_step start := (@eap_server_sm_step unit eap_priv (demo_host start) demo_sha256 demo_config (demo_methods start)).

(** The machine after a step. *)
Definition after (start : bool) (w : server unit eap_priv) : server unit eap_priv :=
  match demo_step start w with Ok (_, w') => w' | Fault => w end.
Definition with_if (f : eap_eapol_interface -> eap_eapol_interface) (w : server unit eap_priv) : server unit eap_priv :=
  w <| esm := w.(esm) <| eap_if := f w.(esm).(eap_if) |> <| aaa := w.(esm).(aaa) |> |>.
Definition responds (d : list Z) : server unit eap_priv -> server unit eap_priv :=
  with_if (fun i => i <| eapResp := true |> <| eapRespData := Some d |>).

(** The port comes up; the peer names itself, and answers the challenge. *)
Definition started (start : bool) : server unit eap_priv :=
  with_if (fun i => i <| portEnabled := true |> <| eapRestart := true |>) (mkServer fresh_eap tt [] []).
Definition named_bob : server unit eap_priv := responds [2; 7; 0; 8; 1; 98; 111; 98] (after false (started false)).
Definition answered : server unit eap_priv :=
  responds ([2; 8; 0; 22; 4; 16] ++ replicate 16 (u8 (byte_sum ([8] ++ [112; 119] ++ replicate 16 5)))) (after false named_bob).

Abbreviation demo_reachable start := (@reachable unit eap_priv (demo_host start) demo_sha256 demo_config (demo_methods start)).

Definition is_ok {A} (c : cres A) : bool := match c with Ok _ => true | Fault => false end.

Lemma reach_after start w : demo_reachable start w -> is_ok (demo_step start w) = true -> demo_reachable start (after start w).
Proof.
  intros Hw Hn. unfold after. destruct (demo_step start w) as [[b w']|] eqn:E; [|done]. by eapply reach_step.
Qed.

Lemma reach_started start : demo_reachable start (started start).
Proof. apply reach_input; [|done]. by apply (reach_init _ _ tt []). Qed.

Lemma reach_responds start d w : demo_reachable start w -> bytes d -> demo_reachable start (responds d w).
Proof. intros Hw Hd. apply reach_input; [done|]. by intros ? [= <-]. Qed.

Lemma reach_named : demo_reachable false named_bob.
Proof.
  apply reach_responds; [|by_deciding]. apply reach_after; [apply reach_started|]. vm_compute. reflexivity.
Qed.

Lemma reach_answered : demo_reachable false answered.
Proof.
  apply reach_responds; [|by_deciding]. apply reach_after; [apply reach_named|]. vm_compute. reflexivity.
Qed.

Lemma eap_server_returns_witness : exists b w', demo_step false named_bob = Ok (b, w') /\ demo_reachable false w'.
Proof.
  refine (@eap_server_returns unit eap_priv (demo_host false) (demo_eap_host_laws false) demo_sha256 demo_config (demo_methods false)
    (@base_methods_laws unit (demo_host false) demo_md5) _ named_bob reach_named).
  reflexivity.
Defined.

(** The last step of the run: its result, and what it tells. *)
Lemma after_step start w : is_ok (demo_step start w) = true -> exists b, demo_step start w = Ok (b, after start w).
Proof. unfold after. destruct (demo_step start w) as [[b w']|]; [by exists b|done]. Qed.

Lemma eap_success_earned_witness : exists b, demo_step false answered = Ok (b, after false answered) /\
  let s := (after false answered).(esm) in
  (s.(EAP_state) = EAP_SUCCESS /\ exists x p, s.(m) = Some x /\ s.(eap_method_priv) = Some p /\
     s.(currentMethod) <> EAP_TYPE_IDENTITY /\ m_isSuccess x p = true) \/
  (s.(EAP_state) = EAP_SUCCESS2 /\ s.(aaa).(aaaSuccess) = true) \/
  (s.(EAP_state) = EAP_INITIATE_RECEIVED /\ demo_config.(eap_server) = true /\
   exists d e, s.(eap_if).(eapRespData) = Some d /\ @erp_proof unit (demo_host false) demo_sha256 e d).
Proof.
  destruct (after_step false answered ltac:(vm_compute; reflexivity)) as [b E]. exists b. split; [exact E|].
  refine (@eap_success_earned unit eap_priv (demo_host false) (demo_eap_host_laws false) demo_sha256 demo_config (demo_methods false)
    (@base_methods_laws unit (demo_host false) demo_md5) answered b _ reach_answered _ E _); vm_compute; reflexivity.
Defined.

Lemma failing_allocations_spin_witness :
  let w := mkServer fresh_eap tt [false; false; false; true] [] in
  exists w' : server unit eap_priv, asks_identity w' /\ w'.(mem) = [true] /\
    forall fuel, @propose_loop unit eap_priv (demo_methods false) (3 + fuel) w =
                 @propose_loop unit eap_priv (demo_methods false) fuel w'.
Proof.
  refine (@failing_allocations_spin unit (demo_host false) demo_md5 3
    (mkServer fresh_eap tt [false; false; false; true] []) [true] _ eq_refl).
  split; [reflexivity|left; reflexivity].
Defined.

Lemma private_data_typed_witness :
  match (after false named_bob).(esm).(m), (after false named_bob).(esm).(eap_method_priv) with
  | None, None => True
  | Some x, Some p => List.In x (demo_methods false) /\ own_data x p
  | _, _ => False
  end.
Proof.
  refine (@private_data_typed unit (demo_host false) (demo_eap_host_laws false) demo_sha256 demo_md5 demo_config (after false named_bob) _).
  apply reach_after; [apply reach_named|]. vm_compute. reflexivity.
Defined.

(** The server has started ERP; the peer sends the response of type 0 instead. *)
Lemma null_method_faults_witness : demo_step true (responds (empty_response 7) (after true (started true))) = Fault.
Proof.
  refine (@null_method_faults unit eap_priv (demo_host true) demo_sha256 demo_config (demo_methods true)
    (responds (empty_response 7) (after true (started true))) 7 _ _ _ _ _ _ _ _ _ _ _ _ _);
    vm_compute; first [reflexivity|discriminate].
Defined.

Lemma nak_keeps_listed_witness :
  let u := mkUser [(0, 25); (0, 21); (0, 13); (0, 4); (0, 0); (0, 0); (0, 0); (0, 0)] None false false in
  let w : server unit eap_priv := mkServer (fresh_eap <| shr := mkShared None (Some u) 1 false METHOD_PENDING_NONE |>) tt [] [] in
  exists n, eap_sm_process_nak [4; 21] w = Ok (tt, w <| esm := w.(esm) <| shr := w.(esm).(shr) <| user :=
    Some (u <| methods := [(0, 25)] ++ filter (fun vm => listed [4; 21] vm = true) [(0, 21); (0, 13); (0, 4)] ++ no_methods n |>) |> |> |>).
Proof.
  refine (nak_keeps_listed _ [4; 21] _ [(0, 25)] [(0, 21); (0, 13); (0, 4)] 4 _ _ _ _ _); try reflexivity.
  repeat constructor.
Defined.

Lemma identifier_fresh_witness : exists i w', 
  @eap_sm_nextId unit eap_priv (demo_host false) (-1) (mkServer (fresh_eap <| lastId := 7 |>) tt [] []) = Ok (i, w') /\
  0 <= i <= 255 /\ (0 <= -1 -> i <> -1) /\ (-1 < 0 -> i <> 7).
Proof.
  do 2 eexists. split; [vm_compute; reflexivity|].
  refine (@identifier_fresh unit eap_priv (demo_host false) (mkServer (fresh_eap <| lastId := 7 |>) tt [] []) (-1) _ _ _).
  vm_compute. reflexivity.
Defined.

(** The challenge is sixteen fives, the identifier 8. *)
Definition demo_answer (v : Z) : list Z := [2; 8; 0; 22; 4; 16] ++ replicate 16 v.
Definition demo_world : method_world unit := mkMethodWorld (mkShared (Some [98; 111; 98]) (Some bob) 1 false METHOD_PENDING_NONE) tt [].

Lemma md5_verdict_witness : exists p' w',
  @eap_md5_process unit demo_md5 (PrivMd5 (mkMd5 (replicate 16 5) CONTINUE)) (Some (demo_answer 63)) demo_world = Ok (p', w') /\
  eap_md5_isSuccess p' = true /\ (eap_md5_isSuccess p' = true <-> exists pw pos len,
    plain_password (sh demo_world).(user) = Some pw /\
    eap_hdr_validate EAP_VENDOR_IETF EAP_TYPE_MD5 (Some (demo_answer 63)) = Ok (Some (pos, len)) /\
    at_ (demo_answer 63) pos = CHAP_MD5_LEN /\ 1 + CHAP_MD5_LEN <= len /\
    Radius.md5 ([eap_get_id (demo_answer 63)] ++ pw ++ replicate 16 5) = Some (slice (pos + 1) CHAP_MD5_LEN (demo_answer 63))).
Proof.
  do 2 eexists. split; [vm_compute; reflexivity|]. split; [vm_compute; reflexivity|].
  refine (@md5_verdict unit demo_md5 (replicate 16 5) (demo_answer 63) demo_world _ _ _). vm_compute. reflexivity.
Defined.

Lemma request_roundtrip_witness : exists pkt mem', request EAP_TYPE_MD5 [1; 2; 3] 9 [] = Ok (Some pkt, mem') /\
  eap_code pkt = EAP_CODE_REQUEST /\ eap_identifier pkt = 9 /\
  eap_hdr_validate EAP_VENDOR_IETF EAP_TYPE_MD5 (Some pkt) = Ok (Some (5, zlen [1; 2; 3])) /\ slice 5 (zlen [1; 2; 3]) pkt = [1; 2; 3].
Proof.
  do 2 eexists. split; [vm_compute; reflexivity|].
  refine (request_roundtrip EAP_TYPE_MD5 [1; 2; 3] 9 _ _ _ [] _ _ _); [by_deciding..|]. vm_compute. reflexivity.
Defined.
End Runs.
End EapAuth.
