(* ===== verification/Station.v ===== *)
(** * A station: the 802.1X machines over the EAP server

    The two state machines that authenticate a station, [EapolSm] and
    [EapServer], put together as ap/ieee802_1x.c does: they share the structure
    [eap_if], the 802.1X machines call the server's step, and what the rest of
    hostapd does to either comes in between.  The server is the [Environment]
    of the 802.1X machines; a [Fault] of its step is the end of the process.
    The steps the station's server has taken are recorded beside it, so that a
    theorem can speak of the run of this station. *)

From S2P Require Import Prelude WpaDefs Wpabuf EapolSm EapolRx EapCommon EapServer Radius EapMethods EapServerFrame EapServerLogic EapServerSafety EapAuth.

Module Station.
Import WpaDefs EapCommon EapServerLogic EapServer EapolRx EapolSm.

#[local] Open Scope Z_scope.
#[local] Open Scope list_scope.

(** The rest of hostapd, as the 802.1X machines meet it. *)
Class Rest (env : Type) := {
  rest_event : event -> env -> env;
  rest_finished : bool -> bool -> bool -> bool -> env -> bool;
  rest_alive : env -> bool
}.

(** A station's EAP server, [None] after a [Fault], and what it has done: for
    each step, the server before and after. *)
Record hosted (env P : Type) := mkHosted {
  machine : option (server env P); steps : list (server env P * server env P)
}.
Arguments mkHosted {env P}. Arguments machine {env P}. Arguments steps {env P}.

Section station.
Context {env P : Type} `{HH : !EapHost env} `{HS : !Sha256} `{HR : !Rest env}.
Context (cfg : eap_config) (eap_methods : list (eap_method env P)).
Abbreviation server := (server env P).
Abbreviation hosted := (hosted env P).
Abbreviation world := (world hosted).
Implicit Types (s : server) (o : hosted) (w : world).

(** On the server. *)
Definition on_server (f : server -> server) o : hosted := mkHosted (f <$> o.(machine)) o.(steps).

(** ** The composition *)

(** An event goes to the rest of hostapd; the news of a cached key also goes to
    the EAP server. *)
Definition server_event (e : event) s : server :=
  let s := s <| host := rest_event e s.(host) |> in
  match e with
  | EvEapNotifyCached => match eap_sm_notify_cached s with Ok (_, s') => s' | Fault => s end
  | _ => s
  end.

(** A step of the server, on the interface the 802.1X machines leave. *)
Definition server_step (i : eap_eapol_interface) o : bool * eap_eapol_interface * hosted :=
  match o.(machine) with
  | None => (false, i, o)
  | Some s =>
      let s := s <| esm := s.(esm) <| EapServer.eap_if := i |> |> in
      match EapServer.eap_server_sm_step cfg eap_methods s with
      | Ok (b, s') => (b, s'.(esm).(EapServer.eap_if), mkHosted (Some s') (o.(steps) ++ [(s, s')]))
      | Fault => (false, i, mkHosted None o.(steps))
      end
  end.

#[local] Instance station_environment : Environment hosted := {
  env_event e o := on_server (server_event e) o;
  env_finished success preauth remediation logoff o :=
    from_option (fun s => rest_finished success preauth remediation logoff s.(host)) false o.(machine);
  sta_entry_alive o := from_option (fun s => rest_alive s.(host)) false o.(machine);
  eap_server_sm_step := server_step
}.

(** What else hostapd does to the server between two runs: the AAA client
    writes its part of the interface, an asynchronous result arrives, the name in
    an ERP packet is learnt, the name is forgotten, and the world goes on. *)
Inductive server_input : server -> server -> Prop :=
| input_aaa s a : server_input s (s <| esm := s.(esm) <| aaa := a |> |>)
| input_pending s s' : eap_sm_pending_cb s = Ok (tt, s') -> server_input s s'
| input_erp s eap s' : bytes eap -> eap_erp_update_identity eap s = Ok (tt, s') -> server_input s s'
| input_clear s s' : eap_server_clear_identity s = Ok (tt, s') -> server_input s s'
| input_world s e outcomes : server_input s (s <| host := e |> <| mem := outcomes |>).

Definition server_inputs o o' : Prop :=
  o'.(steps) = o.(steps) /\
  match o.(machine), o'.(machine) with Some s, Some s' => rtc server_input s s' | None, None => True | _, _ => False end.

(** A server just made. *)
Definition made s : hosted := mkHosted (Some s) [].

(** A response to the server is a packet of bytes. *)
Definition wf_response w : Prop := forall d, eapRespData (eap_if w.(sm)) = Some d -> bytes d.

(** A station's machines from their allocation on, while port control is
    automatic. *)
Inductive station : world -> Prop :=
| station_alloc e outcomes s flags period wpa session_id_ok w :
    eap_server_sm_init e outcomes = Some s ->
    eapol_auth_alloc (made s) flags period wpa (Some s.(esm).(EapServer.eap_if)) session_id_ok = Some w -> station w
| station_run w : station w -> station (eapol_sm_step_run w)
| station_tick w : station w -> station (eapol_port_timers_tick w)
| station_input w w' : station w -> external false w w' -> wf_response w' -> server_inputs w.(surr) w'.(surr) -> station w'
| station_cached w : station w -> station (new_station_pmksa w).

(** What the reception of a frame tells the server: [ieee802_1x_receive] calls
    [eap_server_clear_identity].  The call touches nothing the events between it
    and the end of the reception touch. *)
Definition told_action s (a : action) : server :=
  match a with
  | ActClearIdentity => match eap_server_clear_identity s with Ok (_, s') => s' | Fault => s end
  | _ => s
  end.
Definition on_surr (f : server -> server) w : world := mkWorld w.(sm) (on_server f w.(surr)) w.(log).

Definition receive (conf : bss_conf) (malloc_ok session_id_ok : bool) (buf : list Z) (encrypted : frame_encryption)
    (sta : sta_info hosted) : cres (sta_info hosted) :=
  (r <-- ieee802_1x_receive conf malloc_ok session_id_ok buf encrypted (Some (sta <| actions := [] |>)) ;;
   match r with
   | Some sta => Ok (on_eapol (on_surr (fun s => foldl told_action s sta.(actions))) sta)
   | None => Ok sta
   end)%c.

(** A station as hostapd has it: associated anew, with a server ready to be
    made; frames arrive, the machines run and their timers tick; a cached key is
    accepted; and the rest of hostapd goes on. *)
Inductive live : sta_info hosted -> Prop :=
| live_new flags wpa_state e outcomes s :
    eap_server_sm_init e outcomes = Some s ->
    live (mkSta flags None zero_rx wpa_state None (made s) (Some s.(esm).(EapServer.eap_if)) [])
| live_frame sta conf malloc_ok session_id_ok buf encrypted sta' :
    live sta -> bytes buf -> receive conf malloc_ok session_id_ok buf encrypted sta = Ok sta' -> live sta'
| live_run sta : live sta -> live (on_eapol eapol_sm_step_run sta)
| live_tick sta : live sta -> live (on_eapol eapol_port_timers_tick sta)
| live_cached sta : live sta -> live (on_eapol new_station_pmksa sta)
| live_input sta w w' : live sta -> sta.(eapol) = Some w -> external false w w' -> wf_response w' ->
    server_inputs w.(surr) w'.(surr) -> live (sta <| eapol := Some w' |>)
| live_other sta flags r wpa_state pending acts : live sta ->
    live (mkSta flags sta.(eapol) r wpa_state pending sta.(sta_env) sta.(eap_init) acts).

(** What a success of the server rests on. *)
Definition proof_of_peer s : Prop :=
  (s.(esm).(EAP_state) = EAP_SUCCESS /\ exists x p, s.(esm).(m) = Some x /\ s.(esm).(eap_method_priv) = Some p /\
     s.(esm).(currentMethod) <> EAP_TYPE_IDENTITY /\ m_isSuccess x p = true) \/
  (s.(esm).(EAP_state) = EAP_SUCCESS2 /\ s.(esm).(aaa).(aaaSuccess) = true) \/
  (s.(esm).(EAP_state) = EAP_INITIATE_RECEIVED /\ cfg.(eap_server) = true /\
   exists d e, s.(esm).(EapServer.eap_if).(eapRespData) = Some d /\ erp_proof e d).

(** The results of the server's steps the 802.1X machines were told of, in order. *)
Definition results (l : list event) : list eap_eapol_interface :=
  omap (fun e => match e with EvEapStep i => Some i | _ => None end) l.

(** The steps of a station's server grant it the network by the time of the
    events [l]: the n-th of them, whose result was the n-th told of, turned no
    success into a success with a proof; or a cached key does. *)
Definition granted (h : list (server * server)) (l : list event) : Prop :=
  List.In EvEapNotifyCached l \/
  exists n s b s', h !! n = Some (s, s') /\ results l !! n = Some (EapServer.eap_if s'.(esm)) /\ EapServer.eap_server_sm_step cfg eap_methods s = Ok (b, s') /\
    eapSuccess (EapServer.eap_if s.(esm)) = false /\ eapSuccess (EapServer.eap_if s'.(esm)) = true /\
    proof_of_peer s'.

(** ** Invariants of the composition *)

(** The server is set never to start ERP. *)
Definition no_start : Prop := forall e : env, get_erp_send_reauth_start e = false.

Lemma station_reachable w : station w -> reachable false w.
Proof.
  induction 1 as [e l s flags period wpa sid w Hs Ha|w _ IH|w _ IH|w w' _ IH He _ _|w _ IH].
  - eapply reach_alloc; [|exact Ha]. unfold eap_server_sm_init in Hs. by destruct l as [|[]]; simplify_eq.
  - by apply reach_run.
  - by apply reach_tick.
  - by eapply reach_external.
  - by apply reach_cached.
Qed.

Context `{HHL : !EapHostLaws env} `{HML : !MethodsLaws eap_methods}.
Abbreviation server_reachable := (EapServerSafety.reachable cfg eap_methods).

Lemma loose : false = true -> no_start.
Proof. done. Qed.

Definition server_ok o : Prop := match o.(machine) with Some s => server_reachable s | None => ~ no_start end.

Lemma server_ok_event e o : server_ok o -> server_ok (env_event e o).
Proof.
  destruct o as [[s|] h]; [|done]. cbn. intros H.
  assert (H1 : server_reachable (s <| host := rest_event e s.(host) |>)).
  { apply (EapServerSafety.reach_world _ _ s (rest_event e s.(host)) s.(mem) H). }
  unfold server_event. destruct e; try exact H1.
  by eapply EapServerSafety.reach_cached.
Qed.

Lemma server_ok_notified l o : server_ok o -> server_ok (notified l o).
Proof. revert o. induction l as [|e l IH]; intros o H; [done|]. apply IH, server_ok_event, H. Qed.

Lemma server_ok_inputs o o' : server_ok o -> server_inputs o o' -> server_ok o'.
Proof.
  destruct o as [[s|] h], o' as [[s'|] h']; intros H [_ R]; try done. revert H R. cbn. intros H R. induction R as [s|s u v Hs _ IH]; [done|]. apply IH. clear IH.
  destruct Hs as [s a|s s' E|s eap s' Hb E|s s' E|s e l].
  - assert (Hi : forall d, eapRespData (EapServer.eap_if (esm s)) = Some d -> bytes d).
    { destruct (EapServerSafety.reachable_settled cfg eap_methods false loose s H) as [Hi _].
      exact (EapServerSafety.inv_data _ _ _ _ Hi). }
    pose proof (EapServerSafety.reach_input cfg eap_methods s (EapServer.eap_if (esm s)) a H Hi) as H'.
    destruct s as [[] ? ? ?]. exact H'.
  - by eapply EapServerSafety.reach_pending.
  - by eapply EapServerSafety.reach_erp.
  - by eapply EapServerSafety.reach_clear.
  - by apply EapServerSafety.reach_world.
Qed.

(** A step of the server: what it gives back, and what a new success rests on. *)
Lemma step_of_server_ok i o : server_ok o -> (forall d, eapRespData i = Some d -> bytes d) ->
  let '(_, i', o') := server_step i o in
  server_ok o' /\ (forall d, eapRespData i' = Some d -> bytes d) /\
  (eapSuccess i' = true -> eapSuccess i = true \/
     exists s b s', EapServer.eap_server_sm_step cfg eap_methods s = Ok (b, s') /\ o'.(steps) = o.(steps) ++ [(s, s')] /\
       is_Some o.(machine) /\ EapServer.eap_if s.(esm) = i /\ EapServer.eap_if s'.(esm) = i' /\ proof_of_peer s') /\
  exists k, o'.(steps) = o.(steps) ++ k /\ (is_Some o'.(machine) -> is_Some o.(machine) /\ length k = 1%nat).
Proof.
  intros H Hd. unfold server_step. destruct o as [[s|] h]; cbn [machine steps].
  2: { split; [exact H|]. split; [exact Hd|]. split; [by left|]. exists []. rewrite app_nil_r. split; [done|]. by intros []. }
  unfold server_ok in *. cbn [machine steps] in *.
  assert (H1 : server_reachable (s <| esm := s.(esm) <| EapServer.eap_if := i |> |>)).
  { pose proof (EapServerSafety.reach_input cfg eap_methods s i s.(esm).(aaa) H Hd) as H'. destruct s as [[] ? ? ?]. exact H'. }
  cbv zeta. set (s1 := s <| esm := _ |>) in *. assert (Ei : EapServer.eap_if (esm s1) = i) by done. clearbody s1.
  destruct (EapServer.eap_server_sm_step cfg eap_methods s1) as [[b s']|] eqn:E.
  - assert (H2 : server_reachable s') by (by eapply EapServerSafety.reach_step).
    split; [exact H2|]. cbn [machine steps].
    pose proof (EapServerSafety.reachable_settled cfg eap_methods false loose s1 H1) as [Hi _].
    pose proof (EapServerSafety.server_step_ok cfg eap_methods false loose s1 Hi) as Hw.
    unfold wp in Hw. rewrite E in Hw. destruct Hw as (Hi' & _ & Hw). split; [exact (EapServerSafety.inv_data _ _ _ _ Hi')|].
    split; [|eexists; split; [done|]; intros _; split; [by eexists|done]]. intros Hsucc. destruct (Hw Hsucc) as [Hw'|Hw'].
    + left. rewrite <- Ei. exact Hw'.
    + right. exists s1, b, s'. split_and!; done.
  - split; [|split_and!; [done|auto|exists []; rewrite app_nil_r; split; [done|by intros []]]]. cbn [machine]. intros Hno.
    pose proof (EapServerSafety.reachable_settled cfg eap_methods true (fun _ => Hno) s1 H1) as [Hi _].
    pose proof (EapServerSafety.server_step_ok cfg eap_methods true (fun _ => Hno) s1 Hi) as Hw.
    unfold wp in Hw. by rewrite E in Hw.
Qed.

(** The server and the response of a world. *)
Definition tracks w : Prop := server_ok w.(surr) /\ wf_response w.

Lemma becomes_tracks w w' pae port succ : tracks w -> becomes w w' pae port succ -> tracks w'.
Proof.
  intros [Hs Hr] (_ & _ & _ & _ & _ & Hd & l & _ & _ & He). split.
  - rewrite He. by apply server_ok_notified.
  - intros d Ed. apply Hr. congruence.
Qed.

Lemma lawful_tracks w w' : tracks w -> lawful w w' -> tracks w'.
Proof. intros H [succ B _|pae succ B _ _ _]; by eapply becomes_tracks. Qed.

Lemma notified_steps l o : (notified l o).(steps) = o.(steps).
Proof. revert o. induction l as [|e l IH]; intros o; [done|]. exact (IH (env_event e o)). Qed.

(** While the server lives, its steps are those told of. *)
Definition matched w : Prop := is_Some w.(surr).(machine) -> length w.(surr).(steps) = length (results w.(log)).

Lemma results_app l k : results (l ++ k) = results l ++ results k.
Proof. apply omap_app. Qed.

Lemma results_none l : Forall (fun e => inert e = true) l -> results l = [].
Proof. induction 1 as [|e l He _ IH]; [done|]. unfold results in *. cbn. by destruct e. Qed.

Lemma results_port port : results (port_events port) = [].
Proof. by destruct port as [[]|]. Qed.

Lemma notified_machine l o : is_Some (notified l o).(machine) -> is_Some o.(machine).
Proof.
  revert o. induction l as [|e l IH]; intros o H; [done|]. apply (IH (env_event e o)) in H.
  destruct o as [[s|] h]; [done|exact H].
Qed.

Lemma matched_same w w' :
  matched w -> (is_Some w'.(surr).(machine) -> is_Some w.(surr).(machine)) -> w'.(surr).(steps) = w.(surr).(steps) ->
  results w'.(log) = results w.(log) -> matched w'.
Proof. intros H Hm Hs Ht Hw. rewrite Hs, Ht. by apply H, Hm. Qed.

Lemma granted_app h l h' k : granted h l -> granted (h ++ h') (l ++ k).
Proof.
  intros [H|(n & s & b & s' & Hh & Ht & H)]; [left; apply in_app_iff; by left|].
  right. exists n, s, b, s'. split; [by apply lookup_app_l_Some|]. split; [|exact H].
  unfold results. rewrite omap_app. by apply lookup_app_l_Some.
Qed.

(** A call of the server's step: what is recorded, and what a new success rests
    on. *)
Lemma eap_step_ok w : tracks w -> matched w ->
  let w' := snd (eap_step w) in
  tracks w' /\ matched w' /\ exists i k, w'.(log) = w.(log) ++ [EvEapStep i] /\ eap_if w'.(sm) = i /\
    w'.(surr).(steps) = w.(surr).(steps) ++ k /\
    (eapSuccess i = true -> eapSuccess (eap_if w.(sm)) = true \/ granted w'.(surr).(steps) w'.(log)).
Proof.
  intros [Hs Hr] Hm. unfold eap_step. pose proof (step_of_server_ok (eap_if w.(sm)) w.(surr) Hs Hr) as H.
  change (eap_server_sm_step (eap_if (sm w)) (surr w)) with (server_step (eap_if (sm w)) (surr w)).
  destruct (server_step _ _) as [[b i] o]. destruct H as (Ho & Hi & Hsucc & k & Hk & Hlen). cbv zeta. cbn [snd].
  assert (Ht : results (log w ++ [EvEapStep i]) = results (log w) ++ [i]) by apply results_app.
  split; [split; [exact (server_ok_event (EvEapStep i) o Ho)|exact Hi]|]. split.
  - intros H. change (is_Some (machine (env_event (EvEapStep i) o))) in H.
    apply (notified_machine [EvEapStep i]) in H. destruct (Hlen H) as [Hw Hl].
    change (length (steps o) = length (results (log w ++ [EvEapStep i]))).
    rewrite Hk, Ht, !length_app, Hl. cbn [length]. by rewrite (Hm Hw).
  - exists i, k. split_and!; [done|done|exact Hk|]. intros Hb.
    destruct (eapSuccess (eap_if (sm w))) eqn:Es; [by left|right].
    destruct (Hsucc Hb) as [Hf|(s & b' & s' & E & Hh & Hw & Ei & Ei' & Hp)]; [congruence|].
    right. exists (length (steps (surr w))), s, b', s'. rewrite Ei, Ei'.
    split; [|split; [|split_and!; [exact E|exact Es|exact Hb|exact Hp]]].
    + change (steps o !! length (steps (surr w)) = Some (s, s')). rewrite Hh. by apply list_lookup_middle.
    + change (results (log w ++ [EvEapStep i]) !! length (steps (surr w)) = Some i). rewrite Ht. by apply list_lookup_middle, Hm.
Qed.

(** Every opening of the port in the log was granted by what came before it. *)
Definition openings_granted (h : list (server * server)) (l : list event) : Prop :=
  forall l1 l2, l = l1 ++ EvSetPort true :: l2 -> granted h l1.

Lemma openings_app h h' l k : openings_granted h l -> (List.In (EvSetPort true) k -> granted (h ++ h') l) ->
  openings_granted (h ++ h') (l ++ k).
Proof.
  intros Ho Hk l1 l2 E.
  assert (Hl : (exists k1, l1 = l ++ k1 /\ k = k1 ++ EvSetPort true :: l2) \/ exists m, l = l1 ++ EvSetPort true :: m).
  { clear -E. revert l1 E. induction l as [|e l IH]; intros [|e1 l1] E; cbn in E.
    - left. by exists [].
    - left. by exists (e1 :: l1).
    - injection E as -> _. right. by exists l.
    - injection E as -> E. destruct (IH l1 E) as [(k1 & -> & H)|[m ->]]; [left; by exists k1|right; by exists m]. }
  destruct Hl as [(k1 & -> & ->)|[m ->]].
  - replace (h ++ h') with ((h ++ h') ++ []) by apply app_nil_r. apply granted_app, Hk, in_app_iff. right. by left.
  - rewrite <- (app_nil_r l1). apply granted_app. by eapply Ho.
Qed.

(** A success the 802.1X machines know of was granted, and so was every opening
    of the port, before it. *)
Definition well_founded w : Prop :=
  tracks w /\ matched w /\ portControl w.(sm) = Auto /\ w.(sm).(auth_pae_state) <> AUTH_PAE_FORCE_AUTH /\
  (authSuccess w.(sm) = true \/ eapSuccess (eap_if w.(sm)) = true -> granted w.(surr).(steps) w.(log)) /\
  openings_granted w.(surr).(steps) w.(log).

Lemma founded_lawful w w' : well_founded w -> lawful w w' -> well_founded w'.
Proof.
  intros (Ht & Hm & Hc & Hf & Hg & Ho) HL. split; [by eapply lawful_tracks|].
  assert (exists pae port succ, becomes w w' pae port succ /\
    (succ = true -> authSuccess w.(sm) = true \/ eapSuccess (eap_if w.(sm)) = true) /\
    (port = Some true -> authSuccess w.(sm) = true) /\ pae <> AUTH_PAE_FORCE_AUTH)
    as (pae & port & succ & (Hp & Hs & He & Hpc & _ & _ & l & Hl & Hlog & Hsurr) & H1 & H2 & H3).
  { destruct HL as [succ B H1|pae succ B H1 H2 H3].
    - exists w.(sm).(auth_pae_state), None, succ. split; [exact B|]. done.
    - assert (pae <> AUTH_PAE_FORCE_AUTH) by (intros ->; destruct H3; congruence).
      exists pae, (port_of pae), succ. split; [exact B|]. split; [auto|]. split; [|done].
      intros Hp. destruct pae; try done. auto. }
  split.
  { apply (matched_same w); [done| | |].
    - rewrite Hsurr. apply notified_machine.
    - by rewrite Hsurr, notified_steps.
    - by rewrite Hlog, !results_app, results_port, (results_none _ Hl), app_nil_r. }
  rewrite Hp, Hs, He, Hpc, Hlog, Hsurr, notified_steps. split_and!; [done|done|..].
  - intros E. rewrite <- (app_nil_r (steps _)). apply granted_app, Hg. destruct E as [E|E]; auto.
  - rewrite <- (app_nil_r (steps _)). apply openings_app; [done|]. rewrite app_nil_r. intros E. apply Hg.
    apply in_app_iff in E as [E|E]; [|by apply inert_no_port in E]. destruct port as [[]|]; [auto|by destruct E|done].
Qed.

Lemma founded_eap w : well_founded w -> well_founded (snd (eap_step w)).
Proof.
  intros (Ht & Hm & Hc & Hf & Hg & Ho). destruct (eap_step_ok w Ht Hm) as (Ht' & Hm' & i & k & Hlog & Hi & Hk & Hsucc).
  split; [done|]. split; [done|]. unfold eap_step in *. destruct (eap_server_sm_step _ _) as [[b i'] o].
  cbn [snd sm surr log eap_if auth_pae_state authSuccess portControl] in *.
  split_and!; [done|done|..].
  - rewrite Hk, Hlog in *. intros [E|E]; [apply granted_app, Hg; by left|].
    change (eapSuccess i' = true) in E. change (i' = i) in Hi. rewrite Hi in E.
    destruct (Hsucc E) as [Hb|H]; [apply granted_app, Hg; by right|exact H].
  - rewrite Hk, Hlog. apply openings_app; [done|]. by intros [|[]].
Qed.

Lemma founded_fresh e outcomes s flags period wpa : eap_server_sm_init e outcomes = Some s ->
  well_founded (mkWorld (fresh_sm flags period wpa s.(esm).(EapServer.eap_if)) (made s) []).
Proof.
  intros H. assert (E : s.(esm).(EapServer.eap_if) = empty_if).
  { unfold eap_server_sm_init in H. by destruct outcomes as [|[]]; simplify_eq. }
  split; [split|split_and!].
  - by eapply EapServerSafety.reach_init.
  - intros d. cbn. by rewrite E.
  - done.
  - done.
  - done.
  - cbn. rewrite E. by intros [|].
  - by intros [|] ? ?.
Qed.

Lemma station_founded w : station w -> well_founded w.
Proof.
  induction 1 as [e l s flags period wpa sid w Hs Ha|w _ IH|w _ IH|w w' _ (Ht & Hm & Hc & Hf & Hg & Ho) He Hr [Hh Hi]
    |w _ (Ht & Hm & Hc & Hf & Hg & Ho)].
  - unfold eapol_auth_alloc in Ha. destruct sid; [|done]. injection Ha as <-.
    apply (inv_initialize _ founded_lawful founded_eap). by eapply founded_fresh.
  - by apply (inv_loop _ founded_lawful founded_eap).
  - by apply (inv_tick _ founded_lawful founded_eap).
  - split; [split; [by eapply server_ok_inputs; [apply Ht|]|done]|].
    destruct He as (Hp & _ & Hsu & Hes & Hpc & l & Hl & Hlog). split.
    { apply (matched_same w); [done| |exact Hh|by rewrite Hlog, results_app, (results_none _ Hl), app_nil_r].
      intros [s Es]. rewrite Es in Hi. destruct (machine (surr w)); [by eexists|done]. }
    rewrite Hp, Hpc, Hsu, Hes, Hlog, Hh by done.
    rewrite <- (app_nil_r (steps _)). split_and!; [done|done|intros E; apply granted_app; auto|].
    apply openings_app; [done|]. intros E. by apply inert_no_port in E.
  - split; [split; [exact (server_ok_event EvEapNotifyCached _ (proj1 Ht))|exact (proj2 Ht)]|]. split.
    { apply (matched_same w); [done|apply (notified_machine [EvEapNotifyCached])|done|]. 
      change (results (log w ++ [EvEapNotifyCached]) = results (log w)). by rewrite results_app, app_nil_r. }
    split_and!; [done|done|intros _; left; apply in_app_iff; right; by left|].
    change (openings_granted (steps (surr w)) (log w ++ [EvEapNotifyCached])).
    rewrite <- (app_nil_r (steps _)). apply openings_app; [done|]. by intros [|[]].
Qed.

(** The server leaves the port alone, as the 802.1X machines rely on. *)
#[local] Instance station_eap_laws : EapServerLaws hosted.
Proof.
  intros i [[s|] h]; [|done]. change (eap_server_sm_step i (mkHosted (Some s) h)) with (server_step i (mkHosted (Some s) h)).
  unfold server_step. cbn [machine].
  destruct (EapServer.eap_server_sm_step _ _ _) as [[b s']|] eqn:E; [|done].
  apply EapServerFrame.server_step_keeps in E. exact E.
Qed.

(** *** Frames *)

Lemma inputs_refl o : server_inputs o o.
Proof. split; [done|]. by destruct (machine o). Qed.

Lemma inputs_event e o : inert e = true -> server_inputs o (env_event e o).
Proof.
  intros He. destruct o as [[s|] h]; [|done]. split; [done|]. apply rtc_once.
  assert (E : server_event e s = s <| host := rest_event e s.(host) |> <| mem := s.(mem) |>) by (by destruct s, e).
  change (server_input s (server_event e s)). rewrite E. apply input_world.
Qed.

Lemma inputs_actions acts s : rtc server_input s (foldl told_action s acts).
Proof.
  revert s. induction acts as [|a acts IH]; intros s; [apply rtc_refl|]. etrans; [|apply IH].
  destruct a; try apply rtc_refl. apply rtc_once. by apply input_clear.
Qed.

Lemma rdn_bytes l i n d : bytes l -> rdn l i n = Ok d -> bytes d.
Proof.
  unfold rdn. intros Hl H. destruct (_ && _); [|done]. injection H as <-. unfold slice. by apply Forall_take, Forall_drop.
Qed.

Lemma frame_station buf f w : bytes buf -> frame_input buf f -> station w -> station (f w).
Proof.
  intros Hb Hf Hw. assert (Hr : wf_response w) by apply (station_founded w Hw).
  apply (station_input w); [done|by eapply frame_external|..].
  - destruct Hf as [|mok off len d Hd|g Hg|b]; try exact Hr.
    + intros d' E. cbn in E. destruct mok; [|done]. injection E as <-. by apply rdn_bytes in Hd.
    + intros d E. destruct (Hg (sm w)) as (_ & _ & _ & Hi & _). apply Hr. cbn in E. congruence.
  - destruct Hf; try apply inputs_refl. by apply (inputs_event EvRegisterStep).
Qed.

Definition new_server o (i : option eap_eapol_interface) : Prop :=
  exists e outcomes s, eap_server_sm_init e outcomes = Some s /\ o = made s /\ i = Some s.(esm).(EapServer.eap_if).

Lemma holds_map f sta : (forall w, station w -> station (f w)) -> holds station new_server sta ->
  holds station new_server (on_eapol f sta).
Proof.
  intros Hf [Hw Hi]. split; [|done]. intros w Ew. change (f <$> eapol sta = Some w) in Ew.
  destruct (eapol sta) as [v|]; [|done]. injection Ew as <-. by apply Hf, Hw.
Qed.

Lemma receive_station conf mok sid buf enc sta sta' : bytes buf -> receive conf mok sid buf enc sta = Ok sta' ->
  holds station new_server sta -> holds station new_server sta'.
Proof.
  intros Hb H Hs. unfold receive in H.
  destruct (ieee802_1x_receive _ _ _ _ _ _) as [[s1|]|] eqn:E; [|by injection H as <-|done]. cbn [cbind] in H. injection H as <-.
  assert (H1 : holds station new_server s1).
  { eapply (receive_holds station new_server buf); [| |exact E|revert Hs; by apply holds_same].
    - intros f w. by apply frame_station.
    - intros e i flags period wpa sid' w (e' & l & s & Hi & -> & ->) Ha. by eapply station_alloc. }
  apply holds_map; [|exact H1]. intros v Hv. apply (station_input v); [done|..].
  - repeat split. exists []. by rewrite app_nil_r.
  - apply (station_founded v Hv).
  - split; [done|]. cbn. destruct (machine (surr v)); [|done]. apply inputs_actions.
Qed.

Lemma live_station sta : live sta -> holds station new_server sta.
Proof.
  induction 1 as [flags p e l s Hi|sta conf mok sid buf enc sta' _ IH Hb E|sta _ IH|sta _ IH|sta _ IH|sta w w' _ IH Hw He Hr Hs|sta f r p q acts _ IH].
  - split; [done|]. by exists e, l, s.
  - by eapply receive_station.
  - apply holds_map; [apply station_run|done].
  - apply holds_map; [apply station_tick|done].
  - apply holds_map; [apply station_cached|done].
  - split; [|apply IH]. intros v [= <-]. apply (station_input w); [by apply IH|done..].
  - exact IH.
Qed.

(** ** Theorems *)

(** C1: while port control is automatic, whatever frames arrive and whatever the timers, the AAA server and the rest of
    hostapd do, the port of a station is opened only for a cached key, or when one of the steps its own EAP server has
    taken before, the n-th, whose result was the n-th the 802.1X machines were told of, turned no success into a success
    with a proof: a method other than Identity that ran to success, the word of the AAA server, or a re-authentication
    under a stored key. *)
Theorem port_opened_by_proof sta w l1 l2 : live sta -> sta.(eapol) = Some w ->
  w.(log) = l1 ++ EvSetPort true :: l2 -> granted w.(surr).(steps) l1.
Proof.
  intros Hl Ew E. assert (Hw : station w) by (by apply (live_station sta Hl)).
  destruct (station_founded w Hw) as (_ & _ & _ & _ & _ & Ho). by apply (Ho l1 l2).
Qed.

(** C11: where the server does not start ERP, a live station's EAP server never faults: the machines always have it to call,
    and its interface is a reachable one. *)
Theorem station_never_faults sta w : no_start -> live sta -> sta.(eapol) = Some w ->
  exists s, w.(surr).(machine) = Some s /\ server_reachable s.
Proof.
  intros Hno Hl Ew. assert (Hw : station w) by (by apply (live_station sta Hl)).
  destruct (station_founded w Hw) as [[Hs _] _]. unfold server_ok in Hs.
  destruct (machine (surr w)) as [s|]; [by exists s|by apply Hs in Hno].
Qed.

End station.

(** ** A run: from the first frame to the open port *)

Module Runs.
Import EapAuth EapAuth.Runs.

#[local] Instance demo_rest : Rest unit := {
  rest_event _ e := e; rest_finished _ _ _ _ _ := false; rest_alive _ := true
}.
#[local] Existing Instance EapAuth.Runs.demo_md5.
#[local] Existing Instance EapAuth.Runs.demo_sha256.

Abbreviation demo_machine := (hosted unit EapMethods.eap_priv).
Abbreviation demo_live := (@live unit EapMethods.eap_priv (demo_host false) demo_sha256 demo_rest demo_config (demo_methods false)).
Abbreviation demo_env := (@station_environment unit EapMethods.eap_priv (demo_host false) demo_sha256 demo_rest demo_config (demo_methods false)).
Abbreviation demo_receive := (@receive unit EapMethods.eap_priv (demo_host false) demo_sha256 demo_rest demo_config (demo_methods false)
  (mkConf true false false false false 3600) true true).

Definition demo_new : sta_info demo_machine :=
  mkSta WLAN_STA_ASSOC None zero_rx None None (made (mkServer fresh_eap tt [] [])) (Some empty_if) [].

(** A frame, and the run of the machines it leads to. *)
Definition frame (pkt : list Z) : list Z := eapol_frame 2 (if bool_decide (pkt = []) then IEEE802_1X_TYPE_EAPOL_START else 0) pkt [].
Definition received (pkt : list Z) (sta : sta_info demo_machine) : sta_info demo_machine :=
  match demo_receive (frame pkt) FRAME_ENCRYPTED sta with Ok s => s | Fault => sta end.
Definition handled (pkt : list Z) (sta : sta_info demo_machine) : sta_info demo_machine :=
  on_eapol (@eapol_sm_step_run _ demo_env) (received pkt sta).

(** EAPOL-Start, the name, the answer to the challenge. *)
Definition demo_identity : list Z := [2; 7; 0; 8; 1; 98; 111; 98].
Definition demo_challenge_response : list Z :=
  [2; 8; 0; 22; 4; 16] ++ replicate 16 (u8 (byte_sum ([8] ++ [112; 119] ++ replicate 16 5))).
Definition demo_authenticated : sta_info demo_machine :=
  handled demo_challenge_response (handled demo_identity (handled [] demo_new)).

(** The machine of a station, and whether its port was opened. *)
Definition machine_of (sta : sta_info demo_machine) : world demo_machine :=
  match sta.(eapol) with Some w => w | None => mkWorld (fresh_sm 0 0 false empty_if) (mkHosted None []) [] end.
Definition has_machine (sta : sta_info demo_machine) : bool := match sta.(eapol) with Some _ => true | None => false end.
Definition opens (e : event) : bool := match e with EvSetPort true => true | _ => false end.

Lemma machine_some sta : has_machine sta = true -> sta.(eapol) = Some (machine_of sta).
Proof. unfold has_machine, machine_of. by destruct (eapol sta). Qed.

(** The first opening in a log: what came before it, and after. *)
Fixpoint before_opening (l : list event) : list event :=
  match l with [] => [] | e :: l => if opens e then [] else e :: before_opening l end.
Fixpoint after_opening (l : list event) : list event :=
  match l with [] => [] | e :: l => if opens e then l else after_opening l end.

Lemma opening_split l : existsb opens l = true -> l = before_opening l ++ EvSetPort true :: after_opening l.
Proof.
  induction l as [|e l IH]; [done|]. cbn [existsb before_opening after_opening]. destruct (opens e) eqn:E; cbn [orb app].
  - intros _. by destruct e as [|[]| | | | | | | |].
  - intros H. by rewrite <- IH.
Qed.

Lemma live_handled pkt sta : demo_live sta -> forallb (fun b => (0 <=? b) && (b <? 256)) (frame pkt) = true ->
  is_ok (demo_receive (frame pkt) FRAME_ENCRYPTED sta) = true -> demo_live (handled pkt sta).
Proof.
  intros Hl Hb Hn. apply live_run. unfold received. destruct (demo_receive _ _ _) as [sta'|] eqn:E; [|done].
  eapply live_frame; [exact Hl| |exact E]. apply Forall_forall. intros b Hin. apply list_elem_of_In in Hin.
  rewrite List.forallb_forall in Hb. specialize (Hb b Hin). lia.
Qed.

Lemma demo_is_live : demo_live demo_authenticated.
Proof.
  repeat (apply live_handled; [|vm_compute; reflexivity..]).
  apply (live_new _ _ WLAN_STA_ASSOC None tt [] (mkServer fresh_eap tt [] [])). reflexivity.
Qed.

Lemma port_opened_by_proof_witness :
  let w := machine_of demo_authenticated in
  @granted unit EapMethods.eap_priv (demo_host false) demo_sha256 demo_config (demo_methods false) w.(surr).(steps) (before_opening w.(log)).
Proof.
  refine (@port_opened_by_proof unit EapMethods.eap_priv (demo_host false) demo_sha256 demo_rest demo_config (demo_methods false)
    (demo_eap_host_laws false) (@base_methods_laws unit (demo_host false) demo_md5) demo_authenticated (machine_of demo_authenticated)
    _ (after_opening (machine_of demo_authenticated).(log)) demo_is_live _ _).
  - apply machine_some. vm_compute. reflexivity.
  - apply opening_split. vm_compute. reflexivity.
Defined.

Lemma station_never_faults_witness : exists s, (machine_of demo_authenticated).(surr).(machine) = Some s /\
  @EapServerSafety.reachable unit EapMethods.eap_priv (demo_host false) demo_sha256 demo_config (demo_methods false) s.
Proof.
  refine (@station_never_faults unit EapMethods.eap_priv (demo_host false) demo_sha256 demo_rest demo_config (demo_methods false)
    (demo_eap_host_laws false) (@base_methods_laws unit (demo_host false) demo_md5) demo_authenticated (machine_of demo_authenticated) _ demo_is_live _).
  - intros e. reflexivity.
  - apply machine_some. vm_compute. reflexivity.
Defined.
End Runs.
End Station.
